(* ===== verification/_CoqProject ===== *)
-Q . S2P
Prelude.v
Prefix.v
Stream.v
StreamRead.v
Table.v
TableSpec.v
TableIter.v
Hash.v
Jhash.v
ASPath.v
ASPathSpec.v
ASPathWire.v
ASPathOps.v
ASPathTotal.v
Community.v
Ecommunity.v
Tarpan.v
Decision.v
DecisionSpec.v
Workqueue.v
Rib.v
Fsm.v
FsmSpec.v
FsmClear.v
Attr.v
AttrSpec.v
Update.v
UpdateSpec.v
Open.v
OpenSpec.v
OpenTrip.v
Message.v
MessageSpec.v
MessageReceive.v
MessageCapability.v
Chain.v
Linklist.v
Plist.v
PlistSpec.v
PlistRefine.v
Refresh.v
OrfTrip.v
