(* ===== verification/Prelude.v ===== *)
(** * Verification of the BGP daemon of Tarpan

    Tarpan is a fork of the Quagga routing suite whose BGP daemon carries a new
    path attribute, with which protocols other than BGP (here: Wiser, which
    routes by cost) exchange data along BGP paths.  This library models the parts
    of the daemon that hold and compare routing data and the state machine of its
    sessions, and proves what each of them promises to the others.

    ** The program

    A peer's session is driven by the state machine (bgpd/bgp_fsm.c).  Messages
    (bgpd/bgp_packet.c) are put together in stream buffers (lib/stream.c) from what
    the socket delivers.  OPEN messages negotiate capabilities (bgpd/bgp_open.c);
    UPDATE messages carry attributes, which are parsed (bgpd/bgp_attr.c) into AS paths (bgpd/bgp_aspath.c),
    communities (bgpd/bgp_community.c, bgpd/bgp_ecommunity.c) and Tarpan messages
    (bgpd/bgp_tarpan.c, bgpd/wiser.cpp), which are shared by reference counting
    through hash tables (lib/hash.c, lib/jhash.c).  Routes hang off the nodes of
    radix trees (lib/table.c) keyed by prefixes (lib/prefix.c), in lists kept by
    bgpd/bgp_route.c; the best route of each node is selected there.  When a
    session ends its routes are cleared by a work queue (lib/workqueue.c).

    ** The files

    - Prelude: outcomes of C calls (a value, a failed assertion, undefined
      behaviour), machine integers, blocks of memory, flags.
    - Prefix: lib/prefix.c, lib/prefix.h.  Matching, masks, netmasks.
    - Stream, StreamRead: lib/stream.c.  Buffers with their two positions, and the
      FIFO; reading from a buffer that holds enough.
    - Table, TableSpec, TableIter: lib/table.c.  Nodes and links in a heap with
      the operations of the source; the refinement of a finite map; iteration,
      paused iterators and deletion.
    - Hash, Jhash: lib/hash.c, lib/jhash.c, and the sharing of values, stated as
      the class [InternLaws] of what a client gives and gets.
    - ASPath, ASPathSpec, ASPathWire, ASPathOps, ASPathTotal: bgpd/bgp_aspath.c.
      Segments, normal form and text; the wire format; prepending, aggregation and
      the reconciliation of 4-byte paths; and that these operations return on every
      well-formed path.
    - Community, Ecommunity: bgpd/bgp_community.c, an instance of [InternLaws], and
      bgpd/bgp_ecommunity.c.
    - Tarpan: bgpd/bgp_tarpan.c, bgpd/wiser.cpp and the cost tables.
    - Decision, DecisionSpec: [bgp_info_cmp] and [bgp_best_selection] of
      bgpd/bgp_route.c, proved against the class [Preference].
    - Workqueue: lib/workqueue.c, with the class [Drains] of what its clients'
      work must satisfy.
    - Rib: the routes of a node, with all reference and prefix counts
      (bgpd/bgp_route.c 133-310).
    - Fsm, FsmSpec, FsmClear: bgpd/bgp_fsm.c with the functions it calls of
      bgpd/bgp_packet.c, bgpd/bgp_network.c, bgpd/bgp_route.c and bgpd/bgpd.c;
      its types and timers; the peer, its events and its queue as a transition
      system.
    - Attr, AttrSpec: [bgp_attr_parse] of bgpd/bgp_attr.c with the parser of every
      attribute, and its behaviour on arbitrary bytes.  A Tarpan handler is an
      instance of the class [ReceiveHandler]; Wiser's is one.
    - Update, UpdateSpec: [bgp_update_receive] of bgpd/bgp_packet.c and
      [bgp_nlri_parse] of bgpd/bgp_route.c on top of it.  What a message does to the
      routing table is the list of the calls it makes.
    - Open, OpenSpec, OpenTrip: bgpd/bgp_open.c and [bgp_open_receive],
      [bgp_collision_detect] and [bgp_open_send] of bgpd/bgp_packet.c.  OPEN messages
      of arbitrary content; an OPEN message from one peer to the other.
    - Message, MessageSpec, MessageReceive, MessageCapability: [bgp_read] of
      bgpd/bgp_packet.c and the functions for the remaining types of messages.  The
      class [Keeps] states what [bgp_read] needs of the function of a message; the
      functions of Open, Update and Message are shown to be an instance.
    - Chain, Linklist: doubly linked lists in a store, and lib/linklist.c.
    - Plist, PlistSpec, PlistRefine: lib/plist.c, on the same lists.  Entries, lists by
      name and commands; their meaning as a finite map; the refinement.
    - Refresh, OrfTrip: [bgp_route_refresh_send] and [bgp_capability_send] of
      bgpd/bgp_packet.c, and a prefix list on its way from one router to the other
      as an outbound route filter.

    ** How the code is modelled

    Integers are [Z], reduced to their width where the source can exceed it.
    Bytes are integers below 256 and blocks of memory are lists of them; reading
    or writing outside a block is [Fault Undefined], a failed assertion is [Fault
    Aborted].  Objects with links are held in finite maps from addresses, so that
    sharing and dangling pointers are visible.  Loops that are not structural take
    fuel; the theorems give the fuel that is enough (the number of nodes, of bytes
    or of items), so that what they state of the result includes that there is one.
    Code outside the sources (the protobuf functions, system calls, [rand], the
    clock) is an argument of the definitions that use it.

    ** What the theorems show

    - Routing tables refine finite maps from prefixes to reference-counted nodes;
      iteration visits each node once, in order, also when paused; deletion frees
      each node once.
    - Streams never leave their buffer; words survive writing and reading.
    - AS paths and communities survive the conversions to text and to the wire and
      back; the parser of AS paths returns for every input; normal forms are
      canonical, so that shared values are equal exactly when they are one object.
    - An UPDATE of arbitrary content is received without a memory fault: either it is
      refused with a NOTIFICATION and touches no route, or it makes only well-formed
      calls into the routing table, with attributes that were checked.
    - An OPEN message of arbitrary content is refused with a NOTIFICATION or leads to
      a valid negotiation; two daemons agree on what both configured.
    - However the socket cuts the byte stream of a connection, [bgp_read] processes
      exactly the messages of the stream, and returns, with two exceptions: bytes the
      protobuf decoder refuses, and CAPABILITY messages, whose loop may not end.
    - Linked lists and prefix lists refine sequences and finite maps; a prefix is judged
      by the first entry that applies, also by the other router when the list was
      sent to it, if it fits in a packet.
    - The comparison of routes is a lexicographic order when it can be one, and the
      selected route is its minimum; Wiser selects the cheapest route.
    - Prefix counts are exact; the list of routes of a node refines the list that
      the selection works on.
    - A work queue drains, in order, whenever it yields.
    - The state machine is total on its events, runs the timers of its state, clears
      the routes of a session before the next one, and gets back to [Idle].
    - Some theorems show where the code differs from what it means to do: they have
      the kind error and are listed among the findings of the manifest.

    ** What is not modelled

    The other daemons and the connection to the kernel, which are separate programs or
    the operating system.  The terminal, the parsing of its commands, logging and
    SNMP, which are input and output.  Route maps and access lists, the writing of
    UPDATE messages, dampening, next hops and the scheduler (lib/thread.c), whose
    clients take their steps in any order in the models here.
    Allocation does not fail (the source aborts when it does). *)
From stdpp Require Export base numbers list gmap strings.
From Stdlib Require Export ZArith Lia.

(** ** Outcomes of a C call

    [Ok] is a normal return.  A failed [assert] (lib/zassert.h) and a failed
    allocation (lib/memory.c) stop the daemon: [Aborted].  Reading or writing
    outside an object, or through a null or dangling pointer, is
    [Undefined]. *)
Inductive fault :=
  | Aborted
  | Undefined.

Inductive M (A : Type) :=
  | Ok (a : A)
  | Fault (f : fault).
Arguments Ok {A} a.
Arguments Fault {A} f.

#[export] Instance M_ret : MRet M := λ A a, Ok a.
#[export] Instance M_bind : MBind M := λ A B k m,
  match m with Ok a => k a | Fault f => Fault f end.
#[export] Instance M_fmap : FMap M := λ A B k m,
  match m with Ok a => Ok (k a) | Fault f => Fault f end.

Declare Scope c_scope.
Delimit Scope c_scope with c.
Notation "'assert!' b ';;' k" := (if b : bool then k else Fault Aborted)
  (at level 100, b at level 99, k at level 200, right associativity) : c_scope.
Open Scope c_scope.

Definition of_opt {A} (o : option A) : M A :=
  match o with Some a => Ok a | None => Fault Undefined end.

(** A computation that can stop only through a failed [assert]. *)
Definition no_ub {A} (m : M A) : Prop := m ≠ Fault Undefined.

(** [m] returns normally, with a result that satisfies [P]. *)
Definition returns {A} (m : M A) (P : A → Prop) : Prop :=
  ∃ a, m = Ok a ∧ P a.

(** Every normal result of [m] satisfies [P], and [m] has no undefined
    behaviour. *)
Definition safe {A} (m : M A) (P : A → Prop) : Prop :=
  match m with Ok a => P a | Fault Aborted => True | Fault Undefined => False end.

(** ** Machine integers

    A w-bit unsigned value is a [Z] in [0, 2^w); these are the
    conversions the C casts and the modular arithmetic perform. *)
Definition u8 (z : Z) : Z := (z mod 2 ^ 8)%Z.
Definition u16 (z : Z) : Z := (z mod 2 ^ 16)%Z.
Definition u32 (z : Z) : Z := (z mod 2 ^ 32)%Z.
Definition u64 (z : Z) : Z := (z mod 2 ^ 64)%Z.

Definition is_byte (z : Z) : Prop := (0 ≤ z < 2 ^ 8)%Z.
Definition bytes_ok (l : list Z) : Prop := Forall is_byte l.

#[export] Instance is_byte_dec z : Decision (is_byte z).
Proof. unfold is_byte. apply _. Defined.
#[export] Instance bytes_ok_dec l : Decision (bytes_ok l).
Proof. unfold bytes_ok. apply _. Defined.

(** The flag macros of lib/zebra.h. *)
Definition CHECK_FLAG (v f : Z) : bool := negb (Z.land v f =? 0)%Z.
Definition SET_FLAG (v f : Z) : Z := Z.lor v f.
Definition UNSET_FLAG (v f : Z) : Z := Z.ldiff v f.

(** ** Memory blocks

    A block is the list of its cells; an access outside the block has no
    value. *)
Definition getb {A} (l : list A) (i : Z) : option A :=
  if decide (0 ≤ i)%Z then l !! Z.to_nat i else None.

Definition setb {A} (l : list A) (i : Z) (a : A) : option (list A) :=
  if decide (0 ≤ i < Z.of_nat (length l))%Z then Some (<[Z.to_nat i:=a]> l) else None.

Definition rd {A} (l : list A) (i : Z) : M A := of_opt (getb l i).
Definition wr {A} (l : list A) (i : Z) (a : A) : M (list A) := of_opt (setb l i a).

(** The [n] cells from offset [i], as [memcpy] reads them. *)
Definition rdn {A} (l : list A) (i n : Z) : M (list A) :=
  if decide (0 ≤ i ∧ 0 ≤ n ∧ i + n ≤ Z.of_nat (length l))%Z
  then Ok (take (Z.to_nat n) (drop (Z.to_nat i) l))
  else Fault Undefined.

(** [memcpy] of the cells [src] to offset [i]. *)
Definition wrn {A} (l : list A) (i : Z) (src : list A) : M (list A) :=
  if decide (0 ≤ i ∧ i + Z.of_nat (length src) ≤ Z.of_nat (length l))%Z
  then Ok (take (Z.to_nat i) l ++ src ++ drop (Z.to_nat i + length src) l)
  else Fault Undefined.

(** ** Big-endian numbers

    [shifts n] is the list of shift amounts [8 * (n - 1), ..., 8, 0] that the
    unrolled code of the n-byte accessors uses. *)
Fixpoint shifts (n : nat) : list Z :=
  match n with O => [] | S m => (8 * Z.of_nat m)%Z :: shifts m end.

(** [l = d[p++] << s1; l |= d[p++] << s2; ...] *)
Fixpoint get_shifted (d : list Z) (p : Z) (shs : list Z) : M Z :=
  match shs with
  | [] => Ok 0%Z
  | sh :: shs' =>
      b ← rd d p;
      r ← get_shifted d (p + 1)%Z shs';
      Ok (Z.lor (Z.shiftl b sh) r)
  end.

(** [d[p++] = (u_char)(v >> s1); d[p++] = (u_char)(v >> s2); ...] *)
Fixpoint put_shifted (d : list Z) (p v : Z) (shs : list Z) : M (list Z) :=
  match shs with
  | [] => Ok d
  | sh :: shs' =>
      d' ← wr d p (u8 (Z.shiftr v sh));
      put_shifted d' (p + 1)%Z v shs'
  end.

(** The bytes of [v], most significant first, and their value. *)
Fixpoint be_bytes (n : nat) (v : Z) : list Z :=
  match n with
  | O => []
  | S m => ((v / 2 ^ (8 * Z.of_nat m)) mod 2 ^ 8)%Z :: be_bytes m v
  end.

Fixpoint be_value (l : list Z) : Z :=
  match l with
  | [] => 0%Z
  | b :: l' => (b * 2 ^ (8 * Z.of_nat (length l')) + be_value l')%Z
  end.

(** ** Automation *)
Create HintDb cdb discriminated.

Ltac unwrap :=
  repeat match goal with
  | H : Ok _ = Ok _ |- _ => injection H as H; subst
  | H : Some _ = Some _ |- _ => injection H as H; subst
  | H : Ok _ = Fault _ |- _ => discriminate H
  | H : Fault _ = Ok _ |- _ => discriminate H
  | H : Some _ = None |- _ => discriminate H
  | H : None = Some _ |- _ => discriminate H
  | H : (_, _) = (_, _) |- _ => injection H as H; subst
  end.

(** Case analysis on the guards of a translated body. *)
Ltac guards :=
  repeat (case_decide || case_match || match goal with
  | |- context [if ?b then _ else _] => destruct b eqn:?
  end); unwrap.

(** Evaluate a decidable closed proposition. *)
Ltac decide_by_compute := apply (bool_decide_unpack _); vm_compute; exact I.

Ltac byte_lia :=
  unfold is_byte, u8, u16, u32, u64 in *;
  change (2 ^ 8)%Z with 256%Z in *; change (2 ^ 16)%Z with 65536%Z in *;
  change (2 ^ 32)%Z with 4294967296%Z in *;
  change (2 ^ 64)%Z with 18446744073709551616%Z in *; try lia.

(** ** Flag lemmas *)
Lemma check_set v f g : CHECK_FLAG (SET_FLAG v f) g = CHECK_FLAG v g || CHECK_FLAG f g.
Proof.
  unfold CHECK_FLAG, SET_FLAG. rewrite Z.land_lor_distr_l.
  destruct (Z.eqb_spec (Z.land v g) 0) as [->|H1], (Z.eqb_spec (Z.land f g) 0) as [->|H2];
    cbn [Z.lor negb orb]; rewrite ?Z.lor_0_r, ?Z.lor_0_l; [done|by rewrite (proj2 (Z.eqb_neq _ _))..|].
  rewrite (proj2 (Z.eqb_neq _ _)); [done|]. intros [? ?]%Z.lor_eq_0_iff. done.
Qed.

Lemma check_unset_other v f g : Z.land f g = 0%Z → CHECK_FLAG (UNSET_FLAG v f) g = CHECK_FLAG v g.
Proof.
  intros H. unfold CHECK_FLAG, UNSET_FLAG. do 2 f_equal. apply Z.bits_inj'. intros n Hn.
  assert (Z.testbit (Z.land f g) n = false) as Hb by (rewrite H; apply Z.bits_0).
  rewrite Z.land_spec in Hb. rewrite !Z.land_spec, Z.ldiff_spec.
  destruct (Z.testbit v n), (Z.testbit f n), (Z.testbit g n); done.
Qed.

Lemma check_unset_same v f g : Z.ldiff g f = 0%Z → CHECK_FLAG (UNSET_FLAG v f) g = false.
Proof.
  intros H. unfold CHECK_FLAG, UNSET_FLAG. apply negb_false_iff, Z.eqb_eq, Z.bits_inj'. intros n Hn.
  assert (Z.testbit (Z.ldiff g f) n = false) as Hb by (rewrite H; apply Z.bits_0).
  rewrite Z.ldiff_spec in Hb. rewrite Z.land_spec, Z.ldiff_spec, Z.bits_0.
  destruct (Z.testbit v n), (Z.testbit f n), (Z.testbit g n); done.
Qed.

(** Evaluate the tests of a flag after sets and clears of known flags. *)
Ltac flags_simpl :=
  repeat match goal with
  | |- context [CHECK_FLAG (SET_FLAG ?v ?f) ?g] => rewrite (check_set v f g)
  | |- context [CHECK_FLAG (UNSET_FLAG ?v ?f) ?g] =>
      first [rewrite (check_unset_other v f g) by done | rewrite (check_unset_same v f g) by done]
  end.

(** ** Outcome lemmas *)
Section outcome.
Context {A B : Type}.
Implicit Types (m : M A) (k : A → M B).

Lemma bind_ok m k b : (m ≫= k) = Ok b ↔ ∃ a, m = Ok a ∧ k a = Ok b.
Proof. destruct m; cbn; naive_solver. Qed.

Lemma safe_bind m k P Q :
  safe m Q → (∀ a, Q a → safe (k a) P) → safe (m ≫= k) P.
Proof. destruct m as [a|[]]; cbn; auto. Qed.

Lemma safe_mono m (P Q : A → Prop) : safe m P → (∀ a, P a → Q a) → safe m Q.
Proof. destruct m as [a|[]]; cbn; auto. Qed.

Lemma safe_ok m (P : A → Prop) a : safe m P → m = Ok a → P a.
Proof. by intros ? ->. Qed.

Lemma safe_no_ub m P : safe m P → no_ub m.
Proof. unfold no_ub. by destruct m as [a|[]]. Qed.

Lemma returns_bind m k P Q :
  returns m Q → (∀ a, Q a → returns (k a) P) → returns (m ≫= k) P.
Proof. intros (a & -> & Ha) H. exact (H a Ha). Qed.

Lemma returns_safe m P : returns m P → safe m P.
Proof. by intros (a & -> & ?). Qed.

Lemma of_opt_ok (o : option A) a : of_opt o = Ok a ↔ o = Some a.
Proof. destruct o; cbn; split; congruence. Qed.
End outcome.

(** ** Memory block lemmas *)
Section blocks.
Context {A : Type}.
Implicit Types (l src : list A) (i n : Z).

Lemma rd_lookup l i a : (0 ≤ i)%Z → rd l i = Ok a ↔ l !! Z.to_nat i = Some a.
Proof. intros. unfold rd, getb. rewrite of_opt_ok. by rewrite decide_True. Qed.

Lemma rd_in_bounds l i : (0 ≤ i < Z.of_nat (length l))%Z → ∃ a, rd l i = Ok a.
Proof.
  intros. destruct (lookup_lt_is_Some_2 l (Z.to_nat i)) as [a Ha]; [lia|].
  exists a. apply rd_lookup; [lia|done].
Qed.

Lemma rd_nat l (k : nat) a : l !! k = Some a → rd l (Z.of_nat k) = Ok a.
Proof. intros. apply rd_lookup; [lia|]. by rewrite Nat2Z.id. Qed.

Lemma rd_inv l i a : rd l i = Ok a → (0 ≤ i < Z.of_nat (length l))%Z ∧ l !! Z.to_nat i = Some a.
Proof.
  unfold rd, getb. rewrite of_opt_ok. case_decide; [|done].
  intros H'. apply lookup_lt_Some in H' as ?. split; [lia|done].
Qed.

Lemma wr_in_bounds l i a :
  (0 ≤ i < Z.of_nat (length l))%Z → wr l i a = Ok (<[Z.to_nat i:=a]> l).
Proof. intros. unfold wr, setb. by rewrite decide_True. Qed.

Lemma wr_inv l i a l' :
  wr l i a = Ok l' → (0 ≤ i < Z.of_nat (length l))%Z ∧ l' = <[Z.to_nat i:=a]> l.
Proof. unfold wr, setb. case_decide; cbn; [|done]. intros; unwrap; done. Qed.

Lemma wrn_in_bounds l i src :
  (0 ≤ i ∧ i + Z.of_nat (length src) ≤ Z.of_nat (length l))%Z →
  wrn l i src = Ok (take (Z.to_nat i) l ++ src ++ drop (Z.to_nat i + length src) l).
Proof. intros. unfold wrn. by rewrite decide_True. Qed.

Lemma rdn_in_bounds l i n :
  (0 ≤ i ∧ 0 ≤ n ∧ i + n ≤ Z.of_nat (length l))%Z →
  rdn l i n = Ok (take (Z.to_nat n) (drop (Z.to_nat i) l)).
Proof. intros. unfold rdn. by rewrite decide_True. Qed.

Lemma length_splice l src (k : nat) :
  k + length src ≤ length l →
  length (take k l ++ src ++ drop (k + length src) l) = length l.
Proof. intros. rewrite !length_app, length_take, length_drop. lia. Qed.

Lemma splice_slice l src (k : nat) :
  k ≤ length l →
  take (length src) (drop k (take k l ++ src ++ drop (k + length src) l)) = src.
Proof.
  intros. rewrite drop_app_length'; [|rewrite length_take; lia].
  by rewrite take_app_length.
Qed.

Lemma splice_snoc l src (k : nat) a :
  k + length src < length l →
  <[k + length src:=a]> (take k l ++ src ++ drop (k + length src) l)
  = take k l ++ (src ++ [a]) ++ drop (k + length (src ++ [a])) l.
Proof.
  intros. assert (length (take k l) = k) as Hk by (rewrite length_take; lia).
  rewrite insert_app_r_alt by lia. f_equal. rewrite Hk.
  replace (k + length src - k) with (length src) by lia.
  rewrite insert_app_r_alt, Nat.sub_diag, <-app_assoc by lia. f_equal.
  rewrite length_app; cbn.
  destruct (drop (k + length src) l) as [|x t] eqn:E.
  - apply (f_equal length) in E. rewrite length_drop in E. cbn in E. lia.
  - cbn. f_equal.
    replace (k + (length src + 1)) with (k + length src + 1) by lia.
    by rewrite <-drop_drop, E.
Qed.
End blocks.

Lemma take_zip {A B C} (f : A → B → C) (n : nat) l1 l2 :
  take n (zip_with f l1 l2) = zip_with f (take n l1) (take n l2).
Proof. revert l1 l2. induction n; intros [|??] [|??]; cbn; try done. by rewrite IHn. Qed.

(** ** Big-endian lemmas *)
Lemma lor_shiftl_add (a b n : Z) :
  (0 ≤ n)%Z → (0 ≤ b < 2 ^ n)%Z → Z.lor (Z.shiftl a n) b = (a * 2 ^ n + b)%Z.
Proof.
  intros Hn Hb. rewrite <-Z.add_nocarry_lor.
  - by rewrite Z.shiftl_mul_pow2 by lia.
  - apply Z.bits_inj'. intros i Hi.
    rewrite Z.land_spec, Z.bits_0, Z.shiftl_spec by done.
    destruct (Z.lt_ge_cases i n).
    + by rewrite Z.testbit_neg_r by lia.
    + destruct (Z.eq_dec b 0) as [->|]; [by rewrite Z.bits_0, andb_false_r|].
      rewrite (Z.bits_above_log2 b i), andb_comm; [done|lia|].
      assert (Z.log2 b < n)%Z by (apply Z.log2_lt_pow2; lia). lia.
Qed.

Lemma land_shiftl_high (x m n : Z) :
  (0 ≤ n)%Z → Z.land x (Z.shiftl m n) = Z.shiftl (Z.land (Z.shiftr x n) m) n.
Proof.
  intros Hn. apply Z.bits_inj'. intros i Hi.
  rewrite Z.land_spec, !Z.shiftl_spec by done.
  destruct (Z.lt_ge_cases i n); [rewrite !(Z.testbit_neg_r _ (i - n)) by lia; apply andb_false_r|].
  rewrite Z.land_spec, Z.shiftr_spec by lia. do 2 f_equal. lia.
Qed.

Lemma length_be_bytes n v : length (be_bytes n v) = n.
Proof. induction n; cbn; congruence. Qed.

Lemma be_bytes_ok n v : bytes_ok (be_bytes n v).
Proof.
  induction n; cbn; constructor; [|done].
  unfold is_byte. apply Z.mod_pos_bound. lia.
Qed.

Lemma be_value_bound l : bytes_ok l → (0 ≤ be_value l < 2 ^ (8 * Z.of_nat (length l)))%Z.
Proof.
  induction 1 as [|b l Hb Hl IH]; cbn [be_value length]; [lia|].
  rewrite Nat2Z.inj_succ, Z.mul_succ_r, Z.pow_add_r by lia.
  change (2 ^ 8)%Z with 256%Z. byte_lia. nia.
Qed.

(** Decoding inverts encoding, modulo the width. *)
Lemma be_value_bytes n v : be_value (be_bytes n v) = (v mod 2 ^ (8 * Z.of_nat n))%Z.
Proof.
  induction n as [|n IH]; cbn [be_value be_bytes]; [by rewrite Z.mod_1_r|].
  rewrite IH, length_be_bytes, Nat2Z.inj_succ, Z.mul_succ_r, Z.pow_add_r by lia.
  rewrite Z.rem_mul_r by lia. lia.
Qed.

(** Encoding inverts decoding. *)
Lemma be_bytes_value l : bytes_ok l → be_bytes (length l) (be_value l) = l.
Proof.
  enough (∀ c, bytes_ok l →
    be_bytes (length l) (c * 2 ^ (8 * Z.of_nat (length l)) + be_value l)%Z = l) as E.
  { intros Hl. specialize (E 0%Z Hl). by rewrite Z.mul_0_l, Z.add_0_l in E. }
  induction l as [|b l IH]; intros c Hl; cbn [length be_value be_bytes]; [done|].
  inversion_clear Hl as [|?? Hb Hl'].
  pose proof (be_value_bound l Hl').
  set (w := (8 * Z.of_nat (length l))%Z) in *.
  assert (2 ^ (8 * Z.of_nat (S (length l))) = 2 ^ 8 * 2 ^ w)%Z as ->.
  { unfold w. rewrite <-Z.pow_add_r by lia. f_equal. lia. }
  replace (c * (2 ^ 8 * 2 ^ w) + (b * 2 ^ w + be_value l))%Z
    with ((c * 2 ^ 8 + b) * 2 ^ w + be_value l)%Z by ring.
  f_equal; [|by apply IH].
  rewrite Z.div_add_l, Z.div_small by lia. rewrite Z.add_0_r, Z.add_comm, Z.mod_add by lia.
  apply Z.mod_small. exact Hb.
Qed.

Lemma shifted_slice (d : list Z) (k : nat) b l :
  take (S (length l)) (drop k d) = b :: l →
  d !! k = Some b ∧ take (length l) (drop (S k) d) = l.
Proof.
  intros E. destruct (drop k d) as [|x t] eqn:Ed; [done|]. cbn in E. simplify_eq.
  split.
  - rewrite <-(Nat.add_0_r k), <-lookup_drop, Ed. done.
  - rewrite <-Nat.add_1_r, <-drop_drop, Ed. cbn. by f_equal.
Qed.

(** The unrolled reads compute the big-endian value of the slice. *)
Lemma get_shifted_value l (d : list Z) (k : nat) :
  bytes_ok l → take (length l) (drop k d) = l →
  get_shifted d (Z.of_nat k) (shifts (length l)) = Ok (be_value l).
Proof.
  revert k. induction l as [|b l IH]; intros k Hl E; [done|].
  inversion_clear Hl as [|?? Hb Hl'].
  apply shifted_slice in E as [Eb El]. cbn [length shifts get_shifted be_value].
  rewrite (rd_nat _ _ _ Eb). cbn.
  replace (Z.of_nat k + 1)%Z with (Z.of_nat (S k)) by lia.
  rewrite IH by done. cbn. f_equal.
  apply lor_shiftl_add; [lia|]. by apply be_value_bound.
Qed.

(** The unrolled writes store the big-endian bytes. *)
Lemma put_shifted_splice n (d : list Z) (k : nat) v pre :
  k + length pre + n ≤ length d →
  put_shifted (take k d ++ pre ++ drop (k + length pre) d)
    (Z.of_nat (k + length pre)) v (shifts n)
  = Ok (take k d ++ (pre ++ be_bytes n v) ++ drop (k + length (pre ++ be_bytes n v)) d).
Proof.
  revert pre. induction n as [|n IH]; intros pre Hlen; cbn [shifts put_shifted be_bytes].
  { by rewrite app_nil_r. }
  rewrite wr_in_bounds by (rewrite length_splice; lia). cbn.
  rewrite Nat2Z.id, splice_snoc by lia.
  replace (Z.of_nat (k + length pre) + 1)%Z
    with (Z.of_nat (k + length (pre ++ [u8 (Z.shiftr v (8 * Z.of_nat n))])))
    by (rewrite length_app; cbn; lia).
  rewrite IH by (rewrite length_app; cbn; lia).
  unfold u8. rewrite Z.shiftr_div_pow2, <-!(assoc_L (++)) by lia. done.
Qed.

Lemma put_shifted_in_bounds n (d : list Z) (k : nat) v :
  k + n ≤ length d →
  put_shifted d (Z.of_nat k) v (shifts n)
  = Ok (take k d ++ be_bytes n v ++ drop (k + n) d).
Proof.
  intros H. pose proof (put_shifted_splice n d k v []) as P. cbn in P.
  rewrite Nat.add_0_r, take_drop, length_be_bytes in P. apply P. lia.
Qed.
