(* ===== verification/Prefix.v ===== *)
(** IPv4 and IPv6 prefixes: lib/prefix.c and lib/prefix.h.

    [Record prefix] is [struct prefix] with [HAVE_IPV6]: the union is the block
    of its 16 bytes in memory order, so an IPv4 address is its first four bytes
    and [ntohl (s_addr)] is their big-endian value whatever the host.  Module
    [Prefix] holds the operations; every byte access goes through [rd], so an
    access outside the union is [Undefined].

    The reference notion is the bit string [key p], the first [prefixlen] bits
    of the address: matching, comparison, masking and the common-bit count are
    characterised on it. *)
From S2P Require Import Prelude.
Open Scope Z_scope.

Definition AF_UNSPEC : Z := 0.
Definition AF_INET : Z := 2.
Definition AF_INET6 : Z := 10.
Definition AFI_IP : Z := 1.
Definition AFI_IP6 : Z := 2.

Definition IPV4_MAX_BYTELEN : Z := 4.
Definition IPV4_MAX_BITLEN : Z := 32.
Definition IPV4_MAX_PREFIXLEN : Z := 32.
Definition IPV6_MAX_BYTELEN : Z := 16.
Definition IPV6_MAX_BITLEN : Z := 128.

(** [PSIZE(a)] *)
Definition PSIZE (a : Z) : Z := (a + 7) / 8.

Record prefix := Prefix {
  family : Z;
  prefixlen : Z;
  u : list Z;
}.

(** Size of the union in [struct prefix]. *)
Definition prefix_union_size : nat := 16.

Definition maskbit : list Z :=
  [0x00; 0x80; 0xc0; 0xe0; 0xf0; 0xf8; 0xfc; 0xfe; 0xff].

Definition maskbytes6 : list (list Z) :=
  [[0; 0; 0; 0; 0; 0; 0; 0; 0; 0; 0; 0; 0; 0; 0; 0];
   [128; 0; 0; 0; 0; 0; 0; 0; 0; 0; 0; 0; 0; 0; 0; 0];
   [192; 0; 0; 0; 0; 0; 0; 0; 0; 0; 0; 0; 0; 0; 0; 0];
   [224; 0; 0; 0; 0; 0; 0; 0; 0; 0; 0; 0; 0; 0; 0; 0];
   [240; 0; 0; 0; 0; 0; 0; 0; 0; 0; 0; 0; 0; 0; 0; 0];
   [248; 0; 0; 0; 0; 0; 0; 0; 0; 0; 0; 0; 0; 0; 0; 0];
   [252; 0; 0; 0; 0; 0; 0; 0; 0; 0; 0; 0; 0; 0; 0; 0];
   [254; 0; 0; 0; 0; 0; 0; 0; 0; 0; 0; 0; 0; 0; 0; 0];
   [255; 0; 0; 0; 0; 0; 0; 0; 0; 0; 0; 0; 0; 0; 0; 0];
   [255; 128; 0; 0; 0; 0; 0; 0; 0; 0; 0; 0; 0; 0; 0; 0];
   [255; 192; 0; 0; 0; 0; 0; 0; 0; 0; 0; 0; 0; 0; 0; 0];
   [255; 224; 0; 0; 0; 0; 0; 0; 0; 0; 0; 0; 0; 0; 0; 0];
   [255; 240; 0; 0; 0; 0; 0; 0; 0; 0; 0; 0; 0; 0; 0; 0];
   [255; 248; 0; 0; 0; 0; 0; 0; 0; 0; 0; 0; 0; 0; 0; 0];
   [255; 252; 0; 0; 0; 0; 0; 0; 0; 0; 0; 0; 0; 0; 0; 0];
   [255; 254; 0; 0; 0; 0; 0; 0; 0; 0; 0; 0; 0; 0; 0; 0];
   [255; 255; 0; 0; 0; 0; 0; 0; 0; 0; 0; 0; 0; 0; 0; 0];
   [255; 255; 128; 0; 0; 0; 0; 0; 0; 0; 0; 0; 0; 0; 0; 0];
   [255; 255; 192; 0; 0; 0; 0; 0; 0; 0; 0; 0; 0; 0; 0; 0];
   [255; 255; 224; 0; 0; 0; 0; 0; 0; 0; 0; 0; 0; 0; 0; 0];
   [255; 255; 240; 0; 0; 0; 0; 0; 0; 0; 0; 0; 0; 0; 0; 0];
   [255; 255; 248; 0; 0; 0; 0; 0; 0; 0; 0; 0; 0; 0; 0; 0];
   [255; 255; 252; 0; 0; 0; 0; 0; 0; 0; 0; 0; 0; 0; 0; 0];
   [255; 255; 254; 0; 0; 0; 0; 0; 0; 0; 0; 0; 0; 0; 0; 0];
   [255; 255; 255; 0; 0; 0; 0; 0; 0; 0; 0; 0; 0; 0; 0; 0];
   [255; 255; 255; 128; 0; 0; 0; 0; 0; 0; 0; 0; 0; 0; 0; 0];
   [255; 255; 255; 192; 0; 0; 0; 0; 0; 0; 0; 0; 0; 0; 0; 0];
   [255; 255; 255; 224; 0; 0; 0; 0; 0; 0; 0; 0; 0; 0; 0; 0];
   [255; 255; 255; 240; 0; 0; 0; 0; 0; 0; 0; 0; 0; 0; 0; 0];
   [255; 255; 255; 248; 0; 0; 0; 0; 0; 0; 0; 0; 0; 0; 0; 0];
   [255; 255; 255; 252; 0; 0; 0; 0; 0; 0; 0; 0; 0; 0; 0; 0];
   [255; 255; 255; 254; 0; 0; 0; 0; 0; 0; 0; 0; 0; 0; 0; 0];
   [255; 255; 255; 255; 0; 0; 0; 0; 0; 0; 0; 0; 0; 0; 0; 0];
   [255; 255; 255; 255; 128; 0; 0; 0; 0; 0; 0; 0; 0; 0; 0; 0];
   [255; 255; 255; 255; 192; 0; 0; 0; 0; 0; 0; 0; 0; 0; 0; 0];
   [255; 255; 255; 255; 224; 0; 0; 0; 0; 0; 0; 0; 0; 0; 0; 0];
   [255; 255; 255; 255; 240; 0; 0; 0; 0; 0; 0; 0; 0; 0; 0; 0];
   [255; 255; 255; 255; 248; 0; 0; 0; 0; 0; 0; 0; 0; 0; 0; 0];
   [255; 255; 255; 255; 252; 0; 0; 0; 0; 0; 0; 0; 0; 0; 0; 0];
   [255; 255; 255; 255; 254; 0; 0; 0; 0; 0; 0; 0; 0; 0; 0; 0];
   [255; 255; 255; 255; 255; 0; 0; 0; 0; 0; 0; 0; 0; 0; 0; 0];
   [255; 255; 255; 255; 255; 128; 0; 0; 0; 0; 0; 0; 0; 0; 0; 0];
   [255; 255; 255; 255; 255; 192; 0; 0; 0; 0; 0; 0; 0; 0; 0; 0];
   [255; 255; 255; 255; 255; 224; 0; 0; 0; 0; 0; 0; 0; 0; 0; 0];
   [255; 255; 255; 255; 255; 240; 0; 0; 0; 0; 0; 0; 0; 0; 0; 0];
   [255; 255; 255; 255; 255; 248; 0; 0; 0; 0; 0; 0; 0; 0; 0; 0];
   [255; 255; 255; 255; 255; 252; 0; 0; 0; 0; 0; 0; 0; 0; 0; 0];
   [255; 255; 255; 255; 255; 254; 0; 0; 0; 0; 0; 0; 0; 0; 0; 0];
   [255; 255; 255; 255; 255; 255; 0; 0; 0; 0; 0; 0; 0; 0; 0; 0];
   [255; 255; 255; 255; 255; 255; 128; 0; 0; 0; 0; 0; 0; 0; 0; 0];
   [255; 255; 255; 255; 255; 255; 192; 0; 0; 0; 0; 0; 0; 0; 0; 0];
   [255; 255; 255; 255; 255; 255; 224; 0; 0; 0; 0; 0; 0; 0; 0; 0];
   [255; 255; 255; 255; 255; 255; 240; 0; 0; 0; 0; 0; 0; 0; 0; 0];
   [255; 255; 255; 255; 255; 255; 248; 0; 0; 0; 0; 0; 0; 0; 0; 0];
   [255; 255; 255; 255; 255; 255; 252; 0; 0; 0; 0; 0; 0; 0; 0; 0];
   [255; 255; 255; 255; 255; 255; 254; 0; 0; 0; 0; 0; 0; 0; 0; 0];
   [255; 255; 255; 255; 255; 255; 255; 0; 0; 0; 0; 0; 0; 0; 0; 0];
   [255; 255; 255; 255; 255; 255; 255; 128; 0; 0; 0; 0; 0; 0; 0; 0];
   [255; 255; 255; 255; 255; 255; 255; 192; 0; 0; 0; 0; 0; 0; 0; 0];
   [255; 255; 255; 255; 255; 255; 255; 224; 0; 0; 0; 0; 0; 0; 0; 0];
   [255; 255; 255; 255; 255; 255; 255; 240; 0; 0; 0; 0; 0; 0; 0; 0];
   [255; 255; 255; 255; 255; 255; 255; 248; 0; 0; 0; 0; 0; 0; 0; 0];
   [255; 255; 255; 255; 255; 255; 255; 252; 0; 0; 0; 0; 0; 0; 0; 0];
   [255; 255; 255; 255; 255; 255; 255; 254; 0; 0; 0; 0; 0; 0; 0; 0];
   [255; 255; 255; 255; 255; 255; 255; 255; 0; 0; 0; 0; 0; 0; 0; 0];
   [255; 255; 255; 255; 255; 255; 255; 255; 128; 0; 0; 0; 0; 0; 0; 0];
   [255; 255; 255; 255; 255; 255; 255; 255; 192; 0; 0; 0; 0; 0; 0; 0];
   [255; 255; 255; 255; 255; 255; 255; 255; 224; 0; 0; 0; 0; 0; 0; 0];
   [255; 255; 255; 255; 255; 255; 255; 255; 240; 0; 0; 0; 0; 0; 0; 0];
   [255; 255; 255; 255; 255; 255; 255; 255; 248; 0; 0; 0; 0; 0; 0; 0];
   [255; 255; 255; 255; 255; 255; 255; 255; 252; 0; 0; 0; 0; 0; 0; 0];
   [255; 255; 255; 255; 255; 255; 255; 255; 254; 0; 0; 0; 0; 0; 0; 0];
   [255; 255; 255; 255; 255; 255; 255; 255; 255; 0; 0; 0; 0; 0; 0; 0];
   [255; 255; 255; 255; 255; 255; 255; 255; 255; 128; 0; 0; 0; 0; 0; 0];
   [255; 255; 255; 255; 255; 255; 255; 255; 255; 192; 0; 0; 0; 0; 0; 0];
   [255; 255; 255; 255; 255; 255; 255; 255; 255; 224; 0; 0; 0; 0; 0; 0];
   [255; 255; 255; 255; 255; 255; 255; 255; 255; 240; 0; 0; 0; 0; 0; 0];
   [255; 255; 255; 255; 255; 255; 255; 255; 255; 248; 0; 0; 0; 0; 0; 0];
   [255; 255; 255; 255; 255; 255; 255; 255; 255; 252; 0; 0; 0; 0; 0; 0];
   [255; 255; 255; 255; 255; 255; 255; 255; 255; 254; 0; 0; 0; 0; 0; 0];
   [255; 255; 255; 255; 255; 255; 255; 255; 255; 255; 0; 0; 0; 0; 0; 0];
   [255; 255; 255; 255; 255; 255; 255; 255; 255; 255; 128; 0; 0; 0; 0; 0];
   [255; 255; 255; 255; 255; 255; 255; 255; 255; 255; 192; 0; 0; 0; 0; 0];
   [255; 255; 255; 255; 255; 255; 255; 255; 255; 255; 224; 0; 0; 0; 0; 0];
   [255; 255; 255; 255; 255; 255; 255; 255; 255; 255; 240; 0; 0; 0; 0; 0];
   [255; 255; 255; 255; 255; 255; 255; 255; 255; 255; 248; 0; 0; 0; 0; 0];
   [255; 255; 255; 255; 255; 255; 255; 255; 255; 255; 252; 0; 0; 0; 0; 0];
   [255; 255; 255; 255; 255; 255; 255; 255; 255; 255; 254; 0; 0; 0; 0; 0];
   [255; 255; 255; 255; 255; 255; 255; 255; 255; 255; 255; 0; 0; 0; 0; 0];
   [255; 255; 255; 255; 255; 255; 255; 255; 255; 255; 255; 128; 0; 0; 0; 0];
   [255; 255; 255; 255; 255; 255; 255; 255; 255; 255; 255; 192; 0; 0; 0; 0];
   [255; 255; 255; 255; 255; 255; 255; 255; 255; 255; 255; 224; 0; 0; 0; 0];
   [255; 255; 255; 255; 255; 255; 255; 255; 255; 255; 255; 240; 0; 0; 0; 0];
   [255; 255; 255; 255; 255; 255; 255; 255; 255; 255; 255; 248; 0; 0; 0; 0];
   [255; 255; 255; 255; 255; 255; 255; 255; 255; 255; 255; 252; 0; 0; 0; 0];
   [255; 255; 255; 255; 255; 255; 255; 255; 255; 255; 255; 254; 0; 0; 0; 0];
   [255; 255; 255; 255; 255; 255; 255; 255; 255; 255; 255; 255; 0; 0; 0; 0];
   [255; 255; 255; 255; 255; 255; 255; 255; 255; 255; 255; 255; 128; 0; 0; 0];
   [255; 255; 255; 255; 255; 255; 255; 255; 255; 255; 255; 255; 192; 0; 0; 0];
   [255; 255; 255; 255; 255; 255; 255; 255; 255; 255; 255; 255; 224; 0; 0; 0];
   [255; 255; 255; 255; 255; 255; 255; 255; 255; 255; 255; 255; 240; 0; 0; 0];
   [255; 255; 255; 255; 255; 255; 255; 255; 255; 255; 255; 255; 248; 0; 0; 0];
   [255; 255; 255; 255; 255; 255; 255; 255; 255; 255; 255; 255; 252; 0; 0; 0];
   [255; 255; 255; 255; 255; 255; 255; 255; 255; 255; 255; 255; 254; 0; 0; 0];
   [255; 255; 255; 255; 255; 255; 255; 255; 255; 255; 255; 255; 255; 0; 0; 0];
   [255; 255; 255; 255; 255; 255; 255; 255; 255; 255; 255; 255; 255; 128; 0; 0];
   [255; 255; 255; 255; 255; 255; 255; 255; 255; 255; 255; 255; 255; 192; 0; 0];
   [255; 255; 255; 255; 255; 255; 255; 255; 255; 255; 255; 255; 255; 224; 0; 0];
   [255; 255; 255; 255; 255; 255; 255; 255; 255; 255; 255; 255; 255; 240; 0; 0];
   [255; 255; 255; 255; 255; 255; 255; 255; 255; 255; 255; 255; 255; 248; 0; 0];
   [255; 255; 255; 255; 255; 255; 255; 255; 255; 255; 255; 255; 255; 252; 0; 0];
   [255; 255; 255; 255; 255; 255; 255; 255; 255; 255; 255; 255; 255; 254; 0; 0];
   [255; 255; 255; 255; 255; 255; 255; 255; 255; 255; 255; 255; 255; 255; 0; 0];
   [255; 255; 255; 255; 255; 255; 255; 255; 255; 255; 255; 255; 255; 255; 128; 0];
   [255; 255; 255; 255; 255; 255; 255; 255; 255; 255; 255; 255; 255; 255; 192; 0];
   [255; 255; 255; 255; 255; 255; 255; 255; 255; 255; 255; 255; 255; 255; 224; 0];
   [255; 255; 255; 255; 255; 255; 255; 255; 255; 255; 255; 255; 255; 255; 240; 0];
   [255; 255; 255; 255; 255; 255; 255; 255; 255; 255; 255; 255; 255; 255; 248; 0];
   [255; 255; 255; 255; 255; 255; 255; 255; 255; 255; 255; 255; 255; 255; 252; 0];
   [255; 255; 255; 255; 255; 255; 255; 255; 255; 255; 255; 255; 255; 255; 254; 0];
   [255; 255; 255; 255; 255; 255; 255; 255; 255; 255; 255; 255; 255; 255; 255; 0];
   [255; 255; 255; 255; 255; 255; 255; 255; 255; 255; 255; 255; 255; 255; 255; 128];
   [255; 255; 255; 255; 255; 255; 255; 255; 255; 255; 255; 255; 255; 255; 255; 192];
   [255; 255; 255; 255; 255; 255; 255; 255; 255; 255; 255; 255; 255; 255; 255; 224];
   [255; 255; 255; 255; 255; 255; 255; 255; 255; 255; 255; 255; 255; 255; 255; 240];
   [255; 255; 255; 255; 255; 255; 255; 255; 255; 255; 255; 255; 255; 255; 255; 248];
   [255; 255; 255; 255; 255; 255; 255; 255; 255; 255; 255; 255; 255; 255; 255; 252];
   [255; 255; 255; 255; 255; 255; 255; 255; 255; 255; 255; 255; 255; 255; 255; 254];
   [255; 255; 255; 255; 255; 255; 255; 255; 255; 255; 255; 255; 255; 255; 255; 255]].

Definition prefix_bit (pfx : list Z) (plen : Z) : M Z :=
  let offset := plen / 8 in
  let shift := 7 - plen mod 8 in
  b ← rd pfx offset;
  Ok (Z.land (Z.shiftr b shift) 1).

Definition prefix6_bit (pfx : list Z) (plen : Z) : M Z := prefix_bit pfx plen.

Definition afi2family (afi : Z) : Z :=
  if afi =? AFI_IP then AF_INET
  else if afi =? AFI_IP6 then AF_INET6
  else 0.

Definition family2afi (fam : Z) : Z :=
  if fam =? AF_INET then AFI_IP
  else if fam =? AF_INET6 then AFI_IP6
  else 0.

(** [while (offset--) if (np[offset] != pp[offset]) return 0;] *)
Fixpoint bytes_eq_down (np pp : list Z) (offset : nat) : M bool :=
  match offset with
  | O => Ok true
  | S o =>
      a ← rd np (Z.of_nat o);
      b ← rd pp (Z.of_nat o);
      if a =? b then bytes_eq_down np pp o else Ok false
  end.

(** [if (shift) if (maskbit[shift] & (np[offset] ^ pp[offset])) return 0;]
    followed by the byte loop: shared by [prefix_match] and [prefix_cmp]. *)
Definition bits_eq (np pp : list Z) (plen : Z) : M bool :=
  let offset := plen / 8 in
  let shift := plen mod 8 in
  tail ← (if shift =? 0 then Ok true else
            m ← rd maskbit shift;
            a ← rd np offset;
            b ← rd pp offset;
            Ok (Z.land m (Z.lxor a b) =? 0));
  if tail : bool then bytes_eq_down np pp (Z.to_nat offset) else Ok false.

Definition prefix_match (n p : prefix) : M Z :=
  if prefixlen p <? prefixlen n then Ok 0 else
  e ← bits_eq (u n) (u p) (prefixlen n);
  Ok (if e : bool then 1 else 0).

Definition prefix_copy (dest src : prefix) : M prefix :=
  let copy (n : Z) :=
    b ← rdn (u src) 0 n;
    d ← wrn (u dest) 0 b;
    Ok (Prefix (family src) (prefixlen src) d) in
  if family src =? AF_INET then copy IPV4_MAX_BYTELEN
  else if family src =? AF_INET6 then copy IPV6_MAX_BYTELEN
  else if family src =? AF_UNSPEC then copy 8
  else Fault Aborted.

(** [memcmp (a, b, n) == 0] *)
Definition mem_same (a b : list Z) (n : Z) : M bool :=
  x ← rdn a 0 n;
  y ← rdn b 0 n;
  Ok (bool_decide (x = y)).

Definition prefix_same (p1 p2 : prefix) : M Z :=
  if (family p1 =? family p2) && (prefixlen p1 =? prefixlen p2) then
    s4 ← (if family p1 =? AF_INET then mem_same (u p1) (u p2) IPV4_MAX_BYTELEN else Ok false);
    if s4 : bool then Ok 1 else
    s6 ← (if family p1 =? AF_INET6 then mem_same (u p1) (u p2) IPV6_MAX_BYTELEN else Ok false);
    Ok (if s6 : bool then 1 else 0)
  else Ok 0.

Definition prefix_cmp (p1 p2 : prefix) : M Z :=
  if negb (family p1 =? family p2) || negb (prefixlen p1 =? prefixlen p2) then Ok 1 else
  e ← bits_eq (u p1) (u p2) (prefixlen p1);
  Ok (if e : bool then 0 else 1).

(** [for (pos = 0; pos < length; pos++) if (pp1[pos] != pp2[pos]) break;]
    with [n] iterations left. *)
Fixpoint first_diff (pp1 pp2 : list Z) (pos : Z) (n : nat) : M Z :=
  match n with
  | O => Ok pos
  | S m =>
      a ← rd pp1 pos;
      b ← rd pp2 pos;
      if a =? b then first_diff pp1 pp2 (pos + 1) m else Ok pos
  end.

(** [for (bit = 0; bit < 8; bit++) if (xor & (1 << (7 - bit))) break;] *)
Fixpoint first_bit (x bit : Z) (n : nat) : Z :=
  match n with
  | O => bit
  | S m => if Z.land x (Z.shiftl 1 (7 - bit)) =? 0 then first_bit x (bit + 1) m else bit
  end.

Definition prefix_common_bits (p1 p2 : prefix) : M Z :=
  let length :=
    if family p1 =? AF_INET then IPV4_MAX_BYTELEN
    else if family p1 =? AF_INET6 then IPV6_MAX_BYTELEN else 0 in
  if negb (family p1 =? family p2) || (length =? 0) then Ok (-1) else
  pos ← first_diff (u p1) (u p2) 0 (Z.to_nat length);
  if pos =? length then Ok (pos * 8) else
  a ← rd (u p1) pos;
  b ← rd (u p2) pos;
  Ok (pos * 8 + first_bit (Z.lxor a b) 0 8).

Definition prefix_family_str (p : prefix) : string :=
  if family p =? AF_INET then "inet"
  else if family p =? AF_INET6 then "inet6"
  else "unspec".

(** [XCALLOC] of a [struct prefix]. *)
Definition prefix_new : prefix := Prefix 0 0 (replicate prefix_union_size 0).
Definition prefix_ipv4_new : prefix := Prefix AF_INET 0 (u prefix_new).
Definition prefix_ipv6_new : prefix := Prefix AF_INET6 0 (u prefix_new).

(** Network byte order mask, as the four bytes of [s_addr]:
    [htonl (0xffffffffULL << (32 - masklen))]. *)
Definition masklen2ip (masklen : Z) : M (list Z) :=
  assert! (0 <=? masklen) && (masklen <=? IPV4_MAX_BITLEN) ;;
  Ok (be_bytes 4 (u32 (u64 (Z.shiftl 0xffffffff (32 - masklen))))).

(** [__builtin_clz], for a non-zero 32-bit argument. *)
Definition clz32 (x : Z) : Z := 31 - Z.log2 x.

Definition ip_masklen (netmask : list Z) : Z :=
  let tmp := 0xffffffff - be_value netmask in
  if tmp =? 0 then 32 else u8 (clz32 tmp).

(** The four bytes of [u.prefix4], and their replacement. *)
Definition prefix4 (p : prefix) : M (list Z) := rdn (u p) 0 4.
Definition set_prefix4 (p : prefix) (a : list Z) : M prefix :=
  d ← wrn (u p) 0 a;
  Ok (Prefix (family p) (prefixlen p) d).

Definition apply_mask_ipv4 (p : prefix) : M prefix :=
  mask ← masklen2ip (prefixlen p);
  a ← prefix4 p;
  set_prefix4 p (zip_with Z.land a mask).

Definition prefix_ipv4_any (p : prefix) : M Z :=
  a ← prefix4 p;
  Ok (if bool_decide (a = [0; 0; 0; 0]) && (prefixlen p =? 0) then 1 else 0).

(** [while (val) { len++; val <<= 1; }]: eight iterations empty an
    [unsigned char]. *)
Fixpoint masklen_bits (val len : Z) (n : nat) : Z :=
  match n with
  | O => len
  | S m => if val =? 0 then len else masklen_bits (u8 (Z.shiftl val 1)) (len + 1) m
  end.

(** [while ( *pnt == 0xff && len < 128) { len += 8; pnt++; }].  The loop reads
    [*pnt] before it tests [len]; at the end of the address that read is one
    past the object. *)
Fixpoint masklen_bytes (a : list Z) (pos len : Z) (n : nat) : M (Z * Z) :=
  match n with
  | O => Ok (pos, len)
  | S m =>
      b ← rd a pos;
      if (b =? 0xff) && (len <? IPV6_MAX_BITLEN)
      then masklen_bytes a (pos + 1) (len + 8) m else Ok (pos, len)
  end.

(** [a] is the memory from the start of the by-value parameter [netmask] on;
    at most 16 bytes advance the loop, so 17 iterations end it. *)
Definition ip6_masklen (a : list Z) : M Z :=
  '(pos, len) ← masklen_bytes a 0 0 17;
  if len <? IPV6_MAX_BITLEN then
    val ← rd a pos;
    Ok (masklen_bits val len 8)
  else Ok len.

Definition masklen2ip6 (masklen : Z) : M (list Z) :=
  assert! (0 <=? masklen) && (masklen <=? IPV6_MAX_BITLEN) ;;
  rd maskbytes6 masklen.

(** [while (index < 16) pnt[index++] = 0;] with [n] iterations left. *)
Fixpoint zero_from (a : list Z) (index : Z) (n : nat) : M (list Z) :=
  match n with
  | O => Ok a
  | S m => a' ← wr a index 0; zero_from a' (index + 1) m
  end.

Definition apply_mask_ipv6 (p : prefix) : M prefix :=
  let index := prefixlen p / 8 in
  if index <? 16 then
    let offset := prefixlen p mod 8 in
    m ← rd maskbit offset;
    b ← rd (u p) index;
    a ← wr (u p) index (Z.land b m);
    a' ← zero_from a (index + 1) (Z.to_nat (16 - (index + 1)));
    Ok (Prefix (family p) (prefixlen p) a')
  else Ok p.

Definition apply_mask (p : prefix) : M prefix :=
  if family p =? AF_INET then apply_mask_ipv4 p
  else if family p =? AF_INET6 then apply_mask_ipv6 p
  else Ok p.

Definition prefix_blen (p : prefix) : Z :=
  if family p =? AF_INET then IPV4_MAX_BYTELEN
  else if family p =? AF_INET6 then IPV6_MAX_BYTELEN
  else 0.

(** [union sockunion]: the family and the bytes of the address. *)
Record sockunion := Sockunion {
  sa_family : Z;
  sin_addr : list Z;
  sin6_addr : list Z;
}.

Definition sockunion2hostprefix (su : sockunion) : M (option prefix) :=
  if sa_family su =? AF_INET then
    d ← wrn (u prefix_ipv4_new) 0 (sin_addr su);
    Ok (Some (Prefix AF_INET IPV4_MAX_BITLEN d))
  else if sa_family su =? AF_INET6 then
    d ← wrn (u prefix_ipv6_new) 0 (sin6_addr su);
    Ok (Some (Prefix AF_INET6 IPV6_MAX_BITLEN d))
  else Ok None.

Definition sockunion2prefix (dest mask : sockunion) : M (option prefix) :=
  if sa_family dest =? AF_INET then
    d ← wrn (u prefix_ipv4_new) 0 (sin_addr dest);
    Ok (Some (Prefix AF_INET (ip_masklen (sin_addr mask)) d))
  else if sa_family dest =? AF_INET6 then
    len ← ip6_masklen (sin6_addr mask);
    d ← wrn (u prefix_ipv6_new) 0 (sin6_addr dest);
    Ok (Some (Prefix AF_INET6 (u8 len) d))
  else Ok None.

(** [IN_CLASSA], [IN_CLASSB], [IN_CLASSC] of <netinet/in.h>. *)
Definition IN_CLASSA (a : Z) : bool := Z.land a 0x80000000 =? 0.
Definition IN_CLASSB (a : Z) : bool := Z.land a 0xc0000000 =? 0x80000000.
Definition IN_CLASSC (a : Z) : bool := Z.land a 0xe0000000 =? 0xc0000000.

Definition apply_classful_mask_ipv4 (p : prefix) : M prefix :=
  a ← prefix4 p;
  let destination := be_value a in
  if prefixlen p =? IPV4_MAX_PREFIXLEN then Ok p
  else if IN_CLASSC destination then apply_mask_ipv4 (Prefix (family p) 24 (u p))
  else if IN_CLASSB destination then apply_mask_ipv4 (Prefix (family p) 16 (u p))
  else apply_mask_ipv4 (Prefix (family p) 8 (u p)).

Definition ipv4_network_addr (hostaddr : list Z) (masklen : Z) : M (list Z) :=
  mask ← masklen2ip masklen;
  Ok (zip_with Z.land hostaddr mask).

(** [~mask.s_addr], byte by byte. *)
Definition lnot8 (b : Z) : Z := 0xff - b.

Definition ipv4_broadcast_addr (hostaddr : list Z) (masklen : Z) : M (list Z) :=
  mask ← masklen2ip masklen;
  Ok (if negb (masklen =? IPV4_MAX_PREFIXLEN - 1)
      then zip_with Z.lor hostaddr (lnot8 <$> mask)
      else zip_with Z.lxor hostaddr (lnot8 <$> mask)).

(** [s_addr] as the host's [unsigned int]: the bytes in host order. *)
Definition s_addr (big_endian : bool) (a : list Z) : Z :=
  be_value (if big_endian then a else reverse a).

Definition IPV4_NET0 (a : Z) : bool := Z.land a 0xff000000 =? 0x00000000.
Definition IPV4_NET127 (a : Z) : bool := Z.land a 0xff000000 =? 0x7f000000.
Definition IPV4_CLASS_DE (a : Z) : bool := Z.land a 0xe0000000 =? 0xe0000000.

Definition ipv4_martian (big_endian : bool) (addr : list Z) : Z :=
  let ip := s_addr big_endian addr in
  if IPV4_NET0 ip || IPV4_NET127 ip || IPV4_CLASS_DE ip then 1 else 0.

(** ** Reference notions *)

(** The bits of a byte and of an address, most significant first. *)
Definition byte_bits (b : Z) : list bool := Z.testbit b <$> [7; 6; 5; 4; 3; 2; 1; 0].
Definition bits (l : list Z) : list bool := l ≫= byte_bits.

(** The significant bits of a prefix. *)
Definition key (p : prefix) : list bool := take (Z.to_nat (prefixlen p)) (bits (u p)).

(** A well-formed prefix: a full union of bytes and a length within it. *)
Definition prefix_ok (p : prefix) : Prop :=
  length (u p) = prefix_union_size ∧ bytes_ok (u p) ∧ 0 ≤ prefixlen p ≤ IPV6_MAX_BITLEN.

#[export] Instance prefix_ok_dec p : Decision (prefix_ok p).
Proof. unfold prefix_ok. apply _. Defined.

(** ** Bytes and bits *)
Section bits.
Implicit Types (l np pp : list Z) (a b x : Z).

(** Case analysis over all bytes, by evaluation. *)
Lemma byte_cases (P : Z → bool) :
  forallb P (seqZ 0 256) = true → ∀ b, is_byte b → P b = true.
Proof.
  intros H b Hb. rewrite forallb_forall in H. apply H.
  apply list_elem_of_In, elem_of_seqZ. byte_lia.
Qed.

Lemma byte_bits_inj a b : is_byte a → is_byte b → byte_bits a = byte_bits b → a = b.
Proof.
  intros Ha Hb E. unfold byte_bits in E. cbn [fmap list_fmap] in E. injection E as E7 E6 E5 E4 E3 E2 E1 E0.
  apply Z.bits_inj'. intros i Hi. destruct (Z.lt_ge_cases i 8).
  - assert (i = 0 ∨ i = 1 ∨ i = 2 ∨ i = 3 ∨ i = 4 ∨ i = 5 ∨ i = 6 ∨ i = 7) as C by lia.
    by repeat destruct C as [->|C]; try subst i.
  - rewrite <-(Z.mod_small a (2 ^ 8)), <-(Z.mod_small b (2 ^ 8)) by done.
    by rewrite !Z.mod_pow2_bits_high by lia.
Qed.

Lemma length_bits l : length (bits l) = (8 * length l)%nat.
Proof. induction l; cbn; [done|]. cbn in IHl. unfold bits in IHl. rewrite IHl. lia. Qed.

Lemma bits_app l1 l2 : bits (l1 ++ l2) = bits l1 ++ bits l2.
Proof. apply bind_app. Qed.

Lemma bits_inj l1 l2 : bytes_ok l1 → bytes_ok l2 → bits l1 = bits l2 → l1 = l2.
Proof.
  intros H1. revert l2. induction H1 as [|a l1 Ha H1 IH]; intros [|b l2] H2 E; try done.
  inversion_clear H2 as [|?? Hb H2'].
  change (byte_bits a ++ bits l1 = byte_bits b ++ bits l2) in E.
  apply app_inj_1 in E as [E1 E2]; [|done].
  f_equal; [by apply byte_bits_inj|by apply IH].
Qed.

Lemma take_bits l (o s : nat) b :
  l !! o = Some b → (s ≤ 8)%nat →
  take (8 * o + s) (bits l) = bits (take o l) ++ take s (byte_bits b).
Proof.
  intros Hb Hs. rewrite <-(take_drop_middle l o b Hb) at 1.
  rewrite bits_app, take_app, length_bits, length_take_le by
    (apply lookup_lt_Some in Hb; lia).
  rewrite take_ge by (rewrite length_bits, length_take; lia). f_equal.
  replace (8 * o + s - 8 * o)%nat with s by lia.
  change (bits (b :: drop (S o) l)) with (byte_bits b ++ bits (drop (S o) l)).
  rewrite take_app_le; [done|]. cbn. lia.
Qed.

Lemma take_bits_whole l (o : nat) : take (8 * o) (bits l) = bits (take o l).
Proof.
  destruct (decide (o ≤ length l)%nat) as [Ho|Ho].
  - rewrite <-(take_drop o l) at 1. rewrite bits_app, take_app_le.
    + apply take_ge. rewrite length_bits, length_take. lia.
    + rewrite length_bits, length_take_le by lia. lia.
  - rewrite !take_ge; [done|lia|rewrite length_bits; lia].
Qed.

Lemma bits_lookup l (i : nat) b :
  l !! (i / 8)%nat = Some b → bits l !! i = Some (Z.testbit b (7 - Z.of_nat (i mod 8))).
Proof.
  intros Hb. pose proof (Nat.div_mod_eq i 8) as Ei.
  pose proof (Nat.mod_upper_bound i 8 ltac:(lia)) as Hm.
  pose proof (take_bits l (i / 8) 8 b Hb ltac:(lia)) as E.
  rewrite <-(lookup_take_lt _ (8 * (i / 8) + 8)%nat) by lia. rewrite E.
  rewrite lookup_app_r; rewrite length_bits, length_take_le
    by (apply lookup_lt_Some in Hb; lia); [|lia].
  replace (i - 8 * (i / 8))%nat with (i mod 8)%nat by lia.
  destruct (i mod 8)%nat as [|[|[|[|[|[|[|[|]]]]]]]]; try done. lia.
Qed.

Lemma byte_bits_lxor a b : byte_bits (Z.lxor a b) = zip_with xorb (byte_bits a) (byte_bits b).
Proof. unfold byte_bits. cbn [fmap list_fmap zip_with]. by rewrite !Z.lxor_spec. Qed.

Lemma xorb_false_iff (l1 l2 : list bool) :
  length l1 = length l2 → zip_with xorb l1 l2 = replicate (length l1) false ↔ l1 = l2.
Proof.
  revert l2. induction l1 as [|x l1 IH]; intros [|y l2]; cbn; try done. intros [= E].
  specialize (IH _ E).
  destruct x, y; cbn; (split; intros E'; simplify_eq; f_equal; by apply IH).
Qed.

Lemma is_byte_lxor a b : is_byte a → is_byte b → is_byte (Z.lxor a b).
Proof.
  intros Ha Hb. unfold is_byte.
  replace (Z.lxor a b) with (Z.lxor a b mod 2 ^ 8); [apply Z.mod_pos_bound; lia|].
  apply Z.bits_inj'. intros i Hi. destruct (Z.lt_ge_cases i 8).
  - by rewrite Z.mod_pow2_bits_low by lia.
  - rewrite Z.mod_pow2_bits_high, Z.lxor_spec by lia.
    rewrite <-(Z.mod_small a (2 ^ 8)), <-(Z.mod_small b (2 ^ 8)) by done.
    by rewrite !Z.mod_pow2_bits_high by lia.
Qed.

Lemma mask_zero m (s : nat) x :
  maskbit !! s = Some m → (s ≤ 8)%nat → is_byte x →
  (Z.land m x =? 0) = bool_decide (take s (byte_bits x) = replicate s false).
Proof.
  intros Hm Hs Hx. apply eqb_prop.
  revert x Hx. apply (byte_cases (λ x, eqb _ _)).
  do 9 (destruct s as [|s]; [injection Hm as <-; vm_compute; reflexivity|]). lia.
Qed.

Lemma mask_eq m (s : nat) a b :
  maskbit !! s = Some m → (s ≤ 8)%nat → is_byte a → is_byte b →
  (Z.land m (Z.lxor a b) =? 0) = bool_decide (take s (byte_bits a) = take s (byte_bits b)).
Proof.
  intros Hm Hs Ha Hb. rewrite (mask_zero m s) by auto using is_byte_lxor.
  apply bool_decide_ext. rewrite byte_bits_lxor, take_zip.
  assert (length (take s (byte_bits a)) = s) as E by (rewrite length_take; cbn; lia).
  rewrite <-E at 3. apply xorb_false_iff. by rewrite !length_take.
Qed.
End bits.

(** ** Comparison *)
Section compare.
Implicit Types (np pp : list Z) (n p : prefix).

Lemma bytes_eq_down_spec np pp (o : nat) :
  (o ≤ length np)%nat → (o ≤ length pp)%nat →
  bytes_eq_down np pp o = Ok (bool_decide (take o np = take o pp)).
Proof.
  induction o as [|o IH]; intros H1 H2; cbn [bytes_eq_down]; [done|].
  destruct (lookup_lt_is_Some_2 np o) as [a Ha]; [lia|].
  destruct (lookup_lt_is_Some_2 pp o) as [b Hb]; [lia|].
  rewrite (rd_nat _ _ _ Ha), (rd_nat _ _ _ Hb). cbn.
  rewrite (take_S_r _ _ _ Ha), (take_S_r _ _ _ Hb), IH by lia.
  destruct (Z.eqb_spec a b) as [->|Hne]; f_equal.
  - apply bool_decide_ext. split; [by intros ->|]. by intros [? _]%app_inj_2.
  - symmetry. apply bool_decide_eq_false. by intros [_ [= ?]]%app_inj_2.
Qed.

Lemma bits_eq_spec np pp plen :
  length np = prefix_union_size → length pp = prefix_union_size →
  bytes_ok np → bytes_ok pp → 0 ≤ plen ≤ IPV6_MAX_BITLEN →
  bits_eq np pp plen
  = Ok (bool_decide (take (Z.to_nat plen) (bits np) = take (Z.to_nat plen) (bits pp))).
Proof.
  unfold prefix_union_size, IPV6_MAX_BITLEN. intros Ln Lp Bn Bp Hplen.
  pose proof (Z.div_mod plen 8 ltac:(lia)) as E.
  pose proof (Z.mod_pos_bound plen 8 ltac:(lia)) as Hs.
  unfold bits_eq. set (o := plen / 8) in *. set (s := plen mod 8) in *.
  replace (Z.to_nat plen) with (8 * Z.to_nat o + Z.to_nat s)%nat by lia.
  assert (bytes_ok (take (Z.to_nat o) np)) by by apply Forall_take.
  assert (bytes_ok (take (Z.to_nat o) pp)) by by apply Forall_take.
  destruct (Z.eqb_spec s 0) as [Hs0|Hs0].
  { replace (8 * Z.to_nat o + Z.to_nat s)%nat with (8 * Z.to_nat o)%nat by lia.
    cbn [mbind M_bind]. rewrite bytes_eq_down_spec, !take_bits_whole by lia.
    f_equal. apply bool_decide_ext. split; [by intros ->|by apply bits_inj]. }
  destruct (rd_in_bounds maskbit s) as [m Hm]; [cbn; lia|].
  destruct (rd_in_bounds np o) as [a Ha]; [lia|].
  destruct (rd_in_bounds pp o) as [b Hb]; [lia|].
  rewrite Hm, Ha, Hb. cbn [mbind M_bind].
  apply rd_inv in Hm as [_ Hm], Ha as [_ Ha], Hb as [_ Hb].
  assert (is_byte a) by by eapply (Forall_lookup_1 _ np).
  assert (is_byte b) by by eapply (Forall_lookup_1 _ pp).
  rewrite (mask_eq m (Z.to_nat s)) by (done || lia).
  rewrite (take_bits np _ _ a), (take_bits pp _ _ b) by (done || lia).
  case_bool_decide as C.
  - rewrite bytes_eq_down_spec, C by lia. f_equal. apply bool_decide_ext.
    split; [by intros ->|]. intros [? _]%app_inj_2; [by apply bits_inj|done].
  - f_equal. symmetry. apply bool_decide_eq_false. intros F.
    apply app_inj_1 in F as [_ ?]; [done|]. rewrite !length_bits, !length_take. lia.
Qed.

Lemma length_key p : prefix_ok p → length (key p) = Z.to_nat (prefixlen p).
Proof.
  intros (L & _ & H). unfold key, prefix_union_size, IPV6_MAX_BITLEN in *.
  rewrite length_take, length_bits, L. lia.
Qed.

Lemma key_take n p :
  prefix_ok n → prefix_ok p → prefixlen n ≤ prefixlen p →
  take (Z.to_nat (prefixlen n)) (bits (u n)) = take (Z.to_nat (prefixlen n)) (bits (u p))
  ↔ key n `prefix_of` key p.
Proof.
  intros Hn Hp Hle. pose proof (length_key n Hn) as Ln. pose proof (length_key p Hp) as Lp.
  assert (take (Z.to_nat (prefixlen n)) (bits (u p)) = take (length (key n)) (key p)) as ->.
  { unfold key at 2. rewrite take_take, Ln. f_equal. lia. }
  change (take (Z.to_nat (prefixlen n)) (bits (u n))) with (key n). split.
  - intros E. rewrite E. apply prefix_take.
  - intros [k ->]. by rewrite take_app_length.
Qed.

Lemma prefix_match_key n p :
  prefix_ok n → prefix_ok p →
  prefix_match n p = Ok (if decide (key n `prefix_of` key p) then 1 else 0).
Proof.
  intros Hn Hp. unfold prefix_match.
  destruct (Z.ltb_spec (prefixlen p) (prefixlen n)) as [Hlt|Hle].
  - rewrite decide_False; [done|]. intros Hpre%prefix_length.
    rewrite !length_key in Hpre by done. destruct Hp as (_ & _ & ?). lia.
  - rewrite bits_eq_spec; try apply Hn; try apply Hp. cbn.
    case_bool_decide as C; rewrite key_take in C by done; by case_decide.
Qed.

Lemma prefix_cmp_key n p :
  prefix_ok n → prefix_ok p →
  prefix_cmp n p = Ok (if decide (family n = family p ∧ key n = key p) then 0 else 1).
Proof.
  intros Hn Hp. unfold prefix_cmp.
  destruct (Z.eqb_spec (family n) (family p)) as [Ef|]; cbn; [|by rewrite decide_False by tauto].
  destruct (Z.eqb_spec (prefixlen n) (prefixlen p)) as [El|Hne]; cbn.
  - rewrite bits_eq_spec; try apply Hn; try apply Hp. cbn. f_equal. unfold key.
    rewrite <-El. by case_bool_decide; case_decide; tauto.
  - rewrite decide_False; [done|]. intros [_ E]. apply (f_equal length) in E.
    rewrite !length_key in E by done. destruct Hp as (_ & _ & ?), Hn as (_ & _ & ?). lia.
Qed.

Lemma prefix_bit_key p (i : nat) :
  prefix_ok p → Z.of_nat i < prefixlen p →
  ∃ b, key p !! i = Some b ∧ prefix_bit (u p) (Z.of_nat i) = Ok (Z.b2z b).
Proof.
  intros (L & _ & Hl) Hi. unfold prefix_union_size, IPV6_MAX_BITLEN in *.
  assert (i / 8 < 16)%nat as Hd by (apply Nat.Div0.div_lt_upper_bound; lia).
  destruct (lookup_lt_is_Some_2 (u p) (i / 8)) as [b Hb]; [lia|].
  exists (Z.testbit b (7 - Z.of_nat (i mod 8))). split.
  - unfold key. rewrite lookup_take_lt by lia. by apply bits_lookup.
  - unfold prefix_bit. change 8 with (Z.of_nat 8).
    rewrite <-Nat2Z.inj_div, <-Nat2Z.inj_mod, (rd_nat _ _ _ Hb). cbn [mbind M_bind].
    f_equal. pose proof (Nat.mod_upper_bound i 8 ltac:(lia)).
    change 1 with (Z.ones 1). rewrite Z.land_ones, Z.testbit_spec', Z.shiftr_div_pow2 by lia.
    done.
Qed.
End compare.

Create Rewrite HintDb prefix_db.
#[export] Hint Rewrite prefix_match_key prefix_cmp_key using assumption : prefix_db.

(** ** Masks *)

(** The bit string of a netmask of length [n] in a field of [w] bits. *)
Definition mask_bits (w n : nat) : list bool := replicate n true ++ replicate (w - n) false.

Section masks.
Implicit Types (a m : list Z) (l : list bool) (p : prefix).

Lemma bits_zip (f : Z → Z → Z) (g : bool → bool → bool) a m :
  (∀ x y i, Z.testbit (f x y) i = g (Z.testbit x i) (Z.testbit y i)) →
  bits (zip_with f a m) = zip_with g (bits a) (bits m).
Proof.
  intros Hfg. revert m. induction a as [|x a IH]; intros [|y m]; try done.
  change (byte_bits (f x y) ++ bits (zip_with f a m)
    = zip_with g (byte_bits x ++ bits a) (byte_bits y ++ bits m)).
  rewrite zip_with_app by done. rewrite IH. f_equal.
  unfold byte_bits. cbn [fmap list_fmap zip_with]. by rewrite !Hfg.
Qed.

Lemma zip_mask (g : bool → bool → bool) (c : bool) l (w n : nat) :
  length l = w → (n ≤ w)%nat →
  (∀ b, g b true = b) → (∀ b, g b false = c) →
  zip_with g l (mask_bits w n) = take n l ++ replicate (w - n) c.
Proof.
  intros <- Hn G1 G2. rewrite <-(take_drop n l) at 1. unfold mask_bits.
  rewrite zip_with_app by (rewrite length_take, length_replicate; lia).
  f_equal.
  - rewrite zip_with_replicate_r_eq by (rewrite length_take; lia).
    etrans; [|apply list_fmap_id]. apply list_fmap_ext. intros; apply G1.
  - rewrite zip_with_replicate_r_eq by (rewrite length_drop; lia).
    transitivity ((λ _ : bool, c) <$> drop n l); [apply list_fmap_ext; intros; apply G2|].
    rewrite <-length_drop. generalize (drop n l). intros l'. induction l'; cbn; congruence.
Qed.

(** Finite checks over the mask lengths. *)
Lemma len_cases (P : nat → bool) (n : nat) :
  forallb P (seq 0 (S n)) = true → ∀ k, (k ≤ n)%nat → P k = true.
Proof.
  intros H k Hk. rewrite forallb_forall in H. apply H, in_seq. lia.
Qed.

Lemma masklen2ip_bits (k : nat) :
  (k ≤ 32)%nat →
  ∃ m, masklen2ip (Z.of_nat k) = Ok m ∧ bits m = mask_bits 32 k ∧ length m = 4%nat ∧ bytes_ok m.
Proof.
  intros Hk.
  exists (be_bytes 4 (u32 (u64 (Z.shiftl 0xffffffff (32 - Z.of_nat k))))).
  split_and!; [|apply (bool_decide_eq_true _)|apply length_be_bytes|apply be_bytes_ok].
  - unfold masklen2ip, IPV4_MAX_BITLEN.
    by rewrite (proj2 (Z.leb_le _ _)), (proj2 (Z.leb_le _ _)) by lia.
  - revert k Hk. apply (len_cases (λ k, bool_decide _)). vm_compute. reflexivity.
Qed.

Lemma ip_masklen_masklen2ip (k : nat) m :
  (k ≤ 32)%nat → masklen2ip (Z.of_nat k) = Ok m → ip_masklen m = Z.of_nat k.
Proof.
  intros Hk E. apply Z.eqb_eq.
  assert (match masklen2ip (Z.of_nat k) with Ok m => ip_masklen m =? Z.of_nat k
          | Fault _ => false end = true) as C by
    (revert k Hk E; intros k Hk _; revert k Hk; apply len_cases; vm_compute; reflexivity).
  by rewrite E in C.
Qed.

Lemma maskbytes6_row (k : nat) :
  (k ≤ 128)%nat →
  ∃ row, maskbytes6 !! k = Some row ∧ bits row = mask_bits 128 k.
Proof.
  intros Hk.
  assert (match maskbytes6 !! k with Some r => bool_decide (bits r = mask_bits 128 k)
          | None => false end = true) as C by
    (revert k Hk; apply len_cases; vm_compute; reflexivity).
  destruct (maskbytes6 !! k) as [r|]; [|done]. exists r. split; [done|]. by case_bool_decide.
Qed.

Lemma ip6_masklen_masklen2ip6 (k : nat) :
  (k ≤ 127)%nat → (masklen2ip6 (Z.of_nat k) ≫= ip6_masklen) = Ok (Z.of_nat k).
Proof.
  intros Hk.
  assert (match masklen2ip6 (Z.of_nat k) ≫= ip6_masklen with
          | Ok z => z =? Z.of_nat k | Fault _ => false end = true) as C by
    (revert k Hk; apply len_cases; vm_compute; reflexivity).
  destruct (_ ≫= _) as [z|]; [|done]. f_equal. by apply Z.eqb_eq.
Qed.

Lemma zero_from_spec (n i : nat) a :
  (i + n ≤ length a)%nat →
  zero_from a (Z.of_nat i) n = Ok (take i a ++ replicate n 0 ++ drop (i + n) a).
Proof.
  revert i a. induction n as [|n IH]; intros i a Hl; cbn [zero_from].
  { cbn [replicate app]. by rewrite Nat.add_0_r, take_drop. }
  rewrite wr_in_bounds, Nat2Z.id by lia. cbn [mbind M_bind].
  replace (Z.of_nat i + 1) with (Z.of_nat (S i)) by lia.
  rewrite IH by (rewrite length_insert; lia). f_equal.
  rewrite (take_S_r _ _ 0) by (apply list_lookup_insert_eq; lia).
  rewrite take_insert_ge, drop_insert_lt, <-(assoc_L (++)) by lia.
  by replace (S i + n)%nat with (i + S n)%nat by lia.
Qed.

Lemma mask_byte mb (s : nat) b :
  maskbit !! s = Some mb → (s ≤ 8)%nat → is_byte b →
  byte_bits (Z.land b mb) = take s (byte_bits b) ++ replicate (8 - s) false.
Proof.
  intros Hm Hs Hb. apply (bool_decide_eq_true _). revert b Hb.
  apply (byte_cases (λ b, bool_decide _)).
  do 9 (destruct s as [|s]; [injection Hm as <-; vm_compute; reflexivity|]). lia.
Qed.

Lemma bits_zeros (n : nat) : bits (replicate n 0) = replicate (8 * n) false.
Proof.
  induction n as [|n IH]; [done|].
  change (byte_bits 0 ++ bits (replicate n 0) = replicate (8 * S n) false).
  rewrite IH. by replace (8 * S n)%nat with (8 + 8 * n)%nat by lia.
Qed.
End masks.

(** ** Masking an address *)

(** The address bits of the prefix's family. *)
Definition addr_bits (p : prefix) : list bool := bits (take (Z.to_nat (prefix_blen p)) (u p)).

(** An IPv4 or IPv6 prefix whose length its family admits. *)
Definition inet_ok (p : prefix) : Prop :=
  prefix_ok p ∧ (family p = AF_INET ∨ family p = AF_INET6) ∧
  prefixlen p ≤ 8 * prefix_blen p.

#[export] Instance inet_ok_dec p : Decision (inet_ok p).
Proof. unfold inet_ok. apply _. Defined.

(** [p'] is [p] with the host bits cleared. *)
Definition masked (p p' : prefix) : Prop :=
  family p' = family p ∧ prefixlen p' = prefixlen p ∧ prefix_ok p' ∧
  addr_bits p' = key p ++ replicate (Z.to_nat (8 * prefix_blen p - prefixlen p)) false ∧
  drop (Z.to_nat (prefix_blen p)) (u p') = drop (Z.to_nat (prefix_blen p)) (u p).

Section masking.
Implicit Types (p : prefix).

Lemma is_byte_land a b : is_byte a → is_byte b → is_byte (Z.land a b).
Proof.
  intros Ha Hb. unfold is_byte in *. rewrite <-(Z.mod_small b (2 ^ 8)) by done.
  rewrite <-Z.land_ones, Z.land_assoc, Z.land_ones by lia. apply Z.mod_pos_bound. lia.
Qed.

Lemma bytes_ok_zip_land a m : bytes_ok a → bytes_ok m → bytes_ok (zip_with Z.land a m).
Proof.
  intros Ha. revert m. induction Ha as [|x a Hx Ha IH]; intros [|y m] Hm; cbn; try constructor;
    inversion_clear Hm; [by apply is_byte_land|by apply IH].
Qed.

Lemma key_addr_bits p :
  inet_ok p → key p = take (Z.to_nat (prefixlen p)) (addr_bits p).
Proof.
  intros ((L & _ & ?) & _ & Hle). unfold key, addr_bits.
  rewrite <-take_bits_whole, take_take. f_equal. lia.
Qed.

Lemma prefix_blen_cases p :
  inet_ok p → (family p = AF_INET ∧ prefix_blen p = 4) ∨ (family p = AF_INET6 ∧ prefix_blen p = 16).
Proof. intros (_ & [E|E] & _); unfold prefix_blen; rewrite E; [left|right]; done. Qed.

Lemma length_addr_bits p : inet_ok p → length (addr_bits p) = Z.to_nat (8 * prefix_blen p).
Proof.
  intros H. pose proof H as ((L & _) & _ & _). unfold prefix_union_size in L.
  unfold addr_bits. rewrite length_bits, length_take, L.
  destruct (prefix_blen_cases p H) as [[_ ->]|[_ ->]]; done.
Qed.

Lemma apply_mask_ipv4_masked p :
  inet_ok p → family p = AF_INET → returns (apply_mask_ipv4 p) (masked p).
Proof.
  intros H Ef. destruct (prefix_blen_cases p H) as [[_ Eb]|[? _]]; [|unfold AF_INET, AF_INET6 in *; lia].
  pose proof (length_addr_bits p H) as La. rewrite Eb in La.
  pose proof (key_addr_bits p H) as Ek.
  destruct H as ((L & B & Hl) & _ & Hle). rewrite Eb in Hle. unfold prefix_union_size in L.
  destruct (masklen2ip_bits (Z.to_nat (prefixlen p))) as (m & Em & Hm & Lm & Bm); [lia|].
  rewrite Z2Nat.id in Em by lia.
  unfold apply_mask_ipv4, prefix4, set_prefix4. rewrite Em. cbn [mbind M_bind].
  rewrite rdn_in_bounds by lia. cbn [mbind M_bind]. rewrite drop_0.
  change (Z.to_nat 4) with 4%nat.
  assert (length (zip_with Z.land (take 4 (u p)) m) = 4%nat) as Lz
    by (rewrite length_zip_with, length_take; lia).
  rewrite wrn_in_bounds by lia. cbn [mbind M_bind].
  rewrite take_0, Lz. cbn [app Nat.add Z.to_nat]. eexists. split; [done|].
  unfold masked, addr_bits. cbn [family prefixlen u]. rewrite Eb.
  change (prefix_blen (Prefix (family p) _ _)) with (prefix_blen p). rewrite Eb.
  change (Z.to_nat 4) with 4%nat.
  rewrite take_app_length' , drop_app_length' by done.
  split_and!; try done.
  - split_and!; cbn [u prefixlen]; try lia.
    + unfold prefix_union_size. rewrite length_app, Lz, length_drop. lia.
    + apply Forall_app. split; [|by apply Forall_drop].
      apply bytes_ok_zip_land; [by apply Forall_take|done].
  - rewrite (bits_zip _ andb), Hm, (zip_mask andb false _ 32); try apply Z.land_spec;
      try (intros []; done); try lia.
    + rewrite Ek. unfold addr_bits. rewrite Eb. f_equal. f_equal. lia.
    + unfold addr_bits in La. rewrite Eb in La. exact La.
Qed.

Lemma apply_mask_ipv6_masked p :
  inet_ok p → family p = AF_INET6 → returns (apply_mask_ipv6 p) (masked p).
Proof.
  intros H Ef. destruct (prefix_blen_cases p H) as [[? _]|[_ Eb]]; [unfold AF_INET, AF_INET6 in *; lia|].
  pose proof (key_addr_bits p H) as Ek.
  destruct H as ((L & B & Hl) & _ & Hle). rewrite Eb in Hle. unfold prefix_union_size in L.
  assert (take 16 (u p) = u p) as Et by (apply take_ge; lia).
  assert (addr_bits p = bits (u p)) as Ea by (unfold addr_bits; rewrite Eb; exact (f_equal bits Et)).
  pose proof (Z.div_mod (prefixlen p) 8 ltac:(lia)) as E.
  pose proof (Z.mod_pos_bound (prefixlen p) 8 ltac:(lia)) as Hs.
  unfold apply_mask_ipv6. set (o := prefixlen p / 8) in *. set (s := prefixlen p mod 8) in *.
  destruct (Z.ltb_spec o 16) as [Ho|Ho].
  2: { exists p. split; [done|]. split_and!; try done. rewrite Ek, Ea, Eb.
       replace (Z.to_nat (8 * 16 - prefixlen p)) with 0%nat by lia.
       cbn [replicate]. rewrite app_nil_r, take_ge; [done|]. rewrite length_bits. lia. }
  destruct (rd_in_bounds maskbit s) as [m Hm]; [cbn; lia|].
  destruct (rd_in_bounds (u p) o) as [b Hb]; [lia|].
  rewrite Hm, Hb. cbn [mbind M_bind].
  apply rd_inv in Hm as [_ Hm], Hb as [_ Hb].
  assert (is_byte b) by by eapply (Forall_lookup_1 _ (u p)).
  rewrite wr_in_bounds by lia. cbn [mbind M_bind].
  replace (o + 1) with (Z.of_nat (S (Z.to_nat o))) by lia.
  rewrite zero_from_spec by (rewrite length_insert; lia). cbn [mbind M_bind].
  rewrite drop_ge, app_nil_r by (rewrite length_insert; lia).
  rewrite (take_S_r _ _ (Z.land b m)) by (apply list_lookup_insert_eq; lia).
  rewrite take_insert_ge by lia. eexists. split; [done|].
  unfold masked, addr_bits. cbn [family prefixlen u].
  change (prefix_blen (Prefix (family p) _ _)) with (prefix_blen p). rewrite Eb.
  change (Z.to_nat 16) with 16%nat.
  assert (is_byte (Z.land b m)) as Bl.
  { apply is_byte_land; [done|]. eapply (Forall_lookup_1 is_byte maskbit); [|done].
    repeat constructor; byte_lia. }
  set (u' := (take _ _ ++ _) ++ _). assert (length u' = 16%nat) as Lu'.
  { unfold u'. rewrite !length_app, length_take, length_replicate. cbn. lia. }
  split_and!; try done.
  - split_and!; cbn [u prefixlen]; try (done || lia). unfold u'.
    apply Forall_app; split; [apply Forall_app; split; [by apply Forall_take|by constructor]|].
    apply Forall_replicate. byte_lia.
  - rewrite take_ge by lia. unfold u'. rewrite !bits_app, bits_zeros. unfold key.
    replace (Z.to_nat (prefixlen p)) with (8 * Z.to_nat o + Z.to_nat s)%nat by lia.
    rewrite (take_bits _ _ _ b) by (done || lia).
    change (bits [Z.land b m]) with (byte_bits (Z.land b m) ++ []). rewrite app_nil_r.
    rewrite (mask_byte m (Z.to_nat s)), <-!(assoc_L (++)) by (done || lia).
    do 2 f_equal. rewrite <-replicate_add. f_equal. lia.
  - by rewrite !drop_ge by lia.
Qed.

Lemma apply_mask_masked p : inet_ok p → returns (apply_mask p) (masked p).
Proof.
  intros H. unfold apply_mask. destruct (prefix_blen_cases p H) as [[E _]|[E _]]; rewrite E.
  - by apply apply_mask_ipv4_masked.
  - by apply apply_mask_ipv6_masked.
Qed.

Lemma masked_inet_ok p p' : inet_ok p → masked p p' → inet_ok p'.
Proof.
  intros (H1 & H2 & H3) (Ef & El & Hok & _). split_and!; [done|by rewrite Ef|].
  unfold prefix_blen. rewrite Ef, El. exact H3.
Qed.

Lemma masked_key p p' : inet_ok p → masked p p' → key p' = key p.
Proof.
  intros H H'. rewrite (key_addr_bits p') by eauto using masked_inet_ok.
  destruct H' as (_ & El & _ & Ea & _). rewrite Ea, El, <-(length_key p) by apply H.
  apply take_app_length.
Qed.

Lemma masked_unique p p1 p2 : inet_ok p → masked p p1 → masked p p2 → p1 = p2.
Proof.
  intros H (Ef1 & El1 & (L1 & B1 & _) & Ea1 & Ed1) (Ef2 & El2 & (L2 & B2 & _) & Ea2 & Ed2).
  destruct p1 as [f1 l1 u1], p2 as [f2 l2 u2]. cbn [family prefixlen u] in *. subst.
  f_equal. unfold addr_bits in *.
  change (prefix_blen (Prefix (family p) _ _)) with (prefix_blen p) in *. cbn [u] in *.
  rewrite <-(take_drop (Z.to_nat (prefix_blen p)) u1),
    <-(take_drop (Z.to_nat (prefix_blen p)) u2).
  f_equal; [|congruence]. apply bits_inj; [by apply Forall_take..|congruence].
Qed.

Lemma masked_self p p' : inet_ok p → masked p p' → masked p' p'.
Proof.
  intros H H'. pose proof (masked_key _ _ H H') as Ek.
  destruct H' as (Ef & El & Hok & Ea & _). split_and!; try done.
  rewrite Ea, Ek, El. unfold prefix_blen. by rewrite Ef.
Qed.
End masking.

(** ** Common bits *)

(** Length of the longest common prefix. *)
Fixpoint common_len {A} `{EqDecision A} (l1 l2 : list A) : nat :=
  match l1, l2 with
  | x :: l1', y :: l2' => if decide (x = y) then S (common_len l1' l2') else 0
  | _, _ => 0
  end.

Section common.
Context {A} `{EqDecision A}.
Implicit Types (l : list A).

Lemma common_len_app l l1 l2 : common_len (l ++ l1) (l ++ l2) = (length l + common_len l1 l2)%nat.
Proof. induction l as [|x l IH]; cbn; [done|]. by rewrite decide_True, IH. Qed.

Lemma common_len_le l1 l2 : (common_len l1 l2 ≤ length l1)%nat.
Proof.
  revert l2. induction l1 as [|x l1 IH]; intros [|y l2]; cbn; try lia.
  case_decide; [|lia]. specialize (IH l2). lia.
Qed.

Lemma common_len_take l1 l2 : take (common_len l1 l2) l1 = take (common_len l1 l2) l2.
Proof.
  revert l2. induction l1 as [|x l1 IH]; intros [|y l2]; cbn; try done.
  case_decide; cbn; [|done]. subst. by f_equal.
Qed.

Lemma common_len_diff l1 l2 x y :
  l1 !! common_len l1 l2 = Some x → l2 !! common_len l1 l2 = Some y → x ≠ y.
Proof.
  revert l2. induction l1 as [|z l1 IH]; intros [|w l2]; cbn; try done.
  case_decide; cbn; [apply IH|by intros; simplify_eq].
Qed.

(** Lists that differ within their first [length a] elements. *)
Lemma common_len_app_diff (a b l1 l2 : list A) :
  length a = length b → a ≠ b → common_len (a ++ l1) (b ++ l2) = common_len a b.
Proof.
  revert b. induction a as [|x a IH]; intros [|y b]; cbn; try done. intros [= E] Hne.
  case_decide; [|done]. f_equal. apply IH; [done|]. congruence.
Qed.

Lemma common_len_lt (l1 l2 : list A) : length l1 = length l2 → l1 ≠ l2 → (common_len l1 l2 < length l1)%nat.
Proof.
  revert l2. induction l1 as [|x l1 IH]; intros [|y l2]; cbn; try done. intros [= E] Hne.
  case_decide; [|lia]. assert (l1 ≠ l2) by congruence. specialize (IH l2 E H0). lia.
Qed.
End common.

Lemma first_diff_spec (l1 l2 : list Z) (n pos : nat) :
  (pos + n ≤ length l1)%nat → (pos + n ≤ length l2)%nat →
  first_diff l1 l2 (Z.of_nat pos) n
  = Ok (Z.of_nat (pos + common_len (take n (drop pos l1)) (take n (drop pos l2)))).
Proof.
  revert pos. induction n as [|n IH]; intros pos H1 H2; cbn [first_diff].
  { cbn. by rewrite Nat.add_0_r. }
  destruct (lookup_lt_is_Some_2 l1 pos) as [a Ha]; [lia|].
  destruct (lookup_lt_is_Some_2 l2 pos) as [b Hb]; [lia|].
  rewrite (rd_nat _ _ _ Ha), (rd_nat _ _ _ Hb). cbn [mbind M_bind].
  rewrite (drop_S _ _ _ Ha), (drop_S _ _ _ Hb). cbn [take common_len].
  destruct (Z.eqb_spec a b) as [->|Hne].
  - replace (Z.of_nat pos + 1) with (Z.of_nat (S pos)) by lia.
    rewrite IH, decide_True by (done || lia). do 2 f_equal. lia.
  - rewrite decide_False by done. by rewrite Nat.add_0_r.
Qed.

Lemma common_len_xorb (l1 l2 : list bool) :
  length l1 = length l2 →
  common_len (zip_with xorb l1 l2) (replicate (length l1) false) = common_len l1 l2.
Proof.
  revert l2. induction l1 as [|x l1 IH]; intros [|y l2] E; try done.
  injection E as E. specialize (IH l2 E). by destruct x, y; cbn; rewrite ?IH.
Qed.

Lemma first_bit_spec a b :
  is_byte a → is_byte b →
  first_bit (Z.lxor a b) 0 8 = Z.of_nat (common_len (byte_bits a) (byte_bits b)).
Proof.
  intros Ha Hb.
  assert (∀ x, is_byte x →
    first_bit x 0 8 = Z.of_nat (common_len (byte_bits x) (replicate 8 false))) as E.
  { intros x Hx. apply Z.eqb_eq. revert x Hx. apply (byte_cases (λ x, _ =? _)).
    vm_compute. reflexivity. }
  rewrite E, byte_bits_lxor by by apply is_byte_lxor.
  by rewrite (common_len_xorb (byte_bits a)).
Qed.

(** Common bits of two addresses, from their first differing byte. *)
Lemma common_len_bits (l1 l2 : list Z) :
  length l1 = length l2 → bytes_ok l1 → bytes_ok l2 →
  common_len (bits l1) (bits l2)
  = match l1 !! common_len l1 l2, l2 !! common_len l1 l2 with
    | Some a, Some b => (8 * common_len l1 l2 + common_len (byte_bits a) (byte_bits b))%nat
    | _, _ => (8 * length l1)%nat
    end.
Proof.
  intros E B1. revert l2 E. induction B1 as [|a l1 Ha B1 IH]; intros [|b l2] E B2; try done.
  injection E as E. inversion_clear B2 as [|?? Hb B2'].
  change (bits (a :: l1)) with (byte_bits a ++ bits l1).
  change (bits (b :: l2)) with (byte_bits b ++ bits l2). cbn [common_len].
  destruct (decide (a = b)) as [->|Hne].
  - rewrite common_len_app, (IH l2 E B2'). set (k := common_len l1 l2).
    change ((b :: l1) !! S k) with (l1 !! k). change ((b :: l2) !! S k) with (l2 !! k).
    change (length (byte_bits b)) with 8%nat. cbn [length].
    destruct (l1 !! k), (l2 !! k); lia.
  - change ((a :: l1) !! 0%nat) with (Some a). change ((b :: l2) !! 0%nat) with (Some b).
    cbn beta iota. apply common_len_app_diff; [done|].
    intros ?. by apply Hne, byte_bits_inj.
Qed.

Lemma prefix_common_bits_spec p1 p2 :
  inet_ok p1 → inet_ok p2 → family p1 = family p2 →
  prefix_common_bits p1 p2 = Ok (Z.of_nat (common_len (addr_bits p1) (addr_bits p2))).
Proof.
  intros H1 H2 Ef. unfold prefix_common_bits, addr_bits.
  assert (prefix_blen p2 = prefix_blen p1) as -> by (unfold prefix_blen; by rewrite Ef).
  pose proof H1 as ((L1 & B1 & _) & _ & _). pose proof H2 as ((L2 & B2 & _) & _ & _).
  unfold prefix_union_size in *. fold (prefix_blen p1).
  rewrite Ef, Z.eqb_refl. cbn [negb orb].
  assert (∃ w : nat, prefix_blen p1 = Z.of_nat w ∧ (w = 4 ∨ w = 16)%nat) as (w & -> & Hw).
  { destruct (prefix_blen_cases p1 H1) as [[_ ->]|[_ ->]]; [exists 4%nat|exists 16%nat]; lia. }
  rewrite (proj2 (Z.eqb_neq _ _)) by lia. rewrite Nat2Z.id.
  pose proof (first_diff_spec (u p1) (u p2) w 0 ltac:(lia) ltac:(lia)) as Fd.
  rewrite !drop_0 in Fd. change (Z.of_nat 0) with 0 in Fd. rewrite Fd.
  cbn [mbind M_bind Nat.add].
  set (a1 := take w (u p1)). set (a2 := take w (u p2)).
  assert (length a1 = w) as La1 by (apply length_take_le; lia).
  assert (length a2 = w) as La2 by (apply length_take_le; lia).
  pose proof (common_len_le a1 a2) as Hk.
  rewrite (common_len_bits a1 a2) by (congruence || by apply Forall_take).
  destruct (Z.eqb_spec (Z.of_nat (common_len a1 a2)) (Z.of_nat w)) as [Ek|Ek].
  { rewrite (lookup_ge_None_2 a1) by lia. f_equal. lia. }
  destruct (lookup_lt_is_Some_2 a1 (common_len a1 a2)) as [x Hx]; [lia|].
  destruct (lookup_lt_is_Some_2 a2 (common_len a1 a2)) as [y Hy]; [lia|].
  rewrite Hx, Hy. apply lookup_take_Some in Hx as [Hx _], Hy as [Hy _].
  rewrite (rd_nat _ _ _ Hx), (rd_nat _ _ _ Hy). cbn [mbind M_bind].
  rewrite first_bit_spec by (eapply (Forall_lookup_1 is_byte); [|done]; done).
  f_equal. lia.
Qed.

(** ** Properties *)

(** C33. [prefix_match n p] never reads outside the two addresses and returns 1
    exactly when the significant bits of [n] are an initial segment of those of
    [p], and 0 otherwise; [prefix_cmp] returns 0 exactly on prefixes of the same
    family with the same significant bits. *)
Theorem prefix_match_cmp_correct (n p : prefix) (Hn : prefix_ok n) (Hp : prefix_ok p) :
  prefix_match n p = Ok (if decide (key n `prefix_of` key p) then 1 else 0) ∧
  prefix_cmp n p = Ok (if decide (family n = family p ∧ key n = key p) then 0 else 1).
Proof. split; [by apply prefix_match_key|by apply prefix_cmp_key]. Qed.

(** 10.0.0.0/8 and 10.1.2.0/24. *)
Definition net8 : prefix := Prefix AF_INET 8 (10 :: replicate 15 0).
Definition net24 : prefix := Prefix AF_INET 24 ([10; 1; 2] ++ replicate 13 0).

Lemma net8_ok : prefix_ok net8.
Proof. decide_by_compute. Qed.
Lemma net24_ok : prefix_ok net24.
Proof. decide_by_compute. Qed.

Lemma prefix_match_cmp_correct_witness :
  prefix_match net8 net24 = Ok 1 ∧ prefix_cmp net8 net24 = Ok 1.
Proof.
  destruct (prefix_match_cmp_correct net8 net24 net8_ok net24_ok) as [-> ->].
  split; vm_compute; reflexivity.
Defined.

(** [apply_mask] on an IPv4 or IPv6 prefix returns normally and clears
    exactly the host bits: the significant bits and the bytes outside the
    address are kept, the other address bits are zero, the result names the same
    network ([prefix_cmp] is 0), and masking again changes nothing. *)
Theorem apply_mask_correct (p : prefix) (H : inet_ok p) :
  returns (apply_mask p) (λ p',
    masked p p' ∧ prefix_cmp p p' = Ok 0 ∧ apply_mask p' = Ok p').
Proof.
  destruct (apply_mask_masked p H) as (p' & E & Hm). exists p'. split; [done|].
  pose proof (masked_inet_ok p p' H Hm) as H'.
  split_and!; [done|..].
  - rewrite prefix_cmp_key by (apply H || apply H').
    pose proof (masked_key _ _ H Hm). destruct Hm as [? _]. by rewrite decide_True.
  - destruct (apply_mask_masked p' H') as (p'' & E' & Hm'). rewrite E'. f_equal.
    exact (masked_unique p' _ _ H' Hm' (masked_self p p' H Hm)).
Qed.

Definition host24 : prefix := Prefix AF_INET 24 ([10; 1; 2; 77] ++ replicate 12 0).

Lemma apply_mask_correct_witness :
  inet_ok host24 ∧ returns (apply_mask host24) (λ p',
    masked host24 p' ∧ prefix_cmp host24 p' = Ok 0 ∧ apply_mask p' = Ok p').
Proof.
  assert (inet_ok host24) as H by decide_by_compute.
  split; [exact H|exact (apply_mask_correct host24 H)].
Defined.

(** [prefix_common_bits] on two prefixes of one family is the length of the
    longest common initial segment of their whole addresses: the addresses agree
    on that many bits, and if any are left the next bits differ. *)
Theorem prefix_common_bits_correct (p1 p2 : prefix)
  (H1 : inet_ok p1) (H2 : inet_ok p2) (Hf : family p1 = family p2) :
  returns (prefix_common_bits p1 p2) (λ r, ∃ n, r = Z.of_nat n ∧
    take n (addr_bits p1) = take n (addr_bits p2) ∧
    ∀ x y, addr_bits p1 !! n = Some x → addr_bits p2 !! n = Some y → x ≠ y).
Proof.
  rewrite prefix_common_bits_spec by done. eexists. split; [done|].
  eexists. split_and!; [done|apply common_len_take|apply common_len_diff].
Qed.

Lemma prefix_common_bits_correct_witness :
  prefix_common_bits host24 net24 = Ok 25 ∧
  returns (prefix_common_bits host24 net24) (λ r, ∃ n, r = Z.of_nat n ∧
    take n (addr_bits host24) = take n (addr_bits net24) ∧
    ∀ x y, addr_bits host24 !! n = Some x → addr_bits net24 !! n = Some y → x ≠ y).
Proof.
  split; [vm_compute; reflexivity|].
  apply prefix_common_bits_correct; decide_by_compute.
Defined.

(** Netmasks: for every IPv4 length the mask has that many leading ones and
    [ip_masklen] recovers the length; every row of the [maskbytes6] table is the
    IPv6 mask of its index, and [ip6_masklen] recovers every length below 128. *)
Theorem netmask_roundtrip :
  (∀ k : nat, (k ≤ 32)%nat → ∃ m, masklen2ip (Z.of_nat k) = Ok m ∧
     bits m = mask_bits 32 k ∧ ip_masklen m = Z.of_nat k) ∧
  (∀ k : nat, (k ≤ 128)%nat → ∃ m, masklen2ip6 (Z.of_nat k) = Ok m ∧ bits m = mask_bits 128 k) ∧
  (∀ k : nat, (k ≤ 127)%nat → (masklen2ip6 (Z.of_nat k) ≫= ip6_masklen) = Ok (Z.of_nat k)).
Proof.
  split_and!.
  - intros k Hk. destruct (masklen2ip_bits k Hk) as (m & E & Hb & _).
    exists m. split_and!; [done..|]. by apply ip_masklen_masklen2ip.
  - intros k Hk. destruct (maskbytes6_row k Hk) as (m & E & Hb). exists m. split; [|done].
    unfold masklen2ip6, IPV6_MAX_BITLEN.
    rewrite (proj2 (Z.leb_le _ _)), (proj2 (Z.leb_le _ _)) by lia. by apply rd_nat.
  - apply ip6_masklen_masklen2ip6.
Qed.

(** [ip6_masklen] on the all-ones mask reads one byte past the 16-byte
    address: the loop tests the byte before it tests the length. *)
Theorem ip6_masklen_full_mask_overrun :
  ∃ m, masklen2ip6 128 = Ok m ∧ length m = 16%nat ∧ ip6_masklen m = Fault Undefined.
Proof. eexists. split; [vm_compute; reflexivity|]. split; vm_compute; reflexivity. Qed.

(** The addresses a router must not take as a unicast host: 0/8, 127/8, and
    classes D and E, by the first octet of the address. *)
Definition martian_spec (a : list Z) : bool :=
  match a with
  | b :: _ => (b =? 0) || (b =? 127) || (224 <=? b)
  | [] => false
  end.

Lemma high_octet_mask m v a r :
  0 ≤ r < 2 ^ 24 → 0 ≤ v →
  (Z.land (a * 2 ^ 24 + r) (Z.shiftl m 24) =? Z.shiftl v 24) = (Z.land a m =? v).
Proof.
  intros Hr Hv. rewrite land_shiftl_high by lia.
  assert (Z.shiftr (a * 2 ^ 24 + r) 24 = a) as ->.
  { rewrite Z.shiftr_div_pow2, Z.div_add_l, Z.div_small by lia. lia. }
  rewrite !Z.shiftl_mul_pow2 by lia.
  destruct (Z.eqb_spec (Z.land a m) v); [apply Z.eqb_eq; lia|apply Z.eqb_neq; lia].
Qed.

Lemma ipv4_martian_big a b c d :
  is_byte a → is_byte b → is_byte c → is_byte d →
  ipv4_martian true [a; b; c; d] = Z.b2z (martian_spec [a; b; c; d]).
Proof.
  intros Ha Hb Hc Hd. unfold ipv4_martian, s_addr.
  assert (be_value [a; b; c; d] = a * 2 ^ 24 + be_value [b; c; d]) as -> by (cbn; lia).
  pose proof (be_value_bound [b; c; d] ltac:(by unfold bytes_ok; rewrite !Forall_cons)) as Hr. cbn [length] in Hr.
  unfold IPV4_NET0, IPV4_NET127, IPV4_CLASS_DE.
  change 0xff000000 with (Z.shiftl 0xff 24). change 0xe0000000 with (Z.shiftl 0xe0 24).
  change 0x7f000000 with (Z.shiftl 0x7f 24). change 0x00000000 with (Z.shiftl 0 24) at 1.
  rewrite !high_octet_mask by (done || lia). apply Z.eqb_eq. cbn [martian_spec].
  revert a Ha. apply (byte_cases (λ a, _ =? _)). vm_compute. reflexivity.
Qed.

(** [ipv4_martian] classifies by the first octet on a big-endian host.  On a
    little-endian host it applies the same masks to the address as it lies in
    memory, so it looks at the last octet: 127.0.0.1 is not reported and
    10.0.0.127 is. *)
Theorem ipv4_martian_byte_order :
  (∀ a b c d, is_byte a → is_byte b → is_byte c → is_byte d →
     ipv4_martian true [a; b; c; d] = Z.b2z (martian_spec [a; b; c; d]) ∧
     ipv4_martian false [a; b; c; d] = Z.b2z (martian_spec [d; c; b; a])) ∧
  ipv4_martian false [127; 0; 0; 1] = 0 ∧ ipv4_martian false [10; 0; 0; 127] = 1.
Proof.
  split; [|by vm_compute]. intros a b c d Ha Hb Hc Hd. split; [by apply ipv4_martian_big|].
  change (ipv4_martian false [a; b; c; d]) with (ipv4_martian true [d; c; b; a]).
  by apply ipv4_martian_big.
Qed.
