(* ===== verification/Stream.v ===== *)
(** Packet buffers: lib/stream.c and lib/stream.h.

    [Record stream] is [struct stream]: [getp], [endp] and [size] are 64-bit
    [size_t] values, [data] the allocated block.  Each function is a definition
    of the same name that returns the new stream with the C return value;
    [STREAM_BOUND_WARN] ends in [assert (0)], so it is [Fault Aborted].  Position
    arithmetic wraps at 64 bits as in C.  Contents of fresh memory and results of
    system calls are arguments.

    Module [Fifo] models the intrusive queue of streams on a heap of [next]
    pointers. *)
From S2P Require Import Prelude Prefix.
Open Scope Z_scope.

Record stream := Stream {
  getp : Z;
  endp : Z;
  size : Z;
  data : list Z;
}.

Definition set_getp (s : stream) (v : Z) : stream := Stream v (endp s) (size s) (data s).
Definition set_endp (s : stream) (v : Z) : stream := Stream (getp s) v (size s) (data s).
Definition set_data (s : stream) (d : list Z) : stream := Stream (getp s) (endp s) (size s) d.

Definition GETP_VALID (s : stream) (g : Z) : bool := g <=? endp s.
Definition PUT_AT_VALID (s : stream) (g : Z) : bool := GETP_VALID s g.
Definition ENDP_VALID (s : stream) (e : Z) : bool := e <=? size s.

Definition STREAM_WRITEABLE (s : stream) : Z := u64 (size s - endp s).
Definition STREAM_READABLE (s : stream) : Z := u64 (endp s - getp s).

(** The two asserts of [STREAM_VERIFY_SANE]. *)
Definition sane (s : stream) : bool := GETP_VALID s (getp s) && ENDP_VALID s (endp s).

(** [CHECK_SIZE (S, Z)]: the possibly truncated size. *)
Definition CHECK_SIZE (s : stream) (z : Z) : Z :=
  if size s <? u64 (endp s + z) then u64 (size s - endp s) else z.

(** [junk] is the content of the uninitialised data block. *)
Definition stream_new (sz : Z) (junk : list Z) : M stream :=
  assert! (0 <? sz) ;;
  Ok (Stream 0 0 sz junk).

Definition stream_copy (new src : stream) : M stream :=
  assert! sane src ;;
  assert! (endp src <=? size new) ;;
  b ← rdn (data src) 0 (endp src);
  d ← wrn (data new) 0 b;
  Ok (Stream (getp src) (endp src) (size new) d).

Definition stream_dup (s : stream) (junk : list Z) : M stream :=
  assert! sane s ;;
  new ← stream_new (endp s) junk;
  stream_copy new s.

Definition stream_dupcat (s1 s2 : stream) (offset : Z) (junk : list Z) : M stream :=
  assert! sane s1 ;;
  assert! sane s2 ;;
  new ← stream_new (u64 (endp s1 + endp s2)) junk;
  b1 ← rdn (data s1) 0 offset;
  d1 ← wrn (data new) 0 b1;
  b2 ← rdn (data s2) 0 (endp s2);
  d2 ← wrn d1 offset b2;
  b3 ← rdn (data s1) offset (u64 (endp s1 - offset));
  d3 ← wrn d2 (offset + endp s2) b3;
  Ok (set_endp (set_data new d3) (u64 (endp s1 + endp s2))).

(** [realloc] keeps the common part and leaves the rest uninitialised; a zero
    size makes glibc's [realloc] return NULL, and [zrealloc] aborts. *)
Definition stream_resize (s : stream) (newsize : Z) (junk : list Z) : M (stream * Z) :=
  assert! sane s ;;
  assert! (0 <? newsize) ;;
  let newdata := take (Z.to_nat newsize) (data s ++ junk) in
  let e := if newsize <? endp s then newsize else endp s in
  let g := if e <? getp s then e else getp s in
  let s' := Stream g e newsize newdata in
  assert! sane s' ;;
  Ok (s', size s').

Definition stream_get_getp (s : stream) : M Z := assert! sane s ;; Ok (getp s).
Definition stream_get_endp (s : stream) : M Z := assert! sane s ;; Ok (endp s).
Definition stream_get_size (s : stream) : M Z := assert! sane s ;; Ok (size s).

Definition stream_set_getp (s : stream) (pos : Z) : M stream :=
  assert! sane s ;;
  assert! GETP_VALID s pos ;;
  Ok (set_getp s pos).

Definition stream_set_endp (s : stream) (pos : Z) : M stream :=
  assert! sane s ;;
  assert! ENDP_VALID s pos ;;
  assert! negb (pos <? getp s) ;;
  let s' := set_endp s pos in
  assert! sane s' ;;
  Ok s'.

Definition stream_forward_getp (s : stream) (sz : Z) : M stream :=
  assert! sane s ;;
  assert! GETP_VALID s (u64 (getp s + sz)) ;;
  Ok (set_getp s (u64 (getp s + sz))).

Definition stream_forward_endp (s : stream) (sz : Z) : M stream :=
  assert! sane s ;;
  assert! ENDP_VALID s (u64 (endp s + sz)) ;;
  Ok (set_endp s (u64 (endp s + sz))).

Definition stream_get (s : stream) (sz : Z) : M (stream * list Z) :=
  assert! sane s ;;
  assert! negb (STREAM_READABLE s <? sz) ;;
  b ← rdn (data s) (getp s) sz;
  Ok (set_getp s (u64 (getp s + sz)), b).

(** The n-byte accessors differ only in their width and shift list; [w] below
    is the C conversion of the assembled value. *)
Definition get_at (s : stream) (from : Z) (shs : list Z) (w : Z → Z) : M Z :=
  v ← get_shifted (data s) from shs;
  Ok (w v).

Definition stream_getc (s : stream) : M (stream * Z) :=
  assert! sane s ;;
  assert! negb (STREAM_READABLE s <? 1) ;;
  c ← get_at s (getp s) [0] u8;
  Ok (set_getp s (u64 (getp s + 1)), c).

Definition stream_getc_from (s : stream) (from : Z) : M Z :=
  assert! sane s ;;
  assert! GETP_VALID s (u64 (from + 1)) ;;
  get_at s from [0] u8.

Definition stream_getw (s : stream) : M (stream * Z) :=
  assert! sane s ;;
  assert! negb (STREAM_READABLE s <? 2) ;;
  v ← get_at s (getp s) [8; 0] u16;
  Ok (set_getp s (u64 (getp s + 2)), v).

Definition stream_getw_from (s : stream) (from : Z) : M Z :=
  assert! sane s ;;
  assert! GETP_VALID s (u64 (from + 2)) ;;
  get_at s from [8; 0] u16.

Definition stream_getl_from (s : stream) (from : Z) : M Z :=
  assert! sane s ;;
  assert! GETP_VALID s (u64 (from + 4)) ;;
  get_at s from [24; 16; 8; 0] u32.

Definition stream_getl (s : stream) : M (stream * Z) :=
  assert! sane s ;;
  assert! negb (STREAM_READABLE s <? 4) ;;
  v ← get_at s (getp s) [24; 16; 8; 0] u32;
  Ok (set_getp s (u64 (getp s + 4)), v).

Definition stream_getq_from (s : stream) (from : Z) : M Z :=
  assert! sane s ;;
  assert! GETP_VALID s (u64 (from + 8)) ;;
  get_at s from [56; 48; 40; 32; 24; 16; 8; 0] u64.

Definition stream_getq (s : stream) : M (stream * Z) :=
  assert! sane s ;;
  assert! negb (STREAM_READABLE s <? 8) ;;
  v ← get_at s (getp s) [56; 48; 40; 32; 24; 16; 8; 0] u64;
  Ok (set_getp s (u64 (getp s + 8)), v).

(** The [u_int32_t] is copied byte by byte: an address in network order, here
    its four bytes. *)
Definition stream_get_ipv4 (s : stream) : M (stream * list Z) :=
  assert! sane s ;;
  assert! negb (STREAM_READABLE s <? 4) ;;
  b ← rdn (data s) (getp s) 4;
  Ok (set_getp s (u64 (getp s + 4)), b).

(** [src = None] is the null pointer: the range is zeroed. *)
Definition stream_put (s : stream) (src : option (list Z)) (sz : Z) : M stream :=
  let sz := CHECK_SIZE s sz in
  assert! sane s ;;
  assert! negb (STREAM_WRITEABLE s <? sz) ;;
  b ← match src with
      | Some p => rdn p 0 sz
      | None => Ok (replicate (Z.to_nat sz) 0)
      end;
  d ← wrn (data s) (endp s) b;
  Ok (set_endp (set_data s d) (u64 (endp s + sz))).

Definition put_at (s : stream) (putp v : Z) (shs : list Z) : M stream :=
  d ← put_shifted (data s) putp v shs;
  Ok (set_data s d).

Definition stream_putc (s : stream) (c : Z) : M (stream * Z) :=
  assert! sane s ;;
  assert! negb (STREAM_WRITEABLE s <? 1) ;;
  s' ← put_at s (endp s) c [0];
  Ok (set_endp s' (u64 (endp s + 1)), 1).

Definition stream_putw (s : stream) (w : Z) : M (stream * Z) :=
  assert! sane s ;;
  assert! negb (STREAM_WRITEABLE s <? 2) ;;
  s' ← put_at s (endp s) w [8; 0];
  Ok (set_endp s' (u64 (endp s + 2)), 2).

Definition stream_putl (s : stream) (l : Z) : M (stream * Z) :=
  assert! sane s ;;
  assert! negb (STREAM_WRITEABLE s <? 4) ;;
  s' ← put_at s (endp s) l [24; 16; 8; 0];
  Ok (set_endp s' (u64 (endp s + 4)), 4).

Definition stream_putq (s : stream) (q : Z) : M (stream * Z) :=
  assert! sane s ;;
  assert! negb (STREAM_WRITEABLE s <? 8) ;;
  s' ← put_at s (endp s) q [56; 48; 40; 32; 24; 16; 8; 0];
  Ok (set_endp s' (u64 (endp s + 8)), 8).

Definition stream_putc_at (s : stream) (putp c : Z) : M (stream * Z) :=
  assert! sane s ;;
  assert! PUT_AT_VALID s (u64 (putp + 1)) ;;
  s' ← put_at s putp c [0];
  Ok (s', 1).

Definition stream_putw_at (s : stream) (putp w : Z) : M (stream * Z) :=
  assert! sane s ;;
  assert! PUT_AT_VALID s (u64 (putp + 2)) ;;
  s' ← put_at s putp w [8; 0];
  Ok (s', 2).

Definition stream_putl_at (s : stream) (putp l : Z) : M (stream * Z) :=
  assert! sane s ;;
  assert! PUT_AT_VALID s (u64 (putp + 4)) ;;
  s' ← put_at s putp l [24; 16; 8; 0];
  Ok (s', 4).

Definition stream_putq_at (s : stream) (putp q : Z) : M (stream * Z) :=
  assert! sane s ;;
  assert! PUT_AT_VALID s (u64 (putp + 8)) ;;
  s' ← put_at s putp q [56; 48; 40; 32; 24; 16; 8; 0];
  Ok (s', 8).

(** [addr]: the four bytes of the address. *)
Definition stream_put_ipv4 (s : stream) (addr : list Z) : M (stream * Z) :=
  assert! sane s ;;
  assert! negb (STREAM_WRITEABLE s <? 4) ;;
  b ← rdn addr 0 4;
  d ← wrn (data s) (endp s) b;
  Ok (set_endp (set_data s d) (u64 (endp s + 4)), 4).

Definition stream_put_in_addr (s : stream) (addr : list Z) : M (stream * Z) :=
  assert! sane s ;;
  assert! negb (STREAM_WRITEABLE s <? 4) ;;
  b ← rdn addr 0 4;
  d ← wrn (data s) (endp s) b;
  Ok (set_endp (set_data s d) (u64 (endp s + 4)), 4).

Definition stream_put_prefix (s : stream) (p : prefix) : M (stream * Z) :=
  assert! sane s ;;
  let psize := PSIZE (prefixlen p) in
  assert! negb (STREAM_WRITEABLE s <? u64 (psize + 1)) ;;
  d ← wr (data s) (endp s) (prefixlen p);
  b ← rdn (u p) 0 psize;
  d' ← wrn d (endp s + 1) b;
  Ok (set_endp (set_data s d') (u64 (endp s + 1 + psize)), psize).

(** What a read system call did: its return value and the bytes it stored. *)
Record io := Io { io_ret : Z; io_bytes : list Z; io_retry : bool }.

Definition stream_read (s : stream) (sz : Z) (r : io) : M (stream * Z) :=
  assert! sane s ;;
  assert! negb (STREAM_WRITEABLE s <? sz) ;;
  d ← wrn (data s) (endp s) (io_bytes r);
  let s' := set_data s d in
  Ok (if 0 <? io_ret r then set_endp s' (u64 (endp s + io_ret r)) else s', io_ret r).

(** [stream_read_try] and [stream_recvfrom] run the same code around [read] and
    [recvfrom]. *)
Definition stream_read_try (s : stream) (sz : Z) (r : io) : M (stream * Z) :=
  assert! sane s ;;
  assert! negb (STREAM_WRITEABLE s <? sz) ;;
  d ← wrn (data s) (endp s) (io_bytes r);
  let s' := set_data s d in
  if 0 <=? io_ret r then Ok (set_endp s' (u64 (endp s + io_ret r)), io_ret r)
  else Ok (s', if io_retry r then -2 else -1).

Definition stream_recvfrom (s : stream) (sz : Z) (r : io) : M (stream * Z) :=
  assert! sane s ;;
  assert! negb (STREAM_WRITEABLE s <? sz) ;;
  d ← wrn (data s) (endp s) (io_bytes r);
  let s' := set_data s d in
  if 0 <=? io_ret r then Ok (set_endp s' (u64 (endp s + io_ret r)), io_ret r)
  else Ok (s', if io_retry r then -2 else -1).

Definition stream_recvmsg (s : stream) (iovlen sz : Z) (r : io) : M (stream * Z) :=
  assert! sane s ;;
  assert! (0 <? iovlen) ;;
  assert! negb (STREAM_WRITEABLE s <? sz) ;;
  d ← wrn (data s) (endp s) (io_bytes r);
  let s' := set_data s d in
  Ok (if 0 <? io_ret r then set_endp s' (u64 (endp s + io_ret r)) else s', io_ret r).

Definition stream_write (s : stream) (ptr : list Z) (sz : Z) : M (stream * Z) :=
  let sz := CHECK_SIZE s sz in
  assert! sane s ;;
  assert! negb (STREAM_WRITEABLE s <? sz) ;;
  b ← rdn ptr 0 sz;
  d ← wrn (data s) (endp s) b;
  Ok (set_endp (set_data s d) (u64 (endp s + sz)), sz).

Definition stream_empty (s : stream) : M bool := assert! sane s ;; Ok (endp s =? 0).

Definition stream_reset (s : stream) : M stream :=
  assert! sane s ;; Ok (set_getp (set_endp s 0) 0).

(** The bytes [stream_flush] hands to [write]. *)
Definition stream_flush (s : stream) : M (list Z) :=
  assert! sane s ;; rdn (data s) (getp s) (u64 (endp s - getp s)).

(** ** The queue of streams

    [struct stream_fifo] links streams through their [next] member.  The heap
    maps the address of each allocated stream to its [next]. *)
Module Fifo.

Record stream_fifo := StreamFifo {
  count : Z;
  head : option positive;
  tail : option positive;
}.

Notation heap := (gmap positive (option positive)).

Definition stream_fifo_new : stream_fifo := StreamFifo 0 None None.

Definition stream_fifo_push (h : heap) (f : stream_fifo) (s : positive) : M (heap * stream_fifo) :=
  match tail f with
  | Some t =>
      match h !! t with
      | Some _ => Ok (<[t:=Some s]> h, StreamFifo (u64 (count f + 1)) (head f) (Some s))
      | None => Fault Undefined
      end
  | None => Ok (h, StreamFifo (u64 (count f + 1)) (Some s) (Some s))
  end.

Definition stream_fifo_pop (h : heap) (f : stream_fifo) : M (stream_fifo * option positive) :=
  match head f with
  | Some s =>
      match h !! s with
      | Some nxt =>
          Ok (StreamFifo (u64 (count f - 1)) nxt
                (match nxt with None => None | Some _ => tail f end), Some s)
      | None => Fault Undefined
      end
  | None => Ok (f, None)
  end.

Definition stream_fifo_head (f : stream_fifo) : option positive := head f.

(** The loop of [stream_fifo_clean]: it frees each stream it visits, so it ends
    after at most one step per allocated stream; coming back to a freed one is
    undefined. *)
Fixpoint clean_loop (fuel : nat) (h : heap) (s : option positive) : M heap :=
  match s with
  | None => Ok h
  | Some a =>
      match h !! a, fuel with
      | Some nxt, S fuel' => clean_loop fuel' (delete a h) nxt
      | _, _ => Fault Undefined
      end
  end.

Definition stream_fifo_clean (h : heap) (f : stream_fifo) : M (heap * stream_fifo) :=
  h' ← clean_loop (base.size h) h (head f);
  Ok (h', StreamFifo 0 None None).

(** The queue holds the streams [l], first out first. *)
Fixpoint linked (h : heap) (l : list positive) : Prop :=
  match l with
  | [] => True
  | a :: l' => h !! a = Some (hd_error l') ∧ linked h l'
  end.

Definition holds (h : heap) (f : stream_fifo) (l : list positive) : Prop :=
  NoDup l ∧ linked h l ∧ head f = hd_error l ∧ tail f = last l ∧
  count f = Z.of_nat (length l) ∧ count f < 2 ^ 63.

End Fifo.

(** ** Representation invariant *)

(** The state the header comment of stream.c requires around every call
    ([getp <= endp <= size]), on a block of exactly [size] bytes; no object is
    larger than [PTRDIFF_MAX]. *)
Definition stream_ok (s : stream) : Prop :=
  0 ≤ getp s ≤ endp s ∧ endp s ≤ size s ∧
  size s = Z.of_nat (length (data s)) ∧ size s < 2 ^ 63 ∧ bytes_ok (data s).

#[export] Instance stream_ok_dec s : Decision (stream_ok s).
Proof. unfold stream_ok. apply _. Defined.

(** The bytes written so far, and the bytes not yet read. *)
Definition contents (s : stream) : list Z := take (Z.to_nat (endp s)) (data s).
Definition unread (s : stream) : list Z := drop (Z.to_nat (getp s)) (contents s).

(** One call on a stream, with its arguments. *)
Inductive call :=
  | Copy_to (new : stream)
  | Resize (newsize : Z) (junk : list Z)
  | Set_getp (pos : Z)
  | Set_endp (pos : Z)
  | Forward_getp (sz : Z)
  | Forward_endp (sz : Z)
  | Get (sz : Z)
  | Getc | Getw | Getl | Getq | Get_ipv4
  | Getc_from (from : Z) | Getw_from (from : Z) | Getl_from (from : Z) | Getq_from (from : Z)
  | Put (src : option (list Z)) (sz : Z)
  | Putc (v : Z) | Putw (v : Z) | Putl (v : Z) | Putq (v : Z)
  | Putc_at (putp v : Z) | Putw_at (putp v : Z) | Putl_at (putp v : Z) | Putq_at (putp v : Z)
  | Put_ipv4 (addr : list Z) | Put_in_addr (addr : list Z)
  | Put_prefix (p : prefix)
  | Read (sz : Z) (r : io) | Read_try (sz : Z) (r : io) | Recvfrom (sz : Z) (r : io)
  | Recvmsg (iovlen sz : Z) (r : io)
  | Write (ptr : list Z) (sz : Z)
  | Reset_
  | Flush.

(** The stream after the call; a call that only reads leaves it as it is. *)
Definition run (s : stream) (c : call) : M stream :=
  match c with
  | Copy_to new => stream_copy new s
  | Resize n junk => fst <$> stream_resize s n junk
  | Set_getp pos => stream_set_getp s pos
  | Set_endp pos => stream_set_endp s pos
  | Forward_getp n => stream_forward_getp s n
  | Forward_endp n => stream_forward_endp s n
  | Get n => fst <$> stream_get s n
  | Getc => fst <$> stream_getc s
  | Getw => fst <$> stream_getw s
  | Getl => fst <$> stream_getl s
  | Getq => fst <$> stream_getq s
  | Get_ipv4 => fst <$> stream_get_ipv4 s
  | Getc_from f => (λ _, s) <$> stream_getc_from s f
  | Getw_from f => (λ _, s) <$> stream_getw_from s f
  | Getl_from f => (λ _, s) <$> stream_getl_from s f
  | Getq_from f => (λ _, s) <$> stream_getq_from s f
  | Put src n => stream_put s src n
  | Putc v => fst <$> stream_putc s v
  | Putw v => fst <$> stream_putw s v
  | Putl v => fst <$> stream_putl s v
  | Putq v => fst <$> stream_putq s v
  | Putc_at p v => fst <$> stream_putc_at s p v
  | Putw_at p v => fst <$> stream_putw_at s p v
  | Putl_at p v => fst <$> stream_putl_at s p v
  | Putq_at p v => fst <$> stream_putq_at s p v
  | Put_ipv4 a => fst <$> stream_put_ipv4 s a
  | Put_in_addr a => fst <$> stream_put_in_addr s a
  | Put_prefix p => fst <$> stream_put_prefix s p
  | Read n r => fst <$> stream_read s n r
  | Read_try n r => fst <$> stream_read_try s n r
  | Recvfrom n r => fst <$> stream_recvfrom s n r
  | Recvmsg k n r => fst <$> stream_recvmsg s k n r
  | Write p n => fst <$> stream_write s p n
  | Reset_ => stream_reset s
  | Flush => (λ _, s) <$> stream_flush s
  end.

(** What the C prototypes and the system-call interface promise of the
    arguments: sizes and positions are [size_t]; source buffers hold the bytes
    the call names; a read stores at most the bytes asked for.  A position passed
    to a [_from] or [_at] function must not be within eight of [SIZE_MAX], and the
    distance of [stream_forward_endp] must be a possible object size: beyond that
    the bound tests of the code wrap. *)
Definition io_ok (sz : Z) (r : io) : Prop :=
  io_ret r ≤ Z.of_nat (length (io_bytes r)) ≤ sz ∧ bytes_ok (io_bytes r).
Definition pos_ok (p : Z) : Prop := 0 ≤ p < 2 ^ 64 - 8.
Definition src_ok (l : list Z) (n : Z) : Prop := n ≤ Z.of_nat (length l) ∧ bytes_ok l.

Definition call_ok (s : stream) (c : call) : Prop :=
  match c with
  | Copy_to new => stream_ok new
  | Resize n junk => n < 2 ^ 63 ∧ n ≤ size s + Z.of_nat (length junk) ∧ bytes_ok junk
  | Set_getp p | Set_endp p | Forward_getp p | Get p => 0 ≤ p < 2 ^ 64
  | Forward_endp p => 0 ≤ p < 2 ^ 63
  | Getc_from p | Getw_from p | Getl_from p | Getq_from p => pos_ok p
  | Putc_at p _ | Putw_at p _ | Putl_at p _ | Putq_at p _ => pos_ok p
  | Put (Some l) n | Write l n => 0 ≤ n < 2 ^ 64 ∧ src_ok l n
  | Put None n => 0 ≤ n < 2 ^ 64
  | Put_ipv4 a | Put_in_addr a => src_ok a 4
  | Put_prefix p => prefix_ok p
  | Read n r | Read_try n r | Recvfrom n r | Recvmsg _ n r => 0 ≤ n ∧ io_ok n r
  | _ => True
  end.

(** ** Access lemmas *)
Section access.
Implicit Types (s : stream).

Lemma u64_small z : 0 ≤ z < 2 ^ 64 → u64 z = z.
Proof. apply Z.mod_small. Qed.

Lemma sane_ok s : stream_ok s → sane s = true.
Proof.
  intros (? & ? & _). unfold sane, GETP_VALID, ENDP_VALID.
  by rewrite !(proj2 (Z.leb_le _ _)) by lia.
Qed.

Lemma readable_ok s : stream_ok s → STREAM_READABLE s = endp s - getp s.
Proof. intros (? & ? & ? & ? & _). apply u64_small. lia. Qed.

Lemma writeable_ok s : stream_ok s → STREAM_WRITEABLE s = size s - endp s.
Proof. intros (? & ? & ? & ? & _). apply u64_small. lia. Qed.

Lemma CHECK_SIZE_le s z :
  stream_ok s → 0 ≤ z < 2 ^ 64 → 0 ≤ CHECK_SIZE s z ≤ z.
Proof.
  intros (? & ? & ? & ? & _) Hz. unfold CHECK_SIZE.
  destruct (Z.ltb_spec (size s) (u64 (endp s + z))); [|lia].
  rewrite (u64_small (size s - endp s)) by lia.
  destruct (Z.lt_ge_cases (endp s + z) (2 ^ 64)); [|lia].
  rewrite u64_small in * by lia. lia.
Qed.

Lemma put_at_ok s (n : nat) p v :
  stream_ok s → 0 ≤ p → p + Z.of_nat n ≤ size s →
  put_at s p v (shifts n)
  = Ok (set_data s (take (Z.to_nat p) (data s) ++ be_bytes n v
                    ++ drop (Z.to_nat p + n) (data s))).
Proof.
  intros (_ & _ & Hs & _) Hp Hn. unfold put_at.
  rewrite <-(Z2Nat.id p) at 1 by done.
  by rewrite put_shifted_in_bounds by lia.
Qed.

Lemma get_at_ok s (n : nat) p w :
  stream_ok s → 0 ≤ p → p + Z.of_nat n ≤ size s →
  get_at s p (shifts n) w = Ok (w (be_value (take n (drop (Z.to_nat p) (data s))))).
Proof.
  intros (_ & _ & Hs & _ & Hb) Hp Hn. unfold get_at.
  rewrite <-(Z2Nat.id p) at 1 by done.
  set (l := take n (drop (Z.to_nat p) (data s))).
  assert (length l = n) as Hl by (unfold l; rewrite length_take, length_drop; lia).
  rewrite <-Hl, (get_shifted_value l); [done|..].
  - unfold l. by apply Forall_take, Forall_drop.
  - by rewrite Hl.
Qed.

Lemma splice_ok s p (b : list Z) :
  stream_ok s → 0 ≤ p → p + Z.of_nat (length b) ≤ size s → bytes_ok b →
  stream_ok (set_data s (take (Z.to_nat p) (data s) ++ b
                         ++ drop (Z.to_nat p + length b) (data s))).
Proof.
  intros (? & ? & Hs & ? & Hb) Hp Hn Hbb. unfold stream_ok. cbn [getp endp size data set_data].
  rewrite length_splice by lia. split_and!; try (done || lia).
  apply Forall_app; split; [by apply Forall_take|].
  apply Forall_app; split; [done|by apply Forall_drop].
Qed.

Lemma set_endp_ok s e : stream_ok s → getp s ≤ e ≤ size s → stream_ok (set_endp s e).
Proof.
  intros (? & ? & ? & ? & ?) ?. split_and!; cbn [getp endp size data set_endp set_getp]; done || lia.
Qed.

Lemma set_getp_ok s g : stream_ok s → 0 ≤ g ≤ endp s → stream_ok (set_getp s g).
Proof.
  intros (? & ? & ? & ? & ?) ?. split_and!; cbn [getp endp size data set_endp set_getp]; done || lia.
Qed.
End access.

(** ** Safety of every call *)

(** Turn the boolean guards passed so far into inequalities. *)
Ltac guard_facts :=
  unfold PUT_AT_VALID, GETP_VALID, ENDP_VALID in *;
  repeat match goal with
  | H : negb _ = true |- _ => apply negb_true_iff in H
  | H : (_ <=? _) = true |- _ => apply Z.leb_le in H
  | H : (_ <? _) = false |- _ => apply Z.ltb_ge in H
  | H : (_ <? _) = true |- _ => apply Z.ltb_lt in H
  end.

Lemma safe_assert {A} (b : bool) (k : M A) P :
  (b = true → safe k P) → safe (assert! b ;; k) P.
Proof. destruct b; cbn; auto. Qed.

Lemma safe_fmap {A B} (f : A → B) m P : safe m (P ∘ f) → safe (f <$> m) P.
Proof. destruct m as [|[]]; cbn; auto. Qed.

Section safety.
Implicit Types (s : stream).

Lemma get_safe s (n : nat) w :
  stream_ok s → (0 < n ≤ 8)%nat →
  safe (assert! sane s ;; assert! negb (STREAM_READABLE s <? Z.of_nat n) ;;
        v ← get_at s (getp s) (shifts n) w;
        Ok (set_getp s (u64 (getp s + Z.of_nat n)), v)) (stream_ok ∘ fst).
Proof.
  intros Hs Hn. do 2 (apply safe_assert; intros ?). rewrite readable_ok in * by done.
  guard_facts. pose proof Hs as (? & ? & ? & ? & _).
  rewrite get_at_ok by (done || lia). cbn [mbind M_bind safe compose fst].
  rewrite u64_small by lia. apply set_getp_ok; [done|lia].
Qed.

Lemma get_from_safe s (n : nat) p w :
  stream_ok s → (0 < n ≤ 8)%nat → pos_ok p →
  safe (assert! sane s ;; assert! GETP_VALID s (u64 (p + Z.of_nat n)) ;;
        get_at s p (shifts n) w) (λ _, stream_ok s).
Proof.
  intros Hs Hn Hp. unfold pos_ok in Hp. do 2 (apply safe_assert; intros ?). guard_facts.
  rewrite u64_small in * by lia. pose proof Hs as (? & ? & ? & ? & _).
  by rewrite get_at_ok by (done || lia).
Qed.

Lemma put_safe s (n : nat) v :
  stream_ok s → (0 < n ≤ 8)%nat →
  safe (assert! sane s ;; assert! negb (STREAM_WRITEABLE s <? Z.of_nat n) ;;
        s' ← put_at s (endp s) v (shifts n);
        Ok (set_endp s' (u64 (endp s + Z.of_nat n)), Z.of_nat n)) (stream_ok ∘ fst).
Proof.
  intros Hs Hn. do 2 (apply safe_assert; intros ?). rewrite writeable_ok in * by done.
  guard_facts. pose proof Hs as (? & ? & ? & ? & _).
  rewrite put_at_ok by (done || lia). cbn [mbind M_bind safe compose fst].
  rewrite u64_small by lia. apply set_endp_ok; [|cbn; lia].
  rewrite <-(length_be_bytes n v) at 2.
  apply splice_ok; rewrite ?length_be_bytes; auto using be_bytes_ok; lia.
Qed.

Lemma put_at_safe s (n : nat) p v :
  stream_ok s → (0 < n ≤ 8)%nat → pos_ok p →
  safe (assert! sane s ;; assert! PUT_AT_VALID s (u64 (p + Z.of_nat n)) ;;
        s' ← put_at s p v (shifts n);
        Ok (s', Z.of_nat n)) (stream_ok ∘ fst).
Proof.
  intros Hs Hn Hp. unfold pos_ok in Hp. do 2 (apply safe_assert; intros ?). guard_facts.
  rewrite u64_small in * by lia. pose proof Hs as (? & ? & ? & ? & _).
  rewrite put_at_ok by (done || lia). cbn [mbind M_bind safe compose fst].
  rewrite <-(length_be_bytes n v) at 2.
  apply splice_ok; rewrite ?length_be_bytes; auto using be_bytes_ok; lia.
Qed.

(** Appending a block of bytes at [endp]: the core of the bulk writers. *)
Lemma append_ok s (b : list Z) :
  stream_ok s → Z.of_nat (length b) ≤ size s - endp s → bytes_ok b →
  ∃ d, wrn (data s) (endp s) b = Ok d ∧ stream_ok (set_data s d) ∧
       (∀ e, endp s ≤ e ≤ endp s + Z.of_nat (length b) → stream_ok (set_endp (set_data s d) e)).
Proof.
  intros Hs Hlen Hb. pose proof Hs as (? & ? & ? & ? & _).
  rewrite wrn_in_bounds by lia. eexists. split; [done|].
  assert (stream_ok (set_data s (take (Z.to_nat (endp s)) (data s) ++ b
    ++ drop (Z.to_nat (endp s) + length b) (data s)))) by (apply splice_ok; done || lia).
  split; [done|]. intros e He. apply set_endp_ok; [done|cbn; lia].
Qed.
End safety.

Section calls.
Implicit Types (s : stream).

Lemma resize_safe s n junk :
  stream_ok s → call_ok s (Resize n junk) → safe (stream_resize s n junk) (stream_ok ∘ fst).
Proof.
  intros (? & ? & Hs & ? & Hb) (? & Hn & Hj). unfold stream_resize.
  do 3 (apply safe_assert; intros ?). guard_facts. cbn [safe compose fst].
  split_and!; cbn [getp endp size data];
    destruct (Z.ltb_spec n (endp s)), (Z.ltb_spec n (getp s)), (Z.ltb_spec (endp s) (getp s)); try lia.
  all: try (rewrite length_take, length_app; lia).
  all: apply Forall_take, Forall_app; done.
Qed.

Lemma copy_safe s new : stream_ok s → stream_ok new → safe (stream_copy new s) stream_ok.
Proof.
  intros Hs Hn. pose proof Hs as (? & ? & ? & ? & Hb). pose proof Hn as (? & ? & ? & ? & _).
  unfold stream_copy. do 2 (apply safe_assert; intros ?). guard_facts.
  rewrite rdn_in_bounds by lia. cbn [mbind M_bind]. rewrite drop_0.
  assert (length (take (Z.to_nat (endp s)) (data s)) = Z.to_nat (endp s)) as L
    by (rewrite length_take; lia).
  rewrite wrn_in_bounds by lia. cbn [mbind M_bind safe].
  pose proof (splice_ok new 0 (take (Z.to_nat (endp s)) (data s)) Hn) as (? & ? & ? & ? & ?);
    [lia|lia|by apply Forall_take|].
  split_and!; cbn [getp endp size data set_data] in *; done || lia.
Qed.

Lemma put_bulk_safe s src sz :
  stream_ok s → call_ok s (Put src sz) → safe (stream_put s src sz) stream_ok.
Proof.
  intros Hs Hc. assert (0 ≤ sz < 2 ^ 64) as Hz by (destruct src; cbn in Hc; tauto).
  pose proof (CHECK_SIZE_le s sz Hs Hz) as Hle. unfold stream_put. set (n := CHECK_SIZE s sz) in *.
  do 2 (apply safe_assert; intros ?). rewrite writeable_ok in * by done. guard_facts.
  pose proof Hs as (? & ? & ? & ? & _).
  apply safe_bind with (Q := λ b, Z.of_nat (length b) = n ∧ bytes_ok b).
  - destruct src as [l|]; cbn in Hc.
    + destruct Hc as (_ & ? & ?). rewrite rdn_in_bounds by lia. cbn. rewrite drop_0, length_take.
      split; [lia|by apply Forall_take].
    + cbn. rewrite length_replicate. split; [lia|apply Forall_replicate; byte_lia].
  - intros b [Hlen Hb]. destruct (append_ok s b Hs) as (d & -> & _ & Hd); [lia|done|].
    cbn. rewrite u64_small by lia. apply Hd. lia.
Qed.

Lemma write_safe s l sz :
  stream_ok s → call_ok s (Write l sz) → safe (stream_write s l sz) (stream_ok ∘ fst).
Proof.
  intros Hs Hc. pose proof (put_bulk_safe s (Some l) sz Hs Hc) as P.
  unfold stream_write, stream_put in *.
  destruct (sane s); [|done]. destruct (negb _); [|done].
  destruct (rdn l 0 _) as [b|]; [|done]. cbn [mbind M_bind] in *.
  by destruct (wrn (data s) (endp s) b).
Qed.

Lemma put4_safe s a :
  stream_ok s → src_ok a 4 → safe (stream_put_ipv4 s a) (stream_ok ∘ fst).
Proof.
  intros Hs [La Ba]. unfold stream_put_ipv4. do 2 (apply safe_assert; intros ?).
  rewrite writeable_ok in * by done. guard_facts. pose proof Hs as (? & ? & ? & ? & _).
  rewrite rdn_in_bounds, drop_0 by lia. cbn [mbind M_bind].
  destruct (append_ok s (take (Z.to_nat 4) a) Hs) as (d & -> & _ & Hd);
    [rewrite length_take; lia|by apply Forall_take|].
  cbn [mbind M_bind safe compose fst]. rewrite u64_small by lia. apply Hd.
  rewrite length_take. lia.
Qed.

Lemma io_safe s (n : Z) r (g : stream → M (stream * Z)) :
  stream_ok s → 0 ≤ n → io_ok n r →
  (∀ d, stream_ok (set_data s d) →
     (∀ e, endp s ≤ e ≤ endp s + Z.of_nat (length (io_bytes r)) → stream_ok (set_endp (set_data s d) e)) →
     safe (g (set_data s d)) (stream_ok ∘ fst)) →
  safe (assert! sane s ;; assert! negb (STREAM_WRITEABLE s <? n) ;;
        d ← wrn (data s) (endp s) (io_bytes r); g (set_data s d)) (stream_ok ∘ fst).
Proof.
  intros Hs Hn [Hr Hb] Hg. do 2 (apply safe_assert; intros ?).
  rewrite writeable_ok in * by done. guard_facts.
  destruct (append_ok s (io_bytes r) Hs) as (d & -> & H1 & H2); [lia|done|]. by apply Hg.
Qed.

Lemma endp_bound s d r n :
  stream_ok s → stream_ok (set_data s d) → io_ok n r →
  (∀ e, endp s ≤ e ≤ endp s + Z.of_nat (length (io_bytes r)) → stream_ok (set_endp (set_data s d) e)) →
  0 ≤ io_ret r → stream_ok (set_endp (set_data s d) (u64 (endp s + io_ret r))).
Proof.
  intros (? & ? & ? & ? & _) _ [? _] Hd Hr.
  destruct (Hd (endp s + io_ret r) ltac:(lia)) as (? & He & _). cbn in He.
  rewrite u64_small by lia. apply Hd. lia.
Qed.

Lemma read_safe s n r :
  stream_ok s → 0 ≤ n → io_ok n r → safe (stream_read s n r) (stream_ok ∘ fst).
Proof.
  intros Hs Hn Hr. apply (io_safe s n r (λ s',
    Ok (if 0 <? io_ret r then set_endp s' (u64 (endp s + io_ret r)) else s', io_ret r))); [done..|].
  intros d H1 H2. cbn [safe compose].
  destruct (Z.ltb_spec 0 (io_ret r)); cbn [fst]; [|done]. eapply endp_bound; eauto. lia.
Qed.

Lemma read_try_safe s n r :
  stream_ok s → 0 ≤ n → io_ok n r → safe (stream_read_try s n r) (stream_ok ∘ fst).
Proof.
  intros Hs Hn Hr. apply (io_safe s n r (λ s',
    if 0 <=? io_ret r then Ok (set_endp s' (u64 (endp s + io_ret r)), io_ret r)
    else Ok (s', if io_retry r then -2 else -1))); [done..|].
  intros d H1 H2. destruct (Z.leb_spec 0 (io_ret r)); cbn [safe compose fst]; [|done].
  by eapply endp_bound.
Qed.

Lemma put_prefix_safe s p :
  stream_ok s → prefix_ok p → safe (stream_put_prefix s p) (stream_ok ∘ fst).
Proof.
  intros Hs (Lu & Bu & Hp). unfold prefix_union_size, IPV6_MAX_BITLEN in *.
  pose proof Hs as (? & ? & ? & ? & _). unfold stream_put_prefix.
  assert (0 ≤ PSIZE (prefixlen p) ≤ 16) as Hz.
  { unfold PSIZE. split; [apply Z.div_pos; lia|]. apply Z.lt_succ_r, Z.div_lt_upper_bound; lia. }
  set (n := PSIZE (prefixlen p)) in *. do 2 (apply safe_assert; intros ?).
  rewrite writeable_ok, u64_small in * by (done || lia). guard_facts.
  rewrite wr_in_bounds by lia. cbn [mbind M_bind].
  rewrite rdn_in_bounds, drop_0 by lia. cbn [mbind M_bind].
  set (d := <[Z.to_nat (endp s):=prefixlen p]> (data s)).
  assert (stream_ok (set_endp (set_data s d) (endp s + 1))) as Hs'.
  { split_and!; cbn [getp endp size data set_data set_endp]; unfold d; rewrite ?length_insert;
      try lia. apply Forall_insert; [apply Hs|byte_lia]. }
  destruct (append_ok _ (take (Z.to_nat n) (u p)) Hs') as (d' & E & _ & Hd');
    cbn [endp size set_endp set_data]; [rewrite length_take; lia|by apply Forall_take|].
  cbn [data endp set_endp set_data] in E. rewrite E. cbn [mbind M_bind safe compose fst].
  rewrite ?u64_small by lia. apply (Hd' (endp s + 1 + n)). cbn [endp set_endp set_data].
  rewrite length_take. lia.
Qed.

Lemma recvmsg_safe s k n r :
  stream_ok s → 0 ≤ n → io_ok n r → safe (stream_recvmsg s k n r) (stream_ok ∘ fst).
Proof.
  intros Hs Hn Hr. pose proof (read_safe s n r Hs Hn Hr) as P. unfold stream_recvmsg.
  apply safe_assert; intros E. apply safe_assert; intros _. unfold stream_read in P.
  by rewrite E in P.
Qed.

(** The calls that only move a pointer. *)
Lemma pointer_safe s c :
  match c with
  | Set_getp _ | Set_endp _ | Forward_getp _ | Forward_endp _ | Reset_ => True | _ => False
  end → stream_ok s → call_ok s c → safe (run s c) stream_ok.
Proof.
  intros Hc Hs Hok. pose proof Hs as (? & ? & ? & ? & _).
  destruct c; try done; cbn [run call_ok] in *; repeat (apply safe_assert; intros ?); guard_facts;
    cbn [safe].
  - apply set_getp_ok; [done|lia].
  - apply set_endp_ok; [done|lia].
  - apply set_getp_ok; [done|]. split; [apply Z.mod_pos_bound; lia|done].
  - rewrite u64_small in * by lia. apply set_endp_ok; [done|lia].
  - split_and!; cbn; try (done || lia). apply Hs.
Qed.

(** The calls that read a slice at [getp]. *)
Lemma slice_safe s sz :
  stream_ok s → 0 ≤ sz →
  safe (stream_get s sz) (stream_ok ∘ fst) ∧
  safe (stream_get_ipv4 s) (stream_ok ∘ fst) ∧
  safe (stream_flush s) (λ _, stream_ok s).
Proof.
  intros Hs Hsz. pose proof Hs as (? & ? & ? & ? & _).
  split_and!; repeat (apply safe_assert; intros ?); rewrite ?readable_ok in * by done; guard_facts.
  - rewrite rdn_in_bounds by lia. cbn [mbind M_bind safe compose fst].
    rewrite u64_small by lia. apply set_getp_ok; [done|lia].
  - rewrite rdn_in_bounds by lia. cbn [mbind M_bind safe compose fst].
    rewrite u64_small by lia. apply set_getp_ok; [done|lia].
  - rewrite u64_small, rdn_in_bounds by lia. done.
Qed.

Lemma run_safe s c : stream_ok s → call_ok s c → safe (run s c) stream_ok.
Proof.
  intros Hs Hc. pose proof Hs as (? & ? & ? & ? & _).
  destruct c; try (by apply pointer_safe); cbn [run call_ok] in *; try apply safe_fmap.
  all: try by apply resize_safe.
  all: try by apply copy_safe.
  all: try by apply (get_safe s 1); first [done|lia].
  all: try by apply (get_safe s 2); first [done|lia].
  all: try by apply (get_safe s 4); first [done|lia].
  all: try by apply (get_safe s 8); first [done|lia].
  all: try by apply (get_from_safe s 1); first [done|lia].
  all: try by apply (get_from_safe s 2); first [done|lia].
  all: try by apply (get_from_safe s 4); first [done|lia].
  all: try by apply (get_from_safe s 8); first [done|lia].
  all: try by apply (put_safe s 1); first [done|lia].
  all: try by apply (put_safe s 2); first [done|lia].
  all: try by apply (put_safe s 4); first [done|lia].
  all: try by apply (put_safe s 8); first [done|lia].
  all: try by apply (put_at_safe s 1); first [done|lia].
  all: try by apply (put_at_safe s 2); first [done|lia].
  all: try by apply (put_at_safe s 4); first [done|lia].
  all: try by apply (put_at_safe s 8); first [done|lia].
  all: try by first [apply put4_safe|apply put_prefix_safe|apply put_bulk_safe|apply write_safe].
  all: try by (apply read_safe; tauto).
  all: try by (apply read_try_safe; tauto).
  all: try by (apply recvmsg_safe; tauto).
  - apply (slice_safe s sz); [done|lia].
  - apply (slice_safe s 0); [done|lia].
  - apply (slice_safe s 0); [done|lia].
Qed.
End calls.

(** ** A stream as a byte queue

    Writers append to [contents], readers consume [unread]. *)

(** Room for [n] more bytes. *)
Definition room (s : stream) (n : Z) : Prop := n ≤ size s - endp s.

(** [s'] is [s] with the bytes [b] appended. *)
Definition appended (s s' : stream) (b : list Z) : Prop :=
  stream_ok s' ∧ size s' = size s ∧ getp s' = getp s ∧
  contents s' = contents s ++ b ∧ unread s' = unread s ++ b.

(** [s'] is [s] with the bytes [b] read and [rest] left. *)
Definition consumed (s s' : stream) (b rest : list Z) : Prop :=
  stream_ok s' ∧ size s' = size s ∧ contents s' = contents s ∧
  unread s = b ++ rest ∧ unread s' = rest.

Section queue.
Implicit Types (s : stream) (b rest : list Z).

Lemma length_contents s : stream_ok s → Z.of_nat (length (contents s)) = endp s.
Proof. intros (? & ? & ? & _). unfold contents. rewrite length_take. lia. Qed.

Lemma length_unread s : stream_ok s → Z.of_nat (length (unread s)) = endp s - getp s.
Proof.
  intros Hs. pose proof (length_contents s Hs). destruct Hs as (? & _).
  unfold unread. rewrite length_drop. lia.
Qed.

Lemma append_splice s b :
  stream_ok s → room s (Z.of_nat (length b)) → bytes_ok b →
  appended s (set_endp (set_data s (take (Z.to_nat (endp s)) (data s) ++ b
    ++ drop (Z.to_nat (endp s) + length b) (data s))) (endp s + Z.of_nat (length b))) b.
Proof.
  intros Hs Hr Hb. unfold room in Hr. pose proof Hs as (? & ? & ? & ? & _).
  pose proof (length_contents s Hs) as Lc.
  assert (contents (set_endp (set_data s (take (Z.to_nat (endp s)) (data s) ++ b
    ++ drop (Z.to_nat (endp s) + length b) (data s))) (endp s + Z.of_nat (length b)))
    = contents s ++ b) as Ec.
  { unfold contents at 1. cbn [endp data set_endp set_data].
    rewrite (assoc_L (++)), take_app_le by (rewrite length_app, length_take; lia).
    apply take_ge. rewrite length_app. lia. }
  split_and!; [|done|done|done|].
  - apply set_endp_ok; [apply splice_ok; done || lia|cbn; lia].
  - unfold unread. rewrite Ec. cbn [getp set_endp set_data].
    rewrite drop_app_le by lia. done.
Qed.

Lemma put_spec s (n : nat) v :
  stream_ok s → (n ≤ 8)%nat → room s (Z.of_nat n) →
  returns (assert! sane s ;; assert! negb (STREAM_WRITEABLE s <? Z.of_nat n) ;;
        s' ← put_at s (endp s) v (shifts n);
        Ok (set_endp s' (u64 (endp s + Z.of_nat n)), Z.of_nat n))
    (λ '(s', r), r = Z.of_nat n ∧ appended s s' (be_bytes n v)).
Proof.
  intros Hs Hn Hr. unfold room in Hr. pose proof Hs as (? & ? & ? & ? & _).
  rewrite sane_ok, writeable_ok by done. rewrite (proj2 (Z.ltb_ge _ _)) by lia. cbn [negb].
  rewrite put_at_ok by (done || lia). cbn [mbind M_bind]. rewrite u64_small by lia.
  eexists; split; [done|]. split; [done|].
  pose proof (append_splice s (be_bytes n v) Hs) as P. rewrite length_be_bytes in P.
  apply P; [done|apply be_bytes_ok].
Qed.

Lemma take_unread s (n : nat) :
  stream_ok s → Z.of_nat n ≤ endp s - getp s →
  take n (drop (Z.to_nat (getp s)) (data s)) = take n (unread s).
Proof.
  intros (? & ? & ? & _) Hn. unfold unread, contents.
  rewrite skipn_firstn_comm, take_take. f_equal. lia.
Qed.

Lemma consume_ok s b rest :
  stream_ok s → unread s = b ++ rest →
  consumed s (set_getp s (getp s + Z.of_nat (length b))) b rest.
Proof.
  intros Hs E. pose proof (length_unread s Hs) as L. rewrite E, length_app in L.
  pose proof Hs as (? & ? & ? & ? & _). split_and!; try done.
  - apply set_getp_ok; [done|lia].
  - unfold unread in *. cbn [getp set_getp].
    change (contents (set_getp s _)) with (contents s).
    replace (Z.to_nat (getp s + Z.of_nat (length b))) with (Z.to_nat (getp s) + length b)%nat by lia.
    rewrite <-drop_drop, E. apply drop_app_length.
Qed.

Lemma get_spec s (n : nat) w b rest :
  stream_ok s → (n ≤ 8)%nat → unread s = b ++ rest → length b = n →
  returns (assert! sane s ;; assert! negb (STREAM_READABLE s <? Z.of_nat n) ;;
        v ← get_at s (getp s) (shifts n) w;
        Ok (set_getp s (u64 (getp s + Z.of_nat n)), v))
    (λ '(s', v), v = w (be_value b) ∧ consumed s s' b rest).
Proof.
  intros Hs Hn E Lb. pose proof (length_unread s Hs) as L. rewrite E, length_app in L.
  pose proof Hs as (? & ? & ? & ? & _).
  rewrite sane_ok, readable_ok by done. rewrite (proj2 (Z.ltb_ge _ _)) by lia. cbn [negb].
  rewrite get_at_ok by (done || lia). cbn [mbind M_bind].
  rewrite take_unread, E, u64_small by (done || lia). eexists; split; [done|].
  rewrite <-Lb. rewrite take_app_length. split; [done|by apply consume_ok].
Qed.
End queue.

(** The four widths, as instances of one interface: a writer and a reader that
    move [n]-byte big-endian numbers through the queue. *)
Class Word (n : nat) := {
  put_word : stream → Z → M (stream * Z);
  get_word : stream → M (stream * Z);
  put_word_spec s v : stream_ok s → room s (Z.of_nat n) →
    returns (put_word s v) (λ '(s', r), r = Z.of_nat n ∧ appended s s' (be_bytes n v));
  get_word_spec s b rest : stream_ok s → unread s = b ++ rest → length b = n →
    returns (get_word s) (λ '(s', v), v = be_value b ∧ consumed s s' b rest);
}.

Lemma unread_bytes s : stream_ok s → bytes_ok (unread s).
Proof. intros (_ & _ & _ & _ & ?). by apply Forall_drop, Forall_take. Qed.

Lemma get_spec_exact s (n : nat) b rest :
  stream_ok s → (n ≤ 8)%nat → unread s = b ++ rest → length b = n →
  returns (assert! sane s ;; assert! negb (STREAM_READABLE s <? Z.of_nat n) ;;
        v ← get_at s (getp s) (shifts n) (λ z, z mod 2 ^ (8 * Z.of_nat n));
        Ok (set_getp s (u64 (getp s + Z.of_nat n)), v))
    (λ '(s', v), v = be_value b ∧ consumed s s' b rest).
Proof.
  intros Hs Hn E Lb. destruct (get_spec s n (λ z, z mod 2 ^ (8 * Z.of_nat n)) b rest Hs Hn E Lb)
    as ([s' v] & Eq & -> & Hc). eexists; split; [done|]. split; [|done].
  apply Z.mod_small. rewrite <-Lb. apply be_value_bound.
  pose proof (unread_bytes s Hs) as Hb. rewrite E in Hb. by apply Forall_app in Hb as [? _].
Qed.

#[export] Program Instance word1 : Word 1 := {| put_word := stream_putc; get_word := stream_getc |}.
Next Obligation. intros. by apply (put_spec s 1); auto with lia. Qed.
Next Obligation. intros. by apply (get_spec_exact s 1); auto with lia. Qed.
#[export] Program Instance word2 : Word 2 := {| put_word := stream_putw; get_word := stream_getw |}.
Next Obligation. intros. by apply (put_spec s 2); auto with lia. Qed.
Next Obligation. intros. by apply (get_spec_exact s 2); auto with lia. Qed.
#[export] Program Instance word4 : Word 4 := {| put_word := stream_putl; get_word := stream_getl |}.
Next Obligation. intros. by apply (put_spec s 4); auto with lia. Qed.
Next Obligation. intros. by apply (get_spec_exact s 4); auto with lia. Qed.
#[export] Program Instance word8 : Word 8 := {| put_word := stream_putq; get_word := stream_getq |}.
Next Obligation. intros. by apply (put_spec s 8); auto with lia. Qed.
Next Obligation. intros. by apply (get_spec_exact s 8); auto with lia. Qed.

(** ** Queue of streams *)
Module FifoFacts.
Import Fifo.
Section fifo.
Implicit Types (h : heap) (f : stream_fifo) (l : list positive).

Lemma linked_ne h l a v : a ∉ l → linked h l → linked (<[a:=v]> h) l.
Proof.
  induction l as [|b l IH]; [done|]. intros [Hne Hl]%not_elem_of_cons [Hb Hr].
  split; [by rewrite lookup_insert_ne|by apply IH].
Qed.

Lemma linked_delete h l a : a ∉ l → linked h l → linked (delete a h) l.
Proof.
  induction l as [|b l IH]; [done|]. intros [Hne Hl]%not_elem_of_cons [Hb Hr].
  split; [by rewrite lookup_delete_ne|by apply IH].
Qed.

Lemma linked_snoc h l t s :
  NoDup (l ++ [t]) → s ∉ l ++ [t] → linked h (l ++ [t]) → h !! s = Some None →
  linked (<[t:=Some s]> h) ((l ++ [t]) ++ [s]).
Proof.
  induction l as [|a l IH]; cbn; intros Hnd Hs [Ha Hl] Hh.
  - rewrite lookup_insert_eq, lookup_insert_ne by set_solver. done.
  - apply NoDup_cons in Hnd as [Hal Hnd]. apply not_elem_of_cons in Hs as [Hsa Hs].
    split; [|by apply IH].
    rewrite lookup_insert_ne by set_solver. rewrite Ha. by destruct l.
Qed.

Lemma push_holds h f l s :
  holds h f l → s ∉ l → h !! s = Some None → Z.of_nat (length l) < 2 ^ 63 - 1 →
  returns (stream_fifo_push h f s) (λ '(h', f'), holds h' f' (l ++ [s])).
Proof.
  intros (Hnd & Hl & Eh & Et & Ec & Hc) Hs Hh Hlen. unfold stream_fifo_push.
  destruct (decide (l = [])) as [->|Hne].
  { rewrite Et. eexists; split; [done|]. cbn in *.
    split_and!; cbn; rewrite ?Ec, ?u64_small; try (done || lia); try apply NoDup_singleton. }
  destruct (exists_last Hne) as (l0 & t & ->). rewrite last_snoc in Et. rewrite Et.
  assert (is_Some (h !! t)) as [nt ->].
  { clear -Hl. induction l0; cbn in Hl; [eexists; apply Hl|apply IHl0, Hl]. }
  eexists; split; [done|]. split_and!; cbn [count head tail].
  - apply NoDup_app; split_and!; [done|set_solver|apply NoDup_singleton].
  - by apply linked_snoc.
  - rewrite Eh. by destruct l0.
  - by rewrite last_snoc.
  - rewrite Ec, u64_small, (length_app _ [s]) by lia. cbn [length]. lia.
  - rewrite Ec, u64_small by lia. lia.
Qed.

Lemma pop_holds h f a l :
  holds h f (a :: l) →
  returns (stream_fifo_pop h f) (λ '(f', s), s = Some a ∧ holds h f' l).
Proof.
  intros (Hnd & [Ha Hl] & Eh & Et & Ec & Hc). unfold stream_fifo_pop. rewrite Eh. cbn [hd_error].
  rewrite Ha. eexists; split; [done|]. apply NoDup_cons in Hnd as [_ Hnd]. cbn [length] in Ec.
  split; [done|]. unfold holds. cbn [count head tail]. rewrite Ec, u64_small by lia.
  split_and!; try (done || lia). destruct l; [done|by rewrite Et].
Qed.

Lemma clean_frees n h l :
  NoDup l → linked h l → (length l ≤ n)%nat →
  returns (clean_loop n h (hd_error l)) (λ h',
    ∀ a, h' !! a = if decide (a ∈ l) then None else h !! a).
Proof.
  revert n h. induction l as [|a l IH]; intros n h Hnd Hl Hn.
  { exists h. split; [by destruct n|]. intros a. by rewrite decide_False by set_solver. }
  destruct Hl as [Ha Hl]. apply NoDup_cons in Hnd as [Hal Hnd].
  destruct n as [|n]; cbn in Hn; [lia|]. cbn [clean_loop hd_error]. rewrite Ha.
  destruct (IH n (delete a h)) as (h' & E & Hh'); [done|by apply linked_delete|lia|].
  exists h'. split; [done|]. intros b. rewrite Hh'.
  destruct (decide (b = a)) as [->|].
  - rewrite (decide_False (P := a ∈ l)), lookup_delete_eq, decide_True by set_solver. done.
  - rewrite lookup_delete_ne by done.
    destruct (decide (b ∈ l)); [by rewrite decide_True by set_solver|].
    by rewrite decide_False by set_solver.
Qed.

Lemma linked_size h l : NoDup l → linked h l → (length l ≤ base.size h)%nat.
Proof.
  revert h. induction l as [|a l IH]; intros h Hnd Hl; cbn; [lia|].
  destruct Hl as [Ha Hl]. apply NoDup_cons in Hnd as [Hal Hnd].
  specialize (IH (delete a h) Hnd (linked_delete _ _ _ Hal Hl)).
  rewrite (map_size_delete_Some _ _ (ex_intro _ _ Ha)) in IH.
  assert (base.size h ≠ 0)%nat by (intros E%map_size_empty_inv; by rewrite E in Ha). lia.
Qed.
End fifo.
End FifoFacts.

(** ** Properties *)

(** One completed call with admissible arguments. *)
Definition step (s s' : stream) : Prop := ∃ c, call_ok s c ∧ run s c = Ok s'.

(** C23. Memory safety: from a well-formed stream, after any sequence of calls
    with admissible arguments the stream is well formed
    ([getp <= endp <= size]), and no further call reads or writes outside the
    data block: it returns a well-formed stream or stops at an assertion. *)
Theorem stream_calls_safe (s s' : stream) (c : call)
  (Hs : stream_ok s) (Hr : rtc step s s') (Hc : call_ok s' c) :
  stream_ok s' ∧ safe (run s' c) stream_ok.
Proof.
  assert (stream_ok s') as Hs'.
  { clear Hc. induction Hr as [|s1 s2 s3 (d & Hd & E) _ IH]; [done|]. apply IH.
    eapply safe_ok; [|exact E]. by apply run_safe. }
  split; [done|by apply run_safe].
Qed.

Definition fresh8 : stream := Stream 0 0 8 (replicate 8 0).

Lemma stream_calls_safe_witness :
  rtc step fresh8 (Stream 0 2 8 [1; 2; 0; 0; 0; 0; 0; 0]) ∧
  safe (run (Stream 0 2 8 [1; 2; 0; 0; 0; 0; 0; 0]) Getl) stream_ok.
Proof.
  assert (rtc step fresh8 (Stream 0 2 8 [1; 2; 0; 0; 0; 0; 0; 0])) as R.
  { apply rtc_once. exists (Putw 258). split; [exact I|vm_compute; reflexivity]. }
  split; [exact R|].
  refine (proj2 (stream_calls_safe fresh8 _ Getl _ R I)). decide_by_compute.
Defined.

(** A writer and a reader of [n]-byte words round-trip: writing a value to a
    stream with room appends its big-endian bytes to what is still to be read;
    from any stream whose unread bytes start with those, the reader returns the
    value modulo the width, consuming exactly them. *)
Definition roundtrips (n : nat) (put : stream → Z → M (stream * Z))
  (get : stream → M (stream * Z)) : Prop :=
  ∀ s v, stream_ok s → room s (Z.of_nat n) →
    returns (put s v) (λ '(s1, r), r = Z.of_nat n ∧ appended s s1 (be_bytes n v) ∧
      (∀ s2 rest, stream_ok s2 → unread s2 = be_bytes n v ++ rest →
         returns (get s2) (λ '(s3, x),
           x = v mod 2 ^ (8 * Z.of_nat n) ∧ unread s3 = rest))).

Lemma word_roundtrips `{Word n} : roundtrips n put_word get_word.
Proof.
  intros s v Hs Hr. destruct (put_word_spec s v Hs Hr) as ([s1 r] & E & Er & Ha).
  eexists; split; [exact E|]. split_and!; [done|done|]. intros s2 rest H2 E2.
  destruct (get_word_spec s2 _ _ H2 E2 (length_be_bytes n v))
    as ([s3 x] & E3 & -> & (_ & _ & _ & _ & Hu)).
  eexists; split; [done|]. by rewrite be_value_bytes.
Qed.

(** Wire round trip: the writers and readers of 1, 2, 4 and 8 byte words
    append big-endian bytes and read the same value back, modulo the width. *)
Theorem stream_words_roundtrip :
  roundtrips 1 stream_putc stream_getc ∧ roundtrips 2 stream_putw stream_getw ∧
  roundtrips 4 stream_putl stream_getl ∧ roundtrips 8 stream_putq stream_getq.
Proof.
  exact (conj (word_roundtrips (H := word1)) (conj (word_roundtrips (H := word2))
    (conj (word_roundtrips (H := word4)) (word_roundtrips (H := word8))))).
Qed.

Example putl_getl_example :
  (stream_putl fresh8 0xdeadbeef ≫= λ '(s, _), snd <$> stream_getl s) = Ok 0xdeadbeef.
Proof. vm_compute. reflexivity. Qed.

(** Overwriting in place: a [_at] writer within the written part changes
    exactly the bytes it names and moves no pointer, and the matching [_from]
    reader returns the value. *)
Theorem stream_putl_at_in_place (s : stream) (p v : Z)
  (Hs : stream_ok s) (Hp : 0 ≤ p) (Hb : p + 4 ≤ endp s) :
  returns (stream_putl_at s p v) (λ '(s', r), r = 4 ∧ stream_ok s' ∧
    getp s' = getp s ∧ endp s' = endp s ∧
    stream_getl_from s' p = Ok (v mod 2 ^ 32) ∧
    ∀ i, (i < Z.to_nat p ∨ Z.to_nat p + 4 ≤ i)%nat → data s' !! i = data s !! i).
Proof.
  pose proof Hs as (? & ? & ? & ? & _).
  assert (u64 (p + 4) = p + 4) as Eu by (apply u64_small; lia).
  assert (∀ t, endp t = endp s → GETP_VALID t (u64 (p + 4)) = true) as G.
  { intros t Et. unfold GETP_VALID. rewrite Eu, Et. by apply Z.leb_le. }
  unfold stream_putl_at, PUT_AT_VALID. rewrite sane_ok, G by done.
  rewrite (put_at_ok s 4) by (done || lia). cbn [mbind M_bind].
  set (d := _ ++ _). eexists; split; [done|].
  assert (stream_ok (set_data s d)) as Hs'.
  { unfold d. rewrite <-(length_be_bytes 4 v) at 2.
    apply splice_ok; rewrite ?length_be_bytes; auto using be_bytes_ok; lia. }
  split_and!; try done.
  - unfold stream_getl_from. rewrite sane_ok, G by done.
    rewrite (get_at_ok _ 4) by (done || cbn; lia). cbn [data set_data].
    pose proof (splice_slice (data s) (be_bytes 4 v) (Z.to_nat p)) as Sl.
    rewrite length_be_bytes in Sl. unfold d. rewrite Sl, be_value_bytes by lia.
    unfold u32. f_equal. apply Z.mod_mod. lia.
  - intros i Hi. cbn [data set_data]. unfold d.
    destruct Hi as [Hi|Hi].
    + rewrite lookup_app_l by (rewrite length_take; lia). apply lookup_take_lt. lia.
    + rewrite lookup_app_r, lookup_app_r by (rewrite ?length_be_bytes, ?length_take; lia).
      rewrite lookup_drop, length_be_bytes, length_take. f_equal. lia.
Qed.

Lemma stream_putl_at_in_place_witness :
  returns (stream_putl_at (Stream 0 6 8 [1; 2; 3; 4; 5; 6; 7; 8]) 1 0xa0b0c0d)
    (λ '(s', r), stream_getl_from s' 1 = Ok (0xa0b0c0d mod 2 ^ 32) ∧ data s' !! 5%nat = Some 6).
Proof.
  destruct (stream_putl_at_in_place (Stream 0 6 8 [1; 2; 3; 4; 5; 6; 7; 8]) 1 0xa0b0c0d)
    as ([s' r] & E & _ & _ & _ & _ & Hg & Hd); [decide_by_compute|lia|cbn; lia|].
  exists (s', r). split; [exact E|]. split; [exact Hg|].
  rewrite (Hd 5%nat); [reflexivity|cbn; lia].
Defined.

(** [stream_dupcat] inserts the whole of the second stream into a copy of the
    first at [offset], as its comment in stream.h says, whenever [offset] is
    within the first stream and something has been written. *)
Theorem stream_dupcat_correct (s1 s2 : stream) (offset : Z) (junk : list Z)
  (H1 : stream_ok s1) (H2 : stream_ok s2) (Ho : 0 ≤ offset ≤ endp s1)
  (Hne : 0 < endp s1 + endp s2) (Hj : Z.of_nat (length junk) = endp s1 + endp s2) :
  returns (stream_dupcat s1 s2 offset junk) (λ s,
    getp s = 0 ∧ size s = endp s1 + endp s2 ∧
    contents s = take (Z.to_nat offset) (contents s1) ++ contents s2
                 ++ drop (Z.to_nat offset) (contents s1)).
Proof.
  pose proof (length_contents s1 H1) as L1. pose proof (length_contents s2 H2) as L2.
  pose proof H1 as (? & ? & ? & ? & _). pose proof H2 as (? & ? & ? & ? & _).
  unfold stream_dupcat, stream_new. rewrite !sane_ok, !u64_small by (done || lia).
  rewrite (proj2 (Z.ltb_lt _ _)) by lia. cbn [mbind M_bind data].
  rewrite !rdn_in_bounds by lia. cbn [mbind M_bind]. rewrite !drop_0.
  fold (contents s2).
  set (a := take (Z.to_nat offset) (data s1)). set (c := take _ (drop _ _)).
  assert (a = take (Z.to_nat offset) (contents s1)) as Ea.
  { unfold a, contents. rewrite take_take. f_equal. lia. }
  assert (c = drop (Z.to_nat offset) (contents s1)) as Ec.
  { unfold c, contents. rewrite skipn_firstn_comm. f_equal. lia. }
  assert (length a = Z.to_nat offset) as La by (rewrite Ea, length_take; lia).
  assert (length c = Z.to_nat (endp s1 - offset)) as Lc by (rewrite Ec, length_drop; lia).
  rewrite wrn_in_bounds by lia. cbn [mbind M_bind].
  change (take (Z.to_nat 0) junk ++ a ++ drop (Z.to_nat 0 + length a) junk)
    with (a ++ drop (length a) junk).
  rewrite wrn_in_bounds by (rewrite length_app, length_drop; lia). cbn [mbind M_bind].
  rewrite take_app_length' by lia. rewrite drop_app_ge by lia.
  rewrite wrn_in_bounds by (rewrite !length_app, !length_drop; lia). cbn [mbind M_bind].
  eexists; split; [done|]. split_and!; try done.
  unfold contents at 1. cbn [endp data set_endp set_data].
  rewrite <-Ea, <-Ec, (assoc_L (++) a (contents s2)).
  rewrite (take_app_length' (a ++ contents s2)) by (rewrite length_app; lia).
  rewrite (assoc_L (++)). rewrite take_app_le by (rewrite !length_app; lia).
  rewrite take_ge by (rewrite !length_app; lia). by rewrite <-(assoc_L (++)).
Qed.

Lemma stream_dupcat_correct_witness :
  returns (stream_dupcat (Stream 0 3 3 [1; 2; 3]) (Stream 0 2 4 [8; 9; 0; 0]) 1 (replicate 5 0))
    (λ s, contents s = [1; 8; 9; 2; 3]).
Proof.
  destruct (stream_dupcat_correct (Stream 0 3 3 [1; 2; 3]) (Stream 0 2 4 [8; 9; 0; 0]) 1
    (replicate 5 0)) as (s & E & _ & _ & Hc); [decide_by_compute..|].
  exists s. split; [exact E|]. rewrite Hc. reflexivity.
Defined.

(** The bound tests of the position arguments wrap at 64 bits: on any
    well-formed stream [stream_getc_from] at [SIZE_MAX] passes its test and reads
    outside the block, and [stream_forward_endp] by [SIZE_MAX] moves [endp]
    backwards, below [getp] when everything has been read. *)
Theorem stream_bound_tests_wrap (s : stream) (Hs : stream_ok s) :
  stream_getc_from s (2 ^ 64 - 1) = Fault Undefined ∧
  (0 < endp s → stream_forward_endp s (2 ^ 64 - 1) = Ok (set_endp s (endp s - 1))) ∧
  (0 < endp s → getp s = endp s → ∃ s', stream_forward_endp s (2 ^ 64 - 1) = Ok s' ∧ sane s' = false).
Proof.
  pose proof Hs as (? & ? & ? & ? & _).
  assert (0 < endp s → stream_forward_endp s (2 ^ 64 - 1) = Ok (set_endp s (endp s - 1))) as F.
  { intros He. unfold stream_forward_endp, ENDP_VALID. rewrite sane_ok by done.
    assert (u64 (endp s + (2 ^ 64 - 1)) = endp s - 1) as ->.
    { unfold u64. replace (endp s + (2 ^ 64 - 1)) with (endp s - 1 + 1 * 2 ^ 64) by lia.
      rewrite Z.mod_add, Z.mod_small by lia. done. }
    by rewrite (proj2 (Z.leb_le _ _)) by lia. }
  split_and!; [|done|].
  - unfold stream_getc_from, GETP_VALID. rewrite sane_ok by done.
    change (u64 (2 ^ 64 - 1 + 1)) with 0. rewrite (proj2 (Z.leb_le _ _)) by lia.
    unfold get_at. cbn [get_shifted]. unfold rd, getb. rewrite decide_True by lia.
    by rewrite lookup_ge_None_2 by lia.
  - intros He Eg. eexists. split; [by apply F|].
    unfold sane, GETP_VALID. cbn [getp endp set_endp]. by rewrite (proj2 (Z.leb_gt _ _)) by lia.
Qed.

Lemma stream_bound_tests_wrap_witness :
  stream_ok fresh8 ∧ stream_getc_from fresh8 (2 ^ 64 - 1) = Fault Undefined.
Proof.
  assert (stream_ok fresh8) as H by decide_by_compute.
  split; [exact H|exact (proj1 (stream_bound_tests_wrap fresh8 H))].
Defined.

(** The stream queue is a FIFO: pushing a stream whose link is clear puts it
    last, popping takes the first, [stream_fifo_head] names it, and cleaning frees
    exactly the queued streams and leaves an empty queue. *)
Theorem stream_fifo_correct (h : gmap positive (option positive)) (f : Fifo.stream_fifo)
  (l : list positive) (Hf : Fifo.holds h f l) :
  (∀ s, s ∉ l → h !! s = Some None → Z.of_nat (length l) < 2 ^ 63 - 1 →
     returns (Fifo.stream_fifo_push h f s) (λ '(h', f'), Fifo.holds h' f' (l ++ [s]))) ∧
  Fifo.stream_fifo_head f = hd_error l ∧
  returns (Fifo.stream_fifo_pop h f) (λ '(f', s), s = hd_error l ∧ Fifo.holds h f' (tail l)) ∧
  returns (Fifo.stream_fifo_clean h f) (λ '(h', f'), Fifo.holds h' f' [] ∧
     ∀ a, h' !! a = if decide (a ∈ l) then None else h !! a).
Proof.
  split_and!.
  - intros s. by apply FifoFacts.push_holds.
  - apply Hf.
  - destruct l as [|a l]; [|by apply FifoFacts.pop_holds].
    destruct Hf as (? & ? & Eh & ?). unfold Fifo.stream_fifo_pop. rewrite Eh.
    eexists; split; [done|]. by split_and!.
  - destruct Hf as (Hnd & Hl & Eh & _). unfold Fifo.stream_fifo_clean. rewrite Eh.
    destruct (FifoFacts.clean_frees (base.size h) h l) as (h' & -> & Hh');
      [done..|by apply FifoFacts.linked_size|].
    eexists; split; [done|]. split; [|done]. repeat split; cbn; (done || constructor).
Qed.

Lemma stream_fifo_correct_witness :
  Fifo.holds {[1%positive := None; 2%positive := None]} Fifo.stream_fifo_new [] ∧
  returns (Fifo.stream_fifo_push {[1%positive := None; 2%positive := None]} Fifo.stream_fifo_new 1)
    (λ '(h', f'), Fifo.holds h' f' [1%positive]).
Proof.
  assert (Fifo.holds {[1%positive := None; 2%positive := None]} Fifo.stream_fifo_new []) as H.
  { repeat split; cbn; (done || constructor). }
  split; [exact H|].
  apply (proj1 (stream_fifo_correct _ _ _ H)); [set_solver|reflexivity|cbn; lia].
Defined.
