(* ===== verification/StreamRead.v ===== *)
(** Reading from a valid stream: each function of lib/stream.c that reads gives
    the bytes ahead and moves the position, when enough of them are there.  The
    parsers of messages are proved with these equations. *)
From S2P Require Import Prelude Stream.
Open Scope Z_scope.

(** The reading functions only move [getp]. *)
Definition moved (s s' : stream) : Prop := ∃ g, s' = set_getp s g.

Lemma moved_refl s : moved s s.
Proof. exists (getp s). by destruct s. Qed.
Lemma moved_trans s1 s2 s3 : moved s1 s2 → moved s2 s3 → moved s1 s3.
Proof. intros [g ->] [g' ->]. by exists g'. Qed.

Lemma getc_moved s s' v : stream_getc s = Ok (s', v) → moved s s'.
Proof. unfold stream_getc. intros H. repeat case_match; try done. apply bind_ok in H as (? & _ & [= <- _]). by eexists. Qed.
Lemma getw_moved s s' v : stream_getw s = Ok (s', v) → moved s s'.
Proof. unfold stream_getw. intros H. repeat case_match; try done. apply bind_ok in H as (? & _ & [= <- _]). by eexists. Qed.
Lemma getl_moved s s' v : stream_getl s = Ok (s', v) → moved s s'.
Proof. unfold stream_getl. intros H. repeat case_match; try done. apply bind_ok in H as (? & _ & [= <- _]). by eexists. Qed.

(** ** Positions *)

Lemma getp_set s g : getp (set_getp s g) = g.
Proof. done. Qed.
Lemma endp_set s g : endp (set_getp s g) = endp s.
Proof. done. Qed.
Lemma data_set s g : data (set_getp s g) = data s.
Proof. done. Qed.
Lemma set_set s g g' : set_getp (set_getp s g) g' = set_getp s g'.
Proof. done. Qed.

Ltac at_stream := rewrite ?set_set, ?getp_set, ?endp_set, ?data_set.

(** The next [n] bytes. *)
Definition ahead (s : stream) (n : nat) : list Z := take n (drop (Z.to_nat (getp s)) (data s)).

Lemma length_ahead s n : stream_ok s → getp s + Z.of_nat n <= endp s → length (ahead s n) = n.
Proof. intros (? & ? & ? & _) ?. unfold ahead. rewrite length_take, length_drop. lia. Qed.

Lemma ahead_bytes s n : stream_ok s → bytes_ok (ahead s n).
Proof. intros (_ & _ & _ & _ & ?). by apply Forall_take, Forall_drop. Qed.

Lemma word_ok `{Word n} s :
  (∀ s' v, get_word s = Ok (s', v) → moved s s') → stream_ok s → getp s + Z.of_nat n <= endp s →
  get_word s = Ok (set_getp s (getp s + Z.of_nat n), be_value (ahead s n)).
Proof.
  intros Hm Hs Hn. pose proof (length_unread s Hs) as L.
  assert (ahead s n = take n (unread s)) as Ea by (apply take_unread; [done|lia]).
  destruct (get_word_spec s (take n (unread s)) (drop n (unread s)) Hs) as ([s' v] & E & -> & Hc).
  { by rewrite take_drop. } { rewrite length_take. lia. }
  destruct (Hm _ _ E) as [g ->]. destruct Hc as (Hs' & _ & _ & Eu & Er). rewrite E, Ea. do 3 f_equal.
  pose proof (length_unread _ Hs') as L'. cbn [set_getp getp endp] in L'. rewrite Er, length_drop in L'. lia.
Qed.

Lemma getc_ok s : stream_ok s → getp s + 1 <= endp s →
  stream_getc s = Ok (set_getp s (getp s + 1), be_value (ahead s 1)).
Proof. intros Hs Hn. exact (word_ok (n := 1) s (getc_moved s) Hs Hn). Qed.
Lemma getw_ok s : stream_ok s → getp s + 2 <= endp s →
  stream_getw s = Ok (set_getp s (getp s + 2), be_value (ahead s 2)).
Proof. intros Hs Hn. exact (word_ok (n := 2) s (getw_moved s) Hs Hn). Qed.
Lemma getl_ok s : stream_ok s → getp s + 4 <= endp s →
  stream_getl s = Ok (set_getp s (getp s + 4), be_value (ahead s 4)).
Proof. intros Hs Hn. exact (word_ok (n := 4) s (getl_moved s) Hs Hn). Qed.

Lemma get_bytes_ok s n : stream_ok s → getp s + Z.of_nat n <= endp s →
  rdn (data s) (getp s) (Z.of_nat n) = Ok (ahead s n).
Proof.
  intros (? & ? & ? & ?) Hn. rewrite rdn_in_bounds by lia. unfold ahead. by rewrite Nat2Z.id.
Qed.

Lemma get_ipv4_ok s : stream_ok s → getp s + 4 <= endp s →
  stream_get_ipv4 s = Ok (set_getp s (getp s + 4), ahead s 4).
Proof.
  intros Hs Hn. unfold stream_get_ipv4. rewrite sane_ok, readable_ok, (proj2 (Z.ltb_ge _ 4)) by (done || lia). cbn [negb].
  pose proof (get_bytes_ok s 4 Hs Hn) as E. change (Z.of_nat 4) with 4 in E. rewrite E. cbn [mbind M_bind]. destruct Hs as (? & ? & ? & ? & _).
  unfold u64. by rewrite Z.mod_small by lia.
Qed.

Lemma stream_get_ok s n : stream_ok s → 0 <= n → getp s + n <= endp s →
  stream_get s n = Ok (set_getp s (getp s + n), ahead s (Z.to_nat n)).
Proof.
  intros Hs H0 Hn. unfold stream_get. rewrite sane_ok, readable_ok, (proj2 (Z.ltb_ge _ n)) by (done || lia). cbn [negb].
  pose proof (get_bytes_ok s (Z.to_nat n) Hs ltac:(lia)) as E. rewrite Z2Nat.id in E by lia. rewrite E. cbn [mbind M_bind].
  destruct Hs as (? & ? & ? & ? & _). unfold u64. by rewrite Z.mod_small by lia.
Qed.

Lemma forward_ok s n : stream_ok s → 0 <= n → getp s + n <= endp s →
  stream_forward_getp s n = Ok (set_getp s (getp s + n)).
Proof.
  intros Hs H0 Hn. unfold stream_forward_getp. rewrite sane_ok by done. destruct Hs as (? & ? & ? & ? & _).
  unfold u64. rewrite Z.mod_small by lia. unfold GETP_VALID. by rewrite (proj2 (Z.leb_le _ _)) by lia.
Qed.

Lemma set_getp_valid s g : stream_ok s → 0 <= g <= endp s → stream_set_getp s g = Ok (set_getp s g).
Proof.
  intros Hs Hg. unfold stream_set_getp, GETP_VALID. by rewrite sane_ok, (proj2 (Z.leb_le _ _)) by (done || lia).
Qed.

Lemma pnt_bytes s (n : Z) : stream_ok s → 0 <= n → getp s + n <= endp s →
  rdn (drop (Z.to_nat (getp s)) (data s)) 0 n = Ok (ahead s (Z.to_nat n)).
Proof.
  intros (? & ? & ? & _) Hpos Hn. rewrite rdn_in_bounds by (rewrite length_drop; lia). done.
Qed.

(** A byte read is a byte. *)
Lemma ahead_byte s : stream_ok s → getp s + 1 <= endp s → is_byte (be_value (ahead s 1)).
Proof.
  intros Hs Hn. pose proof (be_value_bound (ahead s 1) (ahead_bytes s 1 Hs)) as Hb.
  rewrite length_ahead in Hb by done. exact Hb.
Qed.

(** ** What a parser leaves *)

(** The end and the size are the same. *)
Notation extent s s' := (endp s' = endp s ∧ Stream.size s' = Stream.size s).

(** The stream [s'] is ahead of [s] in the same buffer, and the bytes not yet
    read are the same. *)
Definition advanced (s s' : stream) : Prop :=
  stream_ok s' ∧ extent s s' ∧ getp s <= getp s' ∧
  drop (Z.to_nat (getp s')) (data s') = drop (Z.to_nat (getp s')) (data s).

Lemma advanced_refl s : stream_ok s → advanced s s.
Proof. intros Hs. split; [exact Hs|]. by split_and!. Qed.

Lemma advanced_trans s s1 s2 : stream_ok s → advanced s s1 → advanced s1 s2 → advanced s s2.
Proof.
  intros (? & _) (_ & [? ?] & G1 & D1) (Hs2 & [? ?] & G2 & D2). split; [exact Hs2|]. split_and!; [congruence|congruence|lia|].
  rewrite D2. replace (Z.to_nat (getp s2)) with (Z.to_nat (getp s1) + (Z.to_nat (getp s2) - Z.to_nat (getp s1)))%nat by lia.
  by rewrite <-!drop_drop, D1.
Qed.

Lemma advanced_set s g : stream_ok s → getp s <= g <= endp s → advanced s (set_getp s g).
Proof.
  intros Hs Hg. split; [apply set_getp_ok; [done|]; destruct Hs; lia|]. split_and!; [done|done| |done]. cbn [set_getp getp]. lia.
Qed.

