(* ===== verification/Table.v ===== *)
(** Routing tables: lib/table.c and lib/table.h.

    A table is a radix tree of reference-counted nodes with parent links.  The
    model keeps the pointers: [heap] maps addresses to [Record rnode]
    ([struct route_node]), [Record table] is [struct route_table] with the heap
    its nodes live in.  [route_node_create] is the default delegate
    ([XCALLOC]), so allocation takes an unused address; [route_node_destroy]
    frees it, and a later access through a dangling pointer is [Undefined].

    The loops of the C code walk pointers; each takes the number of allocated
    nodes as fuel, which bounds the walk on a well-formed table (proved below:
    no operation on one runs out).

    The theorems about these definitions are in TableSpec.v. *)
From S2P Require Import Prelude Prefix.
Open Scope Z_scope.

Notation loc := positive.

Section table.
Context {A : Type}.

(** [struct route_node]; [table] and [aggregate] are not used by these
    functions. *)
Record rnode := RNode {
  np : prefix;
  parent : option loc;
  l_left : option loc;
  l_right : option loc;
  lock : Z;
  info : option A;
}.

Record table := Table {
  heap : gmap loc rnode;
  top : option loc;
  count : Z;
}.

Definition set_parent (n : rnode) (v : option loc) : rnode :=
  RNode (np n) v (l_left n) (l_right n) (lock n) (info n).
Definition set_lock (n : rnode) (v : Z) : rnode :=
  RNode (np n) (parent n) (l_left n) (l_right n) v (info n).
Definition set_np (n : rnode) (v : prefix) : rnode :=
  RNode v (parent n) (l_left n) (l_right n) (lock n) (info n).
Definition set_info (n : rnode) (v : option A) : rnode :=
  RNode (np n) (parent n) (l_left n) (l_right n) (lock n) v.
(** [node->link[bit]] *)
Definition link (n : rnode) (bit : Z) : option loc :=
  if bit =? 0 then l_left n else l_right n.
Definition set_link_field (n : rnode) (bit : Z) (v : option loc) : rnode :=
  if bit =? 0 then RNode (np n) (parent n) v (l_right n) (lock n) (info n)
  else RNode (np n) (parent n) (l_left n) v (lock n) (info n).

Definition with_heap (t : table) (h : gmap loc rnode) : table := Table h (top t) (count t).
Definition set_top (t : table) (v : option loc) : table := Table (heap t) v (count t).
Definition set_count (t : table) (v : Z) : table := Table (heap t) (top t) v.

(** Reading and writing through a pointer. *)
Definition load (t : table) (a : loc) : M rnode := of_opt (heap t !! a).
Definition store (t : table) (a : loc) (f : rnode → rnode) : M table :=
  n ← load t a;
  Ok (with_heap t (<[a:=f n]> (heap t))).

Definition route_table_init : table := Table ∅ None 0.

(** [XCALLOC] of a node at an unused address. *)
Definition route_node_create (t : table) : table * loc :=
  let a := fresh (dom (heap t)) in
  (with_heap t (<[a:=RNode prefix_new None None None 0 None]> (heap t)), a).

Definition route_node_set (t : table) (p : prefix) : M (table * loc) :=
  let '(t, a) := route_node_create t in
  q ← prefix_copy prefix_new p;
  t ← store t a (λ n, set_np n q);
  Ok (t, a).

Definition route_node_destroy (t : table) (a : loc) : M table :=
  _ ← load t a;
  Ok (with_heap t (delete a (heap t))).

(** [for (i = 0; i < p->prefixlen / 8; i++) if (np[i] == pp[i]) newp[i] = np[i];
    else break;] with [n] iterations left. *)
Fixpoint common_bytes (nb pb newb : list Z) (i : Z) (n : nat) : M (Z * list Z) :=
  match n with
  | O => Ok (i, newb)
  | S m =>
      a ← rd nb i;
      b ← rd pb i;
      if a =? b then (newb' ← wr newb i a; common_bytes nb pb newb' (i + 1) m)
      else Ok (i, newb)
  end.

(** [while (new->prefixlen < p->prefixlen && !(mask & diff)) { mask >>= 1;
    new->prefixlen++; }] with [n] the distance to [p->prefixlen]. *)
Fixpoint common_tail (diff mask len : Z) (n : nat) : Z :=
  match n with
  | O => len
  | S m =>
      if Z.land mask diff =? 0 then common_tail diff (Z.shiftr mask 1) (len + 1) m else len
  end.

Definition route_common (n p new : prefix) : M prefix :=
  '(i, newb) ← common_bytes (u n) (u p) (u new) 0 (Z.to_nat (prefixlen p / 8));
  let len := u8 (i * 8) in
  if len =? prefixlen p then Ok (Prefix (family new) len newb) else
  a ← rd (u n) i;
  b ← rd (u p) i;
  let len' := common_tail (Z.lxor a b) 0x80 len (Z.to_nat (prefixlen p - len)) in
  m ← rd maskbit (len' mod 8);
  newb' ← wr newb i (Z.land a m);
  Ok (Prefix (family new) len' newb').

Definition set_link (t : table) (node new : loc) : M table :=
  nd ← load t node;
  nw ← load t new;
  bit ← prefix_bit (u (np nw)) (prefixlen (np nd));
  t ← store t node (λ n, set_link_field n bit (Some new));
  store t new (λ n, set_parent n (Some node)).

Definition route_lock_node (t : table) (a : loc) : M table :=
  store t a (λ n, set_lock n (u32 (lock n + 1))).

(** [route_node_delete], recursive on the parent: each call but the last frees a
    node. *)
Fixpoint route_node_delete (fuel : nat) (t : table) (a : loc) : M table :=
  node ← load t a;
  assert! (lock node =? 0) ;;
  assert! bool_decide (info node = None) ;;
  match l_left node, l_right node with
  | Some _, Some _ => Ok t
  | _, _ =>
      let child := match l_left node with Some c => Some c | None => l_right node end in
      t ← match child with
          | Some c => store t c (λ n, set_parent n (parent node))
          | None => Ok t
          end;
      t ← match parent node with
          | Some q =>
              store t q (λ n, if decide (l_left n = Some a)
                              then set_link_field n 0 child else set_link_field n 1 child)
          | None => Ok (set_top t child)
          end;
      let t := set_count t (u64 (count t - 1)) in
      t ← route_node_destroy t a;
      match parent node with
      | Some q =>
          pn ← load t q;
          if lock pn =? 0 then
            match fuel with
            | O => Fault Undefined
            | S fuel' => route_node_delete fuel' t q
            end
          else Ok t
      | None => Ok t
      end
  end.

Definition route_unlock_node (t : table) (a : loc) : M table :=
  n ← load t a;
  assert! (0 <? lock n) ;;
  t ← store t a (λ n, set_lock n (lock n - 1));
  if lock n - 1 =? 0 then route_node_delete (size (heap t)) t a else Ok t.

(** The loop of [route_node_match]. *)
Fixpoint match_loop (fuel : nat) (t : table) (p : prefix) (node matched : option loc) : M (option loc) :=
  match node with
  | None => Ok matched
  | Some a =>
      n ← load t a;
      if negb (prefixlen (np n) <=? prefixlen p) then Ok matched else
      m ← prefix_match (np n) p;
      if m =? 0 then Ok matched else
      let matched := match info n with Some _ => Some a | None => matched end in
      if prefixlen (np n) =? prefixlen p then Ok matched else
      bit ← prefix_bit (u p) (prefixlen (np n));
      match fuel with
      | O => Fault Undefined
      | S fuel' => match_loop fuel' t p (link n bit) matched
      end
  end.

Definition route_node_match (t : table) (p : prefix) : M (table * option loc) :=
  m ← match_loop (size (heap t)) t p (top t) None;
  match m with
  | Some a => t ← route_lock_node t a; Ok (t, Some a)
  | None => Ok (t, None)
  end.

Definition route_node_match_ipv4 (t : table) (addr : list Z) : M (table * option loc) :=
  d ← wrn (replicate prefix_union_size 0) 0 addr;
  route_node_match t (Prefix AF_INET IPV4_MAX_PREFIXLEN d).

Definition route_node_match_ipv6 (t : table) (addr : list Z) : M (table * option loc) :=
  d ← wrn (replicate prefix_union_size 0) 0 addr;
  route_node_match t (Prefix AF_INET6 IPV6_MAX_BITLEN d).

(** The loop of [route_node_lookup]: the node whose prefix equals [p], when it
    has a value. *)
Fixpoint lookup_loop (fuel : nat) (t : table) (p : prefix) (node : option loc) : M (option loc) :=
  match node with
  | None => Ok None
  | Some a =>
      n ← load t a;
      if negb (prefixlen (np n) <=? prefixlen p) then Ok None else
      m ← prefix_match (np n) p;
      if m =? 0 then Ok None else
      if prefixlen (np n) =? prefixlen p
      then Ok (match info n with Some _ => Some a | None => None end) else
      bit ← prefix_bit (u p) (prefixlen (np n));
      match fuel with
      | O => Fault Undefined
      | S fuel' => lookup_loop fuel' t p (link n bit)
      end
  end.

Definition route_node_lookup (t : table) (p : prefix) : M (table * option loc) :=
  m ← lookup_loop (size (heap t)) t p (top t);
  match m with
  | Some a => t ← route_lock_node t a; Ok (t, Some a)
  | None => Ok (t, None)
  end.

(** The loop of [route_node_get]: [inl a] when the node exists, otherwise
    [inr (match, node)] as the loop leaves them. *)
Fixpoint get_loop (fuel : nat) (t : table) (p : prefix) (mtch node : option loc)
    : M (loc + (option loc * option loc)) :=
  match node with
  | None => Ok (inr (mtch, None))
  | Some a =>
      n ← load t a;
      if negb (prefixlen (np n) <=? prefixlen p) then Ok (inr (mtch, Some a)) else
      m ← prefix_match (np n) p;
      if m =? 0 then Ok (inr (mtch, Some a)) else
      if prefixlen (np n) =? prefixlen p then Ok (inl a) else
      bit ← prefix_bit (u p) (prefixlen (np n));
      match fuel with
      | O => Fault Undefined
      | S fuel' => get_loop fuel' t p (Some a) (link n bit)
      end
  end.

(** [if (match) set_link (match, new); else table->top = new;] *)
Definition attach (t : table) (mtch : option loc) (new : loc) : M table :=
  match mtch with
  | Some q => set_link t q new
  | None => Ok (set_top t (Some new))
  end.

(** The branch of [route_node_get] for a walk that stopped at [node]: a node with
    the common prefix goes above it. *)
Definition get_above (t : table) (p : prefix) (mtch : option loc) (node : loc) : M (table * loc) :=
  let '(t, new) := route_node_create t in
  nd ← load t node;
  nw ← load t new;
  q ← route_common (np nd) p (np nw);
  t ← store t new (λ n, set_np n (Prefix (family p) (prefixlen q) (u q)));
  t ← set_link t new node;
  t ← attach t mtch new;
  if negb (prefixlen q =? prefixlen p) then
    '(t, new') ← route_node_set t p;
    t ← set_link t new new';
    Ok (set_count t (u64 (count t + 1)), new')
  else Ok (t, new).

Definition route_node_get (t : table) (p : prefix) : M (table * loc) :=
  r ← get_loop (size (heap t)) t p None (top t);
  match r with
  | inl a => t ← route_lock_node t a; Ok (t, a)
  | inr (mtch, node) =>
      '(t, new) ← match node with
                  | None => '(t, new) ← route_node_set t p; t ← attach t mtch new; Ok (t, new)
                  | Some node => get_above t p mtch node
                  end;
      let t := set_count t (u64 (count t + 1)) in
      t ← route_lock_node t new;
      Ok (t, new)
  end.

Definition route_top (t : table) : M (table * option loc) :=
  match top t with
  | None => Ok (t, None)
  | Some a => t ← route_lock_node t a; Ok (t, Some a)
  end.

(** The upward loop shared by [route_next], [route_next_until] and
    [route_get_subtree_next]; [limit] is [None] where the source has none. *)
Fixpoint up_loop (fuel : nat) (t : table) (limit : option loc) (a : loc) : M (option loc) :=
  n ← load t a;
  match parent n with
  | None => Ok None
  | Some q =>
      if decide (limit = Some a) then Ok None else
      pn ← load t q;
      match l_right pn with
      | Some r =>
          if decide (l_left pn = Some a) then Ok (Some r) else
          match fuel with O => Fault Undefined | S fuel' => up_loop fuel' t limit q end
      | None =>
          match fuel with O => Fault Undefined | S fuel' => up_loop fuel' t limit q end
      end
  end.

(** [route_next_until] with [limit], [route_next] without. *)
Definition next_until (t : table) (limit : option loc) (a : loc) : M (table * option loc) :=
  n ← load t a;
  let go (next : loc) :=
    t ← route_lock_node t next;
    t ← route_unlock_node t a;
    Ok (t, Some next) in
  match l_left n with
  | Some next => go next
  | None =>
      match l_right n with
      | Some next => go next
      | None =>
          r ← up_loop (size (heap t)) t limit a;
          match r with
          | Some next => go next
          | None => t ← route_unlock_node t a; Ok (t, None)
          end
      end
  end.

Definition route_next (t : table) (a : loc) : M (table * option loc) := next_until t None a.
Definition route_next_until (t : table) (a limit : loc) : M (table * option loc) :=
  next_until t (Some limit) a.

Definition route_table_count (t : table) : Z := count t.

(** [common_space] is an uninitialised local: [junk]. *)
Definition route_table_prefix_iter_cmp (p1 p2 junk : prefix) : M Z :=
  early ← (if prefixlen p1 <=? prefixlen p2 then
             m ← prefix_match p1 p2;
             Ok (if m =? 0 then None
                 else Some (if prefixlen p1 =? prefixlen p2 then 0 else -1))
           else
             m ← prefix_match p2 p1;
             Ok (if m =? 0 then None else Some 1));
  match early with
  | Some r => Ok r
  | None =>
      common ← route_common p1 p2 junk;
      assert! (prefixlen common <? prefixlen p1) ;;
      assert! (prefixlen common <? prefixlen p2) ;;
      b1 ← prefix_bit (u p1) (prefixlen common);
      b2 ← prefix_bit (u p2) (prefixlen common);
      if negb (b1 =? 0) then (assert! (b2 =? 0) ;; Ok 1)
      else (assert! negb (b2 =? 0) ;; Ok (-1))
  end.

Definition route_get_subtree_next (t : table) (a : loc) : M (option loc) :=
  up_loop (size (heap t)) t None a.

Fixpoint get_next_loop (fuel : nat) (t : table) (p junk : prefix) (node : option loc)
    : M (table * option loc) :=
  match node with
  | None => Ok (t, None)
  | Some a =>
      n ← load t a;
      m ← (if prefixlen (np n) <? prefixlen p then prefix_match (np n) p
           else prefix_match p (np n));
      if negb (m =? 0) then
        if prefixlen (np n) =? prefixlen p then
          t ← route_lock_node t a;
          '(t, nx) ← route_next t a;
          match nx with
          | Some b => t ← route_unlock_node t b; Ok (t, nx)
          | None => Ok (t, None)
          end
        else if prefixlen p <? prefixlen (np n) then Ok (t, Some a)
        else
          bit ← prefix_bit (u p) (prefixlen (np n));
          match link n bit, fuel with
          | Some c, S fuel' => get_next_loop fuel' t p junk (Some c)
          | Some _, O => Fault Undefined
          | None, _ =>
              match l_right n with
              | Some r => Ok (t, Some r)
              | None => r ← route_get_subtree_next t a; Ok (t, r)
              end
          end
      else
        c ← route_table_prefix_iter_cmp (np n) p junk;
        if 0 <? c then Ok (t, Some a) else
        assert! (c <? 0) ;;
        r ← route_get_subtree_next t a;
        Ok (t, r)
  end.

Definition route_table_get_next_internal (t : table) (p junk : prefix) : M (table * option loc) :=
  get_next_loop (size (heap t)) t p junk (top t).

Definition route_table_get_next (t : table) (p junk : prefix) : M (table * option loc) :=
  '(t, r) ← route_table_get_next_internal t p junk;
  match r with
  | None => Ok (t, None)
  | Some a =>
      n ← load t a;
      c ← route_table_prefix_iter_cmp (np n) p junk;
      assert! (0 <? c) ;;
      t ← route_lock_node t a;
      Ok (t, Some a)
  end.

(** [route_table_iter_t] *)
Inductive iter_state := INIT | ITERATING | PAUSED | DONE.

Record table_iter := TableIter {
  state : iter_state;
  current : option loc;
  pause_prefix : prefix;
}.

Definition route_table_iter_init : table_iter := TableIter INIT None prefix_new.

Definition route_table_iter_next (t : table) (it : table_iter) (junk : prefix)
    : M (table * table_iter * option loc) :=
  let finish (r : table * option loc) :=
    let '(t, node) := r in
    Ok (t, TableIter (match node with Some _ => ITERATING | None => DONE end) node
             (pause_prefix it), node) in
  match state it with
  | INIT => r ← route_top t; finish r
  | ITERATING =>
      match current it with
      | Some a => r ← route_next t a; finish r
      | None => Fault Undefined
      end
  | PAUSED => r ← route_table_get_next t (pause_prefix it) junk; finish r
  | DONE => Ok (t, it, None)
  end.

Definition route_table_iter_pause (t : table) (it : table_iter) : M (table * table_iter) :=
  match state it with
  | INIT | PAUSED | DONE => Ok (t, it)
  | ITERATING =>
      match current it with
      | Some a =>
          n ← load t a;
          q ← prefix_copy (pause_prefix it) (np n);
          t ← route_unlock_node t a;
          Ok (t, TableIter PAUSED None q)
      | None => Fault Undefined
      end
  end.

Definition route_table_iter_cleanup (t : table) (it : table_iter) : M (table * table_iter) :=
  match state it, current it with
  | ITERATING, Some a =>
      t ← route_unlock_node t a;
      Ok (t, TableIter DONE None (pause_prefix it))
  | ITERATING, None => Fault Undefined
  | _, Some _ => Fault Aborted
  | _, None => Ok (t, TableIter DONE None (pause_prefix it))
  end.

Definition route_table_iter_is_done (it : table_iter) : bool :=
  match state it with DONE => true | _ => false end.
Definition route_table_iter_started (it : table_iter) : bool :=
  match state it with INIT => false | _ => true end.

(** The loop of [route_table_free]: descend to a leaf, free it, cut it from its
    parent, continue there.  Every node is entered and freed once, so twice the
    number of nodes bounds the iterations. *)
Fixpoint free_loop (fuel : nat) (t : table) (node : option loc) : M table :=
  match node with
  | None => Ok t
  | Some a =>
      n ← load t a;
      let continue (t : table) (next : option loc) :=
        match fuel with
        | O => Fault Undefined
        | S fuel' => free_loop fuel' t next
        end in
      match l_left n, l_right n with
      | Some c, _ => continue t (Some c)
      | None, Some c => continue t (Some c)
      | None, None =>
          let t := set_count t (u64 (count t - 1)) in
          t ← store t a (λ n, set_lock n 0);
          t ← route_node_destroy t a;
          match parent n with
          | Some q =>
              t ← store t q (λ m, if decide (l_left m = Some a)
                                  then set_link_field m 0 None else set_link_field m 1 None);
              continue t (Some q)
          | None => Ok t
          end
      end
  end.

Definition route_table_free (t : table) : M table :=
  t ← free_loop (2 * size (heap t)) t (top t);
  assert! (count t =? 0) ;;
  Ok t.

End table.
Arguments rnode : clear implicits.
Arguments table : clear implicits.
