(* ===== verification/TableSpec.v ===== *)
(** Correctness of the routing tables of Table.v.

    A table in memory is related to a tree ([models]), and the tree to the
    finite map from bit strings to the address, reference count and value of the
    nodes that are in use ([abs]).  A zipper ([frame]) gives the position of a node, so
    that each operation is a local change of the memory around the focus. *)
From stdpp Require Import sorting.
From S2P Require Import Prelude Prefix Table.
Open Scope Z_scope.

(** ** The common prefix of two prefixes *)
Section common_prefix.
Implicit Types (nb pb newb : list Z) (a b d : Z).

Lemma common_len_take_r {B} `{EqDecision B} (n : nat) (l1 l2 : list B) :
  common_len l1 (take n l2) = min n (common_len l1 l2).
Proof.
  revert l1 l2. induction n as [|n IH]; intros [|x l1] [|y l2]; cbn; try lia.
  case_decide; [|lia]. rewrite IH. lia.
Qed.

Lemma common_len_self {B} `{EqDecision B} (l : list B) : common_len l l = length l.
Proof. induction l as [|x l IH]; cbn; [done|]. by rewrite decide_True, IH. Qed.

Lemma common_bytes_spec nb pb newb (i n : nat) :
  (i + n ≤ length nb)%nat → length pb = length nb → length newb = length nb →
  let j := (i + common_len (take n (drop i nb)) (take n (drop i pb)))%nat in
  common_bytes nb pb (take i nb ++ drop i newb) (Z.of_nat i) n
  = Ok (Z.of_nat j, take j nb ++ drop j newb).
Proof.
  intros H1 H2 H3. revert i H1. induction n as [|n IH]; intros i H1; cbn [common_bytes take common_len].
  { by rewrite Nat.add_0_r. }
  destruct (lookup_lt_is_Some_2 nb i) as [a Ha]; [lia|].
  destruct (lookup_lt_is_Some_2 pb i) as [b Hb]; [lia|].
  rewrite (rd_nat _ _ _ Ha), (rd_nat _ _ _ Hb). cbn [mbind M_bind].
  rewrite (drop_S _ _ _ Ha), (drop_S _ _ _ Hb). cbn [take common_len].
  destruct (Z.eqb_spec a b) as [<-|Hne].
  - rewrite wr_in_bounds by (rewrite length_app, length_take, length_drop; lia). cbn [mbind M_bind].
    rewrite Nat2Z.id, insert_app_r_alt by (rewrite length_take; lia).
    rewrite length_take_le, Nat.sub_diag by lia.
    destruct (lookup_lt_is_Some_2 newb i) as [c Hc]; [lia|]. rewrite (drop_S _ _ _ Hc). cbn [list_insert insert].
    replace (take i nb ++ a :: drop (S i) newb) with (take (S i) nb ++ drop (S i) newb)
      by (rewrite (take_S_r _ _ _ Ha), <-app_assoc; done).
    replace (Z.of_nat i + 1) with (Z.of_nat (S i)) by lia.
    rewrite IH, decide_True by (done || lia). by rewrite <-!Nat.add_succ_comm.
  - rewrite decide_False by done. by rewrite Nat.add_0_r.
Qed.

Lemma mask_bit (s : nat) d :
  (s < 8)%nat → is_byte d →
  (Z.land (Z.shiftr 0x80 (Z.of_nat s)) d =? 0) = negb (Z.testbit d (7 - Z.of_nat s)).
Proof.
  intros Hs Hd. apply eqb_prop. revert d Hd. apply (byte_cases (λ d, eqb _ _)).
  do 8 (destruct s as [|s]; [vm_compute; reflexivity|]). lia.
Qed.

Lemma common_tail_spec d (n s : nat) len :
  is_byte d → (s ≤ 8)%nat → (n ≤ 8 - s)%nat ∨ true ∈ drop s (byte_bits d) →
  common_tail d (Z.shiftr 0x80 (Z.of_nat s)) len n
  = len + Z.of_nat (common_len (drop s (byte_bits d)) (replicate n false)).
Proof.
  intros Hd. revert s len. induction n as [|n IH]; intros s len Hs Hn; cbn [common_tail replicate].
  { replace (common_len _ []) with 0%nat by (by destruct (drop s _)). lia. }
  destruct (decide (s = 8%nat)) as [->|Hs8].
  { destruct Hn as [Hn|Hn]; [lia|]. cbn in Hn. set_solver. }
  rewrite mask_bit by (done || lia).
  assert (drop s (byte_bits d) = Z.testbit d (7 - Z.of_nat s) :: drop (S s) (byte_bits d)) as Edrop.
  { apply drop_S. do 8 (destruct s as [|s]; [done|]). lia. }
  rewrite Edrop in *. cbn [common_len].
  destruct (Z.testbit d (7 - Z.of_nat s)); cbn [negb].
  - rewrite decide_False by done. lia.
  - rewrite decide_True by done. rewrite Z.shiftr_shiftr by lia.
    replace (Z.of_nat s + 1) with (Z.of_nat (S s)) by lia. rewrite IH; [lia|lia|].
    destruct Hn as [Hn|Hn]; [left; lia|right]. set_solver.
Qed.

(** Comparing bytes from their exclusive or, up to [n] bits. *)
Lemma common_len_xor_tail a b (n : nat) (l1 l2 : list bool) :
  is_byte a → is_byte b → (n ≤ 8)%nat ∨ a ≠ b →
  common_len (byte_bits (Z.lxor a b)) (replicate n false)
  = common_len (byte_bits a ++ l1) (take n (byte_bits b ++ l2)).
Proof.
  intros Ha Hb Hn.
  pose proof (common_len_xorb (byte_bits a) (byte_bits b) eq_refl) as Ex.
  rewrite <-byte_bits_lxor in Ex. change (length (byte_bits a)) with 8%nat in Ex.
  rewrite common_len_take_r.
  destruct (decide (n ≤ 8)%nat) as [Hle|Hgt].
  - replace (replicate n false) with (take n (replicate 8 false))
      by (rewrite take_replicate; f_equal; lia).
    rewrite common_len_take_r, Ex.
    destruct (decide (byte_bits a = byte_bits b)) as [Eb|Eb].
    + rewrite Eb, common_len_app, common_len_self. cbn [length byte_bits fmap list_fmap]. lia.
    + by rewrite common_len_app_diff.
  - destruct Hn as [|Hne]; [lia|].
    assert (byte_bits a ≠ byte_bits b) as Eb by (intros ?; by apply Hne, byte_bits_inj).
    rewrite common_len_app_diff by done. rewrite <-Ex.
    assert (common_len (byte_bits (Z.lxor a b)) (replicate n false)
            = common_len (byte_bits (Z.lxor a b)) (replicate 8 false)) as ->.
    { replace n with (8 + (n - 8))%nat by lia. rewrite replicate_add.
      rewrite <-(app_nil_r (byte_bits (Z.lxor a b))) at 1. apply common_len_app_diff; [done|].
      intros E0. apply Eb, xorb_false_iff; [done|]. by rewrite <-byte_bits_lxor, E0. }
    pose proof (common_len_le (byte_bits (Z.lxor a b)) (replicate 8 false)) as Hl.
    change (length (byte_bits (Z.lxor a b))) with 8%nat in Hl. lia.
Qed.

(** The bits shared from byte [j] on, where the bytes before [j] agree. *)
Lemma common_key_tail nb p (j : nat) a b :
  length nb = prefix_union_size → prefix_ok p →
  take j nb = take j (u p) → nb !! j = Some a → u p !! j = Some b →
  8 * Z.of_nat j ≤ prefixlen p →
  common_len (bits nb) (key p)
  = (8 * j + common_len (byte_bits a ++ bits (drop (S j) nb))
               (take (Z.to_nat (prefixlen p) - 8 * j) (byte_bits b ++ bits (drop (S j) (u p)))))%nat.
Proof.
  intros Ln (Lp & _ & Rp) Et Ha Hb Hj. unfold key, prefix_union_size in *.
  rewrite <-(take_drop_middle nb j a Ha) at 1. rewrite <-(take_drop_middle (u p) j b Hb) at 1.
  rewrite !bits_app, Et. set (pre := bits (take j (u p))).
  assert (length pre = 8 * j)%nat as Lpre.
  { unfold pre. rewrite length_bits, length_take. apply lookup_lt_Some in Hb. lia. }
  rewrite take_app, (take_ge pre) by lia. rewrite common_len_app, Lpre. done.
Qed.

(** The byte loop stops at the first difference or at the last whole byte. *)
Lemma common_bytes_stop n p new :
  prefix_ok n → prefix_ok p → length (u new) = prefix_union_size →
  ∃ j : nat,
    common_bytes (u n) (u p) (u new) 0 (Z.to_nat (prefixlen p / 8))
    = Ok (Z.of_nat j, take j (u n) ++ drop j (u new)) ∧
    take j (u n) = take j (u p) ∧ 8 * Z.of_nat j ≤ prefixlen p ∧
    ∀ a b, u n !! j = Some a → u p !! j = Some b →
      (Z.to_nat (prefixlen p) - 8 * j < 8)%nat ∨ a ≠ b.
Proof.
  intros (Ln & Bn & Rn) (Lp & Bp & Rp) Lw. unfold prefix_union_size, IPV6_MAX_BITLEN in *.
  pose proof (Z.div_mod (prefixlen p) 8 ltac:(lia)) as Ed.
  pose proof (Z.mod_pos_bound (prefixlen p) 8 ltac:(lia)) as Hs.
  set (o := Z.to_nat (prefixlen p / 8)).
  pose proof (common_bytes_spec (u n) (u p) (u new) 0 o ltac:(lia) ltac:(lia) ltac:(lia)) as Ec.
  rewrite !drop_0, take_0 in Ec. cbn [app Nat.add] in Ec. change (Z.of_nat 0) with 0 in Ec.
  set (j := common_len (take o (u n)) (take o (u p))) in *. exists j.
  assert (j ≤ o)%nat as Hj.
  { pose proof (common_len_le (take o (u n)) (take o (u p))) as Hle.
    rewrite length_take in Hle. fold j in Hle. lia. }
  split_and!; [done| |lia|].
  - pose proof (common_len_take (take o (u n)) (take o (u p))) as Et.
    fold j in Et. rewrite !take_take, Nat.min_l in Et by lia. done.
  - intros a b Ha Hb. destruct (decide (j = o)) as [->|Hne]; [left; lia|right].
    apply (common_len_diff (take o (u n)) (take o (u p))); rewrite lookup_take_lt by (fold j; lia); done.
Qed.

(** The bit loop and the mask of the last byte. *)
Lemma common_last a b (n : nat) (l1 l2 : list bool) len :
  is_byte a → is_byte b → (n < 8)%nat ∨ a ≠ b →
  let e := common_len (byte_bits a ++ l1) (take n (byte_bits b ++ l2)) in
  (e < 8)%nat ∧ common_tail (Z.lxor a b) 0x80 len n = len + Z.of_nat e ∧
  ∃ mb, rd maskbit (Z.of_nat e) = Ok mb ∧ is_byte (Z.land a mb) ∧
    take e (byte_bits (Z.land a mb)) = take e (byte_bits a ++ l1).
Proof.
  intros Ha Hb Hn e. pose proof (is_byte_lxor a b Ha Hb) as Hd.
  pose proof (common_len_xor_tail a b n l1 l2 Ha Hb ltac:(destruct Hn; [left; lia|by right])) as Ee.
  assert (e < 8)%nat as He.
  { unfold e. rewrite common_len_take_r. destruct Hn as [Hn|Hne]; [lia|].
    assert (byte_bits a ≠ byte_bits b) as Eb by (intros ?; by apply Hne, byte_bits_inj).
    rewrite common_len_app_diff by done.
    pose proof (common_len_lt (byte_bits a) (byte_bits b) eq_refl Eb) as Hlt.
    change (length (byte_bits a)) with 8%nat in Hlt. lia. }
  split; [done|]. split.
  - change 0x80 with (Z.shiftr 0x80 (Z.of_nat 0)). unfold e. rewrite <-Ee.
    apply common_tail_spec; [done|lia|]. cbn [drop].
    destruct Hn as [Hn|Hne]; [left; lia|right].
    destruct (decide (true ∈ byte_bits (Z.lxor a b))) as [|Hnt]; [done|exfalso].
    apply Hne, byte_bits_inj, xorb_false_iff; [done..|]. rewrite <-byte_bits_lxor.
    symmetry. apply replicate_as_elem_of. split; [done|]. by intros [].
  - destruct (rd_in_bounds maskbit (Z.of_nat e)) as [mb Hmb]; [change (length maskbit) with 9%nat; lia|].
    exists mb. split; [done|]. apply rd_inv in Hmb as [_ Hmb]. rewrite Nat2Z.id in Hmb. split.
    + apply is_byte_land; [done|]. eapply (Forall_lookup_1 is_byte maskbit); [|done].
      decide_by_compute.
    + rewrite (mask_byte mb e) by (done || lia). rewrite (take_app_le (byte_bits a)) by (change (length (byte_bits a)) with 8%nat; lia).
      apply take_app_length'. rewrite length_take. change (length (byte_bits a)) with 8%nat. lia.
Qed.

Lemma route_common_spec n p new :
  prefix_ok n → prefix_ok p → length (u new) = prefix_union_size → bytes_ok (u new) →
  let m := common_len (bits (u n)) (key p) in
  ∃ q, route_common n p new = Ok q ∧ prefixlen q = Z.of_nat m ∧ family q = family new ∧
    length (u q) = prefix_union_size ∧ bytes_ok (u q) ∧
    take m (bits (u q)) = take m (bits (u n)).
Proof.
  intros Hn Hp Lw Bw m. pose proof Hn as (Ln & Bn & Rn). pose proof Hp as (Lp & Bp & Rp).
  destruct (common_bytes_stop n p new Hn Hp Lw) as (j & Ej & Et & Hj & Hdiff).
  unfold route_common. rewrite Ej. cbn [mbind M_bind]. unfold prefix_union_size, IPV6_MAX_BITLEN in *.
  assert (u8 (Z.of_nat j * 8) = 8 * Z.of_nat j) as -> by (unfold u8; rewrite Z.mod_small; lia).
  assert (length (take j (u n)) = j) as Ltj by (rewrite length_take; lia).
  assert (length (take j (u n) ++ drop j (u new)) = 16%nat) as Lnew.
  { rewrite length_app, length_drop, Ltj. lia. }
  assert (bytes_ok (take j (u n) ++ drop j (u new))) as Bnew.
  { apply Forall_app. split; [by apply Forall_take|by apply Forall_drop]. }
  destruct (Z.eqb_spec (8 * Z.of_nat j) (prefixlen p)) as [El|El].
  - assert (m = 8 * j)%nat as Em.
    { unfold m, key. replace (Z.to_nat (prefixlen p)) with (8 * j)%nat by lia.
      rewrite take_bits_whole, <-Et, <-take_bits_whole, common_len_take_r, common_len_self.
      rewrite length_bits. lia. }
    eexists. split; [done|]. cbn [prefixlen family u]. split_and!; [lia|done..|].
    rewrite Em, !take_bits_whole, take_app_length' by lia. done.
  - destruct (lookup_lt_is_Some_2 (u n) j) as [a Ha]; [lia|].
    destruct (lookup_lt_is_Some_2 (u p) j) as [b Hb]; [lia|].
    assert (is_byte a ∧ is_byte b) as [Ba Bb]
      by (split; [by eapply (Forall_lookup_1 _ (u n))|by eapply (Forall_lookup_1 _ (u p))]).
    rewrite (rd_nat _ _ _ Ha), (rd_nat _ _ _ Hb). cbn [mbind M_bind].
    replace (Z.to_nat (prefixlen p - 8 * Z.of_nat j)) with (Z.to_nat (prefixlen p) - 8 * j)%nat by lia.
    pose proof (common_key_tail (u n) p j a b Ln Hp Et Ha Hb Hj) as Em. fold m in Em.
    destruct (common_last a b (Z.to_nat (prefixlen p) - 8 * j) (bits (drop (S j) (u n)))
      (bits (drop (S j) (u p))) (8 * Z.of_nat j) Ba Bb (Hdiff a b Ha Hb))
      as (He & -> & mb & Hmb & Hbl & Etl).
    set (e := common_len _ _) in Em, He, Hmb, Etl |- *.
    replace ((8 * Z.of_nat j + Z.of_nat e) mod 8) with (Z.of_nat e)
      by (rewrite Z.add_comm, Z.mul_comm, Z.mod_add, Z.mod_small by lia; done).
    rewrite Hmb. cbn [mbind M_bind]. rewrite wr_in_bounds by lia. cbn [mbind M_bind].
    eexists. split; [done|]. cbn [prefixlen family u]. rewrite Nat2Z.id.
    split_and!; [lia|done|by rewrite length_insert|by apply Forall_insert|].
    rewrite Em. rewrite (take_bits (<[j:=_]> _) j e (Z.land a mb)) by
      (rewrite ?list_lookup_insert_eq by lia; done || lia).
    rewrite take_insert_ge, take_app_length', Etl by lia.
    rewrite <-(take_drop_middle (u n) j a Ha) at 3. rewrite bits_app.
    rewrite take_app_add' by (rewrite length_bits; lia). done.
Qed.
End common_prefix.

Section spec.
Context {A : Type}.
Implicit Types (T : table A) (h : gmap loc (rnode A)) (i : option A) (p q : prefix).

(** ** Trees and positions *)

Inductive tr :=
  | E
  | N (a : loc) (p : prefix) (lk : Z) (i : option A) (l r : tr).
Implicit Types (t l r : tr).

Definition addr t : option loc := match t with E => None | N a _ _ _ _ _ => Some a end.

(** Addresses in iteration order: a node, its left subtree, its right one. *)
Fixpoint addrs t : list loc :=
  match t with E => [] | N a _ _ _ l r => a :: addrs l ++ addrs r end.

(** The prefixes and their bit strings, in the same order. *)
Fixpoint prefixes t : list prefix :=
  match t with E => [] | N _ p _ _ l r => p :: prefixes l ++ prefixes r end.

(** [h] holds the nodes of [t], whose root has parent [par]. *)
Fixpoint is_tree h (par : option loc) t : Prop :=
  match t with
  | E => True
  | N a p lk i l r =>
      h !! a = Some (RNode p par (addr l) (addr r) lk i) ∧
      is_tree h (Some a) l ∧ is_tree h (Some a) r
  end.

(** A node on the way from the top to the focus: the side taken, the node and
    its other subtree. *)
Record frame := Frame {
  right : bool;
  fa : loc;
  fp : prefix;
  flk : Z;
  fi : option A;
  sib : tr;
}.
Implicit Types (f : frame) (c : list frame).

Definition fill f t : tr :=
  if right f then N (fa f) (fp f) (flk f) (fi f) (sib f) t
  else N (fa f) (fp f) (flk f) (fi f) t (sib f).

(** Contexts are listed from the focus up. *)
Fixpoint plug c t : tr := match c with [] => t | f :: c => plug c (fill f t) end.

Definition cpar c : option loc := match c with [] => None | f :: _ => Some (fa f) end.
Fixpoint ctop c (hole : option loc) : option loc :=
  match c with [] => hole | f :: c => ctop c (Some (fa f)) end.
Fixpoint caddrs c : list loc :=
  match c with [] => [] | f :: c => fa f :: addrs (sib f) ++ caddrs c end.

Definition fnode f (par hole : option loc) : rnode A :=
  if right f then RNode (fp f) par (addr (sib f)) hole (flk f) (fi f)
  else RNode (fp f) par hole (addr (sib f)) (flk f) (fi f).

Fixpoint is_ctx h c (hole : option loc) : Prop :=
  match c with
  | [] => True
  | f :: c =>
      h !! fa f = Some (fnode f (cpar c) hole) ∧
      is_tree h (Some (fa f)) (sib f) ∧ is_ctx h c (Some (fa f))
  end.

(** The memory of table [T] is exactly the tree [plug c t]. *)
Definition zmodels T c t : Prop :=
  top T = ctop c (addr t) ∧
  is_ctx (heap T) c (addr t) ∧ is_tree (heap T) (cpar c) t ∧
  NoDup (caddrs c ++ addrs t) ∧
  dom (heap T) = list_to_set (caddrs c ++ addrs t) ∧
  count T = u64 (Z.of_nat (length (caddrs c ++ addrs t))).
Definition models T t : Prop := zmodels T [] t.

(** ** Memory lemmas *)

Lemma is_tree_frame h h' par t :
  (∀ a, a ∈ addrs t → h' !! a = h !! a) → is_tree h par t → is_tree h' par t.
Proof.
  revert par. induction t as [|a p lk i l IHl r IHr]; intros par Hf; cbn; [done|].
  cbn in Hf. intros (Ha & Hl & Hr). split_and!.
  - rewrite Hf; [done|left].
  - apply IHl; [|done]. intros b Hb. apply Hf. right. apply elem_of_app. by left.
  - apply IHr; [|done]. intros b Hb. apply Hf. right. apply elem_of_app. by right.
Qed.

Lemma is_ctx_frame h h' c hole :
  (∀ a, a ∈ caddrs c → h' !! a = h !! a) → is_ctx h c hole → is_ctx h' c hole.
Proof.
  revert hole. induction c as [|f c IH]; intros hole Hf; cbn; [done|].
  cbn in Hf. intros (Ha & Hs & Hc). split_and!.
  - rewrite Hf; [done|left].
  - eapply is_tree_frame; [|done]. intros b Hb. apply Hf. right. apply elem_of_app. by left.
  - apply IH; [|done]. intros b Hb. apply Hf. right. apply elem_of_app. by right.
Qed.

Lemma is_tree_insert h par t a n :
  a ∉ addrs t → is_tree h par t → is_tree (<[a:=n]> h) par t.
Proof. intros Ha. apply is_tree_frame. intros b Hb. apply lookup_insert_ne. by intros ->. Qed.

Lemma is_ctx_insert h c hole a n :
  a ∉ caddrs c → is_ctx h c hole → is_ctx (<[a:=n]> h) c hole.
Proof. intros Ha. apply is_ctx_frame. intros b Hb. apply lookup_insert_ne. by intros ->. Qed.

Lemma is_tree_delete h par t a :
  a ∉ addrs t → is_tree h par t → is_tree (delete a h) par t.
Proof. intros Ha. apply is_tree_frame. intros b Hb. apply lookup_delete_ne. by intros ->. Qed.

Lemma is_ctx_delete h c hole a :
  a ∉ caddrs c → is_ctx h c hole → is_ctx (delete a h) c hole.
Proof. intros Ha. apply is_ctx_frame. intros b Hb. apply lookup_delete_ne. by intros ->. Qed.

Lemma length_caddrs c : (length c ≤ length (caddrs c))%nat.
Proof. induction c as [|f c IH]; cbn; [lia|]. rewrite length_app. lia. Qed.

(** Moving the focus does not change what is stored. *)
Lemma addrs_fill f t : addrs (fill f t) ≡ₚ fa f :: addrs (sib f) ++ addrs t.
Proof. unfold fill. destruct (right f); cbn; [done|]. by rewrite (comm app (addrs t)). Qed.

Lemma caddrs_fill f c t : caddrs (f :: c) ++ addrs t ≡ₚ caddrs c ++ addrs (fill f t).
Proof. rewrite addrs_fill. cbn. solve_Permutation. Qed.

Lemma list_to_set_perm_L (l1 l2 : list loc) :
  l1 ≡ₚ l2 → list_to_set l1 =@{gset loc} list_to_set l2.
Proof. intros E'. apply set_eq. intros x. by rewrite !elem_of_list_to_set, E'. Qed.

Lemma is_tree_fill h par f t :
  is_tree h par (fill f t) ↔
  h !! fa f = Some (fnode f par (addr t)) ∧
  is_tree h (Some (fa f)) (sib f) ∧ is_tree h (Some (fa f)) t.
Proof. unfold fill, fnode. destruct (right f); cbn; tauto. Qed.

Lemma addr_fill f t : addr (fill f t) = Some (fa f).
Proof. unfold fill. by destruct (right f). Qed.

Lemma zmodels_fill T f c t : zmodels T (f :: c) t ↔ zmodels T c (fill f t).
Proof.
  unfold zmodels. rewrite (list_to_set_perm_L _ _ (caddrs_fill f c t)).
  rewrite (caddrs_fill f c t), is_tree_fill, addr_fill.
  cbn [ctop is_ctx cpar]. tauto.
Qed.

Lemma zmodels_plug T c t : zmodels T c t ↔ models T (plug c t).
Proof.
  revert t. induction c as [|f c IH]; intros t; cbn; [done|]. by rewrite zmodels_fill, IH.
Qed.

Lemma zmodels_size T c t :
  zmodels T c t → base.size (heap T) = length (caddrs c ++ addrs t).
Proof.
  intros (_ & _ & _ & Hnd & Hdom & _). rewrite <-size_dom, Hdom. by apply size_list_to_set.
Qed.

Lemma zmodels_root T c a p lk i l r :
  zmodels T c (N a p lk i l r) →
  load T a = Ok (RNode p (cpar c) (addr l) (addr r) lk i).
Proof. intros (_ & _ & (Ha & _) & _). unfold load. by rewrite Ha. Qed.

Lemma zmodels_frame T f c t :
  zmodels T (f :: c) t → load T (fa f) = Ok (fnode f (cpar c) (addr t)).
Proof. intros (_ & (Ha & _) & _). unfold load. by rewrite Ha. Qed.

(** Changing the reference count or the value of the focus. *)
Lemma zmodels_store T c a p lk i l r g lk' i' :
  zmodels T c (N a p lk i l r) →
  g (RNode p (cpar c) (addr l) (addr r) lk i) = RNode p (cpar c) (addr l) (addr r) lk' i' →
  ∃ T', store T a g = Ok T' ∧ zmodels T' c (N a p lk' i' l r).
Proof.
  intros H Hg. unfold store. rewrite (zmodels_root _ _ _ _ _ _ _ _ H). cbn [mbind M_bind].
  rewrite Hg. eexists. split; [done|].
  destruct H as (Ht & Hc & (Ha & Hl & Hr) & Hnd & Hdom & Hn).
  cbn in Hnd. apply NoDup_app in Hnd as (Hc1 & Hc2 & Hnd).
  apply NoDup_cons in Hnd as [Hna Hnd]. rewrite elem_of_app in Hna.
  unfold zmodels, with_heap; cbn in *. split_and!; try done.
  - apply is_ctx_insert; [|done]. intros Hin. apply (Hc2 a Hin). left.
  - by rewrite lookup_insert_eq.
  - apply is_tree_insert; [tauto|done].
  - apply is_tree_insert; [tauto|done].
  - apply NoDup_app. split_and!; [done|done|]. apply NoDup_cons. by rewrite elem_of_app.
  - rewrite dom_insert_L, Hdom. set_solver.
Qed.

Lemma models_unique T1 T2 t : models T1 t → models T2 t → T1 = T2.
Proof.
  intros (Ht1 & _ & Hm1 & _ & Hd1 & Hn1) (Ht2 & _ & Hm2 & _ & Hd2 & Hn2).
  destruct T1 as [h1 top1 n1], T2 as [h2 top2 n2]; cbn in *. subst. f_equal.
  assert (∀ par, is_tree h1 par t → is_tree h2 par t → ∀ a, a ∈ addrs t → h1 !! a = h2 !! a) as Heq.
  { clear. induction t as [|a p lk i l IHl r IHr]; intros par; cbn; [set_solver|].
    intros (Ha & Hl & Hr) (Ha' & Hl' & Hr') b. rewrite elem_of_cons, elem_of_app.
    intros [->|[Hb|Hb]]; [congruence|eauto..]. }
  apply map_eq. intros a. destruct (decide (a ∈ addrs t)) as [Hin|Hin].
  - by eapply Heq.
  - rewrite !(not_elem_of_dom_1 (D:=gset loc)); [done|..]; set_solver.
Qed.

(** ** Order of the keys and the walk from the top *)

(** The subtree [t] is empty or lies below the bit string [k]. *)
Definition below (k : list bool) t : Prop :=
  match t with E => True | N _ p _ _ _ _ => k `prefix_of` key p end.

Fixpoint ordered t : Prop :=
  match t with
  | E => True
  | N _ p _ _ l r =>
      prefix_ok p ∧ below (key p ++ [false]) l ∧ below (key p ++ [true]) r ∧
      ordered l ∧ ordered r
  end.

(** The frames a search for [k] passes and where it stops: at a missing
    subtree or at a node whose key is not a proper prefix of [k]. *)
Fixpoint descend (k : list bool) c t : list frame * tr :=
  match t with
  | E => (c, E)
  | N a p lk i l r =>
      if decide (key p `prefix_of` k ∧ key p ≠ k) then
        match k !! length (key p) with
        | Some true => descend k (Frame true a p lk i l :: c) r
        | _ => descend k (Frame false a p lk i r :: c) l
        end
      else (c, t)
  end.

Lemma descend_plug k c t : plug (descend k c t).1 (descend k c t).2 = plug c t.
Proof.
  revert c. induction t as [|a p lk i l IHl r IHr]; intros c; cbn; [done|].
  case_decide; [|done]. destruct (k !! length (key p)) as [[]|]; by rewrite ?IHl, ?IHr.
Qed.

(** What the tests of a search step compute, by the position of the node's key
    [n] relative to the searched prefix [p]. *)
Lemma walk_cases n p :
  prefix_ok n → prefix_ok p →
  (key n `prefix_of` key p ∧ key n ≠ key p ∧
   (prefixlen n <=? prefixlen p) = true ∧ prefix_match n p = Ok 1 ∧
   (prefixlen n =? prefixlen p) = false ∧
   ∃ b, key p !! length (key n) = Some b ∧ prefix_bit (u p) (prefixlen n) = Ok (Z.b2z b)) ∨
  (key n = key p ∧ (prefixlen n <=? prefixlen p) = true ∧ prefix_match n p = Ok 1 ∧
   (prefixlen n =? prefixlen p) = true) ∨
  (¬ key n `prefix_of` key p ∧ prefix_match n p = Ok 0).
Proof.
  intros Hn Hp. rewrite prefix_match_key by done.
  pose proof (length_key n Hn) as Ln. pose proof (length_key p Hp) as Lp.
  pose proof Hn as (_ & _ & Rn). pose proof Hp as (_ & _ & Rp).
  destruct (decide (key n `prefix_of` key p)) as [Hpre|Hpre]; [|by right; right].
  pose proof (prefix_length _ _ Hpre) as Hle.
  destruct (decide (key n = key p)) as [He|Hne].
  - right; left. assert (prefixlen n = prefixlen p) by (rewrite He in Ln; lia).
    split_and!; [done|apply Z.leb_le; lia|done|apply Z.eqb_eq; lia].
  - left. assert (length (key n) ≠ length (key p)) as Hlen.
    { intros El. apply Hne. destruct Hpre as [k Ek]. rewrite Ek, length_app in El.
      destruct k; [by rewrite app_nil_r in Ek|cbn in El; lia]. }
    destruct (prefix_bit_key p (Z.to_nat (prefixlen n)) Hp ltac:(lia)) as (b & Hb & Eb).
    rewrite Z2Nat.id in Eb by lia. rewrite <-Ln in Hb.
    split_and!; [done|done|apply Z.leb_le; lia|done|apply Z.eqb_neq; lia|by exists b].
Qed.

Lemma link_bit n (b : bool) : link (A:=A) n (Z.b2z b) = if b then l_right n else l_left n.
Proof. by destruct b. Qed.

(** The longest key along the walk that has a value. *)
Fixpoint best (k : list bool) (m : option loc) t : option loc :=
  match t with
  | E => m
  | N a p _ i l r =>
      if decide (key p `prefix_of` k) then
        let m' := match i with Some _ => Some a | None => m end in
        if decide (key p = k) then m' else
        match k !! length (key p) with
        | Some true => best k m' r
        | _ => best k m' l
        end
      else m
  end.

(** The three searches, on a table in memory. *)
Section walk.
Context (p : prefix) (Hp : prefix_ok p).
Implicit Types (fuel : nat).

Ltac walk_step H Ho Hf q fuel :=
  destruct Ho as (Hq & _ & _ & Hol & Hor); cbn [addrs length] in Hf; rewrite length_app in Hf;
  destruct fuel as [|fuel]; [lia|]; cbn [get_loop lookup_loop match_loop addr descend best];
  rewrite (zmodels_root _ _ _ _ _ _ _ _ H); cbn [mbind M_bind np info];
  destruct (walk_cases q p Hq Hp) as [(Hpre & Hne & -> & -> & -> & b & Hb & ->)|
    [(He & -> & -> & ->)|[Hn ->]]]; cbn [negb mbind M_bind Z.eqb].

Ltac walk_down b fuel a q lk i l r c IHl IHr :=
  rewrite link_bit; cbn [l_left l_right];
  destruct b; [apply (IHr fuel (Frame true a q lk i l :: c))|
               apply (IHl fuel (Frame false a q lk i r :: c))];
  try done; try lia; by apply zmodels_fill.

Lemma get_loop_spec fuel T c t :
  zmodels T c t → ordered t → (length (addrs t) ≤ fuel)%nat →
  get_loop fuel T p (cpar c) (addr t)
  = Ok (let '(c', t') := descend (key p) c t in
        match t' with
        | E => inr (cpar c', None)
        | N a q _ _ _ _ => if decide (key q = key p) then inl a else inr (cpar c', Some a)
        end).
Proof.
  revert fuel c. induction t as [|a q lk i l IHl r IHr]; intros fuel c H Ho Hf.
  { by destruct fuel. }
  walk_step H Ho Hf q fuel.
  - rewrite decide_True by done. rewrite Hb. walk_down b fuel a q lk i l r c IHl IHr.
  - rewrite decide_False by tauto. by rewrite decide_True.
  - rewrite !decide_False by (intros F; apply Hn; try apply F; by rewrite F).
    by destruct (_ <=? _).
Qed.

Lemma lookup_loop_spec fuel T c t :
  zmodels T c t → ordered t → (length (addrs t) ≤ fuel)%nat →
  lookup_loop fuel T p (addr t)
  = Ok (match (descend (key p) c t).2 with
        | N a q _ (Some _) _ _ => if decide (key q = key p) then Some a else None
        | _ => None
        end).
Proof.
  revert fuel c. induction t as [|a q lk i l IHl r IHr]; intros fuel c H Ho Hf.
  { by destruct fuel. }
  walk_step H Ho Hf q fuel.
  - rewrite decide_True by done. rewrite Hb. walk_down b fuel a q lk i l r c IHl IHr.
  - rewrite decide_False by tauto. cbn [snd]. destruct i; [by rewrite decide_True|done].
  - rewrite !decide_False by (intros F; apply Hn; apply F). cbn [snd].
    destruct i; [rewrite decide_False by (intros F; apply Hn; by rewrite F)|];
      by destruct (_ <=? _).
Qed.

Lemma match_loop_spec fuel T c t m :
  zmodels T c t → ordered t → (length (addrs t) ≤ fuel)%nat →
  match_loop fuel T p (addr t) m = Ok (best (key p) m t).
Proof.
  revert fuel c m. induction t as [|a q lk i l IHl r IHr]; intros fuel c m H Ho Hf.
  { by destruct fuel. }
  walk_step H Ho Hf q fuel.
  - rewrite decide_True by done. rewrite decide_False by done. rewrite Hb, link_bit.
    cbn [l_left l_right].
    destruct b; [apply (IHr fuel (Frame true a q lk i l :: c))|
                 apply (IHl fuel (Frame false a q lk i r :: c))];
      try done; try lia; by apply zmodels_fill.
  - rewrite decide_True by (by rewrite He). by rewrite decide_True.
  - rewrite decide_False by done. by destruct (_ <=? _).
Qed.
End walk.

(** ** Contexts: keys, reference counts, entries *)

(** The bit string the focus must extend. *)
Definition ckey c : list bool :=
  match c with [] => [] | f :: _ => key (fp f) ++ [right f] end.

Fixpoint cordered c : Prop :=
  match c with
  | [] => True
  | f :: c =>
      prefix_ok (fp f) ∧ ckey c `prefix_of` key (fp f) ∧
      below (key (fp f) ++ [negb (right f)]) (sib f) ∧ ordered (sib f) ∧ cordered c
  end.

Lemma ordered_fill k f t :
  (ordered (fill f t) ∧ below k (fill f t)) ↔
  prefix_ok (fp f) ∧ k `prefix_of` key (fp f) ∧
  below (key (fp f) ++ [negb (right f)]) (sib f) ∧ ordered (sib f) ∧
  ordered t ∧ below (key (fp f) ++ [right f]) t.
Proof. unfold fill. destruct (right f); cbn; tauto. Qed.

Lemma ordered_plug c t :
  ordered (plug c t) ↔ cordered c ∧ ordered t ∧ below (ckey c) t.
Proof.
  revert t. induction c as [|f c IH]; intros t; cbn.
  - split; [|tauto]. intros H. split_and!; [done..|]. destruct t; cbn; [done|]. apply prefix_nil.
  - rewrite IH, ordered_fill. tauto.
Qed.

Lemma prefix_snoc_lookup (k k' : list bool) b :
  k `prefix_of` k' → k' !! length k = Some b → (k ++ [b]) `prefix_of` k'.
Proof.
  intros [m ->] Hb. rewrite lookup_app_r, Nat.sub_diag in Hb by done.
  destruct m as [|x m]; [done|]. injection Hb as ->. exists m. by rewrite <-app_assoc.
Qed.

Lemma prefix_proper_lookup (k k' : list bool) :
  k `prefix_of` k' → k ≠ k' → is_Some (k' !! length k).
Proof.
  intros [m ->] Hne. destruct m as [|x m]; [by rewrite app_nil_r in Hne|].
  rewrite lookup_app_r, Nat.sub_diag by done. by eexists.
Qed.

(** The context a search ends in lies on the way to the searched key, and the
    focus is not on that way. *)
Lemma descend_stops k c t :
  ckey c `prefix_of` k →
  ckey (descend k c t).1 `prefix_of` k ∧
  match (descend k c t).2 with
  | E => True
  | N _ q _ _ _ _ => ¬ (key q `prefix_of` k ∧ key q ≠ k)
  end.
Proof.
  revert c. induction t as [|a q lk i l IHl r IHr]; intros c Hc; cbn; [done|].
  case_decide as Hd; [|done].
  destruct (prefix_proper_lookup _ _ (proj1 Hd) (proj2 Hd)) as [b Hb]. rewrite Hb.
  destruct b; [apply IHr|apply IHl]; cbn; apply prefix_snoc_lookup; tauto.
Qed.

(** Reference counts: a node with a value is in use, and a node that is not in
    use branches. *)
Fixpoint quiet t : Prop :=
  match t with
  | E => True
  | N _ _ lk i l r =>
      0 ≤ lk < 2 ^ 32 ∧ (i ≠ None → 0 < lk) ∧ (lk = 0 → l ≠ E ∧ r ≠ E) ∧ quiet l ∧ quiet r
  end.

Fixpoint cquiet c : Prop :=
  match c with
  | [] => True
  | f :: c =>
      0 ≤ flk f < 2 ^ 32 ∧ (fi f ≠ None → 0 < flk f) ∧ (flk f = 0 → sib f ≠ E) ∧
      quiet (sib f) ∧ cquiet c
  end.

(** A missing focus is allowed below a node that is in use. *)
Definition may_miss c t : Prop :=
  t = E → match c with f :: _ => flk f ≠ 0 | [] => True end.

Lemma quiet_fill f t :
  quiet (fill f t) ↔
  0 ≤ flk f < 2 ^ 32 ∧ (fi f ≠ None → 0 < flk f) ∧ (flk f = 0 → sib f ≠ E) ∧
  quiet (sib f) ∧ quiet t ∧ (t = E → flk f ≠ 0).
Proof. unfold fill. destruct (right f); cbn; intuition congruence. Qed.

Lemma fill_not_E f t : fill f t ≠ E.
Proof. unfold fill. by destruct (right f). Qed.

Lemma quiet_plug c t : quiet (plug c t) ↔ cquiet c ∧ quiet t ∧ may_miss c t.
Proof.
  unfold may_miss. revert t. induction c as [|f c IH]; intros t; cbn; [tauto|].
  rewrite IH, quiet_fill. pose proof (fill_not_E f t). tauto.
Qed.

(** The nodes that are in use, as entries of the abstract map. *)
Notation entry := (list bool * (loc * Z * option A))%type.

Definition held_one (a : loc) (p : prefix) (lk : Z) i : list entry :=
  if decide (0 < lk) then [(key p, (a, lk, i))] else [].

Fixpoint held t : list entry :=
  match t with E => [] | N a p lk i l r => held_one a p lk i ++ held l ++ held r end.
Fixpoint cheld c : list entry :=
  match c with [] => [] | f :: c => held_one (fa f) (fp f) (flk f) (fi f) ++ held (sib f) ++ cheld c end.

Lemma held_fill f t :
  held (fill f t) ≡ₚ held_one (fa f) (fp f) (flk f) (fi f) ++ held (sib f) ++ held t.
Proof. unfold fill. destruct (right f); cbn; solve_Permutation. Qed.

Lemma held_plug c t : held (plug c t) ≡ₚ cheld c ++ held t.
Proof.
  revert t. induction c as [|f c IH]; intros t; cbn; [done|].
  rewrite IH, held_fill. solve_Permutation.
Qed.

Definition abs t : gmap (list bool) (loc * Z * option A) := list_to_map (held t).

(** ** The iteration order *)

(** A key comes before its extensions, and the extensions by 0 before those
    by 1. *)
Fixpoint klt (k1 k2 : list bool) : Prop :=
  match k1, k2 with
  | _, [] => False
  | [], _ :: _ => True
  | x :: k1, y :: k2 => if eqb x y then klt k1 k2 else x = false
  end.

Definition keys t : list (list bool) := key <$> prefixes t.

Lemma klt_irrefl k : ¬ klt k k.
Proof. induction k as [|b k IH]; cbn; [tauto|]. by destruct b. Qed.

Lemma klt_trans k1 k2 k3 : klt k1 k2 → klt k2 k3 → klt k1 k3.
Proof.
  revert k2 k3. induction k1 as [|x k1 IH]; intros [|y k2] [|z k3]; cbn; try tauto.
  destruct x, y, z; cbn; try tauto; try done; apply IH.
Qed.

Lemma klt_total k1 k2 : klt k1 k2 ∨ k1 = k2 ∨ klt k2 k1.
Proof.
  revert k2. induction k1 as [|x k1 IH]; intros [|y k2]; cbn; try tauto.
  destruct x, y; cbn; try tauto; destruct (IH k2) as [|[->|]]; tauto.
Qed.

Lemma klt_app k k1 k2 : klt (k ++ k1) (k ++ k2) ↔ klt k1 k2.
Proof. induction k as [|b k IH]; cbn; [done|]. by rewrite eqb_reflx. Qed.

Lemma klt_prefix k k' b : (k ++ [b]) `prefix_of` k' → klt k k'.
Proof.
  intros [m ->]. rewrite <-app_assoc, <-(app_nil_r k) at 1. by apply klt_app.
Qed.

Lemma klt_branch k k1 k2 :
  (k ++ [false]) `prefix_of` k1 → (k ++ [true]) `prefix_of` k2 → klt k1 k2.
Proof. intros [m1 ->] [m2 ->]. rewrite <-!app_assoc. by apply klt_app. Qed.

Lemma below_trans k k' t : k `prefix_of` k' → below k' t → below k t.
Proof. destruct t; cbn; [done|]. by intros; etrans. Qed.

Lemma below_keys k t : ordered t → below k t → Forall (λ k', k `prefix_of` k') (keys t).
Proof.
  unfold keys. induction t as [|a p lk i l IHl r IHr]; cbn; [constructor|].
  intros (Hp & Hl & Hr & Hol & Hor) Hk. constructor; [done|]. rewrite fmap_app.
  apply Forall_app. split; [apply IHl|apply IHr]; try done;
    (eapply below_trans; [|done]); by apply prefix_app_r.
Qed.

Lemma ordered_sorted t : ordered t → StronglySorted klt (keys t).
Proof.
  induction t as [|a p lk i l IHl r IHr]; [constructor|].
  intros (Hp & Hl & Hr & Hol & Hor). cbn.
  apply below_keys in Hl as Kl, Hr as Kr; [|done..].
  unfold keys in *. cbn. rewrite fmap_app. constructor.
  - apply StronglySorted_app. split; [|split; [by apply IHl|by apply IHr]].
    intros k1 k2 H1 H2. rewrite Forall_forall in Kl, Kr.
    eapply klt_branch; [by apply Kl|by apply Kr].
  - rewrite Forall_app.
    split; eapply Forall_impl; try done; intros k'; apply klt_prefix.
Qed.

Lemma sorted_NoDup (ks : list (list bool)) : StronglySorted klt ks → NoDup ks.
Proof.
  induction 1 as [|k ks _ IH Hk]; constructor; [|done].
  intros Hin. rewrite Forall_forall in Hk. by eapply klt_irrefl, Hk.
Qed.

Lemma held_keys t : (held t).*1 `sublist_of` keys t.
Proof.
  unfold keys. induction t as [|a p lk i l IHl r IHr]; cbn; [constructor|].
  rewrite !fmap_app. unfold held_one. case_decide; cbn; constructor; by apply sublist_app.
Qed.

Lemma held_NoDup t : ordered t → NoDup (held t).*1.
Proof.
  intros H. eapply sublist_NoDup; [|apply held_keys]. by apply sorted_NoDup, ordered_sorted.
Qed.

(** ** The abstract map under local changes *)

Lemma abs_perm t es : ordered t → held t ≡ₚ es → abs t = list_to_map es.
Proof. intros H He. unfold abs. apply list_to_map_proper; [by apply held_NoDup|done]. Qed.

Lemma abs_lookup t k v : ordered t → abs t !! k = Some v ↔ (k, v) ∈ held t.
Proof. intros H. symmetry. apply elem_of_list_to_map, held_NoDup, H. Qed.

Lemma abs_insert t t' k v :
  ordered t → ordered t' → held t' ≡ₚ (k, v) :: held t →
  abs t' = <[k:=v]> (abs t) ∧ abs t !! k = None.
Proof.
  intros H H' He. rewrite (abs_perm t' _ H' He). split; [done|].
  apply not_elem_of_list_to_map_1. pose proof (held_NoDup _ H') as Hnd.
  rewrite He in Hnd. by apply NoDup_cons in Hnd as [].
Qed.

Lemma abs_delete t t' k v :
  ordered t → ordered t' → held t ≡ₚ (k, v) :: held t' →
  abs t' = delete k (abs t) ∧ abs t !! k = Some v.
Proof.
  intros H H' He. destruct (abs_insert t' t k v H' H He) as [-> Hk].
  by rewrite delete_insert_id, lookup_insert_eq.
Qed.

Lemma abs_update t t' k v v' es :
  ordered t → ordered t' → held t ≡ₚ (k, v) :: es → held t' ≡ₚ (k, v') :: es →
  abs t' = <[k:=v']> (abs t) ∧ abs t !! k = Some v.
Proof.
  intros H H' He He'. rewrite (abs_perm t _ H He), (abs_perm t' _ H' He'). cbn.
  by rewrite insert_insert_eq, lookup_insert_eq.
Qed.

(** ** Removing a node *)

Definition cut (a : loc) (child : option loc) (n : rnode A) : rnode A :=
  if decide (l_left n = Some a) then set_link_field n 0 child else set_link_field n 1 child.

Lemma cut_fnode f par a child :
  a ∉ addrs (sib f) → cut a child (fnode f par (Some a)) = fnode f par child.
Proof.
  intros Ha. unfold cut, fnode. destruct (right f); cbn; [|by rewrite decide_True].
  rewrite decide_False; [done|]. intros Hs. apply Ha.
  destruct (sib f); cbn in *; [done|]. injection Hs as ->. left.
Qed.

(** The parent's link to [a] is redirected. *)
Lemma relink T f c a child :
  is_ctx (heap T) (f :: c) (Some a) → a ∉ addrs (sib f) → NoDup (caddrs (f :: c)) →
  ∃ T', store T (fa f) (cut a child) = Ok T' ∧
    T' = with_heap T (<[fa f := fnode f (cpar c) child]> (heap T)) ∧
    is_ctx (heap T') (f :: c) child.
Proof.
  intros (Hf & Hs & Hc) Ha Hnd. unfold store, load. rewrite Hf. cbn [of_opt mbind M_bind].
  rewrite cut_fnode by done. eexists. split_and!; [done..|].
  cbn in *. apply NoDup_cons in Hnd as [Hnf Hnd]. rewrite elem_of_app in Hnf.
  split_and!; [by rewrite lookup_insert_eq|apply is_tree_insert; tauto|apply is_ctx_insert; tauto].
Qed.

Lemma is_tree_reparent h par par' t :
  is_tree h par t → NoDup (addrs t) →
  match t with
  | E => True
  | N a p lk i l r => is_tree (<[a:=RNode p par' (addr l) (addr r) lk i]> h) par' t
  end.
Proof.
  destruct t as [|a p lk i l r]; [done|]. cbn. intros (Ha & Hl & Hr) Hnd.
  apply NoDup_cons in Hnd as [Hna Hnd]. rewrite elem_of_app in Hna.
  split_and!; [by rewrite lookup_insert_eq|by apply is_tree_insert; tauto..].
Qed.

(** Handing the only child of [a] to the parent of [a]. *)
Lemma reparent_child T c a p lk i ch :
  is_tree (heap T) (Some a) ch → is_ctx (heap T) c (Some a) →
  heap T !! a = Some (RNode p (cpar c) None (addr ch) lk i) ∨
  heap T !! a = Some (RNode p (cpar c) (addr ch) None lk i) →
  NoDup (caddrs c ++ a :: addrs ch) → dom (heap T) = list_to_set (caddrs c ++ a :: addrs ch) →
  ∃ T', match addr ch with
        | Some x => store T x (λ n, set_parent n (cpar c))
        | None => Ok T
        end = Ok T' ∧
    is_tree (heap T') (cpar c) ch ∧ is_ctx (heap T') c (Some a) ∧ is_Some (heap T' !! a) ∧
    dom (heap T') = dom (heap T) ∧ top T' = top T ∧ count T' = count T.
Proof.
  intros Hch Hc Ha Hnd Hdom. apply NoDup_app in Hnd as (Nc & Nd & Na).
  apply NoDup_cons in Na as [Na Nch].
  assert (is_Some (heap T !! a)) as Hsa by (destruct Ha; eauto).
  destruct ch as [|x q lkx ix l r] eqn:Ech; cbn [addr].
  { exists T. by split_and!. }
  unfold store, load. rewrite (proj1 Hch). cbn [of_opt mbind M_bind].
  eexists. split; [done|]. cbn [heap with_heap set_parent np l_left l_right lock info top count].
  split_and!; try done.
  - by apply (is_tree_reparent _ (Some a) (cpar c) (N x q lkx ix l r)).
  - apply is_ctx_insert; [|done]. intros Hin. apply (Nd x Hin). right. left.
  - rewrite lookup_insert_ne; [done|]. intros ->. apply Na. left.
  - rewrite dom_insert_L, Hdom. cbn [addrs]. set_solver.
Qed.

(** [parent->link = child], or [table->top = child]. *)
Lemma redirect T c a (child : option loc) t :
  is_ctx (heap T) c (Some a) → is_tree (heap T) (cpar c) t → is_Some (heap T !! a) →
  NoDup (caddrs c ++ a :: addrs t) → top T = ctop c (Some a) → child = addr t →
  ∃ T', match cpar c with
        | Some q => store T q (cut a child)
        | None => Ok (set_top T child)
        end = Ok T' ∧
    is_ctx (heap T') c child ∧ is_tree (heap T') (cpar c) t ∧ is_Some (heap T' !! a) ∧
    dom (heap T') = dom (heap T) ∧ top T' = ctop c child ∧ count T' = count T.
Proof.
  intros Hc Ht Ha Hnd Htop Hch. destruct c as [|f c]; cbn [cpar].
  { eexists. by split_and!. }
  apply NoDup_app in Hnd as (Nc & Nd & Na).
  destruct (relink T f c a child Hc) as (T' & E1 & E2 & E3); [|done|].
  { intros Hin. apply (Nd a); [cbn; rewrite elem_of_cons, elem_of_app; tauto|left]. }
  exists T'. split; [done|]. split; [done|]. subst T'. cbn.
  assert (fa f ∉ a :: addrs t) as Hnf by (apply Nd; left).
  rewrite elem_of_cons in Hnf. split_and!; try done.
  - apply is_tree_insert; tauto.
  - rewrite lookup_insert_ne by tauto. done.
  - destruct Hc as (Hf & _). apply elem_of_dom_2 in Hf. rewrite dom_insert_L. set_solver.
Qed.

(** [route_node_delete] on the tree: the node goes if a subtree is missing, and
    its parent is then considered if it is not in use. *)
Fixpoint del c (a : loc) (p : prefix) (l r : tr) : tr :=
  match l, r with
  | N _ _ _ _ _ _, N _ _ _ _ _ _ => plug c (N a p 0 None l r)
  | _, _ =>
      let ch := match l with E => r | _ => l end in
      match c with
      | [] => ch
      | f :: c' =>
          if flk f =? 0 then
            if right f then del c' (fa f) (fp f) (sib f) ch else del c' (fa f) (fp f) ch (sib f)
          else plug c ch
      end
  end.

Lemma u64_pred (n : nat) : u64 (u64 (Z.of_nat (S n)) - 1) = u64 (Z.of_nat n).
Proof. unfold u64. rewrite Zminus_mod_idemp_l. f_equal. lia. Qed.

(** Taking out a node with at most one child. *)
Lemma splice_out T c a p lk i l r ch :
  zmodels T c (N a p lk i l r) → (l = E ∧ ch = r) ∨ (r = E ∧ ch = l) →
  ∃ T1 T2 T3,
    match addr ch with
    | Some x => store T x (λ n, set_parent n (cpar c))
    | None => Ok T
    end = Ok T1 ∧
    match cpar c with
    | Some q => store T1 q (cut a (addr ch))
    | None => Ok (set_top T1 (addr ch))
    end = Ok T2 ∧
    route_node_destroy (set_count T2 (u64 (count T2 - 1))) a = Ok T3 ∧ zmodels T3 c ch.
Proof.
  intros (Htop & Hc & (Ha & Hl & Hr) & Hnd & Hdom & Hn) Hcase.
  assert (addrs (N a p lk i l r) = a :: addrs ch) as Eaddrs.
  { destruct Hcase as [[-> ->]|[-> ->]]; cbn; [done|]. by rewrite app_nil_r. }
  rewrite Eaddrs in Hnd, Hdom, Hn.
  destruct (reparent_child T c a p lk i ch) as (T1 & E1 & Hch1 & Hc1 & Ha1 & D1 & P1 & N1);
    try done; [by destruct Hcase as [[-> ->]|[-> ->]]|
               by destruct Hcase as [[-> ->]|[-> ->]]; [left|right]|].
  destruct (redirect T1 c a (addr ch) ch) as (T2 & E2 & Hc2 & Hch2 & Ha2 & D2 & P2 & N2);
    try done; [by rewrite P1|].
  exists T1, T2. eexists. split; [done|]. split; [done|].
  destruct Ha2 as [n2 Hn2]. unfold route_node_destroy, load, set_count. cbn [heap].
  rewrite Hn2. cbn [of_opt mbind M_bind]. split; [done|].
  assert (a ∉ caddrs c ∧ a ∉ addrs ch ∧ NoDup (caddrs c ++ addrs ch)) as (Hac & Hach & Hnd').
  { rewrite <-Permutation_middle in Hnd. apply NoDup_cons in Hnd as [Hna Hnd].
    rewrite elem_of_app in Hna. tauto. }
  unfold zmodels; cbn [with_heap heap top count]. split_and!; try done.
  - by apply is_ctx_delete.
  - by apply is_tree_delete.
  - rewrite dom_delete_L, D2, D1, Hdom. set_solver.
  - rewrite N2, N1, Hn, <-Permutation_middle. cbn [length]. apply u64_pred.
Qed.

Definition idle_frames c : Prop := Forall (λ f, flk f = 0 → fi f = None) c.

(** One call, by the two ways it can end. *)
Lemma route_node_delete_both fuel T c a p l r :
  zmodels T c (N a p 0 None l r) → l ≠ E → r ≠ E → route_node_delete fuel T a = Ok T.
Proof.
  intros H Hl Hr. pose proof (zmodels_root _ _ _ _ _ _ _ _ H) as Hroot.
  destruct fuel; cbn [route_node_delete]; rewrite Hroot; cbn [mbind M_bind lock info Z.eqb];
    rewrite bool_decide_true by done; by destruct l, r.
Qed.

Lemma route_node_delete_one fuel T c a p l r ch :
  zmodels T c (N a p 0 None l r) → (l = E ∧ ch = r) ∨ (r = E ∧ ch = l) →
  ∃ T', zmodels T' c ch ∧
    route_node_delete fuel T a =
      match c with
      | [] => Ok T'
      | f :: _ =>
          if flk f =? 0 then
            match fuel with O => Fault Undefined | S fuel' => route_node_delete fuel' T' (fa f) end
          else Ok T'
      end.
Proof.
  intros H Hch. pose proof (zmodels_root _ _ _ _ _ _ _ _ H) as Hroot.
  destruct (splice_out _ _ _ _ _ _ _ _ ch H Hch) as (T1 & T2 & T3 & E1 & E2 & E3 & H3).
  exists T3. split; [done|].
  assert (∀ X (x y : X), match addr l, addr r with Some _, Some _ => x | _, _ => y end = y) as Em.
  { intros X x y. destruct Hch as [[-> _]|[-> _]]; [done|by destruct (addr l)]. }
  assert (match addr l with Some c' => Some c' | None => addr r end = addr ch) as Ech.
  { destruct Hch as [[-> ->]|[-> ->]]; [done|by destruct (addr l)]. }
  destruct fuel; cbn [route_node_delete]; rewrite Hroot;
    cbn [mbind M_bind lock info l_left l_right parent Z.eqb];
    rewrite bool_decide_true by done; rewrite Em, Ech, E1; cbn [mbind M_bind];
    unfold cut in E2; rewrite E2; cbn [mbind M_bind]; rewrite E3; cbn [mbind M_bind];
    (destruct c as [|f c]; cbn [cpar]; [done|]);
    rewrite (zmodels_frame _ _ _ _ H3); cbn [mbind M_bind];
    unfold fnode; by destruct (right f).
Qed.

Lemma del_cases a p l r :
  (l ≠ E ∧ r ≠ E ∧ ∀ c, del c a p l r = plug c (N a p 0 None l r)) ∨
  ∃ ch, ((l = E ∧ ch = r) ∨ (r = E ∧ ch = l)) ∧
    ∀ c, del c a p l r = match c with
    | [] => ch
    | f :: c' =>
        if flk f =? 0 then
          if right f then del c' (fa f) (fp f) (sib f) ch else del c' (fa f) (fp f) ch (sib f)
        else plug c ch
    end.
Proof.
  destruct l as [|al pl lkl il ll rl]; [right; exists r; split; [by left|]; by intros []|].
  destruct r as [|ar pr lkr ir lr rr].
  - right. eexists. split; [by right|]. by intros [].
  - left. split_and!; [done..|]. by intros [].
Qed.

Lemma route_node_delete_spec fuel T c a p l r :
  zmodels T c (N a p 0 None l r) → idle_frames c → (length c ≤ fuel)%nat →
  ∃ T', route_node_delete fuel T a = Ok T' ∧ models T' (del c a p l r).
Proof.
  revert fuel T a p l r. induction c as [|f c IH]; intros fuel T a p l r H Hi Hf.
  all: destruct (del_cases a p l r) as [(Hl & Hr & Ed)|(ch & Hch & Ed)]; rewrite Ed.
  1,3: rewrite (route_node_delete_both fuel T _ a p l r H Hl Hr); exists T;
    split; [done|by rewrite <-zmodels_plug].
  all: destruct (route_node_delete_one fuel T _ a p l r ch H Hch) as (T' & H' & ->).
  - by exists T'.
  - destruct (Z.eqb_spec (flk f) 0) as [E0|]; [|exists T'; split; [done|by rewrite <-zmodels_plug]].
    cbn in Hf. destruct fuel as [|fuel]; [lia|]. apply Forall_cons in Hi as [Hif Hi].
    apply zmodels_fill in H'. unfold fill in H'. rewrite E0, (Hif E0) in H'.
    destruct (right f); apply IH; (done || lia).
Qed.

Lemma cquiet_idle c : cquiet c → idle_frames c.
Proof.
  induction c as [|f c IH]; cbn; [constructor|]. intros (Hr & Hi & _ & _ & Hc).
  constructor; [|by apply IH]. intros E0. destruct (fi f); [|done]. assert (0 < flk f) by by apply Hi.
  lia.
Qed.

Lemma quiet_glue a p l r : l ≠ E → r ≠ E → quiet l → quiet r → quiet (N a p 0 None l r).
Proof. intros. cbn [quiet]. split_and!; try done; lia. Qed.

Lemma plug_app c1 c2 t : plug (c1 ++ c2) t = plug c2 (plug c1 t).
Proof. revert t. induction c1; cbn; auto. Qed.

(** Deleting a node that is not in use keeps the order, the entries and, when
    the rest of the table is quiet, quietness. *)
Lemma del_keeps c a p l r :
  ordered (plug c (N a p 0 None l r)) → cquiet c → quiet l → quiet r →
  ordered (del c a p l r) ∧ quiet (del c a p l r) ∧
  held (del c a p l r) ≡ₚ cheld c ++ held l ++ held r.
Proof.
  revert a p l r. induction c as [|f c IH]; intros a p l r Ho Hc Hl Hr.
  all: destruct (del_cases a p l r) as [(Hl' & Hr' & Ed)|(ch & Hch & Ed)]; rewrite Ed.
  1,3: split_and!; [done|apply quiet_plug; split_and!; [done|by apply quiet_glue|done]|by rewrite held_plug].
  - apply ordered_plug in Ho as (_ & (_ & _ & _ & Ho) & _).
    destruct Hch as [[-> ->]|[-> ->]]; split_and!; cbn; rewrite ?app_nil_r; tauto || done.
  - apply ordered_plug in Ho as (Hoc & (Hp & Hbl & Hbr & Hol & Hor) & Hb). cbn [below] in Hb.
    assert (quiet ch) as Hqch by (destruct Hch as [[-> ->]|[-> ->]]; done).
    assert (ordered (plug (f :: c) ch)) as Hoch.
    { apply ordered_plug. split; [done|].
      destruct Hch as [[-> ->]|[-> ->]]; (split; [done|]);
        (eapply below_trans; [apply prefix_app_r, Hb|done]). }
    assert (held l ++ held r ≡ₚ held ch) as Eh.
    { destruct Hch as [[-> ->]|[-> ->]]; cbn; by rewrite ?app_nil_r. }
    destruct (Z.eqb_spec (flk f) 0) as [E0|E0].
    + destruct Hc as (Hf & Hfi & Hs & Hqs & Hc). cbn [plug] in Hoch. unfold fill in Hoch.
      assert (fi f = None) as Efi by (destruct (fi f); [exfalso; enough (0 < flk f) by lia; by apply Hfi|done]).
      rewrite E0, Efi in Hoch. cbn [cheld]. unfold held_one. rewrite decide_False by lia. cbn [app].
      destruct (right f).
      * destruct (IH _ _ _ _ Hoch Hc Hqs Hqch) as (? & ? & ->).
        split_and!; [done..|]. rewrite Eh. solve_Permutation.
      * destruct (IH _ _ _ _ Hoch Hc Hqch Hqs) as (? & ? & ->).
        split_and!; [done..|]. rewrite Eh. solve_Permutation.
    + split_and!; [done|apply quiet_plug; split_and!; [done..|by intros _]|].
      by rewrite held_plug, Eh.
Qed.

(** ** Tables as maps *)

(** [T] is a well-formed table whose nodes in use are [m]. *)
Definition refines T (m : gmap (list bool) (loc * Z * option A)) : Prop :=
  ∃ t, models T t ∧ ordered t ∧ quiet t ∧ abs t = m.

(** The position of a node in use. *)
Lemma held_focus t k a lk i :
  (k, (a, lk, i)) ∈ held t →
  ∃ c p l r, t = plug c (N a p lk i l r) ∧ key p = k ∧ 0 < lk.
Proof.
  induction t as [|b p lk' i' l IHl r IHr]; cbn; [set_solver|].
  unfold held_one. rewrite !elem_of_app. intros [Hin|[Hin|Hin]].
  - case_decide; [|set_solver]. apply list_elem_of_singleton in Hin. simplify_eq.
    by exists [], p, l, r.
  - destruct (IHl Hin) as (c & q & l' & r' & -> & ? & ?).
    exists (c ++ [Frame false b p lk' i' r]), q, l', r'. by rewrite plug_app.
  - destruct (IHr Hin) as (c & q & l' & r' & -> & ? & ?).
    exists (c ++ [Frame true b p lk' i' l]), q, l', r'. by rewrite plug_app.
Qed.

Lemma ordered_root c a p lk i l r lk' i' :
  ordered (plug c (N a p lk i l r)) → ordered (plug c (N a p lk' i' l r)).
Proof. by rewrite !ordered_plug. Qed.

Lemma quiet_root c a p lk i l r lk' i' :
  quiet (plug c (N a p lk i l r)) → 0 < lk' < 2 ^ 32 → quiet (plug c (N a p lk' i' l r)).
Proof.
  rewrite !quiet_plug. intros (Hc & (_ & _ & _ & Hl & Hr) & _) Hlk. split_and!; [done| |done].
  cbn [quiet]. split_and!; try done; lia.
Qed.

Lemma abs_root c a p lk i l r lk' i' :
  ordered (plug c (N a p lk i l r)) → 0 < lk' →
  abs (plug c (N a p lk' i' l r)) = <[key p:=(a, lk', i')]> (abs (plug c (N a p lk i l r))).
Proof.
  intros Ho Hlk. pose proof (ordered_root _ _ _ _ _ _ _ lk' i' Ho) as Ho'.
  assert (held (plug c (N a p lk' i' l r)) ≡ₚ (key p, (a, lk', i')) :: cheld c ++ held l ++ held r) as Eh'.
  { rewrite held_plug. cbn [held]. unfold held_one. rewrite decide_True by done. cbn. solve_Permutation. }
  destruct (decide (0 < lk)) as [H0|H0].
  - apply (abs_update _ _ _ (a, lk, i) _ (cheld c ++ held l ++ held r)); [done..| |done].
    rewrite held_plug. cbn [held]. unfold held_one. rewrite decide_True by done. cbn. solve_Permutation.
  - apply abs_insert; [done..|]. rewrite Eh', held_plug. cbn [held]. unfold held_one.
    by rewrite decide_False by done.
Qed.

(** Taking a reference to a node. *)
Lemma lock_focus T c a p lk i l r :
  zmodels T c (N a p lk i l r) → ordered (plug c (N a p lk i l r)) →
  0 ≤ lk → quiet (plug c (N a p (lk + 1) i l r)) →
  ∃ T', route_lock_node T a = Ok T' ∧
    refines T' (<[key p:=(a, lk + 1, i)]> (abs (plug c (N a p lk i l r)))).
Proof.
  intros H Ho Hlk Hq. pose proof Hq as (_ & (Hr & _) & _)%quiet_plug.
  destruct (zmodels_store T c a p lk i l r (λ n, set_lock n (u32 (lock n + 1))) (lk + 1) i H)
    as (T' & E' & H').
  { unfold set_lock; cbn. f_equal. unfold u32. by rewrite Z.mod_small by lia. }
  exists T'. split; [done|]. exists (plug c (N a p (lk + 1) i l r)). split_and!.
  - by rewrite <-zmodels_plug.
  - by eapply ordered_root.
  - done.
  - apply abs_root; [done|lia].
Qed.

(** Dropping a reference: the node stays while it is in use, and its entry goes
    with the last reference. *)
Lemma unlock_focus T c a p lk i l r :
  zmodels T c (N a p lk i l r) → ordered (plug c (N a p lk i l r)) →
  quiet (plug c (N a p lk i l r)) → 0 < lk → (lk = 1 → i = None) →
  ∃ T', route_unlock_node T a = Ok T' ∧
    refines T' (if lk =? 1 then delete (key p) (abs (plug c (N a p lk i l r)))
                else <[key p:=(a, lk - 1, i)]> (abs (plug c (N a p lk i l r)))).
Proof.
  intros H Ho Hq Hlk H1. pose proof Hq as (Hcq & (Hr & _ & _ & Hql & Hqr) & _)%quiet_plug.
  destruct (zmodels_store T c a p lk i l r (λ n, set_lock n (lock n - 1)) (lk - 1) i H)
    as (T' & E' & H'); [done|].
  unfold route_unlock_node. rewrite (zmodels_root _ _ _ _ _ _ _ _ H). cbn [mbind M_bind lock].
  rewrite (proj2 (Z.ltb_lt 0 lk) Hlk), E'. cbn [mbind M_bind].
  pose proof (ordered_root _ _ _ _ _ _ _ (lk - 1) i Ho) as Ho'.
  destruct (Z.eqb_spec lk 1) as [->|Hne].
  - rewrite H1 in * by done. cbn [Z.sub Z.eqb Z.add Z.opp Z.pos_sub] in *.
    destruct (route_node_delete_spec (base.size (heap T')) T' c a p l r H') as (T'' & E'' & H'').
    { by apply cquiet_idle. }
    { rewrite (zmodels_size _ _ _ H'), length_app. pose proof (length_caddrs c). lia. }
    exists T''. split; [exact E''|]. destruct (del_keeps c a p l r Ho' Hcq Hql Hqr) as (Hod & Hqd & Hh).
    exists (del c a p l r). split_and!; [done..|]. apply (abs_delete _ _ _ (a, 1, None)); [done..|].
    rewrite Hh, held_plug. cbn [held]. unfold held_one. rewrite decide_True by lia. cbn. solve_Permutation.
  - rewrite (proj2 (Z.eqb_neq (lk - 1) 0)) by lia. exists T'. split; [done|].
    exists (plug c (N a p (lk - 1) i l r)). split_and!.
    + by rewrite <-zmodels_plug.
    + done.
    + eapply quiet_root; [done|lia].
    + apply abs_root; [done|lia].
Qed.

(** ** Adding a node *)

(** [zmodels] without the node count, which [route_node_get] updates last. *)
Definition zmem T c t : Prop :=
  top T = ctop c (addr t) ∧
  is_ctx (heap T) c (addr t) ∧ is_tree (heap T) (cpar c) t ∧
  NoDup (caddrs c ++ addrs t) ∧
  dom (heap T) = list_to_set (caddrs c ++ addrs t).

Lemma zmodels_zmem T c t :
  zmodels T c t ↔ zmem T c t ∧ count T = u64 (Z.of_nat (length (caddrs c ++ addrs t))).
Proof. unfold zmodels, zmem. tauto. Qed.

Lemma zmem_fill T f c t : zmem T (f :: c) t ↔ zmem T c (fill f t).
Proof.
  unfold zmem. rewrite (list_to_set_perm_L _ _ (caddrs_fill f c t)).
  rewrite (caddrs_fill f c t), is_tree_fill, addr_fill. cbn [ctop is_ctx cpar]. tauto.
Qed.

Lemma fresh_heap h : fresh (dom h) ∉ (dom h : gset loc).
Proof. apply is_fresh. Qed.

Lemma set_link_ok T a b na nb (bit : bool) :
  heap T !! a = Some na → heap T !! b = Some nb → a ≠ b → prefix_ok (np na) → prefix_ok (np nb) →
  key (np na) ++ [bit] `prefix_of` key (np nb) →
  set_link T a b = Ok (with_heap T (<[b:=set_parent nb (Some a)]>
                                     (<[a:=set_link_field na (Z.b2z bit) (Some b)]> (heap T)))).
Proof.
  intros Ha Hb Hne Hna Hnb Hpre. unfold set_link, load. rewrite Ha, Hb. cbn [of_opt mbind M_bind].
  pose proof (length_key _ Hna) as La. pose proof (length_key _ Hnb) as Lb.
  pose proof (prefix_length _ _ Hpre) as Hl. rewrite length_app in Hl. cbn [length] in Hl.
  pose proof Hna as (_ & _ & Ra). pose proof Hnb as (_ & _ & Rb).
  destruct (prefix_bit_key (np nb) (Z.to_nat (prefixlen (np na))) Hnb ltac:(lia)) as (b' & Hb' & Eb').
  rewrite Z2Nat.id in Eb' by lia. rewrite Eb'. cbn [mbind M_bind].
  assert (b' = bit) as ->.
  { destruct Hpre as [k Ek]. rewrite Ek, <-La, <-app_assoc, lookup_app_r, Nat.sub_diag in Hb' by done.
    by injection Hb'. }
  unfold store, load, with_heap. cbn [heap]. rewrite Ha. cbn [of_opt mbind M_bind heap].
  by rewrite lookup_insert_ne, Hb by done.
Qed.

Lemma set_link_fnode f par hole a :
  set_link_field (fnode f par hole) (Z.b2z (right f)) (Some a) = fnode f par (Some a).
Proof. unfold fnode. by destruct (right f). Qed.

(** Linking a detached tree at the focus. *)
Lemma attach_spec T c hole a p par lk i l r :
  is_ctx (heap T) c hole → top T = ctop c hole →
  heap T !! a = Some (RNode p par (addr l) (addr r) lk i) →
  is_tree (heap T) (Some a) l → is_tree (heap T) (Some a) r →
  NoDup (caddrs c ++ addrs (N a p lk i l r)) →
  dom (heap T) = list_to_set (caddrs c ++ addrs (N a p lk i l r)) →
  (c = [] → par = None) → cordered c → prefix_ok p → ckey c `prefix_of` key p →
  ∃ T', attach T (cpar c) a = Ok T' ∧ zmem T' c (N a p lk i l r) ∧ count T' = count T.
Proof.
  intros Hc Htop Ha Hl Hr Hnd Hdom Hpar Hco Hp Hk.
  destruct c as [|f c]; cbn [cpar attach].
  { eexists. split; [done|]. split; [|done]. rewrite (Hpar eq_refl) in Ha. by unfold zmem. }
  destruct Hc as (Hf & Hs & Hc). destruct Hco as (Hpf & _).
  pose proof Hnd as Hnd'. cbn [caddrs addrs app] in Hnd'.
  apply NoDup_cons in Hnd' as [Hnf Hnd']. rewrite !elem_of_app in Hnf.
  rewrite <-Permutation_middle in Hnd'. apply NoDup_cons in Hnd' as [Hna Hnd'].
  rewrite !elem_of_app in Hna.
  assert (fa f ≠ a) as Hfa by (intros E'; apply Hnf; right; rewrite E'; left).
  assert (np (fnode f (cpar c) hole) = fp f) as Enp by (unfold fnode; by destruct (right f)).
  rewrite (set_link_ok T (fa f) a _ _ (right f) Hf Ha); [|by rewrite ?Enp..].
  rewrite set_link_fnode. eexists. split; [done|]. split; [|done].
  unfold zmem, with_heap; cbn [top heap ctop addr cpar is_ctx is_tree]. split_and!; try done.
  - by rewrite lookup_insert_ne, lookup_insert_eq by done.
  - apply is_tree_insert; [tauto|]. apply is_tree_insert; [tauto|done].
  - apply is_ctx_insert; [tauto|]. apply is_ctx_insert; [tauto|done].
  - by rewrite lookup_insert_eq.
  - apply is_tree_insert; [tauto|]. apply is_tree_insert; [|done]. intros Hin. apply Hnf.
    rewrite elem_of_cons, elem_of_app. tauto.
  - apply is_tree_insert; [tauto|]. apply is_tree_insert; [|done]. intros Hin. apply Hnf.
    rewrite elem_of_cons, elem_of_app. tauto.
  - rewrite !dom_insert_L, Hdom. cbn [caddrs addrs]. set_solver.
Qed.

Lemma prefix_copy_key d p :
  length (u d) = prefix_union_size → bytes_ok (u d) → inet_ok p →
  ∃ q, prefix_copy d p = Ok q ∧ prefix_ok q ∧ key q = key p ∧ prefixlen q = prefixlen p.
Proof.
  intros Ld Bd Hi. pose proof Hi as ((L & B & R) & Hf & Hlen). unfold prefix_union_size in *.
  assert (∃ w : nat, (w ≤ 16)%nat ∧ prefixlen p ≤ 8 * Z.of_nat w ∧
    prefix_copy d p = Ok (Prefix (family p) (prefixlen p) (take w (u p) ++ drop w (u d))))
    as (w & Hw & Hlw & ->).
  { unfold prefix_blen in Hlen. unfold prefix_copy.
    destruct Hf as [Ef|Ef]; rewrite Ef in *; cbn [Z.eqb AF_INET AF_INET6 Pos.eqb] in *;
      [exists 4%nat|exists 16%nat]; (split; [lia|]); (split; [done|]);
      rewrite rdn_in_bounds by (unfold IPV4_MAX_BYTELEN, IPV6_MAX_BYTELEN; lia); cbn [mbind M_bind];
      rewrite drop_0, wrn_in_bounds by (rewrite length_take; cbn; lia);
      cbn [mbind M_bind take app]; rewrite length_take, L; done. }
  eexists. split; [done|]. split_and!; cbn [u prefixlen]; try done.
  - unfold prefix_ok; cbn [u prefixlen].
    split_and!; [|apply Forall_app; split; [by apply Forall_take|by apply Forall_drop]|lia..].
    rewrite length_app, length_take, length_drop. unfold prefix_union_size. lia.
  - unfold key; cbn [u prefixlen]. rewrite <-(take_drop w (u p)) at 2. rewrite !bits_app.
    rewrite !take_app_le by (rewrite length_bits, length_take; lia). done.
Qed.

Lemma prefix_new_ok : length (u prefix_new) = prefix_union_size ∧ bytes_ok (u prefix_new).
Proof. split; [done|]. apply Forall_replicate. decide_by_compute. Qed.

(** A new leaf at an empty focus. *)
Lemma insert_leaf T c p :
  zmem T c E → cordered c → inet_ok p → ckey c `prefix_of` key p →
  ∃ T1 a q T2, route_node_set T p = Ok (T1, a) ∧ attach T1 (cpar c) a = Ok T2 ∧
    zmem T2 c (N a q 0 None E E) ∧ count T2 = count T ∧ key q = key p ∧ prefix_ok q.
Proof.
  intros (Htop & Hc & _ & Hnd & Hdom) Hco Hp Hk. cbn [addrs] in *. rewrite app_nil_r in *.
  destruct (prefix_copy_key prefix_new p) as (q & Eq & Hq & Hkq & _); [apply prefix_new_ok..|done|].
  unfold route_node_set, route_node_create. set (a := fresh (dom (heap T))).
  pose proof (fresh_heap (heap T)) as Hfr. fold a in Hfr.
  assert (a ∉ caddrs c) as Hac by (rewrite Hdom in Hfr; set_solver).
  rewrite Eq. cbn [mbind M_bind]. unfold store, load. cbn [heap with_heap].
  rewrite lookup_insert_eq. cbn [of_opt mbind M_bind]. rewrite insert_insert_eq.
  unfold with_heap; cbn [heap top count]. cbn [set_np parent l_left l_right lock info].
  set (T1 := Table _ _ _).
  destruct (attach_spec T1 c None a q None 0 None E E) as (T2 & E2 & H2 & N2); try done.
  - by apply is_ctx_insert.
  - unfold T1; cbn. by rewrite lookup_insert_eq.
  - cbn [addrs app]. apply NoDup_app. split_and!; [done| |apply NoDup_singleton].
    intros x Hx. rewrite list_elem_of_singleton. by intros ->.
  - unfold T1; cbn [heap addrs app]. rewrite dom_insert_L, Hdom. set_solver.
  - by rewrite Hkq.
  - exists T1, a, q, T2. by split_and!.
Qed.

(** The prefix of the node placed above one that is off the searched path. *)
Lemma common_split (k1 k2 : list bool) :
  ¬ k1 `prefix_of` k2 →
  let g := common_len k1 k2 in
  ∃ b, take g k2 ++ [b] `prefix_of` k1 ∧
    (g = length k2 ∨ (g < length k2)%nat ∧ take g k2 ++ [negb b] `prefix_of` k2) ∧
    ∀ k, k `prefix_of` k1 → k `prefix_of` k2 → k `prefix_of` take g k2.
Proof.
  revert k2. induction k1 as [|x k1 IH]; intros k2 Hn; [destruct Hn; apply prefix_nil|].
  destruct k2 as [|y k2]; cbn; [exists x; split_and!; [by exists k1|by left|done]|].
  case_decide as Exy.
  - subst y. destruct (IH k2) as (b & H1 & H2 & H3); [by intros ?; apply Hn, prefix_cons|].
    exists b. split_and!; [by apply prefix_cons| |].
    + destruct H2 as [->|[Hlt H2]]; [by left|right; split; [lia|by apply prefix_cons]].
    + intros [|z k] Hk1 Hk2; [apply prefix_nil|].
      apply prefix_cons_inv_1 in Hk1 as ?; subst z. apply prefix_cons_inv_2 in Hk1, Hk2.
      by apply prefix_cons, H3.
  - exists x. split_and!; [by exists k1| |].
    + right. split; [lia|]. exists k2. by destruct x, y.
    + intros [|z k] Hk1 Hk2; [apply prefix_nil|].
      apply prefix_cons_inv_1 in Hk1, Hk2. congruence.
Qed.

Lemma common_len_app_off (k r l : list bool) :
  ¬ k `prefix_of` l → common_len (k ++ r) l = common_len k l.
Proof.
  revert l. induction k as [|x k IH]; intros l Hn; [destruct Hn; apply prefix_nil|].
  destruct l as [|y l]; cbn; [done|]. case_decide; [|done]. subst y.
  rewrite IH; [done|]. by intros ?; apply Hn, prefix_cons.
Qed.

Lemma split_key q p :
  prefix_ok q → prefix_ok p → ¬ key q `prefix_of` key p →
  ∃ cq, route_common q p prefix_new = Ok cq ∧
    let cp := Prefix (family p) (prefixlen cq) (u cq) in
    prefix_ok cp ∧
    (∃ b, key cp ++ [b] `prefix_of` key q ∧
       if prefixlen cq =? prefixlen p then key cp = key p
       else key cp ++ [negb b] `prefix_of` key p) ∧
    ∀ k, k `prefix_of` key q → k `prefix_of` key p → k `prefix_of` key cp.
Proof.
  intros Hq Hp Hn.
  destruct (route_common_spec q p prefix_new Hq Hp eq_refl) as (cq & Eq & Hl & Hf & Lc & Bc & Et);
    [apply prefix_new_ok|].
  exists cq. split; [done|]. intros cp.
  pose proof (length_key _ Hp) as Lp. pose proof Hp as (_ & _ & Rp).
  assert (common_len (bits (u q)) (key p) = common_len (key q) (key p)) as Eg.
  { rewrite <-(take_drop (Z.to_nat (prefixlen q)) (bits (u q))). by apply common_len_app_off. }
  assert (key cp = take (common_len (key q) (key p)) (key p)) as Ekp.
  { unfold key at 1, cp; cbn [prefixlen u]. rewrite Hl, Nat2Z.id, Et, <-Eg. apply common_len_take. }
  destruct (common_split (key q) (key p) Hn) as (b & H1 & H2 & H3). rewrite <-Ekp in *.
  rewrite Eg in Hl.
  assert (common_len (key q) (key p) ≤ length (key p))%nat as Hcl by lia.
  split_and!; try done.
  - unfold prefix_ok, cp; cbn [u prefixlen]. split_and!; (done || lia).
  - exists b. split; [done|]. destruct H2 as [Hlen|[Hlt H2]].
    + rewrite (proj2 (Z.eqb_eq _ _)) by lia. rewrite Ekp, take_ge; [done|lia].
    + rewrite (proj2 (Z.eqb_neq _ _)) by lia. done.
Qed.

(** A new branching node above the focus. *)
Lemma insert_above T c b q lk i l r p :
  zmem T c (N b q lk i l r) → cordered c → ordered (N b q lk i l r) →
  prefix_ok p → ckey c `prefix_of` key q → ckey c `prefix_of` key p → ¬ key q `prefix_of` key p →
  let '(T0, a) := route_node_create T in
  ∃ nd nw cq (side : bool) T1 T2 T3,
    let cp := Prefix (family p) (prefixlen cq) (u cq) in
    load T0 b = Ok nd ∧ load T0 a = Ok nw ∧ route_common (np nd) p (np nw) = Ok cq ∧
    store T0 a (λ n, set_np n cp) = Ok T1 ∧ set_link T1 a b = Ok T2 ∧
    attach T2 (cpar c) a = Ok T3 ∧ count T3 = count T ∧
    zmem T3 c (fill (Frame side a cp 0 None E) (N b q lk i l r)) ∧
    ordered (plug c (fill (Frame side a cp 0 None E) (N b q lk i l r))) ∧
    if prefixlen cq =? prefixlen p then key cp = key p
    else key cp ++ [negb side] `prefix_of` key p.
Proof.
  intros (Htop & Hc & (Hb & Hl & Hr) & Hnd & Hdom) Hco Ho Hp Hcq Hcp Hn.
  pose proof Ho as (Hq & _).
  unfold route_node_create. set (a := fresh (dom (heap T))).
  pose proof (fresh_heap (heap T)) as Hfr. fold a in Hfr. rewrite Hdom in Hfr.
  rewrite elem_of_list_to_set, elem_of_app in Hfr.
  assert (a ≠ b) as Hab by (intros ->; apply Hfr; right; left).
  destruct (split_key q p Hq Hp Hn) as (cq & Ecq & Hcpo & (side & Hside & Hif) & Hmax).
  set (cp := Prefix _ _ _) in *.
  set (t := N b q lk i l r) in *. set (root := RNode q (Some a) (addr l) (addr r) lk i).
  set (f := Frame side a cp 0 None E).
  set (h2 := <[b:=root]> (<[a:=fnode f None (Some b)]> (heap T))).
  pose proof Hnd as (Hndc & Hndx & Hndt)%NoDup_app.
  assert (is_tree h2 (Some a) t) as Ht2.
  { apply (is_tree_reparent (<[a:=fnode f None (Some b)]> (heap T)) (cpar c) (Some a) t); [|done].
    apply is_tree_insert; [tauto|]. done. }
  assert (h2 !! a = Some (fnode f None (Some b))) as Ha2
    by (unfold h2; by rewrite lookup_insert_ne, lookup_insert_eq by done).
  set (L := if side then E else t). set (R := if side then t else E).
  assert (fill f t = N a cp 0 None L R) as Ef by (unfold fill, L, R; cbn; by destruct side).
  assert (addrs (N a cp 0 None L R) = a :: addrs t) as EA
    by (unfold L, R; destruct side; cbn; by rewrite ?app_nil_r).
  destruct (attach_spec (Table h2 (top T) (count T)) c (Some b) a cp None 0 None L R)
    as (T3 & E3 & H3 & N3); try done.
  { apply is_ctx_insert; [|by apply is_ctx_insert; [tauto|]]. intros Hin. apply (Hndx b Hin). left. }
  { cbn [heap]. rewrite Ha2. unfold fnode, L, R. cbn. by destruct side. }
  { unfold L. by destruct side. }
  { unfold R. by destruct side. }
  { rewrite EA, <-Permutation_middle. apply NoDup_cons. by rewrite elem_of_app. }
  { rewrite EA. cbn [heap]. unfold h2. rewrite !dom_insert_L, Hdom. cbn [addrs t]. set_solver. }
  { by apply Hmax. }
  exists (RNode q (cpar c) (addr l) (addr r) lk i), (RNode prefix_new None None None 0 None), cq, side.
  exists (with_heap T (<[a:=RNode cp None None None 0 None]> (heap T))), (Table h2 (top T) (count T)), T3.
  fold cp f t. rewrite Ef. split_and!; try done.
  - unfold load; cbn [heap with_heap]. by rewrite lookup_insert_ne, Hb by done.
  - unfold load; cbn [heap with_heap]. by rewrite lookup_insert_eq.
  - unfold store, load; cbn [heap with_heap]. rewrite lookup_insert_eq. cbn [of_opt mbind M_bind].
    by rewrite insert_insert_eq.
  - erewrite (set_link_ok _ a b _ _ side); [| | |done|..]; cbn [heap with_heap];
      [|by rewrite lookup_insert_eq|by rewrite lookup_insert_ne|done..].
    unfold with_heap; cbn [heap]. rewrite insert_insert_eq. unfold h2, root, f, fnode. by destruct side.
  - rewrite <-Ef. apply ordered_plug. split; [done|]. apply ordered_fill. cbn [fp sib right f].
    split_and!; try done. by apply Hmax.
Qed.

(** ** The operations on the abstract map *)

Lemma elem_of_keys_app k (l r : tr) p :
  k ∈ key p :: (key <$> (prefixes l ++ prefixes r)) ↔ k = key p ∨ k ∈ keys l ∨ k ∈ keys r.
Proof. unfold keys. by rewrite fmap_app, elem_of_cons, elem_of_app. Qed.

(** A key of the tree is found by the search. *)
Lemma descend_in k c t :
  ordered t → k ∈ keys t →
  ∃ a q lk i l r, (descend k c t).2 = N a q lk i l r ∧ key q = k.
Proof.
  revert c. induction t as [|a q lk i l IHl r IHr]; intros c Ho Hk; [by apply elem_of_nil in Hk|].
  destruct Ho as (Hq & Hl & Hr & Hol & Hor). cbn [descend].
  apply elem_of_keys_app in Hk as [->|Hk].
  { rewrite decide_False by tauto. cbn. eauto 10. }
  assert (∃ b, key q ++ [b] `prefix_of` k ∧ k ∈ keys (if b then r else l)) as (b & Hpre & Hk').
  { destruct Hk as [Hk|Hk]; [exists false|exists true]; (split; [|done]).
    - by eapply (Forall_forall (λ k', _ `prefix_of` k')), Hk; apply below_keys.
    - by eapply (Forall_forall (λ k', _ `prefix_of` k')), Hk; apply below_keys. }
  destruct Hpre as [k' ->]. rewrite <-app_assoc in *. cbn [app] in *.
  rewrite decide_True.
  2: { split; [by apply prefix_app_r|]. intros Eq. apply (f_equal length) in Eq.
       rewrite length_app in Eq. cbn in Eq. lia. }
  rewrite lookup_app_r, Nat.sub_diag by done. cbn [lookup list_lookup].
  destruct b; [by apply IHr|by apply IHl].
Qed.

Lemma abs_None t k : k ∉ keys t → abs t !! k = None.
Proof.
  intros Hk. apply not_elem_of_list_to_map_1. intros Hin. apply Hk.
  eapply elem_of_sublist; [done|apply held_keys].
Qed.

Lemma abs_held_eq t t' : ordered t → held t ≡ₚ held t' → abs t = abs t'.
Proof. intros. by apply abs_perm. Qed.

(** What a search for [p] means for the abstract map. *)
Lemma search_spec T t p :
  models T t → ordered t → prefix_ok p →
  ∃ c t', t = plug c t' ∧ zmodels T c t' ∧ descend (key p) [] t = (c, t') ∧
    cordered c ∧ ordered t' ∧ below (ckey c) t' ∧ ckey c `prefix_of` key p ∧
    match t' with
    | E => abs t !! key p = None
    | N a q lk i _ _ =>
        if decide (key q = key p) then
          abs t !! key p = if decide (0 < lk) then Some (a, lk, i) else None
        else ¬ key q `prefix_of` key p ∧ abs t !! key p = None
    end.
Proof.
  intros H Ho Hp. pose proof (descend_plug (key p) [] t) as Epl. cbn [plug] in Epl.
  pose proof (descend_stops (key p) [] t (prefix_nil _)) as [Hck Hst].
  pose proof (descend_in (key p) [] t Ho) as Hin.
  destruct (descend (key p) [] t) as [c t'] eqn:Ed. cbn [fst snd] in *.
  exists c, t'. subst t. pose proof Ho as (Hoc & Hot & Hb)%ordered_plug.
  split_and!; try done; [by apply zmodels_plug|].
  destruct t' as [|a q lk i l r].
  { apply abs_None. intros Hk. by destruct (Hin Hk) as (?&?&?&?&?&?&?&?). }
  case_decide as Eq.
  - rewrite <-Eq. case_decide as Hlk.
    + apply abs_lookup; [done|]. rewrite held_plug. cbn [held]. unfold held_one.
      rewrite decide_True by done. set_solver.
    + apply (abs_insert _ (plug c (N a q 1 i l r)) _ (a, 1, i)); [done|by eapply ordered_root|].
      rewrite !held_plug. cbn [held]. unfold held_one. rewrite decide_True, decide_False by (done || lia).
      cbn. solve_Permutation.
  - split; [tauto|]. apply abs_None. intros Hk.
    destruct (Hin Hk) as (?&?&?&?&?&?&Et&?). simplify_eq.
Qed.

Lemma u64_succ (n : nat) : u64 (u64 (Z.of_nat n) + 1) = u64 (Z.of_nat (S n)).
Proof. unfold u64. rewrite Zplus_mod_idemp_l. f_equal. lia. Qed.

(** [route_node_get] finishes by counting the new node and taking a reference. *)
Lemma get_finish T c a q l r m :
  zmem T c (N a q 0 None l r) → ordered (plug c (N a q 0 None l r)) →
  cquiet c → quiet l → quiet r →
  count T = u64 (Z.of_nat (length (caddrs c ++ addrs l ++ addrs r))) →
  cheld c ++ held l ++ held r ≡ₚ m → NoDup m.*1 →
  ∃ T', route_lock_node (set_count T (u64 (count T + 1))) a = Ok T' ∧
    refines T' (<[key q:=(a, 1, None)]> (list_to_map m)).
Proof.
  intros Hm Ho Hc Hl Hr Hn He Hnd.
  destruct (lock_focus (set_count T (u64 (count T + 1))) c a q 0 None l r) as (T' & E' & H'); try done.
  - apply zmodels_zmem. split; [done|]. cbn [count set_count addrs]. rewrite Hn, u64_succ.
    by rewrite <-Permutation_middle.
  - apply quiet_plug. split_and!; [done| |done]. cbn [quiet]. split_and!; try done; lia.
  - exists T'. split; [done|]. cbn [Z.add] in H'. erewrite abs_perm in H'; [exact H'|done|].
    rewrite held_plug. cbn [held]. unfold held_one. by rewrite decide_False by lia.
Qed.

(** The new node, or its new sibling, is at [c'] with an empty entry. *)
Lemma get_above_spec T c b q lk i l r p :
  zmodels T c (N b q lk i l r) → cordered c → ordered (N b q lk i l r) →
  cquiet c → quiet (N b q lk i l r) →
  inet_ok p → ckey c `prefix_of` key q → ckey c `prefix_of` key p → ¬ key q `prefix_of` key p →
  ∃ T' a c' q' l' r', get_above T p (cpar c) b = Ok (T', a) ∧
    zmem T' c' (N a q' 0 None l' r') ∧ ordered (plug c' (N a q' 0 None l' r')) ∧
    cquiet c' ∧ quiet l' ∧ quiet r' ∧ key q' = key p ∧
    count T' = u64 (Z.of_nat (length (caddrs c' ++ addrs l' ++ addrs r'))) ∧
    cheld c' ++ held l' ++ held r' ≡ₚ cheld c ++ held (N b q lk i l r).
Proof.
  intros [Hmem Hcnt]%zmodels_zmem Hoc Hot Hqc Hqt Hpi Hcq Hck Hn. pose proof Hpi as (Hp & _).
  pose proof (insert_above T c b q lk i l r p Hmem Hoc Hot Hp Hcq Hck Hn) as Hins.
  unfold get_above. destruct (route_node_create T) as [T0 a].
  destruct Hins as (nd & nw & cq & side & T1 & T2 & T3 & -> & -> & E1 & E2 & E3 & E4 & N4 & H4 & O4 & Hif).
  cbn [mbind M_bind]. rewrite E1. cbn [mbind M_bind]. rewrite E2. cbn [mbind M_bind]. rewrite E3.
  cbn [mbind M_bind]. rewrite E4. cbn [mbind M_bind].
  set (cp := Prefix _ _ _) in *. set (t := N b q lk i l r) in *.
  destruct (prefixlen cq =? prefixlen p); cbn [negb].
  - exists T3, a, c, cp, (if side then E else t), (if side then t else E).
    unfold fill in *; cbn [right sib fa fp flk fi] in *.
    destruct side; split_and!; try done; cbn [addrs held app];
      rewrite ?app_nil_r, ?N4, ?Hcnt; done.
  - set (f := Frame (negb side) a cp 0 None t).
    assert (fill (Frame side a cp 0 None E) t = fill f E) as Ef by (by destruct side).
    rewrite Ef in H4, O4. pose proof H4 as H5%zmem_fill.
    change (plug c (fill f E)) with (plug (f :: c) E) in O4. pose proof O4 as (O5 & _)%ordered_plug.
    destruct (insert_leaf T3 (f :: c) p H5 O5 Hpi Hif) as (T4 & a' & q' & T5 & E5 & E6 & H6 & N6 & Hkq & Hqok).
    rewrite E5. cbn [mbind M_bind]. cbn [cpar attach fa f] in E6. rewrite E6. cbn [mbind M_bind].
    exists (set_count T5 (u64 (count T5 + 1))), a', (f :: c), q', E, E. split_and!; try done.
    + apply ordered_plug. split_and!; try done. cbn. by rewrite Hkq.
    + cbn [set_count count]. rewrite N6, N4, Hcnt, u64_succ. cbn [caddrs addrs sib f].
      do 2 f_equal. rewrite app_nil_r, Permutation_app_comm. cbn. by rewrite !length_app.
    + cbn [cheld fa fp flk fi sib f held]. unfold held_one. rewrite decide_False by lia.
      cbn [app]. rewrite app_nil_r. apply Permutation_app_comm.
Qed.

Lemma get_refines T m p :
  refines T m → inet_ok p → (∀ a lk i, m !! key p = Some (a, lk, i) → lk + 1 < 2 ^ 32) →
  ∃ T' a, route_node_get T p = Ok (T', a) ∧
    match m !! key p with
    | Some (b, lk, i) => a = b ∧ refines T' (<[key p:=(b, lk + 1, i)]> m)
    | None => refines T' (<[key p:=(a, 1, None)]> m)
    end.
Proof.
  intros (t & H & Ho & Hq & Em) Hpi Hlk. pose proof Hpi as (Hp & _).
  destruct (search_spec T t p H Ho Hp) as (c & t' & -> & Hz & Ed & Hoc & Hot & Hb & Hck & Hfocus).
  pose proof Hq as (Hqc & Hqt & _)%quiet_plug.
  unfold route_node_get.
  pose proof (get_loop_spec p Hp (base.size (heap T)) T [] (plug c t') H Ho) as Eg.
  cbn [cpar] in Eg. rewrite (proj1 H), (zmodels_size _ _ _ H). cbn [ctop].
  rewrite (zmodels_size _ _ _ H) in Eg. cbn [caddrs app] in *. rewrite Eg, Ed by done. clear Eg.
  cbn [mbind M_bind].
  assert (NoDup (cheld c ++ held t').*1) as Hnd.
  { rewrite <-held_plug. by apply held_NoDup. }
  assert (list_to_map (cheld c ++ held t') = m) as Em'.
  { rewrite <-Em. symmetry. apply abs_perm; [done|apply held_plug]. }
  rewrite Em in Hfocus.
  destruct t' as [|b q lk i l r]; [|case_decide as Hkq].
  - rewrite Hfocus. pose proof Hz as [Hmem Hcnt]%zmodels_zmem.
    destruct (insert_leaf T c p Hmem Hoc Hpi Hck) as (T1 & a & q & T2 & E1 & E2 & H2 & N2 & Hkq & Hqok).
    rewrite E1. cbn [mbind M_bind]. rewrite E2. cbn [mbind M_bind].
    destruct (get_finish T2 c a q E E (cheld c)) as (T3 & E3 & H3); try done.
    + apply ordered_plug. cbn. by rewrite Hkq.
    + by rewrite N2, Hcnt.
    + cbn. by rewrite app_nil_r.
    + cbn in Hnd. by rewrite app_nil_r in Hnd.
    + rewrite E3. cbn [mbind M_bind]. exists T3, a. split; [done|].
      cbn in Em'. rewrite app_nil_r in Em'. by rewrite Hkq, Em' in H3.
  - destruct (lock_focus T c b q lk i l r) as (T' & E' & H'); try done.
    { apply Hqt. }
    { eapply quiet_root; [done|]. destruct Hqt as (Hr & _). split; [lia|].
      destruct (decide (0 < lk)); [by eapply Hlk|lia]. }
    rewrite E'. cbn [mbind M_bind]. exists T', b. split; [done|]. rewrite Hfocus.
    rewrite Em, Hkq in H'. case_decide; [done|].
    destruct Hqt as (Hr & Hi & _). assert (lk = 0) as -> by lia.
    destruct i; [|done]. exfalso. enough (0 < 0) by lia. by apply Hi.
  - destruct Hfocus as [Hn Hnone]. rewrite Hnone. cbn [below] in Hb.
    destruct (get_above_spec T c b q lk i l r p) as (T1 & a & c' & q' & l' & r' & E1 & H1 & O1 & Qc & Ql &
      Qr & Hk' & N1 & P1); try done.
    rewrite E1. cbn [mbind M_bind].
    destruct (get_finish T1 c' a q' l' r' (cheld c ++ held (N b q lk i l r))) as (T2 & E2 & H2); try done.
    rewrite E2. cbn [mbind M_bind]. exists T2, a. split; [done|]. by rewrite Hk', Em' in H2.
Qed.

(** The node in use for a key, and its position. *)
Lemma refines_focus T m k a lk i :
  refines T m → m !! k = Some (a, lk, i) →
  ∃ c p l r, let t := N a p lk i l r in
    zmodels T c t ∧ ordered (plug c t) ∧ quiet (plug c t) ∧ abs (plug c t) = m ∧
    key p = k ∧ 0 < lk < 2 ^ 32.
Proof.
  intros (t & H & Ho & Hq & <-) Hk%abs_lookup; [|done].
  destruct (held_focus _ _ _ _ _ Hk) as (c & p & l & r & -> & Hp & Hlk).
  exists c, p, l, r. pose proof Hq as (_ & (Hr & _) & _)%quiet_plug.
  split_and!; try done; [by apply zmodels_plug|lia].
Qed.

Lemma lock_refines T m k a lk i :
  refines T m → m !! k = Some (a, lk, i) → lk + 1 < 2 ^ 32 →
  ∃ T', route_lock_node T a = Ok T' ∧ refines T' (<[k:=(a, lk + 1, i)]> m).
Proof.
  intros HT Hk Hlk. destruct (refines_focus _ _ _ _ _ _ HT Hk) as (c & p & l & r & H & Ho & Hq & <- & <- & Hr).
  apply lock_focus; try done; [lia|]. eapply quiet_root; [done|lia].
Qed.

Lemma unlock_refines T m k a lk i :
  refines T m → m !! k = Some (a, lk, i) → (lk = 1 → i = None) →
  ∃ T', route_unlock_node T a = Ok T' ∧
    refines T' (if lk =? 1 then delete k m else <[k:=(a, lk - 1, i)]> m).
Proof.
  intros HT Hk Hi. destruct (refines_focus _ _ _ _ _ _ HT Hk) as (c & p & l & r & H & Ho & Hq & <- & <- & Hr).
  apply unlock_focus; try done. lia.
Qed.

(** Dropping the last reference to a node that still has a value. *)
Lemma unlock_abort T m k a v :
  refines T m → m !! k = Some (a, 1, Some v) → route_unlock_node T a = Fault Aborted.
Proof.
  intros HT Hk. destruct (refines_focus _ _ _ _ _ _ HT Hk) as (c & p & l & r & H & _).
  destruct (zmodels_store T c a p 1 (Some v) l r (λ n, set_lock n (lock n - 1)) 0 (Some v) H)
    as (T' & E' & H'); [done|].
  unfold route_unlock_node. rewrite (zmodels_root _ _ _ _ _ _ _ _ H).
  cbn [mbind M_bind lock Z.ltb Z.compare]. rewrite E'. cbn [mbind M_bind Z.sub Z.eqb Z.add Z.opp Z.pos_sub].
  destruct (base.size (heap T')); cbn [route_node_delete]; rewrite (zmodels_root _ _ _ _ _ _ _ _ H');
    cbn [mbind M_bind lock info Z.eqb]; by rewrite bool_decide_false by done.
Qed.

(** Storing a value in a node in use: [node->info = v]. *)
Lemma set_info_refines T m k a lk i v :
  refines T m → m !! k = Some (a, lk, i) →
  ∃ T', store T a (λ n, set_info n v) = Ok T' ∧ refines T' (<[k:=(a, lk, v)]> m).
Proof.
  intros HT Hk. destruct (refines_focus _ _ _ _ _ _ HT Hk) as (c & p & l & r & H & Ho & Hq & <- & <- & Hr).
  destruct (zmodels_store T c a p lk i l r (λ n, set_info n v) lk v H) as (T' & E' & H'); [done|].
  exists T'. split; [done|]. exists (plug c (N a p lk v l r)). split_and!.
  - by rewrite <-zmodels_plug.
  - by eapply ordered_root.
  - by eapply quiet_root.
  - apply abs_root; [done|lia].
Qed.

Lemma lookup_refines T m p :
  refines T m → prefix_ok p → (∀ a lk i, m !! key p = Some (a, lk, i) → lk + 1 < 2 ^ 32) →
  match m !! key p with
  | Some (a, lk, Some v) =>
      ∃ T', route_node_lookup T p = Ok (T', Some a) ∧ refines T' (<[key p:=(a, lk + 1, Some v)]> m)
  | _ => route_node_lookup T p = Ok (T, None)
  end.
Proof.
  intros HT Hp Hlk. pose proof HT as (t & H & Ho & Hq & Em).
  destruct (search_spec T t p H Ho Hp) as (c & t' & Et & Hz & Ed & _ & _ & _ & _ & Hfocus).
  unfold route_node_lookup. rewrite (proj1 H). cbn [ctop].
  rewrite (lookup_loop_spec p Hp _ T [] t H Ho) by (rewrite (zmodels_size _ _ _ H); done).
  rewrite Ed. cbn [snd]. rewrite Em in Hfocus. subst t.
  pose proof Hq as (_ & Hqt & _)%quiet_plug.
  destruct t' as [|a q lk i l r]; [by rewrite Hfocus|].
  case_decide as Hkq; [|destruct Hfocus as [_ ->]; by destruct i].
  destruct Hqt as (_ & Hi & _).
  destruct i as [v|]; [|by destruct (decide (0 < lk)); rewrite Hfocus].
  rewrite decide_True in Hfocus by by apply Hi. rewrite Hfocus. cbn [mbind M_bind].
  destruct (lock_refines T m (key p) a lk (Some v) HT Hfocus) as (T' & E' & H'); [by eapply Hlk|].
  exists T'. rewrite E'. done.
Qed.

Lemma held_below k t k' v : ordered t → below k t → (k', v) ∈ held t → k `prefix_of` k'.
Proof.
  intros Ho Hb Hin. pose proof (below_keys k t Ho Hb) as Hf. rewrite Forall_forall in Hf.
  apply Hf. eapply elem_of_sublist; [|apply held_keys]. apply list_elem_of_fmap. by exists (k', v).
Qed.

(** [a] is the node of the longest key of [t] that has a value and is a prefix
    of [k]. *)
Definition is_best t k a : Prop :=
  ∃ k' lk v, (k', (a, lk, Some v)) ∈ held t ∧ k' `prefix_of` k ∧
    ∀ k'' e v', (k'', (e, Some v')) ∈ held t → k'' `prefix_of` k → k'' `prefix_of` k'.
Definition no_best t k : Prop :=
  ∀ k' e v, (k', (e, Some v)) ∈ held t → ¬ k' `prefix_of` k.

Lemma held_node k' e a p lk i l r :
  (k', e) ∈ held (N a p lk i l r) ↔
  (0 < lk ∧ k' = key p ∧ e = (a, lk, i)) ∨ (k', e) ∈ held l ∨ (k', e) ∈ held r.
Proof.
  cbn [held]. unfold held_one. rewrite !elem_of_app.
  case_decide; rewrite ?list_elem_of_singleton, ?elem_of_nil; naive_solver.
Qed.

(** Keys on the other side of a branch are not on the path. *)
Lemma off_side k t b k' e :
  ordered t → ∀ kp, below (kp ++ [negb b]) t → kp ++ [b] `prefix_of` k →
  (k', e) ∈ held t → ¬ k' `prefix_of` k.
Proof.
  intros Ho kp Hb [x ->] Hin Hpre. pose proof (held_below _ _ _ _ Ho Hb Hin) as [y ->].
  destruct Hpre as [z E']. rewrite <-!app_assoc in E'. apply app_inv_head in E'. by destruct b.
Qed.

(** One step of the search: the node, the side [s] that is searched and the
    other side [o]. *)
Lemma best_step k m t a p lk i s o :
  (∀ k' e, (k', e) ∈ held t ↔
    (0 < lk ∧ k' = key p ∧ e = (a, lk, i)) ∨ (k', e) ∈ held s ∨ (k', e) ∈ held o) →
  (∀ k' e, (k', e) ∈ held o → ¬ k' `prefix_of` k) →
  (∀ k' e, (k', e) ∈ held s → key p `prefix_of` k') →
  key p `prefix_of` k → (i ≠ None → 0 < lk) →
  let m' := match i with Some _ => Some a | None => m end in
  ∀ res, (res = m' ∧ no_best s k) ∨ (∃ a, res = Some a ∧ is_best s k a) →
  (res = m ∧ no_best t k) ∨ (∃ a, res = Some a ∧ is_best t k a).
Proof.
  intros Hheld Hoff Hext Hpre Hi m' res [[-> Hnb]|(a' & -> & k' & lk' & v & Hin & Hk' & Hmax)].
  - destruct i as [v|].
    + right. exists a. split; [done|]. exists (key p), lk, v. split_and!; [|done|].
      { apply Hheld. left. split_and!; [by apply Hi|done..]. }
      intros k'' e v' [(_ & -> & _)|[Hin|Hin]]%Hheld Hk''; [done|by destruct (Hnb _ _ _ Hin)|
        by destruct (Hoff _ _ Hin)].
    + left. split; [done|]. intros k' e v [(_ & _ & [=])|[Hin|Hin]]%Hheld; [by eapply Hnb|by eapply Hoff].
  - right. exists a'. split; [done|]. exists k', lk', v. split_and!; [apply Hheld; tauto|done|].
    intros k'' e v' [(_ & -> & _)|[Hin'|Hin']]%Hheld Hk''; [by eapply Hext|by eapply Hmax|
      by destruct (Hoff _ _ Hin')].
Qed.

Lemma best_spec k m t :
  ordered t → quiet t →
  (best k m t = m ∧ no_best t k) ∨ (∃ a, best k m t = Some a ∧ is_best t k a).
Proof.
  revert m. induction t as [|a p lk i l IHl r IHr]; intros m Ho Hq.
  { left. split; [done|]. intros k' e v Hin. by apply elem_of_nil in Hin. }
  pose proof Ho as (Hp & Hl & Hr & Hol & Hor). pose proof Hq as (_ & Hi & _ & Hql & Hqr).
  cbn [best]. destruct (decide (key p `prefix_of` k)) as [Hpre|Hpre].
  2: { left. split; [done|]. intros k' e v Hin Hk'. apply Hpre. etrans; [|done].
       eapply held_below; [exact Ho| |done]. cbn. reflexivity. }
  destruct (decide (key p = k)) as [Hk|Hk].
  - assert (∀ t' b k' e, ordered t' → below (key p ++ [b]) t' → (k', e) ∈ held t' → ¬ k' `prefix_of` k) as Hlong.
    { intros t' b k' e Ho' Hb' Hin Hk'. pose proof (held_below _ _ _ _ Ho' Hb' Hin) as Hpk.
      apply prefix_length in Hk', Hpk. rewrite <-Hk, length_app in *. cbn in *. lia. }
    destruct i as [v|]; [right; exists a; split; [done|]; exists (key p), lk, v; split_and!; [|done|]|left; split; [done|]].
    + apply held_node. left. split_and!; [by apply Hi|done..].
    + intros k'' e v' [(_ & -> & _)|[Hin|Hin]]%held_node Hk''; [done|..]; exfalso;
        [by eapply (Hlong l false)|by eapply (Hlong r true)].
    + intros k'' e v' [(_ & _ & [=])|[Hin|Hin]]%held_node Hk'';
        [by eapply (Hlong l false)|by eapply (Hlong r true)].
  - destruct (prefix_proper_lookup _ _ Hpre Hk) as [b Hb]. rewrite Hb.
    pose proof (prefix_snoc_lookup _ _ _ Hpre Hb) as Hpb.
    set (s := if b then r else l). set (o := if b then l else r).
    set (m' := match i with Some _ => Some a | None => m end).
    assert (match Some b with Some true => best k m' r | _ => best k m' l end = best k m' s) as ->
      by (unfold s; by destruct b).
    assert (ordered s ∧ below (key p) s) as [Hos Hbs].
    { unfold s; destruct b; (split; [done|]); (eapply below_trans; [|done]); by apply prefix_app_r. }
    apply (best_step k m (N a p lk i l r) a p lk i s o); try done.
    + intros k' e. rewrite held_node. unfold s, o. destruct b; tauto.
    + intros k' e Hin. unfold o in Hin.
      destruct b; [eapply (off_side k l true _ e Hol (key p))|eapply (off_side k r false _ e Hor (key p))];
        done.
    + intros k' e. by apply held_below.
    + unfold s; destruct b; auto.
Qed.

(** The match and its effect on the table. *)
Lemma match_refines T m p :
  refines T m → prefix_ok p → (∀ k a lk i, m !! k = Some (a, lk, i) → lk + 1 < 2 ^ 32) →
  (route_node_match T p = Ok (T, None) ∧
   ∀ k e v, m !! k = Some (e, Some v) → ¬ k `prefix_of` key p) ∨
  (∃ T' k a lk v, route_node_match T p = Ok (T', Some a) ∧
     refines T' (<[k:=(a, lk + 1, Some v)]> m) ∧
     m !! k = Some (a, lk, Some v) ∧ k `prefix_of` key p ∧
     ∀ k' e v', m !! k' = Some (e, Some v') → k' `prefix_of` key p → k' `prefix_of` k).
Proof.
  intros HT Hp Hlk. pose proof HT as (t & H & Ho & Hq & Em).
  unfold route_node_match. rewrite (proj1 H). cbn [ctop].
  rewrite (match_loop_spec p Hp _ T [] t None H Ho) by (rewrite (zmodels_size _ _ _ H); done).
  cbn [mbind M_bind]. rewrite <-Em in *.
  destruct (best_spec (key p) None t Ho Hq) as [[-> Hnb]|(a & -> & k & lk & v & Hin & Hk & Hmax)].
  - left. split; [done|]. intros k e v Hk%abs_lookup; [|done]. by eapply Hnb.
  - right. apply abs_lookup in Hin; [|done].
    destruct (lock_refines T (abs t) k a lk (Some v) HT Hin) as (T' & -> & H'); [by eapply Hlk|].
    exists T', k, a, lk, v. split_and!; try done. intros k' e v' Hk'%abs_lookup; [|done]. by eapply Hmax.
Qed.

Lemma init_refines : refines route_table_init ∅.
Proof. exists E. split_and!; try done. by unfold models, zmodels; split_and!; try constructor. Qed.

(** ** Client calls *)

(** The calls of a client: those that search by prefix and return a node, and
    those on a node it holds. *)
Inductive call :=
  | Get (p : prefix)
  | Lookup (p : prefix)
  | Match (p : prefix)
  | Lock (a : loc)
  | Unlock (a : loc)
  | Set_info (a : loc) (v : option A).

Definition exec T (cl : call) : M (table A * option loc) :=
  match cl with
  | Get p => '(T, a) ← route_node_get T p; Ok (T, Some a)
  | Lookup p => route_node_lookup T p
  | Match p => route_node_match T p
  | Lock a => T ← route_lock_node T a; Ok (T, None)
  | Unlock a => T ← route_unlock_node T a; Ok (T, None)
  | Set_info a v => T ← store T a (λ n, set_info n v); Ok (T, None)
  end.

(** What a call does to the map from keys to the nodes in use. *)
Inductive astep (m : gmap (list bool) (loc * Z * option A)) :
    call → option loc → gmap (list bool) (loc * Z * option A) → Prop :=
  | Get_held p a lk i :
      m !! key p = Some (a, lk, i) → astep m (Get p) (Some a) (<[key p:=(a, lk + 1, i)]> m)
  | Get_new p a :
      m !! key p = None → astep m (Get p) (Some a) (<[key p:=(a, 1, None)]> m)
  | Lookup_found p a lk v :
      m !! key p = Some (a, lk, Some v) →
      astep m (Lookup p) (Some a) (<[key p:=(a, lk + 1, Some v)]> m)
  | Lookup_none p :
      (∀ e v, m !! key p ≠ Some (e, Some v)) → astep m (Lookup p) None m
  | Match_found p k a lk v :
      m !! k = Some (a, lk, Some v) → k `prefix_of` key p →
      (∀ k' e v', m !! k' = Some (e, Some v') → k' `prefix_of` key p → k' `prefix_of` k) →
      astep m (Match p) (Some a) (<[k:=(a, lk + 1, Some v)]> m)
  | Match_none p :
      (∀ k e v, m !! k = Some (e, Some v) → ¬ k `prefix_of` key p) → astep m (Match p) None m
  | Lock_held k a lk i :
      m !! k = Some (a, lk, i) → astep m (Lock a) None (<[k:=(a, lk + 1, i)]> m)
  | Unlock_last k a :
      m !! k = Some (a, 1, None) → astep m (Unlock a) None (delete k m)
  | Unlock_held k a lk i :
      m !! k = Some (a, lk, i) → lk ≠ 1 → astep m (Unlock a) None (<[k:=(a, lk - 1, i)]> m)
  | Set_info_held k a lk i v :
      m !! k = Some (a, lk, i) → astep m (Set_info a v) None (<[k:=(a, lk, v)]> m).

(** The reference counts are below their maximum. *)
Definition room (m : gmap (list bool) (loc * Z * option A)) : Prop :=
  ∀ k a lk i, m !! k = Some (a, lk, i) → lk + 1 < 2 ^ 32.

(** The client's side: well-formed prefixes, nodes that it holds, and no value
    left behind with the last reference. *)
Definition client_ok (m : gmap (list bool) (loc * Z * option A)) (cl : call) : Prop :=
  match cl with
  | Get p => inet_ok p
  | Lookup p | Match p => prefix_ok p
  | Lock a | Set_info a _ => ∃ k lk i, m !! k = Some (a, lk, i)
  | Unlock a => ∃ k lk i, m !! k = Some (a, lk, i) ∧ (lk = 1 → i = None)
  end.

Local Ltac takes step :=
  eexists _, _, _; split_and!; [reflexivity|eapply step; eassumption|eassumption].

(** ** Properties *)

(** C1. The routing table implements a finite map with reference counts.  Every
    call of a client that keeps its side of the contract returns (no failed
    assertion, no access outside a live node, no loop that runs on), and acts on
    the map from keys to nodes in use as [astep] says: [route_node_get] finds or
    adds the key, [route_node_lookup] finds exact matches with a value,
    [route_node_match] the longest one, [route_unlock_node] removes a key with
    its last reference.  The memory afterwards is again exactly a well-formed
    radix tree, so nothing leaks and no other node moves. *)
Theorem route_table_simulation T m cl :
  refines T m → room m → client_ok m cl →
  ∃ T' res m', exec T cl = Ok (T', res) ∧ astep m cl res m' ∧ refines T' m'.
Proof.
  intros HT Hroom Hcl. destruct cl as [p|p|p|a|a|a v]; cbn [exec client_ok] in *.
  - destruct (get_refines T m p HT Hcl (Hroom _)) as (T' & a & -> & Hm). cbn [mbind M_bind].
    destruct (m !! key p) as [[[b lk] i]|] eqn:Em.
    + destruct Hm as [-> Hm]. takes Get_held.
    + takes Get_new.
  - pose proof (lookup_refines T m p HT Hcl (Hroom _)) as Hm.
    destruct (m !! key p) as [[[b lk] [v|]]|] eqn:Em.
    + destruct Hm as (T' & -> & ?). takes Lookup_found.
    + exists T, None, m. split_and!; [done| |done]. apply Lookup_none. congruence.
    + exists T, None, m. split_and!; [done| |done]. apply Lookup_none. congruence.
  - destruct (match_refines T m p HT Hcl Hroom) as [[-> ?]|(T' & k & a & lk & v & -> & ? & ? & ? & ?)];
      [takes Match_none|takes Match_found].
  - destruct Hcl as (k & lk & i & Hk).
    destruct (lock_refines T m k a lk i HT Hk (Hroom _ _ _ _ Hk)) as (T' & -> & ?). takes Lock_held.
  - destruct Hcl as (k & lk & i & Hk & Hi).
    destruct (unlock_refines T m k a lk i HT Hk Hi) as (T' & -> & HT'). cbn [mbind M_bind].
    destruct (Z.eqb_spec lk 1) as [->|Hne]; [rewrite Hi in Hk by done; takes Unlock_last|takes Unlock_held].
  - destruct Hcl as (k & lk & i & Hk).
    destruct (set_info_refines T m k a lk i v HT Hk) as (T' & -> & ?). takes Set_info_held.
Qed.

(** A client that drops the last reference to a node whose value is still
    set does not corrupt the table: the assertion in [route_node_delete] stops
    the program. *)
Theorem route_unlock_with_value_aborts T m k a v :
  refines T m → m !! k = Some (a, 1, Some v) → route_unlock_node T a = Fault Aborted.
Proof. apply unlock_abort. Qed.
End spec.

(** A table with one node for 10.0.0.0/8, and a client that adds
    10.1.2.0/24. *)
Lemma one_node : ∃ T a, refines (A:=Z) T {[key net8 := (a, 1, Some 7)]}.
Proof.
  destruct (get_refines (A:=Z) route_table_init ∅ net8 init_refines) as (T & a & _ & HT);
    [decide_by_compute|done|].
  rewrite lookup_empty in HT.
  destruct (set_info_refines T _ (key net8) a 1 None (Some 7) HT) as (T' & _ & HT');
    [by rewrite lookup_insert_eq|].
  exists T', a. by rewrite insert_insert_eq in HT'.
Qed.

Lemma route_table_simulation_witness :
  ∃ T a, refines (A:=Z) T {[key net8 := (a, 1, Some 7)]} ∧
    ∃ T' r m', exec T (Get net24) = Ok (T', r) ∧
      astep {[key net8 := (a, 1, Some 7)]} (Get net24) r m' ∧ refines T' m'.
Proof.
  destruct one_node as (T & a & HT). exists T, a. split; [exact HT|].
  apply (route_table_simulation T _ (Get net24) HT).
  - intros k b lk i Hk%lookup_singleton_Some. destruct Hk as [_ Hk]. injection Hk as _ <- _. reflexivity.
  - decide_by_compute.
Defined.

Lemma route_unlock_with_value_aborts_witness :
  ∃ T a, refines (A:=Z) T {[key net8 := (a, 1, Some 7)]} ∧ route_unlock_node T a = Fault Aborted.
Proof.
  destruct one_node as (T & a & HT). exists T, a. split; [exact HT|].
  apply (route_unlock_with_value_aborts T _ (key net8) a 7 HT). apply lookup_singleton_eq.
Defined.
