(* ===== verification/TableIter.v ===== *)
(** Iteration over the routing tables of Table.v: [route_top] / [route_next],
    the order of [route_table_prefix_iter_cmp], [route_table_get_next] and the
    bulk deletion of [route_table_free]. *)
From stdpp Require Import sorting.
From S2P Require Import Prelude Prefix Table TableSpec.
Open Scope Z_scope.

Section iter.
Context {A : Type}.
Implicit Types (T : table A) (t l r : @tr A) (f : @frame A) (c : list (@frame A)) (i : option A).

(** The loop [for (rn = route_top (table); rn; rn = route_next (rn))], with the
    nodes it visits. *)
Fixpoint traverse (fuel : nat) T (cur : option loc) : M (table A * list loc) :=
  match cur, fuel with
  | None, _ => Ok (T, [])
  | Some _, O => Fault Undefined
  | Some a, S fuel' =>
      '(T, next) ← route_next T a;
      '(T, visited) ← traverse fuel' T next;
      Ok (T, a :: visited)
  end.

Definition traverse_all T : M (table A * list loc) :=
  '(T1, cur) ← route_top T;
  traverse (base.size (heap T)) T1 cur.

(** The nodes in iteration order, and those after the focus. *)
Fixpoint nodes t : list (loc * list bool) :=
  match t with E => [] | N a p _ _ l r => (a, key p) :: nodes l ++ nodes r end.

Fixpoint crest c : list (loc * list bool) :=
  match c with
  | [] => []
  | f :: c => if right f then crest c else nodes (sib f) ++ crest c
  end.

Fixpoint cpre c : list (loc * list bool) :=
  match c with
  | [] => []
  | f :: c => cpre c ++ (fa f, key (fp f)) :: (if right f then nodes (sib f) else [])
  end.

Lemma nodes_addrs t : (nodes t).*1 = addrs t.
Proof. induction t as [|a p lk i l IHl r IHr]; cbn; [done|]. by rewrite fmap_app, IHl, IHr. Qed.

Lemma nodes_keys t : (nodes t).*2 = keys t.
Proof.
  unfold keys. induction t as [|a p lk i l IHl r IHr]; cbn; [done|]. by rewrite !fmap_app, IHl, IHr.
Qed.

Lemma nodes_plug c t : nodes (plug c t) = cpre c ++ nodes t ++ crest c.
Proof.
  revert t. induction c as [|f c IH]; intros t; cbn; [by rewrite app_nil_r|].
  rewrite IH. unfold fill. destruct (right f); cbn [nodes]; rewrite <-!app_assoc; cbn;
    by rewrite <-?app_assoc.
Qed.

Lemma head_nodes t : head (nodes t).*1 = addr t.
Proof. by destruct t. Qed.

(** The upward loop finds the node after the subtree at the focus. *)
Lemma up_loop_spec fuel T c a p lk i l r :
  zmodels T c (N a p lk i l r) → (length c ≤ fuel)%nat →
  up_loop fuel T None a = Ok (head (crest c).*1).
Proof.
  revert fuel a p lk i l r. induction c as [|f c IH]; intros fuel a p lk i l r H Hf.
  - destruct fuel; cbn [up_loop]; by rewrite (zmodels_root _ _ _ _ _ _ _ _ H).
  - pose proof H as H'%zmodels_fill.
    assert (∀ fuel', (length c ≤ fuel')%nat → up_loop fuel' T None (fa f) = Ok (head (crest c).*1)) as IH'.
    { intros fuel' Hf'. unfold fill in H'. destruct (right f); by eapply IH. }
    destruct fuel as [|fuel]; cbn [length] in Hf; [lia|]. cbn [up_loop].
    rewrite (zmodels_root _ _ _ _ _ _ _ _ H). cbn [mbind M_bind parent cpar]. rewrite decide_False by done.
    rewrite (zmodels_frame _ _ _ _ H). cbn [mbind M_bind addr]. cbn [crest].
    assert (a ∉ addrs (sib f)) as Ha.
    { destruct H as (_ & _ & _ & Hnd & _). apply NoDup_app in Hnd as (_ & Hnd & _).
      intros Hin. apply (Hnd a); [cbn; rewrite elem_of_cons, elem_of_app; tauto|left]. }
    unfold fnode. destruct (right f); cbn [l_left l_right].
    + rewrite decide_False; [by apply IH'; lia|]. intros Hs. apply Ha.
      destruct (sib f); cbn in *; [done|]. injection Hs as ->. left.
    + rewrite fmap_app. destruct (sib f); cbn; [by apply IH'; lia|by rewrite decide_True].
Qed.

(** Locking a node changes its memory only; unlocking it puts it back. *)
Definition locked T (a : loc) : table A :=
  with_heap T (alter (λ n, set_lock n (lock n + 1)) a (heap T)).

Definition quiet_node (n : rnode A) : Prop :=
  0 ≤ lock n ∧ lock n + 1 < 2 ^ 32 ∧
  (lock n = 0 → info n = None ∧ is_Some (l_left n) ∧ is_Some (l_right n)).

Definition quiet_heap T : Prop := ∀ a n, heap T !! a = Some n → quiet_node n.

Lemma alter_as_insert {B} (g : B → B) (h : gmap loc B) (a : loc) x :
  h !! a = Some x → alter g a h = <[a:=g x]> h.
Proof. intros Ha. rewrite <-(insert_id h a x Ha) at 1. by rewrite alter_insert_eq. Qed.

Lemma lock_locked T a n :
  heap T !! a = Some n → lock n + 1 < 2 ^ 32 → 0 ≤ lock n →
  route_lock_node T a = Ok (locked T a).
Proof.
  intros Ha Hlt H0. unfold route_lock_node, store, load, locked. rewrite Ha. cbn [of_opt mbind M_bind].
  unfold u32. rewrite Z.mod_small by lia. do 2 f_equal. by rewrite (alter_as_insert _ _ _ _ Ha).
Qed.

Lemma unlock_restore T a n :
  heap T !! a = Some (set_lock n (lock n + 1)) → quiet_node n →
  route_unlock_node T a = Ok (with_heap T (<[a:=n]> (heap T))).
Proof.
  intros Ha (H0 & H1 & H2). unfold route_unlock_node, load. rewrite Ha. cbn [of_opt mbind M_bind lock set_lock].
  rewrite (proj2 (Z.ltb_lt 0 (lock n + 1))) by lia. unfold store, load. rewrite Ha. cbn [of_opt mbind M_bind].
  replace (lock n + 1 - 1) with (lock n) by lia.
  assert (set_lock (set_lock n (lock n + 1)) (lock (set_lock n (lock n + 1)) - 1) = n) as ->.
  { destruct n as [q pa lf rg lk i]. unfold set_lock; cbn [np parent l_left l_right lock info]. f_equal. lia. }
  destruct (Z.eqb_spec (lock n) 0) as [E0|]; [|done].
  destruct (H2 E0) as (Hi & [x Hx] & [y Hy]).
  destruct (base.size _); cbn [route_node_delete]; unfold load; cbn [heap with_heap];
    rewrite lookup_insert_eq; cbn [of_opt mbind M_bind]; rewrite E0, Hi, Hx, Hy; cbn [Z.eqb];
    by rewrite bool_decide_true.
Qed.

Lemma unlock_locked T a n :
  heap T !! a = Some n → quiet_node n → route_unlock_node (locked T a) a = Ok T.
Proof.
  intros Ha Hn. rewrite (unlock_restore _ a n); [|unfold locked; cbn; by rewrite lookup_alter_eq, Ha|done].
  unfold locked, with_heap; cbn. destruct T as [h tp cn]; cbn in *. do 2 f_equal.
  rewrite (alter_as_insert _ _ _ _ Ha), insert_insert_eq. by rewrite insert_id.
Qed.

(** Unlocking [a] after locking [b]. *)
Lemma unlock_locked_other T a b n :
  a ≠ b → heap T !! a = Some n → quiet_node n →
  route_unlock_node (locked (locked T a) b) a = Ok (locked T b).
Proof.
  intros Hab Ha Hn.
  rewrite (unlock_restore _ a n); [|unfold locked; cbn; by rewrite lookup_alter_ne, lookup_alter_eq, Ha|done].
  unfold locked, with_heap; cbn. do 2 f_equal. apply map_eq. intros x.
  destruct (decide (x = a)) as [->|Hxa].
  - by rewrite lookup_insert_eq, lookup_alter_ne by done.
  - rewrite lookup_insert_ne by done. destruct (decide (x = b)) as [->|Hxb].
    + by rewrite !lookup_alter_eq, lookup_alter_ne by done.
    + by rewrite !lookup_alter_ne by done.
Qed.

Lemma addrs_focus t a :
  a ∈ addrs t → ∃ c p lk i l r, t = plug c (N a p lk i l r).
Proof.
  induction t as [|b p lk i l IHl r IHr]; cbn; [by intros ?%elem_of_nil|].
  rewrite elem_of_cons, elem_of_app. intros [->|[Hin|Hin]].
  - by exists [], p, lk, i, l, r.
  - destruct (IHl Hin) as (c & q & lk' & i' & l' & r' & ->).
    exists (c ++ [Frame false b p lk i r]), q, lk', i', l', r'. by rewrite plug_app.
  - destruct (IHr Hin) as (c & q & lk' & i' & l' & r' & ->).
    exists (c ++ [Frame true b p lk i l]), q, lk', i', l', r'. by rewrite plug_app.
Qed.

Lemma models_focus T t a :
  models T t → a ∈ dom (heap T) → ∃ c p lk i l r, t = plug c (N a p lk i l r) ∧ zmodels T c (N a p lk i l r).
Proof.
  intros H Ha. destruct (addrs_focus t a) as (c & p & lk & i & l & r & ->).
  { destruct H as (_ & _ & _ & _ & Hdom & _). rewrite Hdom in Ha. set_solver. }
  exists c, p, lk, i, l, r. split; [done|]. by apply zmodels_plug.
Qed.

Lemma refines_quiet_heap T (m : gmap (list bool) (loc * Z * option A)) :
  refines T m → room m → quiet_heap T.
Proof.
  intros (t & H & Ho & Hq & <-) Hroom a n Ha.
  destruct (models_focus T t a H) as (c & p & lk & i & l & r & -> & Hz); [by eapply elem_of_dom_2|].
  destruct Hz as (_ & _ & (Ha' & _) & _). rewrite Ha' in Ha. injection Ha as <-.
  pose proof Hq as (_ & (Hr & Hi & Hb & _) & _)%quiet_plug. unfold quiet_node; cbn [lock info l_left l_right].
  split_and!; [lia| |].
  - destruct (decide (0 < lk)); [|lia]. eapply Hroom, abs_lookup; [done|]. rewrite held_plug.
    apply elem_of_app. right. apply held_node. by left.
  - intros E0. destruct (Hb E0) as [Hl Hr']. split_and!; [|by destruct l|by destruct r].
    destruct i; [|done]. exfalso. enough (0 < lk) by lia. by apply Hi.
Qed.

Lemma zmodels_locked T c a p lk i l r :
  zmodels T c (N a p lk i l r) → zmodels (locked T a) c (N a p (lk + 1) i l r).
Proof.
  intros H. destruct (zmodels_store T c a p lk i l r (λ n, set_lock n (lock n + 1)) (lk + 1) i H)
    as (T' & E' & H'); [done|].
  unfold store in E'. rewrite (zmodels_root _ _ _ _ _ _ _ _ H) in E'. cbn [mbind M_bind] in E'.
  destruct H as (_ & _ & (Ha & _) & _).
  injection E' as <-. unfold locked. by rewrite (alter_as_insert _ _ _ _ Ha).
Qed.

Lemma next_go T a b :
  quiet_heap T → a ∈ dom (heap T) → b ∈ dom (heap T) → a ≠ b →
  (t ← route_lock_node (locked T a) b; t ← route_unlock_node t a; Ok (t, Some b)) = Ok (locked T b, Some b).
Proof.
  intros Hq [na Ha]%elem_of_dom [nb Hb]%elem_of_dom Hab. destruct (Hq b nb Hb) as (? & ? & _).
  rewrite (lock_locked _ b nb) by (done || unfold locked; cbn; by rewrite lookup_alter_ne).
  cbn [mbind M_bind]. rewrite (unlock_locked_other T a b na) by eauto. done.
Qed.

(** [route_next] on a locked node moves the lock to the next node. *)
Lemma route_next_spec T c a p lk i l r :
  quiet_heap T → zmodels T c (N a p lk i l r) →
  route_next (locked T a) a =
    Ok (match head (nodes l ++ nodes r ++ crest c).*1 with
        | Some b => (locked T b, Some b)
        | None => (T, None)
        end).
Proof.
  intros Hq H. pose proof (zmodels_locked _ _ _ _ _ _ _ _ H) as Hl.
  assert (a ∈ dom (heap T)) as Ha by (destruct H as (_ & _ & (Ha & _) & _); by eapply elem_of_dom_2).
  assert (∀ b, b ∈ (nodes l ++ nodes r ++ crest c).*1 → b ∈ dom (heap T) ∧ a ≠ b) as Hin.
  { intros b Hb. pose proof H as (_ & _ & _ & Hnd & Hdom & _)%zmodels_plug. cbn [caddrs app] in *.
    rewrite <-nodes_addrs, nodes_plug in Hnd, Hdom. cbn [nodes] in Hnd, Hdom.
    rewrite fmap_app in Hnd, Hdom. cbn [fmap list_fmap app] in Hnd, Hdom.
    rewrite <-!app_assoc in Hnd, Hdom. split.
    - rewrite Hdom. apply elem_of_list_to_set, elem_of_app. right. by right.
    - apply NoDup_app in Hnd as (_ & _ & Hnd). apply NoDup_cons in Hnd as [Hna _]. by intros ->. }
  unfold route_next, next_until. rewrite (zmodels_root _ _ _ _ _ _ _ _ Hl).
  cbn [mbind M_bind l_left l_right]. rewrite !fmap_app in *.
  rewrite (up_loop_spec _ _ _ _ _ _ _ _ _ Hl)
    by (rewrite (zmodels_size _ _ _ Hl), length_app; pose proof (length_caddrs c); lia).
  destruct l as [|b ????? ] eqn:El; cbn [addr nodes fmap list_fmap app head fst] in *;
    [|destruct (Hin b) as [? ?]; [left|by apply next_go]].
  destruct r as [|b ????? ] eqn:Er; cbn [addr nodes fmap list_fmap app head fst] in *;
    [|destruct (Hin b) as [? ?]; [left|by apply next_go]].
  cbn [mbind M_bind]. destruct (crest c).*1 as [|b rest] eqn:Ec; cbn [head] in *.
  - apply elem_of_dom in Ha as [na Ha]. by rewrite (unlock_locked T a na) by eauto.
  - destruct (Hin b) as [? ?]; [left|by apply next_go].
Qed.

Lemma NoDup_split_unique (l1 l1' : list loc) (a : loc) (l2 l2' : list loc) :
  NoDup (l1 ++ a :: l2) → l1' ++ a :: l2' = l1 ++ a :: l2 → l2' = l2.
Proof.
  revert l1'. induction l1 as [|x l1 IH]; intros [|y l1'] Hnd He; cbn in *; simplify_eq; try done.
  - apply NoDup_cons in Hnd as [Hn _]. destruct Hn. apply elem_of_app. right. left.
  - apply NoDup_cons in Hnd as [Hn _]. destruct Hn. apply elem_of_app. right. left.
  - apply NoDup_cons in Hnd as [_ Hnd]. by eapply IH.
Qed.

(** The whole loop, from any node. *)
Lemma traverse_spec fuel T t (done_ todo : list loc) :
  models T t → quiet_heap T → addrs t = done_ ++ todo → (length todo ≤ fuel)%nat →
  traverse fuel (match todo with a :: _ => locked T a | [] => T end) (head todo) = Ok (T, todo).
Proof.
  intros H Hq. revert fuel done_. induction todo as [|a todo IH]; intros fuel done_ Ht Hf.
  { by destruct fuel. }
  destruct fuel as [|fuel]; [cbn in Hf; lia|]. cbn [traverse head].
  destruct (models_focus T t a H) as (c & p & lk & i & l & r & Et & Hz).
  { destruct H as (_ & _ & _ & _ & -> & _). cbn. rewrite Ht. set_solver. }
  rewrite (route_next_spec T c a p lk i l r Hq Hz). cbn [mbind M_bind].
  assert ((nodes l ++ nodes r ++ crest c).*1 = todo) as ->.
  { pose proof H as (_ & _ & _ & Hnd & _). cbn in Hnd. rewrite Ht in Hnd.
    rewrite Et, <-nodes_addrs, nodes_plug in Ht. rewrite fmap_app in Ht. cbn [nodes fmap list_fmap app fst] in Ht.
    rewrite !fmap_app, <-!app_assoc in *. by apply (NoDup_split_unique done_ (cpre c).*1 a). }
  assert (addrs t = (done_ ++ [a]) ++ todo) as Ht' by (by rewrite <-app_assoc).
  cbn [length] in Hf. pose proof (IH fuel (done_ ++ [a]) Ht' ltac:(lia)) as IH'.
  destruct todo as [|b todo]; cbn [head] in *; by rewrite IH'.
Qed.

(** ** The iteration order on prefixes *)

Definition junk_ok (junk : prefix) : Prop :=
  length (u junk) = prefix_union_size ∧ bytes_ok (u junk).

Lemma klt_strict (k1 k2 : list bool) : k1 `prefix_of` k2 → k1 ≠ k2 → klt k1 k2.
Proof.
  intros Hpre Hne. destruct (prefix_proper_lookup _ _ Hpre Hne) as [b Hb].
  eapply klt_prefix, prefix_snoc_lookup; done.
Qed.

Lemma bit_after q p (b : bool) (g : nat) :
  prefix_ok p → take g q ++ [b] `prefix_of` key p → (g ≤ length q)%nat →
  Z.of_nat g < prefixlen p ∧ prefix_bit (u p) (Z.of_nat g) = Ok (Z.b2z b).
Proof.
  intros Hp Hpre Hg. pose proof (length_key _ Hp) as Lp. pose proof Hp as (_ & _ & Rp).
  pose proof (prefix_length _ _ Hpre) as Hl. rewrite length_app, length_take_le in Hl by done. cbn in Hl.
  split; [lia|]. destruct (prefix_bit_key p g Hp ltac:(lia)) as (b' & Hb' & ->). do 2 f_equal.
  destruct Hpre as [k Ek]. rewrite Ek, <-app_assoc in Hb'.
  rewrite lookup_app_r, length_take_le, Nat.sub_diag in Hb' by (rewrite ?length_take; lia). by injection Hb'.
Qed.

(** The tail of the comparison, for prefixes of which neither contains the
    other. *)
Lemma iter_cmp_apart p1 p2 junk :
  prefix_ok p1 → prefix_ok p2 → junk_ok junk →
  ¬ key p1 `prefix_of` key p2 → ¬ key p2 `prefix_of` key p1 →
  ∃ common (b : bool), route_common p1 p2 junk = Ok common ∧
    prefixlen common < prefixlen p1 ∧ prefixlen common < prefixlen p2 ∧
    prefix_bit (u p1) (prefixlen common) = Ok (Z.b2z b) ∧
    prefix_bit (u p2) (prefixlen common) = Ok (Z.b2z (negb b)) ∧
    if b then klt (key p2) (key p1) else klt (key p1) (key p2).
Proof.
  intros H1 H2 [Lj Bj] Hn1 Hn2.
  destruct (route_common_spec p1 p2 junk H1 H2 Lj Bj) as (q & Eq & Hl & _).
  rewrite <-(take_drop (Z.to_nat (prefixlen p1)) (bits (u p1))), common_len_app_off in Hl by done.
  fold (key p1) in Hl.
  destruct (common_split (key p1) (key p2) Hn1) as (b & Hb & [Hg|[Hg Hb']] & _);
    set (g := common_len (key p1) (key p2)) in *.
  { exfalso. apply Hn2. rewrite Hg, take_ge in Hb by done. etrans; [|done]. by apply prefix_app_r. }
  exists q, b. rewrite Hl.
  destruct (bit_after (key p2) p1 b g H1 Hb) as [? ?]; [lia|].
  destruct (bit_after (key p2) p2 (negb b) g H2 Hb') as [? ?]; [lia|]. split_and!; try done.
  destruct b; by eapply klt_branch.
Qed.

Lemma iter_cmp_spec p1 p2 junk :
  prefix_ok p1 → prefix_ok p2 → junk_ok junk →
  ∃ cmp, route_table_prefix_iter_cmp p1 p2 junk = Ok cmp ∧
    (cmp = 0 ∧ key p1 = key p2 ∨ cmp = -1 ∧ klt (key p1) (key p2) ∨ cmp = 1 ∧ klt (key p2) (key p1)).
Proof.
  intros H1 H2 Hj. pose proof (length_key _ H1) as L1. pose proof (length_key _ H2) as L2.
  pose proof H1 as (_ & _ & R1). pose proof H2 as (_ & _ & R2).
  destruct (decide (key p1 = key p2)) as [He|Hne].
  { exists 0. split; [|by left]. unfold route_table_prefix_iter_cmp. rewrite prefix_match_key by done.
    assert (prefixlen p1 = prefixlen p2) as El by (rewrite He in L1; lia).
    rewrite El, Z.leb_refl, decide_True by (by rewrite He). cbn. by rewrite Z.eqb_refl. }
  destruct (decide (key p1 `prefix_of` key p2)) as [Hp1|Hn1].
  { exists (-1). split; [|right; left; split; [done|by apply klt_strict]].
    destruct (walk_cases p1 p2 H1 H2) as [(_ & _ & El & Em & Eq & _)|[(? & _)|[? _]]]; [|done..].
    unfold route_table_prefix_iter_cmp. rewrite El, Em. cbn [mbind M_bind Z.eqb]. by rewrite Eq. }
  destruct (decide (key p2 `prefix_of` key p1)) as [Hp2|Hn2].
  { exists 1. split; [|right; right; split; [done|by apply klt_strict]].
    destruct (walk_cases p2 p1 H2 H1) as [(_ & _ & El & Em & Eq & _)|[(? & _)|[? _]]]; [|done..].
    apply Z.leb_le in El. apply Z.eqb_neq in Eq.
    unfold route_table_prefix_iter_cmp. by rewrite (proj2 (Z.leb_gt _ _)), Em by lia. }
  destruct (iter_cmp_apart p1 p2 junk H1 H2 Hj Hn1 Hn2) as (q & b & Eq & Hl1 & Hl2 & Eb1 & Eb2 & Hk).
  assert (∀ (k : M Z), (early ← (if prefixlen p1 <=? prefixlen p2 then
             m ← prefix_match p1 p2;
             Ok (if m =? 0 then None
                 else Some (if prefixlen p1 =? prefixlen p2 then 0 else -1))
           else
             m ← prefix_match p2 p1;
             Ok (if m =? 0 then None else Some 1));
       match early with Some res => Ok res | None => k end) = k) as Eearly.
  { intros k. rewrite !prefix_match_key, !decide_False by done. by destruct (_ <=? _). }
  unfold route_table_prefix_iter_cmp. rewrite Eearly, Eq. cbn [mbind M_bind].
  rewrite (proj2 (Z.ltb_lt _ _) Hl1), (proj2 (Z.ltb_lt _ _) Hl2), Eb1, Eb2.
  destruct b; cbn; eauto 6.
Qed.

(** ** The node after a prefix *)

#[local] Instance klt_dec k1 k2 : Decision (klt k1 k2).
Proof.
  revert k2. induction k1 as [|x k1 IH]; intros [|y k2]; cbn; try apply _.
  destruct (eqb x y); [apply IH|apply _].
Defined.

(** The first node of [ns] that comes after [k]. *)
Definition after (k : list bool) (ns : list (loc * list bool)) : option loc :=
  head (filter (λ x, klt k x.2) ns).*1.

Lemma after_skip k ns1 ns2 :
  Forall (λ x, ¬ klt k x.2) ns1 → after k (ns1 ++ ns2) = after k ns2.
Proof.
  unfold after. rewrite filter_app. induction 1 as [|x ns1 Hx _ IH]; [done|].
  by rewrite filter_cons_False.
Qed.

Lemma after_all k ns : Forall (λ x, klt k x.2) ns → after k ns = head ns.*1.
Proof. unfold after. destruct 1 as [|x ns Hx _]; [done|]. by rewrite filter_cons_True. Qed.

Lemma after_first k a k' ns : klt k k' → after k ((a, k') :: ns) = Some a.
Proof. intros H. unfold after. by rewrite filter_cons_True. Qed.

Lemma after_skip_1 k a k' ns : ¬ klt k k' → after k ((a, k') :: ns) = after k ns.
Proof. intros H. apply (after_skip k [_]). by constructor. Qed.

Lemma nodes_below k t : ordered t → below k t → Forall (λ x, k `prefix_of` x.2) (nodes t).
Proof.
  intros Ho Hb. pose proof (below_keys k t Ho Hb) as Hf. rewrite <-nodes_keys in Hf.
  by rewrite Forall_fmap in Hf.
Qed.

(** What follows the focus comes after every key below the context. *)
Lemma crest_after c k : cordered c → ckey c `prefix_of` k → Forall (λ x, klt k x.2) (crest c).
Proof.
  induction c as [|f c IH]; cbn; [constructor|]. intros (Hp & Hc & Hs & Hos & Hoc) Hk.
  assert (ckey c `prefix_of` k) as Hck by (etrans; [done|]; etrans; [|done]; by apply prefix_app_r).
  destruct (right f) eqn:Er; cbn [negb] in Hs; [by apply IH|]. apply Forall_app. split; [|by apply IH].
  eapply Forall_impl; [by apply nodes_below|]. cbn. intros x Hx. by eapply klt_branch.
Qed.

(** The position of the node's prefix relative to [p], and the tests of the
    loop. *)
Lemma next_cases q p :
  prefix_ok q → prefix_ok p →
  let m := if prefixlen q <? prefixlen p then prefix_match q p else prefix_match p q in
  (key q `prefix_of` key p ∧ key q ≠ key p ∧ m = Ok 1 ∧ (prefixlen q =? prefixlen p) = false ∧
     (prefixlen p <? prefixlen q) = false ∧
     ∃ b, key p !! length (key q) = Some b ∧ prefix_bit (u p) (prefixlen q) = Ok (Z.b2z b)) ∨
  (key q = key p ∧ m = Ok 1 ∧ (prefixlen q =? prefixlen p) = true) ∨
  (klt (key p) (key q) ∧ m = Ok 1 ∧ (prefixlen q =? prefixlen p) = false ∧
     (prefixlen p <? prefixlen q) = true) ∨
  (¬ key q `prefix_of` key p ∧ ¬ key p `prefix_of` key q ∧ m = Ok 0).
Proof.
  intros Hq Hp m. unfold m. clear m.
  pose proof (length_key _ Hq) as Lq. pose proof (length_key _ Hp) as Lp.
  pose proof Hq as (_ & _ & Rq). pose proof Hp as (_ & _ & Rp).
  destruct (walk_cases q p Hq Hp) as [(H1 & H2 & El & Em & Ee & Hb)|[(He & El & Em & Ee)|[Hn Em]]].
  - left. apply Z.leb_le in El. apply Z.eqb_neq in Ee as ?.
    rewrite (proj2 (Z.ltb_lt (prefixlen q) _)) by lia. split_and!; try done. apply Z.ltb_ge. lia.
  - right; left. apply Z.eqb_eq in Ee as ?. rewrite (proj2 (Z.ltb_ge (prefixlen q) _)) by lia.
    split_and!; try done. by rewrite prefix_match_key, He, decide_True.
  - right; right. destruct (walk_cases p q Hp Hq) as [(H1 & H2 & El & Em' & Ee & _)|[(He & _)|[Hn' Em']]].
    + left. apply Z.leb_le in El. apply Z.eqb_neq in Ee as ?.
      rewrite (proj2 (Z.ltb_ge (prefixlen q) _)) by lia.
      split_and!; [by apply klt_strict|done|by rewrite Z.eqb_sym|apply Z.ltb_lt; lia].
    + destruct Hn. by rewrite He.
    + right. split_and!; try done. by destruct (_ <? _).
Qed.

Lemma not_klt_prefix (k k' : list bool) : k' `prefix_of` k → ¬ klt k k'.
Proof.
  intros Hpre Hlt. destruct (decide (k' = k)) as [->|Hne]; [by apply klt_irrefl in Hlt|].
  pose proof (klt_strict _ _ Hpre Hne). by eapply klt_irrefl, klt_trans.
Qed.

Lemma klt_asym (k k' : list bool) : klt k k' → ¬ klt k' k.
Proof. intros H1 H2. by eapply klt_irrefl, klt_trans. Qed.

(** A subtree that is apart from [k] lies on one side of it. *)
Lemma klt_apart (k k' x : list bool) :
  ¬ k' `prefix_of` k → ¬ k `prefix_of` k' → k' `prefix_of` x → klt k' k → klt x k.
Proof.
  revert k k'. induction x as [|b x IH]; intros k k' Hn1 Hn2 Hx Hlt.
  { apply prefix_nil_inv in Hx as ->. destruct Hn1. apply prefix_nil. }
  destruct k' as [|b' k']; [destruct Hn1; apply prefix_nil|].
  destruct k as [|d k]; [done|]. apply prefix_cons_inv_1 in Hx as ?. subst b'.
  apply prefix_cons_inv_2 in Hx. cbn in *. destruct (eqb b d) eqn:Ebd; [|done].
  apply eqb_prop in Ebd as ->. eapply IH; try done; intros ?; [apply Hn1|apply Hn2]; by apply prefix_cons.
Qed.

Section get_next.
Context (p junk : prefix) (Hp : prefix_ok p) (Hjunk : junk_ok junk).
Notation k := (key p).

(** The node itself: lock, [route_next], unlock. *)
Lemma next_of_found T c a q lk i l r :
  quiet_heap T → zmodels T c (N a q lk i l r) →
  (t ← route_lock_node T a;
   '(t, nx) ← route_next t a;
   match nx with
   | Some b => t ← route_unlock_node t b; Ok (t, nx)
   | None => Ok (t, None)
   end) = Ok (T, head (nodes l ++ nodes r ++ crest c).*1).
Proof.
  intros Hq H. pose proof H as (_ & _ & (Ha & _) & _). destruct (Hq a _ Ha) as (? & ? & _).
  rewrite (lock_locked T a _ Ha) by done. cbn [mbind M_bind].
  rewrite (route_next_spec T c a q lk i l r Hq H). cbn [mbind M_bind].
  destruct (head _) as [b|] eqn:Eb; [|done].
  assert (b ∈ dom (heap T)) as [nb Hb]%elem_of_dom.
  { pose proof H as (_ & _ & _ & _ & Hdom & _)%zmodels_plug. cbn [caddrs app] in Hdom.
    rewrite <-nodes_addrs, nodes_plug in Hdom. rewrite Hdom. cbn [nodes].
    apply elem_of_list_to_set. rewrite fmap_app. apply elem_of_app. right. cbn. right.
    rewrite <-app_assoc. destruct (_).*1; [done|]. injection Eb as ->. left. }
  by rewrite (unlock_locked T b nb) by eauto.
Qed.

(** The ways the loop ends at a node, by the position of its key. *)
Lemma after_found T c a q lk i l r :
  ordered (N a q lk i l r) → cordered c → ckey c `prefix_of` k → key q = k →
  after k (nodes (N a q lk i l r) ++ crest c) = head (nodes l ++ nodes r ++ crest c).*1.
Proof.
  intros (Hq & Hl & Hr & Hol & Hor) Hoc Hck He. cbn [nodes app]. rewrite <-app_assoc.
  rewrite He in *. rewrite after_skip_1 by apply klt_irrefl.
  apply after_all. rewrite !Forall_app. split_and!; [| |by apply crest_after];
    (eapply Forall_impl; [by apply nodes_below|]); cbn; intros x; apply klt_prefix.
Qed.

Lemma after_apart c a q lk i l r :
  ordered (N a q lk i l r) → cordered c → ckey c `prefix_of` k →
  ¬ key q `prefix_of` k → ¬ k `prefix_of` key q → klt (key q) k →
  after k (nodes (N a q lk i l r) ++ crest c) = head (crest c).*1.
Proof.
  intros Ho Hoc Hck Hn1 Hn2 Hlt. rewrite after_skip; [apply after_all; by apply crest_after|].
  eapply Forall_impl; [apply (nodes_below (key q)); [done|cbn; reflexivity]|]. cbn. intros x Hx.
  by apply klt_asym, (klt_apart k (key q)).
Qed.

(** Below the node: the side of [p] is searched or missing. *)
Lemma after_right c a q lk i l r :
  ordered (N a q lk i l r) → key q ++ [true] `prefix_of` k →
  after k (nodes (N a q lk i l r) ++ crest c) = after k (nodes r ++ crest c).
Proof.
  intros (Hq & Hl & Hr & Hol & Hor) Hk. cbn [nodes app]. rewrite <-app_assoc.
  rewrite after_skip_1 by (apply not_klt_prefix; etrans; [|done]; by apply prefix_app_r).
  apply after_skip. eapply Forall_impl; [by apply nodes_below|]. cbn. intros x Hx.
  by apply klt_asym, (klt_branch (key q)).
Qed.

Lemma after_left c a q lk i l r :
  ordered (N a q lk i l r) → key q ++ [false] `prefix_of` k →
  after k (nodes (N a q lk i l r) ++ crest c)
  = after k (nodes l ++ crest (Frame false a q lk i r :: c)).
Proof.
  intros _ Hk. cbn [nodes app crest right sib]. rewrite <-app_assoc.
  apply after_skip_1, not_klt_prefix. etrans; [|done]. by apply prefix_app_r.
Qed.

Lemma get_next_loop_spec fuel T c t :
  zmodels T c t → quiet_heap T → ordered t → cordered c → below (ckey c) t →
  ckey c `prefix_of` k → t ≠ E → (length (addrs t) ≤ fuel)%nat →
  get_next_loop fuel T p junk (addr t) = Ok (T, after k (nodes t ++ crest c)).
Proof.
  intros H Hq. revert fuel c H.
  induction t as [|a q lk i l IHl r IHr]; intros fuel c H Ho Hoc Hbel Hck Hne Hf; [done|].
  pose proof Ho as (Hqok & Hl & Hr & Hol & Hor). cbn [addrs length] in Hf. rewrite length_app in Hf.
  assert (route_get_subtree_next T a = Ok (head (crest c).*1)) as Esub.
  { unfold route_get_subtree_next. apply (up_loop_spec _ _ _ _ _ _ _ _ _ H).
    rewrite (zmodels_size _ _ _ H), length_app. pose proof (length_caddrs c). lia. }
  destruct fuel as [|fuel]; [lia|]. cbn [get_next_loop addr].
  rewrite (zmodels_root _ _ _ _ _ _ _ _ H). cbn [mbind M_bind np l_right].
  destruct (next_cases q p Hqok Hp) as [(Hpre & Hnk & -> & -> & -> & b & Hb & ->)|
    [(He & -> & ->)|[(Hlt & -> & -> & ->)|(Hn1 & Hn2 & ->)]]]; cbn [mbind M_bind negb Z.eqb].
  - pose proof (prefix_snoc_lookup _ _ _ Hpre Hb) as Hkb. rewrite link_bit. cbn [l_left l_right].
    pose proof (crest_after c k Hoc Hck) as Hall.
    set (f := Frame b a q lk i (if b then l else r)).
    assert (cordered (f :: c)) as Hof by (destruct b; by split_and!).
    assert (zmodels T (f :: c) (if b then r else l)) as Hzf by (destruct b; by apply zmodels_fill).
    assert (after k (nodes (N a q lk i l r) ++ crest c) = after k (nodes (if b then r else l) ++ crest (f :: c))) as ->
      by (destruct b; [exact (after_right c a q lk i l r Ho Hkb)|exact (after_left c a q lk i l r Ho Hkb)]).
    destruct b; [destruct r as [|b2 ?????] eqn:Er|destruct l as [|b2 ?????] eqn:El]; cbn [addr].
    + rewrite Esub. cbn [mbind M_bind nodes app]. by rewrite after_all.
    + rewrite <-Er in *. replace (Some b2) with (addr r) by (by rewrite Er). apply (IHr fuel (f :: c)); try done; try lia. by rewrite Er.
    + pose proof (crest_after (f :: c) k Hof Hkb) as Hall'. rewrite (after_all k) by exact Hall'.
      cbn [nodes app crest f right sib] in *. destruct r as [|b2 ?????]; cbn [addr]; [|done].
      rewrite Esub. done.
    + rewrite <-El in *. replace (Some b2) with (addr l) by (by rewrite El). apply (IHl fuel (f :: c)); try done; try lia. by rewrite El.
  - rewrite (after_found T c) by done. by apply (next_of_found T c a q lk i l r).
  - cbn [nodes app]. by rewrite after_first.
  - destruct (iter_cmp_spec q p junk Hqok Hp Hjunk) as (cmp & -> & Hcmp). cbn [mbind M_bind].
    destruct Hcmp as [[-> He]|[[-> Hlt]|[-> Hlt]]]; cbn [Z.ltb Z.compare].
    + destruct Hn1. by rewrite He.
    + rewrite Esub. cbn [mbind M_bind]. by rewrite after_apart.
    + cbn [nodes app]. by rewrite after_first.
Qed.
End get_next.

Lemma after_Some k ns a : after k ns = Some a → ∃ k', (a, k') ∈ ns ∧ klt k k'.
Proof.
  unfold after. intros Ha. destruct (filter _ ns) as [|[b k'] rest] eqn:Ef; [done|]. injection Ha as ->.
  exists k'. assert ((a, k') ∈ filter (λ x, klt k x.2) ns) as Hin by (rewrite Ef; left).
  apply list_elem_of_filter in Hin. tauto.
Qed.

Lemma nodes_heap T t a k :
  models T t → ordered t → (a, k) ∈ nodes t →
  ∃ n, heap T !! a = Some n ∧ key (np n) = k ∧ prefix_ok (np n).
Proof.
  intros (_ & _ & Ht & _) Ho. generalize dependent (cpar (A:=A) []).
  induction t as [|b p lk i l IHl r IHr]; intros par Ht Hin; cbn in *; [by apply elem_of_nil in Hin|].
  destruct Ht as (Hb & Hl & Hr), Ho as (Hp & _ & _ & Hol & Hor).
  rewrite elem_of_cons, elem_of_app in Hin. destruct Hin as [[= -> ->]|[Hin|Hin]]; eauto.
Qed.

Lemma get_next_spec T t p junk :
  models T t → ordered t → quiet_heap T → prefix_ok p → junk_ok junk →
  route_table_get_next T p junk =
    Ok (match after (key p) (nodes t) with
        | Some a => (locked T a, Some a)
        | None => (T, None)
        end).
Proof.
  intros H Ho Hq Hp Hj. unfold route_table_get_next, route_table_get_next_internal.
  assert (get_next_loop (base.size (heap T)) T p junk (top T) = Ok (T, after (key p) (nodes t))) as ->.
  { rewrite (proj1 H). cbn [ctop]. destruct t as [|a q lk i l r] eqn:Et.
    - by destruct (base.size (heap T)).
    - rewrite <-Et in *. pose proof (get_next_loop_spec p junk Hp Hj (base.size (heap T)) T [] t H Hq Ho) as Hg.
      cbn [crest] in Hg. rewrite app_nil_r in Hg. apply Hg; try done.
      + rewrite Et. apply prefix_nil.
      + apply prefix_nil.
      + by rewrite Et.
      + by rewrite (zmodels_size _ _ _ H). }
  cbn [mbind M_bind]. destruct (after (key p) (nodes t)) as [a|] eqn:Ea; [|done].
  destruct (after_Some _ _ _ Ea) as (k' & Hin & Hlt).
  destruct (nodes_heap T t a k' H Ho Hin) as (n & Hn & Hk & Hnok).
  unfold load. rewrite Hn. cbn [of_opt mbind M_bind].
  destruct (iter_cmp_spec (np n) p junk Hnok Hp Hj) as (cmp & -> & Hcmp). cbn [mbind M_bind]. rewrite Hk in Hcmp.
  destruct Hcmp as [[-> He]|[[-> Hlt']|[-> _]]].
  - subst k'. rewrite He in Hlt. by apply klt_irrefl in Hlt.
  - by apply klt_asym in Hlt'.
  - destruct (Hq a n Hn) as (? & ? & _). cbn [Z.ltb Z.compare]. by rewrite (lock_locked T a n Hn).
Qed.

(** ** Bulk deletion *)

(** The memory around the focus, whatever [top] is. *)
Definition fmem T c t : Prop :=
  is_ctx (heap T) c (addr t) ∧ is_tree (heap T) (cpar c) t ∧
  NoDup (caddrs c ++ addrs t) ∧
  dom (heap T) = list_to_set (caddrs c ++ addrs t) ∧
  count T = u64 (Z.of_nat (length (caddrs c ++ addrs t))).

Lemma fmem_fill T f c t : fmem T (f :: c) t ↔ fmem T c (fill f t).
Proof.
  unfold fmem. rewrite (list_to_set_perm_L _ _ (caddrs_fill f c t)).
  rewrite (caddrs_fill f c t), is_tree_fill, addr_fill. cbn [is_ctx cpar]. tauto.
Qed.

Lemma fmem_root T c a p lk i l r :
  fmem T c (N a p lk i l r) → load T a = Ok (RNode p (cpar c) (addr l) (addr r) lk i).
Proof. intros (_ & (Ha & _) & _). unfold load. by rewrite Ha. Qed.

Lemma store_ok T a n g :
  heap T !! a = Some n → store T a g = Ok (with_heap T (<[a:=g n]> (heap T))).
Proof. intros Ha. unfold store, load. by rewrite Ha. Qed.

(** Freeing a leaf. *)
Lemma free_leaf fuel T c a p lk i :
  fmem T c (N a p lk i E E) →
  ∃ T', fmem T' c E ∧
    free_loop (S fuel) T (Some a) =
      match c with [] => Ok T' | f :: _ => free_loop fuel T' (Some (fa f)) end.
Proof.
  intros H. cbn [free_loop]. rewrite (fmem_root _ _ _ _ _ _ _ _ H). cbn [mbind M_bind l_left l_right addr parent].
  destruct H as (Hc & (Ha & _) & Hnd & Hdom & Hn). cbn [addrs app] in *.
  apply NoDup_app in Hnd as (Hndc & Hnda & _).
  assert (a ∉ caddrs c) as Hac by (intros Hin; apply (Hnda a Hin); left).
  rewrite (store_ok (set_count T (u64 (count T - 1))) a _ _ Ha). cbn [mbind M_bind].
  unfold route_node_destroy, load. cbn [heap with_heap]. rewrite lookup_insert_eq. cbn [of_opt mbind M_bind].
  unfold with_heap, set_count; cbn [heap top count]. rewrite delete_insert_eq.
  set (T1 := Table (delete a (heap T)) (top T) (u64 (count T - 1))).
  assert (is_ctx (heap T1) c (Some a)) as Hc1 by (by apply is_ctx_delete).
  assert (dom (heap T1) = list_to_set (caddrs c)) as Hd1.
  { unfold T1; cbn. rewrite dom_delete_L, Hdom. set_solver. }
  assert (count T1 = u64 (Z.of_nat (length (caddrs c)))) as Hn1.
  { unfold T1; cbn [count]. rewrite Hn, length_app, Nat.add_comm. apply u64_pred. }
  destruct c as [|f c]; cbn [cpar].
  - exists T1. split; [|done]. by unfold fmem.
  - destruct (relink T1 f c a None Hc1) as (T2 & E2 & -> & Hc2); [|done|].
    { cbn in Hac. rewrite elem_of_cons, elem_of_app in Hac. tauto. }
    unfold cut in E2. rewrite E2. cbn [mbind M_bind]. eexists. split; [|done].
    unfold fmem. cbn [addrs addr]. rewrite app_nil_r. split_and!; try done.
    cbn [heap with_heap]. rewrite dom_insert_L, Hd1. cbn. set_solver.
Qed.

Lemma free_loop_spec t c fuel T :
  fmem T c t → t ≠ E →
  ∃ T', fmem T' c E ∧
    free_loop (2 * length (addrs t) - 1 + fuel) T (addr t) =
      match c with [] => Ok T' | f :: _ => free_loop fuel T' (Some (fa f)) end.
Proof.
  revert c fuel T. induction t as [|a p lk i l IHl r IHr]; intros c fuel T H Hne; [done|]. clear Hne.
  (* the left subtree, then the right one, then the node *)
  assert (∀ fuel, ∃ T1, fmem T1 c (N a p lk i E r) ∧
    free_loop (2 * length (addrs l) + fuel) T (Some a) = free_loop fuel T1 (Some a)) as Hleft.
  { intros fuel'. destruct l as [|b ?????] eqn:El; [by exists T|]. rewrite <-El in *.
    destruct (IHl (Frame false a p lk i r :: c) fuel' T) as (T1 & H1 & E1); [by apply fmem_fill|by rewrite El|].
    exists T1. split; [by apply fmem_fill in H1|].
    replace (2 * length (addrs l) + fuel')%nat with (S (2 * length (addrs l) - 1 + fuel'))
      by (rewrite El; cbn; lia).
    cbn [free_loop]. rewrite (fmem_root _ _ _ _ _ _ _ _ H). cbn [mbind M_bind l_left]. rewrite El at 1.
    cbn [addr]. rewrite El in E1. cbn [addr] in E1. by rewrite El, E1. }
  assert (∀ fuel T, fmem T c (N a p lk i E r) → ∃ T1, fmem T1 c (N a p lk i E E) ∧
    free_loop (2 * length (addrs r) + fuel) T (Some a) = free_loop fuel T1 (Some a)) as Hright.
  { clear T H Hleft. intros fuel' T H. destruct r as [|b ?????] eqn:Er; [by exists T|]. rewrite <-Er in *.
    destruct (IHr (Frame true a p lk i E :: c) fuel' T) as (T1 & H1 & E1); [by apply fmem_fill|by rewrite Er|].
    exists T1. split; [by apply fmem_fill in H1|].
    replace (2 * length (addrs r) + fuel')%nat with (S (2 * length (addrs r) - 1 + fuel'))
      by (rewrite Er; cbn; lia).
    cbn [free_loop]. rewrite (fmem_root _ _ _ _ _ _ _ _ H). cbn [mbind M_bind l_left l_right addr].
    rewrite Er at 1. cbn [addr]. rewrite Er in E1. cbn [addr] in E1. by rewrite Er, E1. }
  destruct (Hleft (2 * length (addrs r) + S fuel)%nat) as (T1 & H1 & E1).
  destruct (Hright (S fuel) T1 H1) as (T2 & H2 & E2).
  destruct (free_leaf fuel T2 c a p lk i H2) as (T3 & H3 & E3).
  exists T3. split; [done|]. rewrite <-E3, <-E2, <-E1. cbn [addrs addr length]. f_equal. rewrite length_app. lia.
Qed.

Lemma free_spec T t :
  models T t → Z.of_nat (length (addrs t)) < 2 ^ 64 →
  ∃ T', route_table_free T = Ok T' ∧ heap T' = ∅.
Proof.
  intros H Hlen. unfold route_table_free. rewrite (zmodels_size _ _ _ H), (proj1 H). cbn [ctop caddrs app].
  destruct t as [|a p lk i l r] eqn:Et.
  - exists T. destruct H as (_ & _ & _ & _ & Hdom & Hn). cbn in *. rewrite Hn. split; [done|].
    by apply dom_empty_iff_L.
  - rewrite <-Et in *. destruct (free_loop_spec t [] 1 T) as (T' & (_ & _ & _ & Hdom & Hn) & E').
    + destruct H as (_ & H). exact H.
    + by rewrite Et.
    + replace (2 * length (addrs t))%nat with (2 * length (addrs t) - 1 + 1)%nat by (rewrite Et; cbn; lia).
      rewrite E'. cbn [mbind M_bind]. cbn in Hn, Hdom. rewrite Hn. exists T'. split; [done|].
      by apply dom_empty_iff_L.
Qed.

(** ** Properties *)

Lemma after_least (ns : list (loc * list bool)) k a :
  StronglySorted klt ns.*2 → after k ns = Some a →
  ∃ k', (a, k') ∈ ns ∧ klt k k' ∧ ∀ b kb, (b, kb) ∈ ns → klt k kb → kb = k' ∨ klt k' kb.
Proof.
  unfold after. induction ns as [|[b kb] ns IH]; intros Hs Ha; [done|]. cbn in Hs.
  apply StronglySorted_inv in Hs as [Hs Hall]. destruct (decide (klt k kb)) as [Hk|Hk].
  - rewrite filter_cons_True in Ha by done. injection Ha as ->. exists kb.
    split; [left|]. split; [done|]. intros b' kb' [[= -> ->]|Hin]%elem_of_cons _; [by left|right].
    rewrite Forall_forall in Hall. apply Hall, list_elem_of_fmap. by exists (b', kb').
  - rewrite filter_cons_False in Ha by done. destruct (IH Hs Ha) as (k' & Hin & Hk' & Hmin).
    exists k'. split; [by right|]. split; [done|].
    intros b' kb' [[= -> ->]|Hin']%elem_of_cons Hlt; [done|by eapply Hmin].
Qed.

Lemma after_None k ns b kb : after k ns = None → (b, kb) ∈ ns → ¬ klt k kb.
Proof.
  unfold after. intros Ha Hin Hlt.
  assert ((b, kb) ∈ filter (λ x, klt k x.2) ns) as Hf by (by apply list_elem_of_filter).
  destruct (filter _ ns); [by apply elem_of_nil in Hf|done].
Qed.

Lemma heap_nodes T t a n :
  models T t → heap T !! a = Some n → (a, key (np n)) ∈ nodes t.
Proof.
  intros H Ha. destruct (models_focus T t a H) as (c & p & lk & i & l & r & -> & Hz); [by eapply elem_of_dom_2|].
  destruct Hz as (_ & _ & (Ha' & _) & _). rewrite Ha' in Ha. injection Ha as <-.
  rewrite nodes_plug. apply elem_of_app. right. left.
Qed.

(** The first node after a key of the table is the one [route_next] moves to. *)
Lemma after_focus c a p lk i l r :
  ordered (plug c (N a p lk i l r)) →
  after (key p) (nodes (plug c (N a p lk i l r))) = head (nodes l ++ nodes r ++ crest c).*1.
Proof.
  intros Ho. pose proof (ordered_sorted _ Ho) as Hs. rewrite <-nodes_keys, nodes_plug in *.
  rewrite fmap_app in Hs. apply StronglySorted_app in Hs as (Hlt & _ & Hs). rewrite after_skip.
  - cbn [nodes app]. rewrite after_skip_1, <-app_assoc by apply klt_irrefl. apply after_all.
    cbn [nodes app fmap list_fmap snd] in Hs. apply StronglySorted_inv in Hs as [_ Hs].
    rewrite Forall_fmap, <-app_assoc in Hs. exact Hs.
  - apply Forall_forall. intros x Hx. apply klt_asym, Hlt; [by apply list_elem_of_fmap; exists x|].
    cbn. left.
Qed.

(** C22. The loop [for (rn = route_top (table); rn; rn = route_next (rn))] over
    an unchanging table ends, visits every node of the table once, in strictly
    increasing key order, among them every key in use, and leaves the table as
    it was: the lock that each step takes and drops has no net effect, also on
    the branching nodes that nobody holds. *)
Theorem route_table_iteration T (m : gmap (list bool) (loc * Z * option A)) :
  refines T m → room m →
  ∃ visited ks, traverse_all T = Ok (T, visited) ∧
    NoDup visited ∧ (∀ a, a ∈ visited ↔ a ∈ dom (heap T)) ∧
    Forall2 (λ a k, ∃ n, heap T !! a = Some n ∧ key (np n) = k) visited ks ∧
    StronglySorted klt ks ∧ ∀ k e, m !! k = Some e → k ∈ ks.
Proof.
  intros HT Hroom. pose proof (refines_quiet_heap T m HT Hroom) as Hq.
  destruct HT as (t & H & Ho & _ & <-). exists (addrs t), (keys t).
  pose proof H as (Htop & _ & _ & Hnd & Hdom & _). cbn [ctop caddrs app] in *. split_and!.
  - pose proof (traverse_spec (base.size (heap T)) T t [] (addrs t) H Hq eq_refl) as Ht.
    rewrite (zmodels_size _ _ _ H) in Ht at 1. specialize (Ht ltac:(done)).
    unfold traverse_all, route_top. rewrite Htop. destruct t as [|a p lk i l r]; cbn [addr addrs head] in *; [done|].
    pose proof H as (_ & _ & (Ha & _) & _). destruct (Hq a _ Ha) as (? & ? & _).
    rewrite (lock_locked T a _ Ha) by done. exact Ht.
  - done.
  - intros a. rewrite Hdom. set_solver.
  - rewrite <-nodes_addrs, <-nodes_keys. apply Forall2_fmap, Forall_Forall2_diag, Forall_forall.
    intros [a k] Hin. destruct (nodes_heap T t a k H Ho Hin) as (n & ? & ? & _). by exists n.
  - by apply ordered_sorted.
  - intros k e Hk%abs_lookup; [|done]. eapply elem_of_sublist; [|apply held_keys].
    apply list_elem_of_fmap. by exists (k, e).
Qed.

(** [route_table_prefix_iter_cmp] never fails an assertion and computes the
    iteration order: 0 for equal keys, -1 when the first key comes before the
    second in the order of the traversal, 1 when it comes after; swapping the
    arguments negates the result. *)
Theorem route_table_prefix_iter_cmp_correct p1 p2 junk :
  prefix_ok p1 → prefix_ok p2 → junk_ok junk →
  ∃ cmp, route_table_prefix_iter_cmp p1 p2 junk = Ok cmp ∧
    route_table_prefix_iter_cmp p2 p1 junk = Ok (- cmp) ∧
    (cmp = 0 ↔ key p1 = key p2) ∧ (cmp = -1 ↔ klt (key p1) (key p2)) ∧
    (cmp = 1 ↔ klt (key p2) (key p1)).
Proof.
  intros H1 H2 Hj.
  destruct (iter_cmp_spec p1 p2 junk H1 H2 Hj) as (c1 & E1 & S1).
  destruct (iter_cmp_spec p2 p1 junk H2 H1 Hj) as (c2 & E2 & S2). exists c1. rewrite E1, E2.
  pose proof (klt_irrefl (key p1)). pose proof (klt_asym (key p1) (key p2)).
  destruct S1 as [[-> e1]|[[-> e1]|[-> e1]]], S2 as [[-> e2]|[[-> e2]|[-> e2]]];
    rewrite ?e1, ?e2 in *; split_and!; try done; try (split; intros; (done || congruence || tauto));
    try tauto; exfalso; try (by rewrite e2 in *; tauto); tauto.
Qed.

(** [route_table_get_next] returns the first node after [p] in iteration
    order, whether [p] is in the table or not, with one more lock on it, or null
    if there is none; nothing else of the table changes. *)
Theorem route_table_get_next_correct T (m : gmap (list bool) (loc * Z * option A)) p junk :
  refines T m → room m → prefix_ok p → junk_ok junk →
  (route_table_get_next T p junk = Ok (T, None) ∧
     ∀ b nb, heap T !! b = Some nb → ¬ klt (key p) (key (np nb))) ∨
  (∃ a n, route_table_get_next T p junk
          = Ok (with_heap T (<[a:=set_lock n (lock n + 1)]> (heap T)), Some a) ∧
     heap T !! a = Some n ∧ klt (key p) (key (np n)) ∧
     ∀ b nb, heap T !! b = Some nb → klt (key p) (key (np nb)) →
       key (np nb) = key (np n) ∨ klt (key (np n)) (key (np nb))).
Proof.
  intros HT Hroom Hp Hj. pose proof (refines_quiet_heap T m HT Hroom) as Hq.
  destruct HT as (t & H & Ho & _ & <-). rewrite (get_next_spec T t p junk H Ho Hq Hp Hj).
  pose proof (ordered_sorted t Ho) as Hs. rewrite <-nodes_keys in Hs.
  destruct (after (key p) (nodes t)) as [a|] eqn:Ea.
  - right. destruct (after_least _ _ _ Hs Ea) as (k' & Hin & Hlt & Hmin).
    destruct (nodes_heap T t a k' H Ho Hin) as (n & Hn & <- & _). exists a, n.
    unfold locked. rewrite (alter_as_insert _ _ _ _ Hn). split_and!; try done.
    intros b nb Hb. by eapply Hmin, heap_nodes.
  - left. split; [done|]. intros b nb Hb. eapply after_None; [done|]. by eapply heap_nodes.
Qed.

(** [route_table_free] terminates, frees every node of the table exactly
    once and never touches a freed one, and its final assertion on the node
    count holds. *)
Theorem route_table_free_correct T (m : gmap (list bool) (loc * Z * option A)) :
  refines T m → Z.of_nat (base.size (heap T)) < 2 ^ 64 →
  ∃ T', route_table_free T = Ok T' ∧ heap T' = ∅.
Proof.
  intros (t & H & _) Hlen. rewrite (zmodels_size _ _ _ H) in Hlen. by apply (free_spec T t).
Qed.

(** Pausing an iteration and resuming it on an unchanged table has no effect
    on the iteration: [route_table_iter_pause] releases the current node, and
    the next call of [route_table_iter_next] gives the same node, and the same
    table, as it would have without the pause. *)
Theorem route_table_iter_pause_resume T (m : gmap (list bool) (loc * Z * option A)) a n it junk :
  refines T m → room m → heap T !! a = Some n → inet_ok (np n) →
  state it = ITERATING → current it = Some a → junk_ok (pause_prefix it) → junk_ok junk →
  ∃ paused T1 res it1 it1',
    route_table_iter_pause (locked T a) it = Ok (T, paused) ∧ state paused = PAUSED ∧
    route_table_iter_next T paused junk = Ok (T1, it1, res) ∧
    route_table_iter_next (locked T a) it junk = Ok (T1, it1', res) ∧
    state it1 = state it1' ∧ current it1 = current it1'.
Proof.
  intros HT Hroom Ha Hi Est Ecur [Lj Bj] Hj. pose proof (refines_quiet_heap T m HT Hroom) as Hq.
  destruct HT as (t & H & Ho & _ & <-).
  destruct (models_focus T t a H) as (c & p & lk & i & l & r & -> & Hz); [by eapply elem_of_dom_2|].
  pose proof (zmodels_locked _ _ _ _ _ _ _ _ Hz) as Hzl.
  assert (np n = p) as Enp by (destruct Hz as (_ & _ & (Ha' & _) & _); rewrite Ha' in Ha; by injection Ha as <-).
  destruct (prefix_copy_key (pause_prefix it) (np n) Lj Bj Hi) as (q & Eq & Hqok & Hkq & _).
  unfold route_table_iter_pause, route_table_iter_next. rewrite Est, Ecur, (zmodels_root _ _ _ _ _ _ _ _ Hzl).
  cbn [mbind M_bind np]. rewrite <-Enp, Eq. cbn [mbind M_bind]. rewrite (unlock_locked T a n) by eauto.
  cbn [mbind M_bind]. exists (TableIter PAUSED None q). cbn [state current pause_prefix].
  rewrite (get_next_spec T _ q junk H Ho Hq Hqok Hj), (route_next_spec T c a p lk i l r Hq Hz).
  rewrite Hkq, Enp, after_focus by done. cbn [mbind M_bind].
  destruct (head _) as [b|]; eexists _, _, _, _; split_and!; done.
Qed.
End iter.

(** 10.0.0.0/8, 10.1.2.0/24 and 192.0.2.0/24 in one table: three nodes and the
    branching node that joins the last one. *)
Definition net_doc : prefix := Prefix AF_INET 24 ([192; 0; 2] ++ replicate 13 0).

Lemma three_nodes :
  ∃ T a b c m, refines (A:=Z) T m ∧
    m = <[key net_doc := (c, 1, None)]> (<[key net24 := (b, 1, None)]> {[key net8 := (a, 1, None)]}).
Proof.
  destruct (get_refines (A:=Z) route_table_init ∅ net8 init_refines) as (T1 & a & _ & H1);
    [decide_by_compute|done|].
  rewrite lookup_empty in H1.
  destruct (get_refines T1 _ net24 H1) as (T2 & b & _ & H2); [decide_by_compute| |].
  { intros ??? Hk. rewrite lookup_insert_ne in Hk by (vm_compute; congruence). by rewrite lookup_empty in Hk. }
  rewrite lookup_insert_ne in H2 by (vm_compute; congruence).
  destruct (get_refines T2 _ net_doc H2) as (T3 & c & _ & H3); [decide_by_compute| |].
  { intros ??? Hk. rewrite !lookup_insert_ne in Hk by (vm_compute; congruence). by rewrite lookup_empty in Hk. }
  rewrite !lookup_insert_ne in H3 by (vm_compute; congruence).
  eexists T3, a, b, c, _. split; [exact H3|done].
Qed.

Lemma three_room (a b c : loc) :
  room (A:=Z) (<[key net_doc := (c, 1, None)]> (<[key net24 := (b, 1, None)]> {[key net8 := (a, 1, None)]})).
Proof.
  intros k x lk i Hk. rewrite !lookup_insert_Some, lookup_singleton_Some in Hk.
  destruct Hk as [[_ Hk]|[_ [[_ Hk]|[_ [_ Hk]]]]]; by injection Hk as _ <- _.
Qed.

Lemma route_table_iteration_witness :
  ∃ T m, refines (A:=Z) T m ∧ is_Some (m !! key net_doc) ∧
    ∃ visited ks, traverse_all T = Ok (T, visited) ∧
      NoDup visited ∧ (∀ a, a ∈ visited ↔ a ∈ dom (heap T)) ∧
      Forall2 (λ a k, ∃ n, heap T !! a = Some n ∧ key (np n) = k) visited ks ∧
      StronglySorted klt ks ∧ ∀ k e, m !! k = Some e → k ∈ ks.
Proof.
  destruct three_nodes as (T & a & b & c & m & HT & Hm). exists T, m. split; [exact HT|].
  split; [rewrite Hm, lookup_insert_eq; by eexists|].
  apply (route_table_iteration T m HT). rewrite Hm. apply three_room.
Defined.

Lemma route_table_prefix_iter_cmp_correct_witness :
  prefix_ok net8 ∧ prefix_ok net24 ∧ junk_ok prefix_new ∧
  ∃ cmp, route_table_prefix_iter_cmp net8 net24 prefix_new = Ok cmp ∧
    route_table_prefix_iter_cmp net24 net8 prefix_new = Ok (- cmp) ∧
    (cmp = 0 ↔ key net8 = key net24) ∧ (cmp = -1 ↔ klt (key net8) (key net24)) ∧
    (cmp = 1 ↔ klt (key net24) (key net8)).
Proof.
  split; [exact net8_ok|]. split; [exact net24_ok|]. split; [exact prefix_new_ok|].
  apply (route_table_prefix_iter_cmp_correct net8 net24 prefix_new net8_ok net24_ok prefix_new_ok).
Defined.

Lemma route_table_get_next_correct_witness :
  ∃ T m, refines (A:=Z) T m ∧
    ((route_table_get_next T net8 prefix_new = Ok (T, None) ∧
       ∀ b nb, heap T !! b = Some nb → ¬ klt (key net8) (key (np nb))) ∨
     (∃ a n, route_table_get_next T net8 prefix_new
             = Ok (with_heap T (<[a:=set_lock n (lock n + 1)]> (heap T)), Some a) ∧
       heap T !! a = Some n ∧ klt (key net8) (key (np n)) ∧
       ∀ b nb, heap T !! b = Some nb → klt (key net8) (key (np nb)) →
         key (np nb) = key (np n) ∨ klt (key (np n)) (key (np nb)))).
Proof.
  destruct three_nodes as (T & a & b & c & m & HT & Hm). exists T, m. split; [exact HT|].
  apply (route_table_get_next_correct T m net8 prefix_new HT);
    [rewrite Hm; apply three_room|exact net8_ok|exact prefix_new_ok].
Defined.

(** A table with the one node 10.0.0.0/8, evaluated. *)
Definition table1 : table Z :=
  match route_node_get route_table_init net8 with Ok (T, _) => T | Fault _ => route_table_init end.
Definition node1 : rnode Z := RNode net8 None None None 1 None.

Lemma table1_refines : refines table1 {[key net8 := (1%positive, 1, None)]}.
Proof.
  assert (route_node_get (A:=Z) route_table_init net8 = Ok (table1, 1%positive)) as E1 by (vm_compute; reflexivity).
  destruct (get_refines (A:=Z) route_table_init ∅ net8 init_refines) as (T1 & a & E2 & H1);
    [decide_by_compute|done|].
  rewrite E1 in E2. injection E2 as <- <-. exact H1.
Qed.

Lemma route_table_free_correct_witness :
  heap table1 ≠ ∅ ∧ Z.of_nat (base.size (heap table1)) < 2 ^ 64 ∧
  ∃ T', route_table_free table1 = Ok T' ∧ heap T' = ∅.
Proof.
  assert (Z.of_nat (base.size (heap table1)) < 2 ^ 64) as H by (vm_compute; reflexivity).
  split; [vm_compute; congruence|]. split; [exact H|].
  exact (route_table_free_correct table1 _ table1_refines H).
Defined.

Lemma route_table_iter_pause_resume_witness :
  let it := TableIter ITERATING (Some 1%positive) prefix_new in
  heap table1 !! 1%positive = Some node1 ∧
  ∃ paused T1 res it1 it1',
    route_table_iter_pause (locked table1 1) it = Ok (table1, paused) ∧ state paused = PAUSED ∧
    route_table_iter_next table1 paused prefix_new = Ok (T1, it1, res) ∧
    route_table_iter_next (locked table1 1) it prefix_new = Ok (T1, it1', res) ∧
    state it1 = state it1' ∧ current it1 = current it1'.
Proof.
  intros it. assert (heap table1 !! 1%positive = Some node1) as Ha by (vm_compute; reflexivity).
  split; [exact Ha|].
  apply (route_table_iter_pause_resume table1 {[key net8 := (1%positive, 1, None)]} 1%positive node1 it
    prefix_new table1_refines).
  - intros k b lk i Hk%lookup_singleton_Some. destruct Hk as [_ Hk]. injection Hk as _ <- _. reflexivity.
  - exact Ha.
  - decide_by_compute.
  - reflexivity.
  - reflexivity.
  - exact prefix_new_ok.
  - exact prefix_new_ok.
Defined.
