(* ===== verification/Hash.v ===== *)
(** Hash tables and interning: lib/hash.c, lib/hash.h.

    A chain of [struct hash_backet] is a list; the data pointers are of an
    arbitrary type [D].  The hash and comparison functions of a table are
    arguments of the operations that call them ([hash_key], [hash_cmp]): they
    read the objects the data pointers point to.

    The second part is the pattern by which bgpd shares attribute values: an
    object with a reference count is interned in a hash table, so that equal
    values are one object. *)
From S2P Require Import Prelude.
Open Scope Z_scope.

Definition HASH_INITIAL_SIZE : Z := 256.
Definition HASH_THRESHOLD : Z := 10.

Section hash.
Context {D : Type}.

Record hash_backet := Backet { bkey : Z; bdata : D }.

Record hash := Hash {
  index : list (list hash_backet);
  hsize : Z;
  no_expand : bool;
  hcount : Z;
}.

Definition hash_create_size (size : Z) : M hash :=
  assert! (Z.land size (u32 (size - 1)) =? 0) ;;
  Ok (Hash (replicate (Z.to_nat size) []) size false 0).

Definition hash_create : M hash := hash_create_size HASH_INITIAL_SIZE.

Definition hash_alloc_intern (arg : D) : option D := Some arg.

(** [key & (size - 1)] *)
Definition slot (key size : Z) : Z := Z.land key (u32 (size - 1)).

(** [backet->next = index[h]; index[h] = backet] *)
Definition push_backet (idx : list (list hash_backet)) (h : Z) (b : hash_backet)
    : M (list (list hash_backet)) :=
  chain ← rd idx h;
  wr idx h (b :: chain).

(** One chain of the old index into the new one. *)
Fixpoint rehash (new_size : Z) (chain : list hash_backet) (new_index : list (list hash_backet))
    : M (list (list hash_backet)) :=
  match chain with
  | [] => Ok new_index
  | hb :: chain' =>
      new_index ← push_backet new_index (slot (bkey hb) new_size) hb;
      rehash new_size chain' new_index
  end.

Fixpoint rehash_all (new_size : Z) (idx : list (list hash_backet)) (new_index : list (list hash_backet))
    : M (list (list hash_backet)) :=
  match idx with
  | [] => Ok new_index
  | chain :: idx' =>
      new_index ← rehash new_size chain new_index;
      rehash_all new_size idx' new_index
  end.

(** [if (++len > HASH_THRESHOLD/2) ++losers; if (len >= HASH_THRESHOLD)
    no_expand = 1;] along one chain. *)
Fixpoint count_losers (chain : list hash_backet) (len losers : Z) (noexp : bool) : Z * bool :=
  match chain with
  | [] => (losers, noexp)
  | _ :: chain' =>
      let len := len + 1 in
      count_losers chain' len
        (if HASH_THRESHOLD / 2 <? len then losers + 1 else losers)
        (noexp || (HASH_THRESHOLD <=? len))
  end.

Fixpoint count_all_losers (idx : list (list hash_backet)) (losers : Z) (noexp : bool) : Z * bool :=
  match idx with
  | [] => (losers, noexp)
  | chain :: idx' =>
      let '(losers, noexp) := count_losers chain 0 losers noexp in
      count_all_losers idx' losers noexp
  end.

Definition hash_expand (h : hash) : M hash :=
  let new_size := u32 (hsize h * 2) in
  new_index ← rehash_all new_size (index h) (replicate (Z.to_nat new_size) []);
  let '(losers, noexp) := count_all_losers new_index 0 (no_expand h) in
  Ok (Hash new_index new_size (noexp || (hcount h / 2 <? losers)) (hcount h)).

Section functions.
Context (hash_key : D → Z) (hash_cmp : D → D → bool).

(** The search of a chain: the data found, or the length of the chain. *)
Fixpoint find_backet (chain : list hash_backet) (key : Z) (data : D) (len : Z) : D + Z :=
  match chain with
  | [] => inr len
  | b :: chain' =>
      if (bkey b =? key) && hash_cmp (bdata b) data then inl (bdata b)
      else find_backet chain' key data (len + 1)
  end.

Definition hash_get (h : hash) (data : D) (alloc_func : option (D → option D)) : M (hash * option D) :=
  let key := hash_key data in
  chain ← rd (index h) (slot key (hsize h));
  match find_backet chain key data 0 with
  | inl d => Ok (h, Some d)
  | inr len =>
      match alloc_func with
      | None => Ok (h, None)
      | Some alloc =>
          match alloc data with
          | None => Ok (h, None)
          | Some newdata =>
              h ← (if (HASH_THRESHOLD <? len) && negb (no_expand h) then hash_expand h else Ok h);
              idx ← push_backet (index h) (slot key (hsize h)) (Backet key newdata);
              Ok (Hash idx (hsize h) (no_expand h) (u64 (hcount h + 1)), Some newdata)
          end
      end
  end.

Definition hash_lookup (h : hash) (data : D) : M (option D) :=
  '(_, r) ← hash_get h data None;
  Ok r.

(** The search of [hash_release]: the data and the chain without its backet. *)
Fixpoint take_backet (chain : list hash_backet) (key : Z) (data : D) : option (D * list hash_backet) :=
  match chain with
  | [] => None
  | b :: chain' =>
      if (bkey b =? key) && hash_cmp (bdata b) data then Some (bdata b, chain')
      else '(d, rest) ← take_backet chain' key data; Some (d, b :: rest)
  end.

Definition hash_release (h : hash) (data : D) : M (hash * option D) :=
  let key := hash_key data in
  let i := slot key (hsize h) in
  chain ← rd (index h) i;
  match take_backet chain key data with
  | Some (d, rest) =>
      idx ← wr (index h) i rest;
      Ok (Hash idx (hsize h) (no_expand h) (u64 (hcount h - 1)), Some d)
  | None => Ok (h, None)
  end.
End functions.

(** [func] sees the backets chain by chain; it may release the backet it is
    given, since the next one is fetched before the call. *)
Fixpoint iterate_chain {S} (func : S → hash_backet → M S) (s : S) (chain : list hash_backet) : M S :=
  match chain with
  | [] => Ok s
  | hb :: chain' => s ← func s hb; iterate_chain func s chain'
  end.

Fixpoint hash_iterate {S} (func : S → hash_backet → M S) (s : S) (idx : list (list hash_backet)) : M S :=
  match idx with
  | [] => Ok s
  | chain :: idx' => s ← iterate_chain func s chain; hash_iterate func s idx'
  end.

(** [hash_clean]: the data passed to [free_func], in order, and the emptied
    table. *)
Fixpoint clean_index (idx : list (list hash_backet)) (cnt : Z) : list D * Z :=
  match idx with
  | [] => ([], cnt)
  | chain :: idx' =>
      let cnt := foldl (λ n _, u64 (n - 1)) cnt chain in
      let '(freed, cnt) := clean_index idx' cnt in
      ((bdata <$> chain) ++ freed, cnt)
  end.

Definition hash_clean (h : hash) : hash * list D :=
  let '(freed, cnt) := clean_index (index h) (hcount h) in
  (Hash ((λ _, []) <$> index h) (hsize h) (no_expand h) cnt, freed).

End hash.
Arguments hash_backet : clear implicits.
Arguments hash : clear implicits.

(** [string_hash_make] on the bytes of a string; a [char] is signed. *)
Fixpoint string_hash_make (str : list Z) (acc : Z) : Z :=
  match str with
  | [] => acc
  | c :: str' =>
      let sc := if 128 <=? c then c - 256 else c in
      string_hash_make str' (Z.lxor (u32 (acc * 33)) (u32 sc))
  end.

(** ** Interning

    [struct aspath], [struct community], [struct ecommunity], [struct cluster],
    [struct transit] and [struct tarpan] are shared the same way: an object in
    memory ([Obj]: reference count and contents) is put into a hash table whose
    hash and comparison functions read the contents.  [intern] and [unintern]
    are the bodies the six modules have in common. *)
Notation loc := positive.

Section intern.
Context {V : Type} (value_key : V → Z) (value_cmp : V → V → bool).

Record obj := Obj { refcnt : Z; val : V }.

Record pool := Pool {
  objs : gmap loc obj;
  table : hash loc;
}.

Definition load_obj (P : pool) (a : loc) : M obj := of_opt (objs P !! a).

(** The functions given to [hash_create]: they dereference the data pointers;
    a dangling pointer has no key. *)
Definition key_at (m : gmap loc obj) (a : loc) : Z :=
  match m !! a with Some o => value_key (val o) | None => 0 end.
Definition cmp_at (m : gmap loc obj) (a b : loc) : bool :=
  match m !! a, m !! b with Some x, Some y => value_cmp (val x) (val y) | _, _ => false end.

Definition set_refcnt (P : pool) (a : loc) (n : Z) : M pool :=
  o ← load_obj P a;
  Ok (Pool (<[a:=Obj n (val o)]> (objs P)) (table P)).

Definition free_obj (P : pool) (a : loc) : M pool :=
  _ ← load_obj P a;
  Ok (Pool (delete a (objs P)) (table P)).

(** [assert (refcnt == 0); find = hash_get (table, a, hash_alloc_intern);
    if (find != a) free (a); find->refcnt++; return find;] *)
Definition intern (P : pool) (a : loc) : M (pool * loc) :=
  o ← load_obj P a;
  assert! (refcnt o =? 0) ;;
  '(h, find) ← hash_get (key_at (objs P)) (cmp_at (objs P)) (table P) a (Some hash_alloc_intern);
  match find with
  | None => Fault Undefined
  | Some b =>
      let P := Pool (objs P) h in
      P ← (if decide (b = a) then Ok P else free_obj P a);
      f ← load_obj P b;
      P ← set_refcnt P b (u64 (refcnt f + 1));
      Ok (P, b)
  end.

(** [if (a->refcnt) a->refcnt--; if (a->refcnt == 0) { ret = hash_release
    (table, a); assert (ret != NULL); free (a); a = NULL; }]; the result is the
    caller's pointer afterwards. *)
Definition unintern (P : pool) (a : loc) : M (pool * option loc) :=
  o ← load_obj P a;
  P ← (if negb (refcnt o =? 0) then set_refcnt P a (refcnt o - 1) else Ok P);
  o ← load_obj P a;
  if refcnt o =? 0 then
    '(h, ret) ← hash_release (key_at (objs P)) (cmp_at (objs P)) (table P) a;
    assert! bool_decide (is_Some ret) ;;
    P ← free_obj (Pool (objs P) h) a;
    Ok (P, None)
  else Ok (P, Some a).
End intern.
Arguments obj : clear implicits.
Arguments pool : clear implicits.

(** ** The table as a collection *)
Section collection.
Context {D : Type}.
Implicit Types (h : hash D) (idx : list (list (hash_backet D))) (b : hash_backet D).

Definition elems h : list (hash_backet D) := concat (index h).
Definition datas h : list D := bdata <$> elems h.

(** Every backet is in the chain its key selects. *)
Definition placed (size : Z) idx : Prop :=
  ∀ i chain, idx !! i = Some chain → Forall (λ b, slot (bkey b) size = Z.of_nat i) chain.

Definition hash_ok (hash_key : D → Z) h : Prop :=
  (∃ n, 0 ≤ n ≤ 31 ∧ hsize h = 2 ^ n) ∧
  Z.of_nat (length (index h)) = hsize h ∧
  placed (hsize h) (index h) ∧
  Forall (λ b, bkey b = hash_key (bdata b)) (elems h) ∧
  hcount h = u64 (Z.of_nat (length (elems h))).

Lemma slot_mod key n : 0 ≤ n ≤ 31 → slot key (2 ^ n) = key mod 2 ^ n.
Proof.
  intros Hn. unfold slot. rewrite <-Z.land_ones by lia. f_equal. rewrite Z.ones_equiv.
  unfold u32. rewrite Z.mod_small; [lia|].
  assert (0 < 2 ^ n) by (apply Z.pow_pos_nonneg; lia).
  assert (2 ^ n ≤ 2 ^ 31) by (apply Z.pow_le_mono_r; lia). lia.
Qed.

Lemma slot_bound key n : 0 ≤ n ≤ 31 → 0 ≤ slot key (2 ^ n) < 2 ^ n.
Proof. intros Hn. rewrite slot_mod by done. apply Z.mod_pos_bound. apply Z.pow_pos_nonneg; lia. Qed.

Lemma concat_insert idx i chain chain' :
  idx !! i = Some chain → concat (<[i:=chain']> idx) ++ chain ≡ₚ chain' ++ concat idx.
Proof.
  intros Hi. rewrite <-(take_drop_middle idx i chain Hi) at 2.
  rewrite insert_take_drop by (by eapply lookup_lt_Some).
  rewrite !concat_app. cbn. solve_Permutation.
Qed.

Lemma push_backet_ok n idx key b :
  0 ≤ n ≤ 31 → Z.of_nat (length idx) = 2 ^ n → placed (2 ^ n) idx → bkey b = key →
  ∃ idx', push_backet idx (slot key (2 ^ n)) b = Ok idx' ∧ length idx' = length idx ∧
    placed (2 ^ n) idx' ∧ concat idx' ≡ₚ b :: concat idx.
Proof.
  intros Hn Hlen Hpl Hk. pose proof (slot_bound key n Hn) as Hb. unfold push_backet.
  destruct (rd_in_bounds idx (slot key (2 ^ n))) as [chain Hc]; [lia|].
  rewrite Hc. cbn [mbind M_bind]. rewrite wr_in_bounds by lia. apply rd_inv in Hc as [_ Hc].
  eexists. split; [done|]. split; [by rewrite length_insert|]. split.
  - intros i ch Hi. destruct (decide (i = Z.to_nat (slot key (2 ^ n)))) as [->|Hne].
    + rewrite list_lookup_insert_eq in Hi by lia. injection Hi as <-.
      constructor; [rewrite Hk; lia|]. by apply Hpl.
    + rewrite list_lookup_insert_ne in Hi by done. by apply Hpl.
  - pose proof (concat_insert idx _ chain (b :: chain) Hc) as Hp.
    apply (Permutation_app_inv_r chain). rewrite Hp. solve_Permutation.
Qed.

(** Moving backets to a larger index loses none. *)
Lemma rehash_ok n chain idx :
  0 ≤ n ≤ 31 → Z.of_nat (length idx) = 2 ^ n → placed (2 ^ n) idx →
  ∃ idx', rehash (2 ^ n) chain idx = Ok idx' ∧ length idx' = length idx ∧
    placed (2 ^ n) idx' ∧ concat idx' ≡ₚ chain ++ concat idx.
Proof.
  intros Hn. revert idx. induction chain as [|b chain IH]; intros idx Hlen Hpl; cbn [rehash].
  { exists idx. by split_and!. }
  destruct (push_backet_ok n idx (bkey b) b Hn Hlen Hpl eq_refl) as (idx1 & -> & Hl1 & Hp1 & He1).
  cbn [mbind M_bind]. destruct (IH idx1) as (idx2 & -> & Hl2 & Hp2 & He2); [lia|done|].
  exists idx2. split_and!; [done|lia|done|]. rewrite He2, He1. cbn. solve_Permutation.
Qed.

Lemma rehash_all_ok n old idx :
  0 ≤ n ≤ 31 → Z.of_nat (length idx) = 2 ^ n → placed (2 ^ n) idx →
  ∃ idx', rehash_all (2 ^ n) old idx = Ok idx' ∧ length idx' = length idx ∧
    placed (2 ^ n) idx' ∧ concat idx' ≡ₚ concat old ++ concat idx.
Proof.
  intros Hn. revert idx. induction old as [|chain old IH]; intros idx Hlen Hpl; cbn [rehash_all].
  { exists idx. by split_and!. }
  destruct (rehash_ok n chain idx Hn Hlen Hpl) as (idx1 & -> & Hl1 & Hp1 & He1).
  cbn [mbind M_bind]. destruct (IH idx1) as (idx2 & -> & Hl2 & Hp2 & He2); [lia|done|].
  exists idx2. split_and!; [done|lia|done|]. rewrite He2, He1. cbn. solve_Permutation.
Qed.

Lemma concat_nils (n : nat) : concat (replicate n ([] : list (hash_backet D))) = [].
Proof. induction n; cbn; done. Qed.

Lemma placed_nils size (n : nat) : placed size (replicate n []).
Proof. intros i chain [-> _]%lookup_replicate. constructor. Qed.

Lemma hash_expand_ok hash_key h :
  hash_ok hash_key h → hsize h < 2 ^ 31 →
  ∃ h', hash_expand h = Ok h' ∧ hash_ok hash_key h' ∧ elems h' ≡ₚ elems h ∧ hsize h' = 2 * hsize h.
Proof.
  intros ((n & Hn & Hs) & Hlen & Hpl & Hk & Hc) Hlt. unfold hash_expand.
  assert (n < 31) as Hn31.
  { destruct (decide (n < 31)); [done|]. assert (n = 31) as -> by lia. lia. }
  assert (u32 (hsize h * 2) = 2 ^ (n + 1)) as ->.
  { unfold u32. rewrite Hs, Z.pow_add_r by lia. apply Z.mod_small.
    assert (2 ^ n ≤ 2 ^ 30) by (apply Z.pow_le_mono_r; lia). assert (0 < 2 ^ n) by (apply Z.pow_pos_nonneg; lia). lia. }
  assert (0 < 2 ^ (n + 1)) by (apply Z.pow_pos_nonneg; lia).
  destruct (rehash_all_ok (n + 1) (index h) (replicate (Z.to_nat (2 ^ (n + 1))) []))
    as (idx & -> & Hl & Hp & He); [lia|rewrite length_replicate; lia|apply placed_nils|].
  rewrite concat_nils, app_nil_r in He. cbn [mbind M_bind].
  destruct (count_all_losers idx 0 (no_expand h)) as [losers noexp].
  eexists. split; [done|]. unfold hash_ok, elems in *; cbn [index hsize hcount].
  rewrite length_replicate in Hl. split_and!; try done.
  - exists (n + 1). lia.
  - lia.
  - by rewrite He.
  - by rewrite He.
  - rewrite Hs, Z.pow_add_r by lia. lia.
Qed.

Lemma elem_of_index idx b : b ∈ concat idx ↔ ∃ i chain, idx !! i = Some chain ∧ b ∈ chain.
Proof.
  rewrite list_elem_of_In, in_concat. setoid_rewrite <-list_elem_of_In. split.
  - intros (chain & [i Hi]%list_elem_of_lookup_1 & Hb). eauto.
  - intros (i & chain & Hi & Hb). exists chain. split; [by eapply list_elem_of_lookup_2|done].
Qed.

Section functions.
Context (hash_key : D → Z) (hash_cmp : D → D → bool).
Implicit Types (data d : D).

Definition hits (key : Z) data b : Prop := bkey b = key ∧ hash_cmp (bdata b) data = true.

Lemma hits_dec key data b : (bkey b =? key) && hash_cmp (bdata b) data = true ↔ hits key data b.
Proof. unfold hits. rewrite andb_true_iff, Z.eqb_eq. done. Qed.

Lemma find_backet_spec chain key data len :
  (∃ b, find_backet hash_cmp chain key data len = inl (bdata b) ∧ b ∈ chain ∧ hits key data b) ∨
  (find_backet hash_cmp chain key data len = inr (len + Z.of_nat (length chain)) ∧
   ∀ b, b ∈ chain → ¬ hits key data b).
Proof.
  revert len. induction chain as [|b chain IH]; intros len; cbn [find_backet].
  { right. split; [f_equal; cbn; lia|]. by intros b ?%elem_of_nil. }
  destruct ((bkey b =? key) && hash_cmp (bdata b) data) eqn:Eh.
  { left. exists b. split; [done|]. split; [left|by apply hits_dec]. }
  destruct (IH (len + 1)) as [(b' & -> & Hin & Hh)|[-> Hno]].
  - left. exists b'. split; [done|]. split; [by right|done].
  - right. split; [cbn [length]; f_equal; lia|]. intros b' [->|Hin]%elem_of_cons; [|by apply Hno].
    rewrite <-hits_dec. by rewrite Eh.
Qed.

Lemma take_backet_spec chain key data :
  (∃ b rest, take_backet hash_cmp chain key data = Some (bdata b, rest) ∧ hits key data b ∧
     chain ≡ₚ b :: rest ∧ rest `sublist_of` chain) ∨
  (take_backet hash_cmp chain key data = None ∧ ∀ b, b ∈ chain → ¬ hits key data b).
Proof.
  induction chain as [|b chain IH]; cbn [take_backet].
  { right. split; [done|]. by intros b ?%elem_of_nil. }
  destruct ((bkey b =? key) && hash_cmp (bdata b) data) eqn:Eh.
  { left. exists b, chain. split_and!; [done|by apply hits_dec|done|by constructor]. }
  destruct IH as [(b' & rest & -> & Hh & Hp & Hs)|[-> Hno]].
  - left. exists b', (b :: rest). split_and!; [done..|rewrite Hp; solve_Permutation|by constructor].
  - right. split; [done|]. intros b' [->|Hin]%elem_of_cons; [|by apply Hno].
    rewrite <-hits_dec. by rewrite Eh.
Qed.

(** The chain a key selects holds every element with that key. *)
Lemma chain_of h data :
  hash_ok hash_key h →
  ∃ chain, rd (index h) (slot (hash_key data) (hsize h)) = Ok chain ∧
    index h !! Z.to_nat (slot (hash_key data) (hsize h)) = Some chain ∧
    (∀ b, b ∈ chain → b ∈ elems h) ∧
    ∀ d, d ∈ datas h → hash_key d = hash_key data → ∃ b, b ∈ chain ∧ bdata b = d ∧ bkey b = hash_key data.
Proof.
  intros ((n & Hn & Hs) & Hlen & Hpl & Hk & _). rewrite Hs in *.
  pose proof (slot_bound (hash_key data) n Hn) as Hb.
  destruct (rd_in_bounds (index h) (slot (hash_key data) (2 ^ n))) as [chain Hc]; [lia|].
  exists chain. split; [done|]. apply rd_inv in Hc as [_ Hc]. split; [done|]. split.
  - intros b Hin. apply elem_of_index. eauto.
  - intros d (b & -> & Hin)%list_elem_of_fmap Hd. pose proof Hin as Hin'.
    apply elem_of_index in Hin as (i & ch & Hi & Hb'). rewrite Forall_forall in Hk.
    specialize (Hk b Hin'). pose proof (Hpl i ch Hi) as Hf. rewrite Forall_forall in Hf.
    specialize (Hf b Hb'). rewrite Hk, Hd in Hf. rewrite Hf, Nat2Z.id in Hc.
    exists b. split; [congruence|]. split; [done|congruence].
Qed.

(** A successful search changes nothing. *)
Lemma hash_get_found h data alloc d :
  hash_ok hash_key h → d ∈ datas h → hash_cmp d data = true → hash_key d = hash_key data →
  ∃ d', hash_get hash_key hash_cmp h data alloc = Ok (h, Some d') ∧
    d' ∈ datas h ∧ hash_cmp d' data = true.
Proof.
  intros Hok Hd Hcmp Hkey. destruct (chain_of h data Hok) as (chain & Hr & _ & Hsub & Hall).
  unfold hash_get. rewrite Hr. cbn [mbind M_bind].
  destruct (find_backet_spec chain (hash_key data) data 0) as [(b & -> & Hin & _ & Hb)|[_ Hno]].
  - exists (bdata b). split; [done|]. split; [|done]. apply list_elem_of_fmap. eauto.
  - destruct (Hall d Hd Hkey) as (b & Hb & <- & Hkb). destruct (Hno b Hb). done.
Qed.

(** A search without a match adds what [alloc_func] makes, growing the table
    if the chain was long. *)
Lemma hash_get_new h data f newdata :
  hash_ok hash_key h → (∀ d, d ∈ datas h → hash_cmp d data = false) →
  f data = Some newdata → hash_key newdata = hash_key data → hsize h < 2 ^ 31 →
  ∃ h', hash_get hash_key hash_cmp h data (Some f) = Ok (h', Some newdata) ∧
    hash_ok hash_key h' ∧ datas h' ≡ₚ newdata :: datas h.
Proof.
  intros Hok Hno Hf Hkey Hlt. destruct (chain_of h data Hok) as (chain & Hr & _ & Hsub & _).
  unfold hash_get. rewrite Hr. cbn [mbind M_bind].
  destruct (find_backet_spec chain (hash_key data) data 0) as [(b & -> & Hin & _ & Hb)|[-> _]].
  { rewrite Hno in Hb; [done|]. apply list_elem_of_fmap. eauto. }
  rewrite Hf.
  assert (∃ h1, (if (HASH_THRESHOLD <? 0 + Z.of_nat (length chain)) && negb (no_expand h)
                 then hash_expand h else Ok h) = Ok h1 ∧ hash_ok hash_key h1 ∧ elems h1 ≡ₚ elems h)
    as (h1 & -> & Hok1 & He1).
  { destruct (_ && _); [|by exists h].
    destruct (hash_expand_ok hash_key h Hok Hlt) as (h1 & ? & ? & ? & _). by exists h1. }
  cbn [mbind M_bind]. destruct Hok1 as ((n & Hn & Hs) & Hlen & Hpl & Hk & Hc). rewrite Hs in *.
  destruct (push_backet_ok n (index h1) (hash_key data) (Backet (hash_key data) newdata)) as
    (idx & -> & Hl & Hp & He); try done. cbn [mbind M_bind]. eexists. split; [done|].
  unfold hash_ok, datas, elems in *; cbn [index hsize hcount]. split.
  - split_and!; try done; [by exists n|lia|by rewrite He; constructor|].
    rewrite He, Hc. cbn [length]. unfold u64. rewrite Zplus_mod_idemp_l. f_equal. lia.
  - rewrite He. cbn. by rewrite He1.
Qed.

Lemma hash_get_none h data :
  hash_ok hash_key h → (∀ d, d ∈ datas h → hash_cmp d data = false) →
  hash_get hash_key hash_cmp h data None = Ok (h, None).
Proof.
  intros Hok Hno. destruct (chain_of h data Hok) as (chain & Hr & _ & Hsub & _).
  unfold hash_get. rewrite Hr. cbn [mbind M_bind].
  destruct (find_backet_spec chain (hash_key data) data 0) as [(b & -> & Hin & _ & Hb)|[-> _]]; [|done].
  rewrite Hno in Hb; [done|]. apply list_elem_of_fmap. eauto.
Qed.

(** Releasing removes one matching element. *)
Lemma hash_release_found h data d :
  hash_ok hash_key h → d ∈ datas h → hash_cmp d data = true → hash_key d = hash_key data →
  ∃ h' d', hash_release hash_key hash_cmp h data = Ok (h', Some d') ∧ hash_ok hash_key h' ∧
    hash_cmp d' data = true ∧ datas h ≡ₚ d' :: datas h'.
Proof.
  intros Hok Hd Hcmp Hkey. destruct (chain_of h data Hok) as (chain & Hr & Hi & Hsub & Hall).
  unfold hash_release. rewrite Hr. cbn [mbind M_bind].
  destruct (take_backet_spec chain (hash_key data) data) as [(b & rest & -> & [_ Hb] & Hp & Hs)|[_ Hno]].
  2: { destruct (Hall d Hd Hkey) as (b & Hb & <- & Hkb). destruct (Hno b Hb). done. }
  apply rd_inv in Hr as [Hbd _]. rewrite wr_in_bounds by done. cbn [mbind M_bind].
  exists (Hash (<[Z.to_nat (slot (hash_key data) (hsize h)):=rest]> (index h)) (hsize h)
            (no_expand h) (u64 (hcount h - 1))), (bdata b).
  destruct Hok as (Hsz & Hlen & Hpl & Hk & Hc).
  assert (elems h ≡ₚ b :: concat (<[Z.to_nat (slot (hash_key data) (hsize h)):=rest]> (index h))) as He.
  { pose proof (concat_insert (index h) _ chain rest Hi) as Hcp. unfold elems.
    apply (Permutation_app_inv_l rest). rewrite <-Hcp, Hp. solve_Permutation. }
  split; [done|]. split; [|split; [done|unfold datas, elems; cbn [index]; unfold elems in He; by rewrite He]].
  unfold hash_ok, elems; cbn [index hsize hcount]. rewrite He in Hk, Hc.
  apply Forall_cons in Hk as [_ Hk]. split_and!; try done.
  - by rewrite length_insert.
  - intros i ch Hl. destruct (decide (i = Z.to_nat (slot (hash_key data) (hsize h)))) as [->|Hne].
    + rewrite list_lookup_insert_eq in Hl by lia. injection Hl as <-.
      pose proof (Hpl _ _ Hi) as Hf. rewrite Forall_forall in Hf |- *. intros b' Hb'.
      by apply Hf; eapply elem_of_sublist.
    + rewrite list_lookup_insert_ne in Hl by done. by apply Hpl.
  - rewrite Hc. cbn [length]. unfold u64. rewrite Zminus_mod_idemp_l. f_equal. lia.
Qed.
End functions.
End collection.

(** ** Sharing *)

(** What interning needs of the hash and comparison functions of a value
    type. *)
Class InternLaws {V} (value_key : V → Z) (value_cmp : V → V → bool) : Prop := {
  cmp_refl v : value_cmp v v = true;
  cmp_sym v w : value_cmp v w = true → value_cmp w v = true;
  cmp_trans v w x : value_cmp v w = true → value_cmp w x = true → value_cmp v x = true;
  cmp_key v w : value_cmp v w = true → value_key v = value_key w;
}.

Section sharing.
Context {V : Type} (value_key : V → Z) (value_cmp : V → V → bool).
Context `{!InternLaws value_key value_cmp}.
Implicit Types (P : pool V) (a b : loc) (o : obj V).

Notation key_at := (key_at value_key).
Notation cmp_at := (cmp_at value_cmp).

(** The table holds exactly the objects that are referenced, each once, and no
    two of them have equal contents. *)
Definition pool_ok P : Prop :=
  hash_ok (key_at (objs P)) (table P) ∧
  NoDup (datas (table P)) ∧
  (∀ a, a ∈ datas (table P) ↔ ∃ o, objs P !! a = Some o ∧ refcnt o ≠ 0) ∧
  (∀ a o, objs P !! a = Some o → 0 ≤ refcnt o < 2 ^ 64) ∧
  (∀ a b, a ∈ datas (table P) → b ∈ datas (table P) → cmp_at (objs P) a b = true → a = b).

Lemma hash_ok_ext {D} (k k' : D → Z) h :
  (∀ d, d ∈ datas h → k d = k' d) → hash_ok k h → hash_ok k' h.
Proof.
  intros Hk (Hs & Hl & Hp & Hf & Hc). split_and!; try done.
  rewrite Forall_forall in Hf |- *. intros b Hb. rewrite <-Hk; [by apply Hf|].
  apply list_elem_of_fmap. eauto.
Qed.

Lemma cmp_at_Some (m : gmap loc (obj V)) a b :
  cmp_at m a b = true ↔
  ∃ x y, m !! a = Some x ∧ m !! b = Some y ∧ value_cmp (val x) (val y) = true.
Proof.
  unfold Hash.cmp_at. destruct (m !! a), (m !! b); split; try naive_solver.
Qed.

Lemma cmp_at_key (m : gmap loc (obj V)) a b : cmp_at m a b = true → key_at m a = key_at m b.
Proof.
  intros (x & y & Ha & Hb & Hc)%cmp_at_Some. unfold Hash.key_at. rewrite Ha, Hb. by apply cmp_key.
Qed.

(** Contents that stay keep their key and comparisons. *)
Lemma cmp_at_ext (m m' : gmap loc (obj V)) a b :
  val <$> m !! a = val <$> m' !! a → val <$> m !! b = val <$> m' !! b → cmp_at m a b = cmp_at m' a b.
Proof.
  unfold Hash.cmp_at. destruct (m !! a), (m' !! a), (m !! b), (m' !! b); cbn; congruence.
Qed.
Lemma key_at_ext (m m' : gmap loc (obj V)) a :
  val <$> m !! a = val <$> m' !! a → key_at m a = key_at m' a.
Proof. unfold Hash.key_at. destruct (m !! a), (m' !! a); cbn; congruence. Qed.

Lemma set_refcnt_ok P a o n :
  objs P !! a = Some o → set_refcnt P a n = Ok (Pool (<[a:=Obj n (val o)]> (objs P)) (table P)).
Proof. intros Ha. unfold set_refcnt, load_obj. by rewrite Ha. Qed.

Lemma val_insert (m : gmap loc (obj V)) a o n b :
  m !! a = Some o → val <$> m !! b = val <$> <[a:=Obj n (val o)]> m !! b.
Proof.
  intros Ha. destruct (decide (a = b)) as [<-|]; [by rewrite lookup_insert_eq, Ha|by rewrite lookup_insert_ne].
Qed.

(** Changing the count of a shared object, or dropping one that is not shared,
    keeps the rest. *)
Lemma pool_ok_update P a b o n (m' : gmap loc (obj V)) :
  pool_ok P → objs P !! b = Some o → refcnt o ≠ 0 → 0 < n < 2 ^ 64 → a ∉ datas (table P) →
  m' = <[b:=Obj n (val o)]> (delete a (objs P)) → pool_ok (Pool m' (table P)).
Proof.
  intros (Hok & Hnd & Hin & Hrc & Hun) Hb Ho Hn Ha ->. unfold pool_ok; cbn [objs table].
  assert (b ∈ datas (table P)) as Hbd by (apply Hin; eauto).
  assert (a ≠ b) as Hab by (intros ->; done).
  assert (∀ d, d ∈ datas (table P) →
    val <$> objs P !! d = val <$> <[b:=Obj n (val o)]> (delete a (objs P)) !! d) as Hval.
  { intros d Hd. assert (a ≠ d) by (intros ->; done).
    rewrite (val_insert (objs P) b o n d Hb). destruct (decide (b = d)) as [<-|].
    - by rewrite !lookup_insert_eq.
    - by rewrite !lookup_insert_ne, lookup_delete_ne by done. }
  split_and!.
  - eapply hash_ok_ext; [|done]. intros d Hd. apply key_at_ext. by apply Hval.
  - done.
  - intros d. destruct (decide (b = d)) as [<-|Hbd'].
    + rewrite lookup_insert_eq. split; [|done]. intros _. eexists. split; [done|]. cbn. lia.
    + rewrite lookup_insert_ne by done. destruct (decide (a = d)) as [<-|Had].
      * rewrite lookup_delete_eq. split; [done|]. naive_solver.
      * rewrite lookup_delete_ne by done. apply Hin.
  - intros d od. destruct (decide (b = d)) as [<-|Hbd'].
    + rewrite lookup_insert_eq. intros [= <-]. cbn. lia.
    + rewrite lookup_insert_ne by done. rewrite lookup_delete_Some. intros [_ Hd]. by eapply Hrc.
  - intros d d' Hd Hd'. rewrite <-(cmp_at_ext (objs P)) by (by apply Hval). by apply Hun.
Qed.

(** An equal object is in the table: it is used and the new one freed. *)
Lemma intern_found P a b v o :
  pool_ok P → objs P !! a = Some (Obj 0 v) → objs P !! b = Some o → refcnt o ≠ 0 →
  value_cmp (val o) v = true → refcnt o + 1 < 2 ^ 64 →
  ∃ P', intern value_key value_cmp P a = Ok (P', b) ∧ pool_ok P' ∧
    objs P' = <[b:=Obj (refcnt o + 1) (val o)]> (delete a (objs P)).
Proof.
  intros HP Ha Hb Ho Hcmp Hroom. pose proof HP as (Hok & Hnd & Hin & Hrc & Hun).
  pose proof (Hrc b o Hb) as Hro.
  assert (a ∉ datas (table P)) as Hna by (rewrite Hin; intros (x & Hx & Hr); rewrite Ha in Hx; by injection Hx as <-).
  assert (b ∈ datas (table P)) as Hbd by (apply Hin; eauto).
  assert (a ≠ b) as Hab by (intros ->; done).
  assert (cmp_at (objs P) b a = true) as Hc by (apply cmp_at_Some; eauto).
  destruct (hash_get_found (key_at (objs P)) (cmp_at (objs P)) (table P) a (Some hash_alloc_intern) b
    Hok Hbd Hc (cmp_at_key _ _ _ Hc)) as (d & Eg & Hd & Hcd).
  assert (d = b) as ->.
  { apply Hun; [done..|]. apply cmp_at_Some in Hcd as (x & y & Hx & Hy & Hxy). rewrite Ha in Hy. injection Hy as <-.
    apply cmp_at_Some. exists x, o. split_and!; [done..|]. eapply cmp_trans; [done|]. by apply cmp_sym. }
  unfold intern, load_obj. rewrite Ha. cbn [of_opt mbind M_bind refcnt Z.eqb]. rewrite Eg. cbn [mbind M_bind].
  rewrite decide_False by done. unfold free_obj, load_obj. cbn [objs table]. rewrite Ha.
  cbn [of_opt mbind M_bind objs table]. rewrite lookup_delete_ne, Hb by done. cbn [of_opt mbind M_bind].
  rewrite (set_refcnt_ok _ b o) by (cbn [objs]; by rewrite lookup_delete_ne). cbn [mbind M_bind objs table].
  eexists. split; [done|]. unfold u64. rewrite Z.mod_small by lia. split; [|done].
  eapply (pool_ok_update P a b o (refcnt o + 1)); try done. lia.
Qed.

(** No equal object: the new one becomes shared. *)
Lemma intern_new P a v :
  pool_ok P → objs P !! a = Some (Obj 0 v) → hsize (table P) < 2 ^ 31 →
  (∀ c o, objs P !! c = Some o → refcnt o ≠ 0 → value_cmp (val o) v = false) →
  ∃ P', intern value_key value_cmp P a = Ok (P', a) ∧ pool_ok P' ∧ objs P' = <[a:=Obj 1 v]> (objs P).
Proof.
  intros (Hok & Hnd & Hin & Hrc & Hun) Ha Hsz Hno.
  assert (a ∉ datas (table P)) as Hna by (rewrite Hin; intros (x & Hx & Hr); rewrite Ha in Hx; by injection Hx as <-).
  assert (∀ d, d ∈ datas (table P) → cmp_at (objs P) d a = false) as Hcno.
  { intros d (o & Ho & Hr)%Hin. unfold Hash.cmp_at. rewrite Ho, Ha. by eapply Hno. }
  destruct (hash_get_new (key_at (objs P)) (cmp_at (objs P)) (table P) a hash_alloc_intern a
    Hok Hcno eq_refl eq_refl Hsz) as (h' & Eg & Hok' & Hp).
  unfold intern, load_obj. rewrite Ha. cbn [of_opt mbind M_bind refcnt Z.eqb]. rewrite Eg. cbn [mbind M_bind].
  rewrite decide_True by done. cbn [mbind M_bind objs]. rewrite Ha. cbn [of_opt mbind M_bind refcnt].
  rewrite (set_refcnt_ok _ a (Obj 0 v)) by done. cbn [mbind M_bind objs table val].
  eexists. split; [done|]. split; [|done]. unfold pool_ok; cbn [objs table].
  pose proof (λ d, val_insert (objs P) a (Obj 0 v) 1 d Ha) as Hval. cbn [val] in Hval. split_and!.
  - eapply hash_ok_ext; [|done]. intros d _. apply key_at_ext, Hval.
  - rewrite Hp. by constructor.
  - intros d. rewrite Hp, elem_of_cons. destruct (decide (a = d)) as [<-|Had].
    + rewrite lookup_insert_eq. split; [|by left]. intros _. by eexists.
    + rewrite lookup_insert_ne by done. rewrite Hin. naive_solver.
  - intros d od. destruct (decide (a = d)) as [<-|Had].
    + rewrite lookup_insert_eq. intros [= <-]. done.
    + rewrite lookup_insert_ne by done. apply Hrc.
  - intros d d' Hd Hd'. rewrite <-(cmp_at_ext (objs P)) by apply Hval. rewrite Hp in Hd, Hd'.
    apply elem_of_cons in Hd as [->|Hd], Hd' as [->|Hd']; intros Hc.
    + done.
    + exfalso. assert (cmp_at (objs P) d' a = true) as Hc'; [|by rewrite Hcno in Hc'].
      apply cmp_at_Some in Hc as (x & y & ? & ? & ?). apply cmp_at_Some. exists y, x. split_and!; try done. by apply cmp_sym.
    + by rewrite Hcno in Hc.
    + by apply Hun.
Qed.

(** Dropping a reference that is not the last one. *)
Lemma unintern_drop P a o :
  pool_ok P → objs P !! a = Some o → 1 < refcnt o →
  ∃ P', unintern value_key value_cmp P a = Ok (P', Some a) ∧ pool_ok P' ∧
    objs P' = <[a:=Obj (refcnt o - 1) (val o)]> (objs P).
Proof.
  intros HP Ha Hr. pose proof HP as (_ & _ & _ & Hrc & _). pose proof (Hrc a o Ha).
  unfold unintern, load_obj. rewrite Ha. cbn [of_opt mbind M_bind].
  rewrite (proj2 (Z.eqb_neq (refcnt o) 0)) by lia. cbn [negb]. rewrite (set_refcnt_ok P a o) by done.
  cbn [mbind M_bind objs]. rewrite lookup_insert_eq. cbn [of_opt mbind M_bind refcnt].
  rewrite (proj2 (Z.eqb_neq (refcnt o - 1) 0)) by lia. eexists. split; [done|]. split; [|done].
  set (x := fresh (dom (objs P))). assert (x ∉ dom (objs P)) as Hx by apply is_fresh.
  apply (pool_ok_update P x a o (refcnt o - 1)); try done; [lia..| |].
  - destruct HP as (_ & _ & Hin & _). rewrite Hin. intros (y & Hy & _). apply Hx. by eapply elem_of_dom_2.
  - by rewrite delete_id by by apply not_elem_of_dom.
Qed.

(** Dropping the last one: the object leaves the table and is freed. *)
Lemma unintern_last P a o :
  pool_ok P → objs P !! a = Some o → refcnt o = 1 →
  ∃ P', unintern value_key value_cmp P a = Ok (P', None) ∧ pool_ok P' ∧ objs P' = delete a (objs P).
Proof.
  intros (Hok & Hnd & Hin & Hrc & Hun) Ha Hr.
  assert (a ∈ datas (table P)) as Had by (apply Hin; exists o; split; [done|lia]).
  unfold unintern, load_obj. rewrite Ha. cbn [of_opt mbind M_bind]. rewrite Hr. cbn [Z.eqb negb].
  change (1 - 1) with 0. rewrite (set_refcnt_ok P a o) by done. cbn [mbind M_bind objs table].
  rewrite lookup_insert_eq. cbn [of_opt mbind M_bind refcnt Z.eqb]. set (m1 := <[a:=Obj 0 (val o)]> (objs P)).
  pose proof (λ d, val_insert (objs P) a o 0 d Ha) as Hval. fold m1 in Hval.
  assert (hash_ok (key_at m1) (table P)) as Hok1.
  { eapply hash_ok_ext; [|done]. intros d _. apply key_at_ext, Hval. }
  assert (cmp_at m1 a a = true) as Hca.
  { apply cmp_at_Some. unfold m1. rewrite lookup_insert_eq. eexists _, _. split_and!; [done..|apply cmp_refl]. }
  destruct (hash_release_found (key_at m1) (cmp_at m1) (table P) a a Hok1 Had Hca eq_refl)
    as (h' & d & Er & Hok' & Hcd & Hp).
  assert (d = a) as ->.
  { apply Hun; [|done|by rewrite (cmp_at_ext _ m1) by apply Hval]. rewrite Hp. left. }
  rewrite Er. cbn [mbind M_bind]. rewrite bool_decide_true by done.
  unfold free_obj, load_obj; cbn [objs table]. unfold m1. rewrite lookup_insert_eq. cbn [of_opt mbind M_bind objs].
  rewrite delete_insert_eq. eexists. split; [done|]. split; [|done]. unfold pool_ok; cbn [objs table].
  rewrite Hp in Hnd. apply NoDup_cons in Hnd as [Hna Hnd].
  assert (∀ d, d ∈ datas h' → a ≠ d ∧ d ∈ datas (table P)) as Hd'.
  { intros d Hd. split; [by intros ->|]. rewrite Hp. by right. }
  split_and!.
  - eapply hash_ok_ext; [|done]. intros d Hd. destruct (Hd' d Hd) as [Hne _].
    apply key_at_ext. unfold m1. by rewrite lookup_insert_ne, lookup_delete_ne.
  - done.
  - intros d. destruct (decide (a = d)) as [<-|Hne].
    + rewrite lookup_delete_eq. split; [done|naive_solver].
    + rewrite lookup_delete_ne, <-Hin, Hp, elem_of_cons by done. naive_solver.
  - intros d od [_ Hd]%lookup_delete_Some. by eapply Hrc.
  - intros x y Hx Hy Hc. destruct (Hd' x Hx) as [? Hx'], (Hd' y Hy) as [? Hy'].
    apply Hun; [done..|]. by rewrite (cmp_at_ext _ (delete a (objs P))) by by rewrite lookup_delete_ne.
Qed.

(** ** Properties *)

(** C28. Interning shares values.  In a pool whose table holds exactly the
    referenced objects, [intern] of a new object returns the one shared object
    with equal contents: the new one if there was none, else the old one, with
    the new one freed.  The reference count of the result goes up by one, no
    other object changes, and afterwards two shared objects have equal contents
    only if they are the same object.  No assertion fails and the table never
    loses an element, also when it grows. *)
Theorem intern_shares P a v :
  pool_ok P → objs P !! a = Some (Obj 0 v) → hsize (table P) < 2 ^ 31 →
  (∀ b o, objs P !! b = Some o → refcnt o + 1 < 2 ^ 64) →
  ∃ P' b o, intern value_key value_cmp P a = Ok (P', b) ∧ pool_ok P' ∧
    objs P' !! b = Some (Obj (refcnt o + 1) (val o)) ∧ value_cmp (val o) v = true ∧
    (if decide (b = a) then o = Obj 0 v ∧ ∀ c oc, objs P !! c = Some oc → refcnt oc ≠ 0 → value_cmp (val oc) v = false
     else objs P !! b = Some o ∧ refcnt o ≠ 0 ∧ objs P' !! a = None) ∧
    (∀ c, c ≠ a → c ≠ b → objs P' !! c = objs P !! c) ∧
    (∀ c oc, objs P' !! c = Some oc → refcnt oc ≠ 0 → value_cmp (val oc) v = true → c = b).
Proof.
  intros HP Ha Hsz Hroom.
  assert (∀ P' b o, pool_ok P' → objs P' !! b = Some o → refcnt o ≠ 0 → value_cmp (val o) v = true →
    ∀ c oc, objs P' !! c = Some oc → refcnt oc ≠ 0 → value_cmp (val oc) v = true → c = b) as Huniq.
  { intros P' b o (_ & _ & Hin & _ & Hun) Hb Hob Hcb c oc Hc Hoc Hcc. apply Hun; [apply Hin; eauto..|].
    apply cmp_at_Some. exists oc, o. split_and!; [done..|]. eapply cmp_trans; [done|]. by apply cmp_sym. }
  destruct (decide (Exists (λ d, Hash.cmp_at value_cmp (objs P) d a = true) (datas (table P)))) as [He|Hno].
  - apply Exists_exists in He as (b & Hb & Hc). pose proof HP as (_ & _ & Hin & Hrc & _).
    apply Hin in Hb as (o & Ho & Hro). apply cmp_at_Some in Hc as (x & y & Hx & Hy & Hxy).
    rewrite Ho in Hx. injection Hx as <-. rewrite Ha in Hy. injection Hy as <-. cbn [val] in Hxy.
    destruct (intern_found P a b v o HP Ha Ho Hro Hxy (Hroom b o Ho)) as (P' & E1 & HP' & Eo).
    assert (b ≠ a) as Hba by (intros ->; rewrite Ha in Ho; by injection Ho as <-).
    pose proof (Hrc b o Ho). exists P', b, o. rewrite decide_False by done.
    assert (objs P' !! b = Some (Obj (refcnt o + 1) (val o))) as Hb' by (by rewrite Eo, lookup_insert_eq).
    split_and!; try done.
    + by rewrite Eo, lookup_insert_ne, lookup_delete_eq by done.
    + intros c Hca Hcb. by rewrite Eo, lookup_insert_ne, lookup_delete_ne by done.
    + eapply (Huniq P' b); [done|exact Hb'|cbn; lia|done].
  - assert (∀ c oc, objs P !! c = Some oc → refcnt oc ≠ 0 → value_cmp (val oc) v = false) as Hno'.
    { intros c oc Hc Hoc. destruct (value_cmp (val oc) v) eqn:Ec; [|done]. destruct Hno. apply Exists_exists.
      pose proof HP as (_ & _ & Hin & _). exists c. split; [apply Hin; eauto|]. apply cmp_at_Some; eauto. }
    destruct (intern_new P a v HP Ha Hsz Hno') as (P' & E1 & HP' & Eo).
    exists P', a, (Obj 0 v). rewrite decide_True by done.
    assert (objs P' !! a = Some (Obj 1 v)) as Ha' by (by rewrite Eo, lookup_insert_eq).
    split_and!; try done; [apply cmp_refl|..].
    + intros c Hc _. by rewrite Eo, lookup_insert_ne by done.
    + eapply (Huniq P' a); [done|exact Ha'|done|apply cmp_refl].
Qed.

(** C29. Dropping references.  [unintern] of a shared object lowers its count by
    one; with the last reference the object itself leaves the table, its memory
    is freed and the caller's pointer cleared.  The assertion that the object
    was in the table holds, and nothing else changes. *)
Theorem unintern_drops P a o :
  pool_ok P → objs P !! a = Some o → refcnt o ≠ 0 →
  ∃ P', unintern value_key value_cmp P a = Ok (P', if refcnt o =? 1 then None else Some a) ∧ pool_ok P' ∧
    objs P' = if refcnt o =? 1 then delete a (objs P) else <[a:=Obj (refcnt o - 1) (val o)]> (objs P).
Proof.
  intros HP Ha Hr. pose proof HP as (_ & _ & _ & Hrc & _). pose proof (Hrc a o Ha).
  destruct (Z.eqb_spec (refcnt o) 1); [by apply (unintern_last P a o)|apply unintern_drop; try done; lia].
Qed.
End sharing.

(** A hash table is a collection of data pointers: whatever the hash and
    comparison functions, as long as equal data have equal keys, [hash_get]
    returns a stored datum equal to the argument when there is one and leaves
    the table alone, and otherwise adds the datum that the allocation function
    makes and nothing else; [hash_release] removes one equal datum when there is
    one.  Chains, index and counter stay consistent, and growing the table when
    a chain is long loses nothing. *)
Theorem hash_table_correct {D} (hash_key : D → Z) (hash_cmp : D → D → bool) (h : hash D) (data : D) :
  hash_ok hash_key h → hsize h < 2 ^ 31 →
  (∀ d, hash_cmp d data = true → hash_key d = hash_key data) →
  (∀ d, d ∈ datas h → hash_cmp d data = true →
     (∃ d', hash_get hash_key hash_cmp h data (Some hash_alloc_intern) = Ok (h, Some d') ∧
        d' ∈ datas h ∧ hash_cmp d' data = true) ∧
     (∃ h' d', hash_release hash_key hash_cmp h data = Ok (h', Some d') ∧ hash_ok hash_key h' ∧
        hash_cmp d' data = true ∧ datas h ≡ₚ d' :: datas h')) ∧
  ((∀ d, d ∈ datas h → hash_cmp d data = false) →
     hash_get hash_key hash_cmp h data None = Ok (h, None) ∧
     ∃ h', hash_get hash_key hash_cmp h data (Some hash_alloc_intern) = Ok (h', Some data) ∧
        hash_ok hash_key h' ∧ datas h' ≡ₚ data :: datas h).
Proof.
  intros Hok Hsz Hk. split.
  - intros d Hd Hc. split; [by eapply hash_get_found; eauto|by eapply hash_release_found; eauto].
  - intros Hno. split; [by apply hash_get_none|by eapply hash_get_new].
Qed.

Lemma hash_create_ok {D} (hash_key : D → Z) :
  ∃ h : hash D, hash_create = Ok h ∧ hash_ok hash_key h ∧ datas h = [] ∧ hsize h = 256.
Proof.
  eexists. split; [reflexivity|]. unfold hash_ok, datas, elems, HASH_INITIAL_SIZE; cbn [index hsize hcount].
  rewrite concat_nils. split_and!; try done.
  - exists 8. lia.
  - apply placed_nils.
Qed.

(** Integers interned by value. *)
#[export] Instance Z_intern : InternLaws u32 Z.eqb.
Proof.
  split; intros *; rewrite ?Z.eqb_refl, ?Z.eqb_eq; congruence.
Qed.

(** A pool of objects none of which is shared yet. *)
Lemma unshared_pool {V} (value_key : V → Z) (value_cmp : V → V → bool) (m : gmap loc (obj V)) :
  map_Forall (λ _ o, refcnt o = 0) m →
  ∃ h, pool_ok value_key value_cmp (Pool m h) ∧ hsize h = 256.
Proof.
  intros Hm. destruct (hash_create_ok (key_at value_key m)) as (h & _ & Hok & Hd & Hs).
  exists h. split; [|done]. unfold pool_ok; cbn [objs table]. rewrite Hd. split_and!.
  - done.
  - constructor.
  - intros a. split; [by intros ?%elem_of_nil|]. intros (o & Ho & Hr). by apply Hm in Ho.
  - intros a o Ho. apply Hm in Ho. lia.
  - by intros a b ?%elem_of_nil.
Qed.

(** A pool with one object of contents 5 that is not shared yet. *)
Lemma pool1 :
  ∃ P : pool Z, pool_ok u32 Z.eqb P ∧ objs P = {[1%positive := Obj 0 5]} ∧ hsize (table P) = 256.
Proof.
  destruct (unshared_pool u32 Z.eqb {[1%positive := Obj 0 5]}) as (h & HP & Hs).
  { by apply map_Forall_singleton. }
  by exists (Pool {[1%positive := Obj 0 5]} h).
Qed.

Lemma hash_table_correct_witness :
  ∃ h : hash Z, hash_ok u32 h ∧
    ((∀ d, d ∈ datas h → (d =? 7) = true →
       (∃ d', hash_get u32 Z.eqb h 7 (Some hash_alloc_intern) = Ok (h, Some d') ∧ d' ∈ datas h ∧ (d' =? 7) = true) ∧
       (∃ h' d', hash_release u32 Z.eqb h 7 = Ok (h', Some d') ∧ hash_ok u32 h' ∧
          (d' =? 7) = true ∧ datas h ≡ₚ d' :: datas h')) ∧
     ((∀ d, d ∈ datas h → (d =? 7) = false) →
       hash_get u32 Z.eqb h 7 None = Ok (h, None) ∧
       ∃ h', hash_get u32 Z.eqb h 7 (Some hash_alloc_intern) = Ok (h', Some 7) ∧
          hash_ok u32 h' ∧ datas h' ≡ₚ 7 :: datas h)).
Proof.
  destruct (hash_create_ok u32) as (h & _ & Hok & _ & Hs). exists h. split; [exact Hok|].
  apply (hash_table_correct u32 Z.eqb h 7 Hok).
  - rewrite Hs. reflexivity.
  - intros d Hd. by apply Z.eqb_eq in Hd as ->.
Defined.

Lemma intern_shares_witness :
  ∃ P : pool Z, pool_ok u32 Z.eqb P ∧
    ∃ P' b o, intern u32 Z.eqb P 1 = Ok (P', b) ∧ pool_ok u32 Z.eqb P' ∧
      objs P' !! b = Some (Obj (refcnt o + 1) (val o)) ∧ (val o =? 5) = true ∧
      (if decide (b = 1%positive) then o = Obj 0 5 ∧
         ∀ c oc, objs P !! c = Some oc → refcnt oc ≠ 0 → (val oc =? 5) = false
       else objs P !! b = Some o ∧ refcnt o ≠ 0 ∧ objs P' !! 1%positive = None) ∧
      (∀ c, c ≠ 1%positive → c ≠ b → objs P' !! c = objs P !! c) ∧
      (∀ c oc, objs P' !! c = Some oc → refcnt oc ≠ 0 → (val oc =? 5) = true → c = b).
Proof.
  destruct pool1 as (P & HP & Ho & Hs). exists P. split; [exact HP|].
  apply (intern_shares u32 Z.eqb P 1%positive 5 HP).
  - rewrite Ho. reflexivity.
  - rewrite Hs. reflexivity.
  - intros b o. rewrite Ho. intros [_ <-]%lookup_singleton_Some. reflexivity.
Defined.

Lemma unintern_drops_witness :
  ∃ (P : pool Z) b o, pool_ok u32 Z.eqb P ∧ objs P !! b = Some o ∧
    ∃ P', unintern u32 Z.eqb P b = Ok (P', if refcnt o =? 1 then None else Some b) ∧ pool_ok u32 Z.eqb P' ∧
      objs P' = if refcnt o =? 1 then delete b (objs P) else <[b:=Obj (refcnt o - 1) (val o)]> (objs P).
Proof.
  destruct pool1 as (P & HP & Ho & Hs).
  destruct (intern_new u32 Z.eqb P 1%positive 5 HP) as (P' & _ & HP' & Ho').
  - rewrite Ho. reflexivity.
  - rewrite Hs. reflexivity.
  - intros c o. rewrite Ho. intros [_ <-]%lookup_singleton_Some. done.
  - assert (objs P' !! 1%positive = Some (Obj 1 5)) as Hb by (rewrite Ho'; apply lookup_insert_eq).
    exists P', 1%positive, (Obj 1 5). split; [exact HP'|]. split; [exact Hb|].
    apply (unintern_drops u32 Z.eqb P' 1%positive (Obj 1 5) HP' Hb). discriminate.
Defined.
