(* ===== verification/Jhash.v ===== *)
(** The hash function of lib/jhash.c: [jhash] on bytes, [jhash2] on 32-bit words
    and the fixed-size variants.  All arithmetic is on 32-bit words. *)
From S2P Require Import Prelude.
Open Scope Z_scope.

Definition JHASH_GOLDEN_RATIO : Z := 0x9e3779b9.

(** [x ^= (y >> n)] and [x ^= (y << n)] *)
Definition xr (x y n : Z) : Z := Z.lxor x (Z.shiftr y n).
Definition xl (x y n : Z) : Z := Z.lxor x (u32 (Z.shiftl y n)).
(** [x -= y; x -= z;] *)
Definition sub2 (x y z : Z) : Z := u32 (u32 (x - y) - z).

Definition jhash_mix (s : Z * Z * Z) : Z * Z * Z :=
  let '(a, b, c) := s in
  let a := xr (sub2 a b c) c 13 in
  let b := xl (sub2 b c a) a 8 in
  let c := xr (sub2 c a b) b 13 in
  let a := xr (sub2 a b c) c 12 in
  let b := xl (sub2 b c a) a 16 in
  let c := xr (sub2 c a b) b 5 in
  let a := xr (sub2 a b c) c 3 in
  let b := xl (sub2 b c a) a 10 in
  let c := xr (sub2 c a b) b 15 in
  (a, b, c).

(** [k[i] + (k[i+1] << 8) + (k[i+2] << 16) + (k[i+3] << 24)] *)
Definition word_at (k : list Z) (i : Z) : M Z :=
  b0 ← rd k i;
  b1 ← rd k (i + 1);
  b2 ← rd k (i + 2);
  b3 ← rd k (i + 3);
  Ok (u32 (u32 (u32 (b0 + u32 (Z.shiftl b1 8)) + u32 (Z.shiftl b2 16)) + u32 (Z.shiftl b3 24))).

(** [n] rounds of the loop, from offset [i]. *)
Fixpoint jhash_rounds (k : list Z) (i : Z) (s : Z * Z * Z) (n : nat) : M (Z * Z * Z) :=
  match n with
  | O => Ok s
  | S n' =>
      let '(a, b, c) := s in
      x ← word_at k i;
      y ← word_at k (i + 4);
      z ← word_at k (i + 8);
      jhash_rounds k (i + 12) (jhash_mix (u32 (a + x), u32 (b + y), u32 (c + z))) n'
  end.

(** [case n: x += (k[n - 1] << sh);], reached when [len >= n]. *)
Definition add_case (k : list Z) (i len n sh x : Z) : M Z :=
  if n <=? len then
    b ← rd k (i + n - 1);
    Ok (u32 (x + u32 (Z.shiftl b sh)))
  else Ok x.

Definition jhash (k : list Z) (length initval : Z) : M Z :=
  '(a, b, c) ← jhash_rounds k 0 (JHASH_GOLDEN_RATIO, JHASH_GOLDEN_RATIO, initval)
                 (Z.to_nat (length / 12));
  let i := 12 * (length / 12) in
  let len := length mod 12 in
  let c := u32 (c + length) in
  c ← add_case k i len 11 24 c;
  c ← add_case k i len 10 16 c;
  c ← add_case k i len 9 8 c;
  b ← add_case k i len 8 24 b;
  b ← add_case k i len 7 16 b;
  b ← add_case k i len 6 8 b;
  b ← add_case k i len 5 0 b;
  a ← add_case k i len 4 24 a;
  a ← add_case k i len 3 16 a;
  a ← add_case k i len 2 8 a;
  a ← add_case k i len 1 0 a;
  Ok (jhash_mix (a, b, c)).2.

Fixpoint jhash2_rounds (k : list Z) (i : Z) (s : Z * Z * Z) (n : nat) : M (Z * Z * Z) :=
  match n with
  | O => Ok s
  | S n' =>
      let '(a, b, c) := s in
      x ← rd k i;
      y ← rd k (i + 1);
      z ← rd k (i + 2);
      jhash2_rounds k (i + 3) (jhash_mix (u32 (a + x), u32 (b + y), u32 (c + z))) n'
  end.

Definition jhash2 (k : list Z) (length initval : Z) : M Z :=
  '(a, b, c) ← jhash2_rounds k 0 (JHASH_GOLDEN_RATIO, JHASH_GOLDEN_RATIO, initval)
                 (Z.to_nat (length / 3));
  let i := 3 * (length / 3) in
  let len := length mod 3 in
  let c := u32 (c + u32 (length * 4)) in
  b ← (if 2 <=? len then y ← rd k (i + 1); Ok (u32 (b + y)) else Ok b);
  a ← (if 1 <=? len then x ← rd k i; Ok (u32 (a + x)) else Ok a);
  Ok (jhash_mix (a, b, c)).2.

Definition jhash_3words (a b c initval : Z) : Z :=
  (jhash_mix (u32 (a + JHASH_GOLDEN_RATIO), u32 (b + JHASH_GOLDEN_RATIO), u32 (c + initval))).2.
Definition jhash_2words (a b initval : Z) : Z := jhash_3words a b 0 initval.
Definition jhash_1word (a initval : Z) : Z := jhash_3words a 0 0 initval.

(** ** Words and their bytes *)

(** The bytes of a 32-bit word in memory, least significant first. *)
Definition le_bytes (w : Z) : list Z := [w mod 256; (w / 2 ^ 8) mod 256; (w / 2 ^ 16) mod 256; w / 2 ^ 24].
Definition le_block (ws : list Z) : list Z := ws ≫= le_bytes.

Definition is_word (w : Z) : Prop := 0 ≤ w < 2 ^ 32.

Lemma length_le_block ws : length (le_block ws) = (4 * length ws)%nat.
Proof. induction ws as [|w ws IH]; cbn [le_block mbind list_bind]; [done|]. rewrite length_app. fold (le_block ws). cbn in *. lia. Qed.

Lemma le_block_lookup ws (i j : nat) w b :
  ws !! i = Some w → le_bytes w !! j = Some b → le_block ws !! (4 * i + j)%nat = Some b.
Proof.
  revert i. induction ws as [|x ws IH]; intros [|i] Hw Hb; try done.
  - injection Hw as ->. cbn [le_block mbind list_bind]. apply lookup_lt_Some in Hb as Hl.
    rewrite lookup_app_l by done. done.
  - cbn in Hw. change (le_block (x :: ws)) with (le_bytes x ++ le_block ws).
    rewrite lookup_app_r by (cbn; lia). replace (4 * S i + j - length (le_bytes x))%nat with (4 * i + j)%nat by (cbn; lia).
    by apply IH.
Qed.

Lemma rd_le ws (i : Z) w (j : nat) b :
  rd ws i = Ok w → le_bytes w !! j = Some b → rd (le_block ws) (4 * i + Z.of_nat j) = Ok b.
Proof.
  intros [Hi Hw]%rd_inv Hb. replace (4 * i + Z.of_nat j) with (Z.of_nat (4 * Z.to_nat i + j)) by lia.
  apply rd_nat. by eapply le_block_lookup.
Qed.

Lemma u32_small z : 0 ≤ z < 2 ^ 32 → u32 z = z.
Proof. apply Z.mod_small. Qed.

Lemma u32_add_l a b : u32 (u32 a + b) = u32 (a + b).
Proof. unfold u32. by rewrite Zplus_mod_idemp_l. Qed.
Lemma u32_add_r a b : u32 (a + u32 b) = u32 (a + b).
Proof. unfold u32. by rewrite Zplus_mod_idemp_r. Qed.

Lemma u32_add2 a b : u32 (u32 a + u32 b) = u32 (a + b).
Proof. by rewrite u32_add_l, u32_add_r. Qed.

(** The four bytes add up to the word. *)
Lemma le_sum w : is_word w →
  w mod 256 + ((w / 2 ^ 8) mod 256) * 2 ^ 8 + ((w / 2 ^ 16) mod 256) * 2 ^ 16 + (w / 2 ^ 24) * 2 ^ 24 = w.
Proof.
  intros Hw. unfold is_word in Hw.
  assert (w / 2 ^ 16 = w / 2 ^ 8 / 256) as E1 by (rewrite Z.div_div by lia; f_equal).
  assert (w / 2 ^ 24 = w / 2 ^ 16 / 256) as E2 by (rewrite Z.div_div by lia; f_equal).
  change (w / 2 ^ 8) with (w / 256) in *. change (2 ^ 8) with 256. change (2 ^ 16) with (256 * 256).
  change (2 ^ 24) with (256 * 256 * 256).
  change (2 ^ 16) with (256 * 256) in *. change (2 ^ 24) with (256 * 256 * 256) in *.
  pose proof (Z.div_mod w 256 ltac:(lia)). pose proof (Z.div_mod (w / 256) 256 ltac:(lia)).
  pose proof (Z.div_mod (w / (256 * 256)) 256 ltac:(lia)). rewrite E2, E1 in *. lia.
Qed.

Lemma word_at_le ws i w :
  Forall is_word ws → rd ws i = Ok w → word_at (le_block ws) (4 * i) = Ok w.
Proof.
  intros Hws Hr. pose proof Hr as [Hi Hl]%rd_inv. assert (is_word w) as Hw by by eapply (Forall_lookup_1 is_word ws).
  unfold word_at. pose proof (rd_le ws i w 0 _ Hr eq_refl) as R0. pose proof (rd_le ws i w 1 _ Hr eq_refl) as R1.
  pose proof (rd_le ws i w 2 _ Hr eq_refl) as R2. pose proof (rd_le ws i w 3 _ Hr eq_refl) as R3.
  change (Z.of_nat 0) with 0 in R0. rewrite Z.add_0_r in R0.
  change (Z.of_nat 1) with 1 in R1. change (Z.of_nat 2) with 2 in R2. change (Z.of_nat 3) with 3 in R3.
  rewrite R0, R1, R2, R3. cbn [mbind M_bind]. f_equal.
  rewrite <-(le_sum w Hw) at 5. unfold is_word in Hw.
  pose proof (Z.mod_pos_bound w 256 ltac:(lia)). pose proof (Z.mod_pos_bound (w / 2 ^ 8) 256 ltac:(lia)).
  pose proof (Z.mod_pos_bound (w / 2 ^ 16) 256 ltac:(lia)).
  assert (0 ≤ w / 2 ^ 24 < 256) by (split; [apply Z.div_pos; lia|apply Z.div_lt_upper_bound; lia]).
  rewrite !Z.shiftl_mul_pow2 by lia. 
  generalize dependent (w mod 256). generalize dependent ((w / 2 ^ 8) mod 256).
  generalize dependent ((w / 2 ^ 16) mod 256). generalize dependent (w / 2 ^ 24).
  intros b3 _ H3 b2 _ H2 b1 _ H1 b0 _ H0.
  rewrite (u32_small (b1 * 2 ^ 8)), (u32_small (b2 * 2 ^ 16)), (u32_small (b3 * 2 ^ 24)) by lia.
  rewrite (u32_small (b0 + b1 * 2 ^ 8)) by lia. rewrite (u32_small (_ + b2 * 2 ^ 16)) by lia.
  by rewrite u32_small by lia.
Qed.

Lemma rounds_le ws s (n : nat) i :
  Forall is_word ws → 0 ≤ i → i + 3 * Z.of_nat n ≤ Z.of_nat (length ws) →
  jhash_rounds (le_block ws) (4 * i) s n = jhash2_rounds ws i s n.
Proof.
  intros Hws. revert i s. induction n as [|n IH]; intros i [[a b] c] Hi Hn; cbn [jhash_rounds jhash2_rounds]; [done|].
  destruct (rd_in_bounds ws i) as [x Hx]; [lia|]. destruct (rd_in_bounds ws (i + 1)) as [y Hy]; [lia|].
  destruct (rd_in_bounds ws (i + 2)) as [z Hz]; [lia|].
  replace (4 * i + 4) with (4 * (i + 1)) by lia. replace (4 * i + 8) with (4 * (i + 2)) by lia.
  rewrite (word_at_le ws i x), (word_at_le ws (i + 1) y), (word_at_le ws (i + 2) z), Hx, Hy, Hz by done.
  cbn [mbind M_bind]. replace (4 * i + 12) with (4 * (i + 3)) by lia. apply IH; lia.
Qed.

(** Adding the four bytes of a word one by one adds the word. *)
Lemma add_bytes x w :
  is_word w →
  u32 (u32 (u32 (u32 (x + u32 (Z.shiftl (w / 2 ^ 24) 24)) + u32 (Z.shiftl ((w / 2 ^ 16) mod 256) 16))
        + u32 (Z.shiftl ((w / 2 ^ 8) mod 256) 8)) + u32 (Z.shiftl (w mod 256) 0)) = u32 (x + w).
Proof.
  intros Hw. rewrite <-(le_sum w Hw) at 5. rewrite !Z.shiftl_mul_pow2 by lia. change (2 ^ 0) with 1.
  set (b3 := w / 2 ^ 24 * 2 ^ 24). set (b2 := (w / 2 ^ 16) mod 256 * 2 ^ 16).
  set (b1 := (w / 2 ^ 8) mod 256 * 2 ^ 8). set (b0 := w mod 256).
  rewrite (u32_add_r x b3), (u32_add2 (x + b3) b2), (u32_add2 (x + b3 + b2) b1), u32_add2. f_equal. lia.
Qed.

(** The four cases of the switch that cover word [i] of the key. *)
Lemma add_cases ws i j len o x w :
  Forall is_word ws → rd ws i = Ok w → 4 * i = j + o → o + 4 ≤ len →
  (x ← add_case (le_block ws) j len (o + 4) 24 x;
   x ← add_case (le_block ws) j len (o + 3) 16 x;
   x ← add_case (le_block ws) j len (o + 2) 8 x;
   add_case (le_block ws) j len (o + 1) 0 x) = Ok (u32 (x + w)).
Proof.
  intros Hws Hr Hj Hl. pose proof Hr as [_ Hlk]%rd_inv.
  assert (is_word w) as Hw by by eapply (Forall_lookup_1 is_word ws).
  pose proof (rd_le ws i w 0 _ Hr eq_refl) as R0. pose proof (rd_le ws i w 1 _ Hr eq_refl) as R1.
  pose proof (rd_le ws i w 2 _ Hr eq_refl) as R2. pose proof (rd_le ws i w 3 _ Hr eq_refl) as R3.
  unfold add_case. rewrite !(proj2 (Z.leb_le _ _)) by lia.
  replace (j + (o + 4) - 1) with (4 * i + Z.of_nat 3) by lia. replace (j + (o + 3) - 1) with (4 * i + Z.of_nat 2) by lia.
  replace (j + (o + 2) - 1) with (4 * i + Z.of_nat 1) by lia. replace (j + (o + 1) - 1) with (4 * i + Z.of_nat 0) by lia.
  rewrite R0, R1, R2, R3. cbn [mbind M_bind]. f_equal. by apply add_bytes.
Qed.

Lemma add_case_skip k j len n sh x : len < n → add_case k j len n sh x = Ok x.
Proof. intros H. unfold add_case. by rewrite (proj2 (Z.leb_gt _ _)). Qed.

Lemma jhash2_rounds_ok ws s (n : nat) i :
  0 ≤ i → i + 3 * Z.of_nat n ≤ Z.of_nat (length ws) → ∃ s', jhash2_rounds ws i s n = Ok s'.
Proof.
  revert i s. induction n as [|n IH]; intros i [[a b] c] Hi Hn; cbn [jhash2_rounds]; [by eexists|].
  destruct (rd_in_bounds ws i) as [x ->]; [lia|]. destruct (rd_in_bounds ws (i + 1)) as [y ->]; [lia|].
  destruct (rd_in_bounds ws (i + 2)) as [z ->]; [lia|]. cbn [mbind M_bind]. apply IH; lia.
Qed.

(** Sequencing after the four cases. *)
Lemma bind_word {B} (m1 : M Z) (k : Z → M B) (m2 m3 m4 : Z → M Z) v :
  (x ← m1; x ← m2 x; x ← m3 x; m4 x) = Ok v →
  (x ← m1; x ← m2 x; x ← m3 x; x ← m4 x; k x) = k v.
Proof.
  destruct m1 as [x1|]; cbn; [|done]. destruct (m2 x1) as [x2|]; cbn; [|done].
  destruct (m3 x2) as [x3|]; cbn; [|done]. by intros ->.
Qed.

Local Ltac skip_case n := rewrite (add_case_skip _ _ _ n) by lia; cbn [mbind M_bind].

(** ** Properties *)

(** The word-wise [jhash2] is the byte-wise [jhash] of the same memory: on a
    key of 32-bit words stored least significant byte first, both stay within
    the key and return the same hash. *)
Theorem jhash2_is_jhash (ws : list Z) (n initval : Z) :
  Forall is_word ws → 0 ≤ n ≤ Z.of_nat (length ws) → 4 * n < 2 ^ 32 →
  ∃ v, jhash2 ws n initval = Ok v ∧ jhash (le_block ws) (4 * n) initval = Ok v.
Proof.
  intros Hws Hn H32. pose proof (Z.div_mod n 3 ltac:(lia)) as Hd. pose proof (Z.mod_pos_bound n 3 ltac:(lia)) as Hm.
  unfold jhash, jhash2.
  assert (4 * n / 12 = n / 3) as -> by (change 12 with (4 * 3); apply Z.div_mul_cancel_l; lia).
  assert ((4 * n) mod 12 = 4 * (n mod 3)) as -> by (change 12 with (4 * 3); apply Z.mul_mod_distr_l; lia).
  pose proof (rounds_le ws (JHASH_GOLDEN_RATIO, JHASH_GOLDEN_RATIO, initval) (Z.to_nat (n / 3)) 0 Hws) as Er.
  rewrite Z.mul_0_r in Er. rewrite Er by lia. clear Er.
  destruct (jhash2_rounds_ok ws (JHASH_GOLDEN_RATIO, JHASH_GOLDEN_RATIO, initval) (Z.to_nat (n / 3)) 0)
    as [[[a b] c] ->]; [lia..|].
  cbn [mbind M_bind]. rewrite (Z.mul_comm n 4), (u32_small (4 * n)) by lia.
  set (i := n / 3) in *. set (r := n mod 3) in *.
  skip_case 11. skip_case 10. skip_case 9.
  assert (r = 0 ∨ r = 1 ∨ r = 2) as [Er|[Er|Er]] by lia; rewrite Er.
  - skip_case 8. skip_case 7. skip_case 6. skip_case 5. skip_case 4. skip_case 3. skip_case 2. skip_case 1.
    cbn. by eexists.
  - destruct (rd_in_bounds ws (3 * i)) as [w Hw]; [lia|].
    skip_case 8. skip_case 7. skip_case 6. skip_case 5.
    cbn [mbind M_bind Z.leb Z.compare Pos.compare Pos.compare_cont]. rewrite Hw. cbn [mbind M_bind].
    eexists. split; [done|].
    pose proof (add_cases ws (3 * i) (12 * i) (4 * 1) 0 a w Hws Hw ltac:(lia) ltac:(lia)) as Ec.
    apply (bind_word _ (λ a, Ok (jhash_mix (a, b, u32 (c + 4 * n))).2)) in Ec. exact Ec.
  - destruct (rd_in_bounds ws (3 * i)) as [w Hw]; [lia|]. destruct (rd_in_bounds ws (3 * i + 1)) as [w' Hw']; [lia|].
    cbn [Z.leb Z.compare Pos.compare Pos.compare_cont]. rewrite Hw, Hw'. cbn [mbind M_bind].
    eexists. split; [done|].
    pose proof (add_cases ws (3 * i) (12 * i) (4 * 2) 0 a w Hws Hw ltac:(lia) ltac:(lia)) as Ea.
    pose proof (add_cases ws (3 * i + 1) (12 * i) (4 * 2) 4 b w' Hws Hw' ltac:(lia) ltac:(lia)) as Eb.
    apply (bind_word _ (λ a, Ok (jhash_mix (a, u32 (b + w'), u32 (c + 4 * n))).2)) in Ea.
    rewrite <-Ea. clear Ea.
    apply (bind_word _ (λ b, a ← add_case (le_block ws) (12 * i) (4 * 2) (0 + 4) 24 a;
      a ← add_case (le_block ws) (12 * i) (4 * 2) (0 + 3) 16 a;
      a ← add_case (le_block ws) (12 * i) (4 * 2) (0 + 2) 8 a;
      a ← add_case (le_block ws) (12 * i) (4 * 2) (0 + 1) 0 a;
      Ok (jhash_mix (a, b, u32 (c + 4 * n))).2)) in Eb. exact Eb.
Qed.

Lemma jhash2_is_jhash_witness :
  Forall is_word [1; 2; 3; 0xffffffff; 5] ∧
  ∃ v, jhash2 [1; 2; 3; 0xffffffff; 5] 5 0 = Ok v ∧ jhash (le_block [1; 2; 3; 0xffffffff; 5]) (4 * 5) 0 = Ok v.
Proof.
  assert (Forall is_word [1; 2; 3; 0xffffffff; 5]) as H by (unfold is_word; repeat constructor; lia).
  split; [exact H|]. apply (jhash2_is_jhash [1; 2; 3; 0xffffffff; 5] 5 0 H); cbn; lia.
Defined.
