(* ===== verification/ASPath.v ===== *)
(** AS paths: bgpd/bgp_aspath.c and bgpd/bgp_aspath.h.

    A segment is its type and the AS numbers it holds: the array [as] up to
    [length].  [length] is 16 bits wide, so an operation that lengthens a segment
    past 65535 keeps only the low 16 bits of the new length ([grown]).  The chain
    of segments of a path is a list.  Counters of type [int] are integers: they
    are bounded by the number of AS numbers of a path. *)
From Stdlib Require Import Ascii.
From stdpp Require Import pretty sorting.
From S2P Require Import Prelude Stream Hash Jhash.
Open Scope Z_scope.

Definition AS_SET : Z := 1.
Definition AS_SEQUENCE : Z := 2.
Definition AS_CONFED_SEQUENCE : Z := 3.
Definition AS_CONFED_SET : Z := 4.
Definition BGP_PRIVATE_AS_MIN : Z := 64512.
Definition BGP_PRIVATE_AS_MAX : Z := 65535.
Definition BGP_AS_MAX : Z := 65535.
Definition BGP_AS_TRANS : Z := 23456.
Definition AS_HEADER_SIZE : Z := 2.
Definition AS_SEGMENT_MAX : Z := 255.
Definition ASPATH_STR_DEFAULT_LEN : Z := 32.

Record assegment := Seg { stype : Z; asns : list Z }.

(** [struct aspath] without the reference count, which the interning pool
    holds. *)
Record aspath := AsPath {
  segments : list assegment;
  str : option string;
  str_len : Z;
}.

Definition len (seg : assegment) : Z := Z.of_nat (length (asns seg)).

Definition AS_VALUE_SIZE (use32bit : bool) : Z := if use32bit then 4 else 2.
Definition ASSEGMENT_SIZE (n : Z) (use32bit : bool) : Z := AS_HEADER_SIZE + n * AS_VALUE_SIZE use32bit.
Definition ASSEGMENT_TYPES_PACKABLE (x y : assegment) : bool :=
  (stype x =? stype y) && (stype x =? AS_SEQUENCE).
Definition ASSEGMENTS_PACKABLE (x y : assegment) : bool :=
  ASSEGMENT_TYPES_PACKABLE x y && (len x + len y <=? AS_SEGMENT_MAX).

(** The first [length] cells of an array that was extended to [l], with [length]
    kept to 16 bits. *)
Definition grown (l : list Z) : list Z := take (Z.to_nat (u16 (Z.of_nat (length l)))) l.

Definition assegment_prepend_asns (seg : assegment) (asnum num : Z) : assegment :=
  if num =? 0 then seg
  else if AS_SEGMENT_MAX <=? num then seg
  else Seg (stype seg) (grown (replicate (Z.to_nat num) asnum ++ asns seg)).

Definition assegment_append_asns (seg : assegment) (asnos : list Z) : assegment :=
  Seg (stype seg) (grown (asns seg ++ asnos)).

Definition int_cmp (as1 as2 : Z) : Z := if as1 =? as2 then 0 else if as2 <? as1 then 1 else -1.

(** [qsort] with [int_cmp]. *)
Definition not_after (as1 as2 : Z) : Prop := int_cmp as1 as2 <= 0.
#[export] Instance not_after_dec : RelDecision not_after.
Proof. intros as1 as2. unfold not_after. apply _. Defined.
Definition sort_asns (l : list Z) : list Z := merge_sort not_after l.

(** The loop over [i] with [as[tail] = cur]. *)
Fixpoint weed (cur : Z) (rest : list Z) : list Z :=
  match rest with
  | [] => [cur]
  | x :: rest' => if cur =? x then weed cur rest' else cur :: weed x rest'
  end.

Definition weed_dupes (l : list Z) : list Z :=
  match l with [] => [] | x :: l' => weed x l' end.

Definition is_set_type (t : Z) : bool := (t =? AS_SET) || (t =? AS_CONFED_SET).

(** The sorting of the pinned segment. *)
Definition pin_segment (seg : assegment) : assegment :=
  if is_set_type (stype seg) then Seg (stype seg) (weed_dupes (sort_asns (asns seg))) else seg.

(** The loops of [assegment_normalise], with [pin] already sorted. *)
Fixpoint normalise_from (pin : assegment) (rest : list assegment) : list assegment :=
  match rest with
  | [] => [pin]
  | next :: rest' =>
      if ASSEGMENT_TYPES_PACKABLE pin next
      then normalise_from (assegment_append_asns pin (asns next)) rest'
      else pin :: normalise_from (pin_segment next) rest'
  end.

Definition assegment_normalise (segs : list assegment) : list assegment :=
  match segs with [] => [] | seg :: rest => normalise_from (pin_segment seg) rest end.

(** ** Counting *)

Fixpoint assegment_count_asns (segs : list assegment) (from : Z) : Z :=
  match segs with
  | [] => 0
  | seg :: segs' => (len seg - from) + assegment_count_asns segs' 0
  end.

Fixpoint count_confeds (segs : list assegment) : Z :=
  match segs with
  | [] => 0
  | seg :: segs' =>
      (if stype seg =? AS_CONFED_SEQUENCE then len seg
       else if stype seg =? AS_CONFED_SET then 1 else 0) + count_confeds segs'
  end.
Definition aspath_count_confeds (as_ : aspath) : Z := count_confeds (segments as_).

Fixpoint count_hops (segs : list assegment) : Z :=
  match segs with
  | [] => 0
  | seg :: segs' =>
      (if stype seg =? AS_SEQUENCE then len seg
       else if stype seg =? AS_SET then 1 else 0) + count_hops segs'
  end.
Definition aspath_count_hops (as_ : aspath) : Z := count_hops (segments as_).

Fixpoint segments_size (segs : list assegment) : Z :=
  match segs with
  | [] => 0
  | seg :: segs' => ASSEGMENT_SIZE (len seg) true + segments_size segs'
  end.
Definition aspath_size (as_ : aspath) : Z := segments_size (segments as_).

(** All AS numbers of a chain, left to right. *)
Definition all_asns (segs : list assegment) : list Z := segs ≫= asns.

Definition is_private (a : Z) : bool := (BGP_PRIVATE_AS_MIN <=? a) && (a <=? BGP_PRIVATE_AS_MAX).

Definition aspath_highest (as_ : aspath) : Z :=
  foldl (λ highest a, if (highest <? a) && negb (is_private a) then a else highest) 0
    (all_asns (segments as_)).

Definition aspath_leftmost (as_ : aspath) : Z :=
  match segments as_ with
  | Seg t (a :: _) :: _ => if t =? AS_SEQUENCE then a else 0
  | _ => 0
  end.

Definition aspath_has_as4 (as_ : aspath) : bool :=
  existsb (λ a, BGP_AS_MAX <? a) (all_asns (segments as_)).

(** ** Text *)

Definition aspath_delimiter_start (t : Z) : string :=
  if t =? AS_SET then "{" else if t =? AS_CONFED_SET then "["
  else if t =? AS_CONFED_SEQUENCE then "(" else " ".
Definition aspath_delimiter_end (t : Z) : string :=
  if t =? AS_SET then "}" else if t =? AS_CONFED_SET then "]"
  else if t =? AS_CONFED_SEQUENCE then ")" else " ".

(** The buffer [str_buf]: its size, the text written and [len], the sum of the
    results of [snprintf]. *)
Record strbuf := StrBuf { bsize : Z; btext : string; blen : Z }.

(** [len += snprintf (str_buf + len, str_size - len, ...)]: the text is cut to
    the room there is, the result is its full length. *)
Definition snprintf (b : strbuf) (s : string) : M strbuf :=
  let room := bsize b - blen b in
  if room <? 0 then Fault Undefined else
  let n := Z.of_nat (String.length s) in
  let written := if n <? room then s else String.substring 0 (Z.to_nat (room - 1)) s in
  Ok (StrBuf (bsize b) (btext b +:+ written) (blen b + n)).

Definition print_asn (a : Z) : string := pretty (Z.to_N a).

Fixpoint put_asns (b : strbuf) (seperator : string) (l : list Z) : M strbuf :=
  match l with
  | [] => Ok b
  | a :: l' =>
      b ← snprintf b (print_asn a);
      b ← match l' with [] => Ok b | _ => snprintf b seperator end;
      put_asns b seperator l'
  end.

Definition ASN_STR_LEN : Z := 10 + 1.
Definition SEGMENT_STR_LEN (seg : assegment) : Z := len seg * ASN_STR_LEN + 2 + 1 + 1.

Definition seperator (t : Z) : option string :=
  if (t =? AS_SET) || (t =? AS_CONFED_SET) then Some ","%string
  else if (t =? AS_SEQUENCE) || (t =? AS_CONFED_SEQUENCE) then Some " "%string
  else None.

(** The loop over the segments; [None] is the early return on an unknown
    segment type. *)
Fixpoint put_segments (b : strbuf) (segs : list assegment) : M (option strbuf) :=
  match segs with
  | [] => Ok (Some b)
  | seg :: segs' =>
      match seperator (stype seg) with
      | None => Ok None
      | Some sep =>
          let b := if bsize b <? blen b + SEGMENT_STR_LEN seg
                   then StrBuf (blen b + SEGMENT_STR_LEN seg) (btext b) (blen b) else b in
          b ← (if negb (stype seg =? AS_SEQUENCE)
               then snprintf b (aspath_delimiter_start (stype seg)) else Ok b);
          b ← put_asns b sep (asns seg);
          b ← (if negb (stype seg =? AS_SEQUENCE)
               then snprintf b (aspath_delimiter_end (stype seg)) else Ok b);
          b ← match segs' with [] => Ok b | _ => snprintf b " " end;
          put_segments b segs'
      end
  end.

Definition aspath_make_str_count (segs : list assegment) : M aspath :=
  match segs with
  | [] => Ok (AsPath [] (Some ""%string) 0)
  | _ =>
      let str_size := Z.max (assegment_count_asns segs 0 * ASN_STR_LEN + 2 + 1) ASPATH_STR_DEFAULT_LEN in
      r ← put_segments (StrBuf str_size "" 0) segs;
      match r with
      | None => Ok (AsPath segs None 0)
      | Some b =>
          assert! (blen b <? bsize b) ;;
          Ok (AsPath segs (Some (btext b)) (u16 (blen b)))
      end
  end.

Definition aspath_str_update (segs : list assegment) : M aspath := aspath_make_str_count segs.

Definition aspath_empty_get : M aspath := aspath_make_str_count [].

Definition aspath_dup (as_ : aspath) : M aspath :=
  match str as_ with
  | None => Ok (AsPath (segments as_) None 0)
  | Some s =>
      (* the copy has [buflen = str_len + 1] bytes, kept to 16 bits *)
      if negb (Z.of_nat (String.length s) =? str_len as_) || (65535 <=? str_len as_)
      then Fault Undefined
      else Ok (AsPath (segments as_) (Some s) (str_len as_))
  end.

Inductive as_token :=
  | as_token_asval (asno : Z)
  | as_token_set_start
  | as_token_set_end
  | as_token_confed_seq_start
  | as_token_confed_seq_end
  | as_token_confed_set_start
  | as_token_confed_set_end
  | as_token_unknown.

Definition isspace (c : Ascii.ascii) : bool :=
  let n := Ascii.nat_of_ascii c in ((n =? 32) || ((9 <=? n) && (n <=? 13)))%nat.
Definition isdigit (c : Ascii.ascii) : bool :=
  let n := Ascii.nat_of_ascii c in ((48 <=? n) && (n <=? 57))%nat.
Definition digit (c : Ascii.ascii) : Z := Z.of_nat (Ascii.nat_of_ascii c) - 48.

(** Skips white space and commas. *)
Fixpoint skip_seperators (p : string) : string :=
  match p with
  | String c p' => if isspace c || (Ascii.eqb c ","%char) then skip_seperators p' else p
  | EmptyString => p
  end.

(** While there are digits: [asval *= 10; asval += digit;] on a 32-bit [asval]. *)
Fixpoint read_digits (p : string) (asval : Z) : Z * string :=
  match p with
  | String c p' => if isdigit c then read_digits p' (u32 (u32 (asval * 10) + digit c)) else (asval, p)
  | EmptyString => (asval, p)
  end.

(** The token and the rest of the string, or [None] at its end.  An unknown
    token does not advance. *)
Definition aspath_gettoken (buf : string) : option (as_token * string) :=
  match skip_seperators buf with
  | EmptyString => None
  | String c p =>
      if Ascii.eqb c "{"%char then Some (as_token_set_start, p)
      else if Ascii.eqb c "}"%char then Some (as_token_set_end, p)
      else if Ascii.eqb c "("%char then Some (as_token_confed_seq_start, p)
      else if Ascii.eqb c ")"%char then Some (as_token_confed_seq_end, p)
      else if Ascii.eqb c "["%char then Some (as_token_confed_set_start, p)
      else if Ascii.eqb c "]"%char then Some (as_token_confed_set_end, p)
      else if isdigit c then
        let '(asval, rest) := read_digits p (digit c) in Some (as_token_asval asval, rest)
      else Some (as_token_unknown, String c p)
  end.

(** Appends to the last segment. *)
Fixpoint aspath_as_add (segs : list assegment) (asno : Z) : list assegment :=
  match segs with
  | [] => []
  | [seg] => [assegment_append_asns seg [asno]]
  | seg :: segs' => seg :: aspath_as_add segs' asno
  end.

Definition aspath_segment_add (segs : list assegment) (t : Z) : list assegment := segs ++ [Seg t []].

(** The loop of [aspath_str2aspath]; [None] on an unknown token.  Every other
    token takes at least one character. *)
Fixpoint str2segments (fuel : nat) (s : string) (segs : list assegment) (as_type : Z) (needtype : bool)
    : option (list assegment) :=
  match aspath_gettoken s with
  | None => Some segs
  | Some (token, s') =>
      match fuel with
      | O => None
      | S fuel' =>
          let start t := str2segments fuel' s' (aspath_segment_add segs t) t false in
          let finish := str2segments fuel' s' segs AS_SEQUENCE true in
          match token with
          | as_token_asval asno =>
              let segs := if needtype then aspath_segment_add segs as_type else segs in
              str2segments fuel' s' (aspath_as_add segs asno) as_type false
          | as_token_set_start => start AS_SET
          | as_token_confed_seq_start => start AS_CONFED_SEQUENCE
          | as_token_confed_set_start => start AS_CONFED_SET
          | as_token_set_end | as_token_confed_seq_end | as_token_confed_set_end => finish
          | as_token_unknown => None
          end
      end
  end.

Definition aspath_str2aspath (s : string) : M (option aspath) :=
  match str2segments (String.length s) s [] AS_SEQUENCE true with
  | None => Ok None
  | Some segs => p ← aspath_make_str_count segs; Ok (Some p)
  end.

(** ** Wire format *)

Definition known_type (t : Z) : bool :=
  (t =? AS_SEQUENCE) || (t =? AS_SET) || (t =? AS_CONFED_SEQUENCE) || (t =? AS_CONFED_SET).

(** [for (i = 0; i < segh.length; i++) seg->as[i] = ...;] *)
Fixpoint get_asns (s : stream) (n : nat) (use32bit : bool) : M (stream * list Z) :=
  match n with
  | O => Ok (s, [])
  | S n' =>
      '(s, a) ← (if use32bit then stream_getl s else stream_getw s);
      '(s, l) ← get_asns s n' use32bit;
      Ok (s, a :: l)
  end.

(** The loop of [assegments_parse]: [None] for the malformed cases.  Each round
    takes at least four bytes. *)
Fixpoint parse_loop (fuel : nat) (s : stream) (bytes length_ : Z) (use32bit : bool)
    : M (stream * option (list assegment)) :=
  if length_ <=? bytes then Ok (s, Some []) else
  if length_ - bytes <=? AS_HEADER_SIZE then Ok (s, None) else
  '(s, t) ← stream_getc s;
  '(s, n) ← stream_getc s;
  let seg_size := ASSEGMENT_SIZE n use32bit in
  if (length_ <? bytes + seg_size) || (n =? 0) then Ok (s, None) else
  if negb (known_type t) then Ok (s, None) else
  '(s, l) ← get_asns s (Z.to_nat n) use32bit;
  match fuel with
  | O => Fault Undefined
  | S fuel' =>
      '(s, r) ← parse_loop fuel' s (bytes + seg_size) length_ use32bit;
      Ok (s, match r with None => None | Some segs => Some (Seg t l :: segs) end)
  end.

Definition assegments_parse (s : stream) (length_ : Z) (use32bit : bool) : M (stream * option (list assegment)) :=
  if length_ =? 0 then Ok (s, Some []) else
  if (STREAM_READABLE s <? length_) || (STREAM_READABLE s <? AS_HEADER_SIZE) || negb (length_ mod 2 =? 0)
  then Ok (s, None) else
  '(s, r) ← parse_loop (Z.to_nat length_) s 0 length_ use32bit;
  Ok (s, match r with None => None | Some segs => Some (assegment_normalise segs) end).

(** [assegment_data_put] of the first [n] numbers of [l]. *)
Fixpoint data_put (s : stream) (l : list Z) (n : nat) (use32bit : bool) : M stream :=
  match n with
  | O => Ok s
  | S n' =>
      match l with
      | [] => Fault Undefined
      | a :: l' =>
          '(s, _) ← (if use32bit then stream_putl s a
                     else if a <=? BGP_AS_MAX then stream_putw s (u16 a)
                     else stream_putw s BGP_AS_TRANS);
          data_put s l' n' use32bit
      end
  end.

Definition assegment_data_put (s : stream) (l : list Z) (num : Z) (use32bit : bool) : M stream :=
  assert! (num <=? AS_SEGMENT_MAX) ;;
  data_put s l (Z.to_nat num) use32bit.

Definition assegment_header_put (s : stream) (t length_ : Z) : M (stream * Z) :=
  assert! (length_ <=? AS_SEGMENT_MAX) ;;
  '(s, _) ← stream_putc s t;
  lenp ← stream_get_endp s;
  '(s, _) ← stream_putc s (u8 length_);
  Ok (s, lenp).

(** The loop that splits an overlength segment, with the counters [written] and
    [bytes]. *)
Fixpoint put_overlength (fuel : nat) (s : stream) (seg : assegment) (written bytes : Z) (use32bit : bool)
    : M (stream * Z * Z) :=
  if negb (AS_SEGMENT_MAX <? len seg - written) then Ok (s, written, bytes) else
  match fuel with
  | O => Fault Undefined
  | S fuel' =>
      '(s, _) ← assegment_header_put s (stype seg) AS_SEGMENT_MAX;
      s ← assegment_data_put s (asns seg) AS_SEGMENT_MAX use32bit;
      let written := written + AS_SEGMENT_MAX in
      put_overlength fuel' s seg written (bytes + ASSEGMENT_SIZE written use32bit) use32bit
  end.

(** The packing of following sequences into the segment just written. *)
Fixpoint put_packed (s : stream) (seg : assegment) (written lenp asns_packed : Z) (next : list assegment)
    (use32bit : bool) : M (stream * Z * list assegment) :=
  match next with
  | n :: next' =>
      if ASSEGMENTS_PACKABLE seg n then
        s ← assegment_data_put s (asns n) (len n) use32bit;
        '(s, _) ← stream_putc_at s lenp (u8 (len seg - written + len n));
        put_packed s seg written lenp (asns_packed + len n) next' use32bit
      else Ok (s, asns_packed, next)
  | [] => Ok (s, asns_packed, [])
  end.

(** The loop over the segments; it takes at least one in each round. *)
Fixpoint put_loop (fuel : nat) (s : stream) (segs : list assegment) (bytes : Z) (use32bit : bool)
    : M (stream * Z) :=
  match segs with
  | [] => Ok (s, bytes)
  | seg :: rest =>
      if negb (ASSEGMENT_SIZE (len seg) use32bit <=? STREAM_WRITEABLE s) then Ok (s, bytes) else
      match fuel with
      | O => Fault Undefined
      | S fuel' =>
          '(s, written, bytes) ← put_overlength (length (asns seg)) s seg 0 bytes use32bit;
          '(s, lenp) ← assegment_header_put s (stype seg) (len seg - written);
          s ← assegment_data_put s (drop (Z.to_nat written) (asns seg)) (len seg - written) use32bit;
          '(s, asns_packed, rest) ← put_packed s seg written lenp 0 rest use32bit;
          put_loop fuel' s rest
            (bytes + ASSEGMENT_SIZE (len seg - written + asns_packed) use32bit) use32bit
      end
  end.

Definition aspath_put (s : stream) (segs : list assegment) (use32bit : bool) : M (stream * Z) :=
  match segs with
  | [] => Ok (s, 0)
  | seg :: _ => if len seg =? 0 then Ok (s, 0) else put_loop (length segs) s segs 0 use32bit
  end.

(** ** Aggregation *)

(** [for (match = 0; match < minlen; match++) if (as1[match] != as2[match]) break;] *)
Fixpoint match_asns (l1 l2 : list Z) : nat :=
  match l1, l2 with
  | a :: l1', b :: l2' => if a =? b then S (match_asns l1' l2') else 0
  | _, _ => 0
  end.

(** The common leading segments: what was copied, [match], and where the loop
    stopped in the two paths. *)
Fixpoint aggregate_lead (seg1 seg2 acc : list assegment) (mtch : nat)
    : list assegment * nat * list assegment * list assegment :=
  match seg1, seg2 with
  | x :: seg1', y :: seg2' =>
      if negb (stype x =? stype y) then (acc, mtch, seg1, seg2) else
      let m := match_asns (asns x) (asns y) in
      let acc := if (m =? 0)%nat then acc
                 else acc ++ [assegment_append_asns (Seg (stype x) []) (take m (asns x))] in
      if negb (m =? min (length (asns x)) (length (asns y)))%nat
         || negb (m =? length (asns x))%nat || negb (length (asns x) =? length (asns y))%nat
      then (acc, m, seg1, seg2)
      else aggregate_lead seg1' seg2' acc m
  | _, _ => (acc, mtch, seg1, seg2)
  end.

(** [asset] is the last segment of the path once it exists.  Its 16-bit length
    must not wrap: the new number is stored at [length - 1]. *)
Definition aspath_aggregate_as_set_add (asset : option (list Z)) (a : Z) : M (option (list Z)) :=
  match asset with
  | None => Ok (Some [a])
  | Some l =>
      if existsb (Z.eqb a) l then Ok (Some l)
      else if u16 (Z.of_nat (length l) + 1) =? 0 then Fault Undefined
      else Ok (Some (l ++ [a]))
  end.

Fixpoint add_all (asset : option (list Z)) (l : list Z) : M (option (list Z)) :=
  match l with
  | [] => Ok asset
  | a :: l' => asset ← aspath_aggregate_as_set_add asset a; add_all asset l'
  end.

(** [for (i = from; ...)] over the first segment, then all of the others. *)
Definition aggregate_rest (asset : option (list Z)) (from : nat) (segs : list assegment) : M (option (list Z)) :=
  match segs with
  | [] => Ok asset
  | seg :: segs' => add_all asset (drop from (asns seg) ++ all_asns segs')
  end.

Definition aspath_aggregate (as1 as2 : list assegment) : M aspath :=
  let '(lead, mtch, rest1, rest2) := aggregate_lead as1 as2 [] 0 in
  asset ← aggregate_rest None mtch rest1;
  asset ← aggregate_rest asset mtch rest2;
  let segs := match asset with None => lead | Some l => lead ++ [Seg AS_SET l] end in
  aspath_str_update (assegment_normalise segs).

(** ** Checks *)

(** A path pointer may be null. *)
Definition aspath_firstas_check (as_ : option aspath) (asno : Z) : M bool :=
  match as_ with
  | Some (AsPath (seg :: _) _ _) =>
      if stype seg =? AS_SEQUENCE then a ← rd (asns seg) 0; Ok (a =? asno) else Ok false
  | _ => Ok false
  end.

Definition count_as (asno : Z) (l : list Z) : Z := Z.of_nat (length (filter (λ a, a = asno) l)).

Definition aspath_loop_check (as_ : option aspath) (asno : Z) : Z :=
  match as_ with
  | Some p => count_as asno (all_asns (segments p))
  | None => 0
  end.

Definition aspath_private_as_check (as_ : option aspath) : bool :=
  match as_ with
  | Some p =>
      match segments p with [] => false | _ => forallb is_private (all_asns (segments p)) end
  | None => false
  end.

Definition is_confed_type (t : Z) : bool := (t =? AS_CONFED_SEQUENCE) || (t =? AS_CONFED_SET).

Definition aspath_confed_check (as_ : option aspath) : bool :=
  match as_ with
  | Some p => existsb (λ seg, is_confed_type (stype seg)) (segments p)
  | None => false
  end.

Definition aspath_left_confed_check (as_ : option aspath) : bool :=
  match as_ with
  | Some (AsPath (seg :: _) _ _) => is_confed_type (stype seg)
  | _ => false
  end.

(** ** Prepending, filtering, reconciling *)

(** [last->next = as2->segments] needs a last segment in [as1]. *)
Definition aspath_merge (as1 as2 : list assegment) : M aspath :=
  match as1 with
  | [] => Fault Undefined
  | _ => aspath_str_update (as1 ++ as2)
  end.

Fixpoint delete_confed (segs : list assegment) : list assegment :=
  match segs with
  | seg :: segs' => if is_confed_type (stype seg) then delete_confed segs' else segs
  | [] => []
  end.

Definition aspath_delete_confed_seq (p : aspath) : M aspath :=
  match segments p with
  | seg :: _ => if stype seg =? AS_CONFED_SEQUENCE
                then aspath_str_update (delete_confed (segments p)) else Ok p
  | [] => Ok p
  end.

(** Splits off the last segment. *)
Fixpoint split_last (seg : assegment) (segs : list assegment) : list assegment * assegment :=
  match segs with
  | [] => ([], seg)
  | seg' :: segs' => let '(init, last) := split_last seg' segs' in (seg :: init, last)
  end.

Definition aspath_prepend (as1 as2 : aspath) : M aspath :=
  match segments as2, segments as1 with
  | [], _ => aspath_str_update (segments as1)
  | _, [] => Ok as2
  | seg2 :: rest2, hd1 :: rest1 =>
      let '(init1, seg1) := split_last hd1 rest1 in
      if (stype seg1 =? AS_SEQUENCE) && (stype seg2 =? AS_CONFED_SEQUENCE) then
        _ ← aspath_delete_confed_seq as2;
        (* [seg2] has been freed: the comparison of its type reads freed memory *)
        Fault Undefined
      else if negb (stype seg1 =? stype seg2) then aspath_merge (segments as1) (segments as2)
      else if stype seg1 =? AS_SEQUENCE then
        aspath_str_update (init1 ++ assegment_append_asns seg1 (asns seg2) :: rest2)
      else aspath_merge (segments as1) (segments as2)
  end.

Definition excluded (exclude : list assegment) (a : Z) : bool :=
  existsb (λ seg, existsb (Z.eqb a) (asns seg)) exclude.

(** One source segment; a segment that loses all its numbers is dropped. *)
Definition filter_segment (exclude : list assegment) (seg : assegment) : list assegment :=
  match filter (λ a, excluded exclude a = false) (asns seg) with
  | [] => []
  | l => [Seg (stype seg) l]
  end.

Definition aspath_filter_exclude (source exclude_list : aspath) : M aspath :=
  aspath_str_update (segments source ≫= filter_segment (segments exclude_list)).

Definition aspath_add_asns (p : aspath) (asno t num : Z) : M aspath :=
  match segments p with
  | seg :: rest =>
      if stype seg =? t then
        (* [num] becomes a signed [int] *)
        if 2 ^ 31 <=? num then Fault Undefined
        else aspath_str_update (assegment_prepend_asns seg asno num :: rest)
      else if 2 ^ 16 <=? num then Fault Undefined
      else
        let new := Seg t (replicate (Z.to_nat num) asno) in
        aspath_str_update (new :: (if len seg =? 0 then rest else seg :: rest))
  | [] =>
      if 2 ^ 16 <=? num then Fault Undefined
      else aspath_str_update [Seg t (replicate (Z.to_nat num) asno)]
  end.

Definition aspath_add_seq_n (p : aspath) (asno num : Z) : M aspath := aspath_add_asns p asno AS_SEQUENCE num.
Definition aspath_add_seq (p : aspath) (asno : Z) : M aspath := aspath_add_asns p asno AS_SEQUENCE 1.
Definition aspath_add_confed_seq (p : aspath) (asno : Z) : M aspath := aspath_add_asns p asno AS_CONFED_SEQUENCE 1.

Definition aspath_cmp_left (as1 as2 : option aspath) : M bool :=
  match as1, as2 with
  | Some p1, Some p2 =>
      match delete_confed (segments p1), delete_confed (segments p2) with
      | seg1 :: _, seg2 :: _ =>
          if (stype seg1 =? AS_SEQUENCE) && (stype seg2 =? AS_SEQUENCE) then
            a ← rd (asns seg1) 0;
            b ← rd (asns seg2) 0;
            Ok (a =? b)
          else Ok false
      | _, _ => Ok false
      end
  | _, _ => Ok false
  end.

Definition aspath_cmp_left_confed (as1 as2 : option aspath) : M bool :=
  match as1, as2 with
  | Some (AsPath (seg1 :: _) _ _), Some (AsPath (seg2 :: _) _ _) =>
      if negb (stype seg1 =? AS_CONFED_SEQUENCE) || negb (stype seg2 =? AS_CONFED_SEQUENCE) then Ok false else
      a ← rd (asns seg1) 0;
      b ← rd (asns seg2) 0;
      Ok (a =? b)
  | _, _ => Ok false
  end.

(** The copying loop of [aspath_reconcile_as4]. *)
Fixpoint reconcile_loop (segs : list assegment) (hops cpasns : Z) : M (list assegment) :=
  match segs with
  | [] => Ok []
  | seg :: segs' =>
      if negb (0 <? hops) then Ok [] else
      let '(hops, cpasns) :=
        if is_set_type (stype seg) then (hops - 1, len seg)
        else if stype seg =? AS_CONFED_SEQUENCE then
          let hops := if hops <? len seg then len seg else hops in
          (hops - len seg, Z.min (len seg) hops)
        else if stype seg =? AS_SEQUENCE then (hops - len seg, Z.min (len seg) hops)
        else (hops, cpasns) in
      assert! (cpasns <=? len seg) ;;
      rest ← reconcile_loop segs' hops cpasns;
      Ok (assegment_append_asns (Seg (stype seg) []) (take (Z.to_nat cpasns) (asns seg)) :: rest)
  end.

Definition aspath_reconcile_as4 (p as4path : aspath) : M aspath :=
  let hops := (aspath_count_hops p + aspath_count_confeds p) - aspath_count_hops as4path in
  let hops := if hops <? 0 then aspath_count_hops p else hops in
  if hops =? 0 then aspath_dup as4path else
  newpath ← reconcile_loop (segments p) hops 0;
  as4 ← aspath_dup as4path;
  mergedpath ← aspath_merge newpath (segments as4);
  aspath_str_update (assegment_normalise (segments mergedpath)).

(** ** Comparison and interning *)

Fixpoint asns_eq (l1 l2 : list Z) : bool :=
  match l1, l2 with
  | [], [] => true
  | a :: l1', b :: l2' => (a =? b) && asns_eq l1' l2'
  | _, _ => false
  end.

Fixpoint aspath_cmp (seg1 seg2 : list assegment) : bool :=
  match seg1, seg2 with
  | [], [] => true
  | x :: seg1', y :: seg2' =>
      (stype x =? stype y) && (len x =? len y) && asns_eq (asns x) (asns y) && aspath_cmp seg1' seg2'
  | _, _ => false
  end.

Definition string_bytes (s : string) : list Z :=
  (λ c, Z.of_nat (Ascii.nat_of_ascii c)) <$> String.list_ascii_of_string s.

(** [aspath_key_make]: the string is made if it is missing. *)
Definition aspath_key_make (segs : list assegment) : M Z :=
  p ← aspath_make_str_count segs;
  match str p with
  | Some s => jhash (string_bytes s) (str_len p) 2334325
  | None => Fault Undefined
  end.

(** The key of a stored path, for the hash table. *)
Definition aspath_key (segs : list assegment) : Z :=
  match aspath_key_make segs with Ok k => k | Fault _ => 0 end.

Definition aspath_intern (P : pool (list assegment)) (a : loc) : M (pool (list assegment) * loc) :=
  intern aspath_key aspath_cmp P a.
Definition aspath_unintern (P : pool (list assegment)) (a : loc) : M (pool (list assegment) * option loc) :=
  unintern aspath_key aspath_cmp P a.

(** [aspath_parse]: the parsed segments are interned; [a] is where
    [aspath_hash_alloc] allocates the path if it is new. *)
Definition aspath_parse (P : pool (list assegment)) (a : loc) (s : stream) (length_ : Z) (use32bit : bool)
    : M (pool (list assegment) * stream * option loc) :=
  if negb (length_ mod 2 =? 0) then Ok (P, s, None) else
  '(s, r) ← assegments_parse s length_ use32bit;
  match r with
  | None => Ok (P, s, None)
  | Some segs =>
      '(P, find) ← aspath_intern (Pool (<[a:=Obj 0 segs]> (objs P)) (table P)) a;
      Ok (P, s, Some find)
  end.
