(* ===== verification/ASPathSpec.v ===== *)
(** Correctness of the AS path operations of ASPath.v: normal form, text and
    wire round trips, hop counts, loop detection. *)
From Stdlib Require Import Ascii.
From stdpp Require Import pretty sorting.
From S2P Require Import Prelude Stream Hash Jhash ASPath.
Open Scope Z_scope.

#[local] Arguments String.append !_ _ : simpl nomatch.

(** ** Segments *)

(** The numbers of the path fit the 16-bit lengths. *)
Definition fits (l : list Z) : Prop := Z.of_nat (length l) < 2 ^ 16.

Lemma grown_id l : fits l → grown l = l.
Proof.
  intros H. unfold grown, fits in *. unfold u16. rewrite Z.mod_small by lia. apply take_ge. lia.
Qed.

Lemma all_asns_app s1 s2 : all_asns (s1 ++ s2) = all_asns s1 ++ all_asns s2.
Proof. unfold all_asns. apply bind_app. Qed.

Lemma all_asns_cons seg segs : all_asns (seg :: segs) = asns seg ++ all_asns segs.
Proof. done. Qed.

Lemma fits_app_l l1 l2 : fits (l1 ++ l2) → fits l1.
Proof. unfold fits. rewrite length_app. lia. Qed.
Lemma fits_app_r l1 l2 : fits (l1 ++ l2) → fits l2.
Proof. unfold fits. rewrite length_app. lia. Qed.

(** ** Normal form *)

Definition sorted_seg (seg : assegment) : Prop :=
  is_set_type (stype seg) = true → StronglySorted Z.lt (asns seg).

(** Sets are strictly sorted and no two AS_SEQUENCE segments follow each
    other. *)
Fixpoint normal (segs : list assegment) : Prop :=
  match segs with
  | [] => True
  | x :: rest =>
      sorted_seg x ∧
      match rest with y :: _ => ASSEGMENT_TYPES_PACKABLE x y = false | [] => True end ∧
      normal rest
  end.

Lemma weed_elem a cur rest : a ∈ weed cur rest ↔ a ∈ cur :: rest.
Proof.
  revert cur. induction rest as [|x rest IH]; intros cur; cbn [weed]; [done|].
  destruct (Z.eqb_spec cur x) as [->|Hne]; rewrite ?elem_of_cons, IH, !elem_of_cons; naive_solver.
Qed.

Lemma weed_dupes_elem a l : a ∈ weed_dupes l ↔ a ∈ l.
Proof. destruct l; cbn; [done|]. apply weed_elem. Qed.

Lemma weed_sorted cur rest :
  StronglySorted Z.le (cur :: rest) → StronglySorted Z.lt (weed cur rest).
Proof.
  revert cur. induction rest as [|x rest IH]; intros cur Hs; cbn [weed]; [by repeat constructor|].
  apply StronglySorted_inv in Hs as [Hs Hall]. apply Forall_cons in Hall as [Hx Hall].
  destruct (Z.eqb_spec cur x) as [->|Hne]; [by apply IH|].
  constructor; [by apply IH|]. apply Forall_forall. intros a Ha%weed_elem.
  apply StronglySorted_inv in Hs as [_ Hxs]. rewrite Forall_forall in Hxs.
  apply elem_of_cons in Ha as [->|Ha]; [lia|]. specialize (Hxs a Ha). lia.
Qed.

Lemma weed_id cur rest : StronglySorted Z.lt (cur :: rest) → weed cur rest = cur :: rest.
Proof.
  revert cur. induction rest as [|x rest IH]; intros cur Hs; cbn [weed]; [done|].
  apply StronglySorted_inv in Hs as [Hs Hall]. apply Forall_cons in Hall as [Hx _].
  rewrite (proj2 (Z.eqb_neq cur x)) by lia. by rewrite IH.
Qed.

Lemma int_cmp_le a b : not_after a b ↔ a <= b.
Proof. unfold not_after, int_cmp. destruct (Z.eqb_spec a b), (Z.ltb_spec b a); lia. Qed.

#[local] Instance int_cmp_total : Total not_after.
Proof. intros x y. rewrite !int_cmp_le. lia. Qed.
#[local] Instance int_cmp_trans : Transitive not_after.
Proof. intros x y z. rewrite !int_cmp_le. lia. Qed.

Lemma sort_sorted l : StronglySorted Z.le (sort_asns l).
Proof.
  assert (StronglySorted not_after (sort_asns l)) as Hs by (apply StronglySorted_merge_sort; apply _).
  induction Hs as [|x k _ IH Hall]; constructor; [done|]. eapply Forall_impl; [done|]. intros y. apply int_cmp_le.
Qed.

Lemma sort_id l : StronglySorted Z.lt l → sort_asns l = l.
Proof.
  intros Hs. apply (StronglySorted_unique Z.le).
  - apply sort_sorted.
  - induction Hs as [|x l _ IH Hall]; constructor; [done|]. eapply Forall_impl; [done|]. cbn. lia.
  - apply merge_sort_Permutation.
Qed.

Lemma pin_sorted seg : sorted_seg (pin_segment seg).
Proof.
  unfold pin_segment, sorted_seg. destruct (is_set_type (stype seg)) eqn:Es; cbn; [|congruence].
  intros _. pose proof (sort_sorted (asns seg)) as Hs. unfold weed_dupes.
  destruct (sort_asns (asns seg)); [constructor|by apply weed_sorted].
Qed.

Lemma pin_id seg : sorted_seg seg → pin_segment seg = seg.
Proof.
  unfold pin_segment, sorted_seg. destruct seg as [t l]; cbn. destruct (is_set_type t); [|done].
  intros Hs. specialize (Hs eq_refl). rewrite sort_id by done. destruct l; cbn; [done|].
  by rewrite weed_id.
Qed.

Lemma pin_type seg : stype (pin_segment seg) = stype seg.
Proof. unfold pin_segment. by destruct (is_set_type _). Qed.

Lemma pin_elem a seg : a ∈ asns (pin_segment seg) ↔ a ∈ asns seg.
Proof.
  unfold pin_segment. destruct (is_set_type _); [|done]. cbn. rewrite weed_dupes_elem.
  unfold sort_asns. by rewrite merge_sort_Permutation.
Qed.

Lemma length_weed cur rest : (length (weed cur rest) ≤ S (length rest))%nat.
Proof.
  revert cur. induction rest as [|x rest IH]; intros cur; cbn; [lia|].
  destruct (cur =? x); cbn; specialize (IH cur) as H1; specialize (IH x) as H2; lia.
Qed.

Lemma length_pin seg : (length (asns (pin_segment seg)) ≤ length (asns seg))%nat.
Proof.
  unfold pin_segment. destruct (is_set_type _); [|done]. cbn.
  rewrite <-(merge_sort_Permutation not_after (asns seg)) at 2. fold (sort_asns (asns seg)).
  destruct (sort_asns (asns seg)); cbn; [lia|]. apply length_weed.
Qed.

Lemma packable_types x y :
  ASSEGMENT_TYPES_PACKABLE x y = true → stype x = AS_SEQUENCE ∧ stype y = AS_SEQUENCE.
Proof. unfold ASSEGMENT_TYPES_PACKABLE. rewrite andb_true_iff, !Z.eqb_eq. intros [-> ->]. done. Qed.

Lemma packable_ext x x' y y' :
  stype x = stype x' → stype y = stype y' →
  ASSEGMENT_TYPES_PACKABLE x y = ASSEGMENT_TYPES_PACKABLE x' y'.
Proof. unfold ASSEGMENT_TYPES_PACKABLE. by intros -> ->. Qed.

Lemma normalise_from_head pin rest :
  ∃ x rest', normalise_from pin rest = x :: rest' ∧ stype x = stype pin.
Proof.
  revert pin. induction rest as [|next rest IH]; intros pin; cbn; [by eexists _, _|].
  destruct (ASSEGMENT_TYPES_PACKABLE pin next); [|by eexists _, _].
  apply (IH (assegment_append_asns pin (asns next))).
Qed.

Lemma normalise_from_normal pin rest : sorted_seg pin → normal (normalise_from pin rest).
Proof.
  revert pin. induction rest as [|next rest IH]; intros pin Hp; cbn [normalise_from]; [by split_and!|].
  destruct (ASSEGMENT_TYPES_PACKABLE pin next) eqn:Epk.
  - apply IH. apply packable_types in Epk as [Ht _]. unfold sorted_seg; cbn. rewrite Ht. done.
  - destruct (normalise_from_head (pin_segment next) rest) as (x & rest' & Ex & Hx).
    specialize (IH (pin_segment next) (pin_sorted next)). rewrite Ex in *. cbn [normal].
    split; [done|split; [|exact IH]]. rewrite <-Epk. apply packable_ext; [done|]. by rewrite Hx, pin_type.
Qed.

Lemma normalise_normal segs : normal (assegment_normalise segs).
Proof. destruct segs; cbn; [done|]. apply normalise_from_normal, pin_sorted. Qed.

Lemma normal_normalise segs : normal segs → assegment_normalise segs = segs.
Proof.
  destruct segs as [|x segs]; [done|]. cbn [assegment_normalise]. intros Hn.
  rewrite pin_id by apply Hn. revert x Hn. induction segs as [|y segs IH]; intros x (Hx & Hxy & Hn); cbn [normalise_from]; [done|].
  rewrite Hxy. f_equal. rewrite pin_id by apply Hn. by apply IH.
Qed.

(** What normalising keeps. *)
Lemma append_asns_fits seg l : fits (asns seg ++ l) → asns (assegment_append_asns seg l) = asns seg ++ l.
Proof. intros H. cbn. by apply grown_id. Qed.

Lemma pin_fits l pin next rest :
  fits (l ++ asns next ++ rest) → pin = pin_segment next → fits (asns pin ++ rest).
Proof.
  intros Hf ->. pose proof (length_pin next). unfold fits in *. rewrite !length_app in *. lia.
Qed.

Lemma normalise_from_asns pin rest a :
  fits (asns pin ++ all_asns rest) →
  a ∈ all_asns (normalise_from pin rest) ↔ a ∈ asns pin ++ all_asns rest.
Proof.
  revert pin. induction rest as [|next rest IH]; intros pin Hf; cbn [normalise_from]; [done|].
  rewrite all_asns_cons in *. destruct (ASSEGMENT_TYPES_PACKABLE pin next).
  - rewrite (assoc_L (++)) in *. rewrite IH; rewrite append_asns_fits; eauto using fits_app_l.
  - rewrite all_asns_cons, !elem_of_app, IH, elem_of_app, pin_elem; [done|].
    by eapply pin_fits.
Qed.

Lemma normalise_from_hops pin rest :
  fits (asns pin ++ all_asns rest) →
  count_hops (normalise_from pin rest) = count_hops (pin :: rest).
Proof.
  revert pin. induction rest as [|next rest IH]; intros pin Hf; cbn [normalise_from]; [done|].
  rewrite all_asns_cons in Hf. destruct (ASSEGMENT_TYPES_PACKABLE pin next) eqn:Epk.
  - apply packable_types in Epk as [H1 H2]. rewrite (assoc_L (++)) in Hf.
    rewrite IH by (rewrite append_asns_fits; eauto using fits_app_l).
    cbn [count_hops]. unfold len. rewrite append_asns_fits by eauto using fits_app_l.
    cbn [stype assegment_append_asns]. rewrite H1, H2, length_app. cbn [Z.eqb AS_SEQUENCE Pos.eqb]. lia.
  - cbn [count_hops]. f_equal. rewrite IH by (by eapply pin_fits).
    cbn [count_hops]. rewrite pin_type. unfold pin_segment, is_set_type, len, AS_SEQUENCE, AS_SET.
    destruct (Z.eqb_spec (stype next) 2) as [->|]; done.
Qed.

Lemma normalise_hops segs : fits (all_asns segs) → count_hops (assegment_normalise segs) = count_hops segs.
Proof.
  destruct segs as [|x segs]; [done|]. intros Hf. cbn [assegment_normalise].
  rewrite normalise_from_hops by (apply (pin_fits [] _ x); done). cbn [count_hops]. rewrite pin_type.
  unfold pin_segment, is_set_type, len, AS_SEQUENCE, AS_SET.
  destruct (Z.eqb_spec (stype x) 2) as [->|]; done.
Qed.

Lemma normalise_asns segs a :
  fits (all_asns segs) → a ∈ all_asns (assegment_normalise segs) ↔ a ∈ all_asns segs.
Proof.
  destruct segs as [|x segs]; [done|]. intros Hf. cbn [assegment_normalise].
  rewrite normalise_from_asns by (apply (pin_fits [] _ x); done).
  by rewrite all_asns_cons, !elem_of_app, pin_elem.
Qed.

(** Normalising a path (the form in which paths are compared and interned)
    sorts every set without duplicates and merges adjacent sequences.  It is
    idempotent, and it changes neither the hop count that route selection uses
    nor the AS numbers that occur, as long as the path has fewer than 65536
    numbers. *)
Theorem assegment_normalise_correct segs :
  normal (assegment_normalise segs) ∧
  assegment_normalise (assegment_normalise segs) = assegment_normalise segs ∧
  (Z.of_nat (length (all_asns segs)) < 2 ^ 16 →
   count_hops (assegment_normalise segs) = count_hops segs ∧
   ∀ a, a ∈ all_asns (assegment_normalise segs) ↔ a ∈ all_asns segs).
Proof.
  split_and!; [apply normalise_normal|apply normal_normalise, normalise_normal|].
  intros Hf. split; [by apply normalise_hops|]. intros a. by apply normalise_asns.
Qed.

Lemma assegment_normalise_correct_witness :
  let segs := [Seg AS_SEQUENCE [1; 2]; Seg AS_SEQUENCE [3]; Seg AS_SET [7; 5; 7]] in
  assegment_normalise segs = [Seg AS_SEQUENCE [1; 2; 3]; Seg AS_SET [5; 7]] ∧
  normal (assegment_normalise segs) ∧ count_hops (assegment_normalise segs) = 4.
Proof.
  intros segs. split; [vm_compute; reflexivity|].
  destruct (assegment_normalise_correct segs) as (H1 & _ & H2). split; [exact H1|].
  destruct H2 as [H2 _]; [vm_compute; reflexivity|]. rewrite H2. reflexivity.
Defined.

(** ** Text *)

Definition known (seg : assegment) : Prop :=
  known_type (stype seg) = true ∧ Forall (λ a, 0 <= a < 2 ^ 32) (asns seg).

Fixpoint print_list (sep : string) (l : list Z) : string :=
  match l with
  | [] => ""
  | a :: l' => print_asn a +:+ (match l' with [] => "" | _ => sep end +:+ print_list sep l')
  end.

Definition opening (t : Z) : string := if t =? AS_SEQUENCE then "" else aspath_delimiter_start t.
Definition closing (t : Z) : string := if t =? AS_SEQUENCE then "" else aspath_delimiter_end t.
Definition separator (t : Z) : string := if is_set_type t then "," else " ".

(** The text of a path, without a buffer. *)
Fixpoint print_path (segs : list assegment) : string :=
  match segs with
  | [] => ""
  | seg :: segs' =>
      opening (stype seg) +:+ (print_list (separator (stype seg)) (asns seg) +:+
        (closing (stype seg) +:+ (match segs' with [] => "" | _ => " " end +:+ print_path segs')))
  end.

Notation slen s := (Z.of_nat (String.length s)).

Lemma string_app_length (s1 s2 : string) : slen (s1 +:+ s2) = slen s1 + slen s2.
Proof. induction s1; cbn [String.length String.append]; lia. Qed.

Lemma string_app_nil (s : string) : s +:+ "" = s.
Proof. induction s; cbn; congruence. Qed.

Lemma pretty_go_length (k : nat) (x : N) s :
  (x < 10 ^ N.of_nat k)%N → (String.length (pretty_N_go x s) <= k + String.length s)%nat.
Proof.
  revert x s. induction k as [|k IH]; intros x s Hx.
  { assert (x = 0)%N as -> by (cbn in Hx; lia). by rewrite pretty_N_go_0. }
  destruct (N.eq_dec x 0) as [->|]; [rewrite pretty_N_go_0; lia|].
  rewrite pretty_N_go_step by lia. rewrite Nat2N.inj_succ, N.pow_succ_r' in Hx.
  etrans; [apply IH, N.Div0.div_lt_upper_bound, Hx|]. cbn. lia.
Qed.

Lemma pretty_go_app (k : nat) (x : N) s rest :
  (x < 10 ^ N.of_nat k)%N → pretty_N_go x s +:+ rest = pretty_N_go x (s +:+ rest).
Proof.
  revert x s. induction k as [|k IH]; intros x s Hx.
  { assert (x = 0)%N as -> by (cbn in Hx; lia). by rewrite !pretty_N_go_0. }
  destruct (N.eq_dec x 0) as [->|]; [by rewrite !pretty_N_go_0|].
  rewrite !(pretty_N_go_step x) by lia. rewrite Nat2N.inj_succ, N.pow_succ_r' in Hx.
  rewrite IH; [done|]. by apply N.Div0.div_lt_upper_bound.
Qed.

Lemma digit_char (d : N) : (d < 10)%N → isdigit (pretty_N_char d) = true ∧ digit (pretty_N_char d) = Z.of_N d.
Proof.
  intros Hd. assert (d ∈ [0;1;2;3;4;5;6;7;8;9]%N) as Hin by (rewrite !elem_of_cons; lia).
  revert Hin. rewrite !elem_of_cons, elem_of_nil. intros Hin.
  repeat (destruct Hin as [->|Hin]; [by vm_compute|]). done.
Qed.

Lemma read_pretty_go (k : nat) (x : N) s :
  (x < 10 ^ N.of_nat k)%N → (x < 2 ^ 32)%N →
  read_digits (pretty_N_go x s) 0 = read_digits s (Z.of_N x).
Proof.
  revert x s. induction k as [|k IH]; intros x s Hx H32.
  { assert (x = 0)%N as -> by (cbn in Hx; lia). by rewrite pretty_N_go_0. }
  destruct (N.eq_dec x 0) as [->|]; [by rewrite pretty_N_go_0|].
  rewrite pretty_N_go_step by lia. rewrite Nat2N.inj_succ, N.pow_succ_r' in Hx.
  pose proof (N.div_mod x 10 ltac:(done)) as Hdm. pose proof (N.mod_lt x 10 ltac:(done)) as Hm.
  apply N.Div0.div_lt_upper_bound in Hx.
  change (2 ^ 32)%N with 4294967296%N in *. set (q := (x / 10)%N) in *. set (d := (x mod 10)%N) in *.
  rewrite IH; [|done|lia]. destruct (digit_char d) as [Hd Hv]; [done|].
  cbn [read_digits]. rewrite Hd, Hv. f_equal. unfold u32. change (2 ^ 32) with 4294967296.
  clearbody q d. subst x.
  rewrite (Z.mod_small (Z.of_N q * 10)) by lia. rewrite Z.mod_small by lia. lia.
Qed.

Lemma u32_digits a : 0 <= a < 2 ^ 32 → (Z.to_N a < 10 ^ N.of_nat 10)%N ∧ (Z.to_N a < 2 ^ 32)%N.
Proof. change (10 ^ N.of_nat 10)%N with 10000000000%N. change (2 ^ 32)%N with 4294967296%N. lia. Qed.

Lemma print_asn_length a : 0 <= a < 2 ^ 32 → slen (print_asn a) <= 10.
Proof.
  intros [H1 _]%u32_digits. unfold print_asn, pretty, pretty_N. case_decide; [cbn; lia|].
  pose proof (pretty_go_length 10 _ "" H1) as Hl. cbn [String.length] in Hl. lia.
Qed.

Definition no_digit (s : string) : Prop :=
  match s with String c _ => isdigit c = false | EmptyString => True end.

Lemma read_print_asn a s :
  0 <= a < 2 ^ 32 → no_digit s → read_digits (print_asn a +:+ s) 0 = (a, s).
Proof.
  intros Ha Hs. destruct (u32_digits a Ha) as [H1 H2].
  assert (∀ v, read_digits s v = (v, s)) as Hstop.
  { intros v. destruct s; cbn in *; [done|]. by rewrite Hs. }
  unfold print_asn, pretty, pretty_N. case_decide as Hz.
  - assert (a = 0) as -> by lia. cbn [String.append read_digits].
    change (isdigit "0") with true. cbn iota. by rewrite Hstop.
  - rewrite (pretty_go_app 10) by done. rewrite (read_pretty_go 10) by done. cbn [String.append].
    rewrite Hstop. f_equal. lia.
Qed.

Lemma print_asn_head a s : 0 <= a < 2 ^ 32 → ∃ c p, print_asn a +:+ s = String c p ∧ isdigit c = true.
Proof.
  intros [H1 H2]%u32_digits. unfold print_asn, pretty, pretty_N. case_decide as Hz; [by eexists _, _|].
  rewrite (pretty_go_app 10) by done. cbn [String.append]. clear H2.
  revert H1 Hz s. generalize (Z.to_N a) as x, 10%nat as k. intros x k; revert x.
  induction k as [|k IH]; intros x H1 Hz s; [cbn in H1; lia|].
  rewrite pretty_N_go_step by lia. rewrite Nat2N.inj_succ, N.pow_succ_r' in H1.
  destruct (N.eq_dec (x / 10) 0) as [E|E].
  - rewrite E, pretty_N_go_0. eexists _, _. split; [done|]. apply digit_char, N.mod_lt. done.
  - apply IH; [by apply N.Div0.div_lt_upper_bound|done].
Qed.

(** Normalising keeps types and numbers in range. *)
Lemma pin_known seg : known seg → known (pin_segment seg).
Proof.
  intros [Ht Hl]. split; [by rewrite pin_type|]. apply Forall_forall. intros a Ha.
  rewrite Forall_forall in Hl. by apply Hl, pin_elem.
Qed.

Lemma normalise_known segs :
  Forall known segs → fits (all_asns segs) → Forall known (assegment_normalise segs).
Proof.
  destruct segs as [|x segs]; [done|]. intros [Hx Hk]%Forall_cons Hf. cbn [assegment_normalise].
  apply pin_known in Hx. pose proof (pin_fits [] (pin_segment x) x (all_asns segs) Hf eq_refl) as Hf'. clear Hf. revert Hx Hf'. generalize (pin_segment x). clear x.
  induction Hk as [|next segs Hn Hk IH]; intros pin Hp Hf; cbn [normalise_from]; [by apply Forall_singleton|].
  rewrite all_asns_cons in Hf. destruct (ASSEGMENT_TYPES_PACKABLE pin next).
  - rewrite (assoc_L (++)) in Hf. pose proof (append_asns_fits pin (asns next) (fits_app_l _ _ Hf)) as Ea.
    apply IH; [|by rewrite Ea]. destruct Hp, Hn. split; [done|]. rewrite Ea. by apply Forall_app.
  - constructor; [done|]. apply IH; [by apply pin_known|]. by eapply pin_fits.
Qed.

(** *** The printer *)

Lemma snprintf_fits b s :
  blen b + slen s < bsize b →
  snprintf b s = Ok (StrBuf (bsize b) (btext b +:+ s) (blen b + slen s)).
Proof.
  intros H. unfold snprintf. rewrite (proj2 (Z.ltb_ge _ _)) by lia.
  by rewrite (proj2 (Z.ltb_lt (slen s) _)) by lia.
Qed.

Lemma string_app_assoc (s1 s2 s3 : string) : (s1 +:+ s2) +:+ s3 = s1 +:+ (s2 +:+ s3).
Proof. induction s1; cbn; congruence. Qed.

Definition app_buf (b : strbuf) (s : string) : strbuf := StrBuf (bsize b) (btext b +:+ s) (blen b + slen s).

Lemma app_buf_app b s1 s2 : app_buf (app_buf b s1) s2 = app_buf b (s1 +:+ s2).
Proof.
  unfold app_buf; cbn [bsize btext blen]. rewrite string_app_assoc, string_app_length. f_equal. lia.
Qed.

Lemma app_buf_nil b : app_buf b "" = b.
Proof. destruct b. unfold app_buf; cbn. rewrite string_app_nil. f_equal. lia. Qed.

Lemma print_list_length sep l :
  Forall (λ a, 0 <= a < 2 ^ 32) l → slen sep <= 1 → slen (print_list sep l) <= 11 * Z.of_nat (length l).
Proof.
  intros Hl Hs. induction Hl as [|a l Ha _ IH]; cbn [print_list length]; [cbn; lia|].
  rewrite !string_app_length. apply print_asn_length in Ha.
  assert (slen (match l with [] => ""%string | _ => sep end) <= 1) by (destruct l; cbn in *; lia). lia.
Qed.

Lemma put_asns_prints b sep l :
  blen b + slen (print_list sep l) < bsize b → put_asns b sep l = Ok (app_buf b (print_list sep l)).
Proof.
  revert b. induction l as [|a l IH]; intros b H; cbn [put_asns print_list] in *; [by rewrite app_buf_nil|].
  rewrite !string_app_length in H. rewrite snprintf_fits by lia. fold (app_buf b (print_asn a)).
  cbn [mbind M_bind].
  assert ((match l with [] => Ok (app_buf b (print_asn a)) | _ :: _ => snprintf (app_buf b (print_asn a)) sep end)
          = Ok (app_buf (app_buf b (print_asn a)) (match l with [] => "" | _ => sep end))) as ->.
  { destruct l; [by rewrite app_buf_nil|]. apply snprintf_fits. cbn [app_buf bsize blen] in *. lia. }
  cbn [mbind M_bind]. rewrite IH by (cbn [app_buf bsize blen]; lia). by rewrite !app_buf_app.
Qed.

Lemma known_seperator t : known_type t = true → seperator t = Some (separator t).
Proof.
  unfold known_type, seperator, separator, is_set_type. destruct (t =? AS_SET), (t =? AS_CONFED_SET), (t =? AS_SEQUENCE), (t =? AS_CONFED_SEQUENCE); done.
Qed.

Lemma opening_fits b t :
  blen b + slen (opening t) < bsize b →
  (if negb (t =? AS_SEQUENCE) then snprintf b (aspath_delimiter_start t) else Ok b) = Ok (app_buf b (opening t)).
Proof.
  unfold opening. intros H. destruct (t =? AS_SEQUENCE); cbn [negb]; [by rewrite app_buf_nil|]. by apply snprintf_fits.
Qed.

Lemma closing_fits b t :
  blen b + slen (closing t) < bsize b →
  (if negb (t =? AS_SEQUENCE) then snprintf b (aspath_delimiter_end t) else Ok b) = Ok (app_buf b (closing t)).
Proof.
  unfold closing. intros H. destruct (t =? AS_SEQUENCE); cbn [negb]; [by rewrite app_buf_nil|]. by apply snprintf_fits.
Qed.

Lemma opening_length t : slen (opening t) <= 1.
Proof. unfold opening, aspath_delimiter_start. by repeat destruct (_ =? _). Qed.
Lemma closing_length t : slen (closing t) <= 1.
Proof. unfold closing, aspath_delimiter_end. by repeat destruct (_ =? _). Qed.
Lemma separator_length t : slen (separator t) <= 1.
Proof. unfold separator. by destruct (is_set_type t). Qed.

(** The text of one segment and the space after it. *)
Definition print_segment (seg : assegment) (rest : list assegment) : string :=
  opening (stype seg) +:+ (print_list (separator (stype seg)) (asns seg) +:+
    (closing (stype seg) +:+ match rest with [] => "" | _ => " " end)).

Lemma print_segment_length seg rest :
  known seg → slen (print_segment seg rest) < SEGMENT_STR_LEN seg.
Proof.
  intros [_ Hl]. unfold print_segment, SEGMENT_STR_LEN, ASN_STR_LEN, len. rewrite !string_app_length.
  pose proof (opening_length (stype seg)). pose proof (closing_length (stype seg)).
  pose proof (print_list_length _ _ Hl (separator_length (stype seg))).
  assert (slen (match rest with [] => ""%string | _ => " "%string end) <= 1) by (destruct rest; cbn; lia). lia.
Qed.

Lemma put_segments_prints b segs :
  Forall known segs → blen b < bsize b →
  ∃ size, put_segments b segs = Ok (Some (StrBuf size (btext b +:+ print_path segs) (blen b + slen (print_path segs))))
    ∧ blen b + slen (print_path segs) < size.
Proof.
  intros Hk. revert b. induction Hk as [|seg segs [Ht Hl] Hk IH]; intros b Hb; cbn [put_segments print_path].
  { exists (bsize b). rewrite string_app_nil. change (slen "") with 0. rewrite Z.add_0_r. by destruct b. }
  rewrite known_seperator by done.
  pose proof (print_segment_length seg segs (conj Ht Hl)) as Hlen.
  set (b' := if bsize b <? _ then _ else b).
  assert (btext b' = btext b ∧ blen b' = blen b ∧ blen b + SEGMENT_STR_LEN seg <= bsize b') as (Htx & Hbl & Hsz).
  { subst b'. destruct (Z.ltb_spec (bsize b) (blen b + SEGMENT_STR_LEN seg)); cbn [btext blen bsize]; split_and!; try done; lia. }
  unfold print_segment in Hlen. rewrite !string_app_length in Hlen.
  rewrite opening_fits by lia. cbn [mbind M_bind].
  rewrite put_asns_prints by (cbn [app_buf bsize blen]; lia). cbn [mbind M_bind].
  rewrite closing_fits by (cbn [app_buf bsize blen]; lia). cbn [mbind M_bind].
  set (b2 := app_buf (app_buf (app_buf b' _) _) _).
  assert ((match segs with [] => Ok b2 | _ :: _ => snprintf b2 " " end)
          = Ok (app_buf b2 (match segs with [] => "" | _ => " " end))) as ->.
  { destruct segs; [by rewrite app_buf_nil|]. apply snprintf_fits. cbn [b2 app_buf bsize blen] in *. lia. }
  cbn [mbind M_bind]. destruct (IH (app_buf b2 (match segs with [] => "" | _ => " " end))) as (size & -> & Hs).
  { cbn [b2 app_buf bsize blen]. lia. }
  exists size. subst b2. rewrite !app_buf_app in *. cbn [app_buf btext blen bsize] in *.
  rewrite Htx, Hbl in *. rewrite !string_app_length, !string_app_assoc in *. split; [|lia].
  do 3 f_equal. lia.
Qed.

Lemma make_str_prints segs :
  Forall known segs →
  aspath_make_str_count segs = Ok (AsPath segs (Some (print_path segs)) (u16 (slen (print_path segs)))).
Proof.
  intros Hk. destruct segs as [|seg segs]; [done|].
  unfold aspath_make_str_count. set (size := Z.max _ _).
  destruct (put_segments_prints (StrBuf size "" 0) (seg :: segs) Hk) as (size' & -> & Hs).
  { subst size. cbn [blen bsize]. unfold ASPATH_STR_DEFAULT_LEN. lia. }
  cbn [mbind M_bind blen bsize btext String.append Z.add] in *.
  by rewrite (proj2 (Z.ltb_lt _ _)).
Qed.

(** *** The parser *)

(** With fuel for every character, the parser returns [segs'] on [s]. *)
Definition reads (s : string) (segs : list assegment) (t : Z) (need : bool) (segs' : list assegment) : Prop :=
  ∀ fuel, (String.length s <= fuel)%nat → str2segments fuel s segs t need = Some segs'.

Lemma reads_end segs t need : reads "" segs t need segs.
Proof. intros [|fuel] _; done. Qed.

Lemma reads_sep c s segs t need segs' :
  c = " "%char ∨ c = ","%char → reads s segs t need segs' → reads (String c s) segs t need segs'.
Proof.
  intros Hc H fuel Hf. cbn [String.length] in Hf. rewrite <-(H fuel) by lia.
  assert (aspath_gettoken (String c s) = aspath_gettoken s) as Et by (by destruct Hc as [->| ->]).
  destruct fuel; cbn [str2segments]; by rewrite Et.
Qed.

Lemma reads_open t s segs t0 need segs' :
  t = AS_SET ∨ t = AS_CONFED_SET ∨ t = AS_CONFED_SEQUENCE →
  reads s (segs ++ [Seg t []]) t false segs' → reads (opening t +:+ s) segs t0 need segs'.
Proof.
  intros Ht H [|fuel] Hf; destruct Ht as [->|[->| ->]]; cbn in Hf; try lia;
    cbn -[str2segments]; cbn [str2segments aspath_gettoken]; apply H; lia.
Qed.

Lemma reads_close t s segs t0 need segs' :
  t = AS_SET ∨ t = AS_CONFED_SET ∨ t = AS_CONFED_SEQUENCE →
  reads s segs AS_SEQUENCE true segs' → reads (closing t +:+ s) segs t0 need segs'.
Proof.
  intros Ht H [|fuel] Hf; destruct Ht as [->|[->| ->]]; cbn in Hf; try lia;
    cbn -[str2segments]; cbn [str2segments aspath_gettoken]; apply H; lia.
Qed.

Lemma gettoken_asn a s :
  0 <= a < 2 ^ 32 → no_digit s → aspath_gettoken (print_asn a +:+ s) = Some (as_token_asval a, s).
Proof.
  intros Ha Hs. pose proof (read_print_asn a s Ha Hs) as Hr.
  destruct (print_asn_head a s Ha) as (c & p & E0 & Hc). rewrite E0 in *. unfold aspath_gettoken.
  assert (skip_seperators (String c p) = String c p) as ->.
  { cbn [skip_seperators]. destruct c as [[] [] [] [] [] [] [] []]; done. }
  cbn [read_digits] in Hr. rewrite Hc in Hr.
  assert (u32 (u32 (0 * 10) + digit c) = digit c) as E.
  { unfold isdigit in Hc. apply andb_true_iff in Hc as [H1%Nat.leb_le H2%Nat.leb_le].
    unfold u32, digit. rewrite Z.mul_0_l, Zmod_0_l, Z.add_0_l. apply Z.mod_small. lia. }
  rewrite E in Hr. rewrite Hr, Hc.
  destruct c as [[] [] [] [] [] [] [] []]; done.
Qed.

Lemma reads_asn a s segs t (need : bool) segs' :
  0 <= a < 2 ^ 32 → no_digit s →
  reads s (aspath_as_add (if need then aspath_segment_add segs t else segs) a) t false segs' →
  reads (print_asn a +:+ s) segs t need segs'.
Proof.
  intros Ha Hs H fuel Hf.
  assert (String.length s < String.length (print_asn a +:+ s))%nat.
  { pose proof (string_app_length (print_asn a) s). destruct (print_asn_head a "" Ha) as (c & p & E & _).
    rewrite string_app_nil in E. rewrite E in *. cbn [String.length] in *. lia. }
  destruct fuel; [lia|]. cbn [str2segments]. rewrite gettoken_asn by done. apply H. lia.
Qed.

Lemma as_add_last segs t l a :
  fits (l ++ [a]) → aspath_as_add (segs ++ [Seg t l]) a = segs ++ [Seg t (l ++ [a])].
Proof.
  intros Hf. induction segs as [|seg segs IH]; cbn [app aspath_as_add].
  - unfold assegment_append_asns; cbn [stype asns]. by rewrite grown_id.
  - rewrite IH. by destruct segs.
Qed.

(** The numbers of a segment that has been opened. *)
Lemma reads_list sep l l0 s segs t segs' :
  sep = " "%string ∨ sep = ","%string → Forall (λ a, 0 <= a < 2 ^ 32) l → no_digit s → fits (l0 ++ l) →
  reads s (segs ++ [Seg t (l0 ++ l)]) t false segs' →
  reads (print_list sep l +:+ s) (segs ++ [Seg t l0]) t false segs'.
Proof.
  intros Hsep Hl Hs. revert l0. induction Hl as [|a l Ha Hl IH]; intros l0 Hf H; cbn [print_list].
  { by rewrite app_nil_r in H. }
  rewrite (cons_middle a l0 l) in *. rewrite (assoc_L (++)) in *.
  rewrite !string_app_assoc. apply reads_asn; [done| |].
  - destruct l; cbn; [done|]. by destruct Hsep as [->| ->].
  - rewrite as_add_last by eauto using fits_app_l.
    destruct l as [|a' l]; [by apply IH|]. destruct Hsep as [->| ->]; apply reads_sep; eauto.
Qed.

(** The first number opens a sequence where a type is needed. *)
Lemma reads_sequence l s segs segs' :
  l ≠ [] → Forall (λ a, 0 <= a < 2 ^ 32) l → no_digit s → fits l →
  reads s (segs ++ [Seg AS_SEQUENCE l]) AS_SEQUENCE false segs' →
  reads (print_list " " l +:+ s) segs AS_SEQUENCE true segs'.
Proof.
  intros Hne Hl Hs Hf H. destruct l as [|a l]; [done|]. apply Forall_cons in Hl as [Ha Hl].
  cbn [print_list]. rewrite !string_app_assoc. apply reads_asn; [done| |].
  - by destruct l.
  - unfold aspath_segment_add. rewrite as_add_last by (by apply (fits_app_l _ l)).
    destruct l as [|a' l]; [done|]. apply reads_sep; [by left|].
    apply (reads_list " " (a' :: l) [a]); eauto.
Qed.

Definition printable (seg : assegment) : Prop :=
  known seg ∧ fits (asns seg) ∧ (stype seg = AS_SEQUENCE → asns seg ≠ []).

Definition no_sequence_first (segs : list assegment) : Prop :=
  match segs with seg :: _ => stype seg ≠ AS_SEQUENCE | [] => True end.

Lemma known_cases t :
  known_type t = true → t = AS_SEQUENCE ∨ (t ≠ AS_SEQUENCE ∧ (t = AS_SET ∨ t = AS_CONFED_SET ∨ t = AS_CONFED_SEQUENCE)).
Proof.
  unfold known_type, AS_SEQUENCE, AS_SET, AS_CONFED_SET, AS_CONFED_SEQUENCE.
  rewrite !orb_true_iff, !Z.eqb_eq. lia.
Qed.

Lemma separator_cases t : separator t = " "%string ∨ separator t = ","%string.
Proof. unfold separator. destruct (is_set_type t); auto. Qed.

Lemma reads_gap (segs : list assegment) s segs0 t need segs' :
  reads s segs0 t need segs' → reads (match segs with [] => "" | _ => " " end +:+ s) segs0 t need segs'.
Proof. destruct segs; [done|]. cbn. apply reads_sep. by left. Qed.

Lemma reads_path segs0 segs need :
  Forall printable segs → normal segs → need = true ∨ no_sequence_first segs →
  reads (print_path segs) segs0 AS_SEQUENCE need (segs0 ++ segs).
Proof.
  intros Hp. revert segs0 need. induction Hp as [|[t l] segs [[Ht Hl] [Hf Hne]] Hp IH]; intros segs0 need Hn Hneed.
  { rewrite app_nil_r. apply reads_end. }
  cbn [stype asns print_path] in *. destruct Hn as (_ & Hpk & Hn).
  rewrite (cons_middle _ segs0 segs), (assoc_L (++)).
  destruct (known_cases t Ht) as [->|[Hns Hcase]].
  - assert (need = true) as -> by (destruct Hneed; done). change (opening AS_SEQUENCE) with ""%string.
    change (closing AS_SEQUENCE) with ""%string. cbn [String.append].
    change (separator AS_SEQUENCE) with " "%string.
    apply reads_sequence; [by apply Hne|done| |done|].
    + by destruct segs.
    + apply reads_gap, IH; [done|]. right. destruct segs as [|y segs]; [done|]. cbn.
      intros Ey. unfold ASSEGMENT_TYPES_PACKABLE in Hpk. rewrite Ey in Hpk. done.
  - apply reads_open; [done|]. apply (reads_list _ l [] _ segs0); [apply separator_cases|done| |done|].
    + by destruct Hcase as [->|[->| ->]].
    + apply reads_close; [done|]. apply reads_gap, IH; [done|by left].
Qed.

(** The text of a path is never cut short: for segments of the four types
    with 32-bit AS numbers, [aspath_make_str_count] gives exactly the segments
    between their delimiters, however the buffer had to grow on the way, and its
    closing assertion holds. *)
Theorem aspath_make_str_complete segs :
  Forall known segs →
  aspath_make_str_count segs = Ok (AsPath segs (Some (print_path segs)) (u16 (slen (print_path segs)))).
Proof. apply make_str_prints. Qed.

Lemma aspath_make_str_complete_witness :
  aspath_make_str_count [Seg AS_SEQUENCE [4294967295; 7018]; Seg AS_SET [1; 2]]
    = Ok (AsPath [Seg AS_SEQUENCE [4294967295; 7018]; Seg AS_SET [1; 2]] (Some "4294967295 7018 {1,2}"%string) 21).
Proof. rewrite aspath_make_str_complete; [vm_compute; reflexivity|repeat constructor; done]. Defined.

(** C27. Printing and reading back a path gives the same path: for a path in
    normal form whose sequences are not empty, the text that
    [aspath_make_str_count] stores is read by [aspath_str2aspath] to a path with
    the same segments, string and string length. *)
Theorem aspath_text_roundtrip segs :
  Forall printable segs → normal segs →
  ∃ p s, aspath_make_str_count segs = Ok p ∧ segments p = segs ∧ str p = Some s ∧
    aspath_str2aspath s = Ok (Some p).
Proof.
  intros Hp Hn. assert (Forall known segs) as Hk by (eapply Forall_impl; [done|by intros ? []]).
  eexists _, (print_path segs). split; [by apply make_str_prints|]. do 2 (split; [done|]).
  unfold aspath_str2aspath. rewrite (reads_path [] segs true Hp Hn (or_introl eq_refl)) by done.
  cbn [app]. by rewrite make_str_prints.
Qed.

Lemma aspath_text_roundtrip_witness :
  ∃ p s, aspath_make_str_count [Seg AS_SEQUENCE [65001; 7018]; Seg AS_SET [1; 2]] = Ok p ∧
    segments p = [Seg AS_SEQUENCE [65001; 7018]; Seg AS_SET [1; 2]] ∧ str p = Some s ∧
    aspath_str2aspath s = Ok (Some p).
Proof.
  apply aspath_text_roundtrip.
  - repeat constructor; done.
  - repeat split; repeat constructor; done.
Defined.
