(* ===== verification/ASPathWire.v ===== *)
(** The wire format of AS paths (bgpd/bgp_aspath.c): what [aspath_put] writes,
    what [assegments_parse] reads, and that they are inverse to each other. *)
From stdpp Require Import sorting.
From S2P Require Import Prelude Stream Hash Jhash ASPath ASPathSpec.
Open Scope Z_scope.

(** ** The encoding *)

(** The number a 2-byte speaker sees. *)
Definition wire_asn (use32bit : bool) (a : Z) : Z :=
  if use32bit then a else if a <=? BGP_AS_MAX then a else BGP_AS_TRANS.
Definition wire_seg (use32bit : bool) (seg : assegment) : assegment :=
  Seg (stype seg) (wire_asn use32bit <$> asns seg).

Definition enc_asn (use32bit : bool) (a : Z) : list Z :=
  be_bytes (if use32bit then 4 else 2) (wire_asn use32bit a).
Definition enc_asns (use32bit : bool) (l : list Z) : list Z := l ≫= enc_asn use32bit.
Definition enc_seg (use32bit : bool) (seg : assegment) : list Z :=
  be_bytes 1 (stype seg) ++ be_bytes 1 (len seg) ++ enc_asns use32bit (asns seg).
Definition enc_path (use32bit : bool) (segs : list assegment) : list Z := segs ≫= enc_seg use32bit.

(** A segment the format can carry. *)
Definition wire_ok (seg : assegment) : Prop :=
  known seg ∧ 0 < len seg <= AS_SEGMENT_MAX.

Notation zlen l := (Z.of_nat (length l)).

Lemma length_enc_asns u l : zlen (enc_asns u l) = zlen l * AS_VALUE_SIZE u.
Proof.
  unfold enc_asns. induction l as [|a l IH]; [done|]. cbn [mbind list_bind length]. rewrite length_app.
  unfold enc_asn at 1. rewrite length_be_bytes. destruct u; cbn [AS_VALUE_SIZE] in *; lia.
Qed.

Lemma length_enc_seg u seg : zlen (enc_seg u seg) = ASSEGMENT_SIZE (len seg) u.
Proof.
  unfold enc_seg, ASSEGMENT_SIZE, AS_HEADER_SIZE, len. rewrite !length_app, !length_be_bytes.
  pose proof (length_enc_asns u (asns seg)). lia.
Qed.

Lemma enc_path_cons u seg segs : enc_path u (seg :: segs) = enc_seg u seg ++ enc_path u segs.
Proof. done. Qed.

(** ** Writing *)

Section writing.
Implicit Types (s : stream) (b : list Z).

Lemma appended_refl s : stream_ok s → appended s s [].
Proof. intros Hs. split_and!; try done; by rewrite app_nil_r. Qed.

Lemma appended_trans s s1 s2 b1 b2 : appended s s1 b1 → appended s1 s2 b2 → appended s s2 (b1 ++ b2).
Proof.
  intros (_ & E1 & E2 & E3 & E4) (H & F1 & F2 & F3 & F4).
  split_and!; try done; try congruence.
  - by rewrite F3, E3, (assoc_L (++)).
  - by rewrite F4, E4, (assoc_L (++)).
Qed.

Lemma appended_endp s s1 b : stream_ok s → appended s s1 b → endp s1 = endp s + zlen b.
Proof.
  intros Hs (H1 & _ & _ & Hc & _). rewrite <-(length_contents s), <-(length_contents s1) by done.
  rewrite Hc, length_app. lia.
Qed.

Lemma appended_room s s1 b n : stream_ok s → appended s s1 b → room s (zlen b + n) → room s1 n.
Proof.
  intros Hs Ha Hr. pose proof (appended_endp _ _ _ Hs Ha). destruct Ha as (_ & E & _).
  unfold room in *. lia.
Qed.

Lemma put_asn_spec s u a :
  stream_ok s → room s (AS_VALUE_SIZE u) →
  ∃ s' r, (if u then stream_putl s a
           else if a <=? BGP_AS_MAX then stream_putw s (u16 a) else stream_putw s BGP_AS_TRANS) = Ok (s', r)
    ∧ appended s s' (enc_asn u a).
Proof.
  intros Hs Hr. unfold enc_asn, wire_asn. destruct u.
  - destruct (put_word_spec (n := 4) s a Hs Hr) as ([s' r] & E & _ & Ha). eauto.
  - destruct (a <=? BGP_AS_MAX).
    + destruct (put_word_spec (n := 2) s (u16 a) Hs Hr) as ([s' r] & E & _ & Ha).
      eexists _, _; split; [exact E|]. replace (be_bytes 2 a) with (be_bytes 2 (u16 a)); [done|].
      pose proof (be_value_bytes 2 a) as Hv. change (8 * Z.of_nat 2) with 16 in Hv. fold (u16 a) in Hv.
      rewrite <-Hv. pose proof (be_bytes_value (be_bytes 2 a) (be_bytes_ok 2 a)) as Hb.
      by rewrite length_be_bytes in Hb.
    + destruct (put_word_spec (n := 2) s BGP_AS_TRANS Hs Hr) as ([s' r] & E & _ & Ha). eauto.
Qed.

Lemma data_put_spec s u l :
  stream_ok s → room s (zlen (enc_asns u l)) →
  ∃ s', data_put s l (length l) u = Ok s' ∧ appended s s' (enc_asns u l).
Proof.
  revert s. induction l as [|a l IH]; intros s Hs Hr; cbn [data_put length].
  { eexists; split; [done|]. by apply appended_refl. }
  change (enc_asns u (a :: l)) with (enc_asn u a ++ enc_asns u l) in *. rewrite length_app in Hr.
  assert (zlen (enc_asn u a) = AS_VALUE_SIZE u) as El by (unfold enc_asn; rewrite length_be_bytes; by destruct u).
  destruct (put_asn_spec s u a Hs) as (s1 & r & -> & Ha).
  { unfold room in *. lia. }
  cbn [mbind M_bind]. destruct (IH s1) as (s2 & -> & Ha2).
  - by destruct Ha.
  - apply (appended_room _ _ _ _ Hs Ha). unfold room in *. lia.
  - eexists; split; [done|]. by eapply appended_trans.
Qed.

Lemma be_bytes_u8 n : be_bytes 1 (u8 n) = be_bytes 1 n.
Proof.
  pose proof (be_value_bytes 1 n) as Hv. change (8 * Z.of_nat 1) with 8 in Hv. fold (u8 n) in Hv.
  rewrite <-Hv. pose proof (be_bytes_value (be_bytes 1 n) (be_bytes_ok 1 n)) as Hb.
  by rewrite length_be_bytes in Hb.
Qed.

Lemma header_put_spec s t n :
  stream_ok s → room s 2 → n <= AS_SEGMENT_MAX →
  ∃ s' lenp, assegment_header_put s t n = Ok (s', lenp) ∧ appended s s' (be_bytes 1 t ++ be_bytes 1 n).
Proof.
  intros Hs Hr Hn. unfold assegment_header_put. rewrite (proj2 (Z.leb_le _ _)) by done.
  destruct (put_word_spec (n := 1) s t Hs) as ([s1 r1] & E1 & _ & Ha1).
  { unfold room in *. lia. }
  cbn [put_word word1] in E1. rewrite E1. cbn [mbind M_bind]. unfold stream_get_endp.
  assert (stream_ok s1) as Hs1 by (by destruct Ha1). rewrite sane_ok by done. cbn [mbind M_bind].
  destruct (put_word_spec (n := 1) s1 (u8 n) Hs1) as ([s2 r2] & E2 & _ & Ha2).
  { apply (appended_room _ _ _ _ Hs Ha1). rewrite length_be_bytes. exact Hr. }
  cbn [put_word word1] in E2. rewrite E2. cbn [mbind M_bind]. rewrite be_bytes_u8 in Ha2.
  eexists _, _; split; [done|]. by eapply appended_trans.
Qed.
End writing.

(** Without adjacent sequences nothing is packed. *)
Lemma put_packed_none s seg lenp rest u :
  normal (seg :: rest) → put_packed s seg 0 lenp 0 rest u = Ok (s, 0, rest).
Proof.
  intros (_ & Hpk & _). destruct rest as [|n rest]; [done|]. cbn [put_packed].
  unfold ASSEGMENTS_PACKABLE. by rewrite Hpk.
Qed.

Lemma put_overlength_none fuel s seg bytes u :
  len seg <= AS_SEGMENT_MAX → put_overlength fuel s seg 0 bytes u = Ok (s, 0, bytes).
Proof.
  intros H. destruct fuel; cbn [put_overlength]; rewrite (proj2 (Z.ltb_ge _ _)) by lia; done.
Qed.

Lemma put_loop_spec fuel s segs bytes u :
  Forall wire_ok segs → normal segs → (length segs <= fuel)%nat →
  stream_ok s → room s (zlen (enc_path u segs)) →
  ∃ s', put_loop fuel s segs bytes u = Ok (s', bytes + zlen (enc_path u segs)) ∧ appended s s' (enc_path u segs).
Proof.
  intros Hw. revert fuel s bytes.
  induction Hw as [|seg segs [_ Hlen] Hw IH]; intros fuel s bytes Hn Hf Hs Hr.
  { eexists. split; [by destruct fuel; cbn [put_loop enc_path mbind list_bind length]; rewrite Z.add_0_r|].
    by apply appended_refl. }
  destruct fuel as [|fuel]; [cbn in Hf; lia|]. cbn [put_loop].
  rewrite enc_path_cons, length_app in *. pose proof (length_enc_seg u seg) as Hsz.
  rewrite writeable_ok by done.
  rewrite (proj2 (Z.leb_le (ASSEGMENT_SIZE (len seg) u) _)) by (unfold room in Hr; lia). cbn [negb].
  rewrite put_overlength_none by lia. cbn [mbind M_bind]. rewrite Z.sub_0_r.
  pose proof Hsz as Hsz'. unfold enc_seg in Hsz', Hr. rewrite !length_app, !length_be_bytes in Hsz', Hr.
  destruct (header_put_spec s (stype seg) (len seg) Hs) as (s1 & lenp & -> & Ha1); [unfold room in *; lia|lia|].
  cbn [mbind M_bind]. change (drop (Z.to_nat 0) (asns seg)) with (asns seg).
  unfold assegment_data_put. rewrite (proj2 (Z.leb_le (len seg) _)) by lia. replace (Z.to_nat (len seg)) with (length (asns seg)) by (unfold len; lia).
  assert (stream_ok s1) as Hs1 by (by destruct Ha1).
  assert (room s1 (zlen (enc_asns u (asns seg)) + zlen (enc_path u segs))) as Hr1.
  { apply (appended_room _ _ _ _ Hs Ha1). rewrite length_app, !length_be_bytes. unfold room in *. lia. }
  destruct (data_put_spec s1 u (asns seg) Hs1) as (s2 & -> & Ha2); [unfold room in *; lia|].
  cbn [mbind M_bind]. rewrite put_packed_none by done. cbn [mbind M_bind].
  destruct (IH fuel s2 (bytes + ASSEGMENT_SIZE (len seg + 0) u)) as (s3 & -> & Ha3).
  - apply Hn.
  - cbn in Hf. lia.
  - by destruct Ha2.
  - by apply (appended_room _ _ _ _ Hs1 Ha2).
  - exists s3. split; [do 2 f_equal; rewrite Z.add_0_r; lia|].
    unfold enc_seg. rewrite (assoc_L (++) (be_bytes 1 (stype seg))).
    eapply appended_trans; [|done]. by eapply appended_trans.
Qed.

(** ** Reading *)

Lemma wire_asn_bound u a : 0 <= a < 2 ^ 32 → 0 <= wire_asn u a < 2 ^ (8 * (if u then 4 else 2)).
Proof.
  intros Ha. unfold wire_asn, BGP_AS_MAX, BGP_AS_TRANS. destruct u; [done|].
  change (2 ^ (8 * 2)) with 65536. destruct (Z.leb_spec a 65535); lia.
Qed.

Lemma get_asn_spec s u a rest :
  stream_ok s → 0 <= a < 2 ^ 32 → unread s = enc_asn u a ++ rest →
  ∃ s', (if u then stream_getl s else stream_getw s) = Ok (s', wire_asn u a) ∧
    stream_ok s' ∧ unread s' = rest.
Proof.
  intros Hs Ha E. pose proof (wire_asn_bound u a Ha) as Hb. unfold enc_asn in E. destruct u.
  - destruct (get_word_spec (n := 4) s _ _ Hs E (length_be_bytes _ _)) as ([s' v] & Eg & -> & Hok & _ & _ & _ & Hu).
    exists s'. rewrite be_value_bytes, Z.mod_small in Eg by exact Hb. done.
  - destruct (get_word_spec (n := 2) s _ _ Hs E (length_be_bytes _ _)) as ([s' v] & Eg & -> & Hok & _ & _ & _ & Hu).
    exists s'. rewrite be_value_bytes, Z.mod_small in Eg by exact Hb. done.
Qed.

Lemma get_asns_spec s u l rest :
  stream_ok s → Forall (λ a, 0 <= a < 2 ^ 32) l → unread s = enc_asns u l ++ rest →
  ∃ s', get_asns s (length l) u = Ok (s', wire_asn u <$> l) ∧ stream_ok s' ∧ unread s' = rest.
Proof.
  intros Hs Hl. revert s Hs. induction Hl as [|a l Ha Hl IH]; intros s Hs E; cbn [get_asns length]; [by eauto|].
  change (enc_asns u (a :: l)) with (enc_asn u a ++ enc_asns u l) in E. rewrite <-(assoc_L (++)) in E.
  destruct (get_asn_spec s u a _ Hs Ha E) as (s1 & -> & Hs1 & E1). cbn [mbind M_bind].
  destruct (IH s1 Hs1 E1) as (s2 & -> & Hs2 & E2). cbn [mbind M_bind]. eauto.
Qed.

Lemma get_byte_spec s v rest :
  stream_ok s → 0 <= v < 2 ^ 8 → unread s = be_bytes 1 v ++ rest →
  ∃ s', stream_getc s = Ok (s', v) ∧ stream_ok s' ∧ unread s' = rest.
Proof.
  intros Hs Hv E.
  destruct (get_word_spec (n := 1) s _ _ Hs E (length_be_bytes _ _)) as ([s' x] & Eg & -> & Hok & _ & _ & _ & Hu).
  exists s'. rewrite be_value_bytes, Z.mod_small in Eg by exact Hv. done.
Qed.

Lemma parse_loop_spec fuel s segs bytes length_ u rest :
  Forall wire_ok segs → (length segs <= fuel)%nat → stream_ok s →
  length_ = bytes + zlen (enc_path u segs) → unread s = enc_path u segs ++ rest →
  ∃ s', parse_loop fuel s bytes length_ u = Ok (s', Some (wire_seg u <$> segs)) ∧
    stream_ok s' ∧ unread s' = rest.
Proof.
  intros Hw. revert fuel s bytes.
  induction Hw as [|seg segs [[Ht Hl] Hlen] Hw IH]; intros fuel s bytes Hf Hs El E.
  { exists s. cbn in El. rewrite Z.add_0_r in El. destruct fuel; cbn [parse_loop]; rewrite (proj2 (Z.leb_le _ _)) by lia; done. }
  rewrite enc_path_cons, length_app in El. rewrite enc_path_cons, <-(assoc_L (++)) in E.
  pose proof (length_enc_seg u seg) as Hsz.
  assert (4 <= ASSEGMENT_SIZE (len seg) u) as H4.
  { unfold ASSEGMENT_SIZE, AS_HEADER_SIZE, AS_VALUE_SIZE. destruct u; lia. }
  destruct fuel as [|fuel]; [cbn in Hf; lia|]. cbn [parse_loop].
  rewrite (proj2 (Z.leb_gt length_ bytes)) by lia.
  rewrite (proj2 (Z.leb_gt _ AS_HEADER_SIZE)) by (unfold AS_HEADER_SIZE; lia).
  unfold enc_seg in E. rewrite <-!(assoc_L (++)) in E.
  assert (0 <= stype seg < 2 ^ 8) as Htb by (destruct (known_cases _ Ht) as [->|[_ [->|[->| ->]]]]; done).
  destruct (get_byte_spec s _ _ Hs Htb E) as (s1 & -> & Hs1 & E1). cbn [mbind M_bind].
  assert (0 <= len seg < 2 ^ 8) as Hnb by (unfold AS_SEGMENT_MAX in Hlen; lia).
  destruct (get_byte_spec s1 _ _ Hs1 Hnb E1) as (s2 & -> & Hs2 & E2). cbn [mbind M_bind].
  rewrite (proj2 (Z.ltb_ge length_ _)) by lia. rewrite (proj2 (Z.eqb_neq (len seg) 0)) by lia.
  cbn [orb]. rewrite Ht. cbn [negb].
  replace (Z.to_nat (len seg)) with (length (asns seg)) by (unfold len; lia).
  destruct (get_asns_spec s2 u (asns seg) _ Hs2 Hl E2) as (s3 & -> & Hs3 & E3). cbn [mbind M_bind].
  destruct (IH fuel s3 (bytes + ASSEGMENT_SIZE (len seg) u)) as (s4 & -> & Hs4 & E4); [cbn in Hf; lia|done|lia|done|].
  cbn [mbind M_bind]. by exists s4.
Qed.

(** *** Arbitrary input *)

Lemma get_word_total `{Word n} (s : stream) :
  stream_ok s → Z.of_nat n <= zlen (unread s) →
  ∃ s' v, get_word s = Ok (s', v) ∧ stream_ok s' ∧ 0 <= v < 2 ^ (8 * Z.of_nat n) ∧
    unread s = be_bytes n v ++ unread s'.
Proof.
  intros Hs Hn. pose proof (unread_bytes s Hs) as Hb.
  assert (length (take n (unread s)) = n) as El by (rewrite length_take; lia).
  assert (bytes_ok (take n (unread s))) as Hbt by (by apply Forall_take).
  destruct (get_word_spec s _ (drop n (unread s)) Hs (eq_sym (take_drop n _)) El)
    as ([s' v] & Eg & -> & Hok & _ & _ & _ & Hu).
  eexists _, _; split; [exact Eg|]. split; [done|]. split.
  - pose proof (be_value_bound _ Hbt) as Hv. by rewrite El in Hv.
  - pose proof (be_bytes_value _ Hbt) as E. rewrite El in E. rewrite E, Hu. by rewrite take_drop.
Qed.

Lemma get_asns_total s n u :
  stream_ok s → Z.of_nat n * AS_VALUE_SIZE u <= zlen (unread s) →
  ∃ s' l, get_asns s n u = Ok (s', l) ∧ stream_ok s' ∧ length l = n ∧
    Forall (λ a, 0 <= a < 2 ^ 32) l ∧ unread s = enc_asns u l ++ unread s'.
Proof.
  revert s. induction n as [|n IH]; intros s Hs Hn; cbn [get_asns].
  { eexists _, []. split_and!; done. }
  assert (∃ s1 a, (if u then stream_getl s else stream_getw s) = Ok (s1, a) ∧ stream_ok s1 ∧
            0 <= a < 2 ^ 32 ∧ unread s = enc_asn u a ++ unread s1) as (s1 & a & -> & Hs1 & Ha & E1).
  { destruct u; cbn [AS_VALUE_SIZE] in Hn.
    - destruct (get_word_total (n := 4) s Hs) as (s1 & a & Eg & Hs1 & Ha & E); [lia|]. by exists s1, a.
    - destruct (get_word_total (n := 2) s Hs) as (s1 & a & Eg & Hs1 & Ha & E); [lia|].
      change (2 ^ (8 * Z.of_nat 2)) with 65536 in Ha. exists s1, a. split; [exact Eg|]. split; [done|]. split; [lia|].
      unfold enc_asn, wire_asn, BGP_AS_MAX. by rewrite (proj2 (Z.leb_le a 65535)) by lia. }
  cbn [mbind M_bind]. assert (zlen (enc_asn u a) = AS_VALUE_SIZE u) as El
    by (unfold enc_asn; rewrite length_be_bytes; by destruct u).
  destruct (IH s1 Hs1) as (s2 & l & -> & Hs2 & Hl & Hall & E2).
  { rewrite E1, length_app in Hn. lia. }
  cbn [mbind M_bind]. exists s2, (a :: l). split_and!; [done|done|cbn; lia|by constructor|].
  rewrite E1, E2. change (enc_asns u (a :: l)) with (enc_asn u a ++ enc_asns u l). by rewrite (assoc_L (++)).
Qed.

(** What the loop returns: the stream is still usable, and segments come only
    from their encoding. *)
Definition parsed (s : stream) (n : Z) (u : bool) (s' : stream) (r : option (list assegment)) : Prop :=
  stream_ok s' ∧
  ∀ segs, r = Some segs → Forall wire_ok segs ∧ unread s = enc_path u segs ++ unread s' ∧ zlen (enc_path u segs) = n.

Lemma parsed_none s n u s' : stream_ok s' → parsed s n u s' None.
Proof. by split. Qed.

Lemma parsed_cons s n u s' seg r s1 :
  wire_ok seg → unread s = enc_seg u seg ++ unread s1 →
  parsed s1 (n - zlen (enc_seg u seg)) u s' r →
  parsed s n u s' (match r with None => None | Some segs => Some (seg :: segs) end).
Proof.
  intros Hw E [Hs' Hr]. split; [done|]. intros segs Eq. destruct r as [segs'|]; [|done]. simplify_eq.
  destruct (Hr _ eq_refl) as (Hws & Eu & El). rewrite enc_path_cons, length_app.
  split_and!; [by constructor| |lia]. by rewrite E, Eu, (assoc_L (++)).
Qed.

Lemma parse_loop_total fuel s bytes length_ u :
  stream_ok s → 0 <= length_ - bytes <= zlen (unread s) → length_ - bytes <= Z.of_nat fuel →
  ∃ s' r, parse_loop fuel s bytes length_ u = Ok (s', r) ∧ parsed s (length_ - bytes) u s' r.
Proof.
  revert s bytes. induction fuel as [|fuel IH]; intros s bytes Hs Hr Hf; cbn [parse_loop];
    (destruct (Z.leb_spec length_ bytes);
      [exists s, (Some []); split; [done|]; split; [done|]; intros ? [= <-]; split_and!; [done..|cbn; lia]|]); [lia|].
  destruct (Z.leb_spec (length_ - bytes) AS_HEADER_SIZE) as [|Hh]; [eauto using parsed_none|].
  unfold AS_HEADER_SIZE in Hh.
  destruct (get_word_total (n := 1) s Hs) as (s1 & t & E1 & Hs1 & Ht & Eu1); [lia|].
  cbn [get_word word1] in E1. rewrite E1. cbn [mbind M_bind]. rewrite Eu1, length_app, length_be_bytes in Hr.
  destruct (get_word_total (n := 1) s1 Hs1) as (s2 & n & E2 & Hs2 & Hn & Eu2); [lia|].
  cbn [get_word word1] in E2. rewrite E2. cbn [mbind M_bind]. rewrite Eu2, length_app, length_be_bytes in Hr.
  destruct (Z.ltb_spec length_ (bytes + ASSEGMENT_SIZE n u)) as [|Hlen]; cbn [orb]; [eauto using parsed_none|].
  destruct (Z.eqb_spec n 0); [eauto using parsed_none|].
  destruct (known_type t) eqn:Ek; cbn [negb]; [|eauto using parsed_none].
  pose proof Hlen as Hlen'. unfold ASSEGMENT_SIZE, AS_HEADER_SIZE in Hlen'.
  destruct (get_asns_total s2 (Z.to_nat n) u Hs2) as (s3 & l & -> & Hs3 & Hl & Hall & Eu3).
  { rewrite Z2Nat.id by lia. lia. }
  cbn [mbind M_bind]. assert (len (Seg t l) = n) as Hn' by (unfold len; cbn [asns]; lia).
  pose proof (length_enc_seg u (Seg t l)) as Hsz. rewrite Hn' in Hsz.
  assert (unread s = enc_seg u (Seg t l) ++ unread s3) as Eu.
  { unfold enc_seg. rewrite Hn'. cbn [stype asns]. by rewrite Eu1, Eu2, Eu3, <-!(assoc_L (++)). }
  assert (0 < AS_VALUE_SIZE u) by (destruct u; done).
  assert (0 <= length_ - (bytes + ASSEGMENT_SIZE n u) <= zlen (unread s3)) as Hrem.
  { rewrite Eu3, length_app in Hr. pose proof (length_enc_asns u l). unfold ASSEGMENT_SIZE, AS_HEADER_SIZE in *. nia. }
  destruct (IH s3 (bytes + ASSEGMENT_SIZE n u) Hs3 Hrem) as (s4 & r & -> & Hp).
  { unfold ASSEGMENT_SIZE, AS_HEADER_SIZE in *. nia. }
  cbn [mbind M_bind]. eexists _, _. split; [done|]. eapply parsed_cons; [|exact Eu|].
  - split; [by split|]. rewrite Hn'. unfold AS_SEGMENT_MAX. change (2 ^ (8 * Z.of_nat 1)) with 256 in Hn. lia.
  - rewrite Hsz. by replace (length_ - bytes - _) with (length_ - (bytes + ASSEGMENT_SIZE n u)) by lia.
Qed.

Lemma enc_path_even u segs : zlen (enc_path u segs) mod 2 = 0.
Proof.
  assert (∃ k, zlen (enc_path u segs) = k * 2) as [k ->].
  { induction segs as [|seg segs [k IH]]; [by exists 0|]. rewrite enc_path_cons, length_app.
    pose proof (length_enc_seg u seg) as Hsz. unfold ASSEGMENT_SIZE, AS_HEADER_SIZE, AS_VALUE_SIZE in Hsz.
    destruct u; [exists (1 + len seg * 2 + k)|exists (1 + len seg + k)]; lia. }
  apply Z_mod_mult.
Qed.

Lemma enc_path_long u segs :
  Forall wire_ok segs → 4 * zlen segs <= zlen (enc_path u segs).
Proof.
  induction 1 as [|seg segs [_ Hl] _ IH]; [done|]. rewrite enc_path_cons, length_app. cbn [length].
  pose proof (length_enc_seg u seg) as Hsz. unfold ASSEGMENT_SIZE, AS_HEADER_SIZE, AS_VALUE_SIZE in Hsz.
  destruct u; lia.
Qed.

Lemma assegments_parse_spec s u segs rest :
  Forall wire_ok segs → stream_ok s → unread s = enc_path u segs ++ rest →
  ∃ s', assegments_parse s (zlen (enc_path u segs)) u = Ok (s', Some (assegment_normalise (wire_seg u <$> segs))) ∧
    stream_ok s' ∧ unread s' = rest.
Proof.
  intros Hw Hs E. unfold assegments_parse. pose proof (enc_path_long u segs Hw) as Hlong.
  destruct segs as [|seg segs]; [by exists s|]. cbn [length] in Hlong.
  rewrite (proj2 (Z.eqb_neq _ _)) by lia.
  rewrite readable_ok, <-length_unread, E, length_app by done. rewrite !(proj2 (Z.ltb_ge _ _)) by (unfold AS_HEADER_SIZE; lia).
  rewrite enc_path_even. cbn [orb negb Z.eqb].
  destruct (parse_loop_spec (Z.to_nat (zlen (enc_path u (seg :: segs)))) s (seg :: segs) 0
    (zlen (enc_path u (seg :: segs))) u rest Hw) as (s' & -> & Hs' & E'); [cbn [length]; lia|done..|].
  cbn [mbind M_bind]. by exists s'.
Qed.

Lemma wire_seg_32 (segs : list assegment) : wire_seg true <$> segs = segs.
Proof. induction segs as [|[t l] segs IH]; [done|]. cbn. rewrite IH. unfold wire_seg; cbn. by rewrite list_fmap_id. Qed.

(** C20. Wire round trip.  A path in normal form whose segments have between 1
    and 255 numbers is written by [aspath_put], to a stream with room for it, as
    its encoding; the result is the number of bytes written.  Reading that many
    bytes back with [assegments_parse] gives the same path and leaves what
    follows; with 2-byte numbers, the path in which AS_TRANS stands for every
    number above 65535. *)
Theorem aspath_wire_roundtrip s segs u :
  Forall wire_ok segs → normal segs → stream_ok s → room s (zlen (enc_path u segs)) →
  ∃ s1 n, aspath_put s segs u = Ok (s1, n) ∧ n = zlen (enc_path u segs) ∧ appended s s1 (enc_path u segs) ∧
    ∀ s2 rest, stream_ok s2 → unread s2 = enc_path u segs ++ rest →
      ∃ s3, assegments_parse s2 n u
              = Ok (s3, Some (if u then segs else assegment_normalise (wire_seg false <$> segs))) ∧
        stream_ok s3 ∧ unread s3 = rest.
Proof.
  intros Hw Hn Hs Hr.
  destruct (put_loop_spec (length segs) s segs 0 u Hw Hn (le_n _) Hs Hr) as (s1 & Ep & Ha).
  exists s1, (zlen (enc_path u segs)). split_and!; [|done|done|].
  - unfold aspath_put. destruct segs as [|seg segs']; [exact Ep|].
    apply Forall_cons in Hw as [[_ Hl] _]. rewrite (proj2 (Z.eqb_neq _ _)) by lia. exact Ep.
  - intros s2 rest Hs2 E. destruct (assegments_parse_spec s2 u segs rest Hw Hs2 E) as (s3 & -> & ? & ?).
    exists s3. split; [|done]. destruct u; [|done]. by rewrite wire_seg_32, normal_normalise.
Qed.


Definition buffer (n : Z) : stream := Stream 0 0 n (replicate (Z.to_nat n) 0).

Lemma aspath_wire_roundtrip_witness :
  ∃ s1 n, aspath_put (buffer 32) [Seg AS_SEQUENCE [70000; 7018]; Seg AS_SET [1; 2]] true = Ok (s1, n) ∧
    assegments_parse s1 n true ≫= (λ '(_, r), Ok r) = Ok (Some [Seg AS_SEQUENCE [70000; 7018]; Seg AS_SET [1; 2]]).
Proof.
  destruct (aspath_wire_roundtrip (buffer 32) [Seg AS_SEQUENCE [70000; 7018]; Seg AS_SET [1; 2]] true)
    as (s1 & n & E & En & (Hok & _ & _ & _ & Hu) & Hread).
  - repeat constructor; done.
  - repeat split; repeat constructor; done.
  - decide_by_compute.
  - unfold room. vm_compute. discriminate.
  - exists s1, n. split; [exact E|].
    destruct (Hread s1 [] Hok) as (s3 & -> & _ & _); [rewrite Hu; vm_compute; reflexivity|reflexivity].
Defined.


(** What is read back after writing [segs]: the number of bytes reported, the
    number written, and the path. *)
Definition sent (segs : list assegment) : M (Z * Z * option (list assegment)) :=
  '(s, n) ← aspath_put (buffer 4000) segs true;
  '(s, r) ← assegments_parse s (endp s) true;
  Ok (n, endp s, r).

(** Segments the writer damages.  A sequence of 600 numbers is split into
    pieces of 255, but each full piece repeats the first 255 numbers, and the
    reported size is not the size written.  Three sequences packed into one leave
    a length byte that counts only the first and the last, and the result cannot
    be parsed. *)
Theorem aspath_put_damages :
  (let l := Z.of_nat <$> seq 1 600 in
   sent [Seg AS_SEQUENCE l]
     = Ok (3426, 2406, Some [Seg AS_SEQUENCE (take 255 l ++ take 255 l ++ drop 510 l)])) ∧
  sent [Seg AS_SEQUENCE [1; 2]; Seg AS_SEQUENCE [3]; Seg AS_SEQUENCE [4; 5]] = Ok (22, 22, None).
Proof. split; vm_compute; reflexivity. Qed.
