(* ===== verification/ASPathOps.v ===== *)
(** Operations on whole AS paths (bgpd/bgp_aspath.c): prepending, filtering,
    reconciling with AS4_PATH, aggregation, comparison and sharing. *)
From stdpp Require Import sorting.
From S2P Require Import Prelude Stream Hash Jhash ASPath ASPathSpec.
Open Scope Z_scope.

(** ** Comparison *)

Lemma asns_eq_true l1 l2 : asns_eq l1 l2 = true ↔ l1 = l2.
Proof.
  revert l2. induction l1 as [|a l1 IH]; intros [|b l2]; cbn [asns_eq]; try done.
  rewrite andb_true_iff, Z.eqb_eq, IH. naive_solver.
Qed.

Lemma aspath_cmp_true segs1 segs2 : aspath_cmp segs1 segs2 = true ↔ segs1 = segs2.
Proof.
  revert segs2. induction segs1 as [|[t l] segs1 IH]; intros [|[t' l'] segs2]; cbn [aspath_cmp stype asns]; try done.
  rewrite !andb_true_iff, !Z.eqb_eq, asns_eq_true, IH. unfold len; cbn [asns]. split.
  - by intros [[[-> _] ->] ->].
  - by intros [= -> -> ->].
Qed.

(** The laws the sharing of paths needs. *)
#[export] Instance aspath_intern_laws : InternLaws aspath_key aspath_cmp.
Proof. split; intros *; rewrite ?aspath_cmp_true; congruence. Qed.

(** ** Lemmas on hops and numbers *)

Lemma count_hops_app s1 s2 : count_hops (s1 ++ s2) = count_hops s1 + count_hops s2.
Proof. induction s1 as [|seg s1 IH]; cbn [app count_hops]; lia. Qed.

Lemma count_as_app a l1 l2 : count_as a (l1 ++ l2) = count_as a l1 + count_as a l2.
Proof. unfold count_as. rewrite filter_app, length_app. lia. Qed.

Lemma count_as_replicate a b n : count_as a (replicate n b) = if decide (b = a) then Z.of_nat n else 0.
Proof.
  unfold count_as. induction n as [|n IH]; cbn [replicate]; [by case_decide|].
  rewrite filter_cons. destruct (decide (b = a)); cbn [length]; lia.
Qed.

Lemma count_as_zero a l : count_as a l = 0 ↔ a ∉ l.
Proof.
  unfold count_as. induction l as [|b l IH].
  - split; [intros _; apply not_elem_of_nil|done].
  - rewrite filter_cons, not_elem_of_cons. case_decide; cbn [length]; [naive_solver lia|]. rewrite IH. naive_solver.
Qed.

Lemma replicate_u32 n a : 0 <= a < 2 ^ 32 → Forall (λ a, 0 <= a < 2 ^ 32) (replicate n a).
Proof. intros Ha. apply Forall_forall. intros x Hx%elem_of_replicate. by destruct Hx as [-> _]. Qed.

(** [aspath_str_update] never changes the segments of a printable path. *)
Lemma str_update_ok segs :
  Forall known segs → ∃ q, aspath_str_update segs = Ok q ∧ segments q = segs.
Proof. intros Hk. unfold aspath_str_update. rewrite make_str_prints by done. eauto. Qed.

(** ** Prepending AS numbers *)

(** What [aspath_add_asns] makes of the segments. *)
Lemma add_asns_segments p asno t num :
  Forall known (segments p) → Forall (λ seg, asns seg ≠ []) (segments p) → known_type t = true →
  0 <= asno < 2 ^ 32 → 0 < num < AS_SEGMENT_MAX → Forall (λ seg, len seg + num < 2 ^ 16) (segments p) →
  ∃ q seg rest, aspath_add_asns p asno t num = Ok q ∧ segments q = seg :: rest ∧ stype seg = t ∧
    ∃ l, asns seg = replicate (Z.to_nat num) asno ++ l ∧
      ((l = [] ∧ rest = segments p) ∨ segments p = Seg t l :: rest).
Proof.
  unfold AS_SEGMENT_MAX. intros Hk Hne Ht Ha Hn Hf. unfold aspath_add_asns.
  assert (known (Seg t (replicate (Z.to_nat num) asno))) as Hnew by (split; [done|by apply replicate_u32]).
  destruct (segments p) as [|[t' l] rest] eqn:Ep.
  - rewrite (proj2 (Z.leb_gt _ _)) by lia. destruct (str_update_ok [Seg t (replicate (Z.to_nat num) asno)]) as (q & E & Eq).
    { by apply Forall_singleton. }
    exists q, (Seg t (replicate (Z.to_nat num) asno)), []. split_and!; try done. exists []. rewrite app_nil_r. eauto.
  - apply Forall_cons in Hk as [Hk1 Hk], Hne as [Hne1 _], Hf as [Hf1 _]. cbn [stype asns] in *.
    destruct (Z.eqb_spec t' t) as [->|Hd].
    + rewrite (proj2 (Z.leb_gt (2 ^ 31) num)) by lia.
      assert (assegment_prepend_asns (Seg t l) asno num = Seg t (replicate (Z.to_nat num) asno ++ l)) as ->.
      { unfold assegment_prepend_asns, AS_SEGMENT_MAX. rewrite (proj2 (Z.eqb_neq num 0)), (proj2 (Z.leb_gt 255 num)) by lia.
        cbn [stype asns]. rewrite grown_id; [done|]. unfold fits, len in *. cbn [asns] in Hf1.
        rewrite length_app, length_replicate. lia. }
      destruct (str_update_ok (Seg t (replicate (Z.to_nat num) asno ++ l) :: rest)) as (q & E & Eq).
      { constructor; [|done]. split; [done|]. apply Forall_app; split; [by apply replicate_u32|apply Hk1]. }
      eexists q, _, rest. split_and!; try done. exists l. eauto.
    + rewrite (proj2 (Z.leb_gt (2 ^ 16) num)) by lia.
      assert (len (Seg t' l) =? 0 = false) as ->.
      { apply Z.eqb_neq. unfold len; cbn [asns]. destruct l; [done|]. cbn. lia. }
      destruct (str_update_ok (Seg t (replicate (Z.to_nat num) asno) :: Seg t' l :: rest)) as (q & E & Eq).
      { by rewrite !Forall_cons. }
      eexists q, _, _. split_and!; try done. exists []. rewrite app_nil_r. eauto.
Qed.

(** Prepending an AS number [num] times, as exporting a route and the route
    map action do, makes the path [num] hops longer; the number occurs [num]
    times more and every other one as often as before, so loop detection at the
    next speaker sees it, and the path starts with it. *)
Theorem aspath_add_seq_n_correct p asno num :
  Forall known (segments p) → Forall (λ seg, asns seg ≠ []) (segments p) →
  0 <= asno < 2 ^ 32 → 0 < num < AS_SEGMENT_MAX → Forall (λ seg, len seg + num < 2 ^ 16) (segments p) →
  ∃ q, aspath_add_seq_n p asno num = Ok q ∧
    aspath_count_hops q = aspath_count_hops p + num ∧
    (∀ a, aspath_loop_check (Some q) a = aspath_loop_check (Some p) a + if decide (asno = a) then num else 0) ∧
    aspath_firstas_check (Some q) asno = Ok true ∧ aspath_leftmost q = asno.
Proof.
  intros Hk Hne Ha Hn Hf.
  destruct (add_asns_segments p asno AS_SEQUENCE num Hk Hne eq_refl Ha Hn Hf) as (q & [t l'] & rest & E & Eq & Ht & l & El & Hold).
  cbn [stype asns] in *. subst t l'.
  assert (∃ l2, replicate (Z.to_nat num) asno ++ l = asno :: l2) as [l2 El2].
  { destruct (Z.to_nat num) as [|n] eqn:En; [lia|]. by eexists. }
  exists q. split; [done|]. split_and!.
  - unfold aspath_count_hops. rewrite Eq. cbn [count_hops stype]. cbn [Z.eqb AS_SEQUENCE Pos.eqb]. unfold len. cbn [asns].
    rewrite length_app, length_replicate. destruct Hold as [[-> ->]| ->]; [cbn [length]; lia|].
    cbn [count_hops stype]. cbn [Z.eqb AS_SEQUENCE Pos.eqb]. unfold len. cbn [asns]. lia.
  - intros a. unfold aspath_loop_check. rewrite Eq, all_asns_cons. cbn [asns]. rewrite !count_as_app, count_as_replicate.
    destruct Hold as [[-> ->]| ->].
    + change (count_as a []) with 0. case_decide; lia.
    + rewrite all_asns_cons, count_as_app. cbn [asns]. case_decide; lia.
  - destruct q as [sq ? ?]. cbn [segments] in Eq. subst sq. cbn [aspath_firstas_check stype asns]. rewrite El2.
    change (Ok (asno =? asno) = Ok true). by rewrite Z.eqb_refl.
  - unfold aspath_leftmost. rewrite Eq, El2. done.
Qed.

Lemma aspath_add_seq_n_correct_witness :
  ∃ q, aspath_add_seq_n (AsPath [Seg AS_SEQUENCE [7018; 3356]] None 0) 65001 2 = Ok q ∧
    aspath_count_hops q = 4 ∧ aspath_loop_check (Some q) 65001 = 2.
Proof.
  destruct (aspath_add_seq_n_correct (AsPath [Seg AS_SEQUENCE [7018; 3356]] None 0) 65001 2) as (q & E & Hh & Hl & _).
  - repeat constructor; done.
  - repeat constructor; done.
  - lia.
  - done.
  - repeat constructor; done.
  - exists q. split; [exact E|]. rewrite Hh, (Hl 65001). split; reflexivity.
Defined.

(** ** Prepending a path *)

Lemma split_last_app seg segs init last :
  split_last seg segs = (init, last) → seg :: segs = init ++ [last].
Proof.
  revert seg init. induction segs as [|s segs IH]; intros seg init; cbn [split_last].
  - by intros [= <- <-].
  - destruct (split_last s segs) as [i l] eqn:E. intros [= <- <-]. cbn [app]. f_equal. by apply IH.
Qed.

Lemma hops_merge t l1 l2 segs1 segs2 :
  t = AS_SEQUENCE → fits (l1 ++ l2) →
  count_hops (segs1 ++ assegment_append_asns (Seg t l1) l2 :: segs2) = count_hops (segs1 ++ [Seg t l1]) + count_hops (Seg t l2 :: segs2) ∧
  all_asns (segs1 ++ assegment_append_asns (Seg t l1) l2 :: segs2) = all_asns (segs1 ++ [Seg t l1]) ++ all_asns (Seg t l2 :: segs2).
Proof.
  intros -> Hf. unfold assegment_append_asns; cbn [stype asns]. rewrite grown_id by done.
  rewrite !count_hops_app, !all_asns_app, !all_asns_cons. cbn [count_hops stype asns all_asns mbind list_bind].
  cbn [Z.eqb AS_SEQUENCE Pos.eqb]. unfold len; cbn [asns]. rewrite length_app, app_nil_r, <-!(assoc_L (++)). split; [lia|done].
Qed.

(** The last segment of [as1] is a sequence and [as2] starts with a confederation
    sequence. *)
Definition meets_confed (segs1 segs2 : list assegment) : Prop :=
  ∃ init l1 l2 rest, segs1 = init ++ [Seg AS_SEQUENCE l1] ∧ segs2 = Seg AS_CONFED_SEQUENCE l2 :: rest.

Lemma merge_ok init x s2 :
  Forall known (init ++ [x]) → Forall known s2 →
  ∃ q, aspath_merge (init ++ [x]) s2 = Ok q ∧ segments q = (init ++ [x]) ++ s2.
Proof.
  intros H1 H2. destruct (str_update_ok ((init ++ [x]) ++ s2)) as (q & E & Eq); [by apply Forall_app|].
  exists q. split; [|done]. by destruct init.
Qed.

Lemma merge_adds init x s2 :
  Forall known (init ++ [x]) → Forall known s2 →
  ∃ q, aspath_merge (init ++ [x]) s2 = Ok q ∧ all_asns (segments q) = all_asns (init ++ [x]) ++ all_asns s2 ∧
    count_hops (segments q) = count_hops (init ++ [x]) + count_hops s2.
Proof.
  intros H1 H2. destruct (merge_ok init x s2 H1 H2) as (q & E & Eq). exists q. rewrite Eq.
  split_and!; [done|apply all_asns_app|apply count_hops_app].
Qed.

(** Prepending one path to another: the numbers of the result are those of
    the first path followed by those of the second, and the hop counts add up,
    whatever the types of the segments that meet. *)
Theorem aspath_prepend_correct p1 p2 :
  Forall known (segments p1) → Forall known (segments p2) →
  fits (all_asns (segments p1) ++ all_asns (segments p2)) → ¬ meets_confed (segments p1) (segments p2) →
  ∃ q, aspath_prepend p1 p2 = Ok q ∧
    all_asns (segments q) = all_asns (segments p1) ++ all_asns (segments p2) ∧
    aspath_count_hops q = aspath_count_hops p1 + aspath_count_hops p2.
Proof.
  intros Hk1 Hk2 Hf Hm. unfold aspath_prepend, aspath_count_hops.
  destruct (segments p2) as [|[t2 l2] rest2] eqn:E2.
  { destruct (str_update_ok _ Hk1) as (q & E & Eq). exists q. split; [done|]. rewrite Eq, app_nil_r. cbn [count_hops]. split; [done|lia]. }
  destruct (segments p1) as [|hd1 rest1] eqn:E1; [by exists p2; rewrite E2|].
  destruct (split_last hd1 rest1) as [init1 [t1 l1]] eqn:Es. apply split_last_app in Es.
  rewrite Es in *. cbn [stype asns].
  destruct (Z.eqb_spec t1 AS_SEQUENCE) as [->|H1]; cbn [andb].
  - destruct (Z.eqb_spec t2 AS_CONFED_SEQUENCE) as [->|H2].
    { destruct Hm. by exists init1, l1, l2, rest2. }
    destruct (Z.eqb_spec AS_SEQUENCE t2) as [<-|H3]; cbn [negb].
    + assert (fits (l1 ++ l2)) as Hfl.
      { rewrite all_asns_app, !all_asns_cons in Hf. cbn [asns all_asns mbind list_bind] in Hf.
        unfold fits in *. rewrite !length_app in *. lia. }
      destruct (hops_merge AS_SEQUENCE l1 l2 init1 rest2 eq_refl Hfl) as [Hh Ha].
      destruct (str_update_ok (init1 ++ assegment_append_asns (Seg AS_SEQUENCE l1) l2 :: rest2)) as (q & E & Eq).
      { apply Forall_app in Hk1 as [Hi Hs1]. apply Forall_singleton in Hs1 as [_ Hl1].
        apply Forall_cons in Hk2 as [[_ Hl2] Hr2]. apply Forall_app; split; [done|]. constructor; [|done].
        unfold assegment_append_asns; cbn [stype asns] in *. rewrite grown_id by done. split; [done|]. by apply Forall_app. }
      exists q. rewrite Eq. split_and!; done.
    + by apply merge_adds.
  - destruct (negb (t1 =? t2)); by apply merge_adds.
Qed.

Lemma aspath_prepend_correct_witness :
  ∃ q, aspath_prepend (AsPath [Seg AS_SEQUENCE [1; 2]] None 0) (AsPath [Seg AS_SEQUENCE [3]; Seg AS_SET [4; 5]] None 0) = Ok q ∧
    all_asns (segments q) = [1; 2; 3; 4; 5] ∧ aspath_count_hops q = 4.
Proof.
  destruct (aspath_prepend_correct (AsPath [Seg AS_SEQUENCE [1; 2]] None 0)
    (AsPath [Seg AS_SEQUENCE [3]; Seg AS_SET [4; 5]] None 0)) as (q & E & Ha & Hh).
  - repeat constructor; done.
  - repeat constructor; done.
  - done.
  - intros (init & l1 & l2 & rest & _ & [=]).
  - exists q. split; [exact E|]. rewrite Ha, Hh. split; reflexivity.
Defined.

(** A path that ends in a sequence cannot be prepended to one that starts
    with a confederation sequence: the leading confederation segments of the
    second path are freed, and the code then reads the type of the first of
    them. *)
Theorem aspath_prepend_confed_use_after_free p1 p2 :
  Forall known (segments p2) → meets_confed (segments p1) (segments p2) →
  aspath_prepend p1 p2 = Fault Undefined.
Proof.
  intros Hk (init & l1 & l2 & rest & E1 & E2). unfold aspath_prepend. rewrite E2.
  destruct (segments p1) as [|hd1 rest1]; [by destruct init|].
  destruct (split_last hd1 rest1) as [i x] eqn:Es. apply split_last_app in Es. rewrite E1 in Es.
  apply app_inj_tail in Es as [_ <-]. cbn [stype]. rewrite !Z.eqb_refl. cbn [andb].
  unfold aspath_delete_confed_seq. rewrite E2 in *. cbn [stype]. rewrite Z.eqb_refl.
  destruct (str_update_ok (delete_confed (Seg AS_CONFED_SEQUENCE l2 :: rest))) as (q & -> & _); [|done].
  clear E2. induction Hk as [|seg segs ? ? IH]; cbn [delete_confed]; [done|].
  destruct (is_confed_type _); [done|by constructor].
Qed.

Lemma aspath_prepend_confed_use_after_free_witness :
  aspath_prepend (AsPath [Seg AS_SEQUENCE [65001]] None 0) (AsPath [Seg AS_CONFED_SEQUENCE [65002]] None 0) = Fault Undefined.
Proof.
  apply aspath_prepend_confed_use_after_free.
  - repeat constructor; done.
  - exists [], [65001], [65002], []. split; reflexivity.
Defined.

(** ** Filtering *)

Lemma excluded_elem exclude a : excluded exclude a = true ↔ a ∈ all_asns exclude.
Proof.
  unfold excluded, all_asns. rewrite existsb_exists. setoid_rewrite existsb_exists. rewrite list_elem_of_bind.
  split.
  - intros (seg & Hs & b & Hb & ->%Z.eqb_eq). exists seg. by rewrite !list_elem_of_In.
  - intros (seg & Ha & Hs). exists seg. rewrite <-list_elem_of_In. split; [done|].
    exists a. rewrite <-list_elem_of_In. split; [done|]. apply Z.eqb_refl.
Qed.

Lemma filter_segment_cases exclude seg :
  let l := filter (λ a, excluded exclude a = false) (asns seg) in
  (filter_segment exclude seg = [] ∧ l = []) ∨ (filter_segment exclude seg = [Seg (stype seg) l] ∧ l ≠ []).
Proof.
  intros l. unfold filter_segment. fold l. destruct l; [by left|by right].
Qed.

Lemma filter_segment_asns exclude seg :
  all_asns (filter_segment exclude seg) = filter (λ a, excluded exclude a = false) (asns seg).
Proof.
  destruct (filter_segment_cases exclude seg) as [[-> ->]|[-> _]]; [done|]. rewrite all_asns_cons. cbn [asns].
  by rewrite app_nil_r.
Qed.

(** Excluding AS numbers: what is left of the path is its numbers in order
    without those of the exclude list, in segments of the same type, and no
    segment is left empty. *)
Theorem aspath_filter_exclude_correct source exclude_list :
  Forall known (segments source) →
  ∃ q, aspath_filter_exclude source exclude_list = Ok q ∧
    all_asns (segments q) = filter (λ a, excluded (segments exclude_list) a = false) (all_asns (segments source)) ∧
    (∀ a, a ∈ all_asns (segments exclude_list) → aspath_loop_check (Some q) a = 0) ∧
    Forall (λ seg, asns seg ≠ []) (segments q).
Proof.
  intros Hk. unfold aspath_filter_exclude. set (ex := segments exclude_list).
  destruct (str_update_ok (segments source ≫= filter_segment ex)) as (q & E & Eq).
  { apply Forall_bind. eapply Forall_impl; [exact Hk|]. intros seg [Ht Hl]. unfold compose.
    destruct (filter_segment_cases ex seg) as [[-> _]|[-> _]]; [done|]. apply Forall_singleton.
    split; [done|]. rewrite Forall_forall in *. intros a [_ Ha]%list_elem_of_filter. by apply Hl. }
  assert (all_asns (segments q) = filter (λ a, excluded ex a = false) (all_asns (segments source))) as Ha.
  { rewrite Eq. clear. induction (segments source) as [|seg segs IH]; [done|]. rewrite bind_cons, all_asns_app, IH.
    by rewrite all_asns_cons, filter_app, filter_segment_asns. }
  exists q. split_and!; [done|done| |].
  - intros a Hex. unfold aspath_loop_check. apply count_as_zero. rewrite Ha, list_elem_of_filter. intros [Hf _].
    apply excluded_elem in Hex. congruence.
  - rewrite Eq. apply Forall_bind, Forall_true. intros seg. unfold compose.
    destruct (filter_segment_cases ex seg) as [[-> _]|[-> ?]]; [done|]. by apply Forall_singleton.
Qed.

Lemma aspath_filter_exclude_correct_witness :
  ∃ q, aspath_filter_exclude (AsPath [Seg AS_SEQUENCE [1; 2; 1; 3]; Seg AS_SET [2]] None 0)
         (AsPath [Seg AS_SEQUENCE [2; 3]] None 0) = Ok q ∧
    all_asns (segments q) = [1; 1].
Proof.
  destruct (aspath_filter_exclude_correct (AsPath [Seg AS_SEQUENCE [1; 2; 1; 3]; Seg AS_SET [2]] None 0)
    (AsPath [Seg AS_SEQUENCE [2; 3]] None 0)) as (q & E & Ha & _).
  - repeat constructor; done.
  - exists q. split; [exact E|]. rewrite Ha. reflexivity.
Defined.

(** ** Reconciling AS_PATH and AS4_PATH *)

(** The string of the path is up to date, and short enough for its length
    field. *)
Definition printed (p : aspath) : Prop :=
  ∃ s, str p = Some s ∧ str_len p = Z.of_nat (String.length s) ∧ str_len p < 65535.

Lemma dup_printed p : printed p → aspath_dup p = Ok p.
Proof.
  intros (s & Es & El & Hl). destruct p as [segs st sl]. cbn [str str_len] in *. subst st sl.
  unfold aspath_dup. cbn [str str_len segments]. rewrite Z.eqb_refl.
  by rewrite (proj2 (Z.leb_gt _ _)) by lia.
Qed.

Definition no_confed (seg : assegment) : Prop := is_confed_type (stype seg) = false.

Lemma no_confed_count segs : Forall no_confed segs → count_confeds segs = 0.
Proof.
  induction 1 as [|seg segs H _ IH]; [done|]. unfold no_confed, is_confed_type in H. cbn [count_confeds].
  apply orb_false_iff in H as [-> ->]. lia.
Qed.

Lemma copy_take t (n : nat) l : fits l → assegment_append_asns (Seg t []) (take n l) = Seg t (take n l).
Proof.
  intros Hf. unfold assegment_append_asns; cbn [stype asns app]. rewrite grown_id; [done|].
  unfold fits in *. rewrite length_take. lia.
Qed.

Lemma reconcile_stop segs h c : h <= 0 → reconcile_loop segs h c = Ok [].
Proof. intros H. destruct segs; [done|]. cbn [reconcile_loop]. by rewrite (proj2 (Z.ltb_ge 0 h)) by lia. Qed.

(** One segment of the two types that are left without confederations. *)
Lemma reconcile_step seg segs h c :
  known seg → no_confed seg → fits (asns seg) → 0 < h →
  let n := if stype seg =? AS_SET then len seg else Z.min (len seg) h in
  reconcile_loop (seg :: segs) h c =
    (rest ← reconcile_loop segs (h - if stype seg =? AS_SET then 1 else len seg) n;
     Ok (Seg (stype seg) (take (Z.to_nat n) (asns seg)) :: rest)).
Proof.
  intros [Ht _] Hc Hf Hh n. destruct seg as [t l]. cbn [stype asns] in *.
  assert (n <= len (Seg t l)) as Hn by (subst n; destruct (t =? AS_SET); lia).
  cbn [reconcile_loop]. rewrite (proj2 (Z.ltb_lt 0 h)) by lia. cbn [negb stype asns].
  destruct (known_cases t Ht) as [->|[_ [->|[->| ->]]]]; try done; cbn [is_set_type Z.eqb AS_SEQUENCE AS_SET AS_CONFED_SET AS_CONFED_SEQUENCE Pos.eqb orb] in *;
    fold n; rewrite (proj2 (Z.leb_le n _)) by done; by rewrite copy_take.
Qed.

Lemma known_take t l n : known (Seg t l) → known (Seg t (take n l)).
Proof. intros [Ht Hl]. split; [done|]. by apply Forall_take. Qed.

Lemma reconcile_loop_spec segs h c :
  Forall known segs → Forall no_confed segs → Forall (λ seg, fits (asns seg)) segs → 0 < h <= count_hops segs →
  ∃ new k, reconcile_loop segs h c = Ok new ∧ new ≠ [] ∧ count_hops new = h ∧ Forall known new ∧
    all_asns new = take k (all_asns segs).
Proof.
  intros Hk Hc Hf. revert h c Hc Hf.
  induction Hk as [|seg segs Hk1 Hk IH]; intros h c Hc Hf Hh; [cbn in Hh; lia|].
  apply Forall_cons in Hc as [Hc1 Hc]. apply Forall_cons in Hf as [Hf1 Hf].
  rewrite reconcile_step by (done || lia). cbn [count_hops] in Hh. destruct seg as [t l].
  set (n := if _ =? AS_SET then _ else _). set (cost := if _ =? AS_SET then 1 else _).
  cbn [stype asns] in *.
  assert (count_hops [Seg t (take (Z.to_nat n) l)] = Z.min cost h ∧ (cost < h → n = len (Seg t l)) ∧
    (if t =? AS_SEQUENCE then len (Seg t l) else if t =? AS_SET then 1 else 0) = cost) as (Hcount & Hfull & Hcost).
  { subst n cost. cbn [count_hops stype]. unfold len; cbn [asns]. rewrite length_take.
    destruct (known_cases t (proj1 Hk1)) as [->|[_ [->|[->| ->]]]]; try done;
      cbn [Z.eqb AS_SEQUENCE AS_SET Pos.eqb]; lia. }
  rewrite Hcost in Hh. destruct (Z.leb_spec h cost) as [Hle|Hgt].
  - rewrite reconcile_stop by lia. cbn [mbind M_bind].
    exists [Seg t (take (Z.to_nat n) l)], (length (take (Z.to_nat n) l)). split_and!; [done|done|lia| |].
    + apply Forall_singleton. by apply known_take.
    + rewrite !all_asns_cons. cbn [asns all_asns mbind list_bind]. rewrite app_nil_r, length_take, take_app_le by lia.
      by rewrite <-take_take, firstn_all.
  - destruct (IH (h - cost) n Hc Hf) as (new & k & -> & Hne & Hnew & Hkn & Ha); [lia|]. cbn [mbind M_bind].
    rewrite Hfull in * by lia. unfold len in *; cbn [asns] in *. rewrite Nat2Z.id, firstn_all in *.
    exists (Seg t l :: new), (length l + k)%nat. split_and!; [done|done| |by constructor|].
    + change (Seg t l :: new) with ([Seg t l] ++ new). rewrite count_hops_app. lia.
    + rewrite !all_asns_cons, Ha. cbn [asns]. by rewrite take_app_add.
Qed.



(** ** Aggregation *)

(** Aggregation can lose AS numbers: when one path continues after all of
    the other has matched, the numbers of its next segment are skipped as far as
    the last matching segment was long, so loop detection no longer sees them. *)
Theorem aspath_aggregate_loses_asns :
  aspath_aggregate [Seg AS_SEQUENCE [1; 2]] [Seg AS_SEQUENCE [1; 2]; Seg AS_SET [5]]
    = aspath_make_str_count [Seg AS_SEQUENCE [1; 2]] ∧
  aspath_aggregate [Seg AS_SEQUENCE [1; 2]] [Seg AS_SEQUENCE [1; 2]; Seg AS_SET [5; 6; 7]]
    = aspath_make_str_count [Seg AS_SEQUENCE [1; 2]; Seg AS_SET [7]].
Proof. split; vm_compute; reflexivity. Qed.
