(* ===== verification/ASPathTotal.v ===== *)
(** AS paths of a received UPDATE: for every path that fits a message of 4096
    bytes, parsing, reconciling with AS4_PATH and prepending return, without
    hypotheses on the segments (confederations included). *)
From S2P Require Import Prelude Stream StreamRead Hash ASPath ASPathSpec ASPathWire ASPathOps.
Open Scope Z_scope.

Notation zlen l := (Z.of_nat (length l)).

(** The segments of a path of at most [n] AS numbers. *)
Definition segs_ok (n : Z) (segs : list assegment) : Prop :=
  Forall known segs ∧ Forall (λ seg, asns seg ≠ []) segs ∧ zlen (all_asns segs) <= n.

(** A path with its text. *)
Definition path_ok (n : Z) (q : aspath) : Prop := segs_ok n (segments q) ∧ printed q.

Lemma segs_ok_nil n : 0 <= n → segs_ok n [].
Proof. intros ?. split_and!; [constructor..|done]. Qed.

Lemma segs_ok_mono n m segs : segs_ok n segs → n <= m → segs_ok m segs.
Proof. intros (? & ? & ?) ?. split_and!; try done. lia. Qed.

Lemma segs_ok_fits n segs : segs_ok n segs → n < 2 ^ 16 → fits (all_asns segs).
Proof. intros (_ & _ & ?) ?. unfold fits. lia. Qed.

Lemma segs_ok_cons n seg segs :
  known seg → asns seg ≠ [] → segs_ok (n - zlen (asns seg)) segs → segs_ok n (seg :: segs).
Proof.
  intros ?? (? & ? & ?). split_and!; [by constructor..|]. rewrite all_asns_cons, length_app. lia.
Qed.

Lemma segs_ok_uncons n seg segs :
  segs_ok n (seg :: segs) → known seg ∧ asns seg ≠ [] ∧ segs_ok (n - zlen (asns seg)) segs.
Proof.
  intros ([Hk ?]%Forall_cons & [Hne ?]%Forall_cons & Hl). rewrite all_asns_cons, length_app in Hl.
  split; [exact Hk|]. split; [exact Hne|]. split_and!; [done..|lia].
Qed.

Lemma segs_ok_app n m segs segs' : segs_ok n segs → segs_ok m segs' → segs_ok (n + m) (segs ++ segs').
Proof.
  intros (? & ? & ?) (? & ? & ?). split_and!; [by apply Forall_app..|]. rewrite all_asns_app, length_app. lia.
Qed.

(** ** Normalising and printing *)

Lemma pin_nonempty seg : asns seg ≠ [] → asns (pin_segment seg) ≠ [].
Proof.
  intros Hne E. destruct (asns seg) as [|a l] eqn:Es; [done|].
  assert (a ∈ asns (pin_segment seg)) as Ha by (apply pin_elem; rewrite Es; apply elem_of_cons; by left).
  rewrite E in Ha. by apply not_elem_of_nil in Ha.
Qed.

Lemma normalise_from_ok n pin rest :
  asns pin ≠ [] → Forall (λ seg, asns seg ≠ []) rest → zlen (asns pin ++ all_asns rest) <= n → n < 2 ^ 16 →
  Forall (λ seg, asns seg ≠ []) (normalise_from pin rest) ∧ zlen (all_asns (normalise_from pin rest)) <= n.
Proof.
  intros Hp Hr Hl Hn. revert n pin Hp Hl Hn. induction Hr as [|next rest Hne Hr IH]; intros n pin Hp Hl Hn;
    cbn [normalise_from]; [split; [by constructor|done]|].
  rewrite all_asns_cons in Hl. destruct (ASSEGMENT_TYPES_PACKABLE pin next).
  - rewrite (assoc_L (++)) in Hl.
    assert (asns (assegment_append_asns pin (asns next)) = asns pin ++ asns next) as Ea.
    { apply append_asns_fits. unfold fits. rewrite length_app in Hl. lia. }
    apply IH; rewrite ?Ea; [|done..]. destruct (asns pin); done.
  - pose proof (length_pin next). rewrite !length_app in Hl.
    destruct (IH (n - zlen (asns pin)) (pin_segment next)) as [IH1 IH2]; [by apply pin_nonempty|rewrite length_app; lia|lia|].
    split; [by constructor|]. rewrite all_asns_cons, length_app. lia.
Qed.

Lemma normalise_ok n segs : segs_ok n segs → n < 2 ^ 16 → segs_ok n (assegment_normalise segs).
Proof.
  intros Hs Hn. pose proof (segs_ok_fits n segs Hs Hn) as Hf. destruct Hs as (Hk & Hne & Hl).
  split; [by apply normalise_known|]. destruct segs as [|seg segs]; [done|]. apply Forall_cons in Hne as [Hne1 Hne].
  cbn [assegment_normalise]. apply normalise_from_ok; [by apply pin_nonempty|done| |done].
  pose proof (length_pin seg). rewrite all_asns_cons, !length_app in *. lia.
Qed.

Lemma print_path_length segs n : segs_ok n segs → slen (print_path segs) <= 15 * n.
Proof.
  revert n. induction segs as [|seg segs IH]; intros n Hs.
  - destruct Hs as (_ & _ & Hl). cbn in *. lia.
  - apply segs_ok_uncons in Hs as (Hk & Hne & Hs). apply IH in Hs.
    assert (print_path (seg :: segs) = print_segment seg segs +:+ print_path segs) as ->.
    { unfold print_segment. cbn [print_path]. by rewrite !string_app_assoc. }
    rewrite string_app_length. pose proof (print_segment_length seg segs Hk) as Hp.
    unfold SEGMENT_STR_LEN, ASN_STR_LEN, len in Hp.
    assert (1 <= zlen (asns seg)) by (destruct (asns seg); [done|cbn; lia]). lia.
Qed.

(** The text of a path of up to 4096 AS numbers stays below the 16 bits of its
    length. *)
Lemma update_ok n segs :
  segs_ok n segs → n <= 4096 → ∃ q, aspath_str_update segs = Ok q ∧ segments q = segs ∧ path_ok n q.
Proof.
  intros Hs Hn. pose proof Hs as (Hk & _). pose proof (print_path_length _ _ Hs) as Hp.
  unfold aspath_str_update. rewrite make_str_prints by done. eexists. split; [done|]. split; [done|].
  split; [done|]. eexists. split; [done|]. cbn [str_len]. unfold u16. rewrite Z.mod_small by lia. split; [done|]. lia.
Qed.

(** ** Parsing *)

Lemma get_asns_moved s n u s' l : get_asns s n u = Ok (s', l) → moved s s'.
Proof.
  revert s l. induction n as [|n IH]; intros s l; cbn [get_asns]; [intros [= -> _]; apply moved_refl|].
  intros ([s1 a] & E1 & ([s2 l2] & E2 & [= <- _])%bind_ok)%bind_ok. eapply moved_trans; [|by eapply IH].
  destruct u; [by eapply getl_moved|by eapply getw_moved].
Qed.

Lemma parse_loop_moved fuel s bytes n u s' r : parse_loop fuel s bytes n u = Ok (s', r) → moved s s'.
Proof.
  revert s bytes s' r. induction fuel as [|fuel IH]; intros s bytes s' r; cbn [parse_loop];
    (destruct (n <=? bytes); [intros [= <- _]; apply moved_refl|]);
    (destruct (n - bytes <=? AS_HEADER_SIZE); [intros [= <- _]; apply moved_refl|]);
    intros ([s1 t] & E1 & ([s2 c] & E2 & H)%bind_ok)%bind_ok;
    apply getc_moved in E1, E2; pose proof (moved_trans _ _ _ E1 E2) as E;
    (destruct (_ || _); [injection H as <- _; done|]); (destruct (negb _); [injection H as <- _; done|]);
    apply bind_ok in H as ([s3 l] & E3%get_asns_moved & H); [done|].
  apply bind_ok in H as ([s4 r4] & E4%IH & [= <- _]). eauto using moved_trans.
Qed.

Lemma enc_path_count u segs : 2 * zlen (all_asns segs) <= zlen (enc_path u segs).
Proof.
  induction segs as [|seg segs IH]; [cbn; lia|]. rewrite enc_path_cons, all_asns_cons, !length_app.
  pose proof (length_enc_seg u seg). unfold ASSEGMENT_SIZE, AS_HEADER_SIZE, len in *. destruct u; cbn [AS_VALUE_SIZE] in *; lia.
Qed.

Lemma parse_segments_ok s n u :
  stream_ok s → 0 <= n <= 4096 →
  ∃ s' r, assegments_parse s n u = Ok (s', r) ∧ stream_ok s' ∧ moved s s' ∧
    ∀ segs, r = Some segs → segs_ok 2048 segs ∧ getp s' = getp s + n.
Proof.
  intros Hs Hn. unfold assegments_parse.
  destruct (Z.eqb_spec n 0) as [->|]; [eexists _, _; split_and!; [done..|apply moved_refl|intros ? [= <-]; split; [by apply segs_ok_nil|lia]]|].
  destruct (Z.ltb_spec (STREAM_READABLE s) n) as [|Hle]; cbn [orb]; [eexists _, _; split_and!; [done..|apply moved_refl|done]|].
  destruct ((STREAM_READABLE s <? AS_HEADER_SIZE) || _); [eexists _, _; split_and!; [done..|apply moved_refl|done]|].
  rewrite readable_ok, <-length_unread in Hle by done.
  destruct (parse_loop_total (Z.to_nat n) s 0 n u Hs) as (s' & r & E & Hs' & Hr); [lia..|].
  apply parse_loop_moved in E as Hm. rewrite E. cbn [mbind M_bind]. eexists _, _. split; [done|]. split; [done|]. split; [done|].
  intros segs Eq. destruct r as [segs'|]; [|done]. simplify_eq. destruct (Hr _ eq_refl) as (Hw & Hu & Hl).
  split; [|pose proof (length_unread s Hs) as L1; pose proof (length_unread s' Hs') as L2; destruct Hm as [g ->];
    cbn [set_getp getp endp] in *; rewrite Hu, length_app in L1; lia].
  apply normalise_ok; [|lia]. pose proof (enc_path_count u segs'). split_and!.
  - eapply Forall_impl; [done|]. by intros ? [? _].
  - eapply Forall_impl; [done|]. intros seg [_ Hlen] E0. unfold len in Hlen. rewrite E0 in Hlen. cbn in Hlen. lia.
  - lia.
Qed.

(** ** Reconciling *)

Lemma reconcile_segments n segs h c :
  segs_ok n segs → n < 2 ^ 16 → 0 < h → segs ≠ [] →
  ∃ new, reconcile_loop segs h c = Ok new ∧ new ≠ [] ∧ segs_ok n new.
Proof.
  intros Hs Hn. revert n h c Hs Hn. induction segs as [|seg segs IH]; intros n h c Hs Hn Hh Hne; [done|].
  apply segs_ok_uncons in Hs as (Hk & Hseg & Hs). cbn [reconcile_loop]. rewrite (proj2 (Z.ltb_lt 0 h)) by done. cbn [negb].
  set (hc := if is_set_type (stype seg) then _ else _).
  assert (∃ h' k, hc = (h', k) ∧ 0 < k <= len seg) as (h' & k & -> & Hkl).
  { assert (0 < len seg) by (unfold len; destruct (asns seg); [done|cbn; lia]).
    destruct Hk as [Hty _]. unfold known_type in Hty. subst hc. unfold is_set_type.
    destruct (Z.eqb_spec (stype seg) AS_SET); cbn [orb]; [by eexists _, _|].
    destruct (Z.eqb_spec (stype seg) AS_CONFED_SET); cbn [orb]; [by eexists _, _|].
    destruct (Z.eqb_spec (stype seg) AS_CONFED_SEQUENCE).
    - eexists _, _. split; [done|]. destruct (Z.ltb_spec h (len seg)); lia.
    - destruct (Z.eqb_spec (stype seg) AS_SEQUENCE); [|done]. eexists _, _. split; [done|]. lia. }
  rewrite (proj2 (Z.leb_le k (len seg))) by lia.
  assert (fits (asns seg)) as Hf by (destruct Hs as (_ & _ & ?); unfold fits; lia).
  rewrite copy_take by done. destruct seg as [t l]; cbn [stype asns] in *. unfold len in Hkl; cbn [asns] in Hkl.
  assert (∃ rest, reconcile_loop segs h' k = Ok rest ∧ segs_ok (n - zlen l) rest) as (rest & -> & Hrest).
  { destruct (Z.ltb_spec 0 h'); [|rewrite reconcile_stop by lia; eexists; split; [done|];
      destruct Hs as (_ & _ & ?); apply segs_ok_nil; lia].
    destruct (decide (segs = [])) as [->|Hn']; [eexists; split; [done|]; done|].
    destruct (IH (n - zlen l) h' k) as (new & ? & _ & ?); [done|lia|done|done|eauto]. }
  cbn [mbind M_bind]. eexists. split; [done|]. split; [done|]. apply segs_ok_cons.
  - by apply known_take.
  - cbn [asns]. destruct l; [done|]. by destruct (Z.to_nat k) eqn:Ek; [lia|].
  - cbn [asns]. eapply segs_ok_mono; [done|]. rewrite length_take. lia.
Qed.

Lemma count_hops_nil segs : segs ≠ [] ∨ count_hops segs + count_confeds segs = 0.
Proof. destruct segs; [by right|by left]. Qed.

Lemma count_hops_nonneg segs : 0 <= count_hops segs.
Proof.
  induction segs as [|seg segs IH]; cbn [count_hops]; [done|]. unfold len.
  destruct (stype seg =? AS_SEQUENCE), (stype seg =? AS_SET); lia.
Qed.

Lemma reconcile_ok p as4 :
  path_ok 2048 p → path_ok 2048 as4 → ∃ q, aspath_reconcile_as4 p as4 = Ok q ∧ path_ok 4096 q.
Proof.
  intros [Hp _] [H4 Hp4]. unfold aspath_reconcile_as4. set (h := if _ <? 0 then _ else _).
  destruct (Z.eqb_spec h 0) as [|Hh].
  { rewrite dup_printed by done. eexists. split; [done|]. split; [|done]. by eapply segs_ok_mono. }
  assert (0 < h ∧ segments p ≠ []) as [Hpos Hne].
  { subst h. unfold aspath_count_hops, aspath_count_confeds in *.
    pose proof (count_hops_nonneg (segments p)). pose proof (count_hops_nonneg (segments as4)).
    destruct (Z.ltb_spec (count_hops (segments p) + count_confeds (segments p) - count_hops (segments as4)) 0);
      destruct (segments p); cbn [count_hops count_confeds] in *; split; try done; lia. }
  destruct (reconcile_segments 2048 (segments p) h 0) as (new & -> & Hnn & Hnew); [done..|].
  cbn [mbind M_bind]. rewrite dup_printed by done. cbn [mbind M_bind].
  pose proof (segs_ok_app _ _ _ _ Hnew H4) as Happ.
  destruct (update_ok 4096 (new ++ segments as4) Happ) as (m & Em & Es & _); [done|].
  assert (aspath_merge new (segments as4) = Ok m) as -> by (by destruct new).
  cbn [mbind M_bind]. rewrite Es. destruct (update_ok 4096 (assegment_normalise (new ++ segments as4))) as (q & Eq & _ & Hq).
  { by apply normalise_ok. } { done. }
  eauto.
Qed.

Lemma prepend_ok p asno :
  path_ok 4096 p → 0 <= asno < 2 ^ 32 → ∃ q, aspath_add_seq p asno = Ok q.
Proof.
  intros [(Hk & Hne & Hl) _] Ha.
  destruct (add_asns_segments p asno AS_SEQUENCE 1) as (q & _ & _ & E & _); try done.
  - apply Forall_forall. intros seg [i Hi]%list_elem_of_lookup. apply take_drop_middle in Hi. rewrite <-Hi in Hl.
    rewrite all_asns_app, all_asns_cons, !length_app in Hl. unfold len. lia.
  - by exists q.
Qed.
