(* ===== verification/Community.v ===== *)
(** The COMMUNITIES attribute: bgpd/bgp_community.c and bgpd/bgp_community.h.

    The array [val] of [size] 32-bit words in network order is the list of their
    values; comparing two words with [memcmp] is comparing their values. *)
From Stdlib Require Import Ascii.
From stdpp Require Import pretty sorting.
From S2P Require Import Prelude Hash ASPath ASPathSpec ASPathOps.
Open Scope Z_scope.

#[local] Arguments String.append !_ _ : simpl nomatch.

Definition COMMUNITY_INTERNET : Z := 0x0.
Definition COMMUNITY_NO_EXPORT : Z := 0xFFFFFF01.
Definition COMMUNITY_NO_ADVERTISE : Z := 0xFFFFFF02.
Definition COMMUNITY_LOCAL_AS : Z := 0xFFFFFF03.

Notation community := (list Z).

(** ** Values *)

Definition community_add_val (com : community) (v : Z) : community := com ++ [u32 v].

(** Deletes the first occurrence. *)
Fixpoint community_del_val (com : community) (v : Z) : community :=
  match com with
  | [] => []
  | x :: com' => if x =? v then com' else x :: community_del_val com' v
  end.

Definition community_delete (com1 com2 : community) : community := foldl community_del_val com1 com2.

Definition community_compare (v1 v2 : Z) : Z := if v1 <? v2 then -1 else if v2 <? v1 then 1 else 0.

Definition community_include (com : community) (v : Z) : bool := existsb (Z.eqb (u32 v)) com.

Definition community_not_after (v1 v2 : Z) : Prop := community_compare v1 v2 <= 0.
#[export] Instance community_not_after_dec : RelDecision community_not_after.
Proof. intros v1 v2. unfold community_not_after. apply _. Defined.

(** The loop of [community_uniq_sort] over the old values. *)
Definition community_uniq (com : community) : community :=
  foldl (λ new v, if community_include new v then new else community_add_val new v) [] com.

Definition community_uniq_sort (com : community) : community :=
  merge_sort community_not_after (community_uniq com).

Definition community_dup (com : community) : community := com.
Definition community_merge (com1 com2 : community) : community := com1 ++ com2.

(** The loop over [i] and [j]. *)
Fixpoint included (com1 com2 : community) : bool :=
  match com2, com1 with
  | [], _ => true
  | _, [] => false
  | y :: com2', x :: com1' => if x =? y then included com1' com2' else included com1' com2
  end.

(** The arguments may be null. *)
Definition community_match (com1 com2 : option community) : bool :=
  match com1, com2 with
  | None, None => true
  | Some c1, Some c2 => if (length c1 <? length c2)%nat then false else included c1 c2
  | _, _ => false
  end.

Definition community_cmp (com1 com2 : community) : bool :=
  (length com1 =? length com2)%nat && asns_eq com1 com2.

(** The sum of the bytes. *)
Definition community_hash_make (com : community) : Z :=
  foldl (λ key v, foldl (λ key b, u32 (key + b)) key (be_bytes 4 v)) 0 com.

Definition community_intern (P : pool community) (a : loc) : M (pool community * loc) :=
  intern community_hash_make community_cmp P a.
Definition community_unintern (P : pool community) (a : loc) : M (pool community * option loc) :=
  unintern community_hash_make community_cmp P a.

(** The values of the attribute are the big-endian words of its bytes; [a] is
    where [community_uniq_sort] allocates the new value. *)
Fixpoint words (b : list Z) : community :=
  match b with
  | b0 :: b1 :: b2 :: b3 :: b' => be_value [b0; b1; b2; b3] :: words b'
  | _ => []
  end.
Definition community_parse (P : pool community) (a : loc) (pnt : list Z) (length_ : Z) : M (pool community * option loc) :=
  if negb (length_ mod 4 =? 0) then Ok (P, None) else
  bytes ← rdn pnt 0 length_;
  let new := community_uniq_sort (words bytes) in
  '(P, find) ← community_intern (Pool (<[a:=Obj 0 new]> (objs P)) (table P)) a;
  Ok (P, Some find).

(** ** Text *)

Definition keyword (v : Z) : option string :=
  if v =? COMMUNITY_INTERNET then Some "internet"%string
  else if v =? COMMUNITY_NO_EXPORT then Some "no-export"%string
  else if v =? COMMUNITY_NO_ADVERTISE then Some "no-advertise"%string
  else if v =? COMMUNITY_LOCAL_AS then Some "local-AS"%string
  else None.

(** The length reserved for one value. *)
Definition reserve (v : Z) : Z :=
  match keyword v with
  | Some s => Z.of_nat (String.length s) + 1
  | None => Z.of_nat (String.length " 65536:65535")
  end.

Definition value_str (v : Z) : string :=
  match keyword v with
  | Some s => s
  | None => print_asn (Z.land (Z.shiftr v 16) 0xFFFF) +:+ (":" +:+ print_asn (Z.land v 0xFFFF))
  end.

(** A buffer of [len] bytes with the text written so far; [strcpy] also writes
    the final zero byte. *)
Definition put_char (len : Z) (text : string) (s : string) : M string :=
  if Z.of_nat (String.length text) + 1 <=? len then Ok (text +:+ s) else Fault Undefined.
Definition put_str (len : Z) (text : string) (s : string) : M string :=
  if Z.of_nat (String.length text) + Z.of_nat (String.length s) + 1 <=? len then Ok (text +:+ s) else Fault Undefined.

Fixpoint fill (len : Z) (text : string) (first : bool) (com : community) : M string :=
  match com with
  | [] => put_char len text ""
  | v :: com' =>
      text ← (if first then Ok text else put_char len text " ");
      text ← put_str len text (value_str v);
      fill len text false com'
  end.

Definition community_com2str (com : community) : M string :=
  match com with
  | [] => Ok ""%string
  | _ => fill (foldr (λ v len, reserve v + len) 0 com) "" true com
  end.

Inductive community_token :=
  | community_token_val | community_token_no_export | community_token_no_advertise
  | community_token_local_as | community_token_unknown.

Definition isalpha (c : Ascii.ascii) : bool :=
  let n := Ascii.nat_of_ascii c in (((65 <=? n) && (n <=? 90)) || ((97 <=? n) && (n <=? 122)))%nat.

Fixpoint skip_space (p : string) : string :=
  match p with
  | String c p' => if isspace c then skip_space p' else p
  | EmptyString => p
  end.

(** [strncmp (p, k, strlen (k)) == 0], with what follows. *)
Fixpoint after_prefix (k p : string) : option string :=
  match k, p with
  | EmptyString, _ => Some p
  | String a k', String b p' => if Ascii.eqb a b then after_prefix k' p' else None
  | String _ _, EmptyString => None
  end.

(** The loop over digits and colons, with its variables [separator], [digit],
    [community_low] and [community_high]; [None] on a second colon. *)
Fixpoint read_value (p : string) (separator dig : bool) (low high : Z) : option (string * bool * Z * Z) :=
  match p with
  | String c p' =>
      if Ascii.eqb c ":"%char then
        if separator then None else read_value p' true false 0 (u32 (Z.shiftl low 16))
      else if isdigit c then read_value p' separator true (u32 (u32 (low * 10) + digit c)) high
      else Some (p, dig, low, high)
  | EmptyString => Some (p, dig, low, high)
  end.

(** The rest of the string or null, and the new values of [token] and [val].  At
    the end of the string neither is changed. *)
Definition community_gettoken (buf : string) (token : community_token) (v : Z) : option string * community_token * Z :=
  match skip_space buf with
  | EmptyString => (None, token, v)
  | String c p' =>
      let p := String c p' in
      if isalpha c then
        match after_prefix "internet" p with
        | Some r => (Some r, community_token_no_export, COMMUNITY_INTERNET)
        | None =>
        match after_prefix "no-export" p with
        | Some r => (Some r, community_token_no_export, COMMUNITY_NO_EXPORT)
        | None =>
        match after_prefix "no-advertise" p with
        | Some r => (Some r, community_token_no_advertise, COMMUNITY_NO_ADVERTISE)
        | None =>
        match after_prefix "local-AS" p with
        | Some r => (Some r, community_token_local_as, COMMUNITY_LOCAL_AS)
        | None => (None, community_token_unknown, v)
        end end end end
      else if isdigit c then
        match read_value p false false 0 0 with
        | None => (None, community_token_unknown, v)
        | Some (r, dig, low, high) =>
            if negb dig then (None, community_token_unknown, v)
            else (Some r, community_token_val, u32 (high + low))
        end
      else (None, community_token_unknown, v)
  end.

(** The [do ... while] loop; every token takes a character. *)
Fixpoint str2com_loop (fuel : nat) (s : string) (token : community_token) (v : Z) (com : community) : option community :=
  let '(r, token, v) := community_gettoken s token v in
  match token with
  | community_token_unknown => None
  | _ =>
      let com := community_add_val com v in
      match r with
      | None => Some com
      | Some s' => match fuel with O => None | S fuel' => str2com_loop fuel' s' token v com end
      end
  end.

Definition community_str2com (s : string) : option community :=
  match str2com_loop (String.length s) s community_token_unknown 0 [] with
  | None => None
  | Some com => Some (community_uniq_sort com)
  end.

(** ** Sorted, duplicate-free values *)

Definition is_u32 (v : Z) : Prop := 0 <= v < 2 ^ 32.

Lemma u32_id v : is_u32 v → u32 v = v.
Proof. apply Z.mod_small. Qed.

Lemma include_elem com v : community_include com v = true ↔ u32 v ∈ com.
Proof.
  unfold community_include. rewrite existsb_exists. setoid_rewrite <- list_elem_of_In.
  setoid_rewrite Z.eqb_eq. naive_solver.
Qed.

(** One turn of the loop that drops duplicates. *)
Lemma uniq_snoc com v :
  community_uniq (com ++ [v]) =
  if community_include (community_uniq com) v then community_uniq com else community_uniq com ++ [u32 v].
Proof. unfold community_uniq. by rewrite foldl_app. Qed.

Lemma uniq_spec com :
  Forall is_u32 com → NoDup (community_uniq com) ∧ ∀ v, v ∈ community_uniq com ↔ v ∈ com.
Proof.
  induction com as [|v com IH] using rev_ind; intros H; [split; [constructor|done]|].
  apply Forall_app in H as [H [Hv _]%Forall_cons]. destruct (IH H) as [Hn He]. rewrite uniq_snoc.
  destruct (community_include _ v) eqn:E.
  - apply include_elem in E. rewrite u32_id in E by done. split; [done|]. set_solver.
  - assert (v ∉ community_uniq com) as Hni.
    { intros Hin. rewrite <- (u32_id v Hv) in Hin. apply include_elem in Hin. congruence. }
    rewrite u32_id by done. split; [|set_solver].
    apply NoDup_app. split_and!; [done|set_solver|apply NoDup_singleton].
Qed.

Lemma compare_le v w : community_not_after v w ↔ v <= w.
Proof. unfold community_not_after, community_compare. destruct (Z.ltb_spec v w), (Z.ltb_spec w v); lia. Qed.

#[local] Instance community_not_after_trans : Transitive community_not_after.
Proof. intros x y z. rewrite !compare_le. lia. Qed.
#[local] Instance community_not_after_total : Total community_not_after.
Proof. intros x y. rewrite !compare_le. lia. Qed.

Lemma sorted_le l : StronglySorted community_not_after l → StronglySorted Z.le l.
Proof.
  induction 1 as [|x k _ IH Hall]; constructor; [done|]. eapply Forall_impl; [done|]. intros y. apply compare_le.
Qed.

Lemma strict_of_le l : NoDup l → StronglySorted Z.le l → StronglySorted Z.lt l.
Proof.
  intros Hn Hs. induction Hs as [|x l _ IH Hall]; constructor; apply NoDup_cons in Hn as [Hx Hn]; [by apply IH|].
  apply Forall_forall. intros y Hy. rewrite Forall_forall in Hall. specialize (Hall y Hy).
  assert (x ≠ y) by naive_solver. lia.
Qed.

Lemma uniq_sort_spec com :
  Forall is_u32 com →
  StronglySorted Z.lt (community_uniq_sort com) ∧ (∀ v, v ∈ community_uniq_sort com ↔ v ∈ com) ∧
  Forall is_u32 (community_uniq_sort com).
Proof.
  intros H. destruct (uniq_spec com H) as [Hn He]. unfold community_uniq_sort.
  pose proof (merge_sort_Permutation community_not_after (community_uniq com)) as Hp.
  assert (∀ v, v ∈ merge_sort community_not_after (community_uniq com) ↔ v ∈ com) as Hv.
  { intros v. by rewrite Hp. }
  split_and!; [|done|].
  - apply strict_of_le; [by rewrite Hp|].
    apply sorted_le, StronglySorted_merge_sort; apply _.
  - rewrite Forall_forall in *. intros v Hin. by apply H, Hv.
Qed.

Lemma sorted_unique l1 l2 :
  StronglySorted Z.lt l1 → StronglySorted Z.lt l2 → (∀ v, v ∈ l1 ↔ v ∈ l2) → l1 = l2.
Proof.
  intros H1 H2 He.
  assert (∀ l, StronglySorted Z.lt l → NoDup l ∧ StronglySorted Z.le l) as Hw.
  { intros l Hs. induction Hs as [|x l _ [IH1 IH2] Hall]; [split; constructor|]. rewrite Forall_forall in Hall. split.
    - apply NoDup_cons. split; [|done]. intros Hin. specialize (Hall x Hin). lia.
    - constructor; [done|]. apply Forall_forall. intros y Hy. specialize (Hall y Hy). lia. }
  apply (StronglySorted_unique Z.le); [by apply Hw..|]. apply NoDup_Permutation; [by apply Hw..|done].
Qed.

(** Two arrays with the same members are made equal. *)
Lemma uniq_sort_ext c1 c2 :
  Forall is_u32 c1 → Forall is_u32 c2 → (∀ v, v ∈ c1 ↔ v ∈ c2) → community_uniq_sort c1 = community_uniq_sort c2.
Proof.
  intros H1 H2 He. destruct (uniq_sort_spec c1 H1) as (S1 & E1 & _), (uniq_sort_spec c2 H2) as (S2 & E2 & _).
  apply sorted_unique; [done..|]. intros v. by rewrite E1, E2.
Qed.

Lemma community_cmp_true c1 c2 : community_cmp c1 c2 = true ↔ c1 = c2.
Proof.
  unfold community_cmp. rewrite andb_true_iff, Nat.eqb_eq, asns_eq_true. naive_solver.
Qed.

(** What the sharing of communities needs. *)
#[export] Instance community_intern_laws : InternLaws community_hash_make community_cmp.
Proof. split; intros *; rewrite ?community_cmp_true; congruence. Qed.

(** ** Matching *)

Lemma included_spec c1 c2 :
  StronglySorted Z.lt c1 → StronglySorted Z.lt c2 → included c1 c2 = true ↔ ∀ v, v ∈ c2 → v ∈ c1.
Proof.
  revert c2. induction c1 as [|x c1 IH]; intros [|y c2] H1 H2; cbn [included]; [set_solver| |set_solver|].
  { split; [done|]. intros H. specialize (H y). set_solver. }
  apply StronglySorted_inv in H1 as [H1 Hx]. rewrite Forall_forall in Hx.
  pose proof H2 as [H2' Hy]%StronglySorted_inv. rewrite Forall_forall in Hy.
  destruct (Z.eqb_spec x y) as [->|Hne].
  - rewrite IH by done. split; [set_solver|]. intros H v Hv.
    assert (v ∈ y :: c1) as [->|]%elem_of_cons by set_solver; [|done]. specialize (Hy y Hv). lia.
  - rewrite IH by done. split; [set_solver|]. intros H v Hv.
    assert (v ∈ x :: c1) as [->|]%elem_of_cons by set_solver; [|done].
    apply elem_of_cons in Hv as [?|Hv]; [done|]. specialize (Hy x Hv).
    assert (y ∈ x :: c1) as [?|Hin]%elem_of_cons by set_solver; [done|]. specialize (Hx y Hin). lia.
Qed.

Lemma sorted_subset_length c1 c2 :
  StronglySorted Z.lt c2 → (∀ v, v ∈ c2 → v ∈ c1) → (length c2 <= length c1)%nat.
Proof.
  intros H2 Hs. apply submseteq_length, NoDup_submseteq; [|done].
  induction H2 as [|x l _ IH Hall]; constructor; [|by apply IH; set_solver].
  rewrite Forall_forall in Hall. intros Hin. specialize (Hall x Hin). lia.
Qed.

(** ** Text *)

Lemma read_value_digits p sep dig low high :
  read_value p sep dig low high =
  let '(v, r) := read_digits p low in
  read_value r sep (dig || match p with String c _ => isdigit c | EmptyString => false end) v high.
Proof.
  revert dig low. induction p as [|c p IH]; intros dig low; [by cbn; rewrite orb_false_r|].
  cbn [read_digits]. destruct (isdigit c) eqn:Ed; [|by rewrite orb_false_r].
  cbn [read_value]. rewrite Ed. destruct (Ascii.eqb_spec c ":") as [->|_]; [done|].
  rewrite IH. by rewrite orb_true_r.
Qed.

Lemma read_value_print a s sep dig high :
  is_u32 a → no_digit s → read_value (print_asn a +:+ s) sep dig 0 high = read_value s sep true a high.
Proof.
  intros Ha Hs. rewrite read_value_digits, read_print_asn by done.
  destruct (print_asn_head a s Ha) as (c & p & -> & ->). by rewrite orb_true_r.
Qed.

Lemma high_low v : is_u32 v →
  is_u32 (Z.land (Z.shiftr v 16) 0xFFFF) ∧ is_u32 (Z.land v 0xFFFF) ∧
  Z.land (Z.shiftr v 16) 0xFFFF <= 65535 ∧ Z.land v 0xFFFF <= 65535 ∧
  u32 (u32 (Z.shiftl (Z.land (Z.shiftr v 16) 0xFFFF) 16) + Z.land v 0xFFFF) = v.
Proof.
  unfold is_u32, u32. change 0xFFFF with (Z.ones 16). rewrite !Z.land_ones, Z.shiftr_div_pow2, Z.shiftl_mul_pow2 by lia.
  intros Hv. change (2 ^ 32) with 4294967296 in *. change (2 ^ 16) with 65536.
  pose proof (Z.div_mod v 65536 ltac:(done)). pose proof (Z.mod_pos_bound v 65536 ltac:(done)).
  rewrite (Z.mod_small (v / 65536) 65536) by lia. rewrite (Z.mod_small (v / 65536 * 65536)) by lia.
  rewrite (Z.mod_small (v / 65536 * 65536 + _)) by lia. change (Z.ones 16) with 65535. lia.
Qed.

Lemma print_asn_short a : 0 <= a <= 65535 → slen (print_asn a) <= 5.
Proof.
  intros Ha. unfold print_asn, pretty, pretty_N. case_decide; [cbn; lia|].
  assert (Z.to_N a < 10 ^ N.of_nat 5)%N as H1 by (change (10 ^ N.of_nat 5)%N with 100000%N; lia).
  pose proof (pretty_go_length 5 _ "" H1) as Hl. cbn [String.length] in Hl. lia.
Qed.

(** A value takes no more than what is reserved for it with its separator. *)
Lemma value_str_length v : is_u32 v → slen (value_str v) + 1 <= reserve v.
Proof.
  intros Hv. unfold value_str, reserve. destruct (keyword v) as [s|]; [lia|].
  destruct (high_low v Hv) as ([? _] & [? _] & Hh & Hl & _). rewrite !string_app_length.
  pose proof (print_asn_short (Z.land (Z.shiftr v 16) 0xFFFF) ltac:(lia)).
  pose proof (print_asn_short (Z.land v 0xFFFF) ltac:(lia)). cbn [String.length]. lia.
Qed.

Definition ends (s : string) : Prop := s = ""%string ∨ ∃ s', s = String " " s'.

Lemma ends_no_digit s : ends s → no_digit s.
Proof. by intros [->|[s' ->]]. Qed.

Lemma ends_stop s sep dig low high : ends s → read_value s sep dig low high = Some (s, dig, low, high).
Proof. by intros [->|[s' ->]]. Qed.

(** A printed value is read back as one token. *)
Lemma gettoken_value v s token w :
  is_u32 v → ends s →
  ∃ t, community_gettoken (value_str v +:+ s) token w = (Some s, t, v) ∧ t ≠ community_token_unknown.
Proof.
  intros Hv Hs. unfold value_str. destruct (keyword v) as [k|] eqn:Ek.
  - unfold keyword in Ek. repeat case_match; simplify_eq; repeat match goal with H : (_ =? _) = true |- _ => apply Z.eqb_eq in H end; subst; by eexists.
  - destruct (high_low v Hv) as (Hh & Hl & _ & _ & E).
    set (h := Z.land (Z.shiftr v 16) 0xFFFF) in *. set (l := Z.land v 0xFFFF) in *.
    assert (read_value ((print_asn h +:+ (":" +:+ print_asn l)) +:+ s) false false 0 0 = Some (s, true, l, u32 (Z.shiftl h 16))) as Hr.
    { rewrite !string_app_assoc. rewrite read_value_print by done. cbn [String.append read_value].
      change (Ascii.eqb ":" ":") with true. cbn iota.
      rewrite read_value_print by (done || by apply ends_no_digit). by apply ends_stop. }
    rewrite !string_app_assoc in *.
    destruct (print_asn_head h (":" +:+ (print_asn l +:+ s)) Hh) as (c & p & E0 & Hc). rewrite E0 in *.
    exists community_token_val. split; [|done]. unfold community_gettoken. cbn [skip_space].
    assert (isspace c = false ∧ isalpha c = false) as [-> ->] by (destruct c as [[] [] [] [] [] [] [] []]; done).
    cbv zeta. by rewrite Hr, Hc, E.
Qed.

(** The text of a list of values. *)
Fixpoint com_text (com : community) : string :=
  match com with
  | [] => ""
  | [v] => value_str v
  | v :: com' => value_str v +:+ (" " +:+ com_text com')
  end.

Definition tail_text (com : community) : string := if com is [] then "" else " " +:+ com_text com.

Lemma com_text_cons v com : com_text (v :: com) = value_str v +:+ tail_text com.
Proof. destruct com; cbn [com_text tail_text]; [by rewrite string_app_nil|done]. Qed.

Lemma tail_ends com : ends (tail_text com).
Proof. destruct com; [by left|]. right. by eexists. Qed.

Lemma reserve_nonneg com : Forall is_u32 com → 0 <= foldr (λ v n, reserve v + n) 0 com.
Proof. induction 1 as [|w com Hw _ IH]; cbn [foldr]; [lia|]. pose proof (value_str_length w Hw). lia. Qed.

Lemma fill_prints len text com :
  Forall is_u32 com → slen text + foldr (λ v n, reserve v + n) 0 com < len →
  fill len text false com = Ok (text +:+ tail_text com).
Proof.
  revert text. induction com as [|v com IH]; intros text Hc Hl; cbn [fill foldr] in *.
  - unfold put_char. by rewrite (proj2 (Z.leb_le _ _)) by lia.
  - apply Forall_cons in Hc as [Hv Hc]. pose proof (value_str_length v Hv).
    pose proof (reserve_nonneg com Hc).
    unfold put_char. rewrite (proj2 (Z.leb_le _ _)) by lia. cbn [mbind M_bind].
    unfold put_str. rewrite (proj2 (Z.leb_le _ _)) by (rewrite string_app_length; cbn [String.length]; lia).
    cbn [mbind M_bind]. rewrite IH; [|done|rewrite !string_app_length; cbn [String.length]; lia].
    by rewrite !string_app_assoc, <- com_text_cons.
Qed.

Lemma com2str_prints com : com ≠ [] → Forall is_u32 com → community_com2str com = Ok (com_text com).
Proof.
  intros Hne Hc. destruct com as [|v com]; [done|]. apply Forall_cons in Hc as [Hv Hc].
  pose proof (value_str_length v Hv). cbn [community_com2str fill foldr mbind M_bind]. unfold put_str.
  pose proof (reserve_nonneg com Hc).
  rewrite (proj2 (Z.leb_le _ _)) by (cbn [String.length]; lia). cbn [mbind M_bind].
  rewrite fill_prints; [|done|cbn [String.append]; lia]. by rewrite com_text_cons.
Qed.

Lemma loop_value fuel v com token w acc :
  Forall is_u32 (v :: com) → (slen (com_text (v :: com)) <= Z.of_nat fuel) →
  ∃ t fuel', t ≠ community_token_unknown ∧ slen (tail_text com) <= Z.of_nat fuel' ∧
    str2com_loop fuel (com_text (v :: com)) token w acc = str2com_loop fuel' (tail_text com) t v (acc ++ [v]).
Proof.
  intros [Hv Hc]%Forall_cons Hf. rewrite com_text_cons in *.
  destruct (gettoken_value v (tail_text com) token w Hv (tail_ends com)) as (t & E & Ht).
  assert (1 <= slen (value_str v)) as Hl.
  { unfold value_str. destruct (keyword v) as [k|] eqn:Ek.
    - unfold keyword in Ek. repeat case_match; simplify_eq; cbn; lia.
    - rewrite !string_app_length. cbn [String.length]. lia. }
  rewrite string_app_length in Hf. destruct fuel as [|fuel]; [lia|].
  exists t, fuel. split_and!; [done|lia|]. cbn [str2com_loop]. rewrite E. unfold community_add_val.
  rewrite u32_id by done. by destruct t.
Qed.

Lemma loop_space fuel s token w acc :
  str2com_loop fuel (" " +:+ s) token w acc = str2com_loop fuel s token w acc.
Proof. by destruct fuel. Qed.

(** Reading at the end of the text adds the last value again. *)
Lemma loop_reads fuel com token w acc :
  Forall is_u32 com → is_u32 w → token ≠ community_token_unknown → slen (tail_text com) <= Z.of_nat fuel →
  ∃ z, z ∈ w :: com ∧ str2com_loop fuel (tail_text com) token w acc = Some (acc ++ com ++ [z]).
Proof.
  revert fuel token w acc. induction com as [|v com IH]; intros fuel token w acc Hc Hw Ht Hf.
  - exists w. split; [left|]. destruct fuel; cbn [tail_text str2com_loop community_gettoken skip_space];
      unfold community_add_val; rewrite u32_id by done; by destruct token.
  - unfold tail_text in Hf |- *. rewrite loop_space. rewrite string_app_length in Hf. cbn [String.length] in Hf.
    destruct (loop_value fuel v com token w acc Hc) as (t & fuel' & Ht' & Hf' & ->); [lia|].
    apply Forall_cons in Hc as [Hv Hc]. destruct (IH fuel' t v (acc ++ [v]) Hc Hv Ht' Hf') as (z & Hz & ->).
    exists z. split; [set_solver|]. by rewrite <- (assoc_L (++) acc).
Qed.

Lemma str2com_text com :
  com ≠ [] → Forall is_u32 com → community_str2com (com_text com) = Some (community_uniq_sort com).
Proof.
  intros Hne Hc. destruct com as [|v com]; [done|]. unfold community_str2com.
  destruct (loop_value (String.length (com_text (v :: com))) v com community_token_unknown 0 [] Hc)
    as (t & fuel & Ht & Hf & ->); [lia|]. pose proof Hc as [Hv Hc']%Forall_cons.
  destruct (loop_reads fuel com t v ([] ++ [v]) Hc' Hv Ht Hf) as (z & Hz & ->). f_equal.
  apply uniq_sort_ext; [|done|set_solver]. rewrite Forall_forall in *. set_solver.
Qed.

(** ** Properties *)

(** [community_uniq_sort] is the canonical form of a communities value: the
    result is strictly increasing, has the values of the argument and no other,
    and two arrays have the same result exactly when they have the same values. *)
Theorem community_uniq_sort_canonical com1 com2 :
  Forall is_u32 com1 → Forall is_u32 com2 →
  StronglySorted Z.lt (community_uniq_sort com1) ∧
  (∀ v, v ∈ community_uniq_sort com1 ↔ v ∈ com1) ∧
  (community_uniq_sort com1 = community_uniq_sort com2 ↔ ∀ v, v ∈ com1 ↔ v ∈ com2).
Proof.
  intros H1 H2. destruct (uniq_sort_spec com1 H1) as (S1 & E1 & _), (uniq_sort_spec com2 H2) as (_ & E2 & _).
  split_and!; [done..|]. split; [|by apply uniq_sort_ext]. intros E v. by rewrite <- E1, E, E2.
Qed.

Lemma u32_examples : Forall is_u32 [0xFFFFFF01; 5; 65537; 5; 0] ∧ Forall is_u32 [0; 65537; 5; 0xFFFFFF01].
Proof. unfold is_u32. split; repeat constructor; lia. Qed.

Lemma community_uniq_sort_canonical_witness :
  community_uniq_sort [0xFFFFFF01; 5; 65537; 5; 0] = [0; 5; 65537; 0xFFFFFF01] ∧
  (∀ v, v ∈ [0xFFFFFF01; 5; 65537; 5; 0] ↔ v ∈ [0; 65537; 5; 0xFFFFFF01]).
Proof.
  split; [vm_compute; reflexivity|].
  apply (community_uniq_sort_canonical _ _ (proj1 u32_examples) (proj2 u32_examples)).
  vm_compute. reflexivity.
Defined.

(** On communities values in canonical form [community_match] decides
    whether every value of the second is one of the first. *)
Theorem community_match_correct com1 com2 :
  StronglySorted Z.lt com1 → StronglySorted Z.lt com2 →
  community_match (Some com1) (Some com2) = true ↔ ∀ v, v ∈ com2 → v ∈ com1.
Proof.
  intros H1 H2. cbn [community_match]. destruct (Nat.ltb_spec (length com1) (length com2)) as [Hl|_].
  - split; [done|]. intros Hs. pose proof (sorted_subset_length com1 com2 H2 Hs). lia.
  - by apply included_spec.
Qed.

Lemma community_match_correct_witness :
  community_match (Some [0; 5; 65537; 0xFFFFFF01]) (Some [5; 65537]) = true ↔
  ∀ v, v ∈ [5; 65537] → v ∈ [0; 5; 65537; 0xFFFFFF01].
Proof.
  apply (community_match_correct [0; 5; 65537; 0xFFFFFF01] [5; 65537]); repeat constructor; lia.
Defined.

(** C30. [community_com2str] never writes beyond the buffer whose length it
    computes, and [community_str2com] reads its text back as the canonical form
    of the value, although it adds the last value of the text twice. *)
Theorem community_text_roundtrip com :
  com ≠ [] → Forall is_u32 com →
  ∃ text, community_com2str com = Ok text ∧ community_str2com text = Some (community_uniq_sort com).
Proof.
  intros Hne Hc. exists (com_text com). split; [by apply com2str_prints|by apply str2com_text].
Qed.

Lemma community_text_roundtrip_witness :
  community_str2com "no-export 0:5 1:1 0:5 internet" = Some [0; 5; 65537; 0xFFFFFF01].
Proof.
  destruct (community_text_roundtrip [0xFFFFFF01; 5; 65537; 5; 0]) as (t & E1 & E2);
    [done|apply u32_examples|]. vm_compute in E1. injection E1 as <-. rewrite E2. vm_compute. reflexivity.
Defined.
