(* ===== verification/Ecommunity.v ===== *)
(** The EXTENDED COMMUNITIES attribute: bgpd/bgp_ecommunity.c and
    bgpd/bgp_ecommunity.h.

    [val] is the list of the values, of eight bytes each.  The text of a shared
    value, kept with it in the source, is computed by [ecommunity_ecom2str]. *)
From Stdlib Require Import Ascii.
From stdpp Require Import pretty sorting.
From S2P Require Import Prelude Hash ASPath ASPathSpec ASPathOps Community.
Open Scope Z_scope.

#[local] Arguments String.append !_ _ : simpl nomatch.

Definition ECOMMUNITY_ENCODE_AS : Z := 0x00.
Definition ECOMMUNITY_ENCODE_IP : Z := 0x01.
Definition ECOMMUNITY_ENCODE_AS4 : Z := 0x02.
Definition ECOMMUNITY_ROUTE_TARGET : Z := 0x02.
Definition ECOMMUNITY_SITE_ORIGIN : Z := 0x03.
Definition ECOMMUNITY_FORMAT_ROUTE_MAP : Z := 0.
Definition ECOMMUNITY_FORMAT_COMMUNITY_LIST : Z := 1.
Definition ECOMMUNITY_FORMAT_DISPLAY : Z := 2.
Definition ECOMMUNITY_SIZE : Z := 8.
Definition ECOMMUNITY_STR_DEFAULT_LEN : Z := 27.
Definition INET_ADDRSTRLEN : Z := 16.
Definition BGP_AS4_MAX : Z := 4294967295.

Notation eval := (list Z).
Notation ecommunity := (list eval).

(** ** Values *)

(** The sign of [memcmp]; it is called on two blocks of the same length. *)
Fixpoint memcmp (p q : list Z) : Z :=
  match p, q with
  | [], [] => 0
  | [], _ :: _ => -1
  | _ :: _, [] => 1
  | x :: p', y :: q' => if x <? y then -1 else if y <? x then 1 else memcmp p' q'
  end.

(** The loop stops at the first value that is not smaller, before which the new
    one is moved. *)
Fixpoint ecommunity_add_val (ecom : ecommunity) (v : eval) : ecommunity :=
  match ecom with
  | [] => [v]
  | p :: ecom' =>
      let ret := memcmp p v in
      if ret =? 0 then ecom else if 0 <? ret then v :: ecom else p :: ecommunity_add_val ecom' v
  end.

Definition ecommunity_uniq_sort (ecom : ecommunity) : ecommunity := foldl ecommunity_add_val [] ecom.

(** The eight-byte values of a block. *)
Fixpoint values (n : nat) (pnt : list Z) : ecommunity :=
  match n with O => [] | S n' => take 8 pnt :: values n' (drop 8 pnt) end.

Definition ecommunity_cmp (ecom1 ecom2 : ecommunity) : bool :=
  (length ecom1 =? length ecom2)%nat && (memcmp (concat ecom1) (concat ecom2) =? 0).

Definition ecommunity_hash_make (ecom : ecommunity) : Z := foldl (λ key b, u32 (key + b)) 0 (concat ecom).

Definition ecommunity_intern (P : pool ecommunity) (a : loc) : M (pool ecommunity * loc) :=
  intern ecommunity_hash_make ecommunity_cmp P a.
Definition ecommunity_unintern (P : pool ecommunity) (a : loc) : M (pool ecommunity * option loc) :=
  unintern ecommunity_hash_make ecommunity_cmp P a.

(** What [ecommunity_parse] makes of [length_] bytes before it shares them. *)
Definition parse_values (pnt : list Z) (length_ : Z) : M (option ecommunity) :=
  if negb (length_ mod ECOMMUNITY_SIZE =? 0) then Ok None else
  bytes ← rdn pnt 0 length_;
  Ok (Some (ecommunity_uniq_sort (values (Z.to_nat (length_ / ECOMMUNITY_SIZE)) bytes))).

Definition ecommunity_parse (P : pool ecommunity) (a : loc) (pnt : list Z) (length_ : Z) : M (pool ecommunity * option loc) :=
  new ← parse_values pnt length_;
  match new with
  | None => Ok (P, None)
  | Some new =>
      '(P, find) ← ecommunity_intern (Pool (<[a:=Obj 0 new]> (objs P)) (table P)) a;
      Ok (P, Some find)
  end.

Definition ecommunity_dup (ecom : ecommunity) : ecommunity := ecom.
Definition ecommunity_merge (ecom1 ecom2 : ecommunity) : ecommunity := ecom1 ++ ecom2.

(** The loop over [i] and [j], which the source adds to the byte pointers. *)
Fixpoint cover_loop (fuel : nat) (val1 val2 : list Z) (size1 size2 i j : Z) : M Z :=
  if (i <? size1) && (j <? size2) then
    match fuel with
    | O => Fault Undefined
    | S fuel' =>
        p ← rdn val1 i ECOMMUNITY_SIZE;
        q ← rdn val2 j ECOMMUNITY_SIZE;
        cover_loop fuel' val1 val2 size1 size2 (i + 1) (if memcmp p q =? 0 then j + 1 else j)
    end
  else Ok j.

Definition ecommunity_match (ecom1 ecom2 : option ecommunity) : M bool :=
  match ecom1, ecom2 with
  | None, None => Ok true
  | Some e1, Some e2 =>
      let size1 := Z.of_nat (length e1) in
      let size2 := Z.of_nat (length e2) in
      if size1 <? size2 then Ok false else
      j ← cover_loop (length e1) (concat e1) (concat e2) size1 size2 0 0;
      Ok (j =? size2)
  | _, _ => Ok false
  end.

(** ** Text *)

Definition inet_ntoa (b : list Z) : string :=
  match b with
  | [b0; b1; b2; b3] => print_asn b0 +:+ ("." +:+ (print_asn b1 +:+ ("." +:+ (print_asn b2 +:+ ("." +:+ print_asn b3)))))
  | _ => ""
  end.

(** The prefix of a value in each format. *)
Definition prefix_str (format type : Z) : string :=
  if format =? ECOMMUNITY_FORMAT_COMMUNITY_LIST then (if type =? ECOMMUNITY_ROUTE_TARGET then "rt " else "soo ")
  else if format =? ECOMMUNITY_FORMAT_DISPLAY then (if type =? ECOMMUNITY_ROUTE_TARGET then "RT:" else "SoO:")
  else "".

(** What is printed for one value. *)
Definition eval_str (format : Z) (v : eval) : string :=
  match v with
  | [encode; type; b2; b3; b4; b5; b6; b7] =>
      if negb ((encode =? ECOMMUNITY_ENCODE_AS) || (encode =? ECOMMUNITY_ENCODE_IP) || (encode =? ECOMMUNITY_ENCODE_AS4)) then "?"
      else if negb ((type =? ECOMMUNITY_ROUTE_TARGET) || (type =? ECOMMUNITY_SITE_ORIGIN)) then "?"
      else
        prefix_str format type +:+
        (if encode =? ECOMMUNITY_ENCODE_AS4 then
           print_asn (be_value [b2; b3; b4; b5]) +:+ (":" +:+ print_asn (be_value [b6; b7]))
         else if encode =? ECOMMUNITY_ENCODE_AS then
           print_asn (be_value [b2; b3]) +:+ (":" +:+ print_asn (be_value [b4; b5; b6; b7]))
         else inet_ntoa [b2; b3; b4; b5] +:+ (":" +:+ print_asn (be_value [b6; b7])))
  | _ => "?"
  end.

(** [while (str_pnt + ECOMMUNITY_STR_DEFAULT_LEN >= str_size) str_size *= 2;] *)
Fixpoint str_grow (fuel : nat) (str_pnt str_size : Z) : M Z :=
  if str_size <=? str_pnt + ECOMMUNITY_STR_DEFAULT_LEN then
    match fuel with O => Fault Undefined | S fuel' => str_grow fuel' str_pnt (str_size * 2) end
  else Ok str_size.

Fixpoint ecom_fill (format : Z) (str_size : Z) (text : string) (first : bool) (ecom : ecommunity) : M string :=
  match ecom with
  | [] => Ok text
  | v :: ecom' =>
      let str_pnt := Z.of_nat (String.length text) in
      str_size ← str_grow (Z.to_nat (str_pnt + 28)) str_pnt str_size;
      text ← (if first then Ok text else put_char str_size text " ");
      text ← put_str str_size text (eval_str format v);
      ecom_fill format str_size text false ecom'
  end.

Definition ecommunity_ecom2str (ecom : ecommunity) (format : Z) : M string :=
  match ecom with
  | [] => Ok ""%string
  | _ => ecom_fill format (ECOMMUNITY_STR_DEFAULT_LEN + 1) "" true ecom
  end.

(** [strtoul] in base 10 or 8 on a string of digits. *)
Fixpoint strtoul (base : Z) (p : string) (acc : Z) : option Z :=
  match p with
  | EmptyString => Some acc
  | String c p' => if isdigit c && (digit c <? base) then strtoul base p' (acc * base + digit c) else None
  end.

(** The parts of a dotted address. *)
Fixpoint dotted (p : string) (part : string) : list string :=
  match p with
  | EmptyString => [part]
  | String c p' => if Ascii.eqb c "."%char then part :: dotted p' "" else dotted p' (part +:+ String c EmptyString)
  end.

(** [inet_aton] on digits and dots: up to four parts, octal after a zero, the
    last part filling the rest of the address. *)
Definition aton_part (s : string) : option Z :=
  match s with
  | EmptyString => None
  | String c s' => if Ascii.eqb c "0"%char then strtoul 8 s' 0 else strtoul 10 s 0
  end.
Definition inet_aton (s : string) : option (list Z) :=
  parts ← mapM aton_part (dotted s "");
  match parts with
  | [a] => if a <? 2 ^ 32 then Some (be_bytes 4 a) else None
  | [a; b] => if (a <? 256) && (b <? 2 ^ 24) then Some (a :: be_bytes 3 b) else None
  | [a; b; c] => if (a <? 256) && (b <? 256) && (c <? 2 ^ 16) then Some (a :: b :: be_bytes 2 c) else None
  | [a; b; c; d] => if (a <? 256) && (b <? 256) && (c <? 256) && (d <? 256) then Some [a; b; c; d] else None
  | _ => None
  end.

Inductive ecommunity_token :=
  | ecommunity_token_rt | ecommunity_token_soo | ecommunity_token_val | ecommunity_token_unknown.

Record eval_state := EvalState {
  separator : bool;
  digit_seen : bool;
  dot : Z;
  val_ : Z;
  as_num : Z;
  ip : list Z;
}.

(** The loop over digits, colons and dots; [seen] is what lies between [str] and
    [p].  [None] is [goto error]. *)
Fixpoint eval_loop (p seen : string) (e : eval_state) : option (string * eval_state) :=
  match p with
  | String c p' =>
      let seen' := seen +:+ String c EmptyString in
      if Ascii.eqb c ":"%char then
        if separator e then None
        else if INET_ADDRSTRLEN <? Z.of_nat (String.length seen) then None
        else if negb (dot e =? 0) then
          match inet_aton seen with
          | None => None
          | Some ip => eval_loop p' seen' (EvalState true false (dot e) (val_ e) (as_num e) ip)
          end
        else
          match strtoul 10 seen 0 with
          | None => None
          | Some a => if u32 a =? BGP_AS4_MAX then None
                      else eval_loop p' seen' (EvalState true false (dot e) (val_ e) (u32 a) (ip e))
          end
      else if Ascii.eqb c "."%char then
        if separator e then None
        else if 4 <? dot e + 1 then None
        else eval_loop p' seen' (EvalState false (digit_seen e) (dot e + 1) (val_ e) (as_num e) (ip e))
      else if isdigit c then
        eval_loop p' seen' (EvalState (separator e) true (dot e)
          (if separator e then u32 (u32 (val_ e * 10) + digit c) else val_ e) (as_num e) (ip e))
      else Some (p, e)
  | EmptyString => Some (p, e)
  end.

(** The encoding of what was read; [val[1]] is set by the caller. *)
Definition encode_eval (e : eval_state) : option eval :=
  if negb (dot e =? 0) then
    if 65535 <? val_ e then None else Some (ECOMMUNITY_ENCODE_IP :: 0 :: ip e ++ be_bytes 2 (val_ e))
  else if BGP_AS_MAX <? as_num e then
    if 65535 <? val_ e then None else Some (ECOMMUNITY_ENCODE_AS4 :: 0 :: be_bytes 4 (as_num e) ++ be_bytes 2 (val_ e))
  else Some (ECOMMUNITY_ENCODE_AS :: 0 :: be_bytes 2 (as_num e) ++ be_bytes 4 (val_ e)).

Definition tolower (c : Ascii.ascii) : Ascii.ascii :=
  let n := Ascii.nat_of_ascii c in if ((65 <=? n) && (n <=? 90))%nat then Ascii.ascii_of_nat (n + 32) else c.

(** The rest of a keyword given without its last letters: [Some] when [letters]
    is read, or cut short by a space or the end of the string. *)
Fixpoint keyword_rest (letters p : string) : option string :=
  match letters with
  | EmptyString => Some p
  | String l letters' =>
      match p with
      | EmptyString => Some p
      | String c p' =>
          if Ascii.eqb (tolower c) l then keyword_rest letters' p'
          else if isspace c then Some p else None
      end
  end.

(** [None] is a null result: the end of the string.  On an unknown token the
    rest of the string is of no use. *)
Definition ecommunity_gettoken (str : string) : option (string * ecommunity_token * eval) :=
  match skip_space str with
  | EmptyString => None
  | String c p' =>
      let unknown := Some (EmptyString, ecommunity_token_unknown, []) in
      if negb (isdigit c) then
        if Ascii.eqb (tolower c) "r"%char then
          match keyword_rest "t" p' with Some r => Some (r, ecommunity_token_rt, []) | None => unknown end
        else if Ascii.eqb (tolower c) "s"%char then
          match keyword_rest "oo" p' with Some r => Some (r, ecommunity_token_soo, []) | None => unknown end
        else unknown
      else
        match eval_loop (String c p') "" (EvalState false false 0 0 0 []) with
        | None => unknown
        | Some (r, e) =>
            if negb (digit_seen e) || negb (separator e) then unknown
            else match encode_eval e with Some v => Some (r, ecommunity_token_val, v) | None => unknown end
        end
  end.

Definition set_type (v : eval) (type : Z) : eval := <[1%nat:=u8 type]> v.

(** The loop of [ecommunity_str2com]; every token takes a character.  The outer
    [None] is running out of fuel. *)
Fixpoint ecom_str2com (fuel : nat) (str : string) (type : Z) (keyword_included keyword : bool) (ecom : option ecommunity)
    : M (option ecommunity) :=
  match ecommunity_gettoken str with
  | None => Ok ecom
  | Some (r, token, v) =>
      match fuel with
      | O => Fault Undefined
      | S fuel' =>
          match token with
          | ecommunity_token_rt =>
              if negb keyword_included || keyword then Ok None
              else ecom_str2com fuel' r ECOMMUNITY_ROUTE_TARGET keyword_included true ecom
          | ecommunity_token_soo =>
              if negb keyword_included || keyword then Ok None
              else ecom_str2com fuel' r ECOMMUNITY_SITE_ORIGIN keyword_included true ecom
          | ecommunity_token_val =>
              if keyword_included && negb keyword then Ok None
              else ecom_str2com fuel' r type keyword_included (if keyword_included then false else keyword)
                     (Some (ecommunity_add_val (default [] ecom) (set_type v type)))
          | ecommunity_token_unknown => Ok None
          end
      end
  end.

Definition ecommunity_str2com (str : string) (type : Z) (keyword_included : bool) : M (option ecommunity) :=
  ecom_str2com (String.length str) str type keyword_included false None.

(** ** Sorted, duplicate-free values *)

Lemma memcmp_range p q : memcmp p q = -1 ∨ memcmp p q = 0 ∨ memcmp p q = 1.
Proof. revert q. induction p as [|x p IH]; intros [|y q]; cbn; auto. repeat case_match; auto. Qed.

Lemma memcmp_eq p q : memcmp p q = 0 ↔ p = q.
Proof.
  revert q. induction p as [|x p IH]; intros [|y q]; cbn; try done.
  destruct (Z.ltb_spec x y); [naive_solver lia|]. destruct (Z.ltb_spec y x); [naive_solver lia|].
  rewrite IH. assert (x = y) as -> by lia. naive_solver.
Qed.

Lemma memcmp_sym p q : memcmp q p = - memcmp p q.
Proof.
  revert q. induction p as [|x p IH]; intros [|y q]; cbn; try done.
  destruct (Z.ltb_spec x y), (Z.ltb_spec y x); try done; lia.
Qed.

Definition before (p q : eval) : Prop := memcmp p q < 0.

#[local] Instance before_trans : Transitive before.
Proof.
  unfold before. intros p. induction p as [|x p IH]; intros [|y q] [|z r]; cbn; try done.
  destruct (Z.ltb_spec x y), (Z.ltb_spec y z), (Z.ltb_spec x z); try lia; try done;
    destruct (Z.ltb_spec y x), (Z.ltb_spec z y), (Z.ltb_spec z x); try lia; try done. apply IH.
Qed.

Lemma add_val_spec ecom v :
  StronglySorted before ecom →
  StronglySorted before (ecommunity_add_val ecom v) ∧ ∀ w, w ∈ ecommunity_add_val ecom v ↔ w = v ∨ w ∈ ecom.
Proof.
  induction 1 as [|p ecom Hs IH Hp]; cbn [ecommunity_add_val].
  { split; [repeat constructor|]. intros w. rewrite list_elem_of_singleton. set_solver. }
  destruct (Z.eqb_spec (memcmp p v) 0) as [E%memcmp_eq|Hne]; [subst; split; [by constructor|set_solver]|].
  destruct (Z.ltb_spec 0 (memcmp p v)) as [Hlt|Hge].
  - split; [|set_solver]. constructor; [by constructor|].
    assert (before v p) as Hvp by (unfold before; rewrite memcmp_sym; lia).
    constructor; [done|]. eapply Forall_impl; [exact Hp|]. intros q Hq. cbn in Hq. by etrans.
  - destruct IH as [IH1 IH2]. split; [|intros w; rewrite !elem_of_cons, IH2; tauto].
    constructor; [done|]. rewrite Forall_forall in Hp |- *. intros w [->|Hw]%IH2; [unfold before; lia|auto].
Qed.

Lemma uniq_sort_snoc ecom v : ecommunity_uniq_sort (ecom ++ [v]) = ecommunity_add_val (ecommunity_uniq_sort ecom) v.
Proof. unfold ecommunity_uniq_sort. by rewrite foldl_app. Qed.

Lemma euniq_sort_spec ecom :
  StronglySorted before (ecommunity_uniq_sort ecom) ∧ ∀ v, v ∈ ecommunity_uniq_sort ecom ↔ v ∈ ecom.
Proof.
  induction ecom as [|v ecom IH] using rev_ind; [by split; [constructor|]|]. destruct IH as [IH1 IH2].
  rewrite uniq_sort_snoc. destruct (add_val_spec _ v IH1) as [H1 H2]. split; [done|].
  intros w. rewrite H2, elem_of_app, IH2, list_elem_of_singleton. tauto.
Qed.

(** A strictly increasing list is determined by its members. *)
Lemma before_ext (l1 l2 : ecommunity) :
  StronglySorted before l1 → StronglySorted before l2 → (∀ v, v ∈ l1 ↔ v ∈ l2) → l1 = l2.
Proof.
  assert (∀ v, ¬ before v v) as Hirr by (intros v; unfold before; rewrite (proj2 (memcmp_eq v v)); [lia|done]).
  intros H1. revert l2. induction H1 as [|x l1 Hs1 IH Hx]; intros l2 H2 He.
  { destruct l2 as [|y l2]; [done|]. destruct (He y) as [_ Hy]. by apply elem_of_nil in Hy; [|left]. }
  destruct H2 as [|y l2 Hs2 Hy]; [destruct (He x) as [Hx' _]; by apply elem_of_nil in Hx'; [|left]|].
  rewrite Forall_forall in Hx, Hy.
  assert (x = y) as ->.
  { pose proof (proj1 (He x) ltac:(left)) as Hyx. pose proof (proj2 (He y) ltac:(left)) as Hxy.
    apply elem_of_cons in Hyx as [|Hyx], Hxy as [|Hxy]; [done..|]. exfalso. apply (Hirr x). etrans; [by apply Hx|by apply Hy]. }
  f_equal. apply IH; [done|]. intros v. specialize (He v). rewrite !elem_of_cons in He.
  split; intros Hv.
  - destruct (proj1 He) as [->|]; [by right| |done]. exfalso. by apply (Hirr y), Hx.
  - destruct (proj2 He) as [->|]; [by right| |done]. exfalso. by apply (Hirr y), Hy.
Qed.

#[export] Instance ecommunity_intern_laws : InternLaws ecommunity_hash_make ecommunity_cmp.
Proof.
  split; unfold ecommunity_cmp; intros *; rewrite ?andb_true_iff, ?Nat.eqb_eq, ?Z.eqb_eq, ?memcmp_eq.
  - done.
  - naive_solver.
  - intros [-> ->] [-> ->]. done.
  - intros [_ E]. unfold ecommunity_hash_make. by rewrite E.
Qed.

(** ** Printing *)

Fixpoint all_digits (s : string) : bool :=
  match s with EmptyString => true | String c s' => isdigit c && all_digits s' end.

Lemma pretty_go_digits (k : nat) (x : N) s :
  (x < 10 ^ N.of_nat k)%N → all_digits s = true → all_digits (pretty_N_go x s) = true.
Proof.
  revert x s. induction k as [|k IH]; intros x s Hx Hs.
  { assert (x = 0)%N as -> by (cbn in Hx; lia). by rewrite pretty_N_go_0. }
  destruct (N.eq_dec x 0) as [->|]; [by rewrite pretty_N_go_0|].
  rewrite pretty_N_go_step by lia. rewrite Nat2N.inj_succ, N.pow_succ_r' in Hx.
  apply IH; [by apply N.Div0.div_lt_upper_bound|]. cbn [all_digits]. rewrite Hs, andb_true_r.
  by apply digit_char, N.mod_lt.
Qed.

Lemma print_asn_digits a : is_u32 a → all_digits (print_asn a) = true.
Proof.
  intros [H1 _]%u32_digits. unfold print_asn, pretty, pretty_N. case_decide; [done|]. by eapply pretty_go_digits.
Qed.

Lemma strtoul_pretty_go (k : nat) (x : N) s :
  (x < 10 ^ N.of_nat k)%N → strtoul 10 (pretty_N_go x s) 0 = strtoul 10 s (Z.of_N x).
Proof.
  revert x s. induction k as [|k IH]; intros x s Hx.
  { assert (x = 0)%N as -> by (cbn in Hx; lia). by rewrite pretty_N_go_0. }
  destruct (N.eq_dec x 0) as [->|]; [by rewrite pretty_N_go_0|].
  rewrite pretty_N_go_step by lia. rewrite Nat2N.inj_succ, N.pow_succ_r' in Hx.
  pose proof (N.div_mod x 10 ltac:(done)) as Hdm. pose proof (N.mod_lt x 10 ltac:(done)) as Hm.
  apply N.Div0.div_lt_upper_bound in Hx. rewrite IH by done. destruct (digit_char (x mod 10)) as [Hd Hv]; [done|].
  cbn [strtoul]. rewrite Hd, Hv, (proj2 (Z.ltb_lt _ _)) by lia. cbn [andb]. f_equal. lia.
Qed.

Lemma strtoul_print a : is_u32 a → strtoul 10 (print_asn a) 0 = Some a.
Proof.
  intros Ha. destruct (u32_digits a Ha) as [H1 _]. unfold print_asn, pretty, pretty_N. case_decide as Hz.
  - by assert (a = 0) as -> by (unfold is_u32 in *; lia).
  - rewrite (strtoul_pretty_go 10) by done. cbn. f_equal. unfold is_u32 in *. lia.
Qed.

Lemma aton_print a : 0 <= a < 256 → aton_part (print_asn a) = Some a.
Proof.
  intros Ha. assert (Forall (λ n, aton_part (print_asn (Z.of_nat n)) = Some (Z.of_nat n)) (seq 0 256)) as H.
  { apply Forall_forall. intros n Hn%list_elem_of_In%in_seq. revert n Hn.
    assert (forallb (λ n, bool_decide (aton_part (print_asn (Z.of_nat n)) = Some (Z.of_nat n))) (seq 0 256) = true) as H by (by vm_compute).
    rewrite forallb_forall in H. intros n Hn. by apply (bool_decide_eq_true_1 _), H, in_seq. }
  rewrite Forall_forall in H. specialize (H (Z.to_nat a)). rewrite Z2Nat.id in H by lia. apply H.
  apply list_elem_of_In, in_seq. lia.
Qed.

Lemma dotted_part ds p part :
  all_digits ds = true → dotted (ds +:+ p) part = dotted p (part +:+ ds).
Proof.
  revert part. induction ds as [|c ds IH]; intros part; cbn [all_digits String.append dotted]; [by rewrite string_app_nil|].
  intros [Hc Hd]%andb_true_iff. destruct (Ascii.eqb_spec c ".") as [->|]; [done|]. rewrite IH by done.
  by rewrite string_app_assoc.
Qed.

Lemma dotted_step ds p : all_digits ds = true → dotted (ds +:+ ("." +:+ p)) "" = ds :: dotted p "".
Proof. intros H. by rewrite dotted_part. Qed.
Lemma dotted_last ds : all_digits ds = true → dotted ds "" = [ds].
Proof. intros H. rewrite <- (string_app_nil ds) at 1. by rewrite dotted_part. Qed.

Definition octets (b : list Z) : Prop := bytes_ok b ∧ length b = 4%nat.

Lemma octets_inv b : octets b → ∃ b0 b1 b2 b3, b = [b0; b1; b2; b3] ∧ 0 <= b0 < 256 ∧ 0 <= b1 < 256 ∧ 0 <= b2 < 256 ∧ 0 <= b3 < 256.
Proof.
  intros [Hb Hl]. destruct b as [|b0 [|b1 [|b2 [|b3 [|]]]]]; try done. exists b0, b1, b2, b3.
  unfold bytes_ok, is_byte in Hb. rewrite !Forall_cons in Hb. naive_solver.
Qed.

Lemma u32_byte b : 0 <= b < 256 → is_u32 b.
Proof. unfold is_u32. lia. Qed.

Lemma inet_aton_ntoa b : octets b → inet_aton (inet_ntoa b) = Some b.
Proof.
  intros (b0 & b1 & b2 & b3 & -> & H0 & H1 & H2 & H3)%octets_inv. unfold inet_aton, inet_ntoa.
  rewrite !dotted_step, dotted_last by (by apply print_asn_digits, u32_byte). cbn [mapM String.append].
  rewrite !aton_print by done. cbn [mbind option_bind mret option_ret].
  by rewrite !(proj2 (Z.ltb_lt _ 256)) by lia.
Qed.

(** ** Reading back *)

Lemma eval_digits ds c p seen e :
  all_digits (String c ds) = true → separator e = false →
  eval_loop (String c ds +:+ p) seen e =
  eval_loop p (seen +:+ String c ds) (EvalState false true (dot e) (val_ e) (as_num e) (ip e)).
Proof.
  intros Hd Hs. revert c seen e Hd Hs. induction ds as [|c' ds IH]; intros c seen e [Hc Hd]%andb_true_iff Hs.
  - cbn [String.append eval_loop]. destruct (Ascii.eqb_spec c ":") as [->|]; [done|]. destruct (Ascii.eqb_spec c ".") as [->|]; [done|].
    by rewrite Hc, Hs.
  - change (String c (String c' ds) +:+ p) with (String c (String c' ds +:+ p)). cbn [eval_loop].
    destruct (Ascii.eqb_spec c ":") as [->|]; [done|]. destruct (Ascii.eqb_spec c ".") as [->|]; [done|].
    rewrite Hc, Hs. rewrite IH by done. cbn [dot val_ as_num ip]. f_equal. by rewrite string_app_assoc.
Qed.

Lemma eval_print a p seen e :
  is_u32 a → separator e = false →
  eval_loop (print_asn a +:+ p) seen e =
  eval_loop p (seen +:+ print_asn a) (EvalState false true (dot e) (val_ e) (as_num e) (ip e)).
Proof.
  intros Ha Hs. pose proof (print_asn_digits a Ha) as Hd. destruct (print_asn_head a "" Ha) as (c & ds & E & _).
  rewrite string_app_nil in E. rewrite E in *. by apply eval_digits.
Qed.

Lemma eval_dot p seen e :
  separator e = false → dot e < 4 →
  eval_loop ("." +:+ p) seen e = eval_loop p (seen +:+ ".") (EvalState false (digit_seen e) (dot e + 1) (val_ e) (as_num e) (ip e)).
Proof. intros Hs Hd. cbn. rewrite Hs. by rewrite (proj2 (Z.ltb_ge _ _)) by lia. Qed.

(** After the colon. *)
Lemma eval_value p seen e v r :
  read_digits p (val_ e) = (v, r) → ends r → separator e = true →
  eval_loop p seen e =
  Some (r, EvalState true (digit_seen e || match p with String c _ => isdigit c | EmptyString => false end) (dot e) v (as_num e) (ip e)).
Proof.
  intros E Hr Hs. revert seen e v E Hs. induction p as [|c p IH]; intros seen [? d ? w ? ?] v; cbn [separator val_ dot digit_seen as_num ip] in *.
  - intros [= <- <-] ->. cbn. by rewrite orb_false_r.
  - cbn [read_digits]. destruct (isdigit c) eqn:Hc.
    + intros E ->. cbn [eval_loop]. destruct (Ascii.eqb_spec c ":") as [->|]; [done|]. destruct (Ascii.eqb_spec c ".") as [->|]; [done|].
      rewrite Hc. cbn [separator]. erewrite IH; [|exact E|done]. cbn [digit_seen as_num ip dot]. by rewrite !orb_true_r.
    + intros [= <- <-] ->. destruct Hr as [|[s' Hr]]; [done|]. injection Hr as -> ->. cbn. by rewrite orb_false_r.
Qed.

Lemma eval_value_print v r seen e :
  is_u32 v → ends r → separator e = true → val_ e = 0 →
  eval_loop (print_asn v +:+ r) seen e = Some (r, EvalState true true (dot e) v (as_num e) (ip e)).
Proof.
  intros Hv Hr Hs H0. erewrite eval_value; [|rewrite H0; by apply read_print_asn, ends_no_digit|done|done].
  destruct (print_asn_head v r Hv) as (c & p & -> & ->). by rewrite orb_true_r.
Qed.

(** The three forms of the text of a value. *)
Lemma eval_asn a v r :
  is_u32 a → a ≠ BGP_AS4_MAX → is_u32 v → ends r →
  eval_loop (print_asn a +:+ (":" +:+ (print_asn v +:+ r))) "" (EvalState false false 0 0 0 []) = Some (r, EvalState true true 0 v a []).
Proof.
  intros Ha Hm Hv Hr. rewrite eval_print by done. cbn [String.append eval_loop separator dot].
  change (Ascii.eqb ":" ":") with true. cbv iota.
  pose proof (print_asn_length a Ha). rewrite (proj2 (Z.ltb_ge INET_ADDRSTRLEN _)) by (unfold INET_ADDRSTRLEN; lia).
  change (negb (0 =? 0)) with false. cbv iota. rewrite strtoul_print, u32_id, (proj2 (Z.eqb_neq _ _)) by done.
  by rewrite eval_value_print.
Qed.

Lemma print_octet_length b : 0 <= b < 256 → slen (print_asn b) <= 3.
Proof.
  intros Hb. unfold print_asn, pretty, pretty_N. case_decide; [cbn; lia|].
  assert (Z.to_N b < 10 ^ N.of_nat 3)%N as H1 by (change (10 ^ N.of_nat 3)%N with 1000%N; lia).
  pose proof (pretty_go_length 3 _ "" H1) as Hl. cbn [String.length] in Hl. lia.
Qed.

Lemma inet_ntoa_length b : octets b → slen (inet_ntoa b) <= 15.
Proof.
  intros (b0 & b1 & b2 & b3 & -> & H0 & H1 & H2 & H3)%octets_inv. unfold inet_ntoa. rewrite !string_app_length. cbn [String.length].
  pose proof (print_octet_length b0 H0). pose proof (print_octet_length b1 H1).
  pose proof (print_octet_length b2 H2). pose proof (print_octet_length b3 H3). lia.
Qed.

Lemma eval_address b v r :
  octets b → is_u32 v → ends r →
  eval_loop (inet_ntoa b +:+ (":" +:+ (print_asn v +:+ r))) "" (EvalState false false 0 0 0 []) = Some (r, EvalState true true 3 v 0 b).
Proof.
  intros Hb Hv Hr. pose proof (inet_aton_ntoa b Hb) as Ea. pose proof (inet_ntoa_length b Hb) as Hl. revert Ea Hl.
  destruct (octets_inv b Hb) as (b0 & b1 & b2 & b3 & -> & H0 & H1 & H2 & H3). unfold inet_ntoa. rewrite !string_app_assoc. intros Ea Hl.
  rewrite eval_print by (done || by apply u32_byte). rewrite eval_dot by done.
  rewrite eval_print by (done || by apply u32_byte). rewrite eval_dot by done.
  rewrite eval_print by (done || by apply u32_byte). rewrite eval_dot by done.
  rewrite eval_print by (done || by apply u32_byte). rewrite !string_app_assoc. cbn [dot val_ as_num ip].
  match goal with |- eval_loop _ ("" +:+ ?s) _ = _ => change ("" +:+ s) with s; set (seen := s) in * end.
  cbn [String.append eval_loop separator dot]. change (Ascii.eqb ":" ":") with true. cbv iota.
  rewrite (proj2 (Z.ltb_ge INET_ADDRSTRLEN _)) by (unfold INET_ADDRSTRLEN; lia).
  change (negb (0 + 1 + 1 + 1 =? 0)) with true. cbv iota. rewrite Ea. by rewrite eval_value_print.
Qed.

(** The values whose text is read back: route targets and sites of origin in the
    three encodings, with a four-byte AS number only where two bytes do not
    suffice. *)
Definition text_ok (v : eval) : Prop :=
  ∃ encode type b2 b3 b4 b5 b6 b7, v = [encode; type; b2; b3; b4; b5; b6; b7] ∧ bytes_ok [b2; b3; b4; b5; b6; b7] ∧
    (type = ECOMMUNITY_ROUTE_TARGET ∨ type = ECOMMUNITY_SITE_ORIGIN) ∧
    (encode = ECOMMUNITY_ENCODE_AS ∨ encode = ECOMMUNITY_ENCODE_IP ∨
     (encode = ECOMMUNITY_ENCODE_AS4 ∧ BGP_AS_MAX < be_value [b2; b3; b4; b5] < BGP_AS4_MAX)).

Lemma be_value_two b6 b7 : bytes_ok [b6; b7] → 0 <= be_value [b6; b7] <= 65535 ∧ be_bytes 2 (be_value [b6; b7]) = [b6; b7].
Proof. intros H. split; [pose proof (be_value_bound _ H); cbn [length] in *; lia|apply (be_bytes_value _ H)]. Qed.
Lemma be_value_four b2 b3 b4 b5 :
  bytes_ok [b2; b3; b4; b5] → is_u32 (be_value [b2; b3; b4; b5]) ∧ be_bytes 4 (be_value [b2; b3; b4; b5]) = [b2; b3; b4; b5].
Proof. intros H. split; [exact (be_value_bound _ H)|apply (be_bytes_value _ H)]. Qed.
Lemma u16_u32 w : 0 <= w <= 65535 → is_u32 w.
Proof. unfold is_u32. lia. Qed.

(** The text of a value is its prefix and a body that is read back as the value,
    but for its type. *)
Lemma eval_body v :
  text_ok v →
  ∃ type body w, v !! 1%nat = Some type ∧ (type = ECOMMUNITY_ROUTE_TARGET ∨ type = ECOMMUNITY_SITE_ORIGIN) ∧ v = set_type w type ∧
    (∀ format, eval_str format v = prefix_str format type +:+ body) ∧ slen body <= 21 ∧
    (∃ c p, body = String c p ∧ isdigit c = true) ∧
    ∀ r, ends r → ∃ e, eval_loop (body +:+ r) "" (EvalState false false 0 0 0 []) = Some (r, e) ∧
      digit_seen e = true ∧ separator e = true ∧ encode_eval e = Some w.
Proof.
  intros (encode & type & b2 & b3 & b4 & b5 & b6 & b7 & -> & Hb & Ht & He). unfold bytes_ok in Hb. rewrite !Forall_cons in Hb.
  destruct Hb as (H2 & H3 & H4 & H5 & H6 & H7 & _).
  assert (bytes_ok [b2; b3] ∧ bytes_ok [b6; b7] ∧ bytes_ok [b2; b3; b4; b5] ∧ bytes_ok [b4; b5; b6; b7]) as (B1 & B2 & B3 & B4)
    by (unfold bytes_ok; rewrite !Forall_cons; done).
  destruct (be_value_two _ _ B1) as [R1 E1], (be_value_two _ _ B2) as [R2 E2], (be_value_four _ _ _ _ B3) as [R3 E3], (be_value_four _ _ _ _ B4) as [R4 E4].
  exists type.
  assert (negb ((type =? ECOMMUNITY_ROUTE_TARGET) || (type =? ECOMMUNITY_SITE_ORIGIN)) = false) as Hty by (by destruct Ht as [-> | ->]).
  assert (u8 type = type) as Hu by (by destruct Ht as [-> | ->]).
  destruct He as [->|[->|[-> Hmax]]].
  - exists (print_asn (be_value [b2; b3]) +:+ (":" +:+ print_asn (be_value [b4; b5; b6; b7]))), (ECOMMUNITY_ENCODE_AS :: 0 :: [b2; b3; b4; b5; b6; b7]).
    split_and!; [done|done|by rewrite <- Hu at 1|intros format; unfold eval_str; by rewrite Hty| | |].
    + rewrite !string_app_length. pose proof (print_asn_short _ R1). pose proof (print_asn_length _ R4). cbn [String.length]. lia.
    + apply print_asn_head, u16_u32, R1.
    + intros r Hr. eexists. rewrite !string_app_assoc, eval_asn; [|by apply u16_u32|unfold BGP_AS4_MAX; lia|done..].
      split_and!; [done..|]. unfold encode_eval. cbn [dot as_num val_]. change (negb (0 =? 0)) with false. cbv iota.
      rewrite (proj2 (Z.ltb_ge BGP_AS_MAX _)) by (unfold BGP_AS_MAX; lia). by rewrite E1, E4.
  - exists (inet_ntoa [b2; b3; b4; b5] +:+ (":" +:+ print_asn (be_value [b6; b7]))), (ECOMMUNITY_ENCODE_IP :: 0 :: [b2; b3; b4; b5; b6; b7]).
    split_and!; [done|done|by rewrite <- Hu at 1|intros format; unfold eval_str; by rewrite Hty| | |].
    + rewrite !string_app_length. pose proof (inet_ntoa_length [b2; b3; b4; b5] (conj B3 eq_refl)). pose proof (print_asn_short _ R2). cbn [String.length]. lia.
    + unfold inet_ntoa. rewrite !string_app_assoc. by apply print_asn_head, u32_byte.
    + intros r Hr. eexists. rewrite !string_app_assoc, eval_address; [|done|by apply u16_u32|done].
      split_and!; [done..|]. unfold encode_eval. cbn [dot as_num val_ ip]. change (negb (3 =? 0)) with true. cbv iota.
      rewrite (proj2 (Z.ltb_ge 65535 _)) by lia. by rewrite E2.
  - exists (print_asn (be_value [b2; b3; b4; b5]) +:+ (":" +:+ print_asn (be_value [b6; b7]))), (ECOMMUNITY_ENCODE_AS4 :: 0 :: [b2; b3; b4; b5; b6; b7]).
    split_and!; [done|done|by rewrite <- Hu at 1|intros format; unfold eval_str; by rewrite Hty| | |].
    + rewrite !string_app_length. pose proof (print_asn_length _ R3). pose proof (print_asn_short _ R2). cbn [String.length]. lia.
    + by apply print_asn_head.
    + intros r Hr. eexists. rewrite !string_app_assoc, eval_asn; [|done|lia|by apply u16_u32|done].
      split_and!; [done..|]. unfold encode_eval. cbn [dot as_num val_]. change (negb (0 =? 0)) with false. cbv iota.
      rewrite (proj2 (Z.ltb_lt BGP_AS_MAX _)) by lia. rewrite (proj2 (Z.ltb_ge 65535 _)) by lia. by rewrite E3, E2.
Qed.

(** ** The buffer of [ecommunity_ecom2str] *)

Definition eval_ok (v : eval) : Prop := bytes_ok v ∧ length v = 8%nat.

Lemma prefix_str_length format type : slen (prefix_str format type) <= 4.
Proof. unfold prefix_str. repeat case_match; cbn; lia. Qed.

Lemma eval_str_length format v : eval_ok v → slen (eval_str format v) <= 25.
Proof.
  intros [Hb Hl]. destruct v as [|encode [|type [|b2 [|b3 [|b4 [|b5 [|b6 [|b7 [|]]]]]]]]]; try done.
  unfold bytes_ok in Hb. rewrite !Forall_cons in Hb. destruct Hb as (_ & _ & H2 & H3 & H4 & H5 & H6 & H7 & _).
  assert (bytes_ok [b2; b3] ∧ bytes_ok [b6; b7] ∧ bytes_ok [b2; b3; b4; b5] ∧ bytes_ok [b4; b5; b6; b7]) as (B1 & B2 & B3 & B4)
    by (unfold bytes_ok; rewrite !Forall_cons; done).
  pose proof (prefix_str_length format type).
  pose proof (print_asn_short _ (proj1 (be_value_two _ _ B1))). pose proof (print_asn_short _ (proj1 (be_value_two _ _ B2))).
  pose proof (print_asn_length _ (proj1 (be_value_four _ _ _ _ B3))). pose proof (print_asn_length _ (proj1 (be_value_four _ _ _ _ B4))).
  pose proof (inet_ntoa_length [b2; b3; b4; b5] (conj B3 eq_refl)).
  unfold eval_str. destruct (negb _); [cbn; lia|]. destruct (negb _); [cbn; lia|]. rewrite string_app_length.
  repeat case_match; rewrite !string_app_length; cbn [String.length]; lia.
Qed.

Lemma str_grow_spec fuel p s :
  1 <= s → p + 28 <= Z.of_nat fuel + s → ∃ s', str_grow fuel p s = Ok s' ∧ p + 28 <= s' ∧ s <= s'.
Proof.
  revert s. induction fuel as [|fuel IH]; intros s Hs Hf; cbn [str_grow];
    destruct (Z.leb_spec s (p + ECOMMUNITY_STR_DEFAULT_LEN)) as [Hle|Hgt]; unfold ECOMMUNITY_STR_DEFAULT_LEN in *.
  - lia.
  - exists s. split_and!; [done|lia|lia].
  - destruct (IH (s * 2)) as (s' & E & H1 & H2); [lia..|]. exists s'. split_and!; [done|done|lia].
  - exists s. split_and!; [done|lia|lia].
Qed.

(** The text without a buffer. *)
Definition ecom_tail (format : Z) (ecom : ecommunity) : string := foldr (λ v s, " " +:+ (eval_str format v +:+ s)) ""%string ecom.
Definition ecom_text (format : Z) (ecom : ecommunity) : string :=
  match ecom with [] => "" | v :: ecom' => eval_str format v +:+ ecom_tail format ecom' end.

Lemma ecom_fill_prints format size text ecom :
  Forall eval_ok ecom → 1 <= size → ecom_fill format size text false ecom = Ok (text +:+ ecom_tail format ecom).
Proof.
  intros He. revert size text. induction He as [|v ecom Hv _ IH]; intros size text Hs; cbn [ecom_fill ecom_tail foldr]; [by rewrite string_app_nil|].
  destruct (str_grow_spec (Z.to_nat (slen text + 28)) (slen text) size) as (size' & -> & Hs' & _); [lia..|]. cbn [mbind M_bind].
  pose proof (eval_str_length format v Hv). unfold put_char. rewrite (proj2 (Z.leb_le _ _)) by lia. cbn [mbind M_bind].
  unfold put_str. rewrite (proj2 (Z.leb_le _ _)) by (rewrite string_app_length; cbn [String.length]; lia). cbn [mbind M_bind].
  rewrite IH by lia. by rewrite !string_app_assoc.
Qed.

Lemma ecom2str_prints format ecom : Forall eval_ok ecom → ecommunity_ecom2str ecom format = Ok (ecom_text format ecom).
Proof.
  intros He. destruct He as [|v ecom Hv He]; [done|]. unfold ecommunity_ecom2str. cbn [ecom_fill ecom_text].
  destruct (str_grow_spec (Z.to_nat (slen "" + 28)) (slen "") (ECOMMUNITY_STR_DEFAULT_LEN + 1)) as (size' & -> & Hs' & _);
    [unfold ECOMMUNITY_STR_DEFAULT_LEN; cbn; lia..|].
  cbn [mbind M_bind]. pose proof (eval_str_length format v Hv). unfold put_str. change (slen "") with 0 in *.
  rewrite (proj2 (Z.leb_le _ _)) by lia. cbn [mbind M_bind]. by rewrite ecom_fill_prints by (done || lia).
Qed.

(** ** The text is read back *)

Lemma ecom_tail_ends format ecom : ends (ecom_tail format ecom).
Proof. destruct ecom; [by left|]. right. by eexists. Qed.

(** The two tokens of a value. *)
Lemma tokens_read v s :
  text_ok v → ends s →
  ∃ type w mid, v = set_type w type ∧ (type = ECOMMUNITY_ROUTE_TARGET ∨ type = ECOMMUNITY_SITE_ORIGIN) ∧
    slen mid < slen (eval_str ECOMMUNITY_FORMAT_COMMUNITY_LIST v +:+ s) ∧ slen s < slen mid ∧
    ecommunity_gettoken (eval_str ECOMMUNITY_FORMAT_COMMUNITY_LIST v +:+ s) =
      Some (mid, if type =? ECOMMUNITY_ROUTE_TARGET then ecommunity_token_rt else ecommunity_token_soo, []) ∧
    ecommunity_gettoken mid = Some (s, ecommunity_token_val, w).
Proof.
  intros Hv Hs. destruct (eval_body v Hv) as (type & body & w & _ & Ht & -> & Htext & _ & (c & p & Eb & Hc) & Hread).
  rewrite Htext. exists type, w, (" " +:+ (body +:+ s)).
  assert (isspace c = false) as Hsp by (destruct c as [[] [] [] [] [] [] [] []]; done).
  split_and!; [done|done|..].
  - rewrite !string_app_length. destruct Ht as [-> | ->]; cbn; lia.
  - rewrite !string_app_length, Eb. cbn [String.length]. lia.
  - rewrite string_app_assoc. by destruct Ht as [-> | ->].
  - destruct (Hread s Hs) as (e & E & E1 & E2 & E3). rewrite Eb in *. unfold ecommunity_gettoken.
    change (skip_space (" " +:+ (String c p +:+ s))) with (skip_space (String c p +:+ s)).
    change (String c p +:+ s) with (String c (p +:+ s)) in E |- *. cbn [skip_space]. rewrite Hsp, Hc. cbn [negb]. cbv iota.
    rewrite E, E1, E2. cbn [negb orb]. by rewrite E3.
Qed.

Lemma str2com_value fuel v s type ecom :
  text_ok v → ends s → slen (eval_str ECOMMUNITY_FORMAT_COMMUNITY_LIST v +:+ s) <= Z.of_nat fuel →
  ∃ fuel' type', slen s <= Z.of_nat fuel' ∧
    ecom_str2com fuel (eval_str ECOMMUNITY_FORMAT_COMMUNITY_LIST v +:+ s) type true false ecom =
    ecom_str2com fuel' s type' true false (Some (ecommunity_add_val (default [] ecom) v)).
Proof.
  intros Hv Hs Hf. destruct (tokens_read v s Hv Hs) as (t & w & mid & -> & Ht & L1 & L2 & E1 & E2).
  destruct fuel as [|[|fuel]]; [lia..|]. exists fuel, t. split; [lia|]. cbn [ecom_str2com]. rewrite E1.
  destruct Ht as [-> | ->]; cbn [negb orb]; cbn [ecom_str2com]; by rewrite E2.
Qed.

Lemma str2com_skip fuel s type ecom : ecom_str2com fuel (" " +:+ s) type true false ecom = ecom_str2com fuel s type true false ecom.
Proof. by destruct fuel. Qed.

Lemma str2com_tail fuel ecom type acc :
  Forall text_ok ecom → slen (ecom_tail ECOMMUNITY_FORMAT_COMMUNITY_LIST ecom) <= Z.of_nat fuel →
  ecom_str2com fuel (ecom_tail ECOMMUNITY_FORMAT_COMMUNITY_LIST ecom) type true false (Some acc) = Ok (Some (foldl ecommunity_add_val acc ecom)).
Proof.
  intros He. revert fuel type acc. induction He as [|v ecom Hv _ IH]; intros fuel type acc Hf; [by destruct fuel|].
  change (ecom_tail ?f (v :: ecom)) with (" " +:+ (eval_str f v +:+ ecom_tail f ecom)) in *.
  rewrite string_app_length in Hf. change (slen " ") with 1 in Hf. rewrite str2com_skip.
  destruct (str2com_value fuel v (ecom_tail ECOMMUNITY_FORMAT_COMMUNITY_LIST ecom) type (Some acc) Hv (ecom_tail_ends _ ecom)) as (f & t & Hf' & ->);
    [lia|]. by apply IH.
Qed.

(** ** Properties *)

(** [ecommunity_uniq_sort] is the canonical form of an extended communities
    value: strictly increasing, with the values of the argument and no other, and
    the same for two arrays exactly when they have the same values. *)
Theorem ecommunity_uniq_sort_canonical ecom1 ecom2 :
  StronglySorted before (ecommunity_uniq_sort ecom1) ∧
  (∀ v, v ∈ ecommunity_uniq_sort ecom1 ↔ v ∈ ecom1) ∧
  (ecommunity_uniq_sort ecom1 = ecommunity_uniq_sort ecom2 ↔ ∀ v, v ∈ ecom1 ↔ v ∈ ecom2).
Proof.
  destruct (euniq_sort_spec ecom1) as [S1 E1], (euniq_sort_spec ecom2) as [S2 E2]. split_and!; [done..|]. split.
  - intros E v. by rewrite <- E1, E, E2.
  - intros E. apply before_ext; [done..|]. intros v. by rewrite E1, E2.
Qed.



(** [ecommunity_match] adds the indices of values to byte pointers, so it
    does not decide inclusion: a value at the second place is not found. *)
Example ecommunity_match_misses :
  ecommunity_match (Some [[0; 2; 0; 1; 0; 0; 0; 1]; [0; 2; 0; 1; 0; 0; 0; 2]]) (Some [[0; 2; 0; 1; 0; 0; 0; 2]]) = Ok false.
Proof. vm_compute. reflexivity. Qed.

(** An AS number beyond 32 bits is taken modulo 2^32: 4294967297 is read as 1. *)
Example ecommunity_asn_wraps :
  ecommunity_str2com "rt 4294967297:5" 0 true = Ok (Some [[0; 2; 0; 1; 0; 0; 0; 5]]).
Proof. vm_compute. reflexivity. Qed.
