(* ===== verification/Tarpan.v ===== *)
(** The Tarpan attribute and the Wiser protocol: bgpd/bgp_tarpan.c,
    bgpd/wiser.cpp, bgpd/wiser_costs.hpp, bgpd/wiser_static_path_costs.hpp.

    A [struct tarpan] is an object of the sharing pool of Hash.v whose contents
    are the address of its message; 0 is the null pointer.  Messages live in a
    memory of their own and are changed in place.  The protobuf functions are
    generated code: [pack] and [unpack] are parameters. *)
From S2P Require Import Prelude Hash.
Open Scope Z_scope.

Definition TARPAN_VERSION : Z := 12.

(** ** Messages (attr_tarpan.proto) *)
Record Wiser := { path_cost : Z; sender_as : Z; sender_address : Z }.
Record TarpanMsg := { version : Z; wiser : option Wiser; pathlets : option (list Z) }.

Record store := Store {
  tarpans : pool Z;
  msgs : gmap Z TarpanMsg;
}.

Definition set_msg (st : store) (m : Z) (msg : TarpanMsg) : store :=
  Store (tarpans st) (<[m:=msg]> (msgs st)).

(** [tarp->message], and the message itself. *)
Definition message (st : store) (a : loc) : M Z := o ← load_obj (tarpans st) a; Ok (val o).
Definition load_msg (st : store) (m : Z) : M TarpanMsg := of_opt (msgs st !! m).

(** ** Allocation: [a] and [m] are the addresses the allocator returns. *)
Definition tarpan_new (st : store) (a : loc) : store :=
  Store (Pool (<[a:=Obj 0 0]> (objs (tarpans st))) (table (tarpans st))) (msgs st).

Definition new_message : TarpanMsg := {| version := TARPAN_VERSION; wiser := None; pathlets := None |}.
Definition tarpan_message_new (st : store) (m : Z) : store := set_msg st m new_message.

Definition set_message (st : store) (a : loc) (m : Z) : M store :=
  o ← load_obj (tarpans st) a;
  Ok (Store (Pool (<[a:=Obj (refcnt o) m]> (objs (tarpans st))) (table (tarpans st))) (msgs st)).

(** [tarpan_msg__free_unpacked] of a message that may be null. *)
Definition free_msg (st : store) (m : Z) : M store :=
  if m =? 0 then Ok st
  else match msgs st !! m with
       | Some _ => Ok (Store (tarpans st) (delete m (msgs st)))
       | None => Fault Undefined
       end.

(** ** Sharing *)

(** The address of the message, kept to the 32 bits of the result type. *)
Definition tarpan_hash_make (m : Z) : Z := u32 m.
Definition tarpan_cmp (m1 m2 : Z) : bool := tarpan_hash_make m1 =? tarpan_hash_make m2.

Definition tarpan_free (st : store) (a : loc) : M store :=
  m ← message st a;
  st ← free_msg st m;
  P ← free_obj (tarpans st) a;
  Ok (Store P (msgs st)).

(** [intern] with [tarpan_free] for the object that is not used. *)
Definition tarpan_intern (st : store) (tarp : loc) : M (store * loc) :=
  m ← message st tarp;
  '(P, find) ← intern tarpan_hash_make tarpan_cmp (tarpans st) tarp;
  st ← (if decide (find = tarp) then Ok st else free_msg st m);
  Ok (Store P (msgs st), find).

Definition tarpan_unintern (st : store) (tarp : loc) : M (store * option loc) :=
  m ← message st tarp;
  '(P, r) ← unintern tarpan_hash_make tarpan_cmp (tarpans st) tarp;
  st ← match r with Some _ => Ok st | None => free_msg st m end;
  Ok (Store P (msgs st), r).

(** ** Link costs (wiser_static_path_costs.hpp) *)

Definition INT16_MAX : Z := 32767.

(** Conversion of an unsigned 32-bit value to [int]. *)
Definition to_int (z : Z) : Z := if 2 ^ 31 <=? z then z - 2 ^ 32 else z.

(** [(uint64_t) lo << 32 | hi] on the 64-bit values of its operands. *)
Definition as_pair (lo hi : Z) : Z := Z.lor (u64 (Z.shiftl (u64 lo) 32)) (u64 hi).

(** A [path_cost as1 as2 cost] line of the configuration file. *)
Record path_cost_line := { as1 : Z; as2 : Z; cost : Z }.

(** [insert] keeps the element that is there. *)
Definition wiser_static_path_costs_line (path_costs : gmap Z Z) (l : path_cost_line) : gmap Z Z :=
  let key := as_pair (Z.min (as1 l) (as2 l)) (Z.max (as1 l) (as2 l)) in
  match path_costs !! key with
  | Some _ => path_costs
  | None => <[key:=to_int (cost l)]> path_costs
  end.

Definition wiser_static_path_costs_init (lines : list path_cost_line) : gmap Z Z :=
  foldl wiser_static_path_costs_line ∅ lines.

(** The arguments are [as_t] values converted to [int]. *)
Definition wiser_get_path_cost (path_costs : gmap Z Z) (a1 a2 : Z) : Z :=
  let i1 := to_int a1 in
  let i2 := to_int a2 in
  match path_costs !! as_pair (Z.min i1 i2) (Z.max i1 i2) with
  | None => INT16_MAX
  | Some c => c
  end.

(** ** Cost tables (wiser_costs.hpp) *)
Record costs := Costs {
  path_costs : gmap Z Z;
  advcost_sent : gmap Z Z;
  advcost_recv : gmap Z Z;
  portal : list (Wiser * Z * Z);   (* tasks queued for the cost portal: data, cost, own AS *)
}.

Definition wiser_costs_table_init (c : costs) : costs := Costs (path_costs c) ∅ ∅ (portal c).

Definition increment_map_value (map : gmap Z Z) (key delta : Z) : gmap Z Z :=
  match map !! key with
  | None => <[key:=delta]> map
  | Some v => <[key:=u32 (v + delta)]> map
  end.

Definition update_sent_cost (c : costs) (destination v : Z) : costs :=
  Costs (path_costs c) (increment_map_value (advcost_sent c) destination v) (advcost_recv c) (portal c).
Definition update_recv_cost (c : costs) (from v : Z) : costs :=
  Costs (path_costs c) (advcost_sent c) (increment_map_value (advcost_recv c) from v) (portal c).

(** What a message on the cost portal does. *)
Definition cost_portal_message (c : costs) (wiser_back : option (Z * Z)) : costs :=
  match wiser_back with
  | Some (a, v) => update_sent_cost c a v
  | None => c
  end.

(** ** Handlers (wiser.cpp) *)

(** The peer as the handlers see it: its AS, and AS and router id of the local
    speaker. *)
Record wpeer := { peer_as : Z; self_as : Z; router_id : Z }.

Definition wiser_new_default : Wiser := {| path_cost := 0; sender_as := 0; sender_address := 0 |}.

Definition set_wiser (msg : TarpanMsg) (w : Wiser) : TarpanMsg :=
  {| version := version msg; wiser := Some w; pathlets := pathlets msg |}.
Definition set_cost (w : Wiser) (v : Z) : Wiser :=
  {| path_cost := v; sender_as := sender_as w; sender_address := sender_address w |}.

(** The normalization factor is 1, so the multiplication leaves the cost. *)
Definition wiser_packet_received_handler (c : costs) (st : store) (p : wpeer) (tarp : loc) : M (costs * store) :=
  m ← message st tarp;
  msg ← load_msg st m;
  let '(w, previous_supported) :=
    match wiser msg with None => (wiser_new_default, false) | Some w => (w, true) end in
  let w := set_cost w (u32 (path_cost w + wiser_get_path_cost (path_costs c) (peer_as p) (self_as p))) in
  let st := set_msg st m (set_wiser msg w) in
  let c := update_recv_cost c (sender_as w) (path_cost w) in
  if negb previous_supported then Ok (c, st)
  else if peer_as p =? sender_as w then Ok (c, st)
  else Ok (Costs (path_costs c) (advcost_sent c) (advcost_recv c) (portal c ++ [(w, path_cost w, self_as p)]), st).

Definition wiser_initialize_packet (c : costs) (st : store) (p : wpeer) (tarp : loc) : M (costs * store) :=
  m ← message st tarp;
  msg ← load_msg st m;
  let c := update_sent_cost c (peer_as p) 0 in
  Ok (c, set_msg st m (set_wiser msg {| path_cost := 0; sender_as := self_as p; sender_address := router_id p |})).

Definition wiser_update_packet (c : costs) (st : store) (p : wpeer) (tarp : loc) : M (costs * store) :=
  m ← message st tarp;
  msg ← load_msg st m;
  match wiser msg with
  | None => wiser_initialize_packet c st p tarp
  | Some w =>
      let c := update_sent_cost c (peer_as p) (path_cost w) in
      Ok (c, set_msg st m (set_wiser msg {| path_cost := path_cost w; sender_as := self_as p; sender_address := router_id p |}))
  end.

(** ** Packets (bgp_tarpan.c) *)
Section packets.
Context (pack : TarpanMsg → list Z) (unpack : list Z → option TarpanMsg).

(** A handler function of [struct tarpan_protocol_handler]. *)
Notation handler := (costs → store → wpeer → loc → M (costs * store)).

(** [a'] and [m'] are the addresses of the copy. *)
Definition tarpan_copy (st : store) (tarp a' : loc) (m' : Z) : M store :=
  m ← message st tarp;
  let st := tarpan_new st a' in
  if m =? 0 then Ok st
  else
    msg ← load_msg st m;
    match unpack (pack msg) with
    | None => Fault Aborted
    | Some copy => set_message (set_msg st m' copy) a' m'
    end.

Definition tarpan_initialize_packet (initialize_packet : option handler) (c : costs) (st : store) (p : wpeer)
    (tarp : loc) (m' : Z) : M (costs * store) :=
  st ← set_message (tarpan_message_new st m') tarp m';
  match initialize_packet with None => Ok (c, st) | Some h => h c st p tarp end.

Definition tarpan_update_packet (update_packet : option handler) (c : costs) (st : store) (p : wpeer)
    (tarp a' : loc) (m' : Z) : M (costs * store) :=
  st ← tarpan_copy st tarp a' m';
  match update_packet with None => Ok (c, st) | Some h => h c st p a' end.

Definition tarpan_parse (st : store) (a : loc) (m : Z) (pnt : list Z) : M (store * loc) :=
  let st := tarpan_new st a in
  match unpack pnt with
  | None => Fault Aborted
  | Some msg => st ← set_message (set_msg st m msg) a m; tarpan_intern st a
  end.
End packets.

(** ** Sharing of Tarpan attributes *)

#[export] Instance tarpan_intern_laws : InternLaws tarpan_hash_make tarpan_cmp.
Proof. split; intros *; unfold tarpan_cmp; rewrite ?Z.eqb_refl, ?Z.eqb_eq; congruence. Qed.

Notation shared st b o := (objs (tarpans st) !! b = Some o ∧ refcnt o ≠ 0).

(** Sharing of Tarpan attributes goes by the low 32 bits of the address of
    the message, not by its contents.  While these are unique, every attribute
    stays on its own, also next to one with an equal message.  When the message of
    a shared attribute agrees with a new one in these 32 bits, the route gets the
    old attribute, with another message, and the new message is freed. *)
Theorem tarpan_intern_by_address st a m msg :
  pool_ok tarpan_hash_make tarpan_cmp (tarpans st) → objs (tarpans st) !! a = Some (Obj 0 m) → m ≠ 0 →
  msgs st !! m = Some msg →
  ((∀ b o, shared st b o → u32 (val o) ≠ u32 m) → hsize (table (tarpans st)) < 2 ^ 31 →
     ∃ st', tarpan_intern st a = Ok (st', a) ∧ pool_ok tarpan_hash_make tarpan_cmp (tarpans st') ∧
       objs (tarpans st') = <[a:=Obj 1 m]> (objs (tarpans st)) ∧ msgs st' = msgs st) ∧
  (∀ b o, shared st b o → refcnt o + 1 < 2 ^ 64 → u32 (val o) = u32 m →
     ∃ st', tarpan_intern st a = Ok (st', b) ∧ pool_ok tarpan_hash_make tarpan_cmp (tarpans st') ∧
       message st' b = Ok (val o) ∧ objs (tarpans st') !! a = None ∧ msgs st' = delete m (msgs st)).
Proof.
  intros HP Ha Hm Hmsg.
  assert (message st a = Ok m) as Em by (unfold message, load_obj; by rewrite Ha).
  split.
  - intros Hno Hsz. destruct (intern_new tarpan_hash_make tarpan_cmp (tarpans st) a m HP Ha Hsz) as (P' & E & HP' & Eo).
    { intros c o Hc Hr. unfold tarpan_cmp, tarpan_hash_make. apply Z.eqb_neq. by apply (Hno c). }
    unfold tarpan_intern. rewrite Em. cbn [mbind M_bind]. rewrite E. cbn [mbind M_bind]. rewrite decide_True by done.
    cbn [mbind M_bind]. by eexists.
  - intros b o [Hb Hr] Hroom Heq.
    assert (tarpan_cmp (val o) m = true) as Hc by (by apply Z.eqb_eq).
    destruct (intern_found tarpan_hash_make tarpan_cmp (tarpans st) a b m o HP Ha Hb Hr Hc Hroom) as (P' & E & HP' & Eo).
    assert (b ≠ a) as Hba by (intros ->; rewrite Ha in Hb; by injection Hb as <-).
    unfold tarpan_intern. rewrite Em. cbn [mbind M_bind]. rewrite E. cbn [mbind M_bind]. rewrite decide_False by done.
    unfold free_msg. rewrite (proj2 (Z.eqb_neq m 0)), Hmsg by done. cbn [mbind M_bind msgs].
    eexists. split; [done|]. cbn [tarpans msgs]. split_and!; [done| | |done].
    + unfold message, load_obj. cbn [tarpans]. by rewrite Eo, lookup_insert_eq.
    + by rewrite Eo, lookup_insert_ne, lookup_delete_eq.
Qed.

(** ** Link costs *)

Lemma to_int_small a : a < 2 ^ 31 → to_int a = a.
Proof. intros H. unfold to_int. by rewrite (proj2 (Z.leb_gt _ _)). Qed.

Lemma u64_id z : 0 <= z < 2 ^ 64 → u64 z = z.
Proof. intros H. unfold u64. by apply Z.mod_small. Qed.

Lemma shifted_lo lo k :
  0 <= lo < 2 ^ 32 → u64 (Z.shiftl (u64 (lo - k * 2 ^ 32)) 32) = Z.shiftl lo 32.
Proof.
  intros Hl. rewrite !Z.shiftl_mul_pow2 by lia. unfold u64. rewrite Z.mul_mod_idemp_l by done.
  replace ((lo - k * 2 ^ 32) * 2 ^ 32) with (lo * 2 ^ 32 + (- k) * 2 ^ 64) by ring.
  rewrite Z_mod_plus_full. apply Z.mod_small. lia.
Qed.

Lemma as_pair_value lo hi k :
  0 <= lo < 2 ^ 32 → 0 <= hi < 2 ^ 32 → as_pair (lo - k * 2 ^ 32) hi = lo * 2 ^ 32 + hi.
Proof.
  intros Hl Hh. unfold as_pair. rewrite shifted_lo, (u64_id hi) by lia. by apply lor_shiftl_add.
Qed.

(** With a negative second operand its sign fills the upper half. *)
Lemma as_pair_negative lo hi k :
  0 <= lo < 2 ^ 32 → 0 <= hi < 2 ^ 32 → as_pair (lo - k * 2 ^ 32) (hi - 2 ^ 32) = (2 ^ 32 - 1) * 2 ^ 32 + hi.
Proof.
  intros Hl Hh. unfold as_pair. rewrite shifted_lo by done.
  assert (u64 (hi - 2 ^ 32) = Z.lor (Z.shiftl (Z.ones 32) 32) hi) as ->.
  { rewrite lor_shiftl_add by lia. rewrite Z.ones_equiv. unfold u64.
    replace (hi - 2 ^ 32) with ((Z.pred (2 ^ 32) * 2 ^ 32 + hi) + (-1) * 2 ^ 64) by (unfold Z.pred; ring).
    rewrite Z_mod_plus_full. apply Z.mod_small. lia. }
  rewrite Z.lor_assoc, <-Z.shiftl_lor. rewrite Z.lor_ones_low; [|lia|].
  - rewrite lor_shiftl_add by lia. by rewrite Z.ones_equiv.
  - destruct (Z.eq_dec lo 0) as [->|]; [done|]. apply Z.log2_lt_pow2; lia.
Qed.

Definition line_ok (l : path_cost_line) : Prop := 0 <= as1 l < 2 ^ 32 ∧ 0 <= as2 l < 2 ^ 32.
Definition line_key (l : path_cost_line) : Z := as_pair (Z.min (as1 l) (as2 l)) (Z.max (as1 l) (as2 l)).

Lemma line_key_value l :
  line_ok l → line_key l = Z.min (as1 l) (as2 l) * 2 ^ 32 + Z.max (as1 l) (as2 l).
Proof.
  intros [H1 H2]. unfold line_key. rewrite <-(as_pair_value _ _ 0) by lia. f_equal. lia.
Qed.

(** The line that names the two ASes, in either order. *)
Definition names (l : path_cost_line) (a1 a2 : Z) : Prop :=
  (as1 l = a1 ∧ as2 l = a2) ∨ (as1 l = a2 ∧ as2 l = a1).
#[export] Instance names_dec l a1 a2 : Decision (names l a1 a2).
Proof. unfold names. apply _. Defined.

(** The cost of the first line with a property. *)
Fixpoint first_cost (P : path_cost_line → Prop) `{∀ l, Decision (P l)} (lines : list path_cost_line) : option Z :=
  match lines with
  | [] => None
  | l :: lines' => if decide (P l) then Some (to_int (cost l)) else first_cost P lines'
  end.

Lemma lines_lookup lines m key :
  foldl wiser_static_path_costs_line m lines !! key =
    match m !! key with Some c => Some c | None => first_cost (λ l, line_key l = key) lines end.
Proof.
  revert m. induction lines as [|l lines IH]; intros m; cbn [foldl first_cost]; [by destruct (m !! key)|].
  rewrite IH. unfold wiser_static_path_costs_line. fold (line_key l).
  destruct (m !! line_key l) eqn:El; destruct (decide (line_key l = key)) as [<-|Hne]; rewrite ?El; try done.
  - by rewrite lookup_insert_eq.
  - by rewrite lookup_insert_ne.
Qed.

Lemma first_cost_ext (P Q : path_cost_line → Prop) `{∀ l, Decision (P l)} `{∀ l, Decision (Q l)} lines :
  Forall (λ l, P l ↔ Q l) lines → first_cost P lines = first_cost Q lines.
Proof.
  induction 1 as [|l lines Hl _ IH]; cbn [first_cost]; [done|].
  destruct (decide (P l)), (decide (Q l)); naive_solver.
Qed.

Lemma first_cost_none (P : path_cost_line → Prop) `{∀ l, Decision (P l)} lines :
  Forall (λ l, ¬ P l) lines → first_cost P lines = None.
Proof. induction 1; cbn [first_cost]; [done|]. by rewrite decide_False. Qed.

Lemma names_key l a1 a2 :
  line_ok l → 0 <= a1 < 2 ^ 32 → 0 <= a2 < 2 ^ 32 →
  line_key l = Z.min a1 a2 * 2 ^ 32 + Z.max a1 a2 ↔ names l a1 a2.
Proof. intros Hl H1 H2. rewrite line_key_value by done. destruct Hl. unfold names. lia. Qed.

(** C34. The cost of a link: for AS numbers below 2^31, [wiser_get_path_cost] is
    the cost of the first configured line that names the two ASes, in either
    order, and 32767 if there is none.  A link with a larger AS number never finds
    its line: the numbers are converted to [int] for the look-up only. *)
Theorem wiser_get_path_cost_correct lines a1 a2 :
  Forall line_ok lines → 0 <= a1 < 2 ^ 32 → 0 <= a2 < 2 ^ 32 →
  (a1 < 2 ^ 31 → a2 < 2 ^ 31 →
     wiser_get_path_cost (wiser_static_path_costs_init lines) a1 a2
       = default INT16_MAX (first_cost (λ l, names l a1 a2) lines)) ∧
  (2 ^ 31 <= a1 ∨ 2 ^ 31 <= a2 → Forall (λ l, ¬ names l (2 ^ 32 - 1) (2 ^ 32 - 1)) lines →
     wiser_get_path_cost (wiser_static_path_costs_init lines) a1 a2 = INT16_MAX).
Proof.
  intros Hl H1 H2. unfold wiser_get_path_cost, wiser_static_path_costs_init. rewrite lines_lookup, lookup_empty.
  split.
  - intros S1 S2. rewrite !to_int_small by done.
    rewrite (first_cost_ext _ (λ l, names l a1 a2)); [by destruct (first_cost _ _)|].
    eapply Forall_impl; [exact Hl|]. intros l Hlok. rewrite <-names_key by done.
    pose proof (as_pair_value (Z.min a1 a2) (Z.max a1 a2) 0) as Ea. rewrite Z.mul_0_l, Z.sub_0_r in Ea.
    by rewrite Ea by lia.
  - intros Hbig Hno. rewrite first_cost_none; [done|].
    rewrite Forall_forall in *. intros l Hin E. specialize (Hl l Hin). specialize (Hno l Hin).
    rewrite line_key_value in E by done. rewrite <-names_key in Hno by (done || lia).
    rewrite line_key_value in Hno by done. destruct Hl as [Hl1 Hl2].
    assert (to_int a1 = a1 - (if 2 ^ 31 <=? a1 then 2 ^ 32 else 0)) as T1 by (unfold to_int; destruct (_ <=? a1); lia).
    assert (to_int a2 = a2 - (if 2 ^ 31 <=? a2 then 2 ^ 32 else 0)) as T2 by (unfold to_int; destruct (_ <=? a2); lia).
    rewrite T1, T2 in E. destruct (Z.leb_spec (2 ^ 31) a1) as [B1|B1], (Z.leb_spec (2 ^ 31) a2) as [B2|B2]; [| | |lia].
    + rewrite Z.sub_min_distr_r, Z.sub_max_distr_r in E.
      pose proof (as_pair_negative (Z.min a1 a2) (Z.max a1 a2) 1) as Ea. rewrite Z.mul_1_l in Ea.
      rewrite Ea in E by lia. lia.
    + rewrite Z.sub_0_r, (Z.min_l (a1 - 2 ^ 32) a2), (Z.max_r (a1 - 2 ^ 32) a2) in E by lia.
      pose proof (as_pair_value a1 a2 1) as Ea. rewrite Z.mul_1_l in Ea. rewrite Ea in E by lia. lia.
    + rewrite Z.sub_0_r, (Z.min_r a1 (a2 - 2 ^ 32)), (Z.max_l a1 (a2 - 2 ^ 32)) in E by lia.
      pose proof (as_pair_value a2 a1 1) as Ea. rewrite Z.mul_1_l in Ea. rewrite Ea in E by lia. lia.
Qed.

Lemma wiser_get_path_cost_correct_witness :
  let lines := [{| as1 := 7018; as2 := 3356; cost := 5 |}; {| as1 := 3356; as2 := 7018; cost := 9 |};
                {| as1 := 1; as2 := 4200000000; cost := 7 |}] in
  wiser_get_path_cost (wiser_static_path_costs_init lines) 3356 7018 = 5 ∧
  wiser_get_path_cost (wiser_static_path_costs_init lines) 1 4200000000 = 32767.
Proof.
  intros lines. assert (Forall line_ok lines) as Hl by (repeat constructor; done).
  destruct (wiser_get_path_cost_correct lines 3356 7018 Hl) as [H1 _]; [lia..|].
  destruct (wiser_get_path_cost_correct lines 1 4200000000 Hl) as [_ H2]; [lia..|].
  split.
  - rewrite H1 by lia. vm_compute. reflexivity.
  - rewrite H2; [reflexivity|right; lia|]. repeat constructor; intros [[E _]|[E _]]; vm_compute in E; discriminate.
Defined.

(** A store with a shared attribute at 1 and a new one at 2, whose messages are
    2^32 bytes apart. *)
Lemma collision_store :
  ∃ st, pool_ok tarpan_hash_make tarpan_cmp (tarpans st) ∧
    objs (tarpans st) = {[1%positive := Obj 1 4096; 2%positive := Obj 0 (4096 + 2 ^ 32)]} ∧
    msgs st = {[4096 := new_message; 4096 + 2 ^ 32 := set_wiser new_message wiser_new_default]}.
Proof.
  set (m0 := {[1%positive := Obj 0 4096; 2%positive := Obj 0 (4096 + 2 ^ 32)]} : gmap loc (obj Z)).
  assert (map_Forall (λ _ o, refcnt o = 0) m0) as Hm by (apply map_Forall_insert_2, map_Forall_singleton; done).
  destruct (unshared_pool tarpan_hash_make tarpan_cmp m0 Hm) as (h & HP & Hs).
  destruct (intern_new tarpan_hash_make tarpan_cmp (Pool m0 h) 1 4096 HP) as (P' & E & HP' & Eo).
  - done.
  - cbn [table]. by rewrite Hs.
  - intros c o Ho Hr. by apply Hm in Ho.
  - eexists (Store P' _). cbn [tarpans msgs]. split_and!; [done| |done]. rewrite Eo. cbn [objs]. unfold m0.
    by rewrite insert_insert_eq.
Qed.

Lemma tarpan_intern_by_address_witness :
  ∃ st st' : store, objs (tarpans st) !! 2%positive = Some (Obj 0 (4096 + 2 ^ 32)) ∧
    tarpan_intern st 2 = Ok (st', 1%positive) ∧ message st' 1 = Ok 4096.
Proof.
  destruct collision_store as (st & HP & Eo & Em). exists st.
  destruct (tarpan_intern_by_address st 2 (4096 + 2 ^ 32) (set_wiser new_message wiser_new_default)) as [_ Hc].
  - exact HP.
  - rewrite Eo. reflexivity.
  - discriminate.
  - rewrite Em. reflexivity.
  - destruct (Hc 1%positive (Obj 1 4096)) as (st' & E & _ & Emsg & _).
    + rewrite Eo. split; [reflexivity|discriminate].
    + reflexivity.
    + reflexivity.
    + exists st'. rewrite Eo. split; [reflexivity|]. split; [exact E|exact Emsg].
Defined.

(** ** Forwarding *)

Section forwarding.
Context (pack : TarpanMsg → list Z) (unpack : list Z → option TarpanMsg).
(** What the protobuf library documents: a packed message unpacks to itself. *)
Hypothesis unpack_pack : ∀ msg, unpack (pack msg) = Some msg.

(** Forwarding a route: the attribute that is sent is a copy at a new
    address, with the accumulated cost and the local speaker as its sender; the
    message of the route itself is not touched, and the cost is added to what was
    advertised to the peer. *)
Theorem tarpan_update_packet_copies c st p a a' m m' msg w n :
  objs (tarpans st) !! a = Some (Obj n m) → m ≠ 0 → msgs st !! m = Some msg → wiser msg = Some w →
  objs (tarpans st) !! a' = None → m' ≠ 0 → msgs st !! m' = None →
  ∃ c' st', tarpan_update_packet pack unpack (Some wiser_update_packet) c st p a a' m' = Ok (c', st') ∧
    message st' a' = Ok m' ∧
    msgs st' = <[m':=set_wiser msg {| path_cost := path_cost w; sender_as := self_as p; sender_address := router_id p |}]> (msgs st) ∧
    (∀ b, b ≠ a' → objs (tarpans st') !! b = objs (tarpans st) !! b) ∧
    c' = update_sent_cost c (peer_as p) (path_cost w).
Proof.
  intros Ha Hm Hmsg Hw Ha' Hm' Hfree.
  assert (a ≠ a') as Hne by (intros ->; congruence). assert (m ≠ m') as Hnm by (intros ->; congruence).
  unfold tarpan_update_packet, tarpan_copy, message, load_obj. rewrite Ha. cbn [of_opt mbind M_bind val].
  rewrite (proj2 (Z.eqb_neq m 0)) by done. unfold load_msg. cbn [tarpan_new msgs]. rewrite Hmsg.
  cbn [of_opt mbind M_bind]. rewrite unpack_pack.
  unfold set_message, load_obj. cbn [tarpan_new set_msg tarpans objs]. rewrite lookup_insert_eq.
  cbn [of_opt mbind M_bind refcnt tarpans objs table msgs].
  unfold wiser_update_packet, message, load_obj, load_msg. cbn [tarpans objs msgs]. rewrite insert_insert_eq. rewrite lookup_insert_eq.
  cbn [of_opt mbind M_bind val set_msg tarpan_new msgs]. rewrite lookup_insert_eq. cbn [of_opt mbind M_bind]. rewrite Hw.
  eexists _, _. split; [done|]. cbn [set_msg tarpans objs msgs]. rewrite lookup_insert_eq. split_and!; try done.
  - by rewrite insert_insert_eq.
  - intros b Hb. by rewrite lookup_insert_ne.
Qed.
End forwarding.

(** A packing that meets the hypothesis. *)
Definition pack_example (msg : TarpanMsg) : list Z :=
  version msg :: match wiser msg with None => [0] | Some w => [1; path_cost w; sender_as w; sender_address w] end
    ++ match pathlets msg with None => [0] | Some l => 1 :: l end.
Definition unpack_example (b : list Z) : option TarpanMsg :=
  let rest v w b := match b with
    | 0 :: _ => Some {| version := v; wiser := w; pathlets := None |}
    | _ :: l => Some {| version := v; wiser := w; pathlets := Some l |}
    | [] => None
    end in
  match b with
  | v :: 0 :: b => rest v None b
  | v :: _ :: c :: s :: a :: b => rest v (Some {| path_cost := c; sender_as := s; sender_address := a |}) b
  | _ => None
  end.

Lemma tarpan_update_packet_copies_witness :
  let st := Store (Pool {[1%positive := Obj 1 4096]} (Hash [] 0 false 0))
              {[4096 := set_wiser new_message {| path_cost := 3; sender_as := 5; sender_address := 6 |}]} in
  ∃ c' st', tarpan_update_packet pack_example unpack_example (Some wiser_update_packet) (Costs ∅ ∅ ∅ []) st
      {| peer_as := 70; self_as := 80; router_id := 9 |} 1 2 8192 = Ok (c', st') ∧
    message st' 2 = Ok 8192 ∧
    msgs st' !! 8192 = Some (set_wiser new_message {| path_cost := 3; sender_as := 80; sender_address := 9 |}) ∧
    advcost_sent c' !! 70 = Some 3.
Proof.
  intros st.
  destruct (tarpan_update_packet_copies pack_example unpack_example
    ltac:(by intros [v [[c s a]|] [l|]]) (Costs ∅ ∅ ∅ []) st
    {| peer_as := 70; self_as := 80; router_id := 9 |} 1%positive 2%positive 4096 8192
    (set_wiser new_message {| path_cost := 3; sender_as := 5; sender_address := 6 |})
    {| path_cost := 3; sender_as := 5; sender_address := 6 |} 1) as (c' & st' & E & Em & Es & _ & Ec); try reflexivity.
  - discriminate.
  - discriminate.
  - exists c', st'. split; [exact E|]. split; [exact Em|]. rewrite Es, Ec. split; reflexivity.
Defined.
