(* ===== verification/Decision.v ===== *)
(** Route selection: bgpd/bgp_route.c ([bgp_med_value], [bgp_info_cmp],
    [bgp_best_selection]), bgpd/wiser.cpp ([wiser_info_cmp]) and lib/sockunion.c
    ([sockunion_cmp]).

    The routes of a prefix are the list [rn->info] of addresses and
    [struct bgp_info] values.  IPv4 addresses are their four bytes in network
    order, so [ntohl] is [be_value]. *)
From S2P Require Import Prelude Prefix Hash ASPath Tarpan.
Open Scope Z_scope.

(** ** Data *)

Definition BGP_FLAG_ALWAYS_COMPARE_MED : Z := 1.
Definition BGP_FLAG_DETERMINISTIC_MED : Z := 2.
Definition BGP_FLAG_MED_MISSING_AS_WORST : Z := 4.
Definition BGP_FLAG_MED_CONFED : Z := 8.
Definition BGP_FLAG_COMPARE_ROUTER_ID : Z := 128.
Definition BGP_FLAG_ASPATH_IGNORE : Z := 256.
Definition BGP_FLAG_ASPATH_CONFED : Z := 8192.
Definition BGP_FLAG_ASPATH_MULTIPATH_RELAX : Z := 16384.

Definition BGP_INFO_DAMPED : Z := 2.
Definition BGP_INFO_HISTORY : Z := 4.
Definition BGP_INFO_SELECTED : Z := 8.
Definition BGP_INFO_VALID : Z := 16.
Definition BGP_INFO_DMED_CHECK : Z := 64.
Definition BGP_INFO_DMED_SELECTED : Z := 128.
Definition BGP_INFO_REMOVED : Z := 512.
Definition BGP_INFO_UNUSEABLE : Z := Z.lor (Z.lor BGP_INFO_HISTORY BGP_INFO_DAMPED) BGP_INFO_REMOVED.

Definition BGP_ROUTE_NORMAL : Z := 0.
Definition BGP_MED_MAX : Z := 2 ^ 32 - 1.
Definition BGP_DEFAULT_MAXPATHS : Z := 1.

Definition ATTR_FLAG_BIT (x : Z) : Z := Z.shiftl 1 (x - 1).
Definition BGP_ATTR_MULTI_EXIT_DISC : Z := 4.
Definition BGP_ATTR_LOCAL_PREF : Z := 5.
Definition BGP_ATTR_ORIGINATOR_ID : Z := 9.
Definition BGP_ATTR_CLUSTER_LIST : Z := 10.

(** [enum bgp_peer_sort]; [BGP_PEER_UNSPECIFIED] stands for 0. *)
Inductive bgp_peer_sort := BGP_PEER_UNSPECIFIED | BGP_PEER_IBGP | BGP_PEER_EBGP | BGP_PEER_INTERNAL | BGP_PEER_CONFED.
#[export] Instance bgp_peer_sort_eq_dec : EqDecision bgp_peer_sort.
Proof. solve_decision. Defined.

Record sockunion := SockUnion { sa_family : Z; sin_addr : list Z }.

Record attr_extra := AttrExtra {
  weight : Z;
  originator_id : list Z;
  cluster : option Z;    (* [cluster->length] *)
}.
Record attr := Attr {
  flag : Z;
  origin : Z;
  med : Z;
  local_pref : Z;
  attr_aspath : ASPath.aspath;
  attr_tarpan : option loc;
  extra : option attr_extra;
}.
Record peer := Peer {
  sort : bgp_peer_sort;
  as_ : Z;
  remote_id : list Z;
  su_remote : option sockunion;
}.
Record bgp_info := Info {
  info_attr : attr;
  info_peer : peer;
  sub_type : Z;
  flags : Z;
  igpmetric : option Z;   (* of [extra], which may be missing *)
}.
Record bgp := Bgp { bgp_flags : Z; default_local_pref : Z }.

Definition bgp_flag_check (b : bgp) (f : Z) : bool := CHECK_FLAG (bgp_flags b) f.

(** ** Comparison *)

Fixpoint in6addr_cmp (p1 p2 : list Z) : Z :=
  match p1, p2 with
  | a :: p1', b :: p2' => if b <? a then 1 else if a <? b then -1 else in6addr_cmp p1' p2'
  | _, _ => 0
  end.

Definition sockunion_cmp (su1 su2 : sockunion) : Z :=
  if sa_family su2 <? sa_family su1 then 1
  else if sa_family su1 <? sa_family su2 then -1
  else if sa_family su1 =? AF_INET then
    if be_value (sin_addr su1) =? be_value (sin_addr su2) then 0
    else if be_value (sin_addr su2) <? be_value (sin_addr su1) then 1 else -1
  else if sa_family su1 =? AF_INET6 then in6addr_cmp (sin_addr su1) (sin_addr su2)
  else 0.

Definition bgp_med_value (a : attr) (b : bgp) : Z :=
  if CHECK_FLAG (flag a) (ATTR_FLAG_BIT BGP_ATTR_MULTI_EXIT_DISC) then med a
  else if bgp_flag_check b BGP_FLAG_MED_MISSING_AS_WORST then BGP_MED_MAX else 0.

(** One step of the comparison: the new route wins if its value is smaller, the
    old one if it is larger. *)
Notation "'smaller!' x 'than' y ';;' k" :=
  (if x <? y then Ok (true, false) else if y <? x then Ok (false, false) else k)
  (at level 100, x at next level, y at next level, k at level 200, right associativity).
(** The same with the larger value winning. *)
Notation "'larger!' x 'than' y ';;' k" :=
  (if y <? x then Ok (true, false) else if x <? y then Ok (false, false) else k)
  (at level 100, x at next level, y at next level, k at level 200, right associativity).

(** Steps 1 to 3: weight, local preference, local routes. *)
Definition weight_of (a : attr) : Z := match extra a with Some e => weight e | None => 0 end.
Definition pref_of (b : bgp) (a : attr) : Z :=
  if CHECK_FLAG (flag a) (ATTR_FLAG_BIT BGP_ATTR_LOCAL_PREF) then local_pref a else default_local_pref b.

(** Step 4: the length of the AS path. *)
Definition path_length (b : bgp) (a : attr) : Z :=
  if bgp_flag_check b BGP_FLAG_ASPATH_CONFED
  then aspath_count_hops (attr_aspath a) + aspath_count_confeds (attr_aspath a)
  else aspath_count_hops (attr_aspath a).

(** Step 6: are the MED values comparable?  The tests are evaluated from left to
    right until one succeeds. *)
Definition med_comparable (b : bgp) (new exist : attr) : M bool :=
  let p1 := attr_aspath new in
  let p2 := attr_aspath exist in
  let internal_as_route := (aspath_count_hops p1 =? 0) && (aspath_count_hops p2 =? 0) in
  let confed_as_route := (0 <? aspath_count_confeds p1) && (0 <? aspath_count_confeds p2)
                         && (aspath_count_hops p1 =? 0) && (aspath_count_hops p2 =? 0) in
  if bgp_flag_check b BGP_FLAG_ALWAYS_COMPARE_MED || (bgp_flag_check b BGP_FLAG_MED_CONFED && confed_as_route)
  then Ok true
  else
    left ← aspath_cmp_left (Some p1) (Some p2);
    if left : bool then Ok true
    else
      leftc ← aspath_cmp_left_confed (Some p1) (Some p2);
      if leftc : bool then Ok true else Ok internal_as_route.

Definition metric_of (r : bgp_info) : Z := default 0 (igpmetric r).

(** Step 9: may the two be used together? *)
Definition equal_paths (b : bgp) (new exist : bgp_info) : bool :=
  if bgp_flag_check b BGP_FLAG_ASPATH_MULTIPATH_RELAX then true
  else if bool_decide (sort (info_peer new) = BGP_PEER_IBGP)
  then ASPath.aspath_cmp (segments (attr_aspath (info_attr new))) (segments (attr_aspath (info_attr exist)))
  else as_ (info_peer new) =? as_ (info_peer exist).

(** Step 11: the router id, from the ORIGINATOR_ID attribute if there is one. *)
Definition router_id_of (r : bgp_info) : M (list Z) :=
  if CHECK_FLAG (flag (info_attr r)) (ATTR_FLAG_BIT BGP_ATTR_ORIGINATOR_ID)
  then e ← of_opt (extra (info_attr r)); Ok (originator_id e)
  else Ok (remote_id (info_peer r)).

(** Step 12: the length of the cluster list. *)
Definition cluster_of (a : attr) : M Z :=
  if CHECK_FLAG (flag a) (ATTR_FLAG_BIT BGP_ATTR_CLUSTER_LIST)
  then e ← of_opt (extra a); of_opt (cluster e)
  else Ok 0.

(** Steps 10 to 13, with the result of step 9. *)
Definition tie_break (b : bgp) (new exist : bgp_info) (paths_eq : bool) : M (bool * bool) :=
  let both_external := bool_decide (sort (info_peer new) = BGP_PEER_EBGP) && bool_decide (sort (info_peer exist) = BGP_PEER_EBGP) in
  let oldest := negb (bgp_flag_check b BGP_FLAG_COMPARE_ROUTER_ID) && both_external in
  if oldest && CHECK_FLAG (flags new) BGP_INFO_SELECTED then Ok (true, paths_eq) else
  if oldest && CHECK_FLAG (flags exist) BGP_INFO_SELECTED then Ok (false, paths_eq) else
  new_id ← router_id_of new;
  exist_id ← router_id_of exist;
  if be_value new_id <? be_value exist_id then Ok (true, paths_eq) else
  if be_value exist_id <? be_value new_id then Ok (false, paths_eq) else
  new_cluster ← cluster_of (info_attr new);
  exist_cluster ← cluster_of (info_attr exist);
  if new_cluster <? exist_cluster then Ok (true, paths_eq) else
  if exist_cluster <? new_cluster then Ok (false, paths_eq) else
  su1 ← of_opt (su_remote (info_peer new));
  su2 ← of_opt (su_remote (info_peer exist));
  Ok (negb (sockunion_cmp su1 su2 =? 1), paths_eq).

(** Steps 4 to 13, common to the two comparisons. *)
Definition compare_paths (b : bgp) (new exist : bgp_info) : M (bool * bool) :=
  let newattr := info_attr new in
  let existattr := info_attr exist in
  let from_origin :=
    smaller! origin newattr than origin existattr ;;
    comparable ← med_comparable b newattr existattr;
    let from_sort :=
      let new_sort := sort (info_peer new) in
      let exist_sort := sort (info_peer exist) in
      let internal s := bool_decide (s = BGP_PEER_IBGP) || bool_decide (s = BGP_PEER_CONFED) in
      if bool_decide (new_sort = BGP_PEER_EBGP) && internal exist_sort then Ok (true, false) else
      if bool_decide (exist_sort = BGP_PEER_EBGP) && internal new_sort then Ok (false, false) else
      smaller! metric_of new than metric_of exist ;;
      tie_break b new exist (equal_paths b new exist) in
    if comparable : bool
    then smaller! bgp_med_value newattr b than bgp_med_value existattr b ;; from_sort
    else from_sort in
  if bgp_flag_check b BGP_FLAG_ASPATH_IGNORE then from_origin
  else smaller! path_length b newattr than path_length b existattr ;; from_origin.

(** The results are the return value and [paths_eq]. *)
Definition bgp_info_cmp (b : bgp) (new exist : option bgp_info) : M (bool * bool) :=
  match new, exist with
  | None, _ => Ok (false, false)
  | Some _, None => Ok (true, false)
  | Some new, Some old =>
      larger! weight_of (info_attr new) than weight_of (info_attr old) ;;
      larger! pref_of b (info_attr new) than pref_of b (info_attr old) ;;
      if negb (sub_type new =? BGP_ROUTE_NORMAL) then Ok (true, false) else
      if negb (sub_type old =? BGP_ROUTE_NORMAL) then Ok (false, false) else
      compare_paths b new old
  end.

(** The Wiser cost of a route: [None] if a pointer on the way to it is null. *)
Definition wiser_of (st : store) (a : attr) : M (option Wiser) :=
  match attr_tarpan a with
  | None => Ok None
  | Some t =>
      m ← message st t;
      if m =? 0 then Ok None else msg ← load_msg st m; Ok (wiser msg)
  end.

Definition wiser_info_cmp (st : store) (b : bgp) (new exist : option bgp_info) : M (bool * bool) :=
  match new, exist with
  | None, _ => Ok (false, false)
  | Some _, None => Ok (true, false)
  | Some new, Some old =>
      larger! weight_of (info_attr new) than weight_of (info_attr old) ;;
      larger! pref_of b (info_attr new) than pref_of b (info_attr old) ;;
      if negb (sub_type new =? BGP_ROUTE_NORMAL) then Ok (true, false) else
      if negb (sub_type old =? BGP_ROUTE_NORMAL) then Ok (false, false) else
      w1 ← wiser_of st (info_attr new);
      match w1 with
      | None => compare_paths b new old
      | Some w1 =>
          w2 ← wiser_of st (info_attr old);
          match w2 with
          | None => compare_paths b new old
          | Some w2 => Ok (path_cost w1 <? path_cost w2, false)
          end
      end
  end.

(** ** Selection *)

(** Calls into the multipath code (bgp_mpath.c) and the release of a route, in
    the order in which they happen. *)
Inductive event :=
  | mp_list_add (ri : loc)
  | mp_list_clear
  | mpath_update (new_best : option loc) (old_best : option loc)
  | mp_dmed_deselect (dmed_best : option loc)
  | mpath_aggregate_update (new_best old_best : option loc)
  | reap (ri : loc).

(** [rn->info] as the order of the routes and their contents. *)
Record rnode := Rn { order : list loc; infos : gmap loc bgp_info; trace : list event }.

Definition load (rn : rnode) (ri : loc) : M bgp_info := of_opt (infos rn !! ri).
Definition emit (rn : rnode) (e : event) : rnode := Rn (order rn) (infos rn) (trace rn ++ [e]).
Definition emit_if (c : bool) (rn : rnode) (e : event) : rnode := if c then emit rn e else rn.

Definition BGP_INFO_HOLDDOWN (r : bgp_info) : bool :=
  negb (CHECK_FLAG (flags r) BGP_INFO_VALID) || CHECK_FLAG (flags r) BGP_INFO_UNUSEABLE.

Definition with_flags (r : bgp_info) (f : Z) : bgp_info :=
  Info (info_attr r) (info_peer r) (sub_type r) f (igpmetric r).

(** [bgp_info_set_flag] and [bgp_info_unset_flag] for the two DMED flags.  They do
    not change whether the route is usable, so both return before the prefix count
    is adjusted. *)
Definition set_dmed_flag (rn : rnode) (ri : loc) (f : Z) : M rnode :=
  r ← load rn ri;
  Ok (Rn (order rn) (<[ri:=with_flags r (Z.lor (flags r) f)]> (infos rn)) (trace rn)).
Definition unset_dmed_flag (rn : rnode) (ri : loc) (f : Z) : M rnode :=
  r ← load rn ri;
  Ok (Rn (order rn) (<[ri:=with_flags r (Z.ldiff (flags r) f)]> (infos rn)) (trace rn)).

(** [bgp_info_reap] as the list sees it; the release of the route is an event. *)
Definition take_off (rn : rnode) (ri : loc) : rnode :=
  emit (Rn (filter (λ x, x ≠ ri) (order rn)) (infos rn) (trace rn)) (reap ri).

Section selection.
Context (b : bgp) (do_mpath : bool).

(** The loop over [ri2]. *)
Fixpoint dmed_inner (rn : rnode) (ri1 new_select : loc) (old_select : option loc) (rest : list loc)
    : M (rnode * loc * option loc) :=
  match rest with
  | [] => Ok (rn, new_select, old_select)
  | ri2 :: rest' =>
      r2 ← load rn ri2;
      if CHECK_FLAG (flags r2) BGP_INFO_DMED_CHECK || BGP_INFO_HOLDDOWN r2
      then dmed_inner rn ri1 new_select old_select rest'
      else
        r1 ← load rn ri1;
        let p1 := Some (attr_aspath (info_attr r1)) in
        let p2 := Some (attr_aspath (info_attr r2)) in
        left ← aspath_cmp_left p1 p2;
        same ← (if left : bool then Ok true else aspath_cmp_left_confed p1 p2);
        if negb same then dmed_inner rn ri1 new_select old_select rest'
        else
          let old_select := if CHECK_FLAG (flags r2) BGP_INFO_SELECTED then Some ri2 else old_select in
          n ← load rn new_select;
          '(ret, paths_eq) ← bgp_info_cmp b (Some r2) (Some n);
          '(rn, new_select) ←
            (if ret : bool then
               rn ← unset_dmed_flag rn new_select BGP_INFO_DMED_SELECTED;
               let rn := emit_if (do_mpath && negb paths_eq) rn mp_list_clear in
               Ok (emit_if (do_mpath && negb paths_eq) rn (mp_list_add ri2), ri2)
             else Ok (rn, new_select));
          let rn := emit_if (do_mpath && paths_eq) rn (mp_list_add ri2) in
          rn ← set_dmed_flag rn ri2 BGP_INFO_DMED_CHECK;
          dmed_inner rn ri1 new_select old_select rest'
  end.

(** The loop over [ri1]. *)
Fixpoint dmed_outer (rn : rnode) (ids : list loc) : M rnode :=
  match ids with
  | [] => Ok rn
  | ri1 :: rest =>
      r1 ← load rn ri1;
      if CHECK_FLAG (flags r1) BGP_INFO_DMED_CHECK || BGP_INFO_HOLDDOWN r1 then dmed_outer rn rest
      else
        let rn := emit_if do_mpath rn (mp_list_add ri1) in
        let old_select := if CHECK_FLAG (flags r1) BGP_INFO_SELECTED then Some ri1 else None in
        '(rn, new_select, old_select) ← dmed_inner rn ri1 ri1 old_select rest;
        rn ← set_dmed_flag rn new_select BGP_INFO_DMED_CHECK;
        rn ← set_dmed_flag rn new_select BGP_INFO_DMED_SELECTED;
        let rn := emit rn (mpath_update (Some new_select) old_select) in
        dmed_outer (emit rn mp_list_clear) rest
  end.

(** The comparison in use: that of the active protocol handler, if it has one. *)
Context (info_cmp : option bgp_info → option bgp_info → M (bool * bool)).

Definition load_opt (rn : rnode) (ri : option loc) : M (option bgp_info) :=
  match ri with None => Ok None | Some ri => r ← load rn ri; Ok (Some r) end.

(** The loop over all routes. *)
Fixpoint select_loop (rn : rnode) (ids : list loc) (old_select new_select : option loc)
    : M (rnode * option loc * option loc) :=
  match ids with
  | [] => Ok (rn, old_select, new_select)
  | ri :: rest =>
      r ← load rn ri;
      let dmed := bgp_flag_check b BGP_FLAG_DETERMINISTIC_MED in
      let old_select := if CHECK_FLAG (flags r) BGP_INFO_SELECTED then Some ri else old_select in
      if BGP_INFO_HOLDDOWN r then
        let rn := if CHECK_FLAG (flags r) BGP_INFO_REMOVED && bool_decide (Some ri ≠ old_select)
                  then take_off rn ri else rn in
        select_loop rn rest old_select new_select
      else if dmed && negb (CHECK_FLAG (flags r) BGP_INFO_DMED_SELECTED) then
        rn ← unset_dmed_flag rn ri BGP_INFO_DMED_CHECK;
        select_loop rn rest old_select new_select
      else
        rn ← unset_dmed_flag rn ri BGP_INFO_DMED_CHECK;
        rn ← unset_dmed_flag rn ri BGP_INFO_DMED_SELECTED;
        r ← load rn ri;
        n ← load_opt rn new_select;
        '(ret, paths_eq) ← info_cmp (Some r) n;
        let '(rn, new_select) :=
          if ret : bool then
            let rn := emit_if (do_mpath && dmed) rn (mp_dmed_deselect new_select) in
            let rn := emit_if (do_mpath && negb paths_eq) rn mp_list_clear in
            (emit_if (do_mpath && negb paths_eq) rn (mp_list_add ri), Some ri)
          else (emit_if (do_mpath && dmed) rn (mp_dmed_deselect (Some ri)), new_select) in
        select_loop (emit_if (do_mpath && paths_eq) rn (mp_list_add ri)) rest old_select new_select
  end.
End selection.

(** [maxpaths_ebgp] and [maxpaths_ibgp] of the configuration; the result is the
    pair of the old and the new best route. *)
Definition bgp_best_selection (b : bgp) (info_cmp : option bgp_info → option bgp_info → M (bool * bool))
    (maxpaths_ebgp maxpaths_ibgp : Z) (rn : rnode) : M (rnode * option loc * option loc) :=
  let do_mpath := negb (maxpaths_ebgp =? BGP_DEFAULT_MAXPATHS) || negb (maxpaths_ibgp =? BGP_DEFAULT_MAXPATHS) in
  let dmed := bgp_flag_check b BGP_FLAG_DETERMINISTIC_MED in
  rn ← (if dmed then dmed_outer b do_mpath rn (order rn) else Ok rn);
  '(rn, old_select, new_select) ← select_loop b do_mpath info_cmp rn (order rn) None None;
  let rn := emit_if (negb dmed) rn (mpath_update new_select old_select) in
  let rn := emit rn (mpath_aggregate_update new_select old_select) in
  Ok (emit rn mp_list_clear, old_select, new_select).
