(* ===== verification/DecisionSpec.v ===== *)
(** Correctness of route selection (Decision.v): the comparison as an order on
    routes, and the route that is selected. *)
From S2P Require Import Prelude Prefix Hash ASPath Tarpan Decision.
Open Scope Z_scope.

(** ** Lexicographic order *)

Fixpoint lexb (l1 l2 : list Z) : bool :=
  match l1, l2 with
  | a :: l1', b :: l2' => if a <? b then true else if b <? a then false else lexb l1' l2'
  | _, _ => true
  end.

Lemma lexb_refl l : lexb l l = true.
Proof. induction l as [|a l IH]; cbn [lexb]; [done|]. by rewrite Z.ltb_irrefl. Qed.

Lemma lexb_total l1 l2 : lexb l1 l2 = false → lexb l2 l1 = true.
Proof.
  revert l2. induction l1 as [|a l1 IH]; intros [|b l2]; cbn [lexb]; try done.
  destruct (Z.ltb_spec a b), (Z.ltb_spec b a); try done; try lia. apply IH.
Qed.

Lemma lexb_trans l1 l2 l3 :
  length l1 = length l2 → length l2 = length l3 → lexb l1 l2 = true → lexb l2 l3 = true → lexb l1 l3 = true.
Proof.
  revert l2 l3. induction l1 as [|a l1 IH]; intros [|b l2] [|c l3]; cbn [lexb length]; try done.
  intros [= L1] [= L2]. destruct (Z.ltb_spec a b), (Z.ltb_spec b a), (Z.ltb_spec b c), (Z.ltb_spec c b),
    (Z.ltb_spec a c), (Z.ltb_spec c a); try done; try lia. eauto.
Qed.

(** ** Ranks *)

Definition su_ok (su : sockunion) : Prop :=
  ((sa_family su = AF_INET ∧ length (sin_addr su) = 4%nat) ∨ (sa_family su = AF_INET6 ∧ length (sin_addr su) = 16%nat)) ∧
  bytes_ok (sin_addr su).

Definition is_ok {A} (m : M A) : Prop := ∃ a, m = Ok a.

(** A route that the comparison can look at: from a configured peer, with the
    attributes its flags announce. *)
Definition route_ok (r : bgp_info) : Prop :=
  sort (info_peer r) ∈ [BGP_PEER_IBGP; BGP_PEER_EBGP; BGP_PEER_CONFED] ∧
  is_ok (router_id_of r) ∧ is_ok (cluster_of (info_attr r)) ∧
  ∃ su, su_remote (info_peer r) = Some su ∧ su_ok su.

Definition get_ok {A} (d : A) (m : M A) : A := match m with Ok a => a | Fault _ => d end.

(** The criteria in the order in which they count; smaller is better. *)
Definition path_rank (b : bgp) (r : bgp_info) : list Z :=
  let su := default (SockUnion 0 []) (su_remote (info_peer r)) in
  [ if bgp_flag_check b BGP_FLAG_ASPATH_IGNORE then 0 else path_length b (info_attr r);
    origin (info_attr r);
    bgp_med_value (info_attr r) b;
    if bool_decide (sort (info_peer r) = BGP_PEER_EBGP) then 0 else 1;
    metric_of r;
    be_value (get_ok [] (router_id_of r));
    get_ok 0 (cluster_of (info_attr r));
    sa_family su;
    be_value (sin_addr su) ].

Definition rank (b : bgp) (r : bgp_info) : list Z :=
  - weight_of (info_attr r) :: - pref_of b (info_attr r) ::
  (if sub_type r =? BGP_ROUTE_NORMAL then 1 :: path_rank b r else replicate 10 0).

Lemma length_rank b r : length (rank b r) = 12%nat.
Proof. unfold rank. by destruct (sub_type r =? _). Qed.

Lemma in6addr_cmp_value p1 p2 :
  length p1 = length p2 → bytes_ok p1 → bytes_ok p2 →
  in6addr_cmp p1 p2 = if be_value p2 <? be_value p1 then 1 else if be_value p1 <? be_value p2 then -1 else 0.
Proof.
  revert p2. induction p1 as [|a p1 IH]; intros [|b p2] L H1 H2; try done.
  injection L as L. apply Forall_cons in H1 as [Ha H1], H2 as [Hb H2].
  cbn [in6addr_cmp be_value]. rewrite <-L, (IH p2) by done.
  pose proof (be_value_bound p1 H1). pose proof (be_value_bound p2 H2). rewrite <-L in *.
  set (w := 2 ^ (8 * Z.of_nat (length p1))) in *. assert (0 < w) by (apply Z.pow_pos_nonneg; lia).
  unfold is_byte in *.
  destruct (Z.ltb_spec b a); [rewrite (proj2 (Z.ltb_lt _ _)) by nia; done|].
  destruct (Z.ltb_spec a b); [rewrite (proj2 (Z.ltb_ge _ _)) by nia; rewrite (proj2 (Z.ltb_lt _ _)) by nia; done|].
  assert (a = b) as -> by lia.
  destruct (Z.ltb_spec (be_value p2) (be_value p1)), (Z.ltb_spec (be_value p1) (be_value p2)); try lia;
    destruct (Z.ltb_spec (b * w + be_value p2) (b * w + be_value p1)),
      (Z.ltb_spec (b * w + be_value p1) (b * w + be_value p2)); done || lia.
Qed.

Lemma sockunion_cmp_lex su1 su2 :
  su_ok su1 → su_ok su2 →
  negb (sockunion_cmp su1 su2 =? 1) = lexb [sa_family su1; be_value (sin_addr su1)] [sa_family su2; be_value (sin_addr su2)].
Proof.
  intros [H1 B1] [H2 B2]. unfold sockunion_cmp. cbn [lexb].
  destruct (Z.ltb_spec (sa_family su2) (sa_family su1)), (Z.ltb_spec (sa_family su1) (sa_family su2)); try done; try lia.
  assert (sa_family su1 = sa_family su2) as Ef by lia.
  destruct H1 as [[F1 L1]|[F1 L1]], H2 as [[F2 L2]|[F2 L2]]; rewrite F1, F2 in *; try done; cbn [Z.eqb AF_INET AF_INET6 Pos.eqb].
  - destruct (Z.eqb_spec (be_value (sin_addr su1)) (be_value (sin_addr su2))) as [->|]; [by rewrite Z.ltb_irrefl|].
    destruct (Z.ltb_spec (be_value (sin_addr su2)) (be_value (sin_addr su1))),
      (Z.ltb_spec (be_value (sin_addr su1)) (be_value (sin_addr su2))); done || lia.
  - rewrite in6addr_cmp_value by congruence || done.
    destruct (Z.ltb_spec (be_value (sin_addr su2)) (be_value (sin_addr su1))),
      (Z.ltb_spec (be_value (sin_addr su1)) (be_value (sin_addr su2))); done || lia.
Qed.

(** ** The comparison *)

Lemma ltb_opp x y : (- x <? - y) = (y <? x).
Proof. destruct (Z.ltb_spec (- x) (- y)), (Z.ltb_spec y x); done || lia. Qed.

(** The configuration in which every criterion is compared between every two
    routes. *)
Definition compares_all (b : bgp) : Prop :=
  bgp_flag_check b BGP_FLAG_ALWAYS_COMPARE_MED = true ∧ bgp_flag_check b BGP_FLAG_COMPARE_ROUTER_ID = true.

Lemma tie_break_lex b new old eq :
  compares_all b → route_ok new → route_ok old →
  tie_break b new old eq = Ok (lexb (drop 5 (path_rank b new)) (drop 5 (path_rank b old)), eq).
Proof.
  intros [_ Hid] (_ & [i1 E1] & [c1 C1] & su1 & S1 & O1) (_ & [i2 E2] & [c2 C2] & su2 & S2 & O2).
  unfold tie_break, path_rank. rewrite Hid, E1, E2, C1, C2, S1, S2. cbn [negb andb mbind M_bind of_opt get_ok default drop].
  pose proof (sockunion_cmp_lex su1 su2 O1 O2) as Hs. cbn [lexb] in *. rewrite Hs.
  repeat (match goal with |- context [if ?c then _ else _] => destruct c end; try done).
Qed.

(** Steps 4 to 8 on top of a rank for the rest. *)
Definition head_rank (b : bgp) (r : bgp_info) : list Z :=
  [ if bgp_flag_check b BGP_FLAG_ASPATH_IGNORE then 0 else path_length b (info_attr r);
    origin (info_attr r);
    bgp_med_value (info_attr r) b;
    if bool_decide (sort (info_peer r) = BGP_PEER_EBGP) then 0 else 1;
    metric_of r ].

Lemma path_rank_split b r : path_rank b r = head_rank b r ++ drop 5 (path_rank b r).
Proof. done. Qed.

Lemma sort_cases s :
  s ∈ [BGP_PEER_IBGP; BGP_PEER_EBGP; BGP_PEER_CONFED] → s = BGP_PEER_EBGP ∨ s = BGP_PEER_IBGP ∨ s = BGP_PEER_CONFED.
Proof. rewrite !elem_of_cons, elem_of_nil. naive_solver. Qed.

Lemma compare_paths_lex b new old :
  compares_all b → route_ok new → route_ok old →
  ∃ eq, compare_paths b new old = Ok (lexb (path_rank b new) (path_rank b old), eq).
Proof.
  intros Hb Hn Ho. pose proof (tie_break_lex b new old (equal_paths b new old) Hb Hn Ho) as Ht.
  destruct Hb as [Hmed _]. destruct Hn as (Sn & _), Ho as (So & _).
  rewrite (path_rank_split b new), (path_rank_split b old). unfold head_rank. cbn [app lexb].
  unfold compare_paths, med_comparable. rewrite Hmed. cbn [orb mbind M_bind]. rewrite Ht.
  set (rest := lexb (drop 5 (path_rank b new)) (drop 5 (path_rank b old))).
  destruct (bgp_flag_check b BGP_FLAG_ASPATH_IGNORE); rewrite ?Z.ltb_irrefl;
    apply sort_cases in Sn, So; destruct Sn as [->|[->| ->]], So as [->|[->| ->]];
    repeat (case_bool_decide; try congruence); cbn [andb orb];
    change (0 <? 1) with true; change (1 <? 0) with false; rewrite ?Z.ltb_irrefl;
    repeat (match goal with |- context [if ?c then _ else _] => destruct c end; try by eexists).
Qed.

Lemma info_cmp_lex b new old :
  compares_all b → route_ok new → route_ok old →
  ∃ eq, bgp_info_cmp b (Some new) (Some old) = Ok (lexb (rank b new) (rank b old), eq).
Proof.
  intros Hb Hn Ho. destruct (compare_paths_lex b new old Hb Hn Ho) as [eq E].
  unfold bgp_info_cmp, rank. rewrite E. cbn [lexb]. rewrite !ltb_opp.
  destruct (weight_of (info_attr old) <? _); [by eexists|]. destruct (weight_of (info_attr new) <? _); [by eexists|].
  destruct (pref_of b (info_attr old) <? _); [by eexists|]. destruct (pref_of b (info_attr new) <? _); [by eexists|].
  destruct (sub_type new =? _), (sub_type old =? _); cbn [negb]; eauto.
Qed.

(** ** Selection *)

(** What the selection loop needs of a comparison: the answer is right for an
    order on routes that does not depend on the flags the loop changes. *)
Class Preference (info_cmp : option bgp_info → option bgp_info → M (bool * bool))
    (ok : bgp_info → Prop) (le : bgp_info → bgp_info → Prop) : Prop := {
  pref_trans r1 r2 r3 : ok r1 → ok r2 → ok r3 → le r1 r2 → le r2 r3 → le r1 r3;
  pref_refl r : le r r;
  pref_flags r r' f f' : le r r' → le (with_flags r f) (with_flags r' f');
  pref_ok_flags r f : ok r → ok (with_flags r f);
  pref_first r : ∃ eq, info_cmp (Some r) None = Ok (true, eq);
  pref_cmp new old : ok new → ok old → ∃ ret eq, info_cmp (Some new) (Some old) = Ok (ret, eq) ∧
    (if ret : bool then le new old else le old new);
}.

(** A route without the flags the selection uses for itself. *)
Definition core (r : bgp_info) : bgp_info :=
  with_flags r (Z.ldiff (flags r) (Z.lor BGP_INFO_DMED_CHECK BGP_INFO_DMED_SELECTED)).

Definition same (m m' : gmap loc bgp_info) : Prop := ∀ i, core <$> m !! i = core <$> m' !! i.

Lemma core_check f g :
  Z.land (Z.lor BGP_INFO_DMED_CHECK BGP_INFO_DMED_SELECTED) g = 0 →
  CHECK_FLAG (Z.ldiff f (Z.lor BGP_INFO_DMED_CHECK BGP_INFO_DMED_SELECTED)) g = CHECK_FLAG f g.
Proof.
  set (d := Z.lor _ _). intros Hd. unfold CHECK_FLAG. do 2 f_equal. apply Z.bits_inj'. intros n Hn.
  rewrite !Z.land_spec, Z.ldiff_spec. apply (f_equal (λ z, Z.testbit z n)) in Hd.
  rewrite Z.land_spec, Z.bits_0 in Hd. destruct (Z.testbit f n), (Z.testbit d n), (Z.testbit g n); done.
Qed.

Lemma core_flags r r' g :
  core r = core r' → Z.land (Z.lor BGP_INFO_DMED_CHECK BGP_INFO_DMED_SELECTED) g = 0 →
  CHECK_FLAG (flags r) g = CHECK_FLAG (flags r') g.
Proof.
  intros E Hg. rewrite <-(core_check (flags r)), <-(core_check (flags r')) by done.
  apply (f_equal flags) in E. cbn [core with_flags flags] in E. by rewrite E.
Qed.

Lemma core_holddown r r' : core r = core r' → BGP_INFO_HOLDDOWN r = BGP_INFO_HOLDDOWN r'.
Proof. intros E. unfold BGP_INFO_HOLDDOWN. by rewrite !(core_flags r r' _ E). Qed.

Lemma core_ldiff r f :
  f = BGP_INFO_DMED_CHECK ∨ f = BGP_INFO_DMED_SELECTED → core (with_flags r (Z.ldiff (flags r) f)) = core r.
Proof.
  intros Hf. unfold core, with_flags; cbn [info_attr info_peer sub_type flags igpmetric]. f_equal.
  apply Z.bits_inj'. intros n Hn. rewrite !Z.ldiff_spec, Z.lor_spec.
  destruct Hf as [-> | ->]; destruct (Z.testbit (flags r) n), (Z.testbit BGP_INFO_DMED_CHECK n), (Z.testbit BGP_INFO_DMED_SELECTED n); done.
Qed.

Lemma core_eta r : with_flags (core r) (flags r) = r.
Proof. by destruct r. Qed.

Lemma same_lookup m m' i r : same m m' → m !! i = Some r → ∃ r', m' !! i = Some r' ∧ core r' = core r.
Proof.
  intros Hs Hi. specialize (Hs i). rewrite Hi in Hs. destruct (m' !! i) as [r'|]; [|done]. cbn in Hs. exists r'. split; congruence.
Qed.

(** Clearing one of the two flags. *)
Lemma unset_same m rn i r f :
  same m (infos rn) → infos rn !! i = Some r → f = BGP_INFO_DMED_CHECK ∨ f = BGP_INFO_DMED_SELECTED →
  ∃ rn', unset_dmed_flag rn i f = Ok rn' ∧ same m (infos rn') ∧ order rn' = order rn.
Proof.
  intros Hs Hi Hf. unfold unset_dmed_flag, load. rewrite Hi. cbn [of_opt mbind M_bind]. eexists. split; [done|].
  cbn [infos order]. split; [|done]. intros j. rewrite Hs. destruct (decide (i = j)) as [<-|].
  - rewrite lookup_insert_eq, Hi. cbn [fmap option_fmap option_map]. by rewrite core_ldiff.
  - by rewrite lookup_insert_ne.
Qed.

Section best.
Context {info_cmp : option bgp_info → option bgp_info → M (bool * bool)} {ok : bgp_info → Prop} {le : bgp_info → bgp_info → Prop}.
Context `{!Preference info_cmp ok le}.

Lemma le_core r1 r2 r1' r2' : core r1 = core r1' → core r2 = core r2' → le r1 r2 → le r1' r2'.
Proof.
  intros E1 E2 H. rewrite <-(core_eta r1'), <-(core_eta r2'), <-E1, <-E2. unfold core.
  by do 2 apply pref_flags.
Qed.

Lemma ok_core r r' : core r = core r' → ok r → ok r'.
Proof. intros E H. rewrite <-(core_eta r'), <-E. unfold core. by do 2 apply pref_ok_flags. Qed.

(** Route [n] is the best of those in [seen] that can be used. *)
Definition best_of (m : gmap loc bgp_info) (seen : list loc) (new : option loc) : Prop :=
  match new with
  | None => ∀ i r, i ∈ seen → m !! i = Some r → BGP_INFO_HOLDDOWN r = true
  | Some n => n ∈ seen ∧ ∃ rb, m !! n = Some rb ∧ BGP_INFO_HOLDDOWN rb = false ∧
      ∀ i r, i ∈ seen → m !! i = Some r → BGP_INFO_HOLDDOWN r = false → le rb r
  end.

Definition usable (m : gmap loc bgp_info) (ids : list loc) : Prop :=
  ∀ i, i ∈ ids → ∃ r, m !! i = Some r ∧ (BGP_INFO_HOLDDOWN r = false → ok r).

Lemma best_skip m seen new i r :
  m !! i = Some r → BGP_INFO_HOLDDOWN r = true → best_of m seen new → best_of m (seen ++ [i]) new.
Proof.
  intros Hi Hh. unfold best_of. destruct new as [n|].
  - intros (Hn & rb & Hb & Hu & Hbest). split; [set_solver|]. exists rb. split_and!; [done..|].
    intros j r' [Hj| ->%list_elem_of_singleton]%elem_of_app Hr Hu'; [by eapply Hbest|congruence].
  - intros Hnone j r' [Hj| ->%list_elem_of_singleton]%elem_of_app Hr; [by eapply Hnone|congruence].
Qed.

(** A usable route is compared with the best so far. *)
Lemma best_of_step m seen new i r n ret eq :
  usable m (seen ++ [i]) → m !! i = Some r → BGP_INFO_HOLDDOWN r = false → best_of m seen new →
  match new with None => n = None | Some j => ∃ rb rb', m !! j = Some rb ∧ n = Some rb' ∧ core rb = core rb' end →
  ∀ r', core r = core r' → info_cmp (Some r') n = Ok (ret, eq) →
  best_of m (seen ++ [i]) (if ret then Some i else new).
Proof.
  intros Hu Hi Hh Hbest Hn r' Er Hcmp. assert (ok r) as Hokr.
  { destruct (Hu i) as (r0 & Hr0 & Hok); [set_solver|]. rewrite Hi in Hr0. injection Hr0 as <-. by apply Hok. }
  pose proof (ok_core _ _ Er Hokr) as Hokr'. destruct new as [j|]; cbn [best_of] in Hbest.
  - destruct Hn as (rb & rb' & Hj & -> & Eb). destruct Hbest as (Hjs & rb0 & Hj0 & Hhb & Hle).
    rewrite Hj in Hj0. injection Hj0 as <-. assert (ok rb) as Hokb.
    { destruct (Hu j) as (r0 & Hr0 & Hok); [set_solver|]. rewrite Hj in Hr0. injection Hr0 as <-. by apply Hok. }
    destruct (pref_cmp r' rb' Hokr' (ok_core _ _ Eb Hokb)) as (ret' & eq' & E & Hret). rewrite Hcmp in E.
    injection E as <- <-. destruct ret.
    + apply (le_core _ _ r rb) in Hret; [|done..]. split; [set_solver|]. exists r. split_and!; [done..|].
      intros k rk [Hk| ->%list_elem_of_singleton]%elem_of_app Hrk Hhk.
      * destruct (Hu k) as (r0 & Hr0 & Hok); [set_solver|]. rewrite Hrk in Hr0. injection Hr0 as <-.
        eapply (pref_trans r rb rk); eauto.
      * rewrite Hi in Hrk. injection Hrk as <-. apply pref_refl.
    + apply (le_core _ _ rb r) in Hret; [|done..]. split; [set_solver|]. exists rb. split_and!; [done..|].
      intros k rk [Hk| ->%list_elem_of_singleton]%elem_of_app Hrk Hhk; [by eapply Hle|].
      rewrite Hi in Hrk. by injection Hrk as <-.
  - subst n. destruct (pref_first r') as [eq' E]. rewrite Hcmp in E. injection E as -> <-.
    split; [set_solver|]. exists r. split_and!; [done..|].
    intros k rk [Hk| ->%list_elem_of_singleton]%elem_of_app Hrk Hhk; [|rewrite Hi in Hrk; injection Hrk as <-; apply pref_refl].
    by rewrite (Hbest k rk) in Hhk.
Qed.

(** The routes that are taken off the list. *)
Definition reaped (m : gmap loc bgp_info) (i : loc) : Prop :=
  ∃ r, m !! i = Some r ∧ CHECK_FLAG (flags r) BGP_INFO_REMOVED = true ∧ CHECK_FLAG (flags r) BGP_INFO_SELECTED = false.

(** The last of the routes marked as selected. *)
Definition old_of (m : gmap loc bgp_info) (ids : list loc) (old : option loc) : option loc :=
  foldl (λ old i, match m !! i with
                  | Some r => if CHECK_FLAG (flags r) BGP_INFO_SELECTED then Some i else old
                  | None => old end) old ids.

(** What holds of the node after the loop over [ids]. *)
Definition after_loop (m : gmap loc bgp_info) (rn rn' : rnode) (ids : list loc) : Prop :=
  same m (infos rn') ∧ order rn' `sublist_of` order rn ∧
  ∀ i, i ∈ order rn' ↔ i ∈ order rn ∧ ¬ (i ∈ ids ∧ reaped m i).

Lemma after_loop_cons m rn rn1 rn' i ids :
  order rn1 `sublist_of` order rn → (∀ j, j ∈ order rn1 ↔ j ∈ order rn ∧ ¬ (j = i ∧ reaped m i)) →
  after_loop m rn1 rn' ids → after_loop m rn rn' (i :: ids).
Proof.
  intros Hs Hi (Hsame & Hs' & Hi'). split_and!; [done|by etrans|].
  intros j. rewrite Hi', Hi, elem_of_cons. naive_solver.
Qed.

Lemma not_removed m i r :
  m !! i = Some r → BGP_INFO_HOLDDOWN r = false → ¬ reaped m i.
Proof.
  intros Hi Hh (r' & Hr & Hrem & _). rewrite Hi in Hr. injection Hr as <-. unfold BGP_INFO_HOLDDOWN in Hh.
  apply orb_false_iff in Hh as [_ Hh]. unfold CHECK_FLAG in *.
  apply negb_false_iff, Z.eqb_eq in Hh. apply negb_true_iff, Z.eqb_neq in Hrem. apply Hrem.
  apply Z.bits_inj'. intros n Hn. apply (f_equal (λ z, Z.testbit z n)) in Hh. revert Hh. unfold BGP_INFO_UNUSEABLE.
  rewrite !Z.land_spec, !Z.lor_spec, Z.bits_0.
  destruct (Z.testbit (flags r) n), (Z.testbit BGP_INFO_REMOVED n); rewrite ?orb_true_r; done.
Qed.

(** An unusable route is taken off exactly when it is removed and not selected. *)
Lemma skip_order m rn i r :
  m !! i = Some r →
  let rn1 := if CHECK_FLAG (flags r) BGP_INFO_REMOVED && negb (CHECK_FLAG (flags r) BGP_INFO_SELECTED)
             then take_off rn i else rn in
  infos rn1 = infos rn ∧ order rn1 `sublist_of` order rn ∧
  ∀ j, j ∈ order rn1 ↔ j ∈ order rn ∧ ¬ (j = i ∧ reaped m i).
Proof.
  intros Hi rn1.
  assert (reaped m i ↔ CHECK_FLAG (flags r) BGP_INFO_REMOVED && negb (CHECK_FLAG (flags r) BGP_INFO_SELECTED) = true) as Hr.
  { unfold reaped. rewrite Hi, andb_true_iff, negb_true_iff. naive_solver. }
  subst rn1. destruct (_ && _).
  - split_and!; [done|apply sublist_filter|]. intros j. cbn [take_off emit order].
    rewrite list_elem_of_filter. destruct Hr as [_ Hr]. specialize (Hr eq_refl). clear -Hr. naive_solver.
  - assert (¬ reaped m i) as Hn by (intros ?%Hr; done). split_and!; [done..|]. clear -Hn. naive_solver.
Qed.

Lemma emit_if_infos c rn e : infos (emit_if c rn e) = infos rn.
Proof. by destruct c. Qed.
Lemma emit_if_order c rn e : order (emit_if c rn e) = order rn.
Proof. by destruct c. Qed.

Lemma load_best m rn seen new :
  same m (infos rn) → best_of m seen new →
  ∃ n, load_opt rn new = Ok n ∧
    match new with None => n = None | Some j => ∃ rb rb', m !! j = Some rb ∧ n = Some rb' ∧ core rb = core rb' end.
Proof.
  intros Hs Hb. destruct new as [j|]; [|by eexists]. destruct Hb as (_ & rb & Hj & _).
  destruct (same_lookup _ _ _ _ Hs Hj) as (rb' & Hj' & Ec). unfold load_opt, load. rewrite Hj'.
  eexists. split; [done|]. by exists rb, rb'.
Qed.

Lemma cmp_total m seen i r r' new n :
  usable m (seen ++ [i]) → m !! i = Some r → BGP_INFO_HOLDDOWN r = false → core r = core r' → best_of m seen new →
  match new with None => n = None | Some j => ∃ rb rb', m !! j = Some rb ∧ n = Some rb' ∧ core rb = core rb' end →
  ∃ ret eq, info_cmp (Some r') n = Ok (ret, eq).
Proof.
  intros Hu Hi Hh Er Hb Hn. assert (∀ j x y, j ∈ seen ++ [i] → m !! j = Some x → BGP_INFO_HOLDDOWN x = false → core x = core y → ok y) as Hok.
  { intros j x y Hj Hx Hhx E. destruct (Hu j Hj) as (x' & Hx' & Hokx). rewrite Hx in Hx'. injection Hx' as <-.
    eapply ok_core; eauto. }
  destruct new as [j|].
  - destruct Hn as (rb & rb' & Hj & -> & Eb). destruct Hb as (Hjs & rb0 & Hj0 & Hhb & _). rewrite Hj in Hj0. injection Hj0 as <-.
    destruct (pref_cmp r' rb') as (ret & eq & E & _); [apply (Hok i r r'); set_solver|apply (Hok j rb rb'); set_solver|]. eauto.
  - subst n. destruct (pref_first r') as [eq E]. eauto.
Qed.

Lemma select_loop_spec b mp m rn seen ids old new :
  bgp_flag_check b BGP_FLAG_DETERMINISTIC_MED = false → NoDup (seen ++ ids) → usable m (seen ++ ids) →
  same m (infos rn) → (∀ j, old = Some j → j ∈ seen) → best_of m seen new →
  ∃ rn' new', select_loop b mp info_cmp rn ids old new = Ok (rn', old_of m ids old, new') ∧
    best_of m (seen ++ ids) new' ∧ after_loop m rn rn' ids.
Proof.
  intros Hd. revert rn seen old new. induction ids as [|i ids IH]; intros rn seen old new Hnd Hu Hs Hold Hb.
  { exists rn, new. rewrite app_nil_r. split_and!; [done|done|]. split_and!; [done|done|]. set_solver. }
  cbn [select_loop old_of foldl]. destruct (Hu i) as (r0 & Hi0 & Hokr); [set_solver|].
  destruct (same_lookup _ _ _ _ Hs Hi0) as (r & Hi & Ec). 
  assert (load rn i = Ok r) as -> by (unfold load; by rewrite Hi). rewrite Hi0. cbn [mbind M_bind].
  rewrite (core_flags r r0 BGP_INFO_SELECTED Ec), (core_flags r r0 BGP_INFO_REMOVED Ec), (core_holddown r r0 Ec), Hd by done.
  set (old' := if CHECK_FLAG (flags r0) BGP_INFO_SELECTED then Some i else old).
  rewrite (cons_middle i seen ids) in *. rewrite (assoc_L (++)) in *.
  assert (i ∉ seen) as Hni.
  { apply NoDup_app in Hnd as (Hnd & _ & _). apply NoDup_app in Hnd as (_ & Hdis & _). set_solver. }
  assert (∀ j, old' = Some j → j ∈ seen ++ [i]) as Hold'.
  { subst old'. intros j. destruct (CHECK_FLAG (flags r0) BGP_INFO_SELECTED); [intros [= <-]; set_solver|]. set_solver. }
  assert (usable m (seen ++ [i])) as Hui by (intros j Hj; apply Hu; set_solver).
  destruct (BGP_INFO_HOLDDOWN r0) eqn:Eh; cbn [andb].
  - assert (bool_decide (Some i ≠ old') = negb (CHECK_FLAG (flags r0) BGP_INFO_SELECTED)) as ->.
    { subst old'. destruct (CHECK_FLAG (flags r0) BGP_INFO_SELECTED); case_bool_decide as E; try done.
      exfalso. apply Hni, Hold. congruence. }
    set (rn1 := if _ && _ then take_off rn i else rn).
    destruct (skip_order m rn i r0 Hi0) as (Ei & Hsub & Hord). fold rn1 in Ei, Hsub, Hord.
    destruct (IH rn1 (seen ++ [i]) old' new) as (rn' & new' & E & Hb' & Hal); try done.
    + by rewrite Ei.
    + by eapply best_skip.
    + exists rn', new'. split_and!; [done|done|]. by eapply after_loop_cons.
  - destruct (unset_same m rn i r BGP_INFO_DMED_CHECK Hs Hi (or_introl eq_refl)) as (rn1 & -> & Hs1 & Eo1). cbn [mbind M_bind].
    destruct (same_lookup _ _ _ _ Hs1 Hi0) as (r1 & Hi1 & Ec1).
    destruct (unset_same m rn1 i r1 BGP_INFO_DMED_SELECTED Hs1 Hi1 (or_intror eq_refl)) as (rn2 & -> & Hs2 & Eo2). cbn [mbind M_bind].
    destruct (same_lookup _ _ _ _ Hs2 Hi0) as (r2 & Hi2 & Ec2).
    assert (load rn2 i = Ok r2) as -> by (unfold load; by rewrite Hi2). cbn [mbind M_bind].
    destruct (load_best m rn2 seen new Hs2 Hb) as (n & -> & Hn). cbn [mbind M_bind].
    destruct (cmp_total m seen i r0 r2 new n Hui Hi0 Eh (eq_sym Ec2) Hb Hn) as (ret & eq & Ecmp). rewrite Ecmp. cbn [mbind M_bind].
    pose proof (best_of_step m seen new i r0 n ret eq Hui Hi0 Eh Hb Hn r2 (eq_sym Ec2) Ecmp) as Hb1.
    rewrite !andb_false_r. cbn [emit_if].
    set (rn3 := if ret then emit_if (mp && negb eq) (emit_if (mp && negb eq) rn2 mp_list_clear) (mp_list_add i) else rn2).
    assert (infos rn3 = infos rn2 ∧ order rn3 = order rn) as [Ei3 Eo3].
    { subst rn3. destruct ret; rewrite ?emit_if_infos, ?emit_if_order; split; congruence. }
    destruct (IH (emit_if (mp && eq) rn3 (mp_list_add i)) (seen ++ [i]) old' (if ret then Some i else new)) as (rn' & new' & E & Hb' & Hal); try done.
    + by rewrite emit_if_infos, Ei3.
    + exists rn', new'. split_and!; [|done|].
      * etrans; [|exact E]. subst rn3. by destruct ret.
      * eapply after_loop_cons; [| |done]; rewrite emit_if_order, Eo3; [done|].
        pose proof (not_removed _ _ _ Hi0 Eh). naive_solver.
Qed.

Lemma best_selection_spec b maxpaths_ebgp maxpaths_ibgp rn :
  bgp_flag_check b BGP_FLAG_DETERMINISTIC_MED = false → NoDup (order rn) → usable (infos rn) (order rn) →
  ∃ rn' new, bgp_best_selection b info_cmp maxpaths_ebgp maxpaths_ibgp rn
      = Ok (rn', old_of (infos rn) (order rn) None, new) ∧
    best_of (infos rn) (order rn) new ∧ after_loop (infos rn) rn rn' (order rn).
Proof.
  intros Hd Hnd Hu. unfold bgp_best_selection. rewrite Hd. cbn [mbind M_bind].
  destruct (select_loop_spec b (negb (maxpaths_ebgp =? BGP_DEFAULT_MAXPATHS) || negb (maxpaths_ibgp =? BGP_DEFAULT_MAXPATHS))
    (infos rn) rn [] (order rn) None None) as (rn' & new & -> & Hb & Hal); try done.
  { intros i r Hi%elem_of_nil. done. }
  cbn [mbind M_bind]. by eexists _, new.
Qed.
End best.

Lemma lex_preference info_cmp (ok : bgp_info → Prop) (rk : bgp_info → list Z) k :
  (∀ r, length (rk r) = k) → (∀ r f, rk (with_flags r f) = rk r) → (∀ r f, ok r → ok (with_flags r f)) →
  (∀ r, ∃ eq, info_cmp (Some r) None = Ok (true, eq)) →
  (∀ new old, ok new → ok old → ∃ ret eq, info_cmp (Some new) (Some old) = Ok (ret, eq) ∧
     if ret : bool then lexb (rk new) (rk old) = true else lexb (rk old) (rk new) = true) →
  Preference info_cmp ok (λ r r', lexb (rk r) (rk r') = true).
Proof.
  intros Hl Hf Hok H0 Hc. split; try done.
  - intros r1 r2 r3 _ _ _. apply lexb_trans; by rewrite !Hl.
  - intros r. apply lexb_refl.
  - intros r r' f f'. by rewrite !Hf.
Qed.

Lemma bgp_preference b :
  compares_all b → Preference (bgp_info_cmp b) route_ok (λ r r', lexb (rank b r) (rank b r') = true).
Proof.
  intros Hb. apply (lex_preference _ _ (rank b) 12); try done.
  - apply length_rank.
  - by eexists.
  - intros new old Hn Ho. destruct (info_cmp_lex b new old Hb Hn Ho) as [eq E].
    eexists _, eq. split; [exact E|]. destruct (lexb (rank b new) (rank b old)) eqn:El; [done|]. by apply lexb_total.
Qed.

(** ** Wiser *)

(** The criteria of a route with Wiser data. *)
Definition wiser_rank (st : store) (b : bgp) (r : bgp_info) : list Z :=
  - weight_of (info_attr r) :: - pref_of b (info_attr r) ::
  (if sub_type r =? BGP_ROUTE_NORMAL
   then [1; match wiser_of st (info_attr r) with Ok (Some w) => path_cost w | _ => 0 end] else [0; 0]).

(** Every route learned from a peer has Wiser data. *)
Definition has_wiser (st : store) (r : bgp_info) : Prop :=
  sub_type r = BGP_ROUTE_NORMAL → ∃ w, wiser_of st (info_attr r) = Ok (Some w).

Lemma wiser_preference st b :
  Preference (wiser_info_cmp st b) (has_wiser st) (λ r r', lexb (wiser_rank st b r) (wiser_rank st b r') = true).
Proof.
  apply (lex_preference _ _ (wiser_rank st b) 4); try done.
  - intros r. unfold wiser_rank. by destruct (_ =? _).
  - by eexists.
  - intros new old Hn Ho. unfold wiser_info_cmp, wiser_rank, has_wiser in *. cbn [lexb]. rewrite !ltb_opp.
    destruct (weight_of (info_attr old) <? _); [by eexists _, _|]. destruct (weight_of (info_attr new) <? _); [by eexists _, _|].
    destruct (pref_of b (info_attr old) <? _); [by eexists _, _|]. destruct (pref_of b (info_attr new) <? _); [by eexists _, _|].
    destruct (Z.eqb_spec (sub_type new) BGP_ROUTE_NORMAL) as [En|En], (Z.eqb_spec (sub_type old) BGP_ROUTE_NORMAL) as [Eo|Eo];
      cbn [negb]; try by eexists _, _.
    destruct (Hn En) as [w1 E1], (Ho Eo) as [w2 E2]. rewrite E1, E2. cbn [mbind M_bind].
    eexists _, _. split; [done|]. cbn [lexb]. rewrite Z.ltb_irrefl.
    destruct (Z.ltb_spec (path_cost w1) (path_cost w2)); [done|].
    destruct (Z.ltb_spec (path_cost w2) (path_cost w1)); done.
Qed.

(** ** Properties *)

(** C13. The decision process as an order: with [bgp always-compare-med] and [bgp
    bestpath compare-routerid], [bgp_info_cmp] prefers the new route exactly when
    its list of criteria (weight, local preference, local origin, AS path length,
    origin, MED, external peer, IGP metric, router id, cluster list, neighbour) is
    not after that of the old one in lexicographic order.  So the preference is
    transitive and total. *)
Theorem bgp_info_cmp_lexicographic b new old :
  compares_all b → route_ok new → route_ok old →
  (∃ eq, bgp_info_cmp b (Some new) (Some old) = Ok (lexb (rank b new) (rank b old), eq)) ∧
  (∀ r, lexb (rank b new) (rank b old) = true → lexb (rank b old) (rank b r) = true →
     lexb (rank b new) (rank b r) = true) ∧
  (lexb (rank b new) (rank b old) = false → lexb (rank b old) (rank b new) = true).
Proof.
  intros Hb Hn Ho. split_and!.
  - by apply info_cmp_lex.
  - intros r. apply lexb_trans; by rewrite !length_rank.
  - apply lexb_total.
Qed.


(** C21. Selection under Wiser: when every route learned from a peer has Wiser
    data, the selected route has the lowest accumulated cost among those of
    highest weight and local preference (a local route before all others).  The
    AS path and all later criteria play no part. *)
Theorem wiser_selection_cheapest st b maxpaths_ebgp maxpaths_ibgp rn :
  bgp_flag_check b BGP_FLAG_DETERMINISTIC_MED = false → NoDup (order rn) →
  usable (ok := has_wiser st) (infos rn) (order rn) →
  ∃ rn' new, bgp_best_selection b (wiser_info_cmp st b) maxpaths_ebgp maxpaths_ibgp rn
      = Ok (rn', old_of (infos rn) (order rn) None, new) ∧
    best_of (le := λ r r', lexb (wiser_rank st b r) (wiser_rank st b r') = true) (infos rn) (order rn) new ∧
    after_loop (infos rn) rn rn' (order rn).
Proof. by apply (best_selection_spec (Preference0 := wiser_preference st b)). Qed.

(** Two routes from external peers, with AS paths of two hops and of one. *)
Definition example_route (path : list Z) (med id : Z) (t : loc) : bgp_info :=
  Info (Attr (ATTR_FLAG_BIT BGP_ATTR_MULTI_EXIT_DISC) 0 med 100 (AsPath [Seg AS_SEQUENCE path] None 0) (Some t) None)
    (Peer BGP_PEER_EBGP (hd 0 path) [10; 0; 0; id] (Some (SockUnion AF_INET [10; 0; 0; id]))) BGP_ROUTE_NORMAL BGP_INFO_VALID None.

Definition example_rn : rnode :=
  Rn [1%positive; 2%positive] {[1%positive := example_route [1; 2] 5 1 1; 2%positive := example_route [3] 9 2 2]} [].

Definition example_bgp : bgp := Bgp (Z.lor BGP_FLAG_ALWAYS_COMPARE_MED BGP_FLAG_COMPARE_ROUTER_ID) 100.

Lemma example_usable (ok : bgp_info → Prop) :
  ok (example_route [1; 2] 5 1 1) → ok (example_route [3] 9 2 2) → usable (ok := ok) (infos example_rn) (order example_rn).
Proof.
  intros H1 H2 i Hi. cbn [example_rn order] in Hi. apply elem_of_cons in Hi as [->|Hi]; [by eexists|].
  apply list_elem_of_singleton in Hi as ->. by eexists.
Qed.

Lemma example_route_ok path med id t : 0 <= id < 256 → route_ok (example_route path med id t).
Proof.
  intros Hid. split_and!; [set_solver|by eexists|by eexists|]. eexists. split; [done|]. split; [by left|].
  repeat constructor; cbn; lia.
Qed.

Lemma bgp_info_cmp_lexicographic_witness :
  ∃ eq, bgp_info_cmp example_bgp (Some (example_route [3] 9 2 2)) (Some (example_route [1; 2] 5 1 1)) = Ok (true, eq).
Proof.
  destruct (bgp_info_cmp_lexicographic example_bgp (example_route [3] 9 2 2) (example_route [1; 2] 5 1 1)) as [[eq E] _].
  - split; reflexivity.
  - apply example_route_ok. lia.
  - apply example_route_ok. lia.
  - exists eq. rewrite E. vm_compute. reflexivity.
Defined.


(** The messages of the two routes: the longer path is cheaper. *)
Definition example_store : store :=
  Store (Pool {[1%positive := Obj 1 4096; 2%positive := Obj 1 8192]} (Hash [] 0 false 0))
    {[4096 := set_wiser new_message {| path_cost := 3; sender_as := 1; sender_address := 0 |};
      8192 := set_wiser new_message {| path_cost := 7; sender_as := 3; sender_address := 0 |}]}.

Lemma wiser_selection_cheapest_witness :
  ∃ rn', bgp_best_selection example_bgp (wiser_info_cmp example_store example_bgp) 1 1 example_rn = Ok (rn', None, Some 1%positive).
Proof.
  destruct (wiser_selection_cheapest example_store example_bgp 1 1 example_rn) as (rn' & new & E & _).
  - reflexivity.
  - decide_by_compute.
  - apply example_usable; intros _; by eexists.
  - exists rn'. rewrite E. revert E. vm_compute. intros E. injection E as _ <-. reflexivity.
Defined.

(** Without [bgp always-compare-med] the preference is not transitive: MED counts
    between the first two routes only, and the router id decides the rest in a
    circle. *)
Example med_cycle :
  let b := Bgp BGP_FLAG_COMPARE_ROUTER_ID 100 in
  let r1 := example_route [1] 10 1 1 in
  let r2 := example_route [1] 5 3 1 in
  let r3 := example_route [2] 0 2 1 in
  (∃ eq, bgp_info_cmp b (Some r2) (Some r1) = Ok (true, eq)) ∧
  (∃ eq, bgp_info_cmp b (Some r1) (Some r3) = Ok (true, eq)) ∧
  (∃ eq, bgp_info_cmp b (Some r3) (Some r2) = Ok (true, eq)).
Proof. split_and!; eexists; vm_compute; reflexivity. Qed.
