(* ===== verification/Workqueue.v ===== *)
(** Work queues: lib/workqueue.c and lib/workqueue.h.

    The callbacks of the specification of a queue are functions on the state of
    the rest of the program; they do not touch the queue that calls them.  The
    list [items] is walked by [work_queue_run] with a saved successor; the items
    in front of the current one have been removed or moved to the end, so the
    current item is always the first of the list. *)
From S2P Require Import Prelude.
Open Scope Z_scope.

Inductive wq_item_status :=
  | WQ_SUCCESS | WQ_ERROR | WQ_RETRY_NOW | WQ_RETRY_LATER | WQ_REQUEUE | WQ_QUEUE_BLOCKED.
#[export] Instance wq_item_status_eq_dec : EqDecision wq_item_status.
Proof. solve_decision. Defined.

Definition WQ_UNPLUGGED : Z := 1.
Definition WORK_QUEUE_MIN_GRANULARITY : Z := 1.
Definition WORK_QUEUE_DEFAULT_HOLD : Z := 50.
Definition WQ_HYSTERESIS_FACTOR : Z := 4.

Section queue.
Context {S D : Type}.

Record work_queue_item := Item { data : D; ran : Z }.

(** [thread] is the delay of the scheduled background thread. *)
Record work_queue := WQ {
  thread : option Z;
  max_retries : Z;
  hold : Z;
  items : list work_queue_item;
  runs : Z;
  best : Z;
  granularity : Z;
  total : Z;
  flags : Z;
}.

(** The error function gets the data of the item on one path and the item
    itself on the other. *)
Inductive error_arg := ErrData (d : D) | ErrItem (it : work_queue_item).

Record callbacks := Callbacks {
  workfunc : S → D → S * wq_item_status;
  errorfunc : option (S → error_arg → S);
  del_item_data : option (S → D → S);
  completion_func : option (S → S);
}.

Implicit Types (wq : work_queue) (cb : callbacks) (s : S).

Definition work_queue_new : work_queue :=
  WQ None 0 WORK_QUEUE_DEFAULT_HOLD [] 0 0 WORK_QUEUE_MIN_GRANULARITY 0 (SET_FLAG 0 WQ_UNPLUGGED).

(** The numbers of [spec] that the owner of a queue sets. *)
Definition set_spec (wq : work_queue) (retries h : Z) : work_queue :=
  WQ (thread wq) retries h (items wq) (runs wq) (best wq) (granularity wq) (total wq) (flags wq).
Definition set_thread wq t : work_queue :=
  WQ t (max_retries wq) (hold wq) (items wq) (runs wq) (best wq) (granularity wq) (total wq) (flags wq).
Definition set_items wq l : work_queue :=
  WQ (thread wq) (max_retries wq) (hold wq) l (runs wq) (best wq) (granularity wq) (total wq) (flags wq).
Definition set_wq_flags wq f : work_queue :=
  WQ (thread wq) (max_retries wq) (hold wq) (items wq) (runs wq) (best wq) (granularity wq) (total wq) f.

Definition work_queue_schedule wq (delay : Z) : work_queue * Z :=
  if CHECK_FLAG (flags wq) WQ_UNPLUGGED && bool_decide (thread wq = None) && (0 <? Z.of_nat (length (items wq)))
  then (set_thread wq (Some delay), 1)
  else (wq, 0).

Definition work_queue_add wq (d : D) : work_queue :=
  (work_queue_schedule (set_items wq (items wq ++ [Item d 0])) (hold wq)).1.

Definition work_queue_plug wq : work_queue :=
  set_wq_flags (set_thread wq None) (UNSET_FLAG (flags wq) WQ_UNPLUGGED).
Definition work_queue_unplug wq : work_queue :=
  (work_queue_schedule (set_wq_flags wq (SET_FLAG (flags wq) WQ_UNPLUGGED)) (hold wq)).1.

Definition call_error cb s (a : error_arg) : S := match errorfunc cb with Some f => f s a | None => s end.
(** The part of [work_queue_item_remove] outside the list. *)
Definition delete_data cb s (d : D) : S := match del_item_data cb with Some f => f s d | None => s end.

(** The loop around the work function: the state, [item->ran] and the last
    status.  [None] when [fuel] repetitions were not enough. *)
Fixpoint run_item (fuel : nat) cb (retries : Z) s (it : work_queue_item) : option (S * Z * wq_item_status) :=
  let '(s, ret) := workfunc cb s (data it) in
  let n := u16 (ran it + 1) in
  if bool_decide (ret = WQ_RETRY_NOW) && (n <? retries) then
    match fuel with
    | O => None
    | Datatypes.S fuel' => run_item fuel' cb retries s (Item (data it) n)
    end
  else Some (s, n, ret).

(** The loop over the items: the state, the remaining items, [cycles] and
    [yielded].  [yield] is what [thread_should_yield] answers after a number of
    cycles. *)
Fixpoint run_items (fuel : nat) cb (retries gran : Z) (yield : Z → bool) s (l : list work_queue_item) (cycles : Z)
    : option (S * list work_queue_item * Z * bool) :=
  match l with
  | [] => Some (s, [], cycles, false)
  | it :: rest =>
      match fuel with
      | O => None
      | Datatypes.S fuel' =>
          if retries <? ran it then
            let s := call_error cb s (ErrData (data it)) in
            run_items fuel' cb retries gran yield (delete_data cb s (data it)) rest cycles
          else
          '(s, n, ret) ← run_item (Z.to_nat retries) cb retries s it;
          (* what follows the switch; [l'] are the items and [more] whether the
             saved successor is not null *)
          let next s l' (more : bool) :=
            let cycles := u32 (cycles + 1) in
            if (cycles mod gran =? 0) && yield cycles then Some (s, l', cycles, true)
            else if more then run_items fuel' cb retries gran yield s l' cycles
            else Some (s, l', cycles, false) in
          match ret with
          | WQ_QUEUE_BLOCKED => Some (s, Item (data it) (u16 (n - 1)) :: rest, cycles, false)
          | WQ_RETRY_LATER => Some (s, Item (data it) n :: rest, cycles, false)
          | WQ_REQUEUE => next s (rest ++ [Item (data it) (u16 (n - 1))]) (negb (bool_decide (rest = [])))
          | WQ_RETRY_NOW | WQ_ERROR =>
              let s := call_error cb s (ErrItem (Item (data it) n)) in
              next (delete_data cb s (data it)) rest true
          | WQ_SUCCESS => next (delete_data cb s (data it)) rest true
          end
      end
  end.

(** The statistics after a run. *)
Definition new_granularity (gran bst cycles : Z) (yielded : bool) : Z * Z :=
  if yielded && (cycles <? gran) then
    (if 0 <? cycles then cycles else WORK_QUEUE_MIN_GRANULARITY, bst)
  else if gran <=? cycles then
    let bst := if bst <? cycles then cycles else bst in
    if u32 (u32 (gran * WQ_HYSTERESIS_FACTOR) * WQ_HYSTERESIS_FACTOR) <? cycles then (u32 (gran * WQ_HYSTERESIS_FACTOR), bst)
    else if u32 (gran * WQ_HYSTERESIS_FACTOR) <? cycles then (u32 (gran + WQ_HYSTERESIS_FACTOR), bst)
    else (gran, bst)
  else (gran, bst).

(** The thread of the queue runs.  The last component tells whether the
    completion function was called. *)
Definition work_queue_run (fuel : nat) cb (yield : Z → bool) s wq : option (S * work_queue * bool) :=
  let gran := if granularity wq =? 0 then WORK_QUEUE_MIN_GRANULARITY else granularity wq in
  '(s, l, cycles, yielded) ← run_items fuel cb (max_retries wq) gran yield s (items wq) 0;
  let '(gran, bst) := new_granularity gran (best wq) cycles yielded in
  let wq := WQ None (max_retries wq) (hold wq) l (u64 (runs wq + 1)) bst gran (u64 (total wq + cycles)) (flags wq) in
  if 0 <? Z.of_nat (length l) then Some (s, (work_queue_schedule wq 0).1, false)
  else match completion_func cb with
       | Some f => Some (f s, wq, true)
       | None => Some (s, wq, false)
       end.

(** The scheduler runs the thread of the queue for as long as it is scheduled,
    at most [n] times: the state, the queue and how many times the completion
    function was called. *)
Fixpoint drive (n fuel : nat) cb (yields : nat → Z → bool) s wq : option (S * work_queue * nat) :=
  match thread wq, n with
  | None, _ => Some (s, wq, 0%nat)
  | Some _, O => None
  | Some _, Datatypes.S n' =>
      '(s, wq, completed) ← work_queue_run fuel cb (yields n') s wq;
      '(s, wq, k) ← drive n' fuel cb yields s wq;
      Some (s, wq, (Nat.b2n completed + k)%nat)
  end.
End queue.
Arguments work_queue_item : clear implicits.
Arguments work_queue : clear implicits.
Arguments callbacks : clear implicits.
Arguments error_arg : clear implicits.

(** ** Draining a queue *)

Section drain.
Context {S D : Type} (cb : callbacks S D) (retries : Z).
Implicit Types (s : S) (l : list (work_queue_item D)).

Definition complete s : S := match completion_func cb with Some f => f s | None => s end.
Definition completions : nat := match completion_func cb with Some _ => 1 | None => 0 end.

(** What a run of the queue needs to drain it: a property of the state and the
    items that the loop over the items keeps, and a measure it decreases. *)
Class Drains (Q : S → list (work_queue_item D) → Prop) (measure : list (work_queue_item D) → nat) : Prop :=
  drains_run fuel gran yield s l cycles :
    Q s l → (length l <= fuel)%nat → l ≠ [] →
    ∃ s' l' c y, run_items fuel cb retries gran yield s l cycles = Some (s', l', c, y) ∧
      Q s' l' ∧ (length l' <= length l)%nat ∧ (measure l' < measure l)%nat.

Lemma drive_drains Q measure `{!Drains Q measure} n fuel yields s (wq : work_queue D) t :
  max_retries wq = retries → CHECK_FLAG (flags wq) WQ_UNPLUGGED = true → thread wq = Some t →
  Q s (items wq) → (length (items wq) <= fuel)%nat → (measure (items wq) < n)%nat →
  ∃ s' wq', drive n fuel cb yields s wq = Some (complete s', wq', completions) ∧
    Q s' [] ∧ items wq' = [] ∧ thread wq' = None.
Proof.
  revert s wq t. induction n as [|n IH]; intros s wq t Hr Hf Ht HQ Hl Hn; [lia|].
  cbn [drive]. rewrite Ht. unfold work_queue_run. rewrite Hr.
  set (gran := if granularity wq =? 0 then _ else _). clearbody gran.
  assert (∃ s' l' c y, run_items fuel cb retries gran (yields n) s (items wq) 0 = Some (s', l', c, y) ∧
    Q s' l' ∧ (length l' <= length (items wq))%nat ∧ (l' ≠ [] → measure l' < measure (items wq))%nat)
    as (s' & l' & c & y & -> & HQ' & Hl' & Hm).
  { destruct (decide (items wq = [])) as [E|Hne].
    { rewrite E in *. exists s, [], 0, false. split_and!; [by destruct fuel|done|done|by intros []]. }
    destruct (drains_run fuel gran (yields n) s (items wq) 0 HQ Hl Hne) as (s' & l' & c & y & ? & ? & ? & ?).
    by eexists s', l', c, y. }
  cbn [mbind option_bind]. destruct (new_granularity _ _ _ _) as [g b].
  destruct (decide (l' = [])) as [->|Hne].
  - cbn [length]. change (0 <? Z.of_nat 0) with false. cbn iota. unfold complete, completions.
    destruct (completion_func cb); destruct n; cbn [mbind option_bind drive thread]; by eexists s', _.
  - rewrite (proj2 (Z.ltb_lt _ _)) by (destruct l'; [done|cbn [length]; lia]). unfold work_queue_schedule.
    cbn [flags thread items]. rewrite Hf, bool_decide_true by done.
    rewrite (proj2 (Z.ltb_lt 0 (Z.of_nat (length l')))) by (destruct l'; [done|cbn [length]; lia]).
    cbn [andb fst mbind option_bind].
    edestruct (IH s' (set_thread (WQ None retries (hold wq) l' (u64 (runs wq + 1)) b g (u64 (total wq + c)) (flags wq)) (Some 0)) 0)
      as (s2 & wq2 & -> & H2); cbn [max_retries flags thread items set_thread]; [done..|lia| |].
    { specialize (Hm Hne). lia. }
    by eexists s2, wq2.
Qed.

(** Adding items to a queue that is not plugged. *)
Lemma add_items (wq : work_queue D) ds :
  CHECK_FLAG (flags wq) WQ_UNPLUGGED = true → (thread wq = None ↔ items wq = []) →
  let wq' := foldl work_queue_add wq ds in
  items wq' = items wq ++ ((λ d, Item d 0) <$> ds) ∧ (thread wq' = None ↔ items wq' = []) ∧
  flags wq' = flags wq ∧ max_retries wq' = max_retries wq.
Proof.
  revert wq. induction ds as [|d ds IH]; intros wq Hu Ht wq'; subst wq'; cbn [foldl fmap list_fmap].
  { rewrite app_nil_r. done. }
  assert (∃ t, work_queue_add wq d = WQ (Some t) (max_retries wq) (hold wq) (items wq ++ [Item d 0]) (runs wq) (best wq)
    (granularity wq) (total wq) (flags wq)) as [t ->].
  { unfold work_queue_add, work_queue_schedule. cbn. rewrite Hu, length_app. cbn [length andb].
    rewrite (proj2 (Z.ltb_lt _ _)) by lia. destruct (thread wq) as [t|] eqn:Et; cbn.
    - exists t. unfold set_items. by rewrite Et.
    - eexists. done. }
  edestruct (IH (WQ (Some t) (max_retries wq) (hold wq) (items wq ++ [Item d 0]) (runs wq) (best wq)
    (granularity wq) (total wq) (flags wq))) as (E1 & E2 & E3 & E4); cbn in *; [done| |].
  { split; [done|]. intros H. by destruct (items wq). }
  rewrite E1, <- (assoc_L (++)). split_and!; [done| |done..]. rewrite E2, E1, <- (assoc_L (++)). done.
Qed.

(** *** Items that are given up *)

Definition item_ok (it : work_queue_item D) : Prop := 0 <= ran it <= retries + 1.
Definition weight l : nat := foldr (λ it n, Z.to_nat (retries + 2 - ran it) + n)%nat 0%nat l.

Definition gives_up : Prop := ∀ s d, (workfunc cb s d).2 ≠ WQ_REQUEUE ∧ (workfunc cb s d).2 ≠ WQ_QUEUE_BLOCKED.

Lemma run_item_ends fuel s it :
  retries <= 65534 → gives_up → 0 <= ran it <= retries → retries - ran it <= Z.of_nat fuel →
  ∃ s' n ret, run_item fuel cb retries s it = Some (s', n, ret) ∧ ran it < n <= retries + 1 ∧
    ret ≠ WQ_REQUEUE ∧ ret ≠ WQ_QUEUE_BLOCKED.
Proof.
  intros Hr Hg. revert s it. induction fuel as [|fuel IH]; intros s it Hi Hf; cbn [run_item];
    destruct (Hg s (data it)) as [H1 H2]; destruct (workfunc cb s (data it)) as [s' ret]; cbn [snd] in *;
    assert (u16 (ran it + 1) = ran it + 1) as -> by (apply Z.mod_small; lia).
  all: destruct (bool_decide (ret = WQ_RETRY_NOW) && (ran it + 1 <? retries)) eqn:E;
    [|eexists _, _, _; split_and!; [done|lia..|done|done]].
  all: apply andb_true_iff in E as [_ E%Z.ltb_lt].
  { lia. }
  destruct (IH s' (Item (data it) (ran it + 1))) as (s2 & n & ret2 & -> & Hn & ?); cbn [ran]; [lia..|].
  eexists _, _, _. split_and!; [done|cbn [ran] in Hn; lia..|naive_solver|naive_solver].
Qed.

Lemma run_items_gives_up fuel gran yield s l cycles :
  0 <= retries <= 65534 → gives_up → Forall item_ok l → (length l <= fuel)%nat →
  ∃ s' l' c y, run_items fuel cb retries gran yield s l cycles = Some (s', l', c, y) ∧
    Forall item_ok l' ∧ (length l' <= length l)%nat ∧ (weight l' <= weight l)%nat ∧ (l ≠ [] → weight l' < weight l)%nat.
Proof.
  intros Hr Hg. revert fuel s cycles. induction l as [|it l IH]; intros fuel s cycles Hl Hf.
  { exists s, [], cycles, false. split_and!; [by destruct fuel|done..|by intros []]. }
  destruct fuel as [|fuel]; [cbn [length] in Hf; lia|]. pose proof Hl as [Hi Hl']%Forall_cons. unfold item_ok in Hi.
  assert (∀ s cycles, ∃ s' l' c y, run_items fuel cb retries gran yield s l cycles = Some (s', l', c, y) ∧
    Forall item_ok l' ∧ (length l' <= length (it :: l))%nat ∧ (weight l' <= weight (it :: l))%nat ∧
    (it :: l ≠ [] → weight l' < weight (it :: l))%nat) as Hrest.
  { intros s1 c1. destruct (IH fuel s1 c1 Hl') as (s' & l' & c & y & -> & ? & ? & ? & _); [cbn [length] in Hf; lia|].
    eexists _, _, _, _. split_and!; [done|done|cbn [length]; lia|..]; cbn [weight foldr]; unfold weight in *; lia. }
  assert (∀ s c, ∃ s' l' c' y, (let cycles := u32 (c + 1) in
      if (cycles mod gran =? 0) && yield cycles then Some (s, l, cycles, true)
      else run_items fuel cb retries gran yield s l cycles) = Some (s', l', c', y) ∧
    Forall item_ok l' ∧ (length l' <= length (it :: l))%nat ∧ (weight l' <= weight (it :: l))%nat ∧
    (it :: l ≠ [] → weight l' < weight (it :: l))%nat) as Hnext.
  { intros s1 c1. cbv zeta. destruct (_ && _); [|apply Hrest]. eexists _, _, _, _.
    split_and!; [done|done|cbn [length]; lia|..]; cbn [weight foldr]; unfold weight in *; lia. }
  cbn [run_items]. destruct (Z.ltb_spec retries (ran it)) as [Hgt|Hle]; [apply Hrest|].
  destruct (run_item_ends (Z.to_nat retries) s it) as (s' & n & ret & -> & Hn & H1 & H2); [lia|done|lia|lia|].
  cbn [mbind option_bind]. destruct ret; try done; try apply Hnext.
  eexists _, _, _, _. split_and!; [done| |done|..]; cbn [weight foldr ran]; [|unfold weight in *; lia..].
  constructor; [unfold item_ok; cbn [ran]; lia|done].
Qed.

Lemma gives_up_drains : 0 <= retries <= 65534 → gives_up → Drains (λ _ l, Forall item_ok l) weight.
Proof.
  intros Hr Hg fuel gran yield s l cycles Hl Hf Hne.
  destruct (run_items_gives_up fuel gran yield s l cycles Hr Hg Hl Hf) as (s' & l' & c & y & ? & ? & ? & ? & ?).
  eexists s', l', c, y. split_and!; auto.
Qed.

(** *** What the callbacks keep *)

Section keeps.
Context (P : S → Prop).
Hypothesis Hwork : ∀ s d, P s → P (workfunc cb s d).1.
Hypothesis Herr : ∀ s a, P s → P (call_error cb s a).
Hypothesis Hdel : ∀ s d, P s → P (delete_data cb s d).
Hypothesis Hdone : ∀ s, P s → P (complete s).

Lemma run_item_keeps fuel r s it s' n ret : P s → run_item fuel cb r s it = Some (s', n, ret) → P s'.
Proof.
  revert s it. induction fuel as [|fuel IH]; intros s it Hs; cbn [run_item]; pose proof (Hwork s (data it) Hs) as Hw;
    destruct (workfunc cb s (data it)) as [s1 ret1]; cbn [fst] in Hw; destruct (_ && _); try done.
  - by intros [= <- _ _].
  - by apply IH.
  - by intros [= <- _ _].
Qed.

Lemma run_items_keeps fuel r gran yield s l cycles s' l' c y :
  P s → run_items fuel cb r gran yield s l cycles = Some (s', l', c, y) → P s'.
Proof.
  revert s l cycles. induction fuel as [|fuel IH]; intros s [|it l] cycles Hs; cbn [run_items]; try done;
    [by intros [= <- _ _ _]..|].
  destruct (r <? ran it); [apply IH; auto|].
  destruct (run_item _ cb r s it) as [[[s1 n] ret]|] eqn:E; cbn [mbind option_bind]; [|done].
  apply run_item_keeps in E; [|done].
  destruct ret; repeat match goal with |- context [if ?b then _ else _] => destruct b end;
    try (intros [= <- _ _ _]); try (apply IH); auto.
Qed.

Lemma run_keeps fuel yield s wq s' wq' b : P s → work_queue_run fuel cb yield s wq = Some (s', wq', b) → P s'.
Proof.
  intros Hs. unfold work_queue_run. destruct (run_items _ _ _ _ _ _ _ _) as [[[[s1 l] c] y]|] eqn:E; cbn [mbind option_bind]; [|done].
  apply run_items_keeps in E; [|done]. destruct (new_granularity _ _ _ _). destruct (_ <? _); [by intros [= <- _ _]|].
  specialize (Hdone s1 E). unfold complete in Hdone. by destruct (completion_func cb); intros [= <- _ _].
Qed.
End keeps.

(** *** Items that succeed *)

Definition work s (it : work_queue_item D) : S := delete_data cb (workfunc cb s (data it)).1 (data it).

Lemma run_items_success fuel gran yield s l cycles :
  (∀ s d, (workfunc cb s d).2 = WQ_SUCCESS) → Forall (λ it, ran it <= retries) l → (length l <= fuel)%nat →
  ∃ k c y, run_items fuel cb retries gran yield s l cycles = Some (foldl work s (take k l), drop k l, c, y) ∧
    (l ≠ [] → 0 < k)%nat.
Proof.
  intros Hw. revert fuel s cycles. induction l as [|it l IH]; intros fuel s cycles Hl Hf.
  { exists 0%nat, cycles, false. split; [by destruct fuel|by intros []]. }
  destruct fuel as [|fuel]; [cbn [length] in Hf; lia|]. apply Forall_cons in Hl as [Hi Hl].
  cbn [run_items]. rewrite (proj2 (Z.ltb_ge _ _)) by done.
  assert (∀ n, run_item n cb retries s it = Some ((workfunc cb s (data it)).1, u16 (ran it + 1), WQ_SUCCESS)) as ->.
  { intros n. specialize (Hw s (data it)). destruct n; cbn [run_item]; destruct (workfunc cb s (data it)) as [s' ret];
      cbn [fst snd] in *; by subst. }
  cbn [mbind option_bind]. destruct (_ && _).
  - exists 1%nat. eexists _, _. split; [done|lia].
  - destruct (IH fuel (work s it) (u32 (cycles + 1))) as (k & c & y & E & _); [done|cbn [length] in Hf; lia|].
    exists (Datatypes.S k), c, y. split; [exact E|lia].
Qed.

(** One run of a queue whose items succeed takes some items off its front. *)
Lemma run_success fuel yield s (wq : work_queue D) :
  (∀ s d, (workfunc cb s d).2 = WQ_SUCCESS) → max_retries wq = retries →
  Forall (λ it, ran it <= retries) (items wq) → (length (items wq) <= fuel)%nat →
  CHECK_FLAG (flags wq) WQ_UNPLUGGED = true →
  ∃ k wq' b, (items wq ≠ [] → 0 < k)%nat ∧ items wq' = drop k (items wq) ∧
    max_retries wq' = retries ∧ flags wq' = flags wq ∧ (thread wq' = None ↔ items wq' = []) ∧
    work_queue_run fuel cb yield s wq =
      Some ((if decide (items wq' = []) then complete else id) (foldl work s (take k (items wq))), wq', b).
Proof.
  intros Hw Hr Hi Hf Hu. unfold work_queue_run. rewrite Hr.
  set (gran := if granularity wq =? 0 then _ else _). clearbody gran.
  destruct (run_items_success fuel gran yield s (items wq) 0 Hw Hi Hf) as (k & c & y & -> & Hk).
  cbn [mbind option_bind]. destruct (new_granularity _ _ _ _) as [g b].
  set (l' := drop k (items wq)). set (wq1 := WQ None _ _ _ _ _ _ _ _).
  destruct (decide (l' = [])) as [El|El].
  - subst wq1. rewrite El. cbn [length]. change (0 <? Z.of_nat 0) with false. cbn iota.
    exists k, (WQ None retries (hold wq) [] (u64 (runs wq + 1)) b g (u64 (total wq + c)) (flags wq)), (bool_decide (is_Some (completion_func cb))).
    cbn. rewrite decide_True by done. split_and!; [done|by symmetry|done..|].
    unfold complete. by destruct (completion_func cb).
  - rewrite (proj2 (Z.ltb_lt _ _)) by (destruct l'; [done|cbn [length]; lia]).
    exists k, (set_thread wq1 (Some 0)), false. cbn. rewrite decide_False by done.
    split_and!; [done..|]. unfold work_queue_schedule. subst wq1. cbn [flags thread items]. rewrite Hu, bool_decide_true by done.
    rewrite (proj2 (Z.ltb_lt 0 (Z.of_nat (length l')))) by (destruct l'; [done|cbn [length]; lia]). done.
Qed.

Lemma success_drains s0 l0 :
  (∀ s d, (workfunc cb s d).2 = WQ_SUCCESS) →
  Drains (λ s l, Forall (λ it, ran it <= retries) l ∧ foldl work s l = foldl work s0 l0) length.
Proof.
  intros Hw fuel gran yield s l cycles [Hl Hs] Hf Hne.
  destruct (run_items_success fuel gran yield s l cycles Hw Hl Hf) as (k & c & y & E & Hk).
  eexists _, _, c, y. split_and!; [exact E|by apply Forall_drop| | |].
  - by rewrite <- foldl_app, take_drop.
  - rewrite length_drop. lia.
  - rewrite length_drop. destruct l; [done|]. cbn [length]. specialize (Hk Hne). lia.
Qed.
End drain.

(** ** Properties *)


(** C26. When every call of the work function succeeds, draining a queue
    performs the work of its items once each and in the order they were added,
    however often it yields. *)
Theorem work_queue_in_order {S D} (cb : callbacks S D) (wq : work_queue D) t n fuel yields s :
  thread wq = Some t → CHECK_FLAG (flags wq) WQ_UNPLUGGED = true →
  (∀ s d, (workfunc cb s d).2 = WQ_SUCCESS) → Forall (λ it, ran it <= max_retries wq) (items wq) →
  (length (items wq) <= fuel)%nat → (length (items wq) < n)%nat →
  ∃ wq', drive n fuel cb yields s wq = Some (complete cb (foldl (work cb) s (items wq)), wq', completions cb) ∧
    items wq' = [] ∧ thread wq' = None.
Proof.
  intros Ht Hu Hw Hi Hf Hn. pose proof (success_drains cb (max_retries wq) s (items wq) Hw) as Hd.
  destruct (drive_drains cb _ _ _ n fuel yields s wq t eq_refl Hu Ht (conj Hi eq_refl) Hf Hn)
    as (s' & wq' & E & [_ Hs] & ?). exists wq'. cbn [foldl] in Hs. by rewrite <- Hs.
Qed.

(** [n] runs of the thread of the queue. *)
Fixpoint run_times {S D} (n fuel : nat) (cb : callbacks S D) yields s (wq : work_queue D) : option (S * work_queue D) :=
  match n with
  | O => Some (s, wq)
  | Datatypes.S n' => '(s, wq, _) ← work_queue_run fuel cb (yields n') s wq; run_times n' fuel cb yields s wq
  end.

(** [item->ran] has 16 bits and [max_retries] 32.  With a limit of 65535 or
    more an item that always asks to be retried later is never given up: after
    any number of runs it is still the first of the queue. *)
Theorem work_queue_retries_forever {S D} (cb : callbacks S D) (wq : work_queue D) n fuel yields s d r rest :
  65535 <= max_retries wq → (∀ s, (workfunc cb s d).2 = WQ_RETRY_LATER) →
  items wq = Item d r :: rest → 0 <= r <= 65535 →
  ∃ s' wq' r', run_times n (Datatypes.S fuel) cb yields s wq = Some (s', wq') ∧ items wq' = Item d r' :: rest.
Proof.
  intros Hm Hw. revert s wq r Hm. induction n as [|n IH]; intros s wq r Hm Hi Hr; [by exists s, wq, r|].
  cbn [run_times]. unfold work_queue_run. rewrite Hi.
  set (gran := if granularity wq =? 0 then _ else _). clearbody gran. cbn [run_items ran].
  rewrite (proj2 (Z.ltb_ge _ _)) by lia.
  assert (∀ k, run_item k cb (max_retries wq) s (Item d r) = Some ((workfunc cb s d).1, u16 (r + 1), WQ_RETRY_LATER)) as ->.
  { intros k. specialize (Hw s). destruct k; cbn [run_item data ran]; destruct (workfunc cb s d) as [s' ret];
      cbn [fst snd] in *; by subst. }
  cbn [mbind option_bind data]. destruct (new_granularity _ _ _ _) as [g b].
  rewrite (proj2 (Z.ltb_lt _ _)) by (cbn [length]; lia). cbn [mbind option_bind].
  unfold work_queue_schedule. set (c := _ && _). clearbody c.
  assert (0 <= u16 (r + 1) <= 65535) by (pose proof (Z.mod_pos_bound (r + 1) (2 ^ 16) ltac:(done)); unfold u16; lia).
  destruct c; cbn [fst]; apply (IH _ _ (u16 (r + 1))); cbn [max_retries items set_thread]; (lia || done).
Qed.

(** A queue with two items; the first fails once and is retried. *)
Definition count_cb : callbacks (list Z) Z :=
  Callbacks (λ s d, (s ++ [d], if decide (s = []) then WQ_RETRY_LATER else WQ_SUCCESS)) None None (Some (λ s, s ++ [0])).
Definition two_items : work_queue Z := work_queue_add (work_queue_add (set_spec work_queue_new 2 10) 7) 8.


Definition add_cb : callbacks (list Z) Z := Callbacks (λ s d, (s ++ [d], WQ_SUCCESS)) None None (Some (λ s, s ++ [0])).

Lemma work_queue_in_order_witness :
  ∃ wq', drive 5 2 add_cb (λ n _, Nat.even n) [] two_items = Some ([7; 8; 0], wq', 1%nat) ∧ items wq' = [].
Proof.
  destruct (work_queue_in_order add_cb two_items 10 5 2 (λ n _, Nat.even n) []) as (wq' & E & Hi & _);
    [reflexivity|reflexivity|reflexivity| |change (2 <= 2)%nat; lia|change (2 < 5)%nat; lia|by exists wq'].
  change (Forall (λ it, ran it <= 2) [Item 7 0; Item 8 0]). repeat constructor; cbn; lia.
Defined.

Lemma work_queue_retries_forever_witness :
  ∃ s' wq' r', run_times 1000 1 (Callbacks (λ s _, (s, WQ_RETRY_LATER)) None None None) (λ _ _, false) tt
      (work_queue_add (set_spec work_queue_new 65535 10) 7) = Some (s', wq') ∧ items wq' = [Item 7 r'].
Proof.
  apply (work_queue_retries_forever (Callbacks (λ s _, (s, WQ_RETRY_LATER)) None None None)
    (work_queue_add (set_spec work_queue_new 65535 10) 7) 1000 0 (λ _ _, false) tt 7 0 []);
    [change (65535 <= 65535); lia|reflexivity|reflexivity|lia].
Defined.
