(* ===== verification/Rib.v ===== *)
(** The routes of a table and their count: bgpd/bgp_route.c ([bgp_info_lock],
    [bgp_info_unlock], [bgp_info_add], [bgp_info_reap], [bgp_info_delete],
    [bgp_info_restore], [bgp_pcount_adjust], [bgp_info_set_flag],
    [bgp_info_unset_flag]).

    A state is one table: its routes and nodes by address, the locks of the
    nodes, and for each peer its references and its prefix count in the family
    of the table. *)
From S2P Require Import Prelude Hash Decision.
Open Scope Z_scope.

Definition BGP_INFO_STALE : Z := 256.
Definition BGP_INFO_COUNTED : Z := 1024.

Record route := Route {
  next : option loc;
  prev : option loc;
  peer : Z;
  rflags : Z;
  lock : Z;
}.

(** [main] is [type == BGP_TABLE_MAIN] and [peer_self] the peer for local routes.
    Removals from multipath lists are recorded in [dequeued]. *)
Record table := Tab {
  main : bool;
  peer_self : Z;
  routes : gmap loc route;
  heads : gmap loc (option loc);
  node_lock : gmap loc Z;
  peer_ref : gmap Z Z;
  pcount : gmap Z Z;
  dequeued : list loc;
}.

Definition at_ (m : gmap Z Z) (p : Z) : Z := default 0 (m !! p).

Definition set_routes (T : table) m : table :=
  Tab (main T) (peer_self T) m (heads T) (node_lock T) (peer_ref T) (pcount T) (dequeued T).
Definition set_heads (T : table) h : table :=
  Tab (main T) (peer_self T) (routes T) h (node_lock T) (peer_ref T) (pcount T) (dequeued T).
Definition set_node_lock (T : table) l : table :=
  Tab (main T) (peer_self T) (routes T) (heads T) l (peer_ref T) (pcount T) (dequeued T).
Definition set_peer_ref (T : table) p : table :=
  Tab (main T) (peer_self T) (routes T) (heads T) (node_lock T) p (pcount T) (dequeued T).
Definition set_pcount (T : table) c : table :=
  Tab (main T) (peer_self T) (routes T) (heads T) (node_lock T) (peer_ref T) c (dequeued T).
Definition add_dequeued (T : table) a : table :=
  Tab (main T) (peer_self T) (routes T) (heads T) (node_lock T) (peer_ref T) (pcount T) (dequeued T ++ [a]).

Definition with_next (r : route) n : route := Route n (prev r) (peer r) (rflags r) (lock r).
Definition with_prev (r : route) p : route := Route (next r) p (peer r) (rflags r) (lock r).
Definition with_rflags (r : route) f : route := Route (next r) (prev r) (peer r) f (lock r).
Definition with_lock (r : route) l : route := Route (next r) (prev r) (peer r) (rflags r) l.

Definition get (T : table) (a : loc) : M route := of_opt (routes T !! a).
Definition update (T : table) (a : loc) (k : route → route) : M table :=
  r ← get T a; Ok (set_routes T (<[a:=k r]> (routes T))).

(** Update through a pointer that may be null. *)
Definition update_opt (T : table) (a : option loc) (k : route → route) : M table :=
  match a with Some a => update T a k | None => Ok T end.

Definition peer_lock (T : table) (p : Z) : M table :=
  n ← of_opt (peer_ref T !! p);
  assert! 0 <=? n ;;
  Ok (set_peer_ref T (<[p:=n + 1]> (peer_ref T))).
(** The last reference frees the peer. *)
Definition peer_unlock (T : table) (p : Z) : M table :=
  n ← of_opt (peer_ref T !! p);
  assert! 0 <? n ;;
  Ok (set_peer_ref T (if n - 1 =? 0 then delete p (peer_ref T) else <[p:=n - 1]> (peer_ref T))).

(** [route_lock_node] and [route_unlock_node] as the nodes of this table see
    them: after the last unlock the node, which must be empty, is no longer one
    of them. *)
Definition bgp_lock_node (T : table) (rn : loc) : M table :=
  n ← of_opt (node_lock T !! rn);
  Ok (set_node_lock T (<[rn:=n + 1]> (node_lock T))).
Definition bgp_unlock_node (T : table) (rn : loc) : M table :=
  n ← of_opt (node_lock T !! rn);
  assert! 0 <? n ;;
  if n - 1 =? 0 then
    h ← of_opt (heads T !! rn);
    assert! bool_decide (h = None) ;;
    Ok (set_heads (set_node_lock T (delete rn (node_lock T))) (delete rn (heads T)))
  else Ok (set_node_lock T (<[rn:=n - 1]> (node_lock T))).

(** [bgp_info_new], with the peer its callers then set. *)
Definition bgp_info_new (T : table) (a : loc) (p : Z) : table :=
  set_routes T (<[a:=Route None None p 0 0]> (routes T)).

Definition bgp_info_lock (T : table) (ri : loc) : M table := update T ri (λ r, with_lock r (lock r + 1)).

Definition bgp_info_free (T : table) (ri : loc) : M table :=
  r ← get T ri;
  T ← peer_unlock T (peer r);
  Ok (set_routes T (delete ri (routes T))).

Definition bgp_info_unlock (T : table) (ri : loc) : M table :=
  r ← get T ri;
  assert! 0 <? lock r ;;
  T ← update T ri (λ r, with_lock r (lock r - 1));
  if lock r - 1 =? 0 then bgp_info_free T ri else Ok T.

Definition bgp_info_add (T : table) (rn ri : loc) : M table :=
  top ← of_opt (heads T !! rn);
  T ← update T ri (λ r, with_prev (with_next r top) None);
  T ← update_opt T top (λ r, with_prev r (Some ri));
  let T := set_heads T (<[rn:=Some ri]> (heads T)) in
  T ← bgp_info_lock T ri;
  T ← bgp_lock_node T rn;
  r ← get T ri;
  peer_lock T (peer r).

Definition bgp_info_reap (T : table) (rn ri : loc) : M table :=
  r ← get T ri;
  T ← update_opt T (next r) (λ n, with_prev n (prev r));
  T ← match prev r with
      | Some p => update T p (λ q, with_next q (next r))
      | None => Ok (set_heads T (<[rn:=next r]> (heads T)))
      end;
  T ← bgp_info_unlock (add_dequeued T ri) ri;
  bgp_unlock_node T rn.

(** [BGP_INFO_HOLDDOWN] as a test of the flags. *)
Definition holddown (f : Z) : bool := negb (CHECK_FLAG f BGP_INFO_VALID) || CHECK_FLAG f BGP_INFO_UNUSEABLE.

(** The branch that would decrement a count of zero only warns. *)
Definition bgp_pcount_adjust (T : table) (ri : loc) : M table :=
  r ← get T ri;
  if negb (main T) || (peer r =? peer_self T) then Ok T else
  if holddown (rflags r) && CHECK_FLAG (rflags r) BGP_INFO_COUNTED then
    T ← update T ri (λ r, with_rflags r (UNSET_FLAG (rflags r) BGP_INFO_COUNTED));
    if negb (at_ (pcount T) (peer r) =? 0)
    then Ok (set_pcount T (<[peer r:=at_ (pcount T) (peer r) - 1]> (pcount T)))
    else Ok T
  else if negb (holddown (rflags r)) && negb (CHECK_FLAG (rflags r) BGP_INFO_COUNTED) then
    T ← update T ri (λ r, with_rflags r (SET_FLAG (rflags r) BGP_INFO_COUNTED));
    Ok (set_pcount T (<[peer r:=u64 (at_ (pcount T) (peer r) + 1)]> (pcount T)))
  else Ok T.

Definition bgp_info_set_flag (T : table) (ri : loc) (f : Z) : M table :=
  T ← update T ri (λ r, with_rflags r (SET_FLAG (rflags r) f));
  if negb (CHECK_FLAG f (Z.lor BGP_INFO_VALID BGP_INFO_UNUSEABLE)) then Ok T
  else bgp_pcount_adjust T ri.

Definition bgp_info_unset_flag (T : table) (ri : loc) (f : Z) : M table :=
  T ← update T ri (λ r, with_rflags r (UNSET_FLAG (rflags r) f));
  if negb (CHECK_FLAG f (Z.lor BGP_INFO_VALID BGP_INFO_UNUSEABLE)) then Ok T
  else bgp_pcount_adjust T ri.

Definition bgp_info_delete (T : table) (ri : loc) : M table :=
  T ← bgp_info_set_flag T ri BGP_INFO_REMOVED;
  update T ri (λ r, with_rflags r (UNSET_FLAG (rflags r) BGP_INFO_VALID)).

Definition bgp_info_restore (T : table) (ri : loc) : M table :=
  T ← bgp_info_unset_flag T ri BGP_INFO_REMOVED;
  update T ri (λ r, with_rflags r (SET_FLAG (rflags r) BGP_INFO_VALID)).

(** ** The operations as a transition system *)

Inductive rib_op :=
  | OpNew (ri : loc) (p : Z)
  | OpAdd (rn ri : loc)
  | OpSetFlag (ri : loc) (f : Z)
  | OpUnsetFlag (ri : loc) (f : Z)
  | OpDelete (ri : loc)
  | OpRestore (ri : loc)
  | OpReap (rn ri : loc).

(** What the callers guarantee: allocation returns a fresh block, nobody sets
    [BGP_INFO_COUNTED] from outside and only removed routes are reaped. *)
Definition allowed (T : table) (o : rib_op) : Prop :=
  match o with
  | OpNew ri p => routes T !! ri = None ∧ Z.of_nat (size (routes T)) < 2 ^ 64 - 1
  | OpSetFlag _ f | OpUnsetFlag _ f => Z.land f BGP_INFO_COUNTED = 0
  | OpReap _ ri => ∀ r, routes T !! ri = Some r → CHECK_FLAG (rflags r) BGP_INFO_REMOVED = true
  | _ => True
  end.

Definition exec (o : rib_op) (T : table) : M table :=
  match o with
  | OpNew ri p => Ok (bgp_info_new T ri p)
  | OpAdd rn ri => bgp_info_add T rn ri
  | OpSetFlag ri f => bgp_info_set_flag T ri f
  | OpUnsetFlag ri f => bgp_info_unset_flag T ri f
  | OpDelete ri => bgp_info_delete T ri
  | OpRestore ri => bgp_info_restore T ri
  | OpReap rn ri => bgp_info_reap T rn ri
  end.

Inductive reaches (T : table) : table → Prop :=
  | reaches_refl : reaches T T
  | reaches_step T1 T2 o : reaches T T1 → allowed T1 o → exec o T1 = Ok T2 → reaches T T2.

(** The number of routes of a peer that carry [BGP_INFO_COUNTED]. *)
Definition is_counted (p : Z) (r : route) : bool := (peer r =? p) && CHECK_FLAG (rflags r) BGP_INFO_COUNTED.
Definition counted (m : gmap loc route) (p : Z) : Z := Z.of_nat (size (filter (λ kv, is_counted p kv.2 = true) m)).

(** A route counts only in a main table, for another peer than ourselves and
    while it is usable. *)
Definition count_ok (T : table) (r : route) : Prop :=
  CHECK_FLAG (rflags r) BGP_INFO_COUNTED = true → main T = true ∧ peer r ≠ peer_self T ∧ holddown (rflags r) = false.

Definition rib_ok (T : table) : Prop :=
  (∀ a r, routes T !! a = Some r → count_ok T r) ∧
  (∀ p, at_ (pcount T) p = counted (routes T) p) ∧
  Z.of_nat (size (routes T)) < 2 ^ 64.

(** ** Counting *)

Lemma counted_new m a r p :
  m !! a = None → counted (<[a:=r]> m) p = counted m p + Z.b2z (is_counted p r).
Proof.
  intros Ha. unfold counted. rewrite map_filter_insert. cbn [snd].
  destruct (is_counted p r); cbn [Z.b2z]; case_decide; try done; [|rewrite delete_id by done; lia].
  rewrite map_size_insert_None; [lia|]. apply map_lookup_filter_None. by left.
Qed.

Lemma counted_delete m a r p :
  m !! a = Some r → counted m p = counted (delete a m) p + Z.b2z (is_counted p r).
Proof.
  intros Ha. rewrite <- (insert_delete_id m a r) at 1 by done. apply counted_new, lookup_delete_eq.
Qed.

Lemma counted_update m a r r' p :
  m !! a = Some r →
  counted (<[a:=r']> m) p + Z.b2z (is_counted p r) =
  counted m p + Z.b2z (is_counted p r').
Proof.
  intros Ha. rewrite (counted_delete m a r p Ha). rewrite <- insert_delete_eq, counted_new by apply lookup_delete_eq. lia.
Qed.

Lemma counted_pos m a r p : m !! a = Some r → is_counted p r = true → 0 < counted m p.
Proof.
  intros Ha Hc. rewrite (counted_delete m a r p Ha), Hc. unfold counted. cbn [Z.b2z]. lia.
Qed.

Lemma counted_size m p : counted m p <= Z.of_nat (size m).
Proof. unfold counted. apply inj_le. apply map_subseteq_size, map_filter_subseteq. Qed.

(** A usable route that is not counted is one more. *)
Lemma counted_lt m a r p : m !! a = Some r → is_counted p r = false → counted m p < Z.of_nat (size m).
Proof.
  intros Ha Hc. rewrite (counted_delete m a r p Ha), Hc. cbn [Z.b2z].
  pose proof (counted_size (delete a m) p). rewrite map_size_delete_Some in H by eauto.
  pose proof (map_size_non_empty_iff m) as [_ Hs]. assert (size m ≠ 0%nat) by (apply Hs; intros ->; done). lia.
Qed.

(** ** Changes that leave peers and flags alone *)

Definition keeps (k : route → route) : Prop := ∀ r, peer (k r) = peer r ∧ rflags (k r) = rflags r.

Lemma rib_ok_ext T T' :
  main T' = main T → peer_self T' = peer_self T → routes T' = routes T → pcount T' = pcount T →
  rib_ok T → rib_ok T'.
Proof. unfold rib_ok, count_ok. by intros -> -> -> ->. Qed.

Lemma update_spec T a k T' :
  update T a k = Ok T' → ∃ r, routes T !! a = Some r ∧ T' = set_routes T (<[a:=k r]> (routes T)).
Proof. unfold update, get. destruct (routes T !! a); cbn; [|done]. intros [= <-]. eauto. Qed.

Lemma update_keeps T a k T' : keeps k → update T a k = Ok T' → rib_ok T → rib_ok T'.
Proof.
  intros Hk (r & Ha & ->)%update_spec (H1 & H2 & H3). destruct (Hk r) as [Ep Ef]. split_and!; cbn.
  - intros b r' [[<- <-]|[Hne Hb]]%lookup_insert_Some; [|by eapply H1].
    unfold count_ok. rewrite Ep, Ef. by apply (H1 a).
  - intros p. rewrite H2. pose proof (counted_update (routes T) a r (k r) p Ha) as E.
    assert (is_counted p (k r) = is_counted p r) as Hi by (unfold is_counted; by rewrite Ep, Ef).
    rewrite Hi in E. lia.
  - rewrite map_size_insert_Some by eauto. done.
Qed.

Lemma update_opt_keeps T a k T' : keeps k → update_opt T a k = Ok T' → rib_ok T → rib_ok T'.
Proof. destruct a as [a|]; cbn; [apply update_keeps|]. by intros _ [= <-]. Qed.

Lemma peer_lock_ok T p T' : peer_lock T p = Ok T' → rib_ok T → rib_ok T'.
Proof.
  unfold peer_lock. destruct (peer_ref T !! p); cbn; [|done]. destruct (_ <=? _); [|done].
  intros [= <-]. by apply rib_ok_ext.
Qed.
Lemma peer_unlock_ok T p T' : peer_unlock T p = Ok T' → rib_ok T → rib_ok T' ∧ routes T' = routes T ∧ main T' = main T.
Proof.
  unfold peer_unlock. destruct (peer_ref T !! p); cbn; [|done]. destruct (_ <? _); [|done].
  intros [= <-] H. split_and!; [|done..]. by apply (rib_ok_ext T).
Qed.
Lemma lock_node_ok T rn T' : bgp_lock_node T rn = Ok T' → rib_ok T → rib_ok T'.
Proof.
  unfold bgp_lock_node. destruct (node_lock T !! rn); cbn; [|done]. intros [= <-]. by apply rib_ok_ext.
Qed.
Lemma unlock_node_ok T rn T' : bgp_unlock_node T rn = Ok T' → rib_ok T → rib_ok T'.
Proof.
  unfold bgp_unlock_node. destruct (node_lock T !! rn); cbn; [|done]. destruct (_ <? _); [|done].
  destruct (_ =? 0); [|intros [= <-]; by apply rib_ok_ext].
  destruct (heads T !! rn); cbn; [|done]. case_bool_decide; [|done]. intros [= <-]. by apply rib_ok_ext.
Qed.

(** ** Flags and counts *)

(** The invariant except that the flags of [ri] have just changed. *)
Definition rib_but (ri : loc) (T : table) : Prop :=
  (∀ a r, routes T !! a = Some r → a ≠ ri → count_ok T r) ∧
  (∀ r, routes T !! ri = Some r → CHECK_FLAG (rflags r) BGP_INFO_COUNTED = true → main T = true ∧ peer r ≠ peer_self T) ∧
  (∀ p, at_ (pcount T) p = counted (routes T) p) ∧
  Z.of_nat (size (routes T)) < 2 ^ 64.

Lemma at_insert m p q v : at_ (<[p:=v]> m) q = if decide (p = q) then v else at_ m q.
Proof. unfold at_. rewrite lookup_insert. by destruct (decide (p = q)). Qed.

(** Changing the [BGP_INFO_COUNTED] bit of a route with the count. *)
Lemma recount T ri r f v :
  rib_but ri T → routes T !! ri = Some r →
  count_ok T (with_rflags r f) →
  v = at_ (pcount T) (peer r) - Z.b2z (CHECK_FLAG (rflags r) BGP_INFO_COUNTED)
      + Z.b2z (CHECK_FLAG f BGP_INFO_COUNTED) →
  rib_ok (set_pcount (set_routes T (<[ri:=with_rflags r f]> (routes T))) (<[peer r:=v]> (pcount T))).
Proof.
  intros (H1 & _ & H3 & H4) Hr Hc ->. split_and!; cbn.
  - intros a r' [[<- <-]|[Hne Ha]]%lookup_insert_Some; [done|]. by apply (H1 a).
  - intros p. rewrite at_insert. pose proof (counted_update (routes T) ri r (with_rflags r f) p Hr) as E. rewrite !H3.
    unfold is_counted in E. cbn [peer rflags with_rflags] in E. destruct (decide (peer r = p)) as [<-|Hne].
    + rewrite Z.eqb_refl in E. cbn [andb] in E. unfold counted, is_counted in *. lia.
    + rewrite (proj2 (Z.eqb_neq _ _)) in E by done. unfold counted, is_counted in *. cbn [andb Z.b2z] in E. lia.
  - by rewrite map_size_insert_Some by eauto.
Qed.

Lemma adjust_ok T ri T' : rib_but ri T → bgp_pcount_adjust T ri = Ok T' → rib_ok T'.
Proof.
  intros Hb. pose proof Hb as (H1 & H2 & H3 & H4). unfold bgp_pcount_adjust, update, get.
  destruct (routes T !! ri) as [r|] eqn:Hr; cbn [of_opt mbind M_bind]; [|done]. specialize (H2 r eq_refl).
  assert (count_ok T r → rib_ok T) as Hsame.
  { intros Hc. split_and!; [|done..]. intros a r' Ha. destruct (decide (a = ri)) as [->|]; [|by eapply H1].
    rewrite Hr in Ha. by injection Ha as <-. }
  destruct (negb (main T) || (peer r =? peer_self T)) eqn:Em.
  { intros [= <-]. apply Hsame. intros Hc. destruct (H2 Hc) as [E1 E2]. rewrite E1 in Em. cbn in Em.
    apply Z.eqb_eq in Em. done. }
  apply orb_false_iff in Em as [Em%negb_false_iff Es%Z.eqb_neq].
  destruct (holddown (rflags r)) eqn:Eh, (CHECK_FLAG (rflags r) BGP_INFO_COUNTED) eqn:Ec; cbn [andb negb].
  - cbn [pcount set_routes mbind M_bind]. pose proof (counted_pos (routes T) ri r (peer r) Hr).
    unfold is_counted in H at 1. rewrite Z.eqb_refl, Ec in H. specialize (H eq_refl).
    rewrite <- H3 in *. rewrite (proj2 (Z.eqb_neq _ _)) by lia. cbn [negb]. intros [= <-].
    apply recount; [done|done| |].
    + intros Hc. revert Hc. cbn. by rewrite check_unset_same.
    + rewrite Ec, check_unset_same by done. cbn [Z.b2z]. lia.
  - intros [= <-]. apply Hsame. intros Hc. congruence.
  - intros [= <-]. apply Hsame. intros _. split_and!; [done|done|done].
  - cbn [pcount set_routes mbind M_bind]. intros [= <-].
    assert (is_counted (peer r) r = false) as Hn by (unfold is_counted; by rewrite Ec, andb_false_r).
    pose proof (counted_lt (routes T) ri r (peer r) Hr Hn). pose proof (H3 (peer r)).
    apply recount; [done|done| |].
    + intros _. cbn. split_and!; [done|done|]. unfold holddown in *. flags_simpl.
      by rewrite !orb_false_r.
    + rewrite Ec, check_set, orb_true_r. cbn [Z.b2z]. unfold u64. rewrite Z.mod_small; unfold counted in *; lia.
Qed.

Lemma check_false f g : CHECK_FLAG f g = false → Z.land f g = 0.
Proof. intros ?%negb_false_iff%Z.eqb_eq. done. Qed.

Lemma check_zero f g : Z.land f g = 0 → CHECK_FLAG f g = false.
Proof. unfold CHECK_FLAG. by intros ->. Qed.

Lemma check_lor f a b : CHECK_FLAG f (Z.lor a b) = CHECK_FLAG f a || CHECK_FLAG f b.
Proof. unfold CHECK_FLAG. rewrite !(Z.land_comm f). apply check_set. Qed.

(** A change of the flags of a route, followed by the adjustment unless the
    change does not affect usability. *)
Lemma flag_change_ok T ri k (b : bool) T' :
  (∀ v, CHECK_FLAG (k v) BGP_INFO_COUNTED = CHECK_FLAG v BGP_INFO_COUNTED) →
  (b = false → ∀ r, routes T !! ri = Some r → count_ok T r → count_ok T (with_rflags r (k (rflags r)))) → rib_ok T →
  (T ← update T ri (λ r, with_rflags r (k (rflags r))); if negb b then Ok T else bgp_pcount_adjust T ri) = Ok T' →
  rib_ok T'.
Proof.
  intros Hc Hh (H1 & H2 & H3) E. apply bind_ok in E as (T1 & (r & Hr & ->)%update_spec & E).
  assert (∀ p, counted (<[ri:=with_rflags r (k (rflags r))]> (routes T)) p = counted (routes T) p) as Hcnt.
  { intros p. pose proof (counted_update (routes T) ri r (with_rflags r (k (rflags r))) p Hr) as E2.
    assert (is_counted p (with_rflags r (k (rflags r))) = is_counted p r) as Hi by (unfold is_counted; cbn; by rewrite Hc).
    rewrite Hi in E2. lia. }
  assert (rib_but ri (set_routes T (<[ri:=with_rflags r (k (rflags r))]> (routes T)))) as Hb.
  { split_and!; cbn.
    - intros a r' [[<- <-]|[Hne Ha]]%lookup_insert_Some Hn; [done|by eapply H1].
    - intros r'. rewrite lookup_insert_eq. intros [= <-]. cbn. rewrite Hc. intros Hx. by destruct (H1 ri r Hr Hx) as (? & ? & _).
    - intros p. by rewrite Hcnt, H2.
    - by rewrite map_size_insert_Some by eauto. }
  destruct b; cbn [negb] in E; [by eapply adjust_ok|]. injection E as <-.
  destruct Hb as (B1 & B2 & B3 & B4). split_and!; [|done..].
  intros a r' Ha. destruct (decide (a = ri)) as [->|]; [|by eapply B1].
  cbn in Ha. rewrite lookup_insert_eq in Ha. injection Ha as <-. apply (Hh eq_refl r Hr), (H1 ri r Hr).
Qed.

Lemma set_flag_ok T ri f T' :
  Z.land f BGP_INFO_COUNTED = 0 → rib_ok T → bgp_info_set_flag T ri f = Ok T' → rib_ok T'.
Proof.
  intros Hf. apply (flag_change_ok T ri (λ v, SET_FLAG v f) (CHECK_FLAG f (Z.lor BGP_INFO_VALID BGP_INFO_UNUSEABLE))).
  - intros v. rewrite check_set. by rewrite (check_zero f _ Hf), orb_false_r.
  - rewrite check_lor. intros [E1 E2]%orb_false_iff r _. unfold count_ok, holddown. cbn.
    rewrite !check_set, E1, E2, !orb_false_r. by rewrite (check_zero f _ Hf), orb_false_r.
Qed.

Lemma unset_flag_ok T ri f T' :
  Z.land f BGP_INFO_COUNTED = 0 → rib_ok T → bgp_info_unset_flag T ri f = Ok T' → rib_ok T'.
Proof.
  intros Hf. apply (flag_change_ok T ri (λ v, UNSET_FLAG v f) (CHECK_FLAG f (Z.lor BGP_INFO_VALID BGP_INFO_UNUSEABLE))).
  - intros v. by rewrite check_unset_other.
  - rewrite check_lor. intros [E1%check_false E2%check_false]%orb_false_iff r _. unfold count_ok, holddown. cbn.
    by rewrite !check_unset_other.
Qed.

(** The adjustment changes the [BGP_INFO_COUNTED] bit only. *)
Lemma adjust_flags T ri T' r g :
  bgp_pcount_adjust T ri = Ok T' → routes T !! ri = Some r → Z.land BGP_INFO_COUNTED g = 0 →
  ∃ r', routes T' !! ri = Some r' ∧ CHECK_FLAG (rflags r') g = CHECK_FLAG (rflags r) g.
Proof.
  unfold bgp_pcount_adjust, update, get. intros E Hr Hg. rewrite Hr in E. cbn [of_opt mbind M_bind] in E.
  repeat case_match; simplify_eq; cbn; rewrite ?lookup_insert_eq; eauto; eexists; (split; [done|]); cbn.
  all: rewrite ?check_unset_other, ?check_set by done; try done.
  by rewrite (check_zero _ _ Hg), orb_false_r.
Qed.

Lemma set_removed T ri T' :
  bgp_info_set_flag T ri BGP_INFO_REMOVED = Ok T' →
  ∃ r, routes T' !! ri = Some r ∧ CHECK_FLAG (rflags r) BGP_INFO_REMOVED = true.
Proof.
  intros (T1 & (r & Hr & ->)%update_spec & E)%bind_ok. cbn [negb] in E.
  eapply adjust_flags with (g := BGP_INFO_REMOVED) in E as (r' & Hr' & Ef); [|cbn; by rewrite lookup_insert_eq|done].
  exists r'. split; [done|]. rewrite Ef. cbn. rewrite check_set. apply orb_true_r.
Qed.

Lemma removed_holddown f : CHECK_FLAG f BGP_INFO_REMOVED = true → holddown f = true.
Proof.
  intros H. unfold holddown, BGP_INFO_UNUSEABLE. rewrite (check_lor f _ BGP_INFO_REMOVED), H. by rewrite !orb_true_r.
Qed.

Lemma reflag_ok T ri k T' :
  (∀ v, CHECK_FLAG (k v) BGP_INFO_COUNTED = CHECK_FLAG v BGP_INFO_COUNTED) →
  (∀ r, routes T !! ri = Some r → count_ok T r → count_ok T (with_rflags r (k (rflags r)))) →
  rib_ok T → update T ri (λ r, with_rflags r (k (rflags r))) = Ok T' → rib_ok T'.
Proof.
  intros Hc Hh H E. eapply (flag_change_ok T ri k false T'); [done|done|done|]. rewrite E. done.
Qed.

Lemma delete_ok T ri T' : rib_ok T → bgp_info_delete T ri = Ok T' → rib_ok T'.
Proof.
  intros H (T1 & E1 & E2)%bind_ok. pose proof (set_flag_ok T ri BGP_INFO_REMOVED T1 eq_refl H E1) as H1.
  eapply (reflag_ok T1 ri (λ v, UNSET_FLAG v BGP_INFO_VALID)); [|..|done|done].
  - intros v. by rewrite check_unset_other.
  - intros r Hr Hok. apply set_removed in E1 as (r1 & Hr1 & Hrem). rewrite Hr in Hr1. injection Hr1 as <-.
    intros Hx. cbn in Hx. rewrite check_unset_other in Hx by done. destruct (Hok Hx) as (_ & _ & Hh).
    by rewrite removed_holddown in Hh.
Qed.

Lemma restore_ok T ri T' : rib_ok T → bgp_info_restore T ri = Ok T' → rib_ok T'.
Proof.
  intros H (T1 & E1 & E2)%bind_ok. pose proof (unset_flag_ok T ri BGP_INFO_REMOVED T1 eq_refl H E1) as H1.
  eapply (reflag_ok T1 ri (λ v, SET_FLAG v BGP_INFO_VALID)); [|..|done|done].
  - intros v. rewrite check_set. by rewrite orb_false_r.
  - intros r Hr Hok Hx. cbn in *. rewrite check_set, orb_false_r in Hx. destruct (Hok Hx) as (? & ? & Hh).
    split_and!; [done|done|]. revert Hh. unfold holddown. rewrite !check_set, !orb_true_r.
    intros [_ ->]%orb_false_iff. done.
Qed.

(** Freeing an uncounted route. *)
Lemma free_ok T ri r T' :
  rib_ok T → routes T !! ri = Some r → CHECK_FLAG (rflags r) BGP_INFO_COUNTED = false →
  bgp_info_free T ri = Ok T' → rib_ok T'.
Proof.
  intros H Hr Hc. unfold bgp_info_free, get. rewrite Hr. cbn [of_opt mbind M_bind].
  intros (T1 & E & [= <-])%bind_ok. apply peer_unlock_ok in E as ((H1 & H2 & H3) & Er & _); [|done].
  assert (∀ p, counted (delete ri (routes T1)) p = counted (routes T1) p) as Hcnt.
  { intros p. rewrite Er. pose proof (counted_delete (routes T) ri r p Hr) as E. unfold is_counted in E.
    rewrite Hc, andb_false_r in E. cbn [Z.b2z] in E. unfold counted, is_counted in *. lia. }
  split_and!; cbn.
  - intros a r' [_ Ha]%lookup_delete_Some. by apply (H1 a).
  - intros p. by rewrite Hcnt.
  - rewrite map_size_delete_Some by (rewrite Er; eauto). lia.
Qed.

Lemma unlock_ok T ri r T' :
  rib_ok T → routes T !! ri = Some r → CHECK_FLAG (rflags r) BGP_INFO_COUNTED = false →
  bgp_info_unlock T ri = Ok T' → rib_ok T'.
Proof.
  intros H Hr Hc. unfold bgp_info_unlock, get. rewrite Hr. cbn [of_opt mbind M_bind]. destruct (0 <? lock r); [|done].
  intros (T1 & E1 & E2)%bind_ok. assert (rib_ok T1) as H1 by (eapply update_keeps; [|exact E1|done]; by intros ?).
  destruct (_ =? 0); [|by injection E2 as <-].
  apply update_spec in E1 as (r' & Hr' & ->). rewrite Hr in Hr'. injection Hr' as <-.
  eapply (free_ok _ ri (with_lock r (lock r - 1))); [done|cbn; by rewrite lookup_insert_eq|done|done].
Qed.

Lemma add_ok T rn ri T' : rib_ok T → bgp_info_add T rn ri = Ok T' → rib_ok T'.
Proof.
  intros H (top & _ & (T1 & E1 & (T2 & E2 & (T3 & E3 & (T4 & E4 & (r & _ & E5)%bind_ok)%bind_ok)%bind_ok)%bind_ok)%bind_ok)%bind_ok.
  eapply peer_lock_ok; [done|]. eapply lock_node_ok; [done|]. eapply update_keeps; [|exact E3|]; [by intros ?|].
  eapply (rib_ok_ext T2); [done..|]. eapply update_opt_keeps; [|exact E2|]; [by intros ?|].
  by eapply update_keeps; [|exact E1|].
Qed.

(** Links change, peers and flags stay. *)
Lemma update_lookup T a k T' b r :
  keeps k → update T a k = Ok T' → routes T !! b = Some r →
  ∃ r', routes T' !! b = Some r' ∧ rflags r' = rflags r.
Proof.
  intros Hk (ra & Ha & ->)%update_spec Hb. cbn. destruct (decide (a = b)) as [->|Hne].
  - rewrite Ha in Hb. injection Hb as <-. rewrite lookup_insert_eq. eexists. split; [done|]. apply Hk.
  - rewrite lookup_insert_ne by done. eauto.
Qed.

Lemma reap_ok T rn ri T' :
  (∀ r, routes T !! ri = Some r → CHECK_FLAG (rflags r) BGP_INFO_REMOVED = true) →
  rib_ok T → bgp_info_reap T rn ri = Ok T' → rib_ok T'.
Proof.
  intros Hrem H. unfold bgp_info_reap, get. destruct (routes T !! ri) as [r|] eqn:Hr; [|done].
  specialize (Hrem r eq_refl). cbn [of_opt mbind M_bind].
  intros (T1 & E1 & (T2 & E2 & (T3 & E3 & E4)%bind_ok)%bind_ok)%bind_ok. eapply unlock_node_ok; [done|].
  assert (rib_ok T1 ∧ ∃ r1, routes T1 !! ri = Some r1 ∧ rflags r1 = rflags r) as (H1 & r1 & Hr1 & Ef1).
  { split; [by eapply update_opt_keeps; [|exact E1|]|]. destruct (next r); cbn in E1; [|injection E1 as <-; eauto].
    by eapply update_lookup; [|exact E1|]. }
  assert (rib_ok T2 ∧ ∃ r2, routes T2 !! ri = Some r2 ∧ rflags r2 = rflags r) as (H2 & r2 & Hr2 & Ef2).
  { rewrite <- Ef1. destruct (prev r); [|injection E2 as <-; split; [by apply (rib_ok_ext T1)|eauto]].
    split; [by eapply update_keeps; [|exact E2|]|by eapply update_lookup; [|exact E2|]]. }
  eapply (unlock_ok (add_dequeued T2 ri) ri r2); [by apply (rib_ok_ext T2)|done| |done].
  destruct (CHECK_FLAG (rflags r2) BGP_INFO_COUNTED) eqn:Ec; [|done]. destruct H2 as (H2 & _).
  destruct (H2 ri r2 Hr2 Ec) as (_ & _ & Hh). by rewrite Ef2, removed_holddown in Hh.
Qed.

Lemma exec_ok T o T' : rib_ok T → allowed T o → exec o T = Ok T' → rib_ok T'.
Proof.
  intros H Ha E. destruct o as [ri p|rn ri|ri f|ri f|ri|ri|rn ri]; cbn in Ha, E.
  - injection E as <-. destruct Ha as [Ha Hs], H as (H1 & H2 & H3). split_and!; cbn.
    + intros a r [[<- <-]|[_ Hr]]%lookup_insert_Some; [by intros Hx|by eapply H1].
    + intros q. rewrite counted_new by done. unfold is_counted. cbn [peer rflags]. rewrite andb_false_r, H2. cbn [Z.b2z]. lia.
    + rewrite map_size_insert_None by done. lia.
  - by eapply add_ok.
  - by eapply set_flag_ok.
  - by eapply unset_flag_ok.
  - by eapply delete_ok.
  - by eapply restore_ok.
  - by eapply reap_ok.
Qed.

Lemma reaches_ok T T' : rib_ok T → reaches T T' → rib_ok T'.
Proof. induction 2; [done|]. by eapply exec_ok. Qed.

(** ** The list of a node *)

Definition hd_or (l : list loc) (n : option loc) : option loc := match l with [] => n | a :: _ => Some a end.
Definition last_or (l : list loc) (p : option loc) : option loc := match last l with Some a => Some a | None => p end.

(** The routes [l] are linked both ways between [p] and [n]. *)
Fixpoint linked (m : gmap loc route) (p : option loc) (l : list loc) (n : option loc) : Prop :=
  match l with
  | [] => True
  | a :: l' => (∃ r, m !! a = Some r ∧ prev r = p ∧ next r = hd_or l' n) ∧ linked m (Some a) l' n
  end.

Definition node_list (T : table) (rn : loc) (l : list loc) : Prop :=
  heads T !! rn = Some (hd_or l None) ∧ linked (routes T) None l None ∧ NoDup l.

Lemma rib_linked_app m p l1 l2 n :
  linked m p (l1 ++ l2) n ↔ linked m p l1 (hd_or l2 n) ∧ linked m (last_or l1 p) l2 n.
Proof.
  revert p. induction l1 as [|a l1 IH]; intros p; cbn [app linked]; [naive_solver|].
  rewrite IH. unfold last_or. rewrite last_cons.
  assert (hd_or (l1 ++ l2) n = hd_or l1 (hd_or l2 n)) as -> by (by destruct l1).
  destruct (last l1); naive_solver.
Qed.

Lemma rib_linked_frame m m' p l n : (∀ a, a ∈ l → m' !! a = m !! a) → linked m p l n → linked m' p l n.
Proof.
  revert p. induction l as [|a l IH]; intros p Hm; cbn [linked]; [done|]. intros [H1 H2].
  split; [rewrite Hm by set_solver; done|]. apply IH; [|done]. intros b Hb. apply Hm. set_solver.
Qed.

Lemma rib_linked_prev m p q a l n r :
  a ∉ l → m !! a = Some r → linked m p (a :: l) n → linked (<[a:=with_prev r q]> m) q (a :: l) n.
Proof.
  intros Ha Hr [(r' & Hr' & _ & Hn) Hl]. rewrite Hr in Hr'. injection Hr' as <-. split.
  - eexists. rewrite lookup_insert_eq. split_and!; done.
  - eapply rib_linked_frame; [|done]. intros b Hb. rewrite lookup_insert_ne; [done|]. set_solver.
Qed.

Lemma rib_linked_next m p a l n n' r :
  a ∉ l → m !! a = Some r → linked m p (l ++ [a]) n → linked (<[a:=with_next r n']> m) p (l ++ [a]) n'.
Proof.
  intros Ha Hr [H1 [(r' & Hr' & Hp & _) _]]%rib_linked_app. rewrite Hr in Hr'. injection Hr' as <-.
  apply rib_linked_app. split.
  - eapply rib_linked_frame; [|done]. intros b Hb. rewrite lookup_insert_ne; [done|]. set_solver.
  - split; [|done]. eexists. rewrite lookup_insert_eq. split_and!; done.
Qed.

Lemma linked_in m p l n a : linked m p l n → a ∈ l → ∃ r, m !! a = Some r.
Proof.
  revert p. induction l as [|b l IH]; intros p; [set_solver|]. intros [(r & Hr & _) Hl] [->|Ha]%elem_of_cons; eauto.
Qed.

(** ** Adding and reaping keep the list *)

Lemma update_returns T a k r : routes T !! a = Some r → update T a k = Ok (set_routes T (<[a:=k r]> (routes T))).
Proof. intros Hr. unfold update, get. by rewrite Hr. Qed.

(** The unlocking of a route after it has left the list; [P] is any property of
    the table that its locks and the route itself do not matter for. *)
Lemma unlock_returns T ri r n l :
  routes T !! ri = Some r → 0 < lock r → peer_ref T !! peer r = Some n → 0 < n →
  ri ∉ l → linked (routes T) None l None →
  ∃ T', bgp_info_unlock T ri = Ok T' ∧ heads T' = heads T ∧ node_lock T' = node_lock T ∧
    linked (routes T') None l None.
Proof.
  intros Hr Hl Hp Hn Hni Hlk. unfold bgp_info_unlock, get. rewrite Hr. cbn [of_opt mbind M_bind].
  rewrite (proj2 (Z.ltb_lt _ _)) by done. rewrite (update_returns T ri _ r Hr). cbn [mbind M_bind].
  assert (∀ m, (∀ a, a ≠ ri → m !! a = routes T !! a) → linked m None l None) as Hfr.
  { intros m Hm. eapply rib_linked_frame; [|done]. intros a Ha. apply Hm. set_solver. }
  destruct (_ =? 0).
  - unfold bgp_info_free, get. cbn. rewrite lookup_insert_eq. cbn. unfold peer_unlock. cbn. rewrite Hp. cbn.
    rewrite (proj2 (Z.ltb_lt _ _)) by done. cbn. eexists. split_and!; [done..|]. cbn. apply Hfr.
    intros a Ha. by rewrite lookup_delete_ne, lookup_insert_ne.
  - eexists. split_and!; [done..|]. cbn. apply Hfr. intros a Ha. by rewrite lookup_insert_ne.
Qed.

Lemma unlock_node_returns T rn h k :
  heads T !! rn = Some h → node_lock T !! rn = Some k → 1 < k →
  ∃ T', bgp_unlock_node T rn = Ok T' ∧ heads T' = heads T ∧ routes T' = routes T.
Proof.
  intros Hh Hk H1. unfold bgp_unlock_node. rewrite Hk. cbn. rewrite (proj2 (Z.ltb_lt _ _)) by lia.
  rewrite (proj2 (Z.eqb_neq _ _)) by lia. by eexists.
Qed.

Lemma add_list T rn ri l r n k :
  node_list T rn l → ri ∉ l → routes T !! ri = Some r →
  node_lock T !! rn = Some k → peer_ref T !! peer r = Some n → 0 <= n →
  returns (bgp_info_add T rn ri) (λ T', node_list T' rn (ri :: l)).
Proof.
  intros (Hh & Hl & Hnd) Hni Hr Hk Hp Hn. unfold bgp_info_add. rewrite Hh. cbn [of_opt mbind M_bind].
  rewrite (update_returns T ri _ r Hr). cbn [mbind M_bind].
  set (r1 := with_prev (with_next r (hd_or l None)) None). set (m1 := <[ri:=r1]> (routes T)).
  assert (∃ m2, update_opt (set_routes T m1) (hd_or l None) (λ r, with_prev r (Some ri)) = Ok (set_routes T m2) ∧
    m2 !! ri = Some r1 ∧ linked m2 (Some ri) l None) as (m2 & -> & Hri & Hl2).
  { assert (linked m1 None l None) as Hl1.
    { eapply rib_linked_frame; [|done]. intros a Ha. subst m1. rewrite lookup_insert_ne; set_solver. }
    destruct l as [|a l]; cbn [hd_or update_opt].
    - exists m1. split_and!; [done| |done]. apply lookup_insert_eq.
    - destruct (linked_in _ _ _ _ a Hl1) as [ra Ha]; [set_solver|].
      rewrite (update_returns (set_routes T m1) a _ ra Ha). eexists. split_and!; [done| |].
      + rewrite lookup_insert_ne by set_solver. apply lookup_insert_eq.
      + apply NoDup_cons in Hnd as [Hna _]. by eapply rib_linked_prev. }
  cbn [mbind M_bind]. unfold bgp_info_lock. rewrite (update_returns _ ri _ r1) by exact Hri. cbn [mbind M_bind].
  unfold bgp_lock_node. cbn. rewrite Hk. cbn. unfold get. cbn. rewrite lookup_insert_eq. cbn.
  unfold peer_lock. cbn. rewrite Hp. cbn. rewrite (proj2 (Z.leb_le _ _)) by done.
  eexists. split; [done|]. split_and!; cbn; [apply lookup_insert_eq| |by constructor].
  split; [eexists; rewrite lookup_insert_eq; done|].
  eapply rib_linked_frame; [|done]. intros a Ha. rewrite lookup_insert_ne; set_solver.
Qed.

(** Taking a route out of the middle of a linked list. *)
Lemma unlink_list T rn ri l1 l2 r :
  node_list T rn (l1 ++ ri :: l2) → routes T !! ri = Some r →
  ∃ T' r', (T ← update_opt T (next r) (λ n, with_prev n (prev r));
    match prev r with
    | Some p => update T p (λ q, with_next q (next r))
    | None => Ok (set_heads T (<[rn:=next r]> (heads T)))
    end) = Ok T' ∧ node_list T' rn (l1 ++ l2) ∧ routes T' !! ri = Some r' ∧ peer r' = peer r ∧ lock r' = lock r ∧
    peer_ref T' = peer_ref T ∧ node_lock T' = node_lock T.
Proof.
  intros (Hh & [Hl1 [(r0 & Hr0 & Ep & En) Hl2]]%rib_linked_app & Hnd) Hr. rewrite Hr in Hr0. injection Hr0 as <-.
  apply NoDup_app in Hnd as (Hnd1 & Hdis & [Hri Hnd2]%NoDup_cons). cbn [hd_or] in Hl1.
  assert (ri ∉ l1) as Hri1 by (intros Hx; apply (Hdis ri Hx); left).
  assert (NoDup (l1 ++ l2)) as Hnd12.
  { apply NoDup_app. split_and!; [done| |done]. intros x Hx Hx2. apply (Hdis x Hx). by right. }
  assert (∃ m, update_opt T (next r) (λ n, with_prev n (prev r)) = Ok (set_routes T m) ∧
    linked m (prev r) l2 None ∧ (∀ a, a ∉ l2 → m !! a = routes T !! a)) as (m & -> & Hm2 & Hfr).
  { rewrite En. destruct l2 as [|a l2]; cbn [hd_or update_opt]; [exists (routes T); split_and!; [by destruct T|done|done]|].
    destruct (linked_in _ _ _ _ a Hl2) as [ra Ha]; [left|]. rewrite (update_returns T a _ ra Ha).
    eexists. split_and!; [done| |].
    - apply NoDup_cons in Hnd2 as [Hna _]. by eapply rib_linked_prev.
    - intros b Hb. rewrite lookup_insert_ne; set_solver. }
  cbn [mbind M_bind]. assert (linked m None l1 (Some ri)) as Hm1.
  { eapply rib_linked_frame; [|done]. intros a Ha. apply Hfr. intros Hx. apply (Hdis a Ha). by right. }
  rewrite Ep. destruct l1 as [|b l1 _] using rev_ind; unfold last_or; [|rewrite last_snoc]; cbn [last].
  - eexists _, r. split_and!; [done|split_and!; cbn; [by rewrite lookup_insert_eq, En| |done]|..]; try done.
    + rewrite Ep in Hm2. exact Hm2.
    + cbn. by rewrite Hfr.
  - destruct (linked_in _ _ _ _ b Hm1) as [rb Hb]; [set_solver|]. rewrite (update_returns (set_routes T m) b _ rb Hb).
    apply NoDup_app in Hnd1 as (_ & Hd1 & _). assert (b ∉ l1) as Hbl by (intros Hx; apply (Hd1 b Hx); left).
    eexists _, r. split_and!; [done|split_and!; cbn| |done..].
    + rewrite Hh. by destruct l1.
    + apply rib_linked_app. split; [rewrite <- En; by eapply rib_linked_next|].
      unfold last_or in *. rewrite last_snoc in *. rewrite <- Ep. eapply rib_linked_frame; [|done].
      intros a Ha. rewrite lookup_insert_ne; [done|]. intros Eb. apply (Hdis b); [set_solver|]. rewrite Eb. by right.
    + exact Hnd12.
    + cbn. rewrite lookup_insert_ne by set_solver. by rewrite Hfr.
Qed.

Lemma filter_ne_id (ri : loc) (l : list loc) : ri ∉ l → filter (λ x, x ≠ ri) l = l.
Proof.
  induction l as [|a l IH]; [done|]. intros [Ha Hl]%not_elem_of_cons.
  rewrite filter_cons_True by congruence. f_equal. by apply IH.
Qed.

Lemma reap_list T rn ri l r n k :
  node_list T rn l → ri ∈ l → routes T !! ri = Some r → 0 < lock r →
  node_lock T !! rn = Some k → 1 < k → peer_ref T !! peer r = Some n → 0 < n →
  returns (bgp_info_reap T rn ri) (λ T', node_list T' rn (filter (λ x, x ≠ ri) l)).
Proof.
  intros Hnl Hin Hr Hlk Hk H1 Hp Hn. apply list_elem_of_split in Hin as (l1 & l2 & ->).
  destruct (unlink_list T rn ri l1 l2 r Hnl Hr) as (T1 & r1 & E & (Hh1 & Hl1 & Hnd1) & Hr1 & Ep & El & Epr & Enl).
  pose proof Hnl as (_ & _ & (_ & Hdis & [Hri _]%NoDup_cons)%NoDup_app).
  assert (ri ∉ l1 ++ l2) as Hni by (intros [Hx|Hx]%elem_of_app; [by apply (Hdis ri Hx); left|done]).
  assert (filter (λ x, x ≠ ri) (l1 ++ ri :: l2) = l1 ++ l2) as ->.
  { rewrite filter_app, filter_cons_False by (intros Hx; done).
    rewrite <- filter_app. by apply filter_ne_id. }
  unfold bgp_info_reap, get. rewrite Hr. cbn [of_opt mbind M_bind] in *.
  apply bind_ok in E as (T0 & -> & E). cbn [mbind M_bind]. rewrite E. cbn [mbind M_bind].
  destruct (unlock_returns (add_dequeued T1 ri) ri r1 n (l1 ++ l2)) as (T2 & -> & Eh & Enl2 & Hl2); cbn; try done.
  { by rewrite El. } { by rewrite Epr, Ep. }
  cbn [mbind M_bind]. destruct (unlock_node_returns T2 rn (hd_or (l1 ++ l2) None) k) as (T3 & E3 & Eh3 & Er3).
  { by rewrite Eh. } { by rewrite Enl2; cbn; rewrite Enl. } { done. }
  exists T3. split; [done|]. split_and!; [by rewrite Eh3, Eh|by rewrite Er3|done].
Qed.

(** ** Properties *)

(** A table without routes. *)
Definition empty_table (mn : bool) (self : Z) (nodes : gmap loc (option loc)) (locks : gmap loc Z) (refs : gmap Z Z) : table :=
  Tab mn self ∅ nodes locks refs ∅ [].

(** C16. Prefix counts are exact.  In every table reached from one without
    routes by allocating, adding, flagging, deleting, restoring and reaping
    routes, the count of each peer is the number of its routes that carry
    [BGP_INFO_COUNTED], all of these are usable, and only routes of other peers in
    a main table are counted.  So the branch of [bgp_pcount_adjust] that is asked
    to decrement a count of zero is never taken. *)
Theorem bgp_pcount_exact mn self nodes locks refs T :
  reaches (empty_table mn self nodes locks refs) T →
  (∀ p, at_ (pcount T) p = counted (routes T) p) ∧
  (∀ a r, routes T !! a = Some r → CHECK_FLAG (rflags r) BGP_INFO_COUNTED = true →
    main T = true ∧ peer r ≠ peer_self T ∧ holddown (rflags r) = false ∧ 0 < at_ (pcount T) (peer r)).
Proof.
  intros H. apply reaches_ok in H as (H1 & H2 & _).
  - split; [done|]. intros a r Hr Hc. destruct (H1 a r Hr Hc) as (? & ? & ?). split_and!; [done..|].
    rewrite H2. eapply counted_pos; [done|]. unfold is_counted. by rewrite Z.eqb_refl, Hc.
  - split_and!; cbn; [done| |done]. intros p. unfold counted. by rewrite map_filter_empty.
Qed.

(** C17. The doubly linked list [rn->info] of a node is the list of its routes:
    [bgp_info_add] puts a route at its front and [bgp_info_reap] takes out exactly
    that route, as the route selection assumes of it. *)
Theorem rib_list_refines T rn ri r n k (N : rnode) :
  node_list T rn (order N) → routes T !! ri = Some r →
  node_lock T !! rn = Some k → 1 < k → peer_ref T !! peer r = Some n → 0 < n →
  (ri ∉ order N → returns (bgp_info_add T rn ri) (λ T', node_list T' rn (ri :: order N))) ∧
  (ri ∈ order N → 0 < lock r → returns (bgp_info_reap T rn ri) (λ T', node_list T' rn (order (take_off N ri)))).
Proof.
  intros Hl Hr Hk H1 Hp Hn. split.
  - intros Hni. eapply add_list; [done..|lia].
  - intros Hin Hlk. cbn [take_off emit order]. by eapply reap_list.
Qed.

(** A route that is deleted and restored before the deletion is processed is
    usable again but no longer counted, until its flags are next set. *)
Example restore_loses_count :
  let run o T := T ← T; exec o T in
  let T := empty_table true 0 {[1%positive := None]} {[1%positive := 1]} {[7 := 1]} in
  let T := foldl (λ T o, run o T) (Ok T) [OpNew 5 7; OpAdd 1 5; OpSetFlag 5 BGP_INFO_VALID] in
  (∃ T0 r, T = Ok T0 ∧ at_ (pcount T0) 7 = 1 ∧ routes T0 !! 5%positive = Some r ∧ holddown (rflags r) = false) ∧
  (∃ T1 r, run (OpRestore 5) (run (OpDelete 5) T) = Ok T1 ∧ at_ (pcount T1) 7 = 0 ∧
     routes T1 !! 5%positive = Some r ∧ holddown (rflags r) = false).
Proof. split; eexists _, _; vm_compute; split_and!; reflexivity. Qed.

(** Peer 7 announces two routes for a prefix and withdraws one. *)
Definition run_ops (ops : list rib_op) (T : table) : M table := foldl (λ T o, T ← T; exec o T) (Ok T) ops.
Definition one_node_table : table :=
  empty_table true 0 {[1%positive := None]} {[1%positive := 2]} {[7 := 1]}.

Lemma bgp_pcount_exact_witness :
  ∃ T, run_ops [OpNew 5 7; OpAdd 1 5; OpSetFlag 5 BGP_INFO_VALID; OpNew 6 7; OpDelete 5; OpReap 1 5] one_node_table = Ok T ∧
    at_ (pcount T) 7 = 0 ∧ ∀ p, at_ (pcount T) p = counted (routes T) p.
Proof.
  eexists. split; [vm_compute; reflexivity|]. split; [reflexivity|].
  apply (bgp_pcount_exact true 0 {[1%positive := None]} {[1%positive := 2]} {[7 := 1]}).
  eapply (reaches_step _ _ _ (OpReap 1 5)); [
  eapply (reaches_step _ _ _ (OpDelete 5)); [
  eapply (reaches_step _ _ _ (OpNew 6 7)); [
  eapply (reaches_step _ _ _ (OpSetFlag 5 BGP_INFO_VALID)); [
  eapply (reaches_step _ _ _ (OpAdd 1 5)); [
  eapply (reaches_step _ _ _ (OpNew 5 7)); [
  apply reaches_refl
  |split; [reflexivity|vm_compute; reflexivity]|vm_compute; reflexivity]
  |exact I|vm_compute; reflexivity]
  |reflexivity|vm_compute; reflexivity]
  |split; [reflexivity|vm_compute; reflexivity]|vm_compute; reflexivity]
  |exact I|vm_compute; reflexivity]
  |intros r Hr; vm_compute in Hr; injection Hr as <-; reflexivity|vm_compute; reflexivity].
Defined.

Definition two_routes : table :=
  Tab true 0
    {[5%positive := Route None (Some 6%positive) 7 16 1; 6%positive := Route (Some 5%positive) None 7 16 1]}
    {[1%positive := Some 6%positive]} {[1%positive := 3]} {[7 := 3]} ∅ [].

Lemma rib_list_refines_witness :
  returns (bgp_info_reap two_routes 1 5) (λ T', node_list T' 1 [6%positive]).
Proof.
  destruct (rib_list_refines two_routes 1 5 (Route None (Some 6%positive) 7 16 1) 3 3 (Rn [6; 5]%positive ∅ [])) as [_ H];
    [|reflexivity|reflexivity|lia|reflexivity|lia|].
  - split_and!; [reflexivity| |decide_by_compute].
    split; [eexists; split_and!; reflexivity|]. split; [eexists; split_and!; reflexivity|exact I].
  - apply H; [decide_by_compute|reflexivity].
Defined.
