(* ===== verification/Fsm.v ===== *)
(** The finite state machine of a session: bgpd/bgp_fsm.c and bgpd/bgp_fsm.h,
    with what it calls of bgpd/bgp_packet.c (queueing of packets),
    bgpd/bgp_network.c ([bgp_connect]), bgpd/bgp_route.c (clearing of the routes of
    a peer) and bgpd/bgpd.c ([peer_active], [peer_nsf_stop], [peer_delete]).

    The events of a peer wait in the list [events]; flushing empties it.  A timer
    that is on holds its delay.  [rib] holds the nodes, in all tables, that have a
    route of the peer.  Not kept are the reference count of the peer, its
    adjacency lists, its input buffers, the received filters of its ORF lists, the
    data of the last notification and the texts of log messages. *)
From S2P Require Import Prelude Decision Workqueue.
Open Scope Z_scope.

(** ** Constants *)

Definition Idle : Z := 1.
Definition Connect : Z := 2.
Definition Active : Z := 3.
Definition OpenSent : Z := 4.
Definition OpenConfirm : Z := 5.
Definition Established : Z := 6.
Definition Clearing : Z := 7.
Definition Deleted : Z := 8.

Definition BGP_Start : Z := 1.
Definition BGP_Stop : Z := 2.
Definition TCP_connection_open : Z := 3.
Definition TCP_connection_closed : Z := 4.
Definition TCP_connection_open_failed : Z := 5.
Definition TCP_fatal_error : Z := 6.
Definition ConnectRetry_timer_expired : Z := 7.
Definition Hold_Timer_expired : Z := 8.
Definition KeepAlive_timer_expired : Z := 9.
Definition Receive_OPEN_message : Z := 10.
Definition Receive_KEEPALIVE_message : Z := 11.
Definition Receive_UPDATE_message : Z := 12.
Definition Receive_NOTIFICATION_message : Z := 13.
Definition Clearing_Completed : Z := 14.

Definition BGP_INIT_START_TIMER : Z := 5.
Definition PEER_FLAG_PASSIVE : Z := 1.
Definition PEER_FLAG_SHUTDOWN : Z := 2.
Definition PEER_STATUS_ACCEPT_PEER : Z := 1.
Definition PEER_STATUS_PREFIX_OVERFLOW : Z := 2.
Definition PEER_STATUS_CAPABILITY_OPEN : Z := 4.
Definition PEER_STATUS_NSF_MODE : Z := 32.
Definition PEER_STATUS_NSF_WAIT : Z := 64.
Definition PEER_STATUS_ORF_PREFIX_SEND : Z := 1.
Definition PEER_STATUS_ORF_WAIT_REFRESH : Z := 2.
Definition PEER_CONFIG_TIMER : Z := 2.
Definition PEER_CAP_REFRESH_NEW_RCV : Z := 4.
Definition PEER_CAP_RESTART_ADV : Z := 32.
Definition PEER_CAP_ORF_PREFIX_SM_ADV : Z := 1.
Definition PEER_CAP_ORF_PREFIX_RM_ADV : Z := 2.
Definition PEER_CAP_ORF_PREFIX_SM_RCV : Z := 4.
Definition PEER_CAP_ORF_PREFIX_RM_RCV : Z := 8.
Definition PEER_CAP_ORF_PREFIX_SM_OLD_RCV : Z := 16.
Definition PEER_CAP_ORF_PREFIX_RM_OLD_RCV : Z := 32.
Definition PEER_CAP_RESTART_AF_RCV : Z := 64.
Definition PEER_CAP_RESTART_AF_PRESERVE_RCV : Z := 128.
Definition PEER_DOWN_USER_SHUTDOWN : Z := 11.
Definition PEER_DOWN_USER_RESET : Z := 12.
Definition PEER_DOWN_NOTIFY_SEND : Z := 14.
Definition PEER_DOWN_CLOSE_SESSION : Z := 15.
Definition PEER_DOWN_NEIGHBOR_DELETE : Z := 16.
Definition PEER_DOWN_NSF_CLOSE_SESSION : Z := 22.
Definition BGP_NOTIFY_HOLD_ERR : Z := 4.
Definition BGP_NOTIFY_FSM_ERR : Z := 5.
Definition BGP_NOTIFY_CEASE_ADMIN_SHUTDOWN : Z := 2.
Definition BGP_NOTIFY_CEASE_ADMIN_RESET : Z := 4.
Definition BGP_NOTIFY_CEASE_CONFIG_CHANGE : Z := 6.
Definition ORF_TYPE_PREFIX : Z := 64.
Definition ORF_TYPE_PREFIX_OLD : Z := 128.
Definition BGP_INFO_STALE : Z := 256.

Definition AFI_IP : Z := 1.
Definition AFI_IP6 : Z := 2.
Definition AFI_MAX : Z := 3.
Definition SAFI_UNICAST : Z := 1.
Definition SAFI_MULTICAST : Z := 2.
Definition SAFI_MPLS_VPN : Z := 4.
Definition SAFI_MAX : Z := 5.
Definition SAFI_MPLS_LABELED_VPN : Z := 128.

(** The results of [sockunion_connect]. *)
Definition connect_error : Z := 0.
Definition connect_success : Z := 1.
Definition connect_in_progress : Z := 2.

(** The loops over all families, and over those below [SAFI_RESERVED_3]. *)
Definition families : list (Z * Z) := [(1, 1); (1, 2); (1, 3); (1, 4); (2, 1); (2, 2); (2, 3); (2, 4)].
Definition nsf_families : list (Z * Z) := [(1, 1); (1, 2); (2, 1); (2, 2)].

(** ** State *)

(** An array [x[AFI_MAX][SAFI_MAX]]. *)
Definition array : Type := Z * Z → Z.
Definition put (a : array) (k : Z * Z) (v : Z) : array := λ k', if decide (k = k') then v else a k'.
Definition clear_all (ks : list (Z * Z)) (a : array) : array := foldl (λ a k, put a k 0) a ks.

Inductive timer :=
  | t_start | t_connect | t_holdtime | t_keepalive | t_asorig | t_routeadv
  | t_pmax_restart | t_gr_restart | t_gr_stale.
#[export] Instance timer_eq_dec : EqDecision timer.
Proof. solve_decision. Defined.

Inductive packet :=
  | PktOpen (holdtime : Z)
  | PktKeepalive
  | PktNotify (code sub_code : Z)
  | PktRefresh (new : bool) (afi safi : Z) (orf : option Z).

(** What the state machine does not change: configured timers, the restart time
    of the last OPEN message, the timers of the instance, the configured families
    and the families with an incoming prefix list. *)
Record peer_conf := Conf {
  v_connect : Z;
  v_routeadv : Z;
  v_gr_restart : Z;
  holdtime : Z;
  keepalive : Z;
  default_holdtime : Z;
  default_keepalive : Z;
  stalepath_time : Z;
  afc : array;
  plist_in : array;
}.

(** A node with a route of the peer: the family of its table and the flags of the
    route. *)
Record route := Route { rfam : Z * Z; rflags : Z }.

Record peer := Peer {
  status : Z;
  ostatus : Z;
  fd : Z;
  pflags : Z;
  sflags : Z;
  config : Z;
  cap : Z;
  v_start : Z;
  v_holdtime : Z;
  v_keepalive : Z;
  conf : peer_conf;
  t_read : bool;
  t_write : bool;
  timers : timer → option Z;
  afc_nego : array;
  afc_adv : array;
  afc_recv : array;
  af_cap : array;
  af_sflags : array;
  nsf : array;
  events : list Z;
  obuf : list packet;
  established : Z;
  dropped : Z;
  keepalive_in : Z;
  notify_out : Z;
  uptime : Z;
  resettime : Z;
  synctime : Z;
  update_time : Z;
  last_reset : Z;
  remote_id : Z;
  su_known : bool;
  packet_size : Z;
  announced : list (Z * Z);
  clear_node_queue : option (work_queue Z);
  rib : gmap Z route;
}.

Definition set_conf (p : peer) (x : peer_conf) : peer :=
  Peer (status p) (ostatus p) (fd p) (pflags p) (sflags p) (config p) (cap p) (v_start p) (v_holdtime p)
    (v_keepalive p) x (t_read p) (t_write p) (timers p) (afc_nego p) (afc_adv p) (afc_recv p) (af_cap p) (af_sflags p)
    (nsf p) (events p) (obuf p) (established p) (dropped p) (keepalive_in p) (notify_out p) (uptime p) (resettime p)
    (synctime p) (update_time p) (last_reset p) (remote_id p) (su_known p) (packet_size p) (announced p)
    (clear_node_queue p) (rib p).
Definition set_v_gr_restart (p : peer) (x : Z) : peer :=
  let c := conf p in
  set_conf p (Conf (v_connect c) (v_routeadv c) x (holdtime c) (keepalive c) (default_holdtime c) (default_keepalive c)
    (stalepath_time c) (afc c) (plist_in c)).
Definition set_status (p : peer) (x : Z) : peer :=
  Peer x (ostatus p) (fd p) (pflags p) (sflags p) (config p) (cap p) (v_start p) (v_holdtime p) (v_keepalive p)
    (conf p) (t_read p) (t_write p) (timers p) (afc_nego p) (afc_adv p) (afc_recv p) (af_cap p) (af_sflags p) (nsf p)
    (events p) (obuf p) (established p) (dropped p) (keepalive_in p) (notify_out p) (uptime p) (resettime p)
    (synctime p) (update_time p) (last_reset p) (remote_id p) (su_known p) (packet_size p) (announced p)
    (clear_node_queue p) (rib p).
Definition set_ostatus (p : peer) (x : Z) : peer :=
  Peer (status p) x (fd p) (pflags p) (sflags p) (config p) (cap p) (v_start p) (v_holdtime p) (v_keepalive p)
    (conf p) (t_read p) (t_write p) (timers p) (afc_nego p) (afc_adv p) (afc_recv p) (af_cap p) (af_sflags p) (nsf p)
    (events p) (obuf p) (established p) (dropped p) (keepalive_in p) (notify_out p) (uptime p) (resettime p)
    (synctime p) (update_time p) (last_reset p) (remote_id p) (su_known p) (packet_size p) (announced p)
    (clear_node_queue p) (rib p).
Definition set_fd (p : peer) (x : Z) : peer :=
  Peer (status p) (ostatus p) x (pflags p) (sflags p) (config p) (cap p) (v_start p) (v_holdtime p) (v_keepalive p)
    (conf p) (t_read p) (t_write p) (timers p) (afc_nego p) (afc_adv p) (afc_recv p) (af_cap p) (af_sflags p) (nsf p)
    (events p) (obuf p) (established p) (dropped p) (keepalive_in p) (notify_out p) (uptime p) (resettime p)
    (synctime p) (update_time p) (last_reset p) (remote_id p) (su_known p) (packet_size p) (announced p)
    (clear_node_queue p) (rib p).
Definition set_sflags (p : peer) (x : Z) : peer :=
  Peer (status p) (ostatus p) (fd p) (pflags p) x (config p) (cap p) (v_start p) (v_holdtime p) (v_keepalive p)
    (conf p) (t_read p) (t_write p) (timers p) (afc_nego p) (afc_adv p) (afc_recv p) (af_cap p) (af_sflags p) (nsf p)
    (events p) (obuf p) (established p) (dropped p) (keepalive_in p) (notify_out p) (uptime p) (resettime p)
    (synctime p) (update_time p) (last_reset p) (remote_id p) (su_known p) (packet_size p) (announced p)
    (clear_node_queue p) (rib p).
Definition set_cap (p : peer) (x : Z) : peer :=
  Peer (status p) (ostatus p) (fd p) (pflags p) (sflags p) (config p) x (v_start p) (v_holdtime p) (v_keepalive p)
    (conf p) (t_read p) (t_write p) (timers p) (afc_nego p) (afc_adv p) (afc_recv p) (af_cap p) (af_sflags p) (nsf p)
    (events p) (obuf p) (established p) (dropped p) (keepalive_in p) (notify_out p) (uptime p) (resettime p)
    (synctime p) (update_time p) (last_reset p) (remote_id p) (su_known p) (packet_size p) (announced p)
    (clear_node_queue p) (rib p).
Definition set_v_start (p : peer) (x : Z) : peer :=
  Peer (status p) (ostatus p) (fd p) (pflags p) (sflags p) (config p) (cap p) x (v_holdtime p) (v_keepalive p)
    (conf p) (t_read p) (t_write p) (timers p) (afc_nego p) (afc_adv p) (afc_recv p) (af_cap p) (af_sflags p) (nsf p)
    (events p) (obuf p) (established p) (dropped p) (keepalive_in p) (notify_out p) (uptime p) (resettime p)
    (synctime p) (update_time p) (last_reset p) (remote_id p) (su_known p) (packet_size p) (announced p)
    (clear_node_queue p) (rib p).
Definition set_v_holdtime (p : peer) (x : Z) : peer :=
  Peer (status p) (ostatus p) (fd p) (pflags p) (sflags p) (config p) (cap p) (v_start p) x (v_keepalive p) (conf p)
    (t_read p) (t_write p) (timers p) (afc_nego p) (afc_adv p) (afc_recv p) (af_cap p) (af_sflags p) (nsf p)
    (events p) (obuf p) (established p) (dropped p) (keepalive_in p) (notify_out p) (uptime p) (resettime p)
    (synctime p) (update_time p) (last_reset p) (remote_id p) (su_known p) (packet_size p) (announced p)
    (clear_node_queue p) (rib p).
Definition set_v_keepalive (p : peer) (x : Z) : peer :=
  Peer (status p) (ostatus p) (fd p) (pflags p) (sflags p) (config p) (cap p) (v_start p) (v_holdtime p) x (conf p)
    (t_read p) (t_write p) (timers p) (afc_nego p) (afc_adv p) (afc_recv p) (af_cap p) (af_sflags p) (nsf p)
    (events p) (obuf p) (established p) (dropped p) (keepalive_in p) (notify_out p) (uptime p) (resettime p)
    (synctime p) (update_time p) (last_reset p) (remote_id p) (su_known p) (packet_size p) (announced p)
    (clear_node_queue p) (rib p).
Definition set_t_read (p : peer) (x : bool) : peer :=
  Peer (status p) (ostatus p) (fd p) (pflags p) (sflags p) (config p) (cap p) (v_start p) (v_holdtime p)
    (v_keepalive p) (conf p) x (t_write p) (timers p) (afc_nego p) (afc_adv p) (afc_recv p) (af_cap p) (af_sflags p)
    (nsf p) (events p) (obuf p) (established p) (dropped p) (keepalive_in p) (notify_out p) (uptime p) (resettime p)
    (synctime p) (update_time p) (last_reset p) (remote_id p) (su_known p) (packet_size p) (announced p)
    (clear_node_queue p) (rib p).
Definition set_t_write (p : peer) (x : bool) : peer :=
  Peer (status p) (ostatus p) (fd p) (pflags p) (sflags p) (config p) (cap p) (v_start p) (v_holdtime p)
    (v_keepalive p) (conf p) (t_read p) x (timers p) (afc_nego p) (afc_adv p) (afc_recv p) (af_cap p) (af_sflags p)
    (nsf p) (events p) (obuf p) (established p) (dropped p) (keepalive_in p) (notify_out p) (uptime p) (resettime p)
    (synctime p) (update_time p) (last_reset p) (remote_id p) (su_known p) (packet_size p) (announced p)
    (clear_node_queue p) (rib p).
Definition set_timers (p : peer) (x : timer → option Z) : peer :=
  Peer (status p) (ostatus p) (fd p) (pflags p) (sflags p) (config p) (cap p) (v_start p) (v_holdtime p)
    (v_keepalive p) (conf p) (t_read p) (t_write p) x (afc_nego p) (afc_adv p) (afc_recv p) (af_cap p) (af_sflags p)
    (nsf p) (events p) (obuf p) (established p) (dropped p) (keepalive_in p) (notify_out p) (uptime p) (resettime p)
    (synctime p) (update_time p) (last_reset p) (remote_id p) (su_known p) (packet_size p) (announced p)
    (clear_node_queue p) (rib p).
Definition set_afc_nego (p : peer) (x : array) : peer :=
  Peer (status p) (ostatus p) (fd p) (pflags p) (sflags p) (config p) (cap p) (v_start p) (v_holdtime p)
    (v_keepalive p) (conf p) (t_read p) (t_write p) (timers p) x (afc_adv p) (afc_recv p) (af_cap p) (af_sflags p)
    (nsf p) (events p) (obuf p) (established p) (dropped p) (keepalive_in p) (notify_out p) (uptime p) (resettime p)
    (synctime p) (update_time p) (last_reset p) (remote_id p) (su_known p) (packet_size p) (announced p)
    (clear_node_queue p) (rib p).
Definition set_afc_adv (p : peer) (x : array) : peer :=
  Peer (status p) (ostatus p) (fd p) (pflags p) (sflags p) (config p) (cap p) (v_start p) (v_holdtime p)
    (v_keepalive p) (conf p) (t_read p) (t_write p) (timers p) (afc_nego p) x (afc_recv p) (af_cap p) (af_sflags p)
    (nsf p) (events p) (obuf p) (established p) (dropped p) (keepalive_in p) (notify_out p) (uptime p) (resettime p)
    (synctime p) (update_time p) (last_reset p) (remote_id p) (su_known p) (packet_size p) (announced p)
    (clear_node_queue p) (rib p).
Definition set_afc_recv (p : peer) (x : array) : peer :=
  Peer (status p) (ostatus p) (fd p) (pflags p) (sflags p) (config p) (cap p) (v_start p) (v_holdtime p)
    (v_keepalive p) (conf p) (t_read p) (t_write p) (timers p) (afc_nego p) (afc_adv p) x (af_cap p) (af_sflags p)
    (nsf p) (events p) (obuf p) (established p) (dropped p) (keepalive_in p) (notify_out p) (uptime p) (resettime p)
    (synctime p) (update_time p) (last_reset p) (remote_id p) (su_known p) (packet_size p) (announced p)
    (clear_node_queue p) (rib p).
Definition set_af_cap (p : peer) (x : array) : peer :=
  Peer (status p) (ostatus p) (fd p) (pflags p) (sflags p) (config p) (cap p) (v_start p) (v_holdtime p)
    (v_keepalive p) (conf p) (t_read p) (t_write p) (timers p) (afc_nego p) (afc_adv p) (afc_recv p) x (af_sflags p)
    (nsf p) (events p) (obuf p) (established p) (dropped p) (keepalive_in p) (notify_out p) (uptime p) (resettime p)
    (synctime p) (update_time p) (last_reset p) (remote_id p) (su_known p) (packet_size p) (announced p)
    (clear_node_queue p) (rib p).
Definition set_af_sflags (p : peer) (x : array) : peer :=
  Peer (status p) (ostatus p) (fd p) (pflags p) (sflags p) (config p) (cap p) (v_start p) (v_holdtime p)
    (v_keepalive p) (conf p) (t_read p) (t_write p) (timers p) (afc_nego p) (afc_adv p) (afc_recv p) (af_cap p) x
    (nsf p) (events p) (obuf p) (established p) (dropped p) (keepalive_in p) (notify_out p) (uptime p) (resettime p)
    (synctime p) (update_time p) (last_reset p) (remote_id p) (su_known p) (packet_size p) (announced p)
    (clear_node_queue p) (rib p).
Definition set_nsf (p : peer) (x : array) : peer :=
  Peer (status p) (ostatus p) (fd p) (pflags p) (sflags p) (config p) (cap p) (v_start p) (v_holdtime p)
    (v_keepalive p) (conf p) (t_read p) (t_write p) (timers p) (afc_nego p) (afc_adv p) (afc_recv p) (af_cap p)
    (af_sflags p) x (events p) (obuf p) (established p) (dropped p) (keepalive_in p) (notify_out p) (uptime p)
    (resettime p) (synctime p) (update_time p) (last_reset p) (remote_id p) (su_known p) (packet_size p) (announced p)
    (clear_node_queue p) (rib p).
Definition set_events (p : peer) (x : list Z) : peer :=
  Peer (status p) (ostatus p) (fd p) (pflags p) (sflags p) (config p) (cap p) (v_start p) (v_holdtime p)
    (v_keepalive p) (conf p) (t_read p) (t_write p) (timers p) (afc_nego p) (afc_adv p) (afc_recv p) (af_cap p)
    (af_sflags p) (nsf p) x (obuf p) (established p) (dropped p) (keepalive_in p) (notify_out p) (uptime p)
    (resettime p) (synctime p) (update_time p) (last_reset p) (remote_id p) (su_known p) (packet_size p) (announced p)
    (clear_node_queue p) (rib p).
Definition set_obuf (p : peer) (x : list packet) : peer :=
  Peer (status p) (ostatus p) (fd p) (pflags p) (sflags p) (config p) (cap p) (v_start p) (v_holdtime p)
    (v_keepalive p) (conf p) (t_read p) (t_write p) (timers p) (afc_nego p) (afc_adv p) (afc_recv p) (af_cap p)
    (af_sflags p) (nsf p) (events p) x (established p) (dropped p) (keepalive_in p) (notify_out p) (uptime p)
    (resettime p) (synctime p) (update_time p) (last_reset p) (remote_id p) (su_known p) (packet_size p) (announced p)
    (clear_node_queue p) (rib p).
Definition set_established (p : peer) (x : Z) : peer :=
  Peer (status p) (ostatus p) (fd p) (pflags p) (sflags p) (config p) (cap p) (v_start p) (v_holdtime p)
    (v_keepalive p) (conf p) (t_read p) (t_write p) (timers p) (afc_nego p) (afc_adv p) (afc_recv p) (af_cap p)
    (af_sflags p) (nsf p) (events p) (obuf p) x (dropped p) (keepalive_in p) (notify_out p) (uptime p) (resettime p)
    (synctime p) (update_time p) (last_reset p) (remote_id p) (su_known p) (packet_size p) (announced p)
    (clear_node_queue p) (rib p).
Definition set_dropped (p : peer) (x : Z) : peer :=
  Peer (status p) (ostatus p) (fd p) (pflags p) (sflags p) (config p) (cap p) (v_start p) (v_holdtime p)
    (v_keepalive p) (conf p) (t_read p) (t_write p) (timers p) (afc_nego p) (afc_adv p) (afc_recv p) (af_cap p)
    (af_sflags p) (nsf p) (events p) (obuf p) (established p) x (keepalive_in p) (notify_out p) (uptime p)
    (resettime p) (synctime p) (update_time p) (last_reset p) (remote_id p) (su_known p) (packet_size p) (announced p)
    (clear_node_queue p) (rib p).
Definition set_keepalive_in (p : peer) (x : Z) : peer :=
  Peer (status p) (ostatus p) (fd p) (pflags p) (sflags p) (config p) (cap p) (v_start p) (v_holdtime p)
    (v_keepalive p) (conf p) (t_read p) (t_write p) (timers p) (afc_nego p) (afc_adv p) (afc_recv p) (af_cap p)
    (af_sflags p) (nsf p) (events p) (obuf p) (established p) (dropped p) x (notify_out p) (uptime p) (resettime p)
    (synctime p) (update_time p) (last_reset p) (remote_id p) (su_known p) (packet_size p) (announced p)
    (clear_node_queue p) (rib p).
Definition set_notify_out (p : peer) (x : Z) : peer :=
  Peer (status p) (ostatus p) (fd p) (pflags p) (sflags p) (config p) (cap p) (v_start p) (v_holdtime p)
    (v_keepalive p) (conf p) (t_read p) (t_write p) (timers p) (afc_nego p) (afc_adv p) (afc_recv p) (af_cap p)
    (af_sflags p) (nsf p) (events p) (obuf p) (established p) (dropped p) (keepalive_in p) x (uptime p) (resettime p)
    (synctime p) (update_time p) (last_reset p) (remote_id p) (su_known p) (packet_size p) (announced p)
    (clear_node_queue p) (rib p).
Definition set_uptime (p : peer) (x : Z) : peer :=
  Peer (status p) (ostatus p) (fd p) (pflags p) (sflags p) (config p) (cap p) (v_start p) (v_holdtime p)
    (v_keepalive p) (conf p) (t_read p) (t_write p) (timers p) (afc_nego p) (afc_adv p) (afc_recv p) (af_cap p)
    (af_sflags p) (nsf p) (events p) (obuf p) (established p) (dropped p) (keepalive_in p) (notify_out p) x
    (resettime p) (synctime p) (update_time p) (last_reset p) (remote_id p) (su_known p) (packet_size p) (announced p)
    (clear_node_queue p) (rib p).
Definition set_resettime (p : peer) (x : Z) : peer :=
  Peer (status p) (ostatus p) (fd p) (pflags p) (sflags p) (config p) (cap p) (v_start p) (v_holdtime p)
    (v_keepalive p) (conf p) (t_read p) (t_write p) (timers p) (afc_nego p) (afc_adv p) (afc_recv p) (af_cap p)
    (af_sflags p) (nsf p) (events p) (obuf p) (established p) (dropped p) (keepalive_in p) (notify_out p) (uptime p) x
    (synctime p) (update_time p) (last_reset p) (remote_id p) (su_known p) (packet_size p) (announced p)
    (clear_node_queue p) (rib p).
Definition set_synctime (p : peer) (x : Z) : peer :=
  Peer (status p) (ostatus p) (fd p) (pflags p) (sflags p) (config p) (cap p) (v_start p) (v_holdtime p)
    (v_keepalive p) (conf p) (t_read p) (t_write p) (timers p) (afc_nego p) (afc_adv p) (afc_recv p) (af_cap p)
    (af_sflags p) (nsf p) (events p) (obuf p) (established p) (dropped p) (keepalive_in p) (notify_out p) (uptime p)
    (resettime p) x (update_time p) (last_reset p) (remote_id p) (su_known p) (packet_size p) (announced p)
    (clear_node_queue p) (rib p).
Definition set_update_time (p : peer) (x : Z) : peer :=
  Peer (status p) (ostatus p) (fd p) (pflags p) (sflags p) (config p) (cap p) (v_start p) (v_holdtime p)
    (v_keepalive p) (conf p) (t_read p) (t_write p) (timers p) (afc_nego p) (afc_adv p) (afc_recv p) (af_cap p)
    (af_sflags p) (nsf p) (events p) (obuf p) (established p) (dropped p) (keepalive_in p) (notify_out p) (uptime p)
    (resettime p) (synctime p) x (last_reset p) (remote_id p) (su_known p) (packet_size p) (announced p)
    (clear_node_queue p) (rib p).
Definition set_last_reset (p : peer) (x : Z) : peer :=
  Peer (status p) (ostatus p) (fd p) (pflags p) (sflags p) (config p) (cap p) (v_start p) (v_holdtime p)
    (v_keepalive p) (conf p) (t_read p) (t_write p) (timers p) (afc_nego p) (afc_adv p) (afc_recv p) (af_cap p)
    (af_sflags p) (nsf p) (events p) (obuf p) (established p) (dropped p) (keepalive_in p) (notify_out p) (uptime p)
    (resettime p) (synctime p) (update_time p) x (remote_id p) (su_known p) (packet_size p) (announced p)
    (clear_node_queue p) (rib p).
Definition set_remote_id (p : peer) (x : Z) : peer :=
  Peer (status p) (ostatus p) (fd p) (pflags p) (sflags p) (config p) (cap p) (v_start p) (v_holdtime p)
    (v_keepalive p) (conf p) (t_read p) (t_write p) (timers p) (afc_nego p) (afc_adv p) (afc_recv p) (af_cap p)
    (af_sflags p) (nsf p) (events p) (obuf p) (established p) (dropped p) (keepalive_in p) (notify_out p) (uptime p)
    (resettime p) (synctime p) (update_time p) (last_reset p) x (su_known p) (packet_size p) (announced p)
    (clear_node_queue p) (rib p).
Definition set_su_known (p : peer) (x : bool) : peer :=
  Peer (status p) (ostatus p) (fd p) (pflags p) (sflags p) (config p) (cap p) (v_start p) (v_holdtime p)
    (v_keepalive p) (conf p) (t_read p) (t_write p) (timers p) (afc_nego p) (afc_adv p) (afc_recv p) (af_cap p)
    (af_sflags p) (nsf p) (events p) (obuf p) (established p) (dropped p) (keepalive_in p) (notify_out p) (uptime p)
    (resettime p) (synctime p) (update_time p) (last_reset p) (remote_id p) x (packet_size p) (announced p)
    (clear_node_queue p) (rib p).
Definition set_packet_size (p : peer) (x : Z) : peer :=
  Peer (status p) (ostatus p) (fd p) (pflags p) (sflags p) (config p) (cap p) (v_start p) (v_holdtime p)
    (v_keepalive p) (conf p) (t_read p) (t_write p) (timers p) (afc_nego p) (afc_adv p) (afc_recv p) (af_cap p)
    (af_sflags p) (nsf p) (events p) (obuf p) (established p) (dropped p) (keepalive_in p) (notify_out p) (uptime p)
    (resettime p) (synctime p) (update_time p) (last_reset p) (remote_id p) (su_known p) x (announced p)
    (clear_node_queue p) (rib p).
Definition set_announced (p : peer) (x : list (Z * Z)) : peer :=
  Peer (status p) (ostatus p) (fd p) (pflags p) (sflags p) (config p) (cap p) (v_start p) (v_holdtime p)
    (v_keepalive p) (conf p) (t_read p) (t_write p) (timers p) (afc_nego p) (afc_adv p) (afc_recv p) (af_cap p)
    (af_sflags p) (nsf p) (events p) (obuf p) (established p) (dropped p) (keepalive_in p) (notify_out p) (uptime p)
    (resettime p) (synctime p) (update_time p) (last_reset p) (remote_id p) (su_known p) (packet_size p) x
    (clear_node_queue p) (rib p).
Definition set_clear_node_queue (p : peer) (x : option (work_queue Z)) : peer :=
  Peer (status p) (ostatus p) (fd p) (pflags p) (sflags p) (config p) (cap p) (v_start p) (v_holdtime p)
    (v_keepalive p) (conf p) (t_read p) (t_write p) (timers p) (afc_nego p) (afc_adv p) (afc_recv p) (af_cap p)
    (af_sflags p) (nsf p) (events p) (obuf p) (established p) (dropped p) (keepalive_in p) (notify_out p) (uptime p)
    (resettime p) (synctime p) (update_time p) (last_reset p) (remote_id p) (su_known p) (packet_size p) (announced p)
    x (rib p).
Definition set_rib (p : peer) (x : gmap Z route) : peer :=
  Peer (status p) (ostatus p) (fd p) (pflags p) (sflags p) (config p) (cap p) (v_start p) (v_holdtime p)
    (v_keepalive p) (conf p) (t_read p) (t_write p) (timers p) (afc_nego p) (afc_adv p) (afc_recv p) (af_cap p)
    (af_sflags p) (nsf p) (events p) (obuf p) (established p) (dropped p) (keepalive_in p) (notify_out p) (uptime p)
    (resettime p) (synctime p) (update_time p) (last_reset p) (remote_id p) (su_known p) (packet_size p) (announced p)
    (clear_node_queue p) x.


(** What the system calls made while an event is handled return: [rand],
    [bgp_clock], [sockunion_socket], [sockunion_connect] and the [write] of a
    notification. *)
Record env := Env {
  e_rand : Z;
  e_clock : Z;
  e_socket : Z;
  e_connect : Z;
  e_write : Z;
}.

(** ** Threads and events *)

Definition BGP_TIMER_ON (p : peer) (t : timer) (v : Z) : peer :=
  if bool_decide (timers p t = None) && negb (status p =? Deleted)
  then set_timers p (λ t', if decide (t = t') then Some v else timers p t') else p.
Definition BGP_TIMER_OFF (p : peer) (t : timer) : peer :=
  set_timers p (λ t', if decide (t = t') then None else timers p t').
Definition BGP_READ_ON (p : peer) : peer := if negb (status p =? Deleted) then set_t_read p true else p.
Definition BGP_WRITE_ON (p : peer) : peer := if negb (status p =? Deleted) then set_t_write p true else p.
Definition BGP_EVENT_ADD (p : peer) (ev : Z) : peer :=
  if negb (status p =? Deleted) then set_events p (events p ++ [ev]) else p.
Definition BGP_EVENT_FLUSH (p : peer) : peer := set_events p [].

(** Turning several timers off. *)
Definition timers_off (ts : list timer) (p : peer) : peer := foldl BGP_TIMER_OFF p ts.

(** ** Clearing the routes of a peer *)

Definition bgp_rib_remove (f : Z) : Z :=
  if CHECK_FLAG f BGP_INFO_HISTORY then f else UNSET_FLAG (SET_FLAG f BGP_INFO_REMOVED) BGP_INFO_VALID.

(** The work function; it always succeeds. *)
Definition bgp_clear_route_node (p : peer) (rn : Z) : peer * wq_item_status :=
  match rib p !! rn with
  | Some r =>
      let f := if CHECK_FLAG (sflags p) PEER_STATUS_NSF_WAIT && negb (nsf p (rfam r) =? 0)
                  && negb (CHECK_FLAG (rflags r) BGP_INFO_STALE) && negb (CHECK_FLAG (rflags r) BGP_INFO_UNUSEABLE)
               then SET_FLAG (rflags r) BGP_INFO_STALE else bgp_rib_remove (rflags r) in
      (set_rib p (<[rn:=Route (rfam r) f]> (rib p)), WQ_SUCCESS)
  | None => (p, WQ_SUCCESS)
  end.

Definition bgp_clear_node_complete (p : peer) : peer := BGP_EVENT_ADD p Clearing_Completed.

Definition clear_callbacks : callbacks peer Z :=
  Callbacks bgp_clear_route_node None None (Some bgp_clear_node_complete).

Definition bgp_clear_node_queue_init : work_queue Z := set_spec work_queue_new 0 10.

(** The nodes of the tables of a family with a route of the peer. *)
Definition scan (p : peer) (k : Z * Z) : list Z :=
  (filter (λ nr, rfam nr.2 = k) (map_to_list (rib p))).*1.

Definition bgp_clear_route_table (p : peer) (k : Z * Z) (wq : work_queue Z) : work_queue Z :=
  foldl work_queue_add wq (scan p k).

Definition bgp_clear_route (p : peer) (k : Z * Z) : peer :=
  let wq := match clear_node_queue p with Some wq => wq | None => bgp_clear_node_queue_init end in
  let wq := bgp_clear_route_table p k wq in
  let p := set_clear_node_queue p (Some wq) in
  if bool_decide (thread wq = None) then bgp_clear_node_complete p else p.

Definition bgp_clear_route_all (p : peer) : peer := foldl bgp_clear_route p families.

Definition bgp_clear_stale_route (p : peer) (k : Z * Z) : peer :=
  set_rib p ((λ r, if bool_decide (rfam r = k) && CHECK_FLAG (rflags r) BGP_INFO_STALE
                   then Route (rfam r) (bgp_rib_remove (rflags r)) else r) <$> rib p).

(** ** Timers *)

Definition bgp_start_jitter (rand time : Z) : Z := rand mod (time + 1) - time / 2.

Definition BGP_PEER_START_SUPPRESSED (p : peer) : bool :=
  CHECK_FLAG (pflags p) PEER_FLAG_SHUTDOWN || CHECK_FLAG (sflags p) PEER_STATUS_PREFIX_OVERFLOW.

Definition peer_active (p : peer) : bool :=
  existsb (λ k, negb (afc (conf p) k =? 0)) [(1, 1); (1, 2); (1, 4); (2, 1); (2, 2)].

Definition bgp_timer_set (e : env) (p : peer) : peer :=
  if status p =? Idle then
    let p := if BGP_PEER_START_SUPPRESSED p || negb (peer_active p) then BGP_TIMER_OFF p t_start
             else BGP_TIMER_ON p t_start (u32 (v_start p + bgp_start_jitter (e_rand e) (v_start p))) in
    timers_off [t_connect; t_holdtime; t_keepalive; t_asorig; t_routeadv] p
  else if status p =? Connect then
    let p := BGP_TIMER_OFF p t_start in
    let p := BGP_TIMER_ON p t_connect (v_connect (conf p)) in
    timers_off [t_holdtime; t_keepalive; t_asorig; t_routeadv] p
  else if status p =? Active then
    let p := BGP_TIMER_OFF p t_start in
    let p := if CHECK_FLAG (pflags p) PEER_FLAG_PASSIVE || CHECK_FLAG (sflags p) PEER_STATUS_NSF_WAIT
             then BGP_TIMER_OFF p t_connect else BGP_TIMER_ON p t_connect (v_connect (conf p)) in
    timers_off [t_holdtime; t_keepalive; t_asorig; t_routeadv] p
  else if status p =? OpenSent then
    let p := timers_off [t_start; t_connect] p in
    let p := if negb (v_holdtime p =? 0) then BGP_TIMER_ON p t_holdtime (v_holdtime p) else BGP_TIMER_OFF p t_holdtime in
    timers_off [t_keepalive; t_asorig; t_routeadv] p
  else if status p =? OpenConfirm then
    let p := timers_off [t_start; t_connect] p in
    let p := if v_holdtime p =? 0 then timers_off [t_holdtime; t_keepalive] p
             else BGP_TIMER_ON (BGP_TIMER_ON p t_holdtime (v_holdtime p)) t_keepalive (v_keepalive p) in
    timers_off [t_asorig; t_routeadv] p
  else if status p =? Established then
    let p := timers_off [t_start; t_connect] p in
    let p := if v_holdtime p =? 0 then timers_off [t_holdtime; t_keepalive] p
             else BGP_TIMER_ON (BGP_TIMER_ON p t_holdtime (v_holdtime p)) t_keepalive (v_keepalive p) in
    BGP_TIMER_OFF p t_asorig
  else
    let p := if status p =? Deleted then timers_off [t_gr_restart; t_gr_stale; t_pmax_restart] p else p in
    if (status p =? Deleted) || (status p =? Clearing)
    then timers_off [t_start; t_connect; t_holdtime; t_keepalive; t_asorig; t_routeadv] p else p.

Definition bgp_fsm_change_status (p : peer) (st : Z) : peer :=
  let p := if Clearing <=? st then bgp_clear_route_all p else p in
  set_status (set_ostatus p (status p)) st.

(** ** Packets *)

Definition bgp_keepalive_send (p : peer) : peer := BGP_WRITE_ON (set_obuf p (obuf p ++ [PktKeepalive])).

Definition bgp_open_send (p : peer) : peer :=
  let send_holdtime := if CHECK_FLAG (config p) PEER_CONFIG_TIMER then holdtime (conf p) else default_holdtime (conf p) in
  BGP_WRITE_ON (set_obuf p (obuf p ++ [PktOpen (u16 send_holdtime)])).

Definition double_start (p : peer) : peer :=
  let v := u32 (v_start p * 2) in set_v_start p (if 120 <=? v then 120 else v).

Definition bgp_write_notify (e : env) (p : peer) : peer :=
  match obuf p with
  | [] => p
  | _ =>
      if e_write e <=? 0 then BGP_EVENT_ADD p TCP_fatal_error
      else BGP_EVENT_ADD (double_start (set_notify_out p (u32 (notify_out p + 1)))) BGP_Stop
  end.

Definition bgp_notify_send (e : env) (p : peer) (code sub_code : Z) : peer :=
  let p := set_obuf p [PktNotify code sub_code] in
  let p := if sub_code =? BGP_NOTIFY_CEASE_CONFIG_CHANGE then p
           else if sub_code =? BGP_NOTIFY_CEASE_ADMIN_RESET then set_last_reset p PEER_DOWN_USER_RESET
           else if sub_code =? BGP_NOTIFY_CEASE_ADMIN_SHUTDOWN then set_last_reset p PEER_DOWN_USER_SHUTDOWN
           else set_last_reset p PEER_DOWN_NOTIFY_SEND in
  bgp_write_notify e (set_t_write p false).

(** The family of the packet is written with the adjusted [safi], which is also
    the index of [af_sflags]. *)
Definition bgp_route_refresh_send (p : peer) (k : Z * Z) (orf_type : Z) : M peer :=
  let '(afi, safi0) := k in
  let safi := if safi0 =? SAFI_MPLS_VPN then SAFI_MPLS_LABELED_VPN else safi0 in
  let with_orf := ((orf_type =? ORF_TYPE_PREFIX) || (orf_type =? ORF_TYPE_PREFIX_OLD)) && negb (plist_in (conf p) k =? 0) in
  p ← (if with_orf then
         if (afi <? AFI_MAX) && (safi <? SAFI_MAX)
         then Ok (set_af_sflags p (put (af_sflags p) (afi, safi) (SET_FLAG (af_sflags p (afi, safi)) PEER_STATUS_ORF_PREFIX_SEND)))
         else Fault Undefined
       else Ok p);
  let pkt := PktRefresh (CHECK_FLAG (cap p) PEER_CAP_REFRESH_NEW_RCV) afi safi (if with_orf then Some orf_type else None) in
  Ok (BGP_WRITE_ON (set_obuf p (obuf p ++ [pkt]))).

(** ** The functions of the state machine *)

Definition gr_stop_timers (p : peer) : peer := timers_off [t_gr_restart; t_gr_stale] p.

Definition bgp_stop (e : env) (p : peer) : peer :=
  let p := if negb (status p =? Clearing) then BGP_EVENT_FLUSH p else p in
  let p :=
    if status p =? Established then
      let p := set_dropped p (u32 (dropped p + 1)) in
      let p := BGP_TIMER_OFF p t_gr_stale in
      let p := if CHECK_FLAG (sflags p) PEER_STATUS_NSF_WAIT then
                 let p := BGP_TIMER_ON p t_gr_restart (v_gr_restart (conf p)) in
                 BGP_TIMER_ON p t_gr_stale (stalepath_time (conf p))
               else
                 let p := set_sflags p (UNSET_FLAG (sflags p) PEER_STATUS_NSF_MODE) in
                 set_nsf p (clear_all nsf_families (nsf p)) in
      let p := set_resettime (set_uptime p (e_clock e)) (e_clock e) in
      set_synctime p 0
    else p in
  let p := set_t_write (set_t_read p false) false in
  let p := timers_off [t_start; t_connect; t_holdtime; t_keepalive; t_asorig; t_routeadv] p in
  let p := set_obuf (set_packet_size p 0) [] in
  let p := if 0 <=? fd p then set_fd p (-1) else p in
  let p := set_afc_nego p (clear_all families (afc_nego p)) in
  let p := set_afc_adv p (clear_all families (afc_adv p)) in
  let p := set_afc_recv p (clear_all families (afc_recv p)) in
  let p := set_af_cap p (clear_all families (af_cap p)) in
  let p := set_af_sflags p (clear_all families (af_sflags p)) in
  let p := if CHECK_FLAG (config p) PEER_CONFIG_TIMER
           then set_v_holdtime (set_v_keepalive p (keepalive (conf p))) (holdtime (conf p))
           else set_v_holdtime (set_v_keepalive p (default_keepalive (conf p))) (default_holdtime (conf p)) in
  set_update_time p 0.

Definition bgp_clearing_completed (e : env) (p : peer) : peer := BGP_EVENT_FLUSH (bgp_stop e p).

Definition bgp_stop_with_error (e : env) (p : peer) : peer := bgp_stop e (double_start p).

Definition peer_nsf_stop (p : peer) : peer :=
  let p := set_sflags p (UNSET_FLAG (UNSET_FLAG (sflags p) PEER_STATUS_NSF_WAIT) PEER_STATUS_NSF_MODE) in
  let p := set_nsf p (clear_all nsf_families (nsf p)) in
  bgp_clear_route_all (gr_stop_timers p).

(** [peer_delete] up to its [bgp_timer_set], without the membership in a group and
    the password. *)
Definition peer_delete (e : env) (p : peer) : M peer :=
  assert! negb (status p =? Deleted) ;;
  let p := if CHECK_FLAG (sflags p) PEER_STATUS_NSF_WAIT then peer_nsf_stop p else p in
  let p := set_last_reset p PEER_DOWN_NEIGHBOR_DELETE in
  Ok (bgp_timer_set e (bgp_fsm_change_status (bgp_stop e p) Deleted)).

Definition bgp_stop_with_notify (e : env) (p : peer) (code sub_code : Z) : M (peer * Z) :=
  let p := bgp_notify_send e p code sub_code in
  if CHECK_FLAG (sflags p) PEER_STATUS_ACCEPT_PEER then
    p ← peer_delete e p; Ok (p, -1)
  else Ok (bgp_stop e (set_v_start p BGP_INIT_START_TIMER), 0).

Definition bgp_connect_success (p : peer) : peer * Z :=
  if fd p <? 0 then (p, -1) else
  let p := BGP_READ_ON p in
  let p := if negb (CHECK_FLAG (sflags p) PEER_STATUS_ACCEPT_PEER) then set_su_known p true else p in
  let p := if negb (CHECK_FLAG (sflags p) PEER_STATUS_ACCEPT_PEER) then bgp_open_send p else p in
  (p, 0).

(** The socket and the result of the connection; -1 when there is no socket. *)
Definition bgp_connect (e : env) (p : peer) : peer * Z :=
  let p := set_fd p (e_socket e) in
  if e_socket e <? 0 then (p, -1) else (p, e_connect e).

Definition bgp_start (e : env) (p : peer) : peer * Z :=
  if BGP_PEER_START_SUPPRESSED p then (p, -1) else
  let p := set_cap (set_remote_id (set_su_known p false) 0) 0 in
  if CHECK_FLAG (pflags p) PEER_FLAG_PASSIVE then (BGP_EVENT_ADD p TCP_connection_open_failed, 0) else
  let '(p, st) := bgp_connect e p in
  if st =? connect_error then (BGP_EVENT_ADD p TCP_connection_open_failed, 0)
  else if st =? connect_success then (BGP_EVENT_ADD p TCP_connection_open, 0)
  else if st =? connect_in_progress then
    if fd p <? 0 then (p, -1) else (BGP_WRITE_ON (BGP_READ_ON p), 0)
  else (p, 0).

Definition bgp_reconnect (e : env) (p : peer) : peer := (bgp_start e (bgp_stop e p)).1.

Definition bgp_fsm_open (p : peer) : peer := BGP_TIMER_OFF (bgp_keepalive_send p) t_holdtime.
Definition bgp_fsm_keepalive_expire (p : peer) : peer := bgp_keepalive_send p.
Definition bgp_fsm_event_error (e : env) (p : peer) : M (peer * Z) := bgp_stop_with_notify e p BGP_NOTIFY_FSM_ERR 0.
Definition bgp_fsm_holdtime_expire (e : env) (p : peer) : M (peer * Z) := bgp_stop_with_notify e p BGP_NOTIFY_HOLD_ERR 0.

(** One turn of the graceful restart loop, with [nsf_af_count]. *)
Definition establish_nsf (pn : peer * Z) (k : Z * Z) : peer * Z :=
  let '(p, n) := pn in
  if negb (afc_nego p k =? 0) && CHECK_FLAG (cap p) PEER_CAP_RESTART_ADV && CHECK_FLAG (af_cap p k) PEER_CAP_RESTART_AF_RCV then
    let p := if negb (nsf p k =? 0) && negb (CHECK_FLAG (af_cap p k) PEER_CAP_RESTART_AF_PRESERVE_RCV)
             then bgp_clear_stale_route p k else p in
    (set_nsf p (put (nsf p) k 1), n + 1)
  else
    let p := if negb (nsf p k =? 0) then bgp_clear_stale_route p k else p in
    (set_nsf p (put (nsf p) k 0), n).

(** One turn of the loop that sends route refreshes. *)
Definition establish_refresh (m : M peer) (k : Z * Z) : M peer :=
  p ← m;
  if CHECK_FLAG (af_cap p k) PEER_CAP_ORF_PREFIX_SM_ADV then
    if CHECK_FLAG (af_cap p k) PEER_CAP_ORF_PREFIX_RM_RCV then bgp_route_refresh_send p k ORF_TYPE_PREFIX
    else if CHECK_FLAG (af_cap p k) PEER_CAP_ORF_PREFIX_RM_OLD_RCV then bgp_route_refresh_send p k ORF_TYPE_PREFIX_OLD
    else Ok p
  else Ok p.

Definition establish_orf_wait (p : peer) (k : Z * Z) : peer :=
  if CHECK_FLAG (af_cap p k) PEER_CAP_ORF_PREFIX_RM_ADV
     && (CHECK_FLAG (af_cap p k) PEER_CAP_ORF_PREFIX_SM_RCV || CHECK_FLAG (af_cap p k) PEER_CAP_ORF_PREFIX_SM_OLD_RCV)
  then set_af_sflags p (put (af_sflags p) k (SET_FLAG (af_sflags p k) PEER_STATUS_ORF_WAIT_REFRESH)) else p.

(** [bgp_announce_route_all] records the families whose tables are announced. *)
Definition bgp_announce_route (p : peer) (k : Z * Z) : peer :=
  if negb (status p =? Established) then p
  else if afc_nego p k =? 0 then p
  else if CHECK_FLAG (af_sflags p k) PEER_STATUS_ORF_WAIT_REFRESH then p
  else set_announced p (announced p ++ [k]).
Definition bgp_announce_route_all (p : peer) : peer := foldl bgp_announce_route p families.

Definition bgp_establish (e : env) (p : peer) : M peer :=
  let p := set_sflags p (SET_FLAG (sflags p) PEER_STATUS_CAPABILITY_OPEN) in
  let p := set_v_start p BGP_INIT_START_TIMER in
  let p := set_established p (u32 (established p + 1)) in
  let p := bgp_fsm_change_status p Established in
  let p := set_sflags p (UNSET_FLAG (sflags p) PEER_STATUS_NSF_WAIT) in
  let '(p, nsf_af_count) := foldl establish_nsf (p, 0) nsf_families in
  let p := if negb (nsf_af_count =? 0) then set_sflags p (SET_FLAG (sflags p) PEER_STATUS_NSF_MODE)
           else BGP_TIMER_OFF (set_sflags p (UNSET_FLAG (sflags p) PEER_STATUS_NSF_MODE)) t_gr_stale in
  let p := BGP_TIMER_OFF p t_gr_restart in
  let p := set_uptime p (e_clock e) in
  p ← foldl establish_refresh (Ok p) families;
  let p := if negb (v_keepalive p =? 0) then bgp_keepalive_send p else p in
  let p := foldl establish_orf_wait p families in
  let p := bgp_announce_route_all p in
  Ok (BGP_TIMER_ON p t_routeadv 1).

Definition bgp_fsm_keepalive (p : peer) : peer :=
  BGP_TIMER_OFF (set_keepalive_in p (u32 (keepalive_in p + 1))) t_holdtime.
Definition bgp_fsm_update (p : peer) : peer := BGP_TIMER_OFF p t_holdtime.

(** ** The table *)

Inductive fsm_func :=
  | F_start
  | F_stop
  | F_ignore
  | F_connect_success
  | F_connect_fail
  | F_reconnect
  | F_stop_with_error
  | F_fsm_holdtime_expire
  | F_fsm_open
  | F_fsm_event_error
  | F_establish
  | F_fsm_keepalive_expire
  | F_fsm_keepalive
  | F_fsm_update
  | F_clearing_completed.

Definition FSM : list (list (fsm_func * Z)) := [
  (* Idle *)
  [(F_start, Connect);
   (F_stop, Idle);
   (F_stop, Idle);
   (F_stop, Idle);
   (F_ignore, Idle);
   (F_stop, Idle);
   (F_ignore, Idle);
   (F_ignore, Idle);
   (F_ignore, Idle);
   (F_ignore, Idle);
   (F_ignore, Idle);
   (F_ignore, Idle);
   (F_ignore, Idle);
   (F_ignore, Idle)];
  (* Connect *)
  [(F_ignore, Connect);
   (F_stop, Idle);
   (F_connect_success, OpenSent);
   (F_stop, Idle);
   (F_connect_fail, Active);
   (F_connect_fail, Idle);
   (F_reconnect, Connect);
   (F_ignore, Idle);
   (F_ignore, Idle);
   (F_ignore, Idle);
   (F_ignore, Idle);
   (F_ignore, Idle);
   (F_stop, Idle);
   (F_ignore, Idle)];
  (* Active *)
  [(F_ignore, Active);
   (F_stop, Idle);
   (F_connect_success, OpenSent);
   (F_stop, Idle);
   (F_ignore, Active);
   (F_ignore, Idle);
   (F_start, Connect);
   (F_ignore, Idle);
   (F_ignore, Idle);
   (F_ignore, Idle);
   (F_ignore, Idle);
   (F_ignore, Idle);
   (F_stop_with_error, Idle);
   (F_ignore, Idle)];
  (* OpenSent *)
  [(F_ignore, OpenSent);
   (F_stop, Idle);
   (F_stop, Active);
   (F_stop, Active);
   (F_stop, Active);
   (F_stop, Active);
   (F_ignore, Idle);
   (F_fsm_holdtime_expire, Idle);
   (F_ignore, Idle);
   (F_fsm_open, OpenConfirm);
   (F_fsm_event_error, Idle);
   (F_fsm_event_error, Idle);
   (F_stop_with_error, Idle);
   (F_ignore, Idle)];
  (* OpenConfirm *)
  [(F_ignore, OpenConfirm);
   (F_stop, Idle);
   (F_stop, Idle);
   (F_stop, Idle);
   (F_stop, Idle);
   (F_stop, Idle);
   (F_ignore, Idle);
   (F_fsm_holdtime_expire, Idle);
   (F_ignore, OpenConfirm);
   (F_ignore, Idle);
   (F_establish, Established);
   (F_ignore, Idle);
   (F_stop_with_error, Idle);
   (F_ignore, Idle)];
  (* Established *)
  [(F_ignore, Established);
   (F_stop, Clearing);
   (F_stop, Clearing);
   (F_stop, Clearing);
   (F_stop, Clearing);
   (F_stop, Clearing);
   (F_stop, Clearing);
   (F_fsm_holdtime_expire, Clearing);
   (F_fsm_keepalive_expire, Established);
   (F_stop, Clearing);
   (F_fsm_keepalive, Established);
   (F_fsm_update, Established);
   (F_stop_with_error, Clearing);
   (F_ignore, Idle)];
  (* Clearing *)
  [(F_ignore, Clearing);
   (F_stop, Clearing);
   (F_stop, Clearing);
   (F_stop, Clearing);
   (F_stop, Clearing);
   (F_stop, Clearing);
   (F_stop, Clearing);
   (F_stop, Clearing);
   (F_stop, Clearing);
   (F_stop, Clearing);
   (F_stop, Clearing);
   (F_stop, Clearing);
   (F_stop, Clearing);
   (F_clearing_completed, Idle)];
  (* Deleted *)
  [(F_ignore, Deleted);
   (F_ignore, Deleted);
   (F_ignore, Deleted);
   (F_ignore, Deleted);
   (F_ignore, Deleted);
   (F_ignore, Deleted);
   (F_ignore, Deleted);
   (F_ignore, Deleted);
   (F_ignore, Deleted);
   (F_ignore, Deleted);
   (F_ignore, Deleted);
   (F_ignore, Deleted);
   (F_ignore, Deleted);
   (F_ignore, Deleted)]
].

Definition call (f : fsm_func) (e : env) (p : peer) : M (peer * Z) :=
  match f with
  | F_start => Ok (bgp_start e p)
  | F_stop => Ok (bgp_stop e p, 0)
  | F_ignore => Ok (p, 0)
  | F_connect_success => Ok (bgp_connect_success p)
  | F_connect_fail => Ok (bgp_stop e p, 0)
  | F_reconnect => Ok (bgp_reconnect e p, 0)
  | F_stop_with_error => Ok (bgp_stop_with_error e p, 0)
  | F_fsm_holdtime_expire => bgp_fsm_holdtime_expire e p
  | F_fsm_open => Ok (bgp_fsm_open p, 0)
  | F_fsm_event_error => bgp_fsm_event_error e p
  | F_establish => p ← bgp_establish e p; Ok (p, 0)
  | F_fsm_keepalive_expire => Ok (bgp_fsm_keepalive_expire p, 0)
  | F_fsm_keepalive => Ok (bgp_fsm_keepalive p, 0)
  | F_fsm_update => Ok (bgp_fsm_update p, 0)
  | F_clearing_completed => Ok (bgp_clearing_completed e p, 0)
  end.

Definition bgp_event (e : env) (p : peer) (event : Z) : M (peer * Z) :=
  row ← rd FSM (status p - 1);
  '(f, nxt) ← rd row (event - 1);
  '(p, ret) ← call f e p;
  if 0 <=? ret then
    let p := if negb (nxt =? status p) then bgp_fsm_change_status p nxt else p in
    Ok (bgp_timer_set e p, ret)
  else Ok (p, ret).

(** ** Threads of the peer *)

Definition bgp_start_timer (e : env) (p : peer) : M (peer * Z) := bgp_event e (BGP_TIMER_OFF p t_start) BGP_Start.
Definition bgp_connect_timer (e : env) (p : peer) : M (peer * Z) :=
  bgp_event e (BGP_TIMER_OFF p t_connect) ConnectRetry_timer_expired.
Definition bgp_holdtime_timer (e : env) (p : peer) : M (peer * Z) :=
  bgp_event e (BGP_TIMER_OFF p t_holdtime) Hold_Timer_expired.
Definition bgp_keepalive_timer (e : env) (p : peer) : M (peer * Z) :=
  bgp_event e (BGP_TIMER_OFF p t_keepalive) KeepAlive_timer_expired.
Definition bgp_routeadv_timer (e : env) (p : peer) : peer :=
  let p := set_synctime (BGP_TIMER_OFF p t_routeadv) (e_clock e) in
  BGP_TIMER_ON (BGP_WRITE_ON p) t_routeadv (v_routeadv (conf p)).

(** The loop of both graceful restart timers. *)
Definition clear_stale_families (p : peer) : peer :=
  foldl (λ p k, if negb (nsf p k =? 0) then bgp_clear_stale_route p k else p) p nsf_families.
Definition bgp_graceful_restart_timer_expire (e : env) (p : peer) : peer :=
  let p := clear_stale_families (BGP_TIMER_OFF p t_gr_restart) in
  let p := set_sflags p (UNSET_FLAG (sflags p) PEER_STATUS_NSF_WAIT) in
  bgp_timer_set e (BGP_TIMER_OFF p t_gr_stale).
Definition bgp_graceful_stale_timer_expire (p : peer) : peer := clear_stale_families (BGP_TIMER_OFF p t_gr_stale).

(** The connection was closed by the other side; [fatal] tells a read error from
    an end of file. *)
Definition bgp_read_packet_closed (p : peer) (fatal : bool) : peer :=
  let p := if status p =? Established then
             if CHECK_FLAG (sflags p) PEER_STATUS_NSF_MODE
             then set_sflags (set_last_reset p PEER_DOWN_NSF_CLOSE_SESSION) (SET_FLAG (sflags p) PEER_STATUS_NSF_WAIT)
             else set_last_reset p PEER_DOWN_CLOSE_SESSION
           else p in
  BGP_EVENT_ADD p (if fatal then TCP_fatal_error else TCP_connection_closed).

(** The result of a non-blocking connection: [status] of the socket, [None] when
    it cannot be read. *)
Definition bgp_connect_check (p : peer) (sock_status : option Z) : peer :=
  let p := set_t_write (set_t_read p false) false in
  match sock_status with
  | None => BGP_EVENT_ADD p TCP_fatal_error
  | Some 0 => BGP_EVENT_ADD p TCP_connection_open
  | Some _ => BGP_EVENT_ADD p TCP_connection_open_failed
  end.

(** The thread of the work queue. *)
Definition clear_run (yield : Z → bool) (p : peer) : option peer :=
  match clear_node_queue p with
  | None => None
  | Some wq =>
      '(p, wq, _) ← work_queue_run (length (items wq)) clear_callbacks yield p wq;
      Some (set_clear_node_queue p (Some wq))
  end.
