(* ===== verification/FsmSpec.v ===== *)
(** The state machine of a session: its types, its timers, and the clearing of
    the routes of a peer between two sessions. *)
From S2P Require Import Prelude Decision Workqueue Fsm.
Open Scope Z_scope.

Create HintDb fsm.

(** ** What a function leaves alone *)

(** The status, the events, the queue and the routes of a peer are the same. *)
Definition sc (p p' : peer) : Prop :=
  status p' = status p ∧ events p' = events p ∧ clear_node_queue p' = clear_node_queue p ∧ rib p' = rib p.

Lemma sc_refl p : sc p p.
Proof. done. Qed.
Lemma sc_trans p q r : sc p q → sc q r → sc p r.
Proof. unfold sc. intros (? & ? & ? & ?) (? & ? & ? & ?). split_and!; congruence. Qed.
Lemma sc_if (b : bool) q p1 p2 : sc q p1 → sc q p2 → sc q (if b then p1 else p2).
Proof. by destruct b. Qed.
#[export] Hint Resolve sc_refl sc_if : fsm.

Lemma sc_set_ostatus q p x : sc q p → sc q (set_ostatus p x).
Proof. exact id. Qed.
Lemma sc_set_fd q p x : sc q p → sc q (set_fd p x).
Proof. exact id. Qed.
Lemma sc_set_sflags q p x : sc q p → sc q (set_sflags p x).
Proof. exact id. Qed.
Lemma sc_set_cap q p x : sc q p → sc q (set_cap p x).
Proof. exact id. Qed.
Lemma sc_set_v_start q p x : sc q p → sc q (set_v_start p x).
Proof. exact id. Qed.
Lemma sc_set_v_holdtime q p x : sc q p → sc q (set_v_holdtime p x).
Proof. exact id. Qed.
Lemma sc_set_v_keepalive q p x : sc q p → sc q (set_v_keepalive p x).
Proof. exact id. Qed.
Lemma sc_set_t_read q p x : sc q p → sc q (set_t_read p x).
Proof. exact id. Qed.
Lemma sc_set_t_write q p x : sc q p → sc q (set_t_write p x).
Proof. exact id. Qed.
Lemma sc_set_timers q p x : sc q p → sc q (set_timers p x).
Proof. exact id. Qed.
Lemma sc_set_afc_nego q p x : sc q p → sc q (set_afc_nego p x).
Proof. exact id. Qed.
Lemma sc_set_afc_adv q p x : sc q p → sc q (set_afc_adv p x).
Proof. exact id. Qed.
Lemma sc_set_afc_recv q p x : sc q p → sc q (set_afc_recv p x).
Proof. exact id. Qed.
Lemma sc_set_af_cap q p x : sc q p → sc q (set_af_cap p x).
Proof. exact id. Qed.
Lemma sc_set_af_sflags q p x : sc q p → sc q (set_af_sflags p x).
Proof. exact id. Qed.
Lemma sc_set_nsf q p x : sc q p → sc q (set_nsf p x).
Proof. exact id. Qed.
Lemma sc_set_obuf q p x : sc q p → sc q (set_obuf p x).
Proof. exact id. Qed.
Lemma sc_set_established q p x : sc q p → sc q (set_established p x).
Proof. exact id. Qed.
Lemma sc_set_dropped q p x : sc q p → sc q (set_dropped p x).
Proof. exact id. Qed.
Lemma sc_set_keepalive_in q p x : sc q p → sc q (set_keepalive_in p x).
Proof. exact id. Qed.
Lemma sc_set_notify_out q p x : sc q p → sc q (set_notify_out p x).
Proof. exact id. Qed.
Lemma sc_set_uptime q p x : sc q p → sc q (set_uptime p x).
Proof. exact id. Qed.
Lemma sc_set_resettime q p x : sc q p → sc q (set_resettime p x).
Proof. exact id. Qed.
Lemma sc_set_synctime q p x : sc q p → sc q (set_synctime p x).
Proof. exact id. Qed.
Lemma sc_set_update_time q p x : sc q p → sc q (set_update_time p x).
Proof. exact id. Qed.
Lemma sc_set_last_reset q p x : sc q p → sc q (set_last_reset p x).
Proof. exact id. Qed.
Lemma sc_set_remote_id q p x : sc q p → sc q (set_remote_id p x).
Proof. exact id. Qed.
Lemma sc_set_su_known q p x : sc q p → sc q (set_su_known p x).
Proof. exact id. Qed.
Lemma sc_set_packet_size q p x : sc q p → sc q (set_packet_size p x).
Proof. exact id. Qed.
Lemma sc_set_announced q p x : sc q p → sc q (set_announced p x).
Proof. exact id. Qed.
#[export] Hint Resolve
  sc_set_ostatus sc_set_fd sc_set_sflags sc_set_cap sc_set_v_start sc_set_v_holdtime sc_set_v_keepalive
  sc_set_t_read sc_set_t_write sc_set_timers sc_set_afc_nego sc_set_afc_adv sc_set_afc_recv sc_set_af_cap
  sc_set_af_sflags sc_set_nsf sc_set_obuf sc_set_established sc_set_dropped sc_set_keepalive_in
  sc_set_notify_out sc_set_uptime sc_set_resettime sc_set_synctime sc_set_update_time sc_set_last_reset
  sc_set_remote_id sc_set_su_known sc_set_packet_size sc_set_announced
  : fsm.

Lemma sc_timer_on q p t v : sc q p → sc q (BGP_TIMER_ON p t v).
Proof. unfold BGP_TIMER_ON. auto with fsm. Qed.
Lemma sc_timer_off q p t : sc q p → sc q (BGP_TIMER_OFF p t).
Proof. unfold BGP_TIMER_OFF. auto with fsm. Qed.
Lemma sc_timers_off q ts p : sc q p → sc q (timers_off ts p).
Proof. unfold timers_off. revert p. induction ts as [|t ts IH]; intros p H; cbn [foldl]; [done|]. apply IH. by apply sc_timer_off. Qed.
Lemma sc_read_on q p : sc q p → sc q (BGP_READ_ON p).
Proof. unfold BGP_READ_ON. auto with fsm. Qed.
Lemma sc_write_on q p : sc q p → sc q (BGP_WRITE_ON p).
Proof. unfold BGP_WRITE_ON. auto with fsm. Qed.
#[export] Hint Resolve sc_timer_on sc_timer_off sc_timers_off sc_read_on sc_write_on : fsm.

Lemma sc_timer_set e q p : sc q p → sc q (bgp_timer_set e p).
Proof. intros H. unfold bgp_timer_set. cbv zeta. auto 12 with fsm. Qed.
Lemma sc_keepalive_send q p : sc q p → sc q (bgp_keepalive_send p).
Proof. unfold bgp_keepalive_send. auto with fsm. Qed.
Lemma sc_open_send q p : sc q p → sc q (bgp_open_send p).
Proof. unfold bgp_open_send. auto with fsm. Qed.
Lemma sc_double_start q p : sc q p → sc q (double_start p).
Proof. unfold double_start. auto with fsm. Qed.
#[export] Hint Resolve sc_timer_set sc_keepalive_send sc_open_send sc_double_start : fsm.

Lemma sc_connect_success q p : sc q p → sc q (bgp_connect_success p).1.
Proof. intros H. unfold bgp_connect_success. destruct (fd p <? 0); cbn [fst]; auto 8 with fsm. Qed.

(** [bgp_stop] forgets the waiting events, except while routes are cleared. *)
Definition flushed (p : peer) : peer := if negb (status p =? Clearing) then BGP_EVENT_FLUSH p else p.

Lemma sc_stop e p : sc (flushed p) (bgp_stop e p).
Proof. unfold bgp_stop. fold (flushed p). cbv zeta. auto 40 with fsm. Qed.

(** ** Folds over families *)

Lemma sc_fold q (g : peer → Z * Z → peer) ks p :
  (∀ p k, sc q p → sc q (g p k)) → sc q p → sc q (foldl g p ks).
Proof. intros Hg. revert p. induction ks as [|k ks IH]; intros p H; cbn [foldl]; [done|]. apply IH. by apply Hg. Qed.

Lemma sc_announce q p : sc q p → sc q (bgp_announce_route_all p).
Proof. intros H. apply sc_fold; [|done]. intros p' k H'. unfold bgp_announce_route. auto 8 with fsm. Qed.
Lemma sc_orf_wait q p : sc q p → sc q (foldl establish_orf_wait p families).
Proof. intros H. apply sc_fold; [|done]. intros p' k H'. unfold establish_orf_wait. auto 8 with fsm. Qed.

(** ** Routes *)

(** A route that is removed, kept for dampening, or marked stale for a graceful
    restart. *)
Definition cleared (f : Z) : bool := CHECK_FLAG f BGP_INFO_STALE || CHECK_FLAG f BGP_INFO_UNUSEABLE.

Lemma check_sub f g h : Z.land g h = g → CHECK_FLAG f g = true → CHECK_FLAG f h = true.
Proof.
  unfold CHECK_FLAG. rewrite !negb_true_iff, !Z.eqb_neq. intros E Hg Hh. apply Hg.
  rewrite <- E, (Z.land_comm g), Z.land_assoc, Hh. apply Z.land_0_l.
Qed.

Lemma rib_remove_cleared f : cleared (bgp_rib_remove f) = true.
Proof.
  unfold cleared, bgp_rib_remove. destruct (CHECK_FLAG f BGP_INFO_HISTORY) eqn:E.
  - rewrite (check_sub f BGP_INFO_HISTORY BGP_INFO_UNUSEABLE) by done. apply orb_true_r.
  - rewrite (check_unset_other _ BGP_INFO_VALID BGP_INFO_UNUSEABLE), check_set by done. by rewrite !orb_true_r.
Qed.

(** The routes of [p'] are among those of [p] and cleared where those are. *)
Definition tidier (p p' : peer) : Prop :=
  ∀ n r', rib p' !! n = Some r' →
    ∃ r, rib p !! n = Some r ∧ rfam r' = rfam r ∧ (cleared (rflags r) = true → cleared (rflags r') = true).

Lemma tidier_refl p p' : rib p' = rib p → tidier p p'.
Proof. intros E n r H. rewrite E in H. eauto. Qed.
Lemma tidier_trans p q r : tidier p q → tidier q r → tidier p r.
Proof.
  intros H1 H2 n r' Hr. destruct (H2 n r' Hr) as (x & Hx & E1 & C1). destruct (H1 n x Hx) as (y & Hy & E2 & C2).
  exists y. split_and!; [done|congruence|auto].
Qed.

(** Events and queue are the same and the routes are tidier. *)
Definition st (p p' : peer) : Prop :=
  status p' = status p ∧ events p' = events p ∧ clear_node_queue p' = clear_node_queue p ∧ tidier p p'.

Lemma st_refl p : st p p.
Proof. split_and!; [done..|]. by apply tidier_refl. Qed.
Lemma st_sc p q r : st p q → sc q r → st p r.
Proof.
  intros (E1 & E2 & E3 & T) (F1 & F2 & F3 & F4). split_and!; [congruence..|].
  eapply tidier_trans; [done|]. by apply tidier_refl.
Qed.
Lemma st_fold (g : peer → Z * Z → peer) q ks p : (∀ p k, st q p → st q (g p k)) → st q p → st q (foldl g p ks).
Proof. intros Hg. revert p. induction ks as [|k ks IH]; intros p H; cbn [foldl]; [done|]. apply IH. by apply Hg. Qed.

Lemma st_clear_stale q p k : st q p → st q (bgp_clear_stale_route p k).
Proof.
  intros (E1 & E2 & E3 & T). split_and!; [done..|]. eapply tidier_trans; [done|]. intros n r'. cbn [rib bgp_clear_stale_route set_rib].
  rewrite lookup_fmap. destruct (rib p !! n) as [r|] eqn:Er; cbn; [|done]. intros [= <-]. exists r.
  destruct (_ && _); cbn; [|done]. split_and!; [done..|]. intros _. apply rib_remove_cleared.
Qed.

Lemma st_clear_stale_families q p : st q p → st q (clear_stale_families p).
Proof.
  intros H. apply st_fold; [|done]. intros p' k H'. destruct (_ =? 0); cbn; [done|]. by apply st_clear_stale.
Qed.

Lemma st_nsf q pn k : st q pn.1 → st q (establish_nsf pn k).1.
Proof.
  destruct pn as [p n]. cbn [fst]. intros H. unfold establish_nsf. destruct (_ && _); cbn [fst].
  - destruct (_ && _); (eapply st_sc; [|by apply sc_set_nsf, sc_refl]); [by apply st_clear_stale|done].
  - destruct (negb _); (eapply st_sc; [|by apply sc_set_nsf, sc_refl]); [by apply st_clear_stale|done].
Qed.

Lemma st_nsf_loop q pn ks : st q pn.1 → st q (foldl establish_nsf pn ks).1.
Proof. revert pn. induction ks as [|k ks IH]; intros pn H; cbn [foldl]; [done|]. apply IH. by apply st_nsf. Qed.

(** ** Establishing a session *)

Lemma Ok_inj {A} (a b : A) : Ok a = Ok b → a = b.
Proof. congruence. Qed.

Lemma sc_refresh_send q p k t p' : sc q p → bgp_route_refresh_send p k t = Ok p' → sc q p'.
Proof.
  intros H. unfold bgp_route_refresh_send. destruct k as [afi safi]. cbv zeta.
  intros (p1 & E1 & [= <-])%bind_ok. assert (sc q p1) as H1.
  { repeat case_match; simplify_eq; first [done|by apply sc_set_af_sflags]. }
  auto with fsm.
Qed.

Lemma sc_refresh_loop q ks m p' :
  (∀ p, m = Ok p → sc q p) → foldl establish_refresh m ks = Ok p' → sc q p'.
Proof.
  revert m. induction ks as [|k ks IH]; intros m Hm; cbn [foldl]; [apply Hm|]. apply IH.
  intros p (p0 & E0 & E)%bind_ok. specialize (Hm p0 E0). repeat case_match; simplify_eq; first [done|by eapply sc_refresh_send].
Qed.

Lemma establish_effect e p p' :
  bgp_establish e p = Ok p' →
  status p' = Established ∧ events p' = events p ∧ clear_node_queue p' = clear_node_queue p ∧ tidier p p'.
Proof.
  unfold bgp_establish. cbv zeta. set (p0 := set_sflags (bgp_fsm_change_status _ _) _).
  assert (st (set_status p Established) p0) as H0 by (split_and!; [done..|by apply tidier_refl]).
  pose proof (st_nsf_loop _ (p0, 0) nsf_families H0) as H1. destruct (foldl establish_nsf _ _) as [p1 n].
  cbn [fst] in H1. intros (p2 & E2 & <-%Ok_inj)%bind_ok.
  set (p1' := set_uptime _ _) in E2.
  assert (sc p1 p1') as S1 by (subst p1'; auto 8 with fsm).
  pose proof (sc_refresh_loop p1 families (Ok p1') p2 ltac:(by intros ? [= <-]) E2) as S2.
  assert (st (set_status p Established) (BGP_TIMER_ON (bgp_announce_route_all
    (foldl establish_orf_wait (if negb (v_keepalive p2 =? 0) then bgp_keepalive_send p2 else p2) families)) t_routeadv 1))
    as (E1 & E3 & E4 & T).
  { eapply st_sc; [exact H1|]. eapply sc_trans; [exact S2|].
    apply sc_timer_on, sc_announce, sc_orf_wait. auto with fsm. }
  split_and!; [done..|exact T].
Qed.

(** ** Clearing *)

Definition queue_ok (q : option (work_queue Z)) : Prop :=
  match q with
  | None => True
  | Some wq => max_retries wq = 0 ∧ CHECK_FLAG (flags wq) WQ_UNPLUGGED = true ∧
               (thread wq = None ↔ items wq = []) ∧ Forall (λ it, ran it <= 0) (items wq)
  end.
Definition waiting (q : option (work_queue Z)) : list Z := match q with Some wq => data <$> items wq | None => [] end.

(** One family: its nodes wait, and the completion is announced at once when the
    queue is empty. *)
Lemma clear_route_effect p k :
  queue_ok (clear_node_queue p) → status p ≠ Deleted →
  let p' := bgp_clear_route p k in
  status p' = status p ∧ rib p' = rib p ∧ queue_ok (clear_node_queue p') ∧
  waiting (clear_node_queue p') = waiting (clear_node_queue p) ++ scan p k ∧
  events p' = events p ++ (if decide (waiting (clear_node_queue p') = []) then [Clearing_Completed] else []).
Proof.
  intros Hq Hd p'. subst p'. unfold bgp_clear_route. cbv zeta.
  set (wq0 := match clear_node_queue p with Some wq => wq | None => bgp_clear_node_queue_init end).
  assert (queue_ok (Some wq0) ∧ waiting (Some wq0) = waiting (clear_node_queue p)) as [(Hr & Hu & Ht & Hi) <-].
  { subst wq0. destruct (clear_node_queue p); [done|]. done. }
  unfold bgp_clear_route_table. destruct (add_items wq0 (scan p k) Hu Ht) as (E1 & E2 & E3 & E4).
  set (wq1 := foldl work_queue_add wq0 (scan p k)) in *.
  assert (queue_ok (Some wq1)) as Hq1.
  { split_and!; [congruence|congruence|done|]. rewrite E1. apply Forall_app. split; [done|].
    apply Forall_forall. intros it. rewrite list_elem_of_fmap. intros (d & -> & _). done. }
  assert (waiting (Some wq1) = waiting (Some wq0) ++ scan p k) as Hw.
  { cbn. rewrite E1, fmap_app, <- list_fmap_compose. f_equal. apply list_fmap_id. }
  assert (thread wq1 = None ↔ waiting (Some wq1) = []) as Hn.
  { rewrite E2. cbn. destruct (items wq1); cbn; naive_solver. }
  destruct (decide (waiting (Some wq1) = [])) as [Ew|Ew].
  - rewrite bool_decide_true by naive_solver. unfold bgp_clear_node_complete, BGP_EVENT_ADD. cbn.
    rewrite (proj2 (Z.eqb_neq _ _)) by done. cbn. rewrite decide_True by done. done.
  - rewrite bool_decide_false by naive_solver. cbn. rewrite decide_False by done. rewrite app_nil_r. done.
Qed.

Definition ipv4_only (p : peer) : Prop := ∀ n r, rib p !! n = Some r → rfam r = (AFI_IP, SAFI_UNICAST).

Lemma elem_of_scan p k n : n ∈ scan p k ↔ ∃ r, rib p !! n = Some r ∧ rfam r = k.
Proof.
  unfold scan. rewrite list_elem_of_fmap. setoid_rewrite list_elem_of_filter. split.
  - intros ([n' r] & -> & Hk & Hr%elem_of_map_to_list). cbn in *. eauto.
  - intros (r & Hr & Hk). exists (n, r). split_and!; [done|done|]. by apply elem_of_map_to_list.
Qed.

Lemma scan_none p k : ipv4_only p → k ≠ (AFI_IP, SAFI_UNICAST) → scan p k = [].
Proof.
  intros Hv Hk. apply elem_of_nil_inv. intros n (r & Hr & <-)%elem_of_scan. by apply Hk, (Hv n).
Qed.

(** Families without routes. *)
Lemma clear_rest_effect ks p :
  queue_ok (clear_node_queue p) → status p ≠ Deleted → ipv4_only p → (AFI_IP, SAFI_UNICAST) ∉ ks →
  let p' := foldl bgp_clear_route p ks in
  status p' = status p ∧ rib p' = rib p ∧ queue_ok (clear_node_queue p') ∧
  waiting (clear_node_queue p') = waiting (clear_node_queue p) ∧
  events p' = events p ++ (if decide (waiting (clear_node_queue p) = []) then replicate (length ks) Clearing_Completed else []).
Proof.
  revert p. induction ks as [|k ks IH]; intros p Hq Hd Hv Hk p'; subst p'; cbn [foldl length replicate].
  { split_and!; [done..|]. destruct (decide _); by rewrite app_nil_r. }
  apply not_elem_of_cons in Hk as [Hk Hks].
  destruct (clear_route_effect p k Hq Hd) as (E1 & E2 & E3 & E4 & E5).
  rewrite scan_none, app_nil_r in E4 by (done || congruence).
  destruct (IH (bgp_clear_route p k)) as (F1 & F2 & F3 & F4 & F5); [done|congruence|by intros n r; rewrite E2; apply Hv|done|].
  split_and!; [congruence..|done|congruence|]. rewrite F5, E5, E4, <- (assoc_L (++)). by destruct (decide (waiting (clear_node_queue p) = [])).
Qed.

Lemma clear_all_effect p :
  queue_ok (clear_node_queue p) → status p ≠ Deleted → ipv4_only p → waiting (clear_node_queue p) = [] →
  let p' := bgp_clear_route_all p in
  status p' = status p ∧ rib p' = rib p ∧ queue_ok (clear_node_queue p') ∧
  waiting (clear_node_queue p') = scan p (AFI_IP, SAFI_UNICAST) ∧
  events p' = events p ++ (if decide (scan p (AFI_IP, SAFI_UNICAST) = []) then replicate 8 Clearing_Completed else []).
Proof.
  intros Hq Hd Hv Hw p'.
  assert (p' = foldl bgp_clear_route (bgp_clear_route p (AFI_IP, SAFI_UNICAST)) (tail families)) as Ep by done.
  clearbody p'. subst p'.
  destruct (clear_route_effect p (AFI_IP, SAFI_UNICAST) Hq Hd) as (E1 & E2 & E3 & E4 & E5). rewrite Hw in E4. cbn [app] in E4.
  destruct (clear_rest_effect (tail families) (bgp_clear_route p (AFI_IP, SAFI_UNICAST))) as (F1 & F2 & F3 & F4 & F5);
    [done|congruence|by intros n r; rewrite E2; apply Hv|decide_by_compute|].
  change (length (tail families)) with 7%nat in F5. revert F1 F2 F3 F4 F5. revert E1 E2 E3 E4 E5.
  generalize (foldl bgp_clear_route (bgp_clear_route p (AFI_IP, SAFI_UNICAST)) (tail families)) as q2.
  generalize (bgp_clear_route p (AFI_IP, SAFI_UNICAST)) as q1. intros q1 q2 E1 E2 E3 E4 E5 F1 F2 F3 F4 F5.
  split_and!; [congruence..|done|congruence|].
  rewrite F5, E5, E4, <- (assoc_L (++)). by destruct (decide (scan p (AFI_IP, SAFI_UNICAST) = [])).
Qed.

(** The work of one node. *)
Lemma clear_node_effect p n p' :
  (bgp_clear_route_node p n).1 = p' →
  status p' = status p ∧ events p' = events p ∧ clear_node_queue p' = clear_node_queue p ∧ tidier p p' ∧
  ∀ r, rib p' !! n = Some r → cleared (rflags r) = true.
Proof.
  intros <-. unfold bgp_clear_route_node. destruct (rib p !! n) as [r|] eqn:Er; cbn [fst].
  2:{ split_and!; [done..|by apply tidier_refl|]. intros r. by rewrite Er. }
  set (f := if _ && _ then _ else _). assert (cleared f = true) as Hf.
  { subst f. destruct (_ && _); [|apply rib_remove_cleared]. unfold cleared. rewrite check_set. by rewrite orb_true_r. }
  split_and!; [done..| |].
  - intros m r'. cbn. intros [[<- <-]|[Hne Hm]]%lookup_insert_Some; [|eauto]. exists r. split_and!; done.
  - intros r'. cbn. rewrite lookup_insert_eq. by intros [= <-].
Qed.

Lemma clear_nodes_effect its p :
  let p' := foldl (work clear_callbacks) p its in
  status p' = status p ∧ events p' = events p ∧ clear_node_queue p' = clear_node_queue p ∧ tidier p p' ∧
  ∀ n r, n ∈ data <$> its → rib p' !! n = Some r → cleared (rflags r) = true.
Proof.
  revert p. induction its as [|it its IH]; intros p p'; subst p'; cbn [foldl fmap list_fmap].
  { split_and!; [done..|by apply tidier_refl|]. intros n r Hn. by apply elem_of_nil in Hn. }
  destruct (clear_node_effect p (data it) _ eq_refl) as (E1 & E2 & E3 & T & C).
  destruct (IH (work clear_callbacks p it)) as (F1 & F2 & F3 & T' & C'). unfold work, delete_data in *. cbn in *.
  split_and!; [congruence..|by eapply tidier_trans|].
  intros n r [->|Hn]%elem_of_cons Hr; [|by eapply C'].
  destruct (T' _ r Hr) as (r1 & Hr1 & _ & Hc). by apply Hc, C.
Qed.

Lemma clear_run_effect yield p wq :
  clear_node_queue p = Some wq → queue_ok (Some wq) →
  ∃ p' k, clear_run yield p = Some p' ∧ status p' = status p ∧ tidier p p' ∧ queue_ok (clear_node_queue p') ∧
    waiting (clear_node_queue p') = drop k (waiting (Some wq)) ∧ (waiting (Some wq) ≠ [] → 0 < k)%nat ∧
    (∀ n r, n ∈ take k (waiting (Some wq)) → rib p' !! n = Some r → cleared (rflags r) = true) ∧
    events p' = events p ++ (if bool_decide (waiting (clear_node_queue p') = []) && negb (status p =? Deleted)
                             then [Clearing_Completed] else []).
Proof.
  intros Hq (Hr & Hu & Ht & Hi). unfold clear_run. rewrite Hq.
  destruct (run_success clear_callbacks 0 (length (items wq)) yield p wq) as (k & wq' & b & Hk & Ei & Er & Ef & Et & ->);
    [intros s d; cbn; unfold bgp_clear_route_node; by destruct (rib s !! d)|done..|].
  destruct (clear_nodes_effect (take k (items wq)) p) as (E1 & E2 & E3 & T & C).
  set (p1 := foldl _ p _) in *. clearbody p1. cbn [mbind option_bind].
  assert (waiting (Some wq') = drop k (waiting (Some wq))) as Ew by (cbn; by rewrite Ei, fmap_drop).
  assert (queue_ok (Some wq')) as Hq'.
  { split_and!; [done|congruence|done|]. rewrite Ei. by apply Forall_drop. }
  assert (items wq' = [] ↔ waiting (Some wq') = []) as Hn by (cbn; destruct (items wq'); cbn; naive_solver).
  eexists _, k. split; [reflexivity|].
  assert ((items wq ≠ []) ↔ waiting (Some wq) ≠ []) as Hne by (cbn; destruct (items wq); cbn; naive_solver).
  cbn [waiting] in *. rewrite fmap_take in C.
  destruct (decide (items wq' = [])) as [El|El].
  - unfold complete. cbn [completion_func clear_callbacks]. unfold bgp_clear_node_complete, BGP_EVENT_ADD. rewrite E1.
    cbn [set_clear_node_queue clear_node_queue]. rewrite bool_decide_true by (by apply Hn). cbn [andb].
    destruct (negb (status p =? Deleted));
      (split_and!; [exact E1|exact T|exact Hq'|exact Ew|intros H; by apply Hk, Hne|exact C|]); cbn; by rewrite E2, ?app_nil_r.
  - cbn [id set_clear_node_queue clear_node_queue]. rewrite bool_decide_false by (by rewrite <- Hn). cbn [andb].
    split_and!; [exact E1|exact T|exact Hq'|exact Ew|intros H; by apply Hk, Hne|exact C|]. cbn. by rewrite E2, app_nil_r.
Qed.

(** ** Effects of the functions of the table *)

(** The events but for the completion of clearing. *)
Definition ordinary (ev : Z) : bool := (BGP_Start <=? ev) && (ev <? Clearing_Completed).

(** Status, queue and routes are the same and no completion is announced. *)
Definition qt (p p' : peer) : Prop :=
  status p' = status p ∧ clear_node_queue p' = clear_node_queue p ∧ rib p' = rib p ∧
  (∀ ev, ev ∈ events p' → ev ∈ events p ∨ ordinary ev = true).

Lemma qt_refl p : qt p p.
Proof. split_and!; [done..|]. by left. Qed.
Lemma qt_sc p q r : qt p q → sc q r → qt p r.
Proof.
  intros (E1 & E2 & E3 & E4) (F1 & F2 & F3 & F4). split_and!; [congruence..|]. by rewrite F2.
Qed.
Lemma sc_qt p q : sc p q → qt p q.
Proof. intros H. by eapply qt_sc; [apply qt_refl|]. Qed.
Lemma qt_trans p q r : qt p q → qt q r → qt p r.
Proof. intros (E1 & E2 & E3 & E4) (F1 & F2 & F3 & F4). split_and!; [congruence..|]. intros ev [H|H]%F4; [auto|by right]. Qed.
Lemma qt_completed p q : qt p q → Clearing_Completed ∈ events q → Clearing_Completed ∈ events p.
Proof. intros (_ & _ & _ & H) [?|?]%H; done. Qed.
Lemma qt_add p q ev : ordinary ev = true → qt p q → qt p (BGP_EVENT_ADD q ev).
Proof.
  intros Hne (E1 & E2 & E3 & E4). unfold BGP_EVENT_ADD. destruct (negb _); [|done]. split_and!; [done..|].
  cbn. intros ev' [H|H%list_elem_of_singleton]%elem_of_app; [auto|right; congruence].
Qed.

Lemma flush_events p : events (BGP_EVENT_FLUSH p) = [].
Proof. done. Qed.
Lemma flush_qt p : qt p (BGP_EVENT_FLUSH p).
Proof. split_and!; [done..|]. rewrite flush_events. by intros ev ?%elem_of_nil. Qed.

Lemma flushed_events p : status p ≠ Clearing → events (flushed p) = [].
Proof. intros H. unfold flushed. by rewrite (proj2 (Z.eqb_neq _ _)). Qed.
Lemma flushed_qt p : qt p (flushed p).
Proof. unfold flushed. destruct (negb _); [apply flush_qt|apply qt_refl]. Qed.

Lemma stop_effect e p : qt p (bgp_stop e p) ∧ (status p ≠ Clearing → events (bgp_stop e p) = []) ∧
  (status p = Clearing → events (bgp_stop e p) = events p).
Proof.
  pose proof (sc_stop e p) as Hs. pose proof Hs as (_ & E & _). split_and!.
  - eapply qt_sc; [apply flushed_qt|done].
  - intros H. by rewrite E, flushed_events.
  - intros H. rewrite E. unfold flushed. by rewrite H.
Qed.

Lemma start_effect e p : qt p (bgp_start e p).1.
Proof.
  unfold bgp_start, bgp_connect. destruct (BGP_PEER_START_SUPPRESSED p); [apply qt_refl|]. cbv zeta.
  set (q := set_cap _ 0). assert (qt p q) as Hq by (apply sc_qt; subst q; auto with fsm).
  destruct (CHECK_FLAG (pflags q) PEER_FLAG_PASSIVE); [by apply qt_add|].
  set (q' := set_fd q _). assert (qt p q') as Hq' by (eapply qt_sc; [done|]; subst q'; auto with fsm). clearbody q q'.
  destruct (e_socket e <? 0).
  { change (-1 =? connect_error) with false. change (-1 =? connect_success) with false.
    by change (-1 =? connect_in_progress) with false. }
  repeat (destruct (_ =? _); [cbn [fst]; try (by apply qt_add)|]); [|done].
  destruct (fd q' <? 0); [done|]. cbn [fst]. eapply qt_sc; [done|]. auto with fsm.
Qed.

Lemma notify_effect e p c s : qt p (bgp_notify_send e p c s) ∧ (CHECK_FLAG (sflags (bgp_notify_send e p c s)) PEER_STATUS_ACCEPT_PEER = CHECK_FLAG (sflags p) PEER_STATUS_ACCEPT_PEER).
Proof.
  unfold bgp_notify_send. cbv zeta. set (q := set_t_write _ false).
  assert (sc p q) as Hq by (subst q; auto 8 with fsm).
  assert (sflags q = sflags p) as <- by (subst q; by repeat destruct (_ =? _)). clearbody q.
  unfold bgp_write_notify. destruct (obuf q); [split; [by apply sc_qt|done]|]. destruct (e_write e <=? 0).
  - split; [apply qt_add; [done|by apply sc_qt]|]. unfold BGP_EVENT_ADD. by destruct (negb _).
  - split; [apply qt_add; [done|apply sc_qt; eapply sc_trans; [done|]; auto with fsm]|].
    unfold BGP_EVENT_ADD. by destruct (negb _).
Qed.

Definition is_stop (f : fsm_func) : bool :=
  match f with
  | F_stop | F_connect_fail | F_stop_with_error | F_fsm_holdtime_expire | F_fsm_event_error | F_clearing_completed => true
  | _ => false
  end.

Lemma change_status_status p s : status (bgp_fsm_change_status p s) = s.
Proof. done. Qed.

Lemma timer_set_status e p : status (bgp_timer_set e p) = status p.
Proof. by destruct (sc_timer_set e p p (sc_refl p)) as (-> & _). Qed.

Lemma peer_delete_effect e p : status p ≠ Deleted → ∃ p', peer_delete e p = Ok p' ∧ status p' = Deleted.
Proof.
  intros H. unfold peer_delete. rewrite (proj2 (Z.eqb_neq _ _)) by done. cbn [negb]. eexists. split; [reflexivity|].
  by rewrite timer_set_status.
Qed.

Lemma notify_stop_effect e p c s :
  status p ≠ Deleted →
  ∃ p' ret, bgp_stop_with_notify e p c s = Ok (p', ret) ∧
    ((status p' = Deleted ∧ ret = -1) ∨
     (ret = 0 ∧ qt p p' ∧ (status p ≠ Clearing → Clearing_Completed ∉ events p'))).
Proof.
  intros Hd. unfold bgp_stop_with_notify. destruct (notify_effect e p c s) as [Hn _]. cbv zeta.
  set (q := bgp_notify_send e p c s) in *. clearbody q. destruct Hn as (E1 & E2 & E3 & E4).
  destruct (CHECK_FLAG (sflags q) PEER_STATUS_ACCEPT_PEER).
  - destruct (peer_delete_effect e q) as (p' & -> & Hp'); [congruence|]. cbn [mbind M_bind]. eexists _, _. split; [done|]. by left.
  - eexists _, _. split; [done|]. right. destruct (stop_effect e (set_v_start q BGP_INIT_START_TIMER)) as (Hs & Hs2 & _).
    split_and!; [done|eapply qt_trans; [|exact Hs]; done|]. intros Hc. rewrite Hs2; [by apply not_elem_of_nil|].
    cbn. congruence.
Qed.

Lemma call_effect f e p :
  f ≠ F_establish → status p ≠ Deleted →
  ∃ p' ret, call f e p = Ok (p', ret) ∧
    ((status p' = Deleted ∧ ret = -1) ∨
     (qt p p' ∧ (is_stop f = true → status p ≠ Clearing → Clearing_Completed ∉ events p'))).
Proof.
  intros Hf Hd.
  assert (∀ q, qt q (bgp_stop e q) ∧ (status q ≠ Clearing → Clearing_Completed ∉ events (bgp_stop e q))) as Hstop.
  { intros q. destruct (stop_effect e q) as (H1 & H2 & _). split; [done|]. intros H. rewrite H2 by done. apply not_elem_of_nil. }
  assert (qt p (bgp_fsm_open p)) by (apply sc_qt; unfold bgp_fsm_open; auto with fsm).
  assert (qt p (bgp_fsm_keepalive_expire p)) by (apply sc_qt; unfold bgp_fsm_keepalive_expire; auto with fsm).
  assert (qt p (bgp_fsm_keepalive p)) by (apply sc_qt; unfold bgp_fsm_keepalive; auto with fsm).
  assert (qt p (bgp_fsm_update p)) by (apply sc_qt; unfold bgp_fsm_update; auto with fsm).
  destruct f; cbn [call is_stop]; try done.
  - pose proof (start_effect e p). destruct (bgp_start e p) as [p' ret]. eexists _, _. split; [done|]. by right.
  - eexists _, _. split; [done|]. right. split; [apply Hstop|]. intros _. apply Hstop.
  - eexists _, _. split; [done|]. right. split; [apply qt_refl|done].
  - pose proof (sc_qt _ _ (sc_connect_success p p (sc_refl p))). destruct (bgp_connect_success p) as [p' ret].
    eexists _, _. split; [done|]. by right.
  - eexists _, _. split; [done|]. right. split; [apply Hstop|]. intros _. apply Hstop.
  - eexists _, _. split; [done|]. right. split; [|done]. unfold bgp_reconnect.
    eapply qt_trans; [apply Hstop|apply start_effect].
  - eexists _, _. split; [done|]. right. unfold bgp_stop_with_error. destruct (Hstop (double_start p)) as [Hs1 Hs2].
    split; [eapply qt_trans; [|exact Hs1]; apply sc_qt; auto with fsm|]. intros _ Hc. by apply Hs2.
  - destruct (notify_stop_effect e p BGP_NOTIFY_HOLD_ERR 0 Hd) as (p' & ret & E & Hr). exists p', ret.
    split; [exact E|]. destruct Hr as [?|(_ & ? & Hr)]; [by left|]. right. split; [done|]. intros _. exact Hr.
  - eexists _, _. split; [done|]. by right.
  - destruct (notify_stop_effect e p BGP_NOTIFY_FSM_ERR 0 Hd) as (p' & ret & E & Hr). exists p', ret.
    split; [exact E|]. destruct Hr as [?|(_ & ? & Hr)]; [by left|]. right. split; [done|]. intros _. exact Hr.
  - eexists _, _. split; [done|]. by right.
  - eexists _, _. split; [done|]. by right.
  - eexists _, _. split; [done|]. by right.
  - eexists _, _. split; [done|]. right. unfold bgp_clearing_completed. split.
    + eapply qt_trans; [apply Hstop|apply flush_qt].
    + intros _ _. rewrite flush_events. apply not_elem_of_nil.
Qed.

(** ** The table *)

#[export] Instance fsm_func_eq_dec : EqDecision fsm_func.
Proof. solve_decision. Defined.

(** What the proofs below use of an entry. *)
Definition entry_ok (s ev : Z) (f : fsm_func) (nxt : Z) : bool :=
  if s <=? OpenConfirm then
    ((nxt <=? OpenConfirm) && bool_decide (f ≠ F_establish)) ||
    ((s =? OpenConfirm) && (ev =? Receive_KEEPALIVE_message) && bool_decide (f = F_establish) && (nxt =? Established))
  else if s =? Established then
    ((nxt =? Established) && bool_decide (f ≠ F_establish)) || ((nxt =? Clearing) && is_stop f) ||
    ((ev =? Clearing_Completed) && bool_decide (f = F_ignore) && (nxt =? Idle))
  else if s =? Clearing then
    ((nxt =? Clearing) && bool_decide (f = F_stop ∨ f = F_ignore) && negb (ev =? Clearing_Completed)) ||
    ((ev =? Clearing_Completed) && bool_decide (f = F_clearing_completed) && (nxt =? Idle))
  else (nxt =? Deleted) && bool_decide (f = F_ignore).

Lemma table_entry s ev :
  1 <= s <= 8 → 1 <= ev <= 14 →
  ∃ row f nxt, rd FSM (s - 1) = Ok row ∧ rd row (ev - 1) = Ok (f, nxt) ∧ 1 <= nxt <= 8 ∧ entry_ok s ev f nxt = true.
Proof.
  intros Hs He.
  assert (Forall (λ s, Forall (λ ev, match rd FSM (s - 1) with
    | Ok row => match rd row (ev - 1) with Ok (f, nxt) => 1 <= nxt <= 8 ∧ entry_ok s ev f nxt = true | Fault _ => False end
    | Fault _ => False end) [1;2;3;4;5;6;7;8;9;10;11;12;13;14]) [1;2;3;4;5;6;7;8]) as H.
  { repeat constructor; vm_compute; discriminate. }
  rewrite Forall_forall in H. specialize (H s). rewrite Forall_forall in H. specialize (H ltac:(rewrite !elem_of_cons; lia)).
  specialize (H ev ltac:(rewrite !elem_of_cons; lia)). cbv beta in H.
  destruct (rd FSM (s - 1)) as [row|]; [|done]. destruct (rd row (ev - 1)) as [[f nxt]|] eqn:E; [|done].
  by exists row, f, nxt.
Qed.

(** The continuation of [bgp_event] after the call. *)
Definition finish (e : env) (nxt : Z) (pr : peer * Z) : peer * Z :=
  let '(p, ret) := pr in
  if 0 <=? ret then (bgp_timer_set e (if negb (nxt =? status p) then bgp_fsm_change_status p nxt else p), ret) else (p, ret).

Lemma event_entry e p ev row f nxt :
  rd FSM (status p - 1) = Ok row → rd row (ev - 1) = Ok (f, nxt) →
  bgp_event e p ev = (pr ← call f e p; Ok (finish e nxt pr)).
Proof.
  intros E1 E2. unfold bgp_event. rewrite E1. cbn [mbind M_bind]. rewrite E2. cbn [mbind M_bind].
  destruct (call f e p) as [[p' ret]|]; cbn [mbind M_bind]; [|done]. unfold finish. by destruct (0 <=? ret).
Qed.

(** The cases of an entry. *)
Lemma entry_before s ev f nxt : s <= 5 → entry_ok s ev f nxt = true → f ≠ F_establish → nxt <= 5.
Proof.
  intros Hs. unfold entry_ok. rewrite (proj2 (Z.leb_le _ _)) by (unfold OpenConfirm; lia).
  rewrite orb_true_iff, !andb_true_iff, !bool_decide_eq_true, Z.leb_le. unfold OpenConfirm. naive_solver.
Qed.
Lemma entry_establish s ev nxt : entry_ok s ev F_establish nxt = true → s = OpenConfirm ∧ nxt = Established ∧ ev = Receive_KEEPALIVE_message.
Proof.
  unfold entry_ok. repeat case_match; rewrite ?orb_true_iff, ?andb_true_iff, ?bool_decide_eq_true, ?Z.eqb_eq; naive_solver.
Qed.
Lemma entry_session ev f nxt :
  ev ≠ Clearing_Completed → entry_ok Established ev f nxt = true →
  (nxt = Established ∧ f ≠ F_establish) ∨ (nxt = Clearing ∧ is_stop f = true).
Proof.
  intros He. unfold entry_ok. change (Established <=? OpenConfirm) with false. change (Established =? Established) with true.
  cbv iota. rewrite (proj2 (Z.eqb_neq ev _)) by done.
  rewrite !andb_false_l, orb_false_r, orb_true_iff, !andb_true_iff, bool_decide_eq_true, !Z.eqb_eq. done.
Qed.
Lemma entry_clearing ev f nxt :
  ev ≠ Clearing_Completed → entry_ok Clearing ev f nxt = true → nxt = Clearing ∧ (f = F_stop ∨ f = F_ignore).
Proof.
  intros He. unfold entry_ok. change (Clearing <=? OpenConfirm) with false. change (Clearing =? Established) with false.
  change (Clearing =? Clearing) with true. cbv iota. rewrite (proj2 (Z.eqb_neq ev _)) by done.
  rewrite !andb_false_l, orb_false_r, !andb_true_iff, bool_decide_eq_true, Z.eqb_eq. naive_solver.
Qed.

(** ** When a session can be established *)

(** The configuration and the capabilities of a peer are the same. *)
Definition kc (p p' : peer) : Prop := conf p' = conf p ∧ af_cap p' = af_cap p.

Lemma kc_nsf_loop pn ks : kc pn.1 (foldl establish_nsf pn ks).1.
Proof.
  revert pn. induction ks as [|k ks IH]; intros pn; cbn [foldl]; [done|].
  assert (kc pn.1 (establish_nsf pn k).1) as [E1 E2].
  { destruct pn as [p n]. unfold establish_nsf. destruct (_ && _); cbn [fst]; [destruct (_ && _)|destruct (negb _)]; done. }
  destruct (IH (establish_nsf pn k)) as [F1 F2]. split; congruence.
Qed.

(** The family is one whose prefix list is announced with the index of the packet,
    outside [af_sflags]. *)
Definition refresh_outside (p : peer) (k : Z * Z) : bool :=
  (k.2 =? SAFI_MPLS_VPN) && negb (plist_in (conf p) k =? 0) && CHECK_FLAG (af_cap p k) PEER_CAP_ORF_PREFIX_SM_ADV &&
  (CHECK_FLAG (af_cap p k) PEER_CAP_ORF_PREFIX_RM_RCV || CHECK_FLAG (af_cap p k) PEER_CAP_ORF_PREFIX_RM_OLD_RCV).

Lemma refresh_send_spec p k t :
  k ∈ families → t = ORF_TYPE_PREFIX ∨ t = ORF_TYPE_PREFIX_OLD →
  if (k.2 =? SAFI_MPLS_VPN) && negb (plist_in (conf p) k =? 0)
  then bgp_route_refresh_send p k t = Fault Undefined
  else ∃ p', bgp_route_refresh_send p k t = Ok p' ∧ kc p p'.
Proof.
  intros Hk Ht. unfold bgp_route_refresh_send.
  assert ((t =? ORF_TYPE_PREFIX) || (t =? ORF_TYPE_PREFIX_OLD) = true) as -> by (by destruct Ht as [-> | ->]).
  assert (∀ q : peer, kc p q → ∀ b, ∃ p', Ok (BGP_WRITE_ON (set_obuf q b)) = Ok p' ∧ kc p p') as Hw.
  { intros q Hq b. eexists. split; [done|]. unfold BGP_WRITE_ON. by destruct (negb _). }
  destruct k as [afi safi]. cbn [snd]. cbv zeta.
  destruct (plist_in (conf p) (afi, safi) =? 0) eqn:E; cbn [negb andb]; [rewrite andb_false_r; by apply Hw|].
  unfold families in Hk. rewrite !elem_of_cons, elem_of_nil in Hk.
  repeat (destruct Hk as [Hk|Hk]; [injection Hk as -> ->; first [done|by apply Hw]|]). done.
Qed.

Lemma refresh_spec p k :
  k ∈ families →
  if refresh_outside p k then establish_refresh (Ok p) k = Fault Undefined
  else ∃ p', establish_refresh (Ok p) k = Ok p' ∧ kc p p'.
Proof.
  intros Hk. unfold refresh_outside, establish_refresh. cbn [mbind M_bind].
  destruct (CHECK_FLAG (af_cap p k) PEER_CAP_ORF_PREFIX_SM_ADV); [|rewrite andb_false_r; by eexists].
  destruct (CHECK_FLAG (af_cap p k) PEER_CAP_ORF_PREFIX_RM_RCV);
    [|destruct (CHECK_FLAG (af_cap p k) PEER_CAP_ORF_PREFIX_RM_OLD_RCV); [|rewrite andb_false_r; by eexists]].
  all: rewrite !andb_true_r; apply refresh_send_spec; auto.
Qed.

Lemma refresh_loop_fault f ks : foldl establish_refresh (Fault f) ks = Fault f.
Proof. induction ks as [|k ks IH]; [done|]. exact IH. Qed.

Lemma refresh_loop_spec ks p :
  (∀ k, k ∈ ks → k ∈ families) →
  if existsb (refresh_outside p) ks then foldl establish_refresh (Ok p) ks = Fault Undefined
  else ∃ p', foldl establish_refresh (Ok p) ks = Ok p'.
Proof.
  revert p. induction ks as [|k ks IH]; intros p Hks; cbn [foldl existsb]; [eauto|].
  pose proof (refresh_spec p k) as H. destruct (refresh_outside p k); cbn [orb].
  - rewrite H by (apply Hks; left). apply refresh_loop_fault.
  - destruct H as (p' & -> & Hc & Ha); [apply Hks; left|].
    assert (refresh_outside p' = refresh_outside p) as <- by (unfold refresh_outside; by rewrite Hc, Ha).
    apply IH. intros k' Hk'. apply Hks. by right.
Qed.

(** A session can be established exactly when no such prefix list is announced. *)
Lemma establish_spec e p :
  if existsb (refresh_outside p) families then bgp_establish e p = Fault Undefined else ∃ p', bgp_establish e p = Ok p'.
Proof.
  unfold bgp_establish. cbv zeta. set (p0 := set_sflags (bgp_fsm_change_status _ _) _).
  pose proof (kc_nsf_loop (p0, 0) nsf_families) as [Hc Ha]. destruct (foldl establish_nsf _ _) as [p1 n]. cbn [fst] in Hc, Ha.
  set (p1' := set_uptime _ _). assert (kc p1 p1') as [Hc' Ha'] by (subst p1'; by destruct (negb _)).
  assert (refresh_outside p1' = refresh_outside p) as <- by (unfold refresh_outside; by rewrite Hc', Ha', Hc, Ha).
  pose proof (refresh_loop_spec families p1') as H. destruct (existsb _ _).
  - by rewrite H.
  - destruct H as [p2 ->]; [done|]. cbn [mbind M_bind]. eauto.
Qed.

(** ** Timers *)

Lemma timer_on_status p t v : status (BGP_TIMER_ON p t v) = status p.
Proof. unfold BGP_TIMER_ON. by destruct (_ && _). Qed.
Lemma timer_off_same p t : timers (BGP_TIMER_OFF p t) t = None.
Proof. cbn. by rewrite decide_True. Qed.
Lemma timer_off_other p t t' : t ≠ t' → timers (BGP_TIMER_OFF p t) t' = timers p t'.
Proof. intros H. cbn. by rewrite decide_False. Qed.
Lemma timer_on_spec p t v t' :
  is_Some (timers (BGP_TIMER_ON p t v) t') ↔ (t = t' ∧ status p ≠ Deleted) ∨ is_Some (timers p t').
Proof.
  unfold BGP_TIMER_ON. destruct (Z.eqb_spec (status p) Deleted) as [E|E]; cbn [negb]; rewrite ?andb_false_r, ?andb_true_r; [naive_solver|].
  case_bool_decide as Eb; cbn.
  - destruct (decide (t = t')) as [->|]; [|naive_solver]. split; [by left|eauto].
  - split; [naive_solver|]. intros [[<- _]|?]; [|done]. by destruct (timers p t).
Qed.

(** Timers are all that [bgp_timer_set] changes. *)
Lemma timer_off_shape p q t : (∃ ts, q = set_timers p ts) → ∃ ts, BGP_TIMER_OFF q t = set_timers p ts.
Proof. intros [ts ->]. by eexists. Qed.
Lemma timer_on_shape p q t v : (∃ ts, q = set_timers p ts) → ∃ ts, BGP_TIMER_ON q t v = set_timers p ts.
Proof. intros [ts ->]. unfold BGP_TIMER_ON. destruct (_ && _); by eexists. Qed.
Lemma timers_off_shape l p q : (∃ ts, q = set_timers p ts) → ∃ ts, timers_off l q = set_timers p ts.
Proof. unfold timers_off. revert q. induction l as [|t l IH]; intros q H; cbn [foldl]; [done|]. by apply IH, timer_off_shape. Qed.
Lemma if_shape (b : bool) p q1 q2 :
  (∃ ts, q1 = set_timers p ts) → (∃ ts, q2 = set_timers p ts) → ∃ ts, (if b then q1 else q2) = set_timers p ts.
Proof. by destruct b. Qed.
Lemma same_shape p : ∃ ts, p = set_timers p ts.
Proof. exists (timers p). by destruct p. Qed.
#[local] Hint Resolve timer_off_shape timer_on_shape timers_off_shape if_shape same_shape : shape.

Lemma timer_set_shape e p : ∃ ts, bgp_timer_set e p = set_timers p ts.
Proof. unfold bgp_timer_set. cbv zeta. auto 12 with shape. Qed.

Definition on (p : peer) (t : timer) : Prop := is_Some (timers p t).

(** Which timers run in which state. *)
Definition timers_ok (p : peer) : Prop :=
  (on p t_start ↔ status p = Idle ∧ BGP_PEER_START_SUPPRESSED p = false ∧ peer_active p = true) ∧
  (on p t_connect ↔ status p = Connect ∨
     (status p = Active ∧ CHECK_FLAG (pflags p) PEER_FLAG_PASSIVE = false ∧ CHECK_FLAG (sflags p) PEER_STATUS_NSF_WAIT = false)) ∧
  (on p t_holdtime ↔ (status p = OpenSent ∨ status p = OpenConfirm ∨ status p = Established) ∧ v_holdtime p ≠ 0) ∧
  (on p t_keepalive ↔ (status p = OpenConfirm ∨ status p = Established) ∧ v_holdtime p ≠ 0) ∧
  ¬ on p t_asorig ∧ (status p ≠ Established → ¬ on p t_routeadv).

(** Evaluate the comparisons of constants. *)
Ltac eval_eqb :=
  repeat match goal with
  | |- context [?a =? ?b] =>
      let v := eval vm_compute in (a =? b) in
      match v with true => change (a =? b) with true | false => change (a =? b) with false end
  end; cbn [negb orb andb].

(** Evaluate which timers are on after a sequence of calls. *)
Ltac timer_cases :=
  repeat match goal with
  | |- context [is_Some (timers (BGP_TIMER_ON ?q ?t ?v) ?t')] => rewrite (timer_on_spec q t v t')
  | |- context [timers (BGP_TIMER_OFF ?q ?t) ?t] => rewrite (timer_off_same q t)
  | |- context [timers (BGP_TIMER_OFF ?q ?t) ?t'] => rewrite (timer_off_other q t t') by discriminate
  end.

Lemma is_Some_None_iff {A} : is_Some (@None A) ↔ False.
Proof. split; [apply is_Some_None|done]. Qed.

Ltac timers_done H :=
  timer_cases; rewrite ?timer_on_status; cbn [status BGP_TIMER_OFF set_timers]; rewrite ?is_Some_None_iff, ?H; clear H;
  unfold Idle, Connect, Active, OpenSent, OpenConfirm, Established, Deleted in *;
  intuition (discriminate || congruence).

Lemma timer_set_ok e p : 1 <= status p <= 8 → timers_ok (bgp_timer_set e p).
Proof.
  intros Hs. destruct (timer_set_shape e p) as [ts E].
  assert (∀ t, timers (bgp_timer_set e p) t = ts t) as Et by (intros t; by rewrite E).
  rewrite E. unfold timers_ok, on. cbn [status set_timers timers sflags pflags v_holdtime].
  change (BGP_PEER_START_SUPPRESSED (set_timers p ts)) with (BGP_PEER_START_SUPPRESSED p).
  change (peer_active (set_timers p ts)) with (peer_active p). rewrite <- !Et. clear E Et ts.
  unfold bgp_timer_set, timers_off. cbv zeta. cbn [foldl].
  assert (status p = 1 ∨ status p = 2 ∨ status p = 3 ∨ status p = 4 ∨ status p = 5 ∨ status p = 6 ∨ status p = 7 ∨ status p = 8) as Hc by lia.
  destruct Hc as [H|[H|[H|[H|[H|[H|[H|H]]]]]]]; rewrite H; eval_eqb; cbv iota.
  - destruct (BGP_PEER_START_SUPPRESSED p), (peer_active p); cbn [negb orb]; timers_done H.
  - timers_done H.
  - cbn [pflags sflags BGP_TIMER_OFF set_timers].
    destruct (CHECK_FLAG (pflags p) PEER_FLAG_PASSIVE), (CHECK_FLAG (sflags p) PEER_STATUS_NSF_WAIT); cbn [orb]; timers_done H.
  - cbn [v_holdtime BGP_TIMER_OFF set_timers]. destruct (Z.eqb_spec (v_holdtime p) 0); cbn [negb]; timers_done H.
  - cbn [v_holdtime BGP_TIMER_OFF set_timers]. destruct (Z.eqb_spec (v_holdtime p) 0); timers_done H.
  - cbn [v_holdtime BGP_TIMER_OFF set_timers]. destruct (Z.eqb_spec (v_holdtime p) 0); timers_done H.
  - rewrite H. eval_eqb. cbv iota. timers_done H.
  - cbn [status BGP_TIMER_OFF set_timers]. rewrite H. eval_eqb. cbv iota. timers_done H.
Qed.

(** ** Events outside the table *)

Lemma table_rows row s : rd FSM s = Ok row → length row = 14%nat.
Proof.
  intros [_ H]%rd_inv. assert (Forall (λ row : list (fsm_func * Z), length row = 14%nat) FSM) as Hl by (repeat constructor).
  rewrite Forall_lookup in Hl. by eapply Hl.
Qed.

Lemma event_out e p ev : 1 <= status p <= 8 → ¬ (1 <= ev <= 14) → bgp_event e p ev = Fault Undefined.
Proof.
  intros Hs He. destruct (rd_in_bounds FSM (status p - 1)) as [row Er]; [change (length FSM) with 8%nat; lia|].
  unfold bgp_event. rewrite Er. cbn [mbind M_bind]. apply table_rows in Er.
  unfold rd, getb. destruct (decide (0 <= ev - 1)); [|done]. rewrite lookup_ge_None_2; [done|lia].
Qed.

Lemma event_range e p ev pr : 1 <= status p <= 8 → bgp_event e p ev = Ok pr → 1 <= ev <= 14.
Proof. intros Hs E. destruct (decide (1 <= ev <= 14)); [done|]. rewrite event_out in E by done. done. Qed.

(** ** Properties *)

(** The next state in the table. *)
Definition next_state (s ev : Z) : Z :=
  match rd FSM (s - 1) with
  | Ok row => match rd row (ev - 1) with Ok (_, nxt) => nxt | Fault _ => 0 end
  | Fault _ => 0
  end.


(** C15. After every event that is processed exactly the timers that belong to
    the new state are running: the start timer of an idle peer that is configured
    and not shut down, the connect timer while connecting or active (unless
    passive or waiting for a restarting peer), hold and keepalive timers of a
    session with a hold time, and the advertisement timer of a session only. *)
Theorem bgp_event_timers e p ev p' ret :
  1 <= status p <= 8 → bgp_event e p ev = Ok (p', ret) → 0 <= ret → timers_ok p'.
Proof.
  intros Hs E Hr. pose proof E as (row & E1 & ([f nxt] & E2 & _)%bind_ok)%bind_ok.
  assert (1 <= ev <= 14) as He by (by eapply event_range).
  destruct (table_entry (status p) ev Hs He) as (row' & f' & nxt' & E1' & E2' & Hn & Hok). rewrite E1 in E1'. injection E1' as <-.
  rewrite E2 in E2'. injection E2' as <- <-. rewrite (event_entry e p ev row f nxt E1 E2) in E.
  apply bind_ok in E as ([p1 ret1] & Ec & Ef%Ok_inj). unfold finish in Ef. destruct (Z.leb_spec 0 ret1); simplify_eq; [|lia].
  apply timer_set_ok. by destruct (Z.eqb_spec nxt (status p1)) as [E|_]; [cbn [negb]; rewrite <- E|].
Qed.

(** A session with a peer that lets us filter its routes of a VPN family is
    never established when an incoming prefix list is configured for the family:
    the refresh message that carries the list marks it in [af_sflags] at the
    family number of the message, 128, which lies outside the array. *)
Theorem bgp_establish_vpn_orf e p k :
  status p = OpenConfirm → k ∈ families → refresh_outside p k = true →
  bgp_event e p Receive_KEEPALIVE_message = Fault Undefined.
Proof.
  intros Hs Hk Hr. assert (rd FSM (status p - 1) = rd FSM (OpenConfirm - 1)) as E by (by rewrite Hs).
  rewrite (event_entry e p Receive_KEEPALIVE_message _ F_establish Established E eq_refl). cbn [call].
  pose proof (establish_spec e p) as H. rewrite (proj2 (existsb_exists (refresh_outside p) families)) in H.
  - by rewrite H.
  - exists k. by rewrite <- list_elem_of_In.
Qed.

(** ** Witnesses *)

Definition zeros : array := λ _, 0.

(** A peer with IPv4 unicast configured and default timers. *)
Definition sample_conf (plist : array) : peer_conf :=
  Conf 120 30 120 180 60 180 60 360 (put zeros (AFI_IP, SAFI_UNICAST) 1) plist.
Definition sample_peer (s : Z) (caps plist : array) : peer :=
  Peer s s 7 0 0 0 0 5 180 60 (sample_conf plist) true false (λ _, None) zeros zeros zeros caps zeros zeros
    [] [] 0 0 0 0 0 0 0 0 0 0 false 0 [] None ∅.
Definition sample_env : env := Env 3 1000 7 connect_success 21.


Lemma bgp_event_timers_witness :
  ∃ p' ret, bgp_event sample_env (sample_peer OpenConfirm zeros zeros) Receive_KEEPALIVE_message = Ok (p', ret) ∧ timers_ok p'.
Proof.
  eexists _, 0. split; [vm_compute; reflexivity|].
  eapply (bgp_event_timers sample_env (sample_peer OpenConfirm zeros zeros) Receive_KEEPALIVE_message _ 0);
    [cbn; unfold OpenConfirm; lia|vm_compute; reflexivity|lia].
Defined.

Lemma bgp_establish_vpn_orf_witness :
  bgp_event sample_env
    (sample_peer OpenConfirm (put zeros (AFI_IP, SAFI_MPLS_VPN) (Z.lor PEER_CAP_ORF_PREFIX_SM_ADV PEER_CAP_ORF_PREFIX_RM_RCV))
       (put zeros (AFI_IP, SAFI_MPLS_VPN) 1)) Receive_KEEPALIVE_message = Fault Undefined.
Proof.
  apply (bgp_establish_vpn_orf _ _ (AFI_IP, SAFI_MPLS_VPN)); [reflexivity| |reflexivity].
  apply list_elem_of_In. cbn. tauto.
Defined.
