(* ===== verification/FsmClear.v ===== *)
(** Clearing the routes of a peer between two sessions: the state machine, the
    work queue of the peer and the rest of the daemon as a transition system. *)
From S2P Require Import Prelude Decision Workqueue Fsm FsmSpec.
Open Scope Z_scope.

#[local] Opaque bgp_stop bgp_timer_set bgp_establish bgp_start bgp_stop_with_notify bgp_clear_route_all bgp_connect_success.

(** ** The peer and its surroundings as a transition system *)

Inductive action :=
  | Deliver (e : env)                     (* the first waiting event *)
  | Fire (t : timer) (e : env)            (* a timer that is on expires *)
  | Post (ev : Z)                         (* some other part of the daemon adds an event *)
  | RunQueue (yield : Z → bool)           (* the thread of the work queue runs *)
  | Learn (n : Z) (k : Z * Z) (f : Z)     (* an update installs a route *)
  | Reap (n : Z)                          (* a removed route is taken off its node *)
  | Negotiate (nego caps : array) (c hold keep : Z)   (* what an OPEN message settles *)
  | Closed (fatal : bool)                 (* the connection is closed by the other side *)
  | Checked (s : option Z).               (* a connection attempt ends *)

Definition fire (t : timer) (e : env) (p : peer) : M peer :=
  match t with
  | t_start => pr ← bgp_start_timer e p; Ok pr.1
  | t_connect => pr ← bgp_connect_timer e p; Ok pr.1
  | t_holdtime => pr ← bgp_holdtime_timer e p; Ok pr.1
  | t_keepalive => pr ← bgp_keepalive_timer e p; Ok pr.1
  | t_routeadv => Ok (bgp_routeadv_timer e p)
  | t_gr_restart => Ok (bgp_graceful_restart_timer_expire e p)
  | t_gr_stale => Ok (bgp_graceful_stale_timer_expire p)
  | t_asorig | t_pmax_restart => Ok (BGP_TIMER_OFF p t)
  end.

(** [None] when the action cannot happen. *)
Definition perform (p : peer) (a : action) : option (M peer) :=
  match a with
  | Deliver e =>
      match events p with
      | [] => None
      | ev :: rest => Some (pr ← bgp_event e (set_events p rest) ev; Ok pr.1)
      end
  | Fire t e => if timers p t is Some _ then Some (fire t e p) else None
  | Post ev => if ordinary ev then Some (Ok (BGP_EVENT_ADD p ev)) else None
  | RunQueue yield =>
      match clear_node_queue p with
      | Some wq => if thread wq is Some _ then Some (of_opt (clear_run yield p)) else None
      | None => None
      end
  | Learn n k f => if status p =? Established then Some (Ok (set_rib p (<[n:=Route k f]> (rib p)))) else None
  | Reap n =>
      match rib p !! n with
      | Some r => if CHECK_FLAG (rflags r) BGP_INFO_REMOVED then Some (Ok (set_rib p (delete n (rib p)))) else None
      | None => None
      end
  | Negotiate nego caps c hold keep =>
      if status p =? OpenSent
      then Some (Ok (set_v_keepalive (set_v_holdtime (set_cap (set_af_cap (set_afc_nego p nego) caps) c) hold) keep))
      else None
  | Closed fatal => if t_read p then Some (Ok (bgp_read_packet_closed p fatal)) else None
  | Checked s => if (status p =? Connect) && t_read p then Some (Ok (bgp_connect_check p s)) else None
  end.

Inductive reachable (allowed : action → Prop) (p : peer) : peer → Prop :=
  | reachable_refl : reachable allowed p p
  | reachable_step q r a : reachable allowed p q → allowed a → perform q a = Some (Ok r) → reachable allowed p r.

Definition initial (p : peer) : Prop :=
  status p = Idle ∧ events p = [] ∧ clear_node_queue p = None ∧ rib p = ∅.

(** The peer announces IPv4 unicast routes only. *)
Definition ipv4_action (a : action) : Prop := if a is Learn _ k _ then k = (AFI_IP, SAFI_UNICAST) else True.

(** ** The invariant of clearing *)

Definition all_cleared (p : peer) : Prop := ∀ n r, rib p !! n = Some r → cleared (rflags r) = true.

Record live_inv (p : peer) : Prop := {
  inv_status : 1 <= status p <= 7;
  inv_ipv4 : ipv4_only p;
  inv_queue : queue_ok (clear_node_queue p);
  inv_events : ∀ ev, ev ∈ events p → 1 <= ev <= 14;
  inv_before : status p <= 5 → waiting (clear_node_queue p) = [] ∧ Clearing_Completed ∉ events p ∧ all_cleared p;
  inv_session : status p = 6 → waiting (clear_node_queue p) = [] ∧ Clearing_Completed ∉ events p;
  inv_clearing : status p = 7 →
    (Clearing_Completed ∈ events p ↔ waiting (clear_node_queue p) = []) ∧
    (∀ n r, rib p !! n = Some r → cleared (rflags r) = true ∨ n ∈ waiting (clear_node_queue p));
}.
Definition inv (p : peer) : Prop := status p = Deleted ∨ live_inv p.

Lemma tidier_ipv4 p p' : tidier p p' → ipv4_only p → ipv4_only p'.
Proof. intros T H n r' Hr. destruct (T n r' Hr) as (r & Hr1 & -> & _). by eapply H. Qed.
Lemma tidier_cleared p p' : tidier p p' → all_cleared p → all_cleared p'.
Proof. intros T H n r' Hr. destruct (T n r' Hr) as (r & Hr1 & _ & Hc). eapply Hc, H. done. Qed.

(** Changes that keep the status and the queue, and the completion of clearing. *)
Record same_stage (p p' : peer) : Prop := {
  same_status : status p' = status p;
  same_queue : clear_node_queue p' = clear_node_queue p;
  same_rib : tidier p p';
  same_new : ∀ ev, ev ∈ events p' → ev ∈ events p ∨ ordinary ev = true;
  same_old : Clearing_Completed ∈ events p → Clearing_Completed ∈ events p';
}.

Lemma same_completed p p' : same_stage p p' → Clearing_Completed ∈ events p' ↔ Clearing_Completed ∈ events p.
Proof. intros H. split; [by intros [?|?]%(same_new _ _ H)|apply (same_old _ _ H)]. Qed.

Lemma ordinary_range ev : ordinary ev = true → 1 <= ev <= 13.
Proof. unfold ordinary. rewrite andb_true_iff, Z.leb_le, Z.ltb_lt. unfold BGP_Start, Clearing_Completed. lia. Qed.

Lemma live_same_stage p p' : same_stage p p' → live_inv p → live_inv p'.
Proof.
  intros H [H1 H2 H3 Hv H4 H5 H6]. pose proof (same_completed _ _ H) as Hcc. destruct H as [E1 E2 T E3 _].
  split; rewrite ?E1, ?E2; [done|by eapply tidier_ipv4|done|..].
  - intros ev [Hin|Hin%ordinary_range]%E3; [auto|lia].
  - intros H. destruct (H4 H) as (? & ? & ?). split_and!; [done|by rewrite Hcc|by eapply tidier_cleared].
  - intros H. destruct (H5 H) as (? & ?). split; [done|by rewrite Hcc].
  - intros H. destruct (H6 H) as (E & C). split; [by rewrite Hcc|]. intros n r' Hr.
    destruct (T n r' Hr) as (r & Hr1 & _ & Hc). destruct (C n r Hr1); auto.
Qed.

Lemma inv_same_stage p p' : same_stage p p' → inv p → inv p'.
Proof. intros S [H|H]; [left; rewrite (same_status _ _ S); done|right; by eapply live_same_stage]. Qed.

Lemma st_same_stage p p' : st p p' → same_stage p p'.
Proof. intros (E1 & E2 & E3 & E4). split; [done..| |]; rewrite E2; auto. Qed.
Lemma sc_same_stage p p' : sc p p' → same_stage p p'.
Proof. intros (E1 & E2 & E3 & E4). apply st_same_stage. split_and!; [done..|by apply tidier_refl]. Qed.

Lemma inv_sc p p' : sc p p' → inv p → inv p'.
Proof. intros H. by apply inv_same_stage, sc_same_stage. Qed.
Lemma inv_st p p' : st p p' → inv p → inv p'.
Proof. intros H. by apply inv_same_stage, st_same_stage. Qed.

Lemma inv_add p ev : ordinary ev = true → inv p → inv (BGP_EVENT_ADD p ev).
Proof.
  intros Ho. unfold BGP_EVENT_ADD. destruct (negb _); [|done]. apply inv_same_stage.
  split; [done..|by apply tidier_refl| |]; cbn; intros *; rewrite elem_of_app; [|by left].
  rewrite list_elem_of_singleton. intros [?| ->]; auto.
Qed.

(** Before a session: quiet changes and moves between the first states. *)
Lemma live_before p q s :
  live_inv p → status p <= 5 → qt p q → 1 <= s <= 5 → live_inv (set_status (set_ostatus q (status q)) s).
Proof.
  intros H Hs Hq Hs'. pose proof (qt_completed _ _ Hq) as Hcc. destruct Hq as (E1 & E2 & E3 & E4).
  destruct (inv_before _ H Hs) as (W & N & C). pose proof (inv_queue _ H). pose proof (inv_ipv4 _ H).
  split; cbn; rewrite ?E2; [lia| |done|..|lia|lia].
  - intros n r. cbn. rewrite E3. by apply (inv_ipv4 _ H).
  - intros ev [Hin|Hin%ordinary_range]%E4; [by apply (inv_events _ H)|lia].
  - intros _. split_and!; [done|auto|]. intros n r. cbn. rewrite E3. apply C.
Qed.

Lemma live_same p q : live_inv p → status p <= 6 → qt p q → live_inv q.
Proof.
  intros H Hs (E1 & E2 & E3 & E4). eapply live_same_stage; [|done].
  split; [done|done|by apply tidier_refl|done|]. intros Hin. exfalso. destruct (decide (status p = 6)) as [E|E].
  - by destruct (inv_session _ H E) as (_ & N).
  - by destruct (inv_before _ H) as (_ & N & _); [lia|].
Qed.

(** The session ends: its routes wait to be cleared. *)
Lemma live_clear p q :
  live_inv p → status p = 6 → qt p q → live_inv (bgp_fsm_change_status q Clearing).
Proof.
  intros H Hs Hq. pose proof (qt_completed _ _ Hq) as Hcc. destruct Hq as (E1 & E2 & E3 & E4).
  destruct (inv_session _ H Hs) as [W N].
  unfold bgp_fsm_change_status. change (Clearing <=? Clearing) with true. cbv iota zeta.
  assert (ipv4_only q) as Hv by (intros n r; rewrite E3; apply (inv_ipv4 _ H)).
  destruct (clear_all_effect q) as (F1 & F2 & F3 & F4 & F5);
    [by rewrite E2; apply (inv_queue _ H)|rewrite E1, Hs; done|done|by rewrite E2|].
  revert F1 F2 F3 F4 F5. generalize (bgp_clear_route_all q) as q'. intros q' F1 F2 F3 F4 F5.
  split; cbn; [unfold Clearing; lia| |done| |unfold Clearing; lia..|].
  - intros n r. cbn. rewrite F2. apply Hv.
  - intros ev. rewrite F5. intros [[Hin|Hin%ordinary_range]%E4|Hin]%elem_of_app; [by apply (inv_events _ H)|lia|].
    destruct (decide _); [|by apply elem_of_nil in Hin]. apply elem_of_replicate in Hin as [-> _]. unfold Clearing_Completed. lia.
  - intros _. rewrite F4, F5. split.
    + rewrite elem_of_app. destruct (decide (scan q _ = [])) as [->|Hne].
      * split; [done|]. intros _. right. apply list_elem_of_In. cbn. by left.
      * split; [|done]. intros [Hx|Hx]; [by apply Hcc in Hx|by apply elem_of_nil in Hx].
    + intros n r. rewrite F2. intros Hr. right. apply elem_of_scan. exists r. split; [done|]. by apply (Hv n).
Qed.

(** ** Every action keeps the invariant *)

Lemma finish_deleted e nxt p ret : status p = Deleted → ret = -1 → status (finish e nxt (p, ret)).1 = Deleted.
Proof. intros H ->. exact H. Qed.

Lemma inv_timer_set e p : inv p → inv (bgp_timer_set e p).
Proof. apply inv_sc, sc_timer_set, sc_refl. Qed.

(** An event other than the completion of clearing. *)
Lemma live_event e p ev pr :
  live_inv p → 1 <= ev <= 13 → bgp_event e p ev = Ok pr → inv pr.1.
Proof.
  intros H He. pose proof (inv_status _ H) as Hs.
  destruct (table_entry (status p) ev) as (row & f & nxt & E1 & E2 & Hn & Hok); [lia..|].
  rewrite (event_entry e p ev row f nxt E1 E2). intros (pr0 & Ec & <-%Ok_inj)%bind_ok.
  destruct (decide (f = F_establish)) as [->|Hf].
  - (* the session is established *)
    destruct (entry_establish _ _ _ Hok) as (Hs5 & -> & _).
    cbn [call] in Ec. apply bind_ok in Ec as (p' & (F1 & F2 & F3 & T)%establish_effect & <-%Ok_inj).
    unfold finish. change (0 <=? 0) with true. cbv iota. rewrite F1. change (negb (Established =? Established)) with false.
    cbn [fst]. apply inv_timer_set. right. destruct (inv_before _ H) as (W & N & C); [rewrite Hs5; unfold OpenConfirm; lia|].
    split; rewrite ?F1, ?F2, ?F3; [unfold Established; lia|eapply tidier_ipv4; [done|apply H]|apply H|apply H|unfold Established; lia|done|done].
  - destruct (call_effect f e p Hf) as (p1 & ret & Ec' & Hc); [unfold Deleted; lia|]. rewrite Ec in Ec'. apply Ok_inj in Ec' as ->.
    destruct Hc as [[Hd Hr]|[Hq Hstop]]; [left; by apply finish_deleted|]. unfold finish.
    pose proof Hq as (Eq1 & _).
    assert (status p <= 6 → inv p1) as Hsame by (intros; right; by eapply live_same).
    assert (status p = 7 → nxt = 7 ∧ (f = F_stop ∨ f = F_ignore)) as H7.
    { intros E. rewrite E in Hok. apply (entry_clearing ev); [unfold Clearing_Completed; lia|done]. }
    assert (status p = 7 → inv p1) as Hsame7.
    { intros E. right. destruct (H7 E) as [_ [->| ->]]; cbn [call] in Ec; apply Ok_inj in Ec; simplify_eq; [|done].
      destruct Hq as (Q1 & Q2 & Q3 & Q4). eapply live_same_stage; [|done]. split; [done|done|by apply tidier_refl|done|].
      destruct (stop_effect e p) as (_ & _ & Hev). rewrite Hev by done. done. }
    assert (inv p1) as Hp1 by (destruct (decide (status p = 7)); [auto|apply Hsame; lia]).
    destruct (0 <=? ret); [|done]. cbn [fst]. apply inv_timer_set.
    destruct (Z.eqb_spec nxt (status p1)) as [|Hne]; [done|]. cbn [negb]. rewrite Eq1 in Hne.
    destruct (decide (status p <= 5)) as [Hs5|Hs5].
    + pose proof (entry_before _ _ _ _ Hs5 Hok Hf).
      unfold bgp_fsm_change_status. rewrite (proj2 (Z.leb_gt _ _)) by (unfold Clearing; lia). right.
      apply (live_before p); [done|done|done|lia].
    + destruct (decide (status p = 6)) as [Hs6|Hs6]; [|exfalso; destruct H7; lia].
      rewrite Hs6 in Hok. destruct (entry_session ev f nxt) as [[-> _]|[-> _]];
        [unfold Clearing_Completed; lia|done|unfold Established in Hne; lia|].
      right. by apply (live_clear p).
Qed.

(** The completion of clearing. *)
Lemma live_completed e p rest pr :
  live_inv p → events p = Clearing_Completed :: rest → bgp_event e (set_events p rest) Clearing_Completed = Ok pr →
  status p = 7 ∧ live_inv pr.1 ∧ status pr.1 = Idle ∧ events pr.1 = [] ∧ pr.1 = bgp_timer_set e (bgp_fsm_change_status (bgp_clearing_completed e (set_events p rest)) Idle).
Proof.
  intros H Ee. pose proof (inv_status _ H) as Hs.
  assert (Clearing_Completed ∈ events p) as Hin by (rewrite Ee; left).
  destruct (decide (status p = 7)) as [E7|E7].
  2:{ exfalso. destruct (decide (status p = 6)) as [E|E].
      - by destruct (inv_session _ H E) as (_ & N).
      - by destruct (inv_before _ H) as (_ & N & _); [lia|]. }
  destruct (inv_clearing _ H E7) as [Hw Hc]. specialize (proj1 Hw Hin) as W.
  assert (rd FSM (status (set_events p rest) - 1) = rd FSM (7 - 1)) as E1 by (cbn [status set_events]; by rewrite E7).
  rewrite (event_entry e (set_events p rest) Clearing_Completed _ F_clearing_completed Idle E1 eq_refl).
  cbn [call mbind M_bind]. intros <-%Ok_inj. unfold finish. change (0 <=? 0) with true. cbv iota. cbn [fst].
  destruct (stop_effect e (set_events p rest)) as (Hq & _ & _).
  pose proof (qt_trans _ _ _ Hq (flush_qt _)) as (Q1 & Q2 & Q3 & _). fold (bgp_clearing_completed e (set_events p rest)) in Q1, Q2, Q3.
  assert (events (bgp_clearing_completed e (set_events p rest)) = []) as Q4 by apply flush_events.
  revert Q1 Q2 Q3 Q4. generalize (bgp_clearing_completed e (set_events p rest)) as q. cbn [status clear_node_queue rib set_events].
  intros q Q1 Q2 Q3 Q4. rewrite Q1, E7. change (negb (Idle =? 7)) with true. cbv iota.
  set (q' := bgp_fsm_change_status q Idle).
  assert (live_inv q') as Hl.
  { split; cbn; rewrite ?Q2, ?Q4; [unfold Idle; lia| |apply H|..|unfold Idle; lia|unfold Idle; lia].
    - intros n r. cbn. rewrite Q3. apply (inv_ipv4 _ H).
    - by intros ev ?%elem_of_nil.
    - intros _. split_and!; [done|apply not_elem_of_nil|]. intros n r. cbn. rewrite Q3. intros Hr.
      destruct (Hc n r Hr) as [?|Hx]; [done|]. rewrite W in Hx. by apply elem_of_nil in Hx. }
  destruct (sc_timer_set e q' q' (sc_refl q')) as (T1 & T2 & T3 & T4).
  split_and!; [done| |by rewrite T1|by rewrite T2|done].
  eapply live_same_stage; [|exact Hl]. by apply sc_same_stage.
Qed.

Lemma event_deleted e p ev pr : status p = Deleted → bgp_event e p ev = Ok pr → status pr.1 = Deleted.
Proof.
  intros H. destruct (decide (1 <= ev <= 14)) as [He|He].
  - destruct (table_entry (status p) ev) as (row & f & nxt & E1 & E2 & _ & Hok); [rewrite H; unfold Deleted; lia|done|].
    rewrite (event_entry e p ev row f nxt E1 E2). rewrite H in Hok. apply andb_true_iff in Hok as [->%Z.eqb_eq ->%bool_decide_eq_true].
    cbn [call mbind M_bind]. intros <-%Ok_inj. unfold finish. change (0 <=? 0) with true. cbv iota. rewrite H.
    change (negb (Deleted =? Deleted)) with false. cbn [fst]. by rewrite timer_set_status.
  - rewrite event_out; [done|rewrite H; unfold Deleted; lia|done].
Qed.

Lemma inv_event e p ev pr : inv p → ev ≠ Clearing_Completed → bgp_event e p ev = Ok pr → inv pr.1.
Proof.
  intros [H|H] Hne E; [left; by eapply event_deleted|]. eapply live_event; [done| |done].
  apply event_range in E; [unfold Clearing_Completed in Hne; lia|]. pose proof (inv_status _ H). lia.
Qed.

Lemma inv_deliver e p ev rest pr :
  inv p → events p = ev :: rest → bgp_event e (set_events p rest) ev = Ok pr → inv pr.1.
Proof.
  intros H Ee E. destruct (decide (ev = Clearing_Completed)) as [->|Hne].
  - destruct H as [H|H]; [left; by apply (event_deleted e (set_events p rest) Clearing_Completed)|]. right.
    by destruct (live_completed e p rest pr H Ee E) as (_ & Hl & _).
  - eapply inv_event; [|exact Hne|exact E]. revert H. apply inv_same_stage. split; [done..|by apply tidier_refl| |];
      cbn; rewrite Ee; intros *; rewrite elem_of_cons; naive_solver.
Qed.

Lemma inv_off p t : inv p → inv (BGP_TIMER_OFF p t).
Proof. apply inv_sc, sc_timer_off, sc_refl. Qed.

Lemma inv_fire t e p p' : inv p → fire t e p = Ok p' → inv p'.
Proof.
  intros H.
  assert (∀ t ev pr, ev ≠ Clearing_Completed → bgp_event e (BGP_TIMER_OFF p t) ev = Ok pr → inv pr.1) as Hev.
  { intros t' ev pr Hne. apply inv_event; [by apply inv_off|done]. }
  destruct t; cbn [fire].
  - intros (pr & E & <-%Ok_inj)%bind_ok. by eapply (Hev t_start BGP_Start).
  - intros (pr & E & <-%Ok_inj)%bind_ok. by eapply (Hev t_connect ConnectRetry_timer_expired).
  - intros (pr & E & <-%Ok_inj)%bind_ok. by eapply (Hev t_holdtime Hold_Timer_expired).
  - intros (pr & E & <-%Ok_inj)%bind_ok. by eapply (Hev t_keepalive KeepAlive_timer_expired).
  - intros <-%Ok_inj. by apply inv_off.
  - intros <-%Ok_inj. revert H. apply inv_sc. unfold bgp_routeadv_timer. auto with fsm.
  - intros <-%Ok_inj. by apply inv_off.
  - intros <-%Ok_inj. unfold bgp_graceful_restart_timer_expire. apply inv_timer_set, inv_off.
    assert (inv (clear_stale_families (BGP_TIMER_OFF p t_gr_restart))) as Hc.
    { eapply inv_st; [apply st_clear_stale_families, st_refl|]. by apply inv_off. }
    revert Hc. cbv zeta. generalize (clear_stale_families (BGP_TIMER_OFF p t_gr_restart)) as q. intros q Hq.
    revert Hq. apply inv_sc. auto with fsm.
  - intros <-%Ok_inj. unfold bgp_graceful_stale_timer_expire.
    eapply inv_st; [apply st_clear_stale_families, st_refl|]. by apply inv_off.
Qed.

Lemma clear_run_live yield p wq :
  live_inv p → clear_node_queue p = Some wq → is_Some (thread wq) →
  ∃ p', clear_run yield p = Some p' ∧ live_inv p' ∧ status p = 7 ∧ status p' = 7 ∧
    (2 * length (waiting (clear_node_queue p')) + length (events p') <
     2 * length (waiting (clear_node_queue p)) + length (events p))%nat.
Proof.
  intros H Hq [t Ht]. pose proof (inv_queue _ H) as Hok. rewrite Hq in Hok.
  assert (waiting (Some wq) ≠ []) as Hne.
  { destruct Hok as (_ & _ & Hn & _). cbn. destruct (items wq); [|done]. destruct Hn as [_ Hn]. rewrite Hn in Ht by done. done. }
  assert (status p = 7) as E7.
  { destruct (decide (status p <= 5)) as [H5|H5]; [destruct (inv_before _ H H5) as (W & _); rewrite Hq in W; done|].
    destruct (decide (status p = 6)) as [H6|H6]; [destruct (inv_session _ H H6) as (W & _); rewrite Hq in W; done|].
    pose proof (inv_status _ H). lia. }
  destruct (inv_clearing _ H E7) as [Hw Hc]. rewrite Hq in Hw, Hc.
  destruct (clear_run_effect yield p wq Hq Hok) as (p' & k & E & F1 & T & F2 & F3 & F4 & F5 & F6).
  exists p'. rewrite E7 in F1. rewrite E7 in F6. change (negb (7 =? Deleted)) with true in F6. rewrite andb_true_r in F6.
  assert (Clearing_Completed ∉ events p) as Hni by (rewrite Hw; done).
  split_and!; [done| |done|done|].
  - split; rewrite ?F1; [lia|eapply tidier_ipv4; [done|apply H]|done| |lia|lia|].
    { intros ev. rewrite F6. intros [Hin|Hin]%elem_of_app; [by apply (inv_events _ H)|]. clear F6.
      case_bool_decide; [|by apply elem_of_nil in Hin]. apply list_elem_of_singleton in Hin as ->. unfold Clearing_Completed. lia. }
    intros _. split.
    + rewrite F6, elem_of_app. case_bool_decide as Eb; [|set_solver]. rewrite list_elem_of_singleton. naive_solver.
    + intros n r' Hr. destruct (T n r' Hr) as (r & Hr1 & _ & Hcl). destruct (Hc n r Hr1) as [Hx|Hx]; [auto|].
      rewrite F3. rewrite <- (take_drop k (waiting (Some wq))) in Hx. apply elem_of_app in Hx as [Hx|Hx]; [|by right].
      left. by eapply F5.
  - specialize (F4 Hne). rewrite F6, length_app, F3, length_drop, Hq.
    assert (0 < length (waiting (Some wq)))%nat as Hpos by (destruct (waiting (Some wq)); [done|cbn; lia]).
    revert F4 Hpos. generalize (length (waiting (Some wq))) as w. intros w F4 Hpos.
    clear F6. case_bool_decide; cbn [length]; lia.
Qed.

Lemma clear_run_deleted yield p p' : status p = Deleted → of_opt (clear_run yield p) = Ok p' → status p' = Deleted.
Proof.
  intros H. unfold clear_run. destruct (clear_node_queue p) as [wq|]; [|done].
  destruct (work_queue_run _ _ _ _ _) as [[[p1 wq1] b]|] eqn:Er; [|done]. cbn. intros <-%Ok_inj. cbn.
  eapply (run_keeps clear_callbacks (λ p, status p = Deleted)); [| | | |exact H|exact Er]; try done.
  - intros s d Hs. cbn. unfold bgp_clear_route_node. by destruct (rib s !! d).
  - intros s Hs. cbn. unfold complete. cbn. unfold bgp_clear_node_complete, BGP_EVENT_ADD. by destruct (negb _).
Qed.

Lemma inv_perform p a p' : inv p → ipv4_action a → perform p a = Some (Ok p') → inv p'.
Proof.
  intros H Ha. destruct a as [e|t e|ev|yield|n k f|n|nego caps c h kp|fatal|s]; cbn [perform].
  - destruct (events p) as [|ev rest] eqn:Ee; [done|]. intros [= (pr & E & <-%Ok_inj)%bind_ok]. by eapply inv_deliver.
  - destruct (timers p t); [|done]. intros [= E]. by eapply inv_fire.
  - destruct (ordinary ev) eqn:Eb; [|done]. intros [= <-]. by apply inv_add.
  - destruct (clear_node_queue p) as [wq|] eqn:Eq; [|done]. destruct (thread wq) eqn:Et; [|done]. intros [= E].
    destruct H as [H|H].
    + left. by eapply clear_run_deleted.
    + destruct (clear_run_live yield p wq H Eq) as (p1 & E1 & H1 & _); [eauto|]. rewrite E1 in E. apply Ok_inj in E as <-. by right.
  - destruct (Z.eqb_spec (status p) Established) as [Es|]; [|done]. intros [= <-]. cbn in Ha. subst k.
    destruct H as [H|H]; [rewrite Es in H; done|]. right. destruct (inv_session _ H Es) as [W N].
    split; cbn; [apply H| |apply H|apply H|rewrite Es; unfold Established; lia|done|rewrite Es; done].
    intros m r. cbn. intros [[<- <-]|[_ Hm]]%lookup_insert_Some; [done|]. by apply (inv_ipv4 _ H m).
  - destruct (rib p !! n) as [r|]; [|done]. destruct (CHECK_FLAG _ _); [|done]. intros [= <-]. revert H.
    apply inv_st. split_and!; [done..|]. intros m r'. cbn. intros [_ Hm]%lookup_delete_Some. eauto.
  - destruct (status p =? OpenSent); [|done]. intros [= <-]. revert H. by apply inv_sc.
  - destruct (t_read p); [|done]. intros [= <-]. unfold bgp_read_packet_closed.
    apply inv_add; [by destruct fatal|]. revert H. apply inv_sc. auto 8 with fsm.
  - destruct (_ && _); [|done]. intros [= <-]. unfold bgp_connect_check. cbv zeta.
    assert (inv (set_t_write (set_t_read p false) false)) as H' by (revert H; apply inv_sc; auto with fsm).
    destruct s as [[| |]|]; by apply inv_add.
Qed.

Lemma inv_reachable p q : initial p → reachable ipv4_action p q → inv q.
Proof.
  intros (E1 & E2 & E3 & E4). induction 1 as [|q r a _ IH Ha Hp]; [|by eapply inv_perform].
  right. split; rewrite ?E1, ?E2, ?E3; [unfold Idle; lia| |done|..|unfold Idle; lia|unfold Idle; lia].
  - intros n r. by rewrite E4.
  - by intros ev ?%elem_of_nil.
  - intros _. split_and!; [done|apply not_elem_of_nil|]. intros n r. by rewrite E4.
Qed.

(** ** Runs *)

Fixpoint run (p : peer) (acts : list action) : option peer :=
  match acts with
  | [] => Some p
  | a :: acts => match perform p a with Some (Ok q) => run q acts | _ => None end
  end.

Lemma run_reachable allowed p0 p acts q :
  reachable allowed p0 p → Forall allowed acts → run p acts = Some q → reachable allowed p0 q.
Proof.
  intros Hp Ha. revert p Hp. induction Ha as [|a acts H _ IH]; intros p Hp; cbn [run]; [by intros [= <-]|].
  destruct (perform p a) as [[p'|]|] eqn:E; [|done..]. apply IH. by eapply reachable_step.
Qed.

(** ** Clearing comes to an end *)

(** What the daemon does on its own: it delivers events and runs queues. *)
Definition internal (a : action) : Prop := match a with Deliver _ | RunQueue _ => True | _ => False end.

(** Whatever the daemon does, in whatever order, it gets to [P] without a fault and
    without running out of work before. *)
Inductive inevitable (P : peer → Prop) (p : peer) : Prop :=
  | inevitable_now : P p → inevitable P p
  | inevitable_later :
      (∃ a m, internal a ∧ perform p a = Some m) →
      (∀ a m, internal a → perform p a = Some m → ∃ q, m = Ok q) →
      (∀ a q, internal a → perform p a = Some (Ok q) → inevitable P q) → inevitable P p.

Definition pending (p : peer) : nat := 2 * length (waiting (clear_node_queue p)) + length (events p).
Definition idle_again (p : peer) : Prop := status p = Idle ∧ all_cleared p ∧ timers_ok p ∧ waiting (clear_node_queue p) = [].

Lemma clearing_completes e p rest :
  live_inv p → status p = 7 → events p = Clearing_Completed :: rest →
  ∃ pr, bgp_event e (set_events p rest) Clearing_Completed = Ok pr ∧ idle_again pr.1.
Proof.
  intros H E7 Ee.
  assert (∃ pr, bgp_event e (set_events p rest) Clearing_Completed = Ok pr) as [pr E].
  { assert (rd FSM (status (set_events p rest) - 1) = rd FSM (7 - 1)) as E1 by (cbn [status set_events]; by rewrite E7).
    rewrite (event_entry e _ Clearing_Completed _ F_clearing_completed Idle E1 eq_refl). cbn [call mbind M_bind]. eauto. }
  exists pr. split; [done|]. destruct (live_completed e p rest pr H Ee E) as (_ & Hl & Hs & _ & Ep).
  destruct (inv_before _ Hl) as (W & _ & C); [rewrite Hs; unfold Idle; lia|]. split_and!; [done|done| |done].
  rewrite Ep in Hs |- *. rewrite timer_set_status in Hs. apply timer_set_ok. rewrite Hs. unfold Idle. lia.
Qed.

Lemma clearing_goes_on e p ev rest :
  live_inv p → status p = 7 → events p = ev :: rest → ev ≠ Clearing_Completed →
  ∃ pr, bgp_event e (set_events p rest) ev = Ok pr ∧ status pr.1 = 7 ∧ (pending pr.1 < pending p)%nat.
Proof.
  intros H E7 Ee Hne. assert (1 <= ev <= 14) as He by (apply (inv_events _ H); rewrite Ee; left).
  destruct (table_entry 7 ev) as (row & f & nxt & E1 & E2 & _ & Hok); [lia|done|].
  destruct (entry_clearing ev f nxt Hne Hok) as [-> Hf].
  assert (status (set_events p rest) = 7) as Es by (exact E7).
  rewrite (event_entry e (set_events p rest) ev row f Clearing); [|by rewrite Es|done].
  assert (∃ p1, call f e (set_events p rest) = Ok (p1, 0) ∧ status p1 = 7 ∧ events p1 = rest ∧
            clear_node_queue p1 = clear_node_queue p) as (p1 & -> & S1 & S2 & S3).
  { destruct Hf as [-> | ->]; cbn [call]; [|by eexists]. eexists. split; [reflexivity|].
    destruct (stop_effect e (set_events p rest)) as ((Q1 & Q2 & _ & _) & _ & Q4). rewrite Q1, Q2, Q4 by done. done. }
  eexists. split; [reflexivity|]. unfold finish. rewrite S1. change (0 <=? 0) with true. change (negb (Clearing =? 7)) with false.
  cbv iota. cbn [fst]. destruct (sc_timer_set e p1 p1 (sc_refl p1)) as (T1 & T2 & T3 & _).
  split; [congruence|]. unfold pending. rewrite T2, T3, S2, S3, Ee. cbn [length]. lia.
Qed.

Lemma clearing_step p a m :
  live_inv p → status p = 7 → internal a → perform p a = Some m →
  ∃ q, m = Ok q ∧ (idle_again q ∨ (live_inv q ∧ status q = 7 ∧ (pending q < pending p)%nat)).
Proof.
  intros H E7 Ha. destruct a as [e| | |yield| | | | |]; try done; cbn [perform].
  - destruct (events p) as [|ev rest] eqn:Ee; [done|]. intros [= <-].
    destruct (decide (ev = Clearing_Completed)) as [->|Hne].
    + destruct (clearing_completes e p rest H E7 Ee) as (pr & -> & Hi). exists pr.1. split; [done|by left].
    + destruct (clearing_goes_on e p ev rest H E7 Ee Hne) as (pr & E & Hs & Hd). rewrite E. exists pr.1. split; [done|].
      right. split; [|done]. destruct (inv_deliver e p ev rest pr) as [Hx|Hx]; [by right|done|done|by rewrite Hs in Hx|done].
  - destruct (clear_node_queue p) as [wq|] eqn:Eq; [|done]. destruct (thread wq) eqn:Et; [|done]. intros [= <-].
    destruct (clear_run_live yield p wq H Eq) as (q & -> & Hl & _ & Hs & Hd); [eauto|]. exists q. split; [done|]. by right.
Qed.

Lemma clearing_not_stuck p : live_inv p → status p = 7 → ∃ a m, internal a ∧ perform p a = Some m.
Proof.
  intros H E7. destruct (inv_clearing _ H E7) as [Hw _]. destruct (events p) as [|ev rest] eqn:Ee.
  - exists (RunQueue (λ _, false)). cbn [perform]. pose proof (inv_queue _ H) as Hq.
    destruct (clear_node_queue p) as [wq|]; [|by destruct Hw as [_ Hw]; specialize (Hw eq_refl); apply elem_of_nil in Hw].
    destruct Hq as (_ & _ & Ht & _). destruct (thread wq) as [t|]; [by eexists|].
    destruct Hw as [_ Hw]. exfalso. apply (not_elem_of_nil Clearing_Completed), Hw. cbn. by rewrite (proj1 Ht eq_refl).
  - exists (Deliver (Env 0 0 0 0 0)). cbn [perform]. rewrite Ee. by eexists.
Qed.

Lemma clearing_inevitable n p : (pending p < n)%nat → live_inv p → status p = 7 → inevitable idle_again p.
Proof.
  revert p. induction n as [|n IH]; intros p Hn H E7; [lia|]. apply inevitable_later; [by apply clearing_not_stuck|..].
  { intros a m Ha Hp. destruct (clearing_step p a m H E7 Ha Hp) as (q & -> & _). eauto. }
  intros a q Ha Hp. destruct (clearing_step p a (Ok q) H E7 Ha Hp) as (q' & <-%Ok_inj & Hq).
  destruct Hq as [Hq|(Hl & Hs & Hd)]; [by apply inevitable_now|]. apply IH; [lia|done|done].
Qed.

(** ** Properties *)


(** C12. Clearing always comes to an end: when a session of such a peer is over the
    daemon, in whatever order it delivers the waiting events and runs the work
    queue, and wherever the queue yields, brings the peer back to [Idle], with its
    routes cleared and the start timer running (unless the peer is shut down or has
    no family). *)
Theorem clearing_ends p q :
  initial p → reachable ipv4_action p q → status q = Clearing → inevitable idle_again q.
Proof.
  intros Hi Hr Hs. destruct (inv_reachable p q Hi Hr) as [E|H]; [by rewrite E in Hs|].
  by apply (clearing_inevitable (S (pending q))); [lia|..].
Qed.

(** ** Witnesses *)

(** A session is started, established and has routes of the given family; then
    the connection is closed. *)
Definition start_session : list action :=
  [Post BGP_Start; Deliver sample_env; Deliver sample_env; Negotiate (λ _, 1) zeros 0 180 60;
   Post Receive_OPEN_message; Deliver sample_env; Post Receive_KEEPALIVE_message; Deliver sample_env].
Definition lose_session (k : Z * Z) : list action :=
  start_session ++ [Learn 1 k BGP_INFO_VALID; Learn 2 k BGP_INFO_VALID; Closed false; Deliver sample_env].
Definition clear_again (k : Z * Z) : list action :=
  lose_session k ++ [RunQueue (λ _, false); Deliver sample_env].

Definition sample_idle : peer := sample_peer Idle zeros zeros.
Definition after (acts : list action) : peer := default sample_idle (run sample_idle acts).


Lemma clearing_ends_witness :
  status (after (lose_session (AFI_IP, SAFI_UNICAST))) = Clearing ∧
  inevitable idle_again (after (lose_session (AFI_IP, SAFI_UNICAST))).
Proof.
  split; [vm_compute; reflexivity|].
  apply (clearing_ends sample_idle); [done| |vm_compute; reflexivity].
  apply (run_reachable _ _ sample_idle (lose_session (AFI_IP, SAFI_UNICAST)));
    [apply reachable_refl|repeat constructor|vm_compute; reflexivity].
Defined.

