(* ===== verification/Attr.v ===== *)
(** Path attributes of a received UPDATE: the parsers of bgpd/bgp_attr.c
    ([bgp_attr_malformed] to [bgp_attr_parse]) and [bgp_nlri_sanity_check] of
    bgpd/bgp_route.c.

    The parsers read [peer->ibuf], fill the attribute and queue NOTIFICATIONs;
    [Record parser] holds all they change.  Pointers into the buffer ([startp],
    [endp], [nlri]) are offsets of its block.  AS paths, communities, extended
    communities, cluster lists and unknown attributes are given by their contents:
    sharing does not change them (Hash.v).  The Tarpan attribute, which handlers
    change in place, is the address of an object of the store of Tarpan.v. *)
From S2P Require Import Prelude Prefix Stream Hash ASPath Community Ecommunity Tarpan Decision.
Open Scope Z_scope.

(** ** Constants *)

Definition BGP_ATTR_ORIGIN : Z := 1.
Definition BGP_ATTR_AS_PATH : Z := 2.
Definition BGP_ATTR_NEXT_HOP : Z := 3.
Definition BGP_ATTR_ATOMIC_AGGREGATE : Z := 6.
Definition BGP_ATTR_AGGREGATOR : Z := 7.
Definition BGP_ATTR_COMMUNITIES : Z := 8.
Definition BGP_ATTR_MP_REACH_NLRI : Z := 14.
Definition BGP_ATTR_MP_UNREACH_NLRI : Z := 15.
Definition BGP_ATTR_EXT_COMMUNITIES : Z := 16.
Definition BGP_ATTR_AS4_PATH : Z := 17.
Definition BGP_ATTR_AS4_AGGREGATOR : Z := 18.
Definition BGP_ATTR_TARPAN : Z := 19.

Definition BGP_ATTR_FLAG_OPTIONAL : Z := 0x80.
Definition BGP_ATTR_FLAG_TRANS : Z := 0x40.
Definition BGP_ATTR_FLAG_PARTIAL : Z := 0x20.
Definition BGP_ATTR_FLAG_EXTLEN : Z := 0x10.
Definition BGP_ATTR_MIN_LEN : Z := 3.

Definition BGP_NOTIFY_UPDATE_MAL_ATTR : Z := 1.
Definition BGP_NOTIFY_UPDATE_UNREC_ATTR : Z := 2.
Definition BGP_NOTIFY_UPDATE_MISS_ATTR : Z := 3.
Definition BGP_NOTIFY_UPDATE_ATTR_FLAG_ERR : Z := 4.
Definition BGP_NOTIFY_UPDATE_ATTR_LENG_ERR : Z := 5.
Definition BGP_NOTIFY_UPDATE_INVAL_ORIGIN : Z := 6.
Definition BGP_NOTIFY_UPDATE_INVAL_NEXT_HOP : Z := 8.
Definition BGP_NOTIFY_UPDATE_OPT_ATTR_ERR : Z := 9.
Definition BGP_NOTIFY_UPDATE_INVAL_NETWORK : Z := 10.
Definition BGP_NOTIFY_UPDATE_MAL_AS_PATH : Z := 11.
Definition BGP_NOTIFY_UPDATE_ERR : Z := 3.

Definition BGP_ORIGIN_IGP : Z := 0.
Definition BGP_ORIGIN_EGP : Z := 1.
Definition BGP_ORIGIN_INCOMPLETE : Z := 2.

Definition PEER_CAP_RESTART_RCV : Z := 64.
Definition PEER_CAP_AS4_RCV : Z := 256.
Definition PEER_FLAG_LOCAL_AS_NO_PREPEND : Z := 128.
Definition BGP_FLAG_ENFORCE_FIRST_AS : Z := 64.

Definition SAFI_UNICAST : Z := 1.
Definition SAFI_MULTICAST : Z := 2.
Definition SAFI_MPLS_VPN : Z := 4.
Definition SAFI_MPLS_LABELED_VPN : Z := 128.

Definition BGP_MP_REACH_MIN_SIZE : Z := 5.
Definition BGP_MP_UNREACH_MIN_SIZE : Z := 3.

(** ** Data *)

(** [struct attr_extra]: a 32- or 128-bit address is its bytes in network
    order. *)
Record attr_extra := AttrExtra {
  mp_nexthop_global : list Z;
  mp_nexthop_local : list Z;
  ecommunity_ : option ecommunity;
  cluster : option (list Z);
  transit : option (list Z);
  mp_nexthop_global_in : list Z;
  aggregator_addr : list Z;
  originator_id : list Z;
  aggregator_as : Z;
  mp_nexthop_len : Z;
}.
Record attr := Attr {
  aspath_ : option aspath;
  community_ : option community;
  tarpan_ : option loc;
  extra : option attr_extra;
  flag : Z;
  nexthop : list Z;
  med : Z;
  local_pref : Z;
  origin : Z;
}.

Record bgp_nlri := Nlri { afi : Z; safi : Z; nlri : Z; nlri_length : Z }.

(** [struct peer] as the parsers read it; [peer_bgp] are the flags of
    [peer->bgp], which may be null, and [wiser_peer] what a Tarpan handler is
    told. *)
Record peer := Peer {
  sort : bgp_peer_sort;
  as_ : Z;
  cap : Z;
  peer_flags : Z;
  change_local_as : Z;
  peer_bgp : option Z;
  wiser_peer : wpeer;
}.

(** A NOTIFICATION. *)
Record notification := Notify { code : Z; subcode : Z; notify_data : list Z }.

(** [struct bgp_attr_parser_args]; peer and attribute are passed apart. *)
Record bgp_attr_parser_args := Args { length_ : Z; total : Z; type : Z; flags : Z; startp : Z }.

Inductive bgp_attr_parse_ret_t :=
  | BGP_ATTR_PARSE_PROCEED | BGP_ATTR_PARSE_ERROR | BGP_ATTR_PARSE_WITHDRAW | BGP_ATTR_PARSE_ERROR_NOTIFYPLS.
#[export] Instance bgp_attr_parse_ret_t_eq_dec : EqDecision bgp_attr_parse_ret_t.
Proof. solve_decision. Defined.

(** What a parser changes: the input stream, the attribute, the outputs of
    [bgp_attr_parse], its local variables, the queued NOTIFICATIONs and the
    memory of the Tarpan component. *)
Record parser := Parser {
  ibuf : stream;
  the_attr : attr;
  mp_update : bgp_nlri;
  mp_withdraw : bgp_nlri;
  as4_path : option aspath;
  as4_aggregator : Z;
  as4_aggregator_addr : list Z;
  sent : list notification;
  tarpan_costs : costs;
  tarpan_store : store;
}.

(** Assignments to the fields. *)
Definition set_mp_nexthop_global (e : attr_extra) (v : list Z) : attr_extra :=
  AttrExtra v (mp_nexthop_local e) (ecommunity_ e) (cluster e) (transit e) (mp_nexthop_global_in e) (aggregator_addr e) (originator_id e) (aggregator_as e) (mp_nexthop_len e).
Definition set_mp_nexthop_local (e : attr_extra) (v : list Z) : attr_extra :=
  AttrExtra (mp_nexthop_global e) v (ecommunity_ e) (cluster e) (transit e) (mp_nexthop_global_in e) (aggregator_addr e) (originator_id e) (aggregator_as e) (mp_nexthop_len e).
Definition set_ecommunity (e : attr_extra) (v : option ecommunity) : attr_extra :=
  AttrExtra (mp_nexthop_global e) (mp_nexthop_local e) v (cluster e) (transit e) (mp_nexthop_global_in e) (aggregator_addr e) (originator_id e) (aggregator_as e) (mp_nexthop_len e).
Definition set_cluster (e : attr_extra) (v : option (list Z)) : attr_extra :=
  AttrExtra (mp_nexthop_global e) (mp_nexthop_local e) (ecommunity_ e) v (transit e) (mp_nexthop_global_in e) (aggregator_addr e) (originator_id e) (aggregator_as e) (mp_nexthop_len e).
Definition set_transit (e : attr_extra) (v : option (list Z)) : attr_extra :=
  AttrExtra (mp_nexthop_global e) (mp_nexthop_local e) (ecommunity_ e) (cluster e) v (mp_nexthop_global_in e) (aggregator_addr e) (originator_id e) (aggregator_as e) (mp_nexthop_len e).
Definition set_mp_nexthop_global_in (e : attr_extra) (v : list Z) : attr_extra :=
  AttrExtra (mp_nexthop_global e) (mp_nexthop_local e) (ecommunity_ e) (cluster e) (transit e) v (aggregator_addr e) (originator_id e) (aggregator_as e) (mp_nexthop_len e).
Definition set_aggregator_addr (e : attr_extra) (v : list Z) : attr_extra :=
  AttrExtra (mp_nexthop_global e) (mp_nexthop_local e) (ecommunity_ e) (cluster e) (transit e) (mp_nexthop_global_in e) v (originator_id e) (aggregator_as e) (mp_nexthop_len e).
Definition set_originator_id (e : attr_extra) (v : list Z) : attr_extra :=
  AttrExtra (mp_nexthop_global e) (mp_nexthop_local e) (ecommunity_ e) (cluster e) (transit e) (mp_nexthop_global_in e) (aggregator_addr e) v (aggregator_as e) (mp_nexthop_len e).
Definition set_aggregator_as (e : attr_extra) (v : Z) : attr_extra :=
  AttrExtra (mp_nexthop_global e) (mp_nexthop_local e) (ecommunity_ e) (cluster e) (transit e) (mp_nexthop_global_in e) (aggregator_addr e) (originator_id e) v (mp_nexthop_len e).
Definition set_mp_nexthop_len (e : attr_extra) (v : Z) : attr_extra :=
  AttrExtra (mp_nexthop_global e) (mp_nexthop_local e) (ecommunity_ e) (cluster e) (transit e) (mp_nexthop_global_in e) (aggregator_addr e) (originator_id e) (aggregator_as e) v.

Definition set_aspath (a : attr) (v : option aspath) : attr :=
  Attr v (community_ a) (tarpan_ a) (extra a) (flag a) (nexthop a) (med a) (local_pref a) (origin a).
Definition set_community (a : attr) (v : option community) : attr :=
  Attr (aspath_ a) v (tarpan_ a) (extra a) (flag a) (nexthop a) (med a) (local_pref a) (origin a).
Definition set_tarpan (a : attr) (v : option loc) : attr :=
  Attr (aspath_ a) (community_ a) v (extra a) (flag a) (nexthop a) (med a) (local_pref a) (origin a).
Definition set_extra (a : attr) (v : option attr_extra) : attr :=
  Attr (aspath_ a) (community_ a) (tarpan_ a) v (flag a) (nexthop a) (med a) (local_pref a) (origin a).
Definition set_flag (a : attr) (v : Z) : attr :=
  Attr (aspath_ a) (community_ a) (tarpan_ a) (extra a) v (nexthop a) (med a) (local_pref a) (origin a).
Definition set_nexthop (a : attr) (v : list Z) : attr :=
  Attr (aspath_ a) (community_ a) (tarpan_ a) (extra a) (flag a) v (med a) (local_pref a) (origin a).
Definition set_med (a : attr) (v : Z) : attr :=
  Attr (aspath_ a) (community_ a) (tarpan_ a) (extra a) (flag a) (nexthop a) v (local_pref a) (origin a).
Definition set_local_pref (a : attr) (v : Z) : attr :=
  Attr (aspath_ a) (community_ a) (tarpan_ a) (extra a) (flag a) (nexthop a) (med a) v (origin a).
Definition set_origin (a : attr) (v : Z) : attr :=
  Attr (aspath_ a) (community_ a) (tarpan_ a) (extra a) (flag a) (nexthop a) (med a) (local_pref a) v.

Definition set_ibuf (st : parser) (v : stream) : parser :=
  Parser v (the_attr st) (mp_update st) (mp_withdraw st) (as4_path st) (as4_aggregator st) (as4_aggregator_addr st) (sent st) (tarpan_costs st) (tarpan_store st).
Definition set_the_attr (st : parser) (v : attr) : parser :=
  Parser (ibuf st) v (mp_update st) (mp_withdraw st) (as4_path st) (as4_aggregator st) (as4_aggregator_addr st) (sent st) (tarpan_costs st) (tarpan_store st).
Definition set_mp_update (st : parser) (v : bgp_nlri) : parser :=
  Parser (ibuf st) (the_attr st) v (mp_withdraw st) (as4_path st) (as4_aggregator st) (as4_aggregator_addr st) (sent st) (tarpan_costs st) (tarpan_store st).
Definition set_mp_withdraw (st : parser) (v : bgp_nlri) : parser :=
  Parser (ibuf st) (the_attr st) (mp_update st) v (as4_path st) (as4_aggregator st) (as4_aggregator_addr st) (sent st) (tarpan_costs st) (tarpan_store st).
Definition set_as4_path (st : parser) (v : option aspath) : parser :=
  Parser (ibuf st) (the_attr st) (mp_update st) (mp_withdraw st) v (as4_aggregator st) (as4_aggregator_addr st) (sent st) (tarpan_costs st) (tarpan_store st).
Definition set_as4_aggregator (st : parser) (v : Z) : parser :=
  Parser (ibuf st) (the_attr st) (mp_update st) (mp_withdraw st) (as4_path st) v (as4_aggregator_addr st) (sent st) (tarpan_costs st) (tarpan_store st).
Definition set_as4_aggregator_addr (st : parser) (v : list Z) : parser :=
  Parser (ibuf st) (the_attr st) (mp_update st) (mp_withdraw st) (as4_path st) (as4_aggregator st) v (sent st) (tarpan_costs st) (tarpan_store st).
Definition set_sent (st : parser) (v : list notification) : parser :=
  Parser (ibuf st) (the_attr st) (mp_update st) (mp_withdraw st) (as4_path st) (as4_aggregator st) (as4_aggregator_addr st) v (tarpan_costs st) (tarpan_store st).
Definition set_tarpan_costs (st : parser) (v : costs) : parser :=
  Parser (ibuf st) (the_attr st) (mp_update st) (mp_withdraw st) (as4_path st) (as4_aggregator st) (as4_aggregator_addr st) (sent st) v (tarpan_store st).
Definition set_tarpan_store (st : parser) (v : store) : parser :=
  Parser (ibuf st) (the_attr st) (mp_update st) (mp_withdraw st) (as4_path st) (as4_aggregator st) (as4_aggregator_addr st) (sent st) (tarpan_costs st) v.

Definition zeros (n : nat) : list Z := replicate n 0.

(** [bgp_attr_extra_new] zeroes the block. *)
Definition bgp_attr_extra_new : attr_extra :=
  AttrExtra (zeros 16) (zeros 16) None None None (zeros 4) (zeros 4) (zeros 4) 0 0.

(** [f] applied to what [bgp_attr_extra_get] returns, in place. *)
Definition bgp_attr_extra_get (a : attr) : attr_extra :=
  match extra a with Some e => e | None => bgp_attr_extra_new end.
Definition on_extra (st : parser) (f : attr_extra → attr_extra) : parser :=
  set_the_attr st (set_extra (the_attr st) (Some (f (bgp_attr_extra_get (the_attr st))))).

Definition on_attr (st : parser) (f : attr → attr) : parser := set_the_attr st (f (the_attr st)).

(** [attr->flag |= ATTR_FLAG_BIT (t)] *)
Definition mark (t : Z) (a : attr) : attr := set_flag a (Z.lor (flag a) (ATTR_FLAG_BIT t)).
Definition marked (st : parser) (t : Z) : bool := CHECK_FLAG (flag (the_attr st)) (ATTR_FLAG_BIT t).

Definition stream_pnt (s : stream) : M (list Z) := assert! sane s ;; Ok (drop (Z.to_nat (getp s)) (data s)).

Definition is_sort (p : peer) (srt : bgp_peer_sort) : bool := bool_decide (sort p = srt).

(** ** Errors *)

Definition bgp_notify_send (st : parser) (code sub : Z) : parser := set_sent st (sent st ++ [Notify code sub []]).

(** [n] bytes from the offset [from] of the input buffer go with the error;
    none for a zero length. *)
Definition bgp_notify_send_with_data (st : parser) (code sub from n : Z) : M parser :=
  b ← (if 0 <? n then rdn (data (ibuf st)) from n else Ok []);
  Ok (set_sent st (sent st ++ [Notify code sub b])).

Definition bgp_attr_malformed (p : peer) (st : parser) (a : bgp_attr_parser_args) (sub n : Z)
    : M (parser * bgp_attr_parse_ret_t) :=
  if negb (is_sort p BGP_PEER_EBGP) then
    st ← bgp_notify_send_with_data st BGP_NOTIFY_UPDATE_ERR sub (startp a) n;
    Ok (st, BGP_ATTR_PARSE_ERROR)
  else
  s ← stream_set_getp (ibuf st) (startp a + total a);
  let st := set_ibuf st s in
  if existsb (Z.eqb (type a)) [BGP_ATTR_AS4_AGGREGATOR; BGP_ATTR_AGGREGATOR; BGP_ATTR_ATOMIC_AGGREGATE]
  then Ok (st, BGP_ATTR_PARSE_PROCEED)
  else if existsb (Z.eqb (type a))
       [BGP_ATTR_ORIGIN; BGP_ATTR_AS_PATH; BGP_ATTR_NEXT_HOP; BGP_ATTR_MULTI_EXIT_DISC; BGP_ATTR_LOCAL_PREF;
        BGP_ATTR_COMMUNITIES; BGP_ATTR_ORIGINATOR_ID; BGP_ATTR_CLUSTER_LIST; BGP_ATTR_MP_REACH_NLRI;
        BGP_ATTR_MP_UNREACH_NLRI; BGP_ATTR_EXT_COMMUNITIES]
  then
    st ← bgp_notify_send_with_data st BGP_NOTIFY_UPDATE_ERR sub (startp a) n;
    Ok (st, BGP_ATTR_PARSE_ERROR)
  else if CHECK_FLAG (flags a) BGP_ATTR_FLAG_TRANS && CHECK_FLAG (flags a) BGP_ATTR_FLAG_OPTIONAL
          && CHECK_FLAG (flags a) BGP_ATTR_FLAG_PARTIAL
  then Ok (st, BGP_ATTR_PARSE_WITHDRAW)
  else Ok (st, BGP_ATTR_PARSE_ERROR_NOTIFYPLS).

(** [attr_flags_values]: the entries 0 to 18, those without an initialiser 0. *)
Definition attr_flags_values : list Z :=
  let opt := BGP_ATTR_FLAG_OPTIONAL in
  let trans := BGP_ATTR_FLAG_TRANS in
  [0; trans; trans; trans; opt; trans; trans; Z.lor trans opt; Z.lor trans opt; opt; opt; 0; 0; 0; opt; opt;
   Z.lor opt trans; Z.lor opt trans; Z.lor opt trans].
Definition attr_flags_values_max : Z := Z.of_nat (length attr_flags_values).

(** ** Prefix lists *)

(** The loop of [bgp_nlri_sanity_check] over the block [d]: [None] for an error,
    else the final pointer. *)
Fixpoint sanity_loop (fuel : nat) (d : list Z) (af pnt end_ : Z) : M (option Z) :=
  if end_ <=? pnt then Ok (Some pnt) else
  prefixlen ← rd d pnt;
  let pnt := pnt + 1 in
  if ((af =? AFI_IP) && (32 <? prefixlen)) || ((af =? AFI_IP6) && (128 <? prefixlen)) then Ok None else
  let psize := PSIZE prefixlen in
  if end_ <? pnt + psize then Ok None else
  match fuel with
  | O => Fault Undefined
  | S fuel' => sanity_loop fuel' d af (pnt + psize) end_
  end.

(** The result is 0 or -1; [pnt] is an offset of the input buffer. *)
Definition bgp_nlri_sanity_check (st : parser) (af pnt n : Z) : M (parser * Z) :=
  r ← sanity_loop (Z.to_nat n) (data (ibuf st)) af pnt (pnt + n);
  match r with
  | Some q => if q =? pnt + n then Ok (st, 0) else Ok (bgp_notify_send st BGP_NOTIFY_UPDATE_ERR BGP_NOTIFY_UPDATE_INVAL_NETWORK, -1)
  | None => Ok (bgp_notify_send st BGP_NOTIFY_UPDATE_ERR BGP_NOTIFY_UPDATE_INVAL_NETWORK, -1)
  end.

(** ** The attributes *)

Notation PROCEED := BGP_ATTR_PARSE_PROCEED (only parsing).

Section parsers.
Context (p : peer).

Notation step := (parser → bgp_attr_parser_args → M (parser * bgp_attr_parse_ret_t)).

Definition as4_peer : bool := CHECK_FLAG (cap p) PEER_CAP_AS4_RCV.

Definition bgp_attr_origin : step := λ st a,
  if negb (length_ a =? 1) then bgp_attr_malformed p st a BGP_NOTIFY_UPDATE_ATTR_LENG_ERR (total a) else
  '(s, c) ← stream_getc (ibuf st);
  let st := on_attr (set_ibuf st s) (λ r, set_origin r c) in
  if negb (c =? BGP_ORIGIN_IGP) && negb (c =? BGP_ORIGIN_EGP) && negb (c =? BGP_ORIGIN_INCOMPLETE)
  then bgp_attr_malformed p st a BGP_NOTIFY_UPDATE_INVAL_ORIGIN (total a)
  else Ok (on_attr st (mark BGP_ATTR_ORIGIN), PROCEED).

(** [aspath_parse] up to sharing: the path with its text. *)
Definition parse_aspath (s : stream) (n : Z) (use32bit : bool) : M (stream * option aspath) :=
  if negb (n mod 2 =? 0) then Ok (s, None) else
  '(s, r) ← assegments_parse s n use32bit;
  match r with
  | None => Ok (s, None)
  | Some segs => q ← aspath_str_update segs; Ok (s, Some q)
  end.

Definition bgp_attr_aspath : step := λ st a,
  '(s, r) ← parse_aspath (ibuf st) (length_ a) as4_peer;
  let st := on_attr (set_ibuf st s) (λ x, set_aspath x r) in
  match r with
  | None => bgp_attr_malformed p st a BGP_NOTIFY_UPDATE_MAL_AS_PATH 0
  | Some _ => Ok (on_attr st (mark BGP_ATTR_AS_PATH), PROCEED)
  end.

Definition bgp_attr_aspath_check (st : parser) : M (parser * bgp_attr_parse_ret_t) :=
  let path := aspath_ (the_attr st) in
  if (is_sort p BGP_PEER_CONFED && negb (aspath_left_confed_check path))
     || (is_sort p BGP_PEER_EBGP && aspath_confed_check path)
  then Ok (bgp_notify_send st BGP_NOTIFY_UPDATE_ERR BGP_NOTIFY_UPDATE_MAL_AS_PATH, BGP_ATTR_PARSE_ERROR) else
  bad_first ←
    (if match peer_bgp p with Some f => CHECK_FLAG f BGP_FLAG_ENFORCE_FIRST_AS | None => false end
        && is_sort p BGP_PEER_EBGP
     then c ← aspath_firstas_check path (as_ p); Ok (negb c) else Ok false);
  if bad_first : bool
  then Ok (bgp_notify_send st BGP_NOTIFY_UPDATE_ERR BGP_NOTIFY_UPDATE_MAL_AS_PATH, BGP_ATTR_PARSE_ERROR) else
  if negb (change_local_as p =? 0) && negb (CHECK_FLAG (peer_flags p) PEER_FLAG_LOCAL_AS_NO_PREPEND) then
    q ← of_opt path;
    q ← aspath_dup q;
    q ← aspath_add_seq q (change_local_as p);
    Ok (on_attr st (λ x, set_aspath x (Some q)), PROCEED)
  else Ok (st, PROCEED).

Definition bgp_attr_as4_path : step := λ st a,
  '(s, r) ← parse_aspath (ibuf st) (length_ a) true;
  let st := set_as4_path (set_ibuf st s) r in
  match r with
  | None => bgp_attr_malformed p st a BGP_NOTIFY_UPDATE_MAL_AS_PATH 0
  | Some _ => Ok (on_attr st (mark BGP_ATTR_AS4_PATH), PROCEED)
  end.

Definition bgp_attr_nexthop : step := λ st a,
  if negb (length_ a =? 4) then bgp_attr_malformed p st a BGP_NOTIFY_UPDATE_ATTR_LENG_ERR (total a) else
  '(s, nexthop_n) ← stream_get_ipv4 (ibuf st);
  let st := set_ibuf st s in
  let nexthop_h := be_value nexthop_n in
  if IPV4_NET0 nexthop_h || IPV4_NET127 nexthop_h || IPV4_CLASS_DE nexthop_h
  then bgp_attr_malformed p st a BGP_NOTIFY_UPDATE_INVAL_NEXT_HOP (total a)
  else Ok (on_attr st (λ x, mark BGP_ATTR_NEXT_HOP (set_nexthop x nexthop_n)), PROCEED).

Definition bgp_attr_med : step := λ st a,
  if negb (length_ a =? 4) then bgp_attr_malformed p st a BGP_NOTIFY_UPDATE_ATTR_LENG_ERR (total a) else
  '(s, v) ← stream_getl (ibuf st);
  Ok (on_attr (set_ibuf st s) (λ x, mark BGP_ATTR_MULTI_EXIT_DISC (set_med x v)), PROCEED).

Definition bgp_attr_local_pref : step := λ st a,
  if negb (length_ a =? 4) then bgp_attr_malformed p st a BGP_NOTIFY_UPDATE_ATTR_LENG_ERR (total a) else
  if is_sort p BGP_PEER_EBGP then
    s ← stream_forward_getp (ibuf st) (length_ a);
    Ok (set_ibuf st s, PROCEED)
  else
  '(s, v) ← stream_getl (ibuf st);
  Ok (on_attr (set_ibuf st s) (λ x, mark BGP_ATTR_LOCAL_PREF (set_local_pref x v)), PROCEED).

Definition bgp_attr_atomic : step := λ st a,
  if negb (length_ a =? 0) then bgp_attr_malformed p st a BGP_NOTIFY_UPDATE_ATTR_LENG_ERR (total a) else
  Ok (on_attr st (mark BGP_ATTR_ATOMIC_AGGREGATE), PROCEED).

Definition bgp_attr_aggregator : step := λ st a,
  let st := on_extra st (λ e, e) in
  let wantedlen := if as4_peer then 8 else 6 in
  if negb (length_ a =? wantedlen)
  then bgp_attr_malformed p st a BGP_NOTIFY_UPDATE_ATTR_LENG_ERR (total a) else
  '(s, v) ← (if as4_peer then stream_getl (ibuf st) else stream_getw (ibuf st));
  '(s, addr) ← stream_get_ipv4 s;
  let st := on_extra (set_ibuf st s) (λ e, set_aggregator_addr (set_aggregator_as e v) addr) in
  Ok (on_attr st (mark BGP_ATTR_AGGREGATOR), PROCEED).

Definition bgp_attr_as4_aggregator : step := λ st a,
  if negb (length_ a =? 8) then bgp_attr_malformed p st a BGP_NOTIFY_UPDATE_ATTR_LENG_ERR 0 else
  '(s, v) ← stream_getl (ibuf st);
  '(s, addr) ← stream_get_ipv4 s;
  let st := set_as4_aggregator_addr (set_as4_aggregator (set_ibuf st s) v) addr in
  Ok (on_attr st (mark BGP_ATTR_AS4_AGGREGATOR), PROCEED).

Definition bgp_attr_munge_as4_attrs (st : parser) : M (parser * bgp_attr_parse_ret_t) :=
  match aspath_ (the_attr st) with
  | None => Ok (st, BGP_ATTR_PARSE_ERROR)
  | Some path =>
      if as4_peer then Ok (st, PROCEED) else
      '(st, ignore_as4_path) ←
        (if marked st BGP_ATTR_AS4_AGGREGATOR then
           if marked st BGP_ATTR_AGGREGATOR then
             match extra (the_attr st) with
             | None => Fault Aborted
             | Some e =>
                 if negb (aggregator_as e =? BGP_AS_TRANS) then Ok (st, true)
                 else Ok (on_extra st (λ e, set_aggregator_addr (set_aggregator_as e (as4_aggregator st))
                                                                (as4_aggregator_addr st)), false)
             end
           else Ok (on_attr (on_extra st (λ e, set_aggregator_as e (as4_aggregator st))) (mark BGP_ATTR_AGGREGATOR),
                    false)
         else Ok (st, false));
      if negb ignore_as4_path && marked st BGP_ATTR_AS4_PATH then
        as4 ← of_opt (as4_path st);
        newpath ← aspath_reconcile_as4 path as4;
        Ok (on_attr st (λ x, set_aspath x (Some newpath)), PROCEED)
      else Ok (st, PROCEED)
  end.

(** [community_parse] up to sharing. *)
Definition parse_community (pnt : list Z) (n : Z) : M (option community) :=
  if negb (n mod 4 =? 0) then Ok None else
  bytes ← rdn pnt 0 n;
  Ok (Some (community_uniq_sort (words bytes))).

Definition bgp_attr_community : step := λ st a,
  if length_ a =? 0 then Ok (on_attr st (λ x, set_community x None), PROCEED) else
  pnt ← stream_pnt (ibuf st);
  c ← parse_community pnt (length_ a);
  s ← stream_forward_getp (ibuf st) (length_ a);
  let st := set_ibuf (on_attr st (λ x, set_community x c)) s in
  match c with
  | None => bgp_attr_malformed p st a BGP_NOTIFY_UPDATE_OPT_ATTR_ERR (total a)
  | Some _ => Ok (on_attr st (mark BGP_ATTR_COMMUNITIES), PROCEED)
  end.

Definition bgp_attr_originator_id : step := λ st a,
  if negb (length_ a =? 4) then bgp_attr_malformed p st a BGP_NOTIFY_UPDATE_ATTR_LENG_ERR (total a) else
  '(s, addr) ← stream_get_ipv4 (ibuf st);
  let st := on_extra (set_ibuf st s) (λ e, set_originator_id e addr) in
  Ok (on_attr st (mark BGP_ATTR_ORIGINATOR_ID), PROCEED).

(** [cluster_parse] shares a list with the bytes at the pointer. *)
Definition bgp_attr_cluster_list : step := λ st a,
  if negb (length_ a mod 4 =? 0)
  then bgp_attr_malformed p st a BGP_NOTIFY_UPDATE_ATTR_LENG_ERR (total a) else
  pnt ← stream_pnt (ibuf st);
  list ← rdn pnt 0 (length_ a);
  s ← stream_forward_getp (ibuf st) (length_ a);
  let st := set_ibuf (on_extra st (λ e, set_cluster e (Some list))) s in
  Ok (on_attr st (mark BGP_ATTR_CLUSTER_LIST), PROCEED).

(** ** Multiprotocol reachability *)

(** [IN6_IS_ADDR_LINKLOCAL]: fe80::/10. *)
Definition IN6_IS_ADDR_LINKLOCAL (addr : list Z) : bool :=
  match addr with
  | b0 :: b1 :: _ => (b0 =? 0xfe) && (Z.land b1 0xc0 =? 0x80)
  | _ => false
  end.

(** The [switch] on the length of the next hop: [false] for a length that is
    not handled. *)
Definition mp_reach_nexthop (st : parser) : M (parser * bool) :=
  let n := mp_nexthop_len (bgp_attr_extra_get (the_attr st)) in
  let s := ibuf st in
  if n =? 4 then
    '(s, addr) ← stream_get s 4;
    let st := on_extra (set_ibuf st s) (λ e, set_mp_nexthop_global_in e addr) in
    Ok (on_attr st (λ x, if be_value (nexthop x) =? 0 then set_nexthop x addr else x), true)
  else if n =? 12 then
    '(s, _) ← stream_getl s;
    '(s, _) ← stream_getl s;
    '(s, addr) ← stream_get s 4;
    Ok (on_extra (set_ibuf st s) (λ e, set_mp_nexthop_global_in e addr), true)
  else if n =? 16 then
    '(s, addr) ← stream_get s 16;
    Ok (on_extra (set_ibuf st s) (λ e, set_mp_nexthop_global e addr), true)
  else if n =? 32 then
    '(s, glob) ← stream_get s 16;
    '(s, loca) ← stream_get s 16;
    let st := on_extra (set_ibuf st s) (λ e, set_mp_nexthop_local (set_mp_nexthop_global e glob) loca) in
    Ok (if negb (IN6_IS_ADDR_LINKLOCAL loca) then on_extra st (λ e, set_mp_nexthop_len e 16) else st, true)
  else Ok (st, false).

(** [LEN_LEFT], with the value of the attribute starting at [start]. *)
Definition LEN_LEFT (a : bgp_attr_parser_args) (start : Z) (s : stream) : Z := u64 (length_ a - u64 (getp s - start)).

(** The part after the next hop. *)
Definition mp_reach_nlri (st : parser) (a : bgp_attr_parser_args) (start af saf : Z) : M (parser * bgp_attr_parse_ret_t) :=
  if LEN_LEFT a start (ibuf st) =? 0 then Ok (st, BGP_ATTR_PARSE_ERROR_NOTIFYPLS) else
  '(s, _) ← stream_getc (ibuf st);
  let st := set_ibuf st s in
  let nlri_len := u16 (LEN_LEFT a start s) in
  if (nlri_len =? 0) || (STREAM_READABLE s <? nlri_len) then Ok (st, BGP_ATTR_PARSE_ERROR_NOTIFYPLS) else
  '(st, ret) ← (if negb (saf =? SAFI_MPLS_LABELED_VPN) then bgp_nlri_sanity_check st af (getp s) nlri_len
                else Ok (st, 0));
  if ret <? 0 then Ok (st, BGP_ATTR_PARSE_ERROR_NOTIFYPLS) else
  let st := set_mp_update st (Nlri af saf (getp s) nlri_len) in
  s ← stream_forward_getp s nlri_len;
  Ok (on_attr (set_ibuf st s) (mark BGP_ATTR_MP_REACH_NLRI), PROCEED).

Definition bgp_mp_reach_parse : step := λ st a,
  let st := on_extra st (λ e, e) in
  start ← stream_get_getp (ibuf st);
  if (STREAM_READABLE (ibuf st) <? length_ a) || (length_ a <? BGP_MP_REACH_MIN_SIZE)
  then Ok (st, BGP_ATTR_PARSE_ERROR_NOTIFYPLS) else
  '(s, af) ← stream_getw (ibuf st);
  '(s, saf) ← stream_getc s;
  '(s, n) ← stream_getc s;
  let st := on_extra (set_ibuf st s) (λ e, set_mp_nexthop_len e n) in
  if LEN_LEFT a start s <? n then Ok (st, BGP_ATTR_PARSE_ERROR_NOTIFYPLS) else
  '(st, ok) ← mp_reach_nexthop st;
  if negb ok then Ok (st, BGP_ATTR_PARSE_ERROR_NOTIFYPLS) else mp_reach_nlri st a start af saf.

Definition bgp_mp_unreach_parse : step := λ st a,
  if (STREAM_READABLE (ibuf st) <? length_ a) || (length_ a <? BGP_MP_UNREACH_MIN_SIZE)
  then Ok (st, BGP_ATTR_PARSE_ERROR_NOTIFYPLS) else
  '(s, af) ← stream_getw (ibuf st);
  '(s, saf) ← stream_getc s;
  let st := set_ibuf st s in
  let withdraw_len := u16 (length_ a - BGP_MP_UNREACH_MIN_SIZE) in
  '(st, ret) ← (if negb (saf =? SAFI_MPLS_LABELED_VPN) then bgp_nlri_sanity_check st af (getp s) withdraw_len
                else Ok (st, 0));
  if ret <? 0 then Ok (st, BGP_ATTR_PARSE_ERROR_NOTIFYPLS) else
  let st := set_mp_withdraw st (Nlri af saf (getp s) withdraw_len) in
  s ← stream_forward_getp s withdraw_len;
  Ok (on_attr (set_ibuf st s) (mark BGP_ATTR_MP_UNREACH_NLRI), PROCEED).

Definition bgp_attr_ext_communities : step := λ st a,
  if length_ a =? 0 then
    Ok (if extra (the_attr st) is Some _ then on_extra st (λ e, set_ecommunity e None) else st, PROCEED)
  else
  pnt ← stream_pnt (ibuf st);
  c ← parse_values pnt (length_ a);
  s ← stream_forward_getp (ibuf st) (length_ a);
  let st := set_ibuf (on_extra st (λ e, set_ecommunity e c)) s in
  match c with
  | None => bgp_attr_malformed p st a BGP_NOTIFY_UPDATE_OPT_ATTR_ERR (total a)
  | Some _ => Ok (on_attr st (mark BGP_ATTR_EXT_COMMUNITIES), PROCEED)
  end.

(** The attribute is kept byte by byte, with the Partial bit set in the input
    buffer; [transit->length] is the length of the list. *)
Definition bgp_attr_unknown : step := λ st a,
  s ← stream_forward_getp (ibuf st) (length_ a);
  let st := set_ibuf st s in
  if negb (CHECK_FLAG (flags a) BGP_ATTR_FLAG_OPTIONAL)
  then bgp_attr_malformed p st a BGP_NOTIFY_UPDATE_UNREC_ATTR (total a)
  else if negb (CHECK_FLAG (flags a) BGP_ATTR_FLAG_TRANS) then Ok (st, PROCEED)
  else
  b ← rd (data s) (startp a);
  d ← wr (data s) (startp a) (SET_FLAG b BGP_ATTR_FLAG_PARTIAL);
  new ← rdn d (startp a) (total a);
  let st := on_extra (set_ibuf st (set_data s d))
              (λ e, set_transit e (Some (match transit e with Some t => t ++ new | None => new end))) in
  Ok (st, PROCEED).

(** ** The Tarpan attribute *)

(** The protobuf decoder, the handler of the active protocol, if any, and the
    addresses the allocator returns for the attribute and its message. *)
Context (unpack : list Z → option TarpanMsg).
Context (packet_received_handler : option (costs → store → wpeer → loc → M (costs * store))).
Context (new_tarpan : loc) (new_tarpan_message : Z).

Definition call_handler (st : parser) (tarp : loc) : M parser :=
  match packet_received_handler with
  | None => Ok st
  | Some h =>
      '(c, t) ← h (tarpan_costs st) (tarpan_store st) (wiser_peer p) tarp;
      Ok (set_tarpan_store (set_tarpan_costs st c) t)
  end.

(** [tarpan_parse] never returns null: a message that does not decode trips its
    assertion. *)
Definition bgp_tarpan_parse : step := λ st a,
  if length_ a =? 0 then Ok (on_attr st (λ x, set_tarpan x None), PROCEED) else
  pnt ← stream_pnt (ibuf st);
  bytes ← rdn pnt 0 (length_ a);
  '(t, tarp) ← tarpan_parse unpack (tarpan_store st) new_tarpan new_tarpan_message bytes;
  s ← stream_forward_getp (ibuf st) (length_ a);
  let st := set_ibuf (set_tarpan_store st t) s in
  st ← call_handler (on_attr st (λ x, mark BGP_ATTR_TARPAN (set_tarpan x (Some tarp)))) tarp;
  Ok (st, PROCEED).

(** The attribute of a message that has none. *)
Definition default_tarpan (st : parser) : M parser :=
  if marked st BGP_ATTR_TARPAN then Ok st else
  let t := tarpan_message_new (tarpan_new (tarpan_store st) new_tarpan) new_tarpan_message in
  t ← set_message t new_tarpan new_tarpan_message;
  '(t, tarp) ← tarpan_intern t new_tarpan;
  call_handler (on_attr (set_tarpan_store st t) (λ x, set_tarpan (mark BGP_ATTR_TARPAN x) (Some tarp))) tarp.

(** ** The loop *)

(** [attr_flags_values[19]], one past the end of the table. *)
Context (past_end : M Z).

Definition required_flags (t : Z) : M Z :=
  if t =? attr_flags_values_max then past_end else rd attr_flags_values t.

Definition bgp_attr_flag_invalid (a : bgp_attr_parser_args) : M bool :=
  if attr_flags_values_max <? type a then Ok false else
  v ← required_flags (type a);
  if v =? 0 then Ok false else
  let optional := CHECK_FLAG (flags a) BGP_ATTR_FLAG_OPTIONAL in
  let trans := CHECK_FLAG (flags a) BGP_ATTR_FLAG_TRANS in
  if negb optional && negb trans then Ok true else
  if CHECK_FLAG (flags a) BGP_ATTR_FLAG_PARTIAL && (negb optional || (optional && negb trans)) then Ok true else
  let mask := if optional && trans then SET_FLAG BGP_ATTR_FLAG_EXTLEN BGP_ATTR_FLAG_PARTIAL
              else BGP_ATTR_FLAG_EXTLEN in
  Ok (negb (Z.ldiff (flags a) mask =? v)).

(** The [switch] on the type. *)
Definition parse_one : step := λ st a,
  let t := type a in
  if t =? BGP_ATTR_ORIGIN then bgp_attr_origin st a
  else if t =? BGP_ATTR_AS_PATH then bgp_attr_aspath st a
  else if t =? BGP_ATTR_AS4_PATH then bgp_attr_as4_path st a
  else if t =? BGP_ATTR_NEXT_HOP then bgp_attr_nexthop st a
  else if t =? BGP_ATTR_MULTI_EXIT_DISC then bgp_attr_med st a
  else if t =? BGP_ATTR_LOCAL_PREF then bgp_attr_local_pref st a
  else if t =? BGP_ATTR_ATOMIC_AGGREGATE then bgp_attr_atomic st a
  else if t =? BGP_ATTR_AGGREGATOR then bgp_attr_aggregator st a
  else if t =? BGP_ATTR_AS4_AGGREGATOR then bgp_attr_as4_aggregator st a
  else if t =? BGP_ATTR_COMMUNITIES then bgp_attr_community st a
  else if t =? BGP_ATTR_ORIGINATOR_ID then bgp_attr_originator_id st a
  else if t =? BGP_ATTR_CLUSTER_LIST then bgp_attr_cluster_list st a
  else if t =? BGP_ATTR_MP_REACH_NLRI then bgp_mp_reach_parse st a
  else if t =? BGP_ATTR_MP_UNREACH_NLRI then bgp_mp_unreach_parse st a
  else if t =? BGP_ATTR_EXT_COMMUNITIES then bgp_attr_ext_communities st a
  else if t =? BGP_ATTR_TARPAN then bgp_tarpan_parse st a
  else bgp_attr_unknown st a.

(** Well-known attribute check. *)
Definition bgp_attr_check (st : parser) : parser * bgp_attr_parse_ret_t :=
  if CHECK_FLAG (cap p) PEER_CAP_RESTART_RCV && (flag (the_attr st) =? 0) then (st, PROCEED) else
  if flag (the_attr st) =? ATTR_FLAG_BIT BGP_ATTR_MP_UNREACH_NLRI then (st, PROCEED) else
  let t := 0 in
  let t := if negb (marked st BGP_ATTR_ORIGIN) then BGP_ATTR_ORIGIN else t in
  let t := if negb (marked st BGP_ATTR_AS_PATH) then BGP_ATTR_AS_PATH else t in
  let t := if negb (marked st BGP_ATTR_NEXT_HOP) && negb (marked st BGP_ATTR_MP_REACH_NLRI)
           then BGP_ATTR_NEXT_HOP else t in
  let t := if is_sort p BGP_PEER_IBGP && negb (marked st BGP_ATTR_LOCAL_PREF) then BGP_ATTR_LOCAL_PREF else t in
  if negb (t =? 0)
  then (set_sent st (sent st ++ [Notify BGP_NOTIFY_UPDATE_ERR BGP_NOTIFY_UPDATE_MISS_ATTR [t]]), BGP_ATTR_PARSE_ERROR)
  else (st, PROCEED).

(** The bitmap [seen] of 32 bytes. *)
Definition CHECK_BITMAP (map : list Z) (n : Z) : M bool :=
  b ← rd map (n / 8);
  Ok (CHECK_FLAG b (Z.shiftl 1 (n mod 8))).
Definition SET_BITMAP (map : list Z) (n : Z) : M (list Z) :=
  b ← rd map (n / 8);
  wr map (n / 8) (SET_FLAG b (Z.shiftl 1 (n mod 8))).

(** What one round of the loop does. *)
Inductive round :=
  | Next (seen : list Z)
  | Return (ret : bgp_attr_parse_ret_t).

Definition length_error (st : parser) : M (parser * round) :=
  Ok (bgp_notify_send st BGP_NOTIFY_UPDATE_ERR BGP_NOTIFY_UPDATE_ATTR_LENG_ERR, Return BGP_ATTR_PARSE_ERROR).

(** The body of the loop from the flag check on. *)
Definition handle_attr (st : parser) (seen : list Z) (a : bgp_attr_parser_args) (attr_endp : Z) : M (parser * round) :=
  invalid ← bgp_attr_flag_invalid a;
  if invalid : bool then
    '(st, ret) ← bgp_attr_malformed p st a BGP_NOTIFY_UPDATE_ATTR_FLAG_ERR (total a);
    Ok (st, if ret is BGP_ATTR_PARSE_PROCEED then Next seen else Return ret)
  else
  '(st, ret) ← parse_one st a;
  let '(st, ret) :=
    if ret is BGP_ATTR_PARSE_ERROR_NOTIFYPLS
    then (bgp_notify_send st BGP_NOTIFY_UPDATE_ERR BGP_NOTIFY_UPDATE_MAL_ATTR, BGP_ATTR_PARSE_ERROR) else (st, ret) in
  if bool_decide (ret = BGP_ATTR_PARSE_ERROR ∨ ret = BGP_ATTR_PARSE_WITHDRAW) then Ok (st, Return ret)
  else if negb (getp (ibuf st) =? attr_endp) then length_error st
  else Ok (st, Next seen).

(** The body after the header; the value of [n] bytes is at [getp]. *)
Definition attr_value (st : parser) (seen : list Z) (end_ startp flag t n : Z) : M (parser * round) :=
  dup ← CHECK_BITMAP seen t;
  if dup : bool
  then Ok (bgp_notify_send st BGP_NOTIFY_UPDATE_ERR BGP_NOTIFY_UPDATE_MAL_ATTR, Return BGP_ATTR_PARSE_ERROR) else
  seen ← SET_BITMAP seen t;
  let attr_endp := getp (ibuf st) + n in
  if end_ <? attr_endp then length_error st else
  handle_attr st seen (Args n (u16 (attr_endp - startp)) t flag startp) attr_endp.

Definition attr_round (st : parser) (seen : list Z) (end_ : Z) : M (parser * round) :=
  let startp := getp (ibuf st) in
  if end_ - startp <? BGP_ATTR_MIN_LEN then length_error st else
  '(s, c) ← stream_getc (ibuf st);
  let flag := Z.land 0xF0 c in
  '(s, t) ← stream_getc s;
  let extlen := CHECK_FLAG flag BGP_ATTR_FLAG_EXTLEN in
  if extlen && (end_ - startp <? BGP_ATTR_MIN_LEN + 1) then length_error (set_ibuf st s) else
  '(s, n) ← (if extlen then stream_getw s else stream_getc s);
  attr_value (set_ibuf st s) seen end_ startp flag t n.

(** Every round that goes on takes at least three bytes; [None] is the end of
    the loop. *)
Fixpoint attr_loop (fuel : nat) (st : parser) (seen : list Z) (end_ : Z) : M (parser * option bgp_attr_parse_ret_t) :=
  if negb (getp (ibuf st) <? end_) then Ok (st, None) else
  match fuel with
  | O => Fault Undefined
  | S fuel' =>
      '(st, r) ← attr_round st seen end_;
      match r with
      | Return ret => Ok (st, Some ret)
      | Next seen => attr_loop fuel' st seen end_
      end
  end.

(** What follows the loop. *)
Definition after_loop (st : parser) (end_ : Z) : M (parser * bgp_attr_parse_ret_t) :=
  if negb (getp (ibuf st) =? end_)
  then Ok (bgp_notify_send st BGP_NOTIFY_UPDATE_ERR BGP_NOTIFY_UPDATE_ATTR_LENG_ERR, BGP_ATTR_PARSE_ERROR) else
  st ← default_tarpan st;
  let '(st, ret) := bgp_attr_check st in
  if negb (bool_decide (ret = BGP_ATTR_PARSE_PROCEED)) then Ok (st, ret) else
  if marked st BGP_ATTR_AS_PATH then
    '(st, ret) ← bgp_attr_munge_as4_attrs st;
    if negb (bool_decide (ret = BGP_ATTR_PARSE_PROCEED))
    then Ok (bgp_notify_send st BGP_NOTIFY_UPDATE_ERR BGP_NOTIFY_UPDATE_MAL_ATTR, BGP_ATTR_PARSE_ERROR)
    else bgp_attr_aspath_check st
  else Ok (st, PROCEED).

Definition bgp_attr_parse (st : parser) (size : Z) : M (parser * bgp_attr_parse_ret_t) :=
  let st := set_as4_aggregator_addr (set_as4_aggregator (set_as4_path st None) 0) (zeros 4) in
  let end_ := getp (ibuf st) + size in
  '(st, r) ← attr_loop (Z.to_nat size) st (zeros 32) end_;
  match r with
  | Some ret => Ok (st, ret)
  | None => after_loop st end_
  end.

End parsers.
