(* ===== verification/AttrSpec.v ===== *)
(** Parsing of path attributes: what [bgp_attr_parse] guarantees for arbitrary
    bytes.

    [bgp_attr_parse_sound] composes the stream, AS-path, community and Tarpan
    components: from a valid buffer the parser never reaches undefined behaviour,
    aborts only on a Tarpan message that does not decode, and its three results mean
    what the caller takes them for.  The last section has the inputs on which it
    does not behave as intended. *)
From S2P Require Import Prelude Prefix Stream StreamRead Hash ASPath ASPathSpec ASPathWire ASPathOps ASPathTotal.
From S2P Require Import Community Ecommunity Tarpan Decision Attr.
Open Scope Z_scope.

(** ** Handlers of the Tarpan protocols *)

(** A reference to the attribute [b] is held: it is shared and has its
    message. *)
Definition held (st : store) (b : loc) : Prop :=
  pool_ok tarpan_hash_make tarpan_cmp (tarpans st) ∧
  ∃ o, objs (tarpans st) !! b = Some o ∧ refcnt o ≠ 0 ∧ is_Some (msgs st !! val o).

(** A handler returns when the attribute has a message, and takes no reference
    away. *)
Class ReceiveHandler (h : costs → store → wpeer → loc → M (costs * store)) : Prop := {
  handler_returns : ∀ c st w tarp m msg, message st tarp = Ok m → load_msg st m = Ok msg → ∃ r, h c st w tarp = Ok r;
  handler_holds : ∀ c st w tarp c' st' b, h c st w tarp = Ok (c', st') → held st b → held st' b;
}.

Lemma held_set_msg st m msg b : held st b → held (set_msg st m msg) b.
Proof.
  intros [HP (o & Ho & Hr & Hm)]. split; [exact HP|]. exists o. split_and!; [done..|]. cbn [msgs set_msg].
  destruct (decide (m = val o)) as [->|]; [rewrite lookup_insert_eq|rewrite lookup_insert_ne by done]; eauto.
Qed.

#[export] Instance wiser_receive_handler : ReceiveHandler wiser_packet_received_handler.
Proof.
  split.
  - intros c st w tarp m msg E1 E2. unfold wiser_packet_received_handler. rewrite E1. cbn [mbind M_bind].
    rewrite E2. cbn [mbind M_bind]. destruct (wiser msg); cbn [negb]; [|eauto]. case_match; eauto.
  - intros c st w tarp c' st' b. unfold wiser_packet_received_handler. intros (m & _ & (msg & _ & E)%bind_ok)%bind_ok.
    assert (∃ w', st' = set_msg st m (set_wiser msg w')) as [w' ->] by (repeat case_match; simplify_eq; eauto).
    apply held_set_msg.
Qed.

(** ** Sharing a new Tarpan attribute *)

(** The memory of the Tarpan component before the allocator returns [a] and
    [m]: every shared attribute has its message. *)
Definition tarpan_ready (st : store) (a : loc) (m : Z) : Prop :=
  pool_ok tarpan_hash_make tarpan_cmp (tarpans st) ∧ hsize (table (tarpans st)) < 2 ^ 31 ∧
  objs (tarpans st) !! a = None ∧ msgs st !! m = None ∧ m ≠ 0 ∧
  ∀ b o, objs (tarpans st) !! b = Some o → refcnt o ≠ 0 → refcnt o + 1 < 2 ^ 64 ∧ is_Some (msgs st !! val o).

Lemma pool_ok_fresh (P : pool Z) a v :
  pool_ok tarpan_hash_make tarpan_cmp P → objs P !! a = None →
  pool_ok tarpan_hash_make tarpan_cmp (Pool (<[a:=Obj 0 v]> (objs P)) (table P)).
Proof.
  intros (Hok & Hnd & Hin & Hrc & Hun) Ha. unfold pool_ok; cbn [objs table].
  assert (∀ d, d ∈ datas (table P) → <[a:=Obj 0 v]> (objs P) !! d = objs P !! d) as Hval.
  { intros d (o & Ho & _)%Hin. rewrite lookup_insert_ne; [done|]. intros ->. by rewrite Ha in Ho. }
  split_and!.
  - eapply hash_ok_ext; [|done]. intros d Hd. apply key_at_ext. by rewrite Hval.
  - done.
  - intros d. rewrite Hin. destruct (decide (a = d)) as [<-|]; [|by rewrite lookup_insert_ne].
    rewrite lookup_insert_eq, Ha. split; intros (o & Eo & Hr); [done|]. by injection Eo as <-.
  - intros d o. destruct (decide (a = d)) as [<-|]; [|rewrite lookup_insert_ne by done; apply Hrc].
    rewrite lookup_insert_eq. intros [= <-]. done.
  - intros d d' Hd Hd'. rewrite <-(cmp_at_ext _ (objs P)) by (by rewrite Hval). by apply Hun.
Qed.

(** The attribute with its message, before it is shared. *)
Definition with_message (st : store) (a : loc) (m : Z) (msg : TarpanMsg) : store :=
  Store (Pool (<[a:=Obj 0 m]> (objs (tarpans st))) (table (tarpans st))) (<[m:=msg]> (msgs st)).

Lemma set_new_message st a m msg :
  set_message (set_msg (tarpan_new st a) m msg) a m = Ok (with_message st a m msg).
Proof.
  unfold set_message, load_obj, set_msg, tarpan_new, with_message. cbn [tarpans msgs objs table].
  rewrite lookup_insert_eq. cbn [of_opt mbind M_bind refcnt]. by rewrite insert_insert_eq.
Qed.

(** Sharing returns an attribute that has a message: the new one, or an old one
    whose message has the same address in 32 bits. *)
Lemma tarpan_share st a m msg :
  tarpan_ready st a m →
  ∃ st' b m' msg', tarpan_intern (with_message st a m msg) a = Ok (st', b) ∧
    message st' b = Ok m' ∧ load_msg st' m' = Ok msg' ∧ held st' b.
Proof.
  intros (HP & Hsz & Ha & Hm & Hm0 & Hsh). set (st1 := with_message st a m msg).
  assert (pool_ok tarpan_hash_make tarpan_cmp (tarpans st1)) as HP1 by (by apply pool_ok_fresh).
  assert (objs (tarpans st1) !! a = Some (Obj 0 m)) as Ha1 by apply lookup_insert_eq.
  assert (message st1 a = Ok m) as Em by (unfold message, load_obj; by rewrite Ha1).
  unfold tarpan_intern. rewrite Em. cbn [mbind M_bind].
  destruct (decide (Exists (λ bo : loc * obj Z, refcnt bo.2 ≠ 0 ∧ tarpan_cmp (val bo.2) m = true)
    (map_to_list (objs (tarpans st1))))) as [Hex|Hno].
  - apply Exists_exists in Hex as ([b o] & Hb%elem_of_map_to_list & Hr & Hc). cbn [fst snd] in *.
    assert (b ≠ a) as Hba by (intros ->; rewrite Ha1 in Hb; by injection Hb as <-).
    assert (objs (tarpans st) !! b = Some o) as Hb0.
    { rewrite <-(lookup_insert_ne (objs (tarpans st)) a b (Obj 0 m)) by done. exact Hb. }
    destruct (Hsh b o Hb0 Hr) as [Hroom [msg' Hmsg]].
    destruct (intern_found _ _ (tarpans st1) a b m o HP1 Ha1 Hb Hr Hc Hroom) as (P' & -> & HP' & Eo).
    cbn [mbind M_bind]. rewrite decide_False by done. unfold free_msg. rewrite (proj2 (Z.eqb_neq m 0)) by done.
    assert (msgs st1 !! m = Some msg) as -> by apply lookup_insert_eq. cbn [mbind M_bind msgs].
    assert (val o ≠ m) as Hvm by (intros <-; by rewrite Hm in Hmsg).
    eexists _, b, (val o), msg'. split; [done|]. unfold message, load_msg, load_obj. cbn [tarpans msgs].
    rewrite Eo, lookup_insert_eq. split; [done|].
    change (msgs st1) with (<[m:=msg]> (msgs st)). unfold held. cbn [tarpans msgs].
    rewrite lookup_delete_ne, lookup_insert_ne, Hmsg by done. split; [done|]. split; [done|].
    exists (Obj (refcnt o + 1) (val o)). rewrite Eo, lookup_insert_eq. cbn [val refcnt].
    rewrite lookup_delete_ne, lookup_insert_ne, Hmsg by done. destruct HP as (_ & _ & _ & Hrc & _). specialize (Hrc b o Hb0).
    split_and!; [done|lia|eauto].
  - destruct (intern_new _ _ (tarpans st1) a m HP1 Ha1 Hsz) as (P' & -> & HP' & Eo).
    { intros c o Hc Hr. destruct (tarpan_cmp (val o) m) eqn:Ecmp; [|done]. exfalso. apply Hno, Exists_exists.
      exists (c, o). split; [by apply elem_of_map_to_list|done]. }
    cbn [mbind M_bind]. rewrite decide_True by done. cbn [mbind M_bind].
    eexists _, a, m, msg. split; [done|]. unfold message, load_msg, load_obj. cbn [tarpans msgs].
    rewrite Eo, lookup_insert_eq. split; [done|]. change (msgs st1) with (<[m:=msg]> (msgs st)).
    rewrite lookup_insert_eq. split; [done|]. split; [exact HP'|]. cbn [tarpans msgs]. exists (Obj 1 m).
    rewrite Eo, lookup_insert_eq, lookup_insert_eq. by split_and!.
Qed.

(** Giving a reference back. *)
Lemma unintern_held st b : held st b → ∃ st' r, tarpan_unintern st b = Ok (st', r).
Proof.
  intros [HP (o & Ho & Hr & [msg Hm])]. pose proof HP as (_ & _ & _ & Hrc & _). specialize (Hrc b o Ho).
  unfold tarpan_unintern, message, load_obj. rewrite Ho. cbn [of_opt mbind M_bind].
  destruct (Z.eq_dec (refcnt o) 1) as [E1|].
  - destruct (unintern_last _ _ _ b o HP Ho E1) as (P' & -> & _). cbn [mbind M_bind]. unfold free_msg. rewrite Hm.
    case_match; cbn [mbind M_bind]; eauto.
  - destruct (unintern_drop _ _ _ b o HP Ho) as (P' & -> & _); [lia|]. cbn [mbind M_bind]. eauto.
Qed.

(** ** The marks of an attribute *)

Lemma flag_bit f t : 1 <= t → CHECK_FLAG f (ATTR_FLAG_BIT t) = Z.testbit f (t - 1).
Proof.
  intros Ht. unfold CHECK_FLAG, ATTR_FLAG_BIT. rewrite Z.shiftl_1_l.
  destruct (Z.testbit f (t - 1)) eqn:E.
  - destruct (Z.eqb_spec (Z.land f (2 ^ (t - 1))) 0) as [E0|]; [|done].
    apply (f_equal (λ z, Z.testbit z (t - 1))) in E0. rewrite Z.land_spec, E, Z.pow2_bits_true, Z.bits_0 in E0 by lia. done.
  - assert (Z.land f (2 ^ (t - 1)) = 0) as ->; [|done]. apply Z.bits_inj'. intros k Hk.
    rewrite Z.land_spec, Z.bits_0, Z.pow2_bits_eqb by lia. destruct (Z.eqb_spec (t - 1) k) as [<-|]; [by rewrite E|].
    by rewrite andb_false_r.
Qed.

Lemma mark_flag t t' x :
  1 <= t → 1 <= t' →
  CHECK_FLAG (flag (mark t x)) (ATTR_FLAG_BIT t') = CHECK_FLAG (flag x) (ATTR_FLAG_BIT t') || (t =? t').
Proof.
  intros Ht Ht'. rewrite !flag_bit by done. unfold mark, ATTR_FLAG_BIT. cbn [flag set_flag].
  rewrite Z.lor_spec, Z.shiftl_1_l, Z.pow2_bits_eqb by lia. f_equal.
  destruct (Z.eqb_spec t t') as [->|]; [apply Z.eqb_refl|apply Z.eqb_neq; lia].
Qed.

Notation has x t := (CHECK_FLAG (flag x) (ATTR_FLAG_BIT t)).

Section soundness.
Context (p : peer) (unpack : list Z → option TarpanMsg).
Context (packet_received_handler : option (costs → store → wpeer → loc → M (costs * store))).
Context (new_tarpan : loc) (new_tarpan_message : Z) (past_end : M Z).

(** What holds of the attribute while it is filled: paths are well formed, a
    mark stands for a value, and until a Tarpan attribute is there the store is
    ready for one. *)
Record good_attr (x : attr) (p4 : option aspath) (t : store) : Prop := {
  good_path q : aspath_ x = Some q → path_ok 2048 q;
  good_path4 q : p4 = Some q → path_ok 2048 q;
  good_mark_path : has x BGP_ATTR_AS_PATH = true → is_Some (aspath_ x);
  good_mark_path4 : has x BGP_ATTR_AS4_PATH = true → is_Some p4;
  good_mark_aggregator : has x BGP_ATTR_AGGREGATOR = true → is_Some (extra x);
  good_mark_tarpan : has x BGP_ATTR_TARPAN = true → is_Some (tarpan_ x);
  good_ready : has x BGP_ATTR_TARPAN = false → tarpan_ready t new_tarpan new_tarpan_message;
}.

Definition good (st : parser) : Prop := good_attr (the_attr st) (as4_path st) (tarpan_store st).

(** A list of prefixes inside the message. *)
Definition packet_in (packet : bgp_nlri) (e : Z) : Prop :=
  0 <= nlri packet ∧ 0 <= nlri_length packet ∧ nlri packet + nlri_length packet <= e.

(** What also holds after an error: the Tarpan attribute is held, and the
    multiprotocol lists are inside the message. *)
Definition kept (st : parser) : Prop :=
  (∀ b, tarpan_ (the_attr st) = Some b → held (tarpan_store st) b) ∧
  packet_in (mp_update st) (endp (ibuf st)) ∧ packet_in (mp_withdraw st) (endp (ibuf st)).

Lemma good_ext x x' p4 t :
  good_attr x p4 t → aspath_ x' = aspath_ x → flag x' = flag x → tarpan_ x' = tarpan_ x →
  (is_Some (extra x) → is_Some (extra x')) → good_attr x' p4 t.
Proof. intros [] E1 E2 E3 E4. split; rewrite ?E1, ?E2, ?E3; auto. Qed.

(** Marking a plain attribute. *)
Lemma good_mark k x p4 t :
  good_attr x p4 t → 1 <= k → k ∉ [BGP_ATTR_AS_PATH; BGP_ATTR_AS4_PATH; BGP_ATTR_AGGREGATOR; BGP_ATTR_TARPAN] →
  good_attr (mark k x) p4 t.
Proof.
  intros [] Hk Hn. rewrite !not_elem_of_cons in Hn. destruct Hn as (? & ? & ? & ? & _).
  split; rewrite ?mark_flag, ?(proj2 (Z.eqb_neq k _)), ?orb_false_r by done; done.
Qed.

(** Where an attribute lies: its value is at [getp] and ends inside the
    message. *)
Definition args_ok (st : parser) (a : bgp_attr_parser_args) : Prop :=
  0 <= startp a < getp (ibuf st) ∧ 0 <= length_ a <= 4096 ∧ 0 <= total a ∧
  startp a + total a = getp (ibuf st) + length_ a ∧ startp a + total a <= endp (ibuf st).

(** What a parser of one attribute may do. *)
Record handled (a : bgp_attr_parser_args) (st st' : parser) (r : bgp_attr_parse_ret_t) : Prop := {
  handled_ok : stream_ok (ibuf st');
  handled_endp : extent (ibuf st) (ibuf st');
  handled_tarpan : kept st → kept st';
  handled_proceed : r = BGP_ATTR_PARSE_PROCEED →
    good st' ∧ advanced (ibuf st) (ibuf st') ∧ sent st' = sent st ∧
    (type a ≠ BGP_ATTR_TARPAN → marked st' BGP_ATTR_TARPAN = marked st BGP_ATTR_TARPAN);
  handled_error : r = BGP_ATTR_PARSE_ERROR → ∃ n, sent st' = sent st ++ [n];
  handled_withdraw : r = BGP_ATTR_PARSE_WITHDRAW →
    sent st' = sent st ∧ sort p = BGP_PEER_EBGP ∧ getp (ibuf st') = startp a + total a;
  handled_notify : r = BGP_ATTR_PARSE_ERROR_NOTIFYPLS → ∃ ns, sent st' = sent st ++ ns;
}.

Lemma handled_done a st st' :
  advanced (ibuf st) (ibuf st') → good st' → sent st' = sent st → (kept st → kept st') →
  (type a ≠ BGP_ATTR_TARPAN → marked st' BGP_ATTR_TARPAN = marked st BGP_ATTR_TARPAN) →
  handled a st st' BGP_ATTR_PARSE_PROCEED.
Proof. intros Hadv ????. pose proof Hadv as (? & ? & _). by split. Qed.

(** ** Malformed attributes *)

Definition lenient (t : Z) : bool :=
  existsb (Z.eqb t) [BGP_ATTR_AS4_AGGREGATOR; BGP_ATTR_AGGREGATOR; BGP_ATTR_ATOMIC_AGGREGATE].

Lemma notify_data_ok st code sub from n :
  stream_ok (ibuf st) → 0 <= from → 0 <= n → from + n <= endp (ibuf st) →
  ∃ b, bgp_notify_send_with_data st code sub from n = Ok (set_sent st (sent st ++ [Notify code sub b])).
Proof.
  intros (? & ? & ? & _) ???. unfold bgp_notify_send_with_data.
  destruct (Z.ltb_spec 0 n); [rewrite rdn_in_bounds by lia|]; cbn [mbind M_bind]; eauto.
Qed.

(** An error in the attribute [a], found in the state [st] that was [st0] when
    its parser was called. *)
Lemma malformed_cases st0 st a sub n :
  stream_ok (ibuf st) → extent (ibuf st0) (ibuf st) → data (ibuf st) = data (ibuf st0) → sent st = sent st0 →
  args_ok st0 a → n = 0 ∨ n = total a → (kept st0 → kept st) →
  (lenient (type a) = true → good st ∧ marked st BGP_ATTR_TARPAN = marked st0 BGP_ATTR_TARPAN) →
  ∃ st' r, bgp_attr_malformed p st a sub n = Ok (st', r) ∧ handled a st0 st' r ∧
    (r = BGP_ATTR_PARSE_ERROR_NOTIFYPLS → sent st' = sent st0 ∧ sort p = BGP_PEER_EBGP ∧ getp (ibuf st') = startp a + total a).
Proof.
  intros Hs He Hd Hsent (? & ? & ? & Hst & Hend) Hn Hheld Hlen. unfold bgp_attr_malformed, is_sort.
  assert (0 <= n <= total a) as Hn' by (destruct Hn; lia).
  destruct (bool_decide_reflect (sort p = BGP_PEER_EBGP)) as [Hebgp|]; cbn [negb].
  2: { destruct (notify_data_ok st BGP_NOTIFY_UPDATE_ERR sub (startp a) n Hs) as [b ->]; [lia..|]. cbn [mbind M_bind].
       eexists _, _. split; [done|]. split; [|done]. split; try done. cbn. rewrite Hsent. eauto. }
  rewrite set_getp_valid by (done || lia). cbn [mbind M_bind]. set (st1 := set_ibuf st _).
  assert (stream_ok (ibuf st1)) as Hs1 by (apply set_getp_ok; [done|lia]).
  fold (lenient (type a)). destruct (lenient (type a)) eqn:El.
  { destruct (Hlen eq_refl) as [Hg Hm]. eexists _, _. split; [done|]. split; [|done]. apply handled_done; [|done..].
    split; [done|]. cbn. rewrite Hd. split_and!; [apply He|apply He|lia|done]. }
  case_match.
  { destruct (notify_data_ok st1 BGP_NOTIFY_UPDATE_ERR sub (startp a) n Hs1) as [b ->]; [cbn; lia..|]. cbn [mbind M_bind].
    eexists _, _. split; [done|]. split; [|done]. split; try done. cbn. rewrite Hsent. eauto. }
  case_match; eexists _, _; (split; [done|]); (split; [|done]); split; try done. exists []. by rewrite app_nil_r.
Qed.

Lemma malformed_ok st0 st a sub n :
  stream_ok (ibuf st) → extent (ibuf st0) (ibuf st) → data (ibuf st) = data (ibuf st0) → sent st = sent st0 →
  args_ok st0 a → n = 0 ∨ n = total a → (kept st0 → kept st) →
  (lenient (type a) = true → good st ∧ marked st BGP_ATTR_TARPAN = marked st0 BGP_ATTR_TARPAN) →
  ∃ st' r, bgp_attr_malformed p st a sub n = Ok (st', r) ∧ handled a st0 st' r.
Proof.
  intros H1 H2 H3 H4 H5 H6 H7 H8. destruct (malformed_cases st0 st a sub n H1 H2 H3 H4 H5 H6 H7 H8) as (st' & r & E & Hh & _). eauto.
Qed.

(** ** The attributes *)

(** [h] handles the attributes of a type in [T]. *)
Definition handles (T : Z → Prop) (h : parser → bgp_attr_parser_args → M (parser * bgp_attr_parse_ret_t)) : Prop :=
  ∀ st a, stream_ok (ibuf st) → good st → args_ok st a → T (type a) →
  ∃ st' r, h st a = Ok (st', r) ∧ handled a st st' r.

Lemma malformed_here st a sub n :
  stream_ok (ibuf st) → good st → args_ok st a → n = 0 ∨ n = total a →
  ∃ st' r, bgp_attr_malformed p st a sub n = Ok (st', r) ∧ handled a st st' r.
Proof. intros. by apply malformed_ok. Qed.

(** The parser has read the whole value. *)
Lemma read_all st a :
  stream_ok (ibuf st) → args_ok st a → advanced (ibuf st) (set_getp (ibuf st) (getp (ibuf st) + length_ a)).
Proof. intros Hs (? & ? & ? & ? & ?). apply advanced_set; [done|lia]. Qed.

(** A parser that reads a value of a fixed length [n], stores it with [f] and
    marks the attribute. *)
Lemma fixed_done st a k n f :
  stream_ok (ibuf st) → good st → args_ok st a → type a = k → length_ a = n → 1 <= k →
  k ∉ [BGP_ATTR_AS_PATH; BGP_ATTR_AS4_PATH; BGP_ATTR_AGGREGATOR; BGP_ATTR_TARPAN] →
  (∀ x, aspath_ (f x) = aspath_ x ∧ flag (f x) = flag x ∧ tarpan_ (f x) = tarpan_ x ∧
        (is_Some (extra x) → is_Some (extra (f x)))) →
  handled a st (on_attr (set_ibuf st (set_getp (ibuf st) (getp (ibuf st) + n))) (λ x, mark k (f x)))
    BGP_ATTR_PARSE_PROCEED.
Proof.
  intros Hs Hg Ha Ht <- Hk Hn Hf. apply handled_done; [by apply read_all| |done| |].
  - apply good_mark; [|done..]. destruct (Hf (the_attr st)) as (? & ? & ? & ?). by eapply good_ext.
  - intros [Hh Hn']. split; [|exact Hn']. intros b Eb. destruct (Hf (the_attr st)) as (_ & _ & Et & _). apply Hh. rewrite <-Et. exact Eb.
  - intros Htt. unfold marked. cbn [the_attr on_attr set_the_attr set_ibuf]. rewrite mark_flag by done.
    rewrite Ht in Htt. rewrite (proj2 (Z.eqb_neq k _)), orb_false_r by done.
    by destruct (Hf (the_attr st)) as (_ & -> & _ & _).
Qed.

Ltac not_listed := rewrite !not_elem_of_cons; (split_and!; [done..|apply not_elem_of_nil]).

Lemma origin_ok : handles (λ t, t = BGP_ATTR_ORIGIN) (bgp_attr_origin p).
Proof.
  intros st a Hs Hg Ha Ht. unfold bgp_attr_origin. destruct (Z.eqb_spec (length_ a) 1) as [El|]; cbn [negb].
  2: { apply malformed_here; auto. }
  pose proof Ha as (? & ? & ? & ? & ?). rewrite getc_ok by (done || lia). cbn [mbind M_bind].
  set (c := be_value (ahead (ibuf st) 1)).
  destruct (_ && _ && _).
  - apply malformed_ok; auto; [apply set_getp_ok; [done|]; lia|by rewrite Ht].
  - eexists _, _. split; [done|]. by apply (fixed_done st a BGP_ATTR_ORIGIN 1 (λ r, set_origin r c)); try not_listed.
Qed.

Lemma nexthop_ok : handles (λ t, t = BGP_ATTR_NEXT_HOP) (bgp_attr_nexthop p).
Proof.
  intros st a Hs Hg Ha Ht. unfold bgp_attr_nexthop. destruct (Z.eqb_spec (length_ a) 4) as [El|]; cbn [negb].
  2: { apply malformed_here; auto. }
  pose proof Ha as (? & ? & ? & ? & ?). rewrite get_ipv4_ok by (done || lia). cbn [mbind M_bind].
  destruct (_ || _ || _).
  - apply malformed_ok; auto. apply set_getp_ok; [done|]. lia.
  - eexists _, _. split; [done|].
    by apply (fixed_done st a BGP_ATTR_NEXT_HOP 4 (λ x, set_nexthop x (ahead (ibuf st) 4))); try not_listed.
Qed.

Lemma med_ok : handles (λ t, t = BGP_ATTR_MULTI_EXIT_DISC) (bgp_attr_med p).
Proof.
  intros st a Hs Hg Ha Ht. unfold bgp_attr_med. destruct (Z.eqb_spec (length_ a) 4) as [El|]; cbn [negb].
  2: { apply malformed_here; auto. }
  pose proof Ha as (? & ? & ? & ? & ?). rewrite getl_ok by (done || lia). cbn [mbind M_bind].
  eexists _, _. split; [done|].
  by apply (fixed_done st a BGP_ATTR_MULTI_EXIT_DISC 4 (λ x, set_med x (be_value (ahead (ibuf st) 4)))); try not_listed.
Qed.

Lemma local_pref_ok : handles (λ t, t = BGP_ATTR_LOCAL_PREF) (bgp_attr_local_pref p).
Proof.
  intros st a Hs Hg Ha Ht. unfold bgp_attr_local_pref. destruct (Z.eqb_spec (length_ a) 4) as [El|]; cbn [negb].
  2: { apply malformed_here; auto. }
  pose proof Ha as (? & ? & ? & ? & ?). destruct (is_sort p BGP_PEER_EBGP).
  - rewrite forward_ok by (done || lia). cbn [mbind M_bind]. eexists _, _. split; [done|].
    apply handled_done; try done. by apply read_all.
  - rewrite getl_ok by (done || lia). cbn [mbind M_bind]. eexists _, _. split; [done|].
    by apply (fixed_done st a BGP_ATTR_LOCAL_PREF 4 (λ x, set_local_pref x (be_value (ahead (ibuf st) 4)))); try not_listed.
Qed.

Lemma set_getp_id s : set_getp s (getp s) = s.
Proof. by destruct s. Qed.

Lemma atomic_ok : handles (λ t, t = BGP_ATTR_ATOMIC_AGGREGATE) (bgp_attr_atomic p).
Proof.
  intros st a Hs Hg Ha Ht. unfold bgp_attr_atomic. destruct (Z.eqb_spec (length_ a) 0) as [El|]; cbn [negb].
  2: { apply malformed_here; auto. }
  eexists _, _. split; [done|].
  pose proof (fixed_done st a BGP_ATTR_ATOMIC_AGGREGATE 0 (λ x, x) Hs Hg Ha Ht El) as H.
  rewrite Z.add_0_r, set_getp_id in H. destruct st. apply H; [done|not_listed|done].
Qed.

(** Writing to the lazily allocated part. *)
Lemma good_extra st f : good st → good (on_extra st f).
Proof. intros Hg. eapply good_ext; [exact Hg|done..]. Qed.

Lemma extra_ok st a k n f :
  stream_ok (ibuf st) → good st → args_ok st a → type a = k → length_ a = n → 1 <= k →
  k ∉ [BGP_ATTR_AS_PATH; BGP_ATTR_AS4_PATH; BGP_ATTR_AGGREGATOR; BGP_ATTR_TARPAN] →
  handled a st (on_attr (on_extra (set_ibuf st (set_getp (ibuf st) (getp (ibuf st) + n))) f) (mark k))
    BGP_ATTR_PARSE_PROCEED.
Proof.
  intros Hs Hg Ha Ht Hl Hk Hn.
  apply (fixed_done st a k n (λ x, set_extra x (Some (f (bgp_attr_extra_get x)))) Hs Hg Ha Ht Hl Hk Hn).
  intros x. split_and!; done.
Qed.

Lemma originator_ok : handles (λ t, t = BGP_ATTR_ORIGINATOR_ID) (bgp_attr_originator_id p).
Proof.
  intros st a Hs Hg Ha Ht. unfold bgp_attr_originator_id. destruct (Z.eqb_spec (length_ a) 4) as [El|]; cbn [negb].
  2: { apply malformed_here; auto. }
  pose proof Ha as (? & ? & ? & ? & ?). rewrite get_ipv4_ok by (done || lia). cbn [mbind M_bind].
  eexists _, _. split; [done|]. apply extra_ok; try done. not_listed.
Qed.

Lemma good_mark_value k x p4 t :
  good_attr x p4 t → 1 <= k → (k = BGP_ATTR_AS_PATH → is_Some (aspath_ x)) → (k = BGP_ATTR_AS4_PATH → is_Some p4) →
  (k = BGP_ATTR_AGGREGATOR → is_Some (extra x)) → k ≠ BGP_ATTR_TARPAN → good_attr (mark k x) p4 t.
Proof.
  intros [] Hk H1 H2 H3 H4.
  split; rewrite ?mark_flag by done; try done; rewrite ?orb_true_iff, ?Z.eqb_eq; try (intros [?|?]; [by auto|]).
  - by apply H1.
  - by apply H2.
  - by apply H3.
  - done.
  - rewrite orb_false_iff. by intros [? _]; auto.
Qed.

Lemma marked_other k st : 1 <= k → k ≠ BGP_ATTR_TARPAN → marked (on_attr st (mark k)) BGP_ATTR_TARPAN = marked st BGP_ATTR_TARPAN.
Proof.
  intros Hk Hn. unfold marked. cbn [the_attr on_attr set_the_attr]. rewrite mark_flag by done.
  by rewrite (proj2 (Z.eqb_neq _ _)), orb_false_r.
Qed.

Lemma aggregator_ok : handles (λ t, t = BGP_ATTR_AGGREGATOR) (bgp_attr_aggregator p).
Proof.
  intros st a Hs Hg Ha Ht. unfold bgp_attr_aggregator. set (st1 := on_extra st (λ e, e)).
  assert (good st1) as Hg1 by (by apply good_extra).
  destruct (Z.eqb_spec (length_ a) (if as4_peer p then 8 else 6)) as [El|]; cbn [negb].
  2: { apply (malformed_ok st st1 a); auto. }
  pose proof Ha as (? & ? & ? & ? & Hend). change (ibuf st1) with (ibuf st).
  set (n := if as4_peer p then 4 else 2).
  assert (∃ v, (if as4_peer p then stream_getl (ibuf st) else stream_getw (ibuf st)) =
               Ok (set_getp (ibuf st) (getp (ibuf st) + n), v) ∧ n + 4 = length_ a) as (v & -> & Hn).
  { subst n. destruct (as4_peer p).
    - rewrite getl_ok by (done || lia). eexists. split; [done|lia].
    - rewrite getw_ok by (done || lia). eexists. split; [done|lia]. }
  assert (0 < n) by (subst n; by destruct (as4_peer p)). cbn [mbind M_bind].
  rewrite get_ipv4_ok by (try apply set_getp_ok; at_stream; try done; lia). cbn [mbind M_bind]. at_stream.
  eexists _, _. split; [done|]. apply handled_done; [| |done|done|].
  - replace (getp (ibuf st) + n + 4) with (getp (ibuf st) + length_ a) by lia. by apply read_all.
  - apply good_mark_value; try done. eapply good_ext; [exact Hg1|done..].
  - intros _. by rewrite marked_other.
Qed.

Lemma as4_aggregator_ok : handles (λ t, t = BGP_ATTR_AS4_AGGREGATOR) (bgp_attr_as4_aggregator p).
Proof.
  intros st a Hs Hg Ha Ht. unfold bgp_attr_as4_aggregator. destruct (Z.eqb_spec (length_ a) 8) as [El|]; cbn [negb].
  2: { apply malformed_here; auto. }
  pose proof Ha as (? & ? & ? & ? & Hend). rewrite getl_ok by (done || lia). cbn [mbind M_bind].
  rewrite get_ipv4_ok by (try apply set_getp_ok; at_stream; try done; lia). cbn [mbind M_bind]. at_stream.
  eexists _, _. split; [done|]. apply handled_done; [| |done|done|].
  - replace (getp (ibuf st) + 4 + 4) with (getp (ibuf st) + length_ a) by lia. by apply read_all.
  - by apply good_mark_value.
  - intros _. by rewrite marked_other.
Qed.

Lemma parse_aspath_ok s n u :
  stream_ok s → 0 <= n <= 4096 →
  ∃ s' r, parse_aspath s n u = Ok (s', r) ∧ stream_ok s' ∧ moved s s' ∧
    ∀ q, r = Some q → path_ok 2048 q ∧ getp s' = getp s + n.
Proof.
  intros Hs Hn. unfold parse_aspath. destruct (negb _); [eexists _, _; split; [done|]; split; [done|]; split; [apply moved_refl|done]|].
  destruct (parse_segments_ok s n u Hs Hn) as (s' & r & -> & Hs' & Hm & Hr). cbn [mbind M_bind].
  destruct r as [segs|]; [|by eexists _, _].
  destruct (Hr _ eq_refl) as [Hsegs Hg]. destruct (update_ok 2048 segs Hsegs) as (q & -> & _ & Hq); [done|].
  cbn [mbind M_bind]. eexists _, _. split; [done|]. split; [done|]. split; [done|]. by intros ? [= <-].
Qed.

Lemma aspath_attr_ok : handles (λ t, t = BGP_ATTR_AS_PATH) (bgp_attr_aspath p).
Proof.
  intros st a Hs Hg Ha Ht. unfold bgp_attr_aspath. pose proof Ha as (? & ? & ? & ? & Hend).
  destruct (parse_aspath_ok (ibuf st) (length_ a) (as4_peer p) Hs) as (s' & r & -> & Hs' & [g ->] & Hr); [done|].
  cbn [mbind M_bind]. destruct r as [q|].
  2: { apply malformed_ok; auto. by rewrite Ht. }
  destruct (Hr _ eq_refl) as [Hq Eg]. cbn [set_getp getp] in Eg. subst g.
  eexists _, _. split; [done|]. apply handled_done; [by apply read_all| |done|done|].
  - apply good_mark_value; try done. destruct Hg. split; try done. by intros ? [= <-].
  - intros _. by rewrite marked_other.
Qed.

Lemma as4_path_attr_ok : handles (λ t, t = BGP_ATTR_AS4_PATH) (bgp_attr_as4_path p).
Proof.
  intros st a Hs Hg Ha Ht. unfold bgp_attr_as4_path. pose proof Ha as (? & ? & ? & ? & Hend).
  destruct (parse_aspath_ok (ibuf st) (length_ a) true Hs) as (s' & r & -> & Hs' & [g ->] & Hr); [done|].
  cbn [mbind M_bind]. destruct r as [q|].
  2: { apply malformed_ok; auto. by rewrite Ht. }
  destruct (Hr _ eq_refl) as [Hq Eg]. cbn [set_getp getp] in Eg. subst g.
  eexists _, _. split; [done|]. apply handled_done; [by apply read_all| |done|done|].
  - apply good_mark_value; try done. destruct Hg. split; try done. by intros ? [= <-].
  - intros _. by rewrite marked_other.
Qed.

Lemma pnt_ok s : stream_ok s → stream_pnt s = Ok (drop (Z.to_nat (getp s)) (data s)).
Proof. intros Hs. unfold stream_pnt. by rewrite sane_ok. Qed.

Lemma community_ok : handles (λ t, t = BGP_ATTR_COMMUNITIES) (bgp_attr_community p).
Proof.
  intros st a Hs Hg Ha Ht. unfold bgp_attr_community. pose proof Ha as (? & ? & ? & ? & Hend).
  destruct (Z.eqb_spec (length_ a) 0) as [El|].
  { eexists _, _. split; [done|]. apply handled_done; [by apply advanced_refl| |done|done|done]. by eapply good_ext. }
  rewrite pnt_ok by done. cbn [mbind M_bind].
  assert (∃ c, parse_community (drop (Z.to_nat (getp (ibuf st))) (data (ibuf st))) (length_ a) = Ok c) as [c ->].
  { unfold parse_community. case_match; [eauto|]. rewrite pnt_bytes by (done || lia). cbn [mbind M_bind]. eauto. }
  cbn [mbind M_bind]. rewrite forward_ok by (done || lia). cbn [mbind M_bind]. destruct c as [c|].
  2: { apply malformed_ok; auto; [apply set_getp_ok; [done|]; lia|by rewrite Ht]. }
  eexists _, _. split; [done|].
  by apply (fixed_done st a BGP_ATTR_COMMUNITIES (length_ a) (λ x, set_community x (Some c))); try not_listed.
Qed.

Lemma cluster_list_ok : handles (λ t, t = BGP_ATTR_CLUSTER_LIST) (bgp_attr_cluster_list p).
Proof.
  intros st a Hs Hg Ha Ht. unfold bgp_attr_cluster_list. pose proof Ha as (? & ? & ? & ? & Hend).
  destruct (negb _); [apply malformed_here; auto|].
  rewrite pnt_ok by done. cbn [mbind M_bind]. rewrite pnt_bytes by (done || lia). cbn [mbind M_bind].
  rewrite forward_ok by (done || lia). cbn [mbind M_bind]. eexists _, _. split; [done|].
  apply (extra_ok st a BGP_ATTR_CLUSTER_LIST (length_ a)); try done. not_listed.
Qed.

Lemma ext_communities_ok : handles (λ t, t = BGP_ATTR_EXT_COMMUNITIES) (bgp_attr_ext_communities p).
Proof.
  intros st a Hs Hg Ha Ht. unfold bgp_attr_ext_communities. pose proof Ha as (? & ? & ? & ? & Hend).
  destruct (Z.eqb_spec (length_ a) 0) as [El|].
  { eexists _, _. split; [done|]. destruct (extra (the_attr st)); (apply handled_done; [by apply advanced_refl| |done|done|done]); [|done].
    by apply good_extra. }
  rewrite pnt_ok by done. cbn [mbind M_bind].
  assert (∃ c, parse_values (drop (Z.to_nat (getp (ibuf st))) (data (ibuf st))) (length_ a) = Ok c) as [c ->].
  { unfold parse_values. case_match; [eauto|]. rewrite pnt_bytes by (done || lia). cbn [mbind M_bind]. eauto. }
  cbn [mbind M_bind]. rewrite forward_ok by (done || lia). cbn [mbind M_bind]. destruct c as [c|].
  2: { apply malformed_ok; auto; [apply set_getp_ok; [done|]; lia|by rewrite Ht]. }
  eexists _, _. split; [done|]. apply (extra_ok st a BGP_ATTR_EXT_COMMUNITIES (length_ a)); try done. not_listed.
Qed.

(** ** Prefix lists *)

Lemma sanity_loop_ok fuel d af pnt end_ :
  bytes_ok d → 0 <= pnt → end_ <= zlen d → end_ - pnt <= Z.of_nat fuel →
  ∃ r, sanity_loop fuel d af pnt end_ = Ok r.
Proof.
  intros Hd. revert pnt. induction fuel as [|fuel IH]; intros pnt Hp He Hf; cbn [sanity_loop];
    (destruct (Z.leb_spec end_ pnt); [eauto|]); [lia|].
  destruct (rd_in_bounds d pnt) as [b Eb]; [lia|]. rewrite Eb. cbn [mbind M_bind].
  apply rd_inv in Eb as [_ Eb]. assert (is_byte b) as Hb by (by eapply (Forall_lookup_1 _ d)). unfold is_byte in Hb.
  destruct (_ || _); [eauto|]. destruct (_ <? _); [eauto|].
  assert (0 <= PSIZE b) by (unfold PSIZE; apply Z.div_pos; lia). apply IH; lia.
Qed.

Lemma sanity_check_ok st af pnt n :
  stream_ok (ibuf st) → 0 <= pnt → 0 <= n → pnt + n <= endp (ibuf st) →
  ∃ st' r, bgp_nlri_sanity_check st af pnt n = Ok (st', r) ∧
    ((r = 0 ∧ st' = st) ∨ (r = -1 ∧ st' = bgp_notify_send st BGP_NOTIFY_UPDATE_ERR BGP_NOTIFY_UPDATE_INVAL_NETWORK)).
Proof.
  intros (? & ? & ? & _ & Hb) ???. unfold bgp_nlri_sanity_check.
  destruct (sanity_loop_ok (Z.to_nat n) (data (ibuf st)) af pnt (pnt + n) Hb) as [r ->]; [lia..|]. cbn [mbind M_bind].
  destruct r; [case_match|]; eexists _, _; (split; [done|]); auto.
Qed.

(** The prefix list of a multiprotocol attribute, except for VPN routes. *)
Lemma mp_sanity_ok st saf af pnt n :
  stream_ok (ibuf st) → 0 <= pnt → 0 <= n → pnt + n <= endp (ibuf st) →
  ∃ st' r, (if negb (saf =? SAFI_MPLS_LABELED_VPN) then bgp_nlri_sanity_check st af pnt n else Ok (st, 0)) = Ok (st', r) ∧
    ((r = 0 ∧ st' = st) ∨ (r = -1 ∧ st' = bgp_notify_send st BGP_NOTIFY_UPDATE_ERR BGP_NOTIFY_UPDATE_INVAL_NETWORK)).
Proof. intros. destruct (negb _); [by apply sanity_check_ok|]. eexists _, _. split; [done|]. by left. Qed.

(** ** Multiprotocol attributes *)

(** An error that the loop reports. *)
Lemma notify_pls a st st' ns :
  stream_ok (ibuf st') → extent (ibuf st) (ibuf st') → sent st' = sent st ++ ns →
  (kept st → kept st') →
  handled a st st' BGP_ATTR_PARSE_ERROR_NOTIFYPLS.
Proof. intros. split; try done. eauto. Qed.

Lemma mp_unreach_ok : handles (λ t, t = BGP_ATTR_MP_UNREACH_NLRI) bgp_mp_unreach_parse.
Proof.
  intros st a Hs Hg Ha Ht. unfold bgp_mp_unreach_parse. pose proof Ha as (? & ? & ? & ? & Hend).
  rewrite readable_ok by done. rewrite (proj2 (Z.ltb_ge _ (length_ a))) by lia. cbn [orb].
  destruct (Z.ltb_spec (length_ a) BGP_MP_UNREACH_MIN_SIZE) as [|Hmin]; unfold BGP_MP_UNREACH_MIN_SIZE in *.
  { eexists _, _. split; [done|]. apply (notify_pls _ _ _ []); try done. by rewrite app_nil_r. }
  rewrite getw_ok by (done || lia). cbn [mbind M_bind].
  rewrite getc_ok by (try apply set_getp_ok; at_stream; try done; lia). cbn [mbind M_bind]. at_stream.
  unfold u16. rewrite (Z.mod_small (length_ a - 3)) by lia. set (s := set_getp (ibuf st) (getp (ibuf st) + 2 + 1)).
  assert (stream_ok s) as Hss by (apply set_getp_ok; [done|lia]).
  destruct (mp_sanity_ok (set_ibuf st s) (be_value (ahead (set_getp (ibuf st) (getp (ibuf st) + 2)) 1))
    (be_value (ahead (ibuf st) 2)) (getp (ibuf st) + 2 + 1) (length_ a - 3)) as (st' & r & -> & Hr);
    [done|lia..|cbn; lia|]. cbn [mbind M_bind].
  destruct Hr as [[-> ->]|[-> ->]]; cbn [Z.ltb Z.compare].
  2: { eexists _, _. split; [done|]. by eapply notify_pls. }
  rewrite forward_ok by (try done; subst s; at_stream; lia). cbn [mbind M_bind]. eexists _, _. split; [done|].
  apply handled_done; [| |done| |].
  - subst s. at_stream. replace (getp (ibuf st) + 2 + 1 + (length_ a - 3)) with (getp (ibuf st) + length_ a) by lia.
    by apply read_all.
  - by apply good_mark_value.
  - intros (Hh & Hu & _). split; [exact Hh|]. split; [exact Hu|]. unfold packet_in. cbn [nlri nlri_length mp_withdraw on_attr set_the_attr set_ibuf set_mp_withdraw ibuf].
    subst s. at_stream. lia.
  - intros _. by rewrite marked_other.
Qed.

(** Only values of the attribute change, not its marks, paths or Tarpan
    part. *)
Definition fills (st st' : parser) : Prop :=
  as4_path st' = as4_path st ∧ tarpan_store st' = tarpan_store st ∧ sent st' = sent st ∧
  mp_update st' = mp_update st ∧ mp_withdraw st' = mp_withdraw st ∧
  aspath_ (the_attr st') = aspath_ (the_attr st) ∧ flag (the_attr st') = flag (the_attr st) ∧
  tarpan_ (the_attr st') = tarpan_ (the_attr st) ∧
  (is_Some (extra (the_attr st)) → is_Some (extra (the_attr st'))).

Lemma fills_trans st1 st2 st3 : fills st1 st2 → fills st2 st3 → fills st1 st3.
Proof.
  intros (? & ? & ? & ? & ? & ? & ? & ? & ?) (? & ? & ? & ? & ? & ? & ? & ? & ?). split_and!; try congruence. auto.
Qed.

Lemma fills_good st st' : fills st st' → good st → good st'.
Proof.
  intros (E1 & E2 & _ & _ & _ & ? & ? & ? & ?) Hg. unfold good. rewrite E1, E2. by eapply good_ext; [exact Hg|..].
Qed.

Lemma fills_kept st st' : fills st st' → endp (ibuf st') = endp (ibuf st) → kept st → kept st'.
Proof. intros (_ & E1 & _ & E2 & E3 & _ & _ & E4 & _) E. unfold kept. by rewrite E1, E2, E3, E4, E. Qed.

Lemma fills_extra st s f : fills st (on_extra (set_ibuf st s) f).
Proof. by split_and!. Qed.

Lemma mp_nexthop_ok st n :
  stream_ok (ibuf st) → mp_nexthop_len (bgp_attr_extra_get (the_attr st)) = n → 0 <= n → getp (ibuf st) + n <= endp (ibuf st) →
  ∃ st' (b : bool), mp_reach_nexthop st = Ok (st', b) ∧ fills st st' ∧
    ibuf st' = if b then set_getp (ibuf st) (getp (ibuf st) + n) else ibuf st.
Proof.
  intros Hs En Hn He. pose proof Hs as (? & _). unfold mp_reach_nexthop. rewrite En.
  destruct (Z.eqb_spec n 4) as [->|].
  { rewrite (stream_get_ok (ibuf st) 4) by done. cbn [mbind M_bind]. eexists _, _. split; [done|]. split; [|done].
    eapply fills_trans; [apply fills_extra|]. unfold on_attr. case_match; by split_and!. }
  destruct (Z.eqb_spec n 12) as [->|].
  { rewrite getl_ok by (done || lia). cbn [mbind M_bind].
    rewrite getl_ok by (try apply set_getp_ok; at_stream; try done; lia). cbn [mbind M_bind]. at_stream.
    rewrite (stream_get_ok _ 4) by (try apply set_getp_ok; at_stream; try done; lia). cbn [mbind M_bind]. at_stream.
    eexists _, _. split; [done|]. split; [apply fills_extra|]. cbn [ibuf on_extra set_the_attr set_ibuf]. f_equal. lia. }
  destruct (Z.eqb_spec n 16) as [->|].
  { rewrite (stream_get_ok (ibuf st) 16) by done. cbn [mbind M_bind]. eexists _, _. split; [done|]. by split; [apply fills_extra|]. }
  destruct (Z.eqb_spec n 32) as [->|].
  { rewrite (stream_get_ok (ibuf st) 16) by (done || lia). cbn [mbind M_bind].
    rewrite (stream_get_ok _ 16) by (try apply set_getp_ok; at_stream; try done; lia). cbn [mbind M_bind]. at_stream.
    eexists _, _. split; [done|]. case_match; (split; [|cbn [ibuf on_extra set_the_attr set_ibuf]; f_equal; lia]); by split_and!. }
  eexists _, _. split; [done|]. by split.
Qed.

(** [LEN_LEFT] after [k] bytes. *)
Lemma len_left a start s k : getp s = start + k → 0 <= k <= length_ a → length_ a <= 4096 → LEN_LEFT a start s = length_ a - k.
Proof.
  intros E ??. unfold LEN_LEFT, u64. rewrite E, (Z.mod_small (start + k - start)) by lia. rewrite Z.mod_small; lia.
Qed.

Lemma mp_reach_nlri_ok st a af saf n st1 :
  stream_ok (ibuf st) → good st → args_ok st a → type a = BGP_ATTR_MP_REACH_NLRI → 5 <= length_ a →
  0 <= n <= length_ a - 4 → fills st st1 → ibuf st1 = set_getp (ibuf st) (getp (ibuf st) + (4 + n)) →
  ∃ st' r, mp_reach_nlri st1 a (getp (ibuf st)) af saf = Ok (st', r) ∧ handled a st st' r.
Proof.
  intros Hs Hg Ha Ht Hmin Hn Hf Eb. pose proof Ha as (? & ? & ? & ? & Hend).
  pose proof Hf as (_ & _ & Hsent & _). unfold mp_reach_nlri. rewrite Eb.
  rewrite (len_left _ _ _ (4 + n)) by (at_stream; lia). destruct (Z.eqb_spec (length_ a - (4 + n)) 0).
  { eexists _, _. split; [done|]. apply (notify_pls _ _ _ []); rewrite ?app_nil_r; [|by rewrite Eb|done|by apply fills_kept; [|rewrite Eb]].
    rewrite Eb. apply set_getp_ok; [done|lia]. }
  rewrite getc_ok by (try apply set_getp_ok; at_stream; try done; lia). cbn [mbind M_bind]. at_stream.
  replace (getp (ibuf st) + (4 + n) + 1) with (getp (ibuf st) + (5 + n)) by lia.
  rewrite (len_left _ _ _ (5 + n)) by (at_stream; lia).
  set (s := set_getp (ibuf st) (getp (ibuf st) + (5 + n))).
  assert (stream_ok s) as Hss by (apply set_getp_ok; [done|lia]).
  unfold u16. rewrite (Z.mod_small (length_ a - (5 + n))) by lia. rewrite readable_ok by done. subst s. at_stream.
  rewrite (proj2 (Z.ltb_ge _ (length_ a - (5 + n)))) by lia. rewrite orb_false_r.
  destruct (Z.eqb_spec (length_ a - (5 + n)) 0).
  { eexists _, _. split; [done|]. apply (notify_pls _ _ _ []); rewrite ?app_nil_r; try done. intros Hk. by apply (fills_kept st (set_ibuf st1 (set_getp (ibuf st) (getp (ibuf st) + (5 + n))))). }
  destruct (mp_sanity_ok (set_ibuf st1 (set_getp (ibuf st) (getp (ibuf st) + (5 + n)))) saf af
    (getp (ibuf st) + (5 + n)) (length_ a - (5 + n))) as (st' & r & -> & Hr); [done|lia..|cbn; lia|]. cbn [mbind M_bind].
  destruct Hr as [[-> ->]|[-> ->]]; cbn [Z.ltb Z.compare].
  2: { eexists _, _. split; [done|]. eapply notify_pls; [done|done| |by apply (fills_kept st (set_ibuf st1 (set_getp (ibuf st) (getp (ibuf st) + (5 + n)))))]. cbn. by rewrite Hsent. }
  rewrite forward_ok by (try done; at_stream; lia). cbn [mbind M_bind]. at_stream. eexists _, _. split; [done|].
  apply handled_done; [| |done| |].
  - replace (getp (ibuf st) + (5 + n) + (length_ a - (5 + n))) with (getp (ibuf st) + length_ a) by lia. by apply read_all.
  - apply good_mark_value; try done. by eapply (fills_good st st1).
  - intros Hk. apply (fills_kept st (set_ibuf st1 (set_getp (ibuf st) (getp (ibuf st) + (5 + n)))) Hf eq_refl) in Hk as (Hh & _ & Hw).
    split; [exact Hh|]. split; [|exact Hw]. unfold packet_in.
    cbn [nlri nlri_length mp_update on_attr set_the_attr set_ibuf set_mp_update ibuf]. at_stream. lia.
  - intros _. rewrite marked_other by done. unfold marked. cbn. by destruct Hf as (_ & _ & _ & _ & _ & _ & -> & _).
Qed.

Lemma mp_reach_ok : handles (λ t, t = BGP_ATTR_MP_REACH_NLRI) bgp_mp_reach_parse.
Proof.
  intros st0 a Hs0 Hg0 Ha0 Ht. unfold bgp_mp_reach_parse. set (st := on_extra st0 (λ e, e)).
  assert (stream_ok (ibuf st)) as Hs by done. assert (good st) as Hg by (by apply good_extra).
  assert (args_ok st a) as Ha by done. pose proof Ha as (? & ? & ? & ? & Hend).
  assert (∀ st' r, handled a st st' r → handled a st0 st' r) as Hback by (intros st' r []; by split).
  unfold stream_get_getp. rewrite sane_ok by done. cbn [mbind M_bind].
  rewrite readable_ok by done. rewrite (proj2 (Z.ltb_ge _ (length_ a))) by lia. cbn [orb].
  destruct (Z.ltb_spec (length_ a) BGP_MP_REACH_MIN_SIZE) as [|Hmin].
  { eexists _, _. split; [done|]. apply (notify_pls _ _ _ []); try done. by rewrite app_nil_r. }
  pose proof Hmin as Hmin'. unfold BGP_MP_REACH_MIN_SIZE in Hmin'.
  rewrite getw_ok by (done || lia). cbn [mbind M_bind].
  rewrite getc_ok by (try apply set_getp_ok; at_stream; try done; lia). cbn [mbind M_bind]. at_stream.
  rewrite getc_ok by (try apply set_getp_ok; at_stream; try done; lia). cbn [mbind M_bind]. at_stream.
  set (n := be_value (ahead (set_getp (ibuf st) (getp (ibuf st) + 2 + 1)) 1)).
  assert (is_byte n) as Hn by (apply ahead_byte; [apply set_getp_ok; [done|]; lia|at_stream; lia]). unfold is_byte in Hn.
  replace (getp (ibuf st) + 2 + 1 + 1) with (getp (ibuf st) + 4) by lia. rewrite (len_left _ _ _ 4) by (at_stream; lia).
  set (st1 := on_extra (set_ibuf st (set_getp (ibuf st) (getp (ibuf st) + 4))) (λ e, set_mp_nexthop_len e n)).
  assert (stream_ok (ibuf st1)) as Hs1 by (apply set_getp_ok; [done|lia]).
  destruct (Z.ltb_spec (length_ a - 4) n).
  { eexists _, _. split; [done|]. apply (notify_pls _ _ _ []); try done. by rewrite app_nil_r. }
  destruct (mp_nexthop_ok st1 n Hs1 eq_refl) as (st2 & b & -> & Hf & Eb); [lia| |].
  { change (ibuf st1) with (set_getp (ibuf st) (getp (ibuf st) + 4)). at_stream. lia. }
  cbn [mbind M_bind]. destruct b; cbn [negb].
  - destruct (mp_reach_nlri_ok st a (be_value (ahead (ibuf st) 2))
      (be_value (ahead (set_getp (ibuf st) (getp (ibuf st) + 2)) 1)) n st2) as (st' & r & E & Hh); try done; [lia|..].
    + eapply fills_trans; [apply fills_extra|exact Hf].
    + rewrite Eb. cbn [ibuf st1 on_extra set_the_attr set_ibuf]. at_stream. f_equal. lia.
    + exists st', r. split; [exact E|]. by apply Hback.
  - eexists _, _. split; [done|]. pose proof (fills_kept _ _ Hf) as Hheld. rewrite Eb in Hheld. destruct Hf as (_ & _ & Hsent & _).
    apply (notify_pls _ _ _ []); rewrite ?app_nil_r, ?Eb; try done. intros Hk. by apply Hheld.
Qed.

(** ** Unknown attributes *)

Lemma set_partial_byte b : is_byte b → is_byte (SET_FLAG b BGP_ATTR_FLAG_PARTIAL).
Proof.
  intros [H1 H2]. unfold SET_FLAG, BGP_ATTR_FLAG_PARTIAL, is_byte. split; [apply Z.lor_nonneg; lia|].
  apply Z.log2_lt_cancel. rewrite Z.log2_lor by lia. apply Z.max_lub_lt; [|done].
  destruct (Z.eq_dec b 0) as [->|]; [done|]. apply Z.log2_lt_pow2; [lia|]. exact H2.
Qed.

Lemma unknown_ok : handles (λ t, lenient t = false ∧ t ≠ BGP_ATTR_TARPAN) (bgp_attr_unknown p).
Proof.
  intros st a Hs Hg Ha [Hl Ht]. unfold bgp_attr_unknown. pose proof Ha as (? & ? & ? & ? & Hend).
  rewrite forward_ok by (done || lia). cbn [mbind M_bind].
  destruct (negb (CHECK_FLAG _ BGP_ATTR_FLAG_OPTIONAL)).
  { apply malformed_ok; auto. apply set_getp_ok; [done|]. lia. }
  destruct (negb (CHECK_FLAG _ BGP_ATTR_FLAG_TRANS)).
  { eexists _, _. split; [done|]. by apply handled_done; [apply read_all|..]. }
  at_stream. pose proof Hs as (? & Hsz & Hlen & Hmax & Hb).
  destruct (rd_in_bounds (data (ibuf st)) (startp a)) as [b Eb]; [lia|]. rewrite Eb. cbn [mbind M_bind].
  apply rd_inv in Eb as [_ Eb]. assert (is_byte b) as Hbb by (by eapply (Forall_lookup_1 _ (data (ibuf st)))).
  rewrite wr_in_bounds by lia. cbn [mbind M_bind]. set (d := <[Z.to_nat (startp a) := _]> (data (ibuf st))).
  assert (length d = length (data (ibuf st))) as Ld by apply length_insert.
  rewrite rdn_in_bounds by lia. cbn [mbind M_bind]. eexists _, _. split; [done|].
  apply handled_done; [| |done|done|done].
  - unfold advanced, stream_ok. cbn [ibuf on_extra set_the_attr set_ibuf set_data set_getp getp endp size data].
    split_and!; [lia..|done| |done|done|lia|].
    + apply Forall_insert; [done|]. by apply set_partial_byte.
    + unfold d. rewrite drop_insert_lt; [done|]. lia.
  - by eapply good_ext.
Qed.

(** ** The Tarpan attribute *)

Hypothesis Hhandler : ∀ h, packet_received_handler = Some h → ReceiveHandler h.

(** Bytes of the message that are not a Tarpan message. *)
Definition undecodable (s : stream) : Prop :=
  ∃ i n : nat, getp s <= Z.of_nat i ∧ (0 < n)%nat ∧ Z.of_nat (i + n) <= endp s ∧ unpack (take n (drop i (data s))) = None.

Lemma undecodable_advanced s s' : stream_ok s → advanced s s' → undecodable s' → undecodable s.
Proof.
  intros (? & _) (_ & E & G & D) (i & n & Hi & Hn & He & Hu). exists i, n. split_and!; [lia|done|lia|].
  rewrite <-Hu. f_equal. f_equal. replace i with (Z.to_nat (getp s') + (i - Z.to_nat (getp s')))%nat by lia.
  by rewrite <-!drop_drop, D.
Qed.

(** The result of a parser that may meet such bytes. *)
Definition outcome {A} (s : stream) (m : M A) (P : A → Prop) : Prop :=
  match m with Ok x => P x | Fault Aborted => undecodable s | Fault Undefined => False end.

Lemma outcome_bind {A B} s (m : M A) (k : A → M B) P Q :
  outcome s m P → (∀ x, P x → outcome s (k x) Q) → outcome s (m ≫= k) Q.
Proof. destruct m as [x|[]]; cbn; auto. Qed.

Lemma call_handler_ok st tarp m msg :
  message (tarpan_store st) tarp = Ok m → load_msg (tarpan_store st) m = Ok msg →
  ∃ c t, call_handler p packet_received_handler st tarp = Ok (set_tarpan_store (set_tarpan_costs st c) t) ∧
    ∀ b, held (tarpan_store st) b → held t b.
Proof.
  intros E1 E2. unfold call_handler. destruct packet_received_handler as [h|] eqn:Eh.
  - pose proof (Hhandler h eq_refl) as Hl.
    destruct (handler_returns (tarpan_costs st) (tarpan_store st) (wiser_peer p) tarp m msg E1 E2) as [[c t] E].
    rewrite E. cbn [mbind M_bind]. exists c, t. split; [done|]. intros b. by eapply handler_holds.
  - exists (tarpan_costs st), (tarpan_store st). by destruct st.
Qed.

(** An attribute with its message is there. *)
Lemma good_tarpan x p4 t t' tarp :
  good_attr x p4 t → good_attr (mark BGP_ATTR_TARPAN (set_tarpan x (Some tarp))) p4 t'.
Proof.
  intros []. split; rewrite ?mark_flag by done; try done; rewrite ?orb_true_iff, ?orb_false_iff; try (intros [?|?]; [by auto|done]).
  by intros [_ ?].
Qed.

Lemma tarpan_ok st a :
  stream_ok (ibuf st) → good st → args_ok st a → type a = BGP_ATTR_TARPAN → marked st BGP_ATTR_TARPAN = false →
  outcome (ibuf st) (bgp_tarpan_parse p unpack packet_received_handler new_tarpan new_tarpan_message st a)
    (λ '(st', r), handled a st st' r).
Proof.
  intros Hs Hg Ha Ht Hm. unfold bgp_tarpan_parse. pose proof Ha as (? & ? & ? & ? & Hend).
  destruct (Z.eqb_spec (length_ a) 0).
  { cbn. apply handled_done; [by apply advanced_refl| |done|by intros [_ ?]|done]. destruct Hg. split; try done.
    intros Hmk. unfold marked in Hm. cbn in Hmk. rewrite Hmk in Hm. done. }
  rewrite pnt_ok by done. cbn [mbind M_bind]. rewrite pnt_bytes by (done || lia). cbn [mbind M_bind].
  unfold tarpan_parse. destruct (unpack (ahead (ibuf st) (Z.to_nat (length_ a)))) as [msg|] eqn:Eu.
  2: { pose proof Hs as (? & _). exists (Z.to_nat (getp (ibuf st))), (Z.to_nat (length_ a)). split_and!; [lia..|done]. }
  rewrite set_new_message. cbn [mbind M_bind].
  destruct (tarpan_share (tarpan_store st) new_tarpan new_tarpan_message msg) as (t' & tarp & m' & msg' & -> & E1 & E2 & Hheld);
    [by apply Hg|].
  cbn [mbind M_bind]. rewrite forward_ok by (done || lia). cbn [mbind M_bind]. set (st1 := on_attr _ _).
  destruct (call_handler_ok st1 tarp m' msg' E1 E2) as (c & t & -> & Ht'). cbn.
  apply handled_done; [by apply read_all| |done| |by rewrite Ht].
  - eapply good_tarpan. exact Hg.
  - intros [_ Hn]. split; [|exact Hn]. intros b [= <-]. by apply Ht'.
Qed.

(** ** One round of the loop *)

Lemma parse_one_ok st a :
  stream_ok (ibuf st) → good st → args_ok st a → (type a = BGP_ATTR_TARPAN → marked st BGP_ATTR_TARPAN = false) →
  outcome (ibuf st) (parse_one p unpack packet_received_handler new_tarpan new_tarpan_message st a)
    (λ '(st', r), handled a st st' r).
Proof.
  intros Hs Hg Ha Ht. unfold parse_one.
  assert (∀ T h, handles T h → T (type a) → outcome (ibuf st) (h st a) (λ '(st', r), handled a st st' r)) as Hone.
  { intros T h Hh HT. destruct (Hh st a Hs Hg Ha HT) as (st' & r & -> & H). exact H. }
  repeat match goal with |- context [if type a =? ?k then _ else _] =>
    destruct (Z.eqb_spec (type a) k); [first
      [ by eapply Hone; [apply origin_ok|] | by eapply Hone; [apply aspath_attr_ok|] | by eapply Hone; [apply as4_path_attr_ok|]
      | by eapply Hone; [apply nexthop_ok|] | by eapply Hone; [apply med_ok|] | by eapply Hone; [apply local_pref_ok|]
      | by eapply Hone; [apply atomic_ok|] | by eapply Hone; [apply aggregator_ok|] | by eapply Hone; [apply as4_aggregator_ok|]
      | by eapply Hone; [apply community_ok|] | by eapply Hone; [apply originator_ok|] | by eapply Hone; [apply cluster_list_ok|]
      | by eapply Hone; [apply mp_reach_ok|] | by eapply Hone; [apply mp_unreach_ok|] | by eapply Hone; [apply ext_communities_ok|]
      | apply tarpan_ok; auto ]|] end.
  eapply Hone; [apply unknown_ok|]. split; [|done]. unfold lenient. cbn [existsb].
  by rewrite !(proj2 (Z.eqb_neq (type a) _)).
Qed.

Context (past : Z) (Hpast : past_end = Ok past).

Lemma flag_invalid_ok a : 0 <= type a → ∃ b, bgp_attr_flag_invalid past_end a = Ok b.
Proof.
  intros Ht. unfold bgp_attr_flag_invalid. destruct (Z.ltb_spec attr_flags_values_max (type a)) as [|Hle]; [eauto|].
  assert (∃ v, required_flags past_end (type a) = Ok v) as [v ->].
  { unfold required_flags. destruct (Z.eqb_spec (type a) attr_flags_values_max) as [|]; [eauto|].
    destruct (rd_in_bounds attr_flags_values (type a)) as [v ->]; [|eauto]. unfold attr_flags_values_max in *. lia. }
  cbn [mbind M_bind]. repeat (case_match; [eauto|]). eauto.
Qed.

(** What the parse means to the caller when it ends in the loop: the stream is
    usable, an error has been reported, and the lenient results come from
    external peers; those leave the stream before the end [e] of the list. *)
Definition returned (e : Z) (st st' : parser) (r : bgp_attr_parse_ret_t) : Prop :=
  stream_ok (ibuf st') ∧ extent (ibuf st) (ibuf st') ∧ (kept st → kept st') ∧ r ≠ BGP_ATTR_PARSE_PROCEED ∧
  (r = BGP_ATTR_PARSE_ERROR → ∃ n ns, sent st' = sent st ++ n :: ns) ∧
  (r ≠ BGP_ATTR_PARSE_ERROR →
   sent st' = sent st ∧ sort p = BGP_PEER_EBGP ∧ getp (ibuf st) <= getp (ibuf st') <= e).

Lemma returned_error e st st' n ns :
  stream_ok (ibuf st') → extent (ibuf st) (ibuf st') → (kept st → kept st') → sent st' = sent st ++ n :: ns →
  returned e st st' BGP_ATTR_PARSE_ERROR.
Proof. intros Hs [He Hz] Hh E. split; [exact Hs|]. split_and!; try done. eauto. Qed.

Lemma returned_lenient e st st' r :
  stream_ok (ibuf st') → extent (ibuf st) (ibuf st') → (kept st → kept st') → r ≠ BGP_ATTR_PARSE_PROCEED →
  r ≠ BGP_ATTR_PARSE_ERROR →
  sent st' = sent st ∧ sort p = BGP_PEER_EBGP ∧ getp (ibuf st') = e → getp (ibuf st) <= e → returned e st st' r.
Proof. intros Hs [? ?] ??? (? & ? & E) ?. split; [exact Hs|]. split_and!; try done. intros _. split_and!; [done..|lia|lia]. Qed.

(** The round goes on: the attribute has been taken in. *)
Definition went_on (st st' : parser) (t : Z) : Prop :=
  good st' ∧ advanced (ibuf st) (ibuf st') ∧ sent st' = sent st ∧ (kept st → kept st') ∧
  (t ≠ BGP_ATTR_TARPAN → marked st' BGP_ATTR_TARPAN = marked st BGP_ATTR_TARPAN).

(** What follows PROCEED. *)
Lemma proceed_went_on st st' t :
  (kept st → kept st') →
  good st' ∧ advanced (ibuf st) (ibuf st') ∧ sent st' = sent st ∧
    (t ≠ BGP_ATTR_TARPAN → marked st' BGP_ATTR_TARPAN = marked st BGP_ATTR_TARPAN) → went_on st st' t.
Proof. intros Hh (? & ? & ? & ?). split; [done|]. split; [done|]. by split_and!. Qed.

Lemma handle_attr_ok st seen a attr_endp :
  stream_ok (ibuf st) → good st → args_ok st a → 0 <= type a → (type a = BGP_ATTR_TARPAN → marked st BGP_ATTR_TARPAN = false) →
  outcome (ibuf st) (handle_attr p unpack packet_received_handler new_tarpan new_tarpan_message past_end st seen a attr_endp)
    (λ '(st', r), match r with Next seen' => seen' = seen ∧ went_on st st' (type a)
                  | Return r => returned (startp a + total a) st st' r end).
Proof.
  intros Hs Hg Ha Hty Ht. unfold handle_attr. destruct (flag_invalid_ok a Hty) as [b ->]. cbn [mbind M_bind]. destruct b.
  - destruct (malformed_cases st st a BGP_NOTIFY_UPDATE_ATTR_FLAG_ERR (total a)) as (st' & r & -> & [Hok He Hh Hp Her Hw _] & Hn);
      auto. cbn. destruct r.
    + split; [done|]. by apply proceed_went_on, Hp.
    + destruct (Her eq_refl) as [n E]. by eapply returned_error.
    + apply returned_lenient; auto. destruct Ha as (? & ? & ? & ? & ?). lia.
    + apply returned_lenient; auto. destruct Ha as (? & ? & ? & ? & ?). lia.
  - eapply outcome_bind; [by apply parse_one_ok|]. intros [st' r] [Hok He Hh Hp Her Hw Hn]. destruct r;
      [rewrite bool_decide_eq_false_2 by (by intros [|])|rewrite bool_decide_eq_true_2 by auto..]; cbn.
    + pose proof (Hp eq_refl) as (_ & _ & Esent & _). destruct (negb _); cbn.
      2: { split; [done|]. by apply proceed_went_on, Hp. }
      eapply returned_error; [done..|].
      cbn. by rewrite Esent.
    + destruct (Her eq_refl) as [n E]. by eapply returned_error.
    + apply returned_lenient; auto. destruct Ha as (? & ? & ? & ? & ?). lia.
    + destruct (Hn eq_refl) as [ns E]. destruct ns as [|n ns].
      * eapply returned_error; [done..|]. cbn. by rewrite E, <-(assoc_L (++)).
      * eapply (returned_error _ _ _ n (ns ++ [_])); [done..|]. cbn. by rewrite E, <-(assoc_L (++)).
Qed.

(** *** The bitmap *)
Definition bit_of (seen : list Z) (t : Z) : bool :=
  match seen !! Z.to_nat (t / 8) with Some b => Z.testbit b (t mod 8) | None => false end.

Lemma bit_flag b k : 0 <= k → CHECK_FLAG b (Z.shiftl 1 k) = Z.testbit b k.
Proof. intros Hk. pose proof (flag_bit b (k + 1) ltac:(lia)) as E. unfold ATTR_FLAG_BIT in E. by replace (k + 1 - 1) with k in E by lia. Qed.

Lemma bitmap_slot t : 0 <= t < 256 → 0 <= t / 8 < 32 ∧ 0 <= t mod 8 < 8.
Proof.
  intros. pose proof (Z.mod_pos_bound t 8). pose proof (Z.div_pos t 8). pose proof (Z.div_lt_upper_bound t 8 32). lia.
Qed.

Lemma check_bitmap_ok seen t : length seen = 32%nat → 0 <= t < 256 → CHECK_BITMAP seen t = Ok (bit_of seen t).
Proof.
  intros Hl Ht. apply bitmap_slot in Ht as [H1 H2]. unfold CHECK_BITMAP, bit_of.
  destruct (rd_in_bounds seen (t / 8)) as [b Eb]; [lia|]. rewrite Eb. cbn [mbind M_bind].
  apply rd_inv in Eb as [_ ->]. by rewrite bit_flag by lia.
Qed.

Lemma set_bitmap_ok seen t :
  length seen = 32%nat → 0 <= t < 256 →
  ∃ seen', SET_BITMAP seen t = Ok seen' ∧ length seen' = 32%nat ∧
    ∀ t', 0 <= t' < 256 → bit_of seen' t' = bit_of seen t' || (t =? t').
Proof.
  intros Hl Ht. pose proof (bitmap_slot t Ht) as [H1 H2]. unfold SET_BITMAP.
  destruct (rd_in_bounds seen (t / 8)) as [b Eb]; [lia|]. rewrite Eb. cbn [mbind M_bind].
  apply rd_inv in Eb as [_ Eb]. rewrite wr_in_bounds by lia. eexists. split; [done|].
  rewrite length_insert. split; [done|]. intros t' Ht'. pose proof (bitmap_slot t' Ht') as [H1' H2']. unfold bit_of.
  destruct (decide (t / 8 = t' / 8)) as [E|Hne].
  - rewrite <-E, list_lookup_insert_eq, Eb by lia. unfold SET_FLAG. rewrite Z.lor_spec, Z.shiftl_1_l, Z.pow2_bits_eqb by lia.
    f_equal. pose proof (Z.div_mod t 8). pose proof (Z.div_mod t' 8).
    destruct (Z.eqb_spec (t mod 8) (t' mod 8)), (Z.eqb_spec t t'); try done; exfalso; lia.
  - rewrite list_lookup_insert_ne by lia. rewrite (proj2 (Z.eqb_neq t t')) by congruence. by rewrite orb_false_r.
Qed.

(** *** The round *)

Definition seen_ok (seen : list Z) (st : parser) : Prop :=
  length seen = 32%nat ∧ (bit_of seen BGP_ATTR_TARPAN = false → marked st BGP_ATTR_TARPAN = false).

(** The state between two rounds. *)
Definition between (st st' : parser) : Prop :=
  good st' ∧ advanced (ibuf st) (ibuf st') ∧ sent st' = sent st ∧ (kept st → kept st').

Lemma length_error_ok s end_ st st' :
  stream_ok (ibuf st') → extent (ibuf st) (ibuf st') → sent st' = sent st → (kept st → kept st') →
  outcome s (length_error st')
    (λ '(st', r), match r with
                  | Next seen' => seen_ok seen' st' ∧ between st st' ∧ getp (ibuf st) < getp (ibuf st')
                  | Return r => returned end_ st st' r end).
Proof. intros ?? E ?. cbn. eapply returned_error; [done..|]. cbn. by rewrite E. Qed.

Notation attr_round := (attr_round p unpack packet_received_handler new_tarpan new_tarpan_message past_end).
Notation attr_value := (attr_value p unpack packet_received_handler new_tarpan new_tarpan_message past_end).
Notation attr_loop := (attr_loop p unpack packet_received_handler new_tarpan new_tarpan_message past_end).
Notation handle_attr := (handle_attr p unpack packet_received_handler new_tarpan new_tarpan_message past_end).

(** The body after the header has been read up to [s]. *)
Lemma attr_value_ok st seen end_ s n t fl :
  stream_ok (ibuf st) → good st → seen_ok seen st → advanced (ibuf st) s → getp (ibuf st) < getp s →
  end_ <= endp (ibuf st) → end_ - getp (ibuf st) <= 4096 → 0 <= n → 0 <= t < 256 →
  outcome (ibuf st) (attr_value (set_ibuf st s) seen end_ (getp (ibuf st)) fl t n)
    (λ '(st', r), match r with
                  | Next seen' => seen_ok seen' st' ∧ between st st' ∧ getp (ibuf st) < getp (ibuf st')
                  | Return r => returned end_ st st' r end).
Proof.
  intros Hs Hg [Hl Hseen] Hadv Hlt He Hsz Hn Ht. pose proof Hadv as (Hs' & [Ee Ez] & _).
  unfold Attr.attr_value. cbn [ibuf set_ibuf].
  assert (kept st → kept (set_ibuf st s)) as Hks by (unfold kept; cbn [ibuf set_ibuf]; by rewrite Ee).
  rewrite check_bitmap_ok by done. cbn [mbind M_bind]. destruct (bit_of seen t) eqn:Eb.
  { cbn. eapply returned_error; [done|done|exact Hks|done]. }
  destruct (set_bitmap_ok seen t Hl Ht) as (seen' & -> & Hl' & Hbits). cbn [mbind M_bind].
  destruct (Z.ltb_spec end_ (getp s + n)); [by apply length_error_ok|].
  assert (0 <= getp (ibuf st)) by (by destruct Hs as [[? _] _]).
  set (a := Args _ _ _ _ _). set (st1 := set_ibuf st s).
  assert (args_ok st1 a) as Ha.
  { unfold args_ok. cbn [startp length_ total a ibuf st1 set_ibuf]. unfold u16. rewrite Z.mod_small by lia. lia. }
  pose proof (handle_attr_ok st1 seen' a (getp s + n) Hs' Hg Ha (proj1 Ht)) as Hh.
  unfold outcome. destruct (handle_attr st1 seen' a (getp s + n)) as [[st' r]|[]].
  - cbn [outcome] in Hh. assert (type a = BGP_ATTR_TARPAN → marked st1 BGP_ATTR_TARPAN = false) as Hty.
    { intros E. apply Hseen. cbn [type a] in E. by rewrite <-E. }
    specialize (Hh Hty). destruct r as [seen2|r].
    + destruct Hh as (-> & Hgd & Hadv' & Hsent & Hheld & Hm). split; [split; [done|]|split; [split; [done|split; [|split; [done|auto]]]|]].
      * intros Hb. rewrite Hbits in Hb by done. apply orb_false_iff in Hb as [Hb Hne%Z.eqb_neq].
        rewrite Hm by done. by apply Hseen.
      * by eapply advanced_trans.
      * destruct Hadv' as (_ & _ & ? & _). cbn [ibuf st1 set_ibuf] in *. lia.
    + destruct Hh as (? & [Eend Ezz] & Hk' & ? & ? & Hl2). split; [done|]. split; [by rewrite Eend, Ezz|]. split; [auto|].
      split_and!; [done..|]. intros Hne. destruct (Hl2 Hne) as (? & ? & ?). destruct Ha as (_ & _ & _ & ? & _).
      cbn [ibuf st1 set_ibuf length_ a] in *. split_and!; [done..|lia|lia].
  - eapply undecodable_advanced; [done|exact Hadv|]. apply Hh. intros E. apply Hseen. cbn [type a] in E. by rewrite <-E.
  - apply Hh. intros E. apply Hseen. cbn [type a] in E. by rewrite <-E.
Qed.

Lemma attr_round_ok st seen end_ :
  stream_ok (ibuf st) → good st → seen_ok seen st →
  end_ <= endp (ibuf st) → end_ - getp (ibuf st) <= 4096 →
  outcome (ibuf st) (attr_round st seen end_)
    (λ '(st', r), match r with
                  | Next seen' => seen_ok seen' st' ∧ between st st' ∧ getp (ibuf st) < getp (ibuf st')
                  | Return r => returned end_ st st' r end).
Proof.
  intros Hs Hg Hseen He Hsz. assert (0 <= getp (ibuf st)) by (by destruct Hs as [[? _] _]). unfold Attr.attr_round.
  destruct (Z.ltb_spec (end_ - getp (ibuf st)) BGP_ATTR_MIN_LEN) as [|Hmin]; [by apply length_error_ok|].
  unfold BGP_ATTR_MIN_LEN in *. rewrite getc_ok by (done || lia). cbn [mbind M_bind].
  rewrite getc_ok by (try apply set_getp_ok; at_stream; try done; lia). cbn [mbind M_bind]. at_stream.
  set (t := be_value (ahead (set_getp (ibuf st) (getp (ibuf st) + 1)) 1)).
  assert (is_byte t) as Ht by (apply ahead_byte; [apply set_getp_ok; [done|]; lia|at_stream; lia]).
  set (fl := Z.land 240 _). set (s2 := set_getp (ibuf st) (getp (ibuf st) + 1 + 1)).
  assert (stream_ok s2) as Hs2 by (apply set_getp_ok; [done|lia]).
  destruct (CHECK_FLAG fl BGP_ATTR_FLAG_EXTLEN) eqn:Eext; cbn [andb].
  - destruct (Z.ltb_spec (end_ - getp (ibuf st)) (3 + 1)); [by apply length_error_ok|].
    rewrite getw_ok by (try done; subst s2; at_stream; lia). cbn [mbind M_bind]. subst s2. at_stream.
    apply attr_value_ok; try done; at_stream; try lia.
    + apply advanced_set; [done|lia].
    + apply be_value_bound, ahead_bytes, Hs2.
  - rewrite getc_ok by (try done; subst s2; at_stream; lia). cbn [mbind M_bind]. subst s2. at_stream.
    apply attr_value_ok; try done; at_stream; try lia.
    + apply advanced_set; [done|lia].
    + apply be_value_bound, ahead_bytes, Hs2.
Qed.

(** ** The loop *)

Lemma between_trans st1 st2 st3 : stream_ok (ibuf st1) → between st1 st2 → between st2 st3 → between st1 st3.
Proof.
  intros Hs (_ & ? & E1 & ?) (? & ? & E2 & ?). split; [done|]. split; [by eapply advanced_trans|]. split; [congruence|auto].
Qed.

Lemma attr_loop_ok fuel st seen end_ :
  stream_ok (ibuf st) → good st → seen_ok seen st →
  end_ <= endp (ibuf st) → end_ - getp (ibuf st) <= 4096 → end_ - getp (ibuf st) <= Z.of_nat fuel →
  outcome (ibuf st) (attr_loop fuel st seen end_)
    (λ '(st', r), match r with
                  | None => between st st'
                  | Some r => returned end_ st st' r end).
Proof.
  revert st seen. induction fuel as [|fuel IH]; intros st seen Hs Hg Hseen He Hsz Hf; cbn [Attr.attr_loop];
    (destruct (Z.ltb_spec (getp (ibuf st)) end_) as [Hlt|]; cbn [negb];
      [|split; [done|]; split; [by apply advanced_refl|by split]]); [lia|].
  eapply outcome_bind; [by apply attr_round_ok|]. intros [st' [seen'|r]]; [|done].
  intros (Hseen' & Hb & Hgt). pose proof Hb as (Hg' & Hadv & Hsent & Hheld). pose proof Hadv as (Hs' & [Ee Ez] & _).
  pose proof (IH st' seen' Hs' Hg' Hseen') as H. rewrite Ee in H. specialize (H He ltac:(lia) ltac:(lia)).
  unfold outcome in *. destruct (attr_loop fuel st' seen' end_) as [[st2 r]|[]]; [|by eapply undecodable_advanced|done].
  destruct r as [r|]; [|by eapply between_trans]. destruct H as (? & E2 & ? & ? & ? & Hl).
  split; [done|]. rewrite <-Hsent, <-Ee, <-Ez. split; [done|]. split; [auto|]. split_and!; [done..|].
  intros Hne. destruct (Hl Hne) as (? & ? & ?). split_and!; [done..|lia|lia].
Qed.

(** ** After the loop *)

Lemma default_tarpan_ok st :
  good st →
  ∃ st', default_tarpan p packet_received_handler new_tarpan new_tarpan_message st = Ok st' ∧ good st' ∧
    ibuf st' = ibuf st ∧ sent st' = sent st ∧ (kept st → kept st') ∧ marked st' BGP_ATTR_TARPAN = true.
Proof.
  intros Hg. unfold default_tarpan. destruct (marked st BGP_ATTR_TARPAN) eqn:Em; [exists st; by split_and!|].
  unfold tarpan_message_new. rewrite set_new_message. cbn [mbind M_bind].
  destruct (tarpan_share (tarpan_store st) new_tarpan new_tarpan_message new_message) as (t' & tarp & m' & msg' & -> & E1 & E2 & Hheld);
    [by apply Hg|].
  cbn [mbind M_bind]. set (st1 := on_attr _ _).
  destruct (call_handler_ok st1 tarp m' msg' E1 E2) as (c & t & -> & Ht). eexists. split; [done|].
  split; [by eapply good_tarpan|]. split; [done|]. split; [done|]. split; [intros [_ Hn]; split; [intros b [= <-]; by apply Ht|exact Hn]|].
  unfold marked. cbn [the_attr set_tarpan_store set_tarpan_costs st1 on_attr set_the_attr flag set_tarpan].
  change (has (mark BGP_ATTR_TARPAN (the_attr st)) BGP_ATTR_TARPAN = true). rewrite mark_flag by done. apply orb_true_r.
Qed.

(** Merging with the attributes of 4-byte speakers. *)
Lemma munge_ok st :
  good st → marked st BGP_ATTR_AS_PATH = true →
  ∃ st' q, bgp_attr_munge_as4_attrs p st = Ok (st', BGP_ATTR_PARSE_PROCEED) ∧ ibuf st' = ibuf st ∧ sent st' = sent st ∧
    aspath_ (the_attr st') = Some q ∧ path_ok 4096 q ∧ tarpan_ (the_attr st') = tarpan_ (the_attr st) ∧
    tarpan_store st' = tarpan_store st ∧ mp_update st' = mp_update st ∧ mp_withdraw st' = mp_withdraw st ∧ (∀ t, 1 <= t → marked st t = true → marked st' t = true).
Proof.
  intros [Hp Hp4 Hm Hm4 Hma _ _] Hmark. unfold bgp_attr_munge_as4_attrs. destruct (Hm Hmark) as [q0 Eq]. rewrite Eq.
  specialize (Hp _ Eq).
  assert (path_ok 4096 q0) as Hq0 by (destruct Hp; split; [by eapply segs_ok_mono|done]).
  destruct (as4_peer p); [eexists _, _; by split_and!|].
  set (m := if marked st BGP_ATTR_AS4_AGGREGATOR then _ else _).
  assert (∃ st1 ign, m = Ok (st1, ign) ∧ ibuf st1 = ibuf st ∧ sent st1 = sent st ∧ as4_path st1 = as4_path st ∧
    aspath_ (the_attr st1) = Some q0 ∧ tarpan_ (the_attr st1) = tarpan_ (the_attr st) ∧
    tarpan_store st1 = tarpan_store st ∧ mp_update st1 = mp_update st ∧ mp_withdraw st1 = mp_withdraw st ∧ (∀ t, 1 <= t → marked st t = true → marked st1 t = true) ∧
    marked st1 BGP_ATTR_AS4_PATH = marked st BGP_ATTR_AS4_PATH) as (st1 & ign & -> & Eb & Es & E4 & Ea & Et & Ets & Emu & Emw & Hk & Hk4).
  { subst m. destruct (marked st BGP_ATTR_AS4_AGGREGATOR); [|by eexists _, _].
    destruct (marked st BGP_ATTR_AGGREGATOR) eqn:Eagg.
    - destruct (Hma Eagg) as [e ->]. destruct (negb _); by eexists _, _.
    - eexists _, _. split; [done|]. split_and!; try done; unfold marked;
        cbn [the_attr on_attr on_extra set_the_attr]; intros; rewrite mark_flag by done; cbn [flag set_extra].
      + by apply orb_true_iff; left.
      + apply orb_false_r. }
  cbn [mbind M_bind]. destruct (negb ign && _) eqn:Eign; [|eexists _, _; by split_and!].
  apply andb_true_iff in Eign as [_ Hmk]. rewrite Hk4 in Hmk. destruct (Hm4 Hmk) as [q4 E4']. rewrite E4, E4'.
  cbn [of_opt mbind M_bind]. destruct (reconcile_ok q0 q4 Hp (Hp4 _ E4')) as (q & -> & Hq). cbn [mbind M_bind].
  eexists _, q. by split_and!.
Qed.

Hypothesis Hlocal : 0 <= change_local_as p < 2 ^ 32.

(** A path that the last checks accept. *)
Definition checked_path (q : aspath) : Prop :=
  Forall known (segments q) ∧ Forall (λ seg, asns seg ≠ []) (segments q) ∧
  (sort p = BGP_PEER_EBGP → aspath_confed_check (Some q) = false).

Lemma prepend_checked q0 :
  path_ok 4096 q0 → (sort p = BGP_PEER_EBGP → aspath_confed_check (Some q0) = false) →
  ∃ q, aspath_add_seq q0 (change_local_as p) = Ok q ∧ checked_path q.
Proof.
  intros [(Hk & Hne & Hl) _] Hc.
  destruct (add_asns_segments q0 (change_local_as p) AS_SEQUENCE 1) as (q & seg & rest & E & Es & Et & l & El & Hr); try done.
  { apply Forall_forall. intros seg [i Hi]%list_elem_of_lookup. apply take_drop_middle in Hi. rewrite <-Hi in Hl.
    rewrite all_asns_app, all_asns_cons, !length_app in Hl. unfold len. lia. }
  exists q. split; [exact E|]. unfold checked_path. rewrite Es.
  assert (Forall (λ a, 0 <= a < 2 ^ 32) l ∧ Forall known rest ∧ Forall (λ seg, asns seg ≠ []) rest ∧
    (sort p = BGP_PEER_EBGP → existsb (λ seg, is_confed_type (stype seg)) rest = false)) as (Hl0 & Hkr & Hner & Hcr).
  { destruct Hr as [[-> ->]|Eseg]; [done|]. rewrite Eseg in Hk, Hne.
    apply Forall_cons in Hk as [[_ Hk1] Hk], Hne as [_ Hne]. split_and!; try done.
    intros He. specialize (Hc He). cbn [aspath_confed_check] in Hc. rewrite Eseg in Hc. cbn [existsb] in Hc.
    by apply orb_false_iff in Hc as [_ ?]. }
  split_and!.
  - constructor; [|done]. split; [by rewrite Et|]. rewrite El. apply Forall_app. split; [by apply replicate_u32|done].
  - constructor; [|done]. rewrite El. done.
  - intros He. cbn [aspath_confed_check]. rewrite Es. cbn [existsb]. rewrite Et. cbn [orb]. by apply Hcr.
Qed.

Lemma aspath_check_ok st q :
  aspath_ (the_attr st) = Some q → path_ok 4096 q →
  ∃ st' r, bgp_attr_aspath_check p st = Ok (st', r) ∧ ibuf st' = ibuf st ∧
    tarpan_ (the_attr st') = tarpan_ (the_attr st) ∧ tarpan_store st' = tarpan_store st ∧
    mp_update st' = mp_update st ∧ mp_withdraw st' = mp_withdraw st ∧
    ((r = BGP_ATTR_PARSE_ERROR ∧ ∃ n, sent st' = sent st ++ [n]) ∨
     (r = BGP_ATTR_PARSE_PROCEED ∧ sent st' = sent st ∧ flag (the_attr st') = flag (the_attr st) ∧
      ∃ q', aspath_ (the_attr st') = Some q' ∧ checked_path q')).
Proof.
  intros Eq Hq. unfold bgp_attr_aspath_check. rewrite Eq.
  destruct ((_ && _) || _) eqn:Ec; [eexists _, _; do 6 (split; [done|]); left; eauto|].
  apply orb_false_iff in Ec as [_ Ec].
  assert (sort p = BGP_PEER_EBGP → aspath_confed_check (Some q) = false) as Hc.
  { intros He. unfold is_sort in Ec. rewrite bool_decide_eq_true_2 in Ec by done. exact Ec. }
  set (m := if _ && is_sort p BGP_PEER_EBGP then _ else _). assert (∃ b, m = Ok b) as [b ->].
  { subst m. destruct (_ && is_sort p BGP_PEER_EBGP); [|by eexists]. unfold aspath_firstas_check. destruct q as [[|seg segs] ? ?]; cbn [mbind M_bind]; [by eexists|].
    destruct (stype seg =? AS_SEQUENCE); [|by eexists]. destruct Hq as [(_ & Hne & _) _]. apply Forall_cons in Hne as [Hne _].
    destruct (asns seg); [done|]. by eexists. }
  cbn [mbind M_bind]. destruct b; [eexists _, _; do 6 (split; [done|]); left; eauto|].
  destruct (negb _ && _).
  - cbn [of_opt mbind M_bind]. rewrite dup_printed by (by destruct Hq). cbn [mbind M_bind].
    destruct (prepend_checked q Hq Hc) as (q' & -> & Hq'). cbn [mbind M_bind].
    eexists _, _. do 6 (split; [done|]). right. split_and!; try done. by exists q'.
  - eexists _, _. do 6 (split; [done|]). right. split_and!; try done. exists q. split; [done|].
    destruct Hq as [(? & ? & _) _]. by split_and!.
Qed.

(** ** The theorem *)

(** What PROCEED promises. *)
Definition accepted (st st' : parser) (size : Z) : Prop :=
  sent st' = sent st ∧ getp (ibuf st') = getp (ibuf st) + size ∧
  marked st' BGP_ATTR_ORIGIN = true ∧ marked st' BGP_ATTR_AS_PATH = true ∧
  (marked st' BGP_ATTR_NEXT_HOP = true ∨ marked st' BGP_ATTR_MP_REACH_NLRI = true) ∧
  (sort p = BGP_PEER_IBGP → marked st' BGP_ATTR_LOCAL_PREF = true) ∧
  is_Some (tarpan_ (the_attr st')) ∧ ∃ q, aspath_ (the_attr st') = Some q ∧ checked_path q.

(** The check of the mandatory attributes; the Tarpan attribute is always
    there, so neither exception applies. *)
Lemma attr_check_ok st :
  marked st BGP_ATTR_TARPAN = true →
  (∃ n, bgp_attr_check p st = (set_sent st (sent st ++ [n]), BGP_ATTR_PARSE_ERROR)) ∨
  (bgp_attr_check p st = (st, BGP_ATTR_PARSE_PROCEED) ∧
   marked st BGP_ATTR_ORIGIN = true ∧ marked st BGP_ATTR_AS_PATH = true ∧
   (marked st BGP_ATTR_NEXT_HOP = true ∨ marked st BGP_ATTR_MP_REACH_NLRI = true) ∧
   (sort p = BGP_PEER_IBGP → marked st BGP_ATTR_LOCAL_PREF = true)).
Proof.
  intros Hm. unfold bgp_attr_check.
  assert (∀ f, CHECK_FLAG f (ATTR_FLAG_BIT BGP_ATTR_TARPAN) = false → (flag (the_attr st) =? f) = false) as Hne.
  { intros f Hf. apply Z.eqb_neq. intros <-. unfold marked in Hm. by rewrite Hm in Hf. }
  rewrite !Hne, andb_false_r by done. unfold is_sort.
  destruct (marked st BGP_ATTR_ORIGIN), (marked st BGP_ATTR_AS_PATH), (marked st BGP_ATTR_NEXT_HOP),
    (marked st BGP_ATTR_MP_REACH_NLRI), (bool_decide_reflect (sort p = BGP_PEER_IBGP)), (marked st BGP_ATTR_LOCAL_PREF);
    cbn; first [by left; eexists | right; by split_and!; auto].
Qed.

Definition result_ok (st st' : parser) (size : Z) (r : bgp_attr_parse_ret_t) : Prop :=
  stream_ok (ibuf st') ∧ extent (ibuf st) (ibuf st') ∧ (kept st → kept st') ∧
  match r with
  | BGP_ATTR_PARSE_PROCEED => accepted st st' size
  | BGP_ATTR_PARSE_ERROR => ∃ n ns, sent st' = sent st ++ n :: ns
  | _ => sent st' = sent st ∧ sort p = BGP_PEER_EBGP ∧ getp (ibuf st) <= getp (ibuf st') <= getp (ibuf st) + size
  end.

Lemma after_loop_ok st0 st size :
  stream_ok (ibuf st0) → between st0 st →
  ∃ st' r, after_loop p packet_received_handler new_tarpan new_tarpan_message st (getp (ibuf st0) + size) = Ok (st', r) ∧
    result_ok st0 st' size r.
Proof.
  intros Hs0 (Hg & Hadv & Hsent & Hheld). pose proof Hadv as (Hs & He & _). unfold after_loop.
  assert (∀ st', ibuf st' = ibuf st → (kept st → kept st') → (∃ n, sent st' = sent st ++ [n]) → result_ok st0 st' size BGP_ATTR_PARSE_ERROR) as Herr.
  { intros st' E Hh [n En]. unfold result_ok. rewrite E, En, Hsent. split; [done|]. split; [done|]. split; [auto|]. eauto. }
  destruct (Z.eqb_spec (getp (ibuf st)) (getp (ibuf st0) + size)) as [Eg|]; cbn [negb].
  2: { eexists _, _. split; [done|]. apply Herr; [done|done|]. cbn. eauto. }
  destruct (default_tarpan_ok st Hg) as (st1 & -> & Hg1 & Eb1 & Es1 & Hh1 & Hm1). cbn [mbind M_bind].
  destruct (attr_check_ok st1 Hm1) as [[n ->]|(-> & Ho & Hp & Hn & Hl)].
  { rewrite bool_decide_eq_false_2 by done. eexists _, _. split; [done|]. apply Herr; [done|done|]. cbn. rewrite Es1. eauto. }
  rewrite bool_decide_eq_true_2 by done. cbn [negb]. rewrite Hp.
  destruct (munge_ok st1 Hg1 Hp) as (st2 & q & -> & Eb2 & Es2 & Eq & Hq & Et2 & Ets2 & Emu2 & Emw2 & Hk2). cbn [mbind M_bind].
  rewrite bool_decide_eq_true_2 by done. cbn [negb].
  destruct (aspath_check_ok st2 q Eq Hq) as (st3 & r & -> & Eb3 & Et3 & Ets3 & Emu3 & Emw3 & Hr). eexists _, _. split; [done|].
  assert (kept st → kept st3) as Hh3.
  { intros H. apply Hh1 in H. unfold kept in *. by rewrite Et3, Ets3, Et2, Ets2, Eb3, Eb2, Emu3, Emw3, Emu2, Emw2. }
  destruct Hr as [[-> [n En]]|(-> & Es3 & Ef & q' & Eq' & Hq')].
  { apply Herr; [congruence|done|]. rewrite En, Es2, Es1. eauto. }
  unfold result_ok. rewrite Eb3, Eb2, Eb1. split; [done|]. split; [done|]. split; [auto|].
  assert (∀ t, 1 <= t → marked st1 t = true → marked st3 t = true) as Hk3.
  { intros t Ht Hmt. unfold marked. rewrite Ef. by apply Hk2. }
  unfold accepted. rewrite Eb3, Eb2, Eb1. split_and!; try (by apply Hk3); [congruence|done| | | |by exists q'].
  - destruct Hn; [left|right]; by apply Hk3.
  - intros Hib. apply Hk3; [done|]. by apply Hl.
  - rewrite Et3, Et2. by apply Hg1.
Qed.
End soundness.

Lemma attr_parse_ok p unpack packet_received_handler new_tarpan new_tarpan_message past st size :
  (∀ h, packet_received_handler = Some h → ReceiveHandler h) → 0 <= change_local_as p < 2 ^ 32 →
  stream_ok (ibuf st) → 0 <= size <= 4096 → getp (ibuf st) + size <= endp (ibuf st) →
  flag (the_attr st) = 0 → aspath_ (the_attr st) = None → tarpan_ready (tarpan_store st) new_tarpan new_tarpan_message →
  outcome unpack (ibuf st)
    (bgp_attr_parse p unpack packet_received_handler new_tarpan new_tarpan_message (Ok past) st size)
    (λ '(st', r), result_ok p st st' size r).
Proof.
  intros Hh Hlocal Hs Hsz He Hflag Hpath Hready. unfold bgp_attr_parse. set (st1 := set_as4_aggregator_addr _ _).
  assert (good new_tarpan new_tarpan_message st1) as Hg.
  { assert (∀ t, 1 <= t → has (the_attr st) t = false) as Hno by (intros t Ht; rewrite Hflag, flag_bit by done; apply Z.bits_0).
    split; cbn [the_attr as4_path tarpan_store st1 set_as4_aggregator_addr set_as4_aggregator set_as4_path];
      rewrite ?Hpath, ?Hno by done; done. }
  eapply outcome_bind.
  { apply (attr_loop_ok p unpack packet_received_handler new_tarpan new_tarpan_message (Ok past) Hh past eq_refl
      (Z.to_nat size) st1 (zeros 32) (getp (ibuf st1) + size) Hs Hg); [|cbn [ibuf st1 set_as4_aggregator_addr set_as4_aggregator set_as4_path]; lia..].
    split; [done|]. intros _. unfold marked. cbn [the_attr st1 set_as4_aggregator_addr set_as4_aggregator set_as4_path].
    by rewrite Hflag. }
  intros [st2 [r|]]; cbn beta iota.
  - intros (Hs2 & He2 & Hh2 & Hne & Her & Hno). unfold result_ok. split; [done|]. split; [done|]. split; [done|]. destruct r; [done|by apply Her|by apply Hno..].
  - intros Hb. destruct (after_loop_ok p packet_received_handler new_tarpan new_tarpan_message Hh Hlocal st1 st2 size Hs Hb) as (st3 & r & -> & Hr).
    exact Hr.
Qed.


(** ** Examples *)

(** A daemon without Tarpan attributes yet. *)
Definition no_tarpans : store :=
  Store (Pool ∅ (Hash (replicate 256 []) 256 false 0)) ∅.

Lemma no_tarpans_ready : tarpan_ready no_tarpans 1 4096.
Proof.
  assert (∀ n : nat, concat (replicate n (@nil (hash_backet loc))) = []) as Hc.
  { intros n. induction n as [|n IH]; [done|]. exact IH. }
  unfold tarpan_ready, no_tarpans, pool_ok, datas, elems. cbn [tarpans objs table msgs index hsize].
  rewrite Hc. split_and!; try done.
  - unfold hash_ok, elems, placed. cbn [index hsize hcount]. rewrite Hc. split_and!; try done.
    + by exists 8.
    + intros i chain Hi. apply lookup_replicate in Hi as [-> _]. constructor.
  - constructor.
  - intros a. split; [intros []%not_elem_of_nil|]. intros (o & Ho & _). done.
Qed.

(** An external peer with 2-byte AS numbers, and the buffer with the attribute
    list of its message. *)
Definition ex_peer : peer :=
  Peer BGP_PEER_EBGP 65001 0 0 0 (Some 0) {| peer_as := 65001; self_as := 65000; router_id := 1 |}.
Definition ex_state (bytes : list Z) : parser :=
  let n := Z.of_nat (length bytes) in
  Parser (Stream 0 n n bytes) (Attr None None None (Some bgp_attr_extra_new) 0 (zeros 4) 0 0 0)
    (Nlri 0 0 0 0) (Nlri 0 0 0 0) None 0 (zeros 4) [] (Costs ∅ ∅ ∅ []) no_tarpans.
Notation ex_parse past_end bytes :=
  (bgp_attr_parse ex_peer unpack_example (Some wiser_packet_received_handler) 1 4096 past_end (ex_state bytes)
    (Z.of_nat (length bytes))).

(** ORIGIN IGP, AS_PATH 65001, NEXT_HOP 192.0.2.1. *)
Definition ex_list : list Z :=
  [0x40; 1; 1; 0] ++ [0x40; 2; 4; 2; 1; 253; 233] ++ [0x40; 3; 4; 192; 0; 2; 1].

Lemma ex_list_parsed :
  ∃ st', ex_parse (Ok 0) ex_list = Ok (st', BGP_ATTR_PARSE_PROCEED) ∧
    origin (the_attr st') = BGP_ORIGIN_IGP ∧ nexthop (the_attr st') = [192; 0; 2; 1].
Proof.
  assert (match ex_parse (Ok 0) ex_list with
          | Ok (st', BGP_ATTR_PARSE_PROCEED) => bool_decide (origin (the_attr st') = 0 ∧ nexthop (the_attr st') = [192; 0; 2; 1])
          | _ => false end = true) as E by (vm_compute; reflexivity).
  destruct (ex_parse (Ok 0) ex_list) as [[st' []]|]; try discriminate.
  apply bool_decide_eq_true in E. by exists st'.
Qed.


(** The byte past the end of [attr_flags_values] is read for every Tarpan
    attribute. *)
Lemma tarpan_flags_past_end past_end a :
  type a = BGP_ATTR_TARPAN → past_end = Fault Undefined → bgp_attr_flag_invalid past_end a = Fault Undefined.
Proof. intros Ht ->. unfold bgp_attr_flag_invalid. by rewrite Ht. Qed.
