(* ===== verification/Update.v ===== *)
(** Receiving an UPDATE: [bgp_update_receive] of bgpd/bgp_packet.c and
    [bgp_nlri_parse] of bgpd/bgp_route.c, on top of the attribute parser of
    Attr.v.

    What the message does to the routes is the sequence of calls into the rest of
    bgp_route.c and bgp_mplsvpn.c: each is recorded with its arguments, and an
    arbitrary [answer] gives its result and its effect on the shared Tarpan
    attributes. *)
From S2P Require Import Prelude Prefix Stream Hash ASPath Community Ecommunity Tarpan Decision Attr.
Open Scope Z_scope.

(** The calls. *)
Inductive call :=
  | bgp_update (px : prefix) (x : attr) (af saf : Z)
  | bgp_withdraw (px : prefix) (af saf : Z)
  | bgp_nlri_parse_vpnv4 (x : option attr) (packet : bgp_nlri)
  | bgp_clear_stale_route (af saf : Z).

(** The state of the receiver: that of the parser, the calls so far, the
    families with [PEER_STATUS_EOR_RECEIVED] set, the packet counter, and whether
    the hold timer was set anew. *)
Record receiver := Receiver {
  parser_ : parser;
  calls : list call;
  eor_received : list (Z * Z);
  update_in : Z;
  rearmed : bool;
}.
Definition set_parser (rc : receiver) (v : parser) : receiver :=
  Receiver v (calls rc) (eor_received rc) (update_in rc) (rearmed rc).

(** The attribute on the stack of [bgp_update_receive]. *)
Definition empty_attr : attr := Attr None None None (Some bgp_attr_extra_new) 0 (zeros 4) 0 0 0.
Definition empty_nlri : bgp_nlri := Nlri 0 0 0 0.

(** Of bgpd.h. *)
Definition BGP_NOTIFY_FSM_ERR : Z := 5.

Definition IN_CLASSD (a : Z) : bool := Z.land a 0xf0000000 =? 0xe0000000.

(** [bgp_attr_unintern_sub]: the Tarpan attribute goes back to its pool. *)
Definition bgp_attr_unintern_sub (st : parser) : M parser :=
  st ← match tarpan_ (the_attr st) with
       | None => Ok st
       | Some tarp =>
           '(t, r) ← tarpan_unintern (tarpan_store st) tarp;
           Ok (on_attr (set_tarpan_store st t) (λ x, set_tarpan x r))
       end;
  let unset x t := set_flag x (UNSET_FLAG (flag x) (ATTR_FLAG_BIT t)) in
  Ok (on_attr st (λ x,
    let x := unset (unset (unset x BGP_ATTR_AS_PATH) BGP_ATTR_COMMUNITIES) BGP_ATTR_TARPAN in
    match extra x with
    | None => x
    | Some _ => unset (unset x BGP_ATTR_EXT_COMMUNITIES) BGP_ATTR_CLUSTER_LIST
    end)).

Section receive.
Context (p : peer) (unpack : list Z → option TarpanMsg).
Context (packet_received_handler : option (costs → store → wpeer → loc → M (costs * store))).
Context (new_tarpan : loc) (new_tarpan_message : Z) (past_end : M Z).
(** Results of the calls, and the status of the peer, which they may change. *)
Context (answer : list call → call → store → Z * store) (established : list call → bool).
(** [peer->afc] and [peer->nsf]. *)
Context (afc nsf : Z → Z → bool).

Definition do_call (rc : receiver) (c : call) : receiver * Z :=
  let '(r, t) := answer (calls rc) c (tarpan_store (parser_ rc)) in
  (Receiver (set_tarpan_store (parser_ rc) t) (calls rc ++ [c]) (eor_received rc) (update_in rc) (rearmed rc), r).

(** ** Prefixes *)

(** The loop of [bgp_nlri_parse]: every round takes at least one byte. *)
Fixpoint nlri_loop (fuel : nat) (rc : receiver) (x : option attr) (af saf pnt lim : Z) : M (receiver * Z) :=
  if negb (pnt <? lim) then Ok (rc, if pnt =? lim then 0 else -1) else
  let d := data (ibuf (parser_ rc)) in
  prefixlen ← rd d pnt;
  let pnt := pnt + 1 in
  if ((af =? AFI_IP) && (32 <? prefixlen)) || ((af =? AFI_IP6) && (128 <? prefixlen)) then Ok (rc, -1) else
  let psize := PSIZE prefixlen in
  if lim <? pnt + psize then Ok (rc, -1) else
  b ← rdn d pnt psize;
  u ← wrn (zeros 16) 0 b;
  match fuel with
  | O => Fault Undefined
  | S fuel' =>
      let next rc := nlri_loop fuel' rc x af saf (pnt + psize) lim in
      if (af =? AFI_IP) && (saf =? SAFI_UNICAST) && IN_CLASSD (be_value (take 4 u)) then Ok (rc, -1)
      else if (af =? AFI_IP6) && (saf =? SAFI_UNICAST) && IN6_IS_ADDR_LINKLOCAL u then next rc
      else
        let px := Prefix (afi2family af) prefixlen u in
        let '(rc, ret) := do_call rc (match x with Some a => bgp_update px a af saf | None => bgp_withdraw px af saf end) in
        if ret <? 0 then Ok (rc, -1) else next rc
  end.

Definition bgp_nlri_parse (rc : receiver) (x : option attr) (packet : bgp_nlri) : M (receiver * Z) :=
  if negb (established (calls rc)) then Ok (rc, 0) else
  nlri_loop (Z.to_nat (nlri_length packet)) rc x (afi packet) (safi packet) (nlri packet)
    (nlri packet + nlri_length packet).

(** The callers ignore the result. *)
Definition parse_if (b : bool) (rc : receiver) (x : option attr) (packet : bgp_nlri) : M receiver :=
  if b && negb (nlri_length packet =? 0) then '(rc, _) ← bgp_nlri_parse rc x packet; Ok rc else Ok rc.

Definition of_family (packet : bgp_nlri) (af saf : Z) : bool := (afi packet =? af) && (safi packet =? saf).

(** ** The message *)

(** End of RIB for a family: with [flagged], the status flag is set. *)
Definition end_of_rib (rc : receiver) (flagged : bool) (af saf : Z) : receiver :=
  let rc := if flagged
            then Receiver (parser_ rc) (calls rc) ((af, saf) :: eor_received rc) (update_in rc) (rearmed rc) else rc in
  if nsf af saf then fst (do_call rc (bgp_clear_stale_route af saf)) else rc.

(** The block of a family other than IPv4 unicast and VPN. *)
Definition mp_family (rc : receiver) (x : option attr) (withdraw_len af saf : Z) (flagged : bool) : M receiver :=
  if negb (afc af saf) then Ok rc else
  let up := mp_update (parser_ rc) in
  let wd := mp_withdraw (parser_ rc) in
  rc ← parse_if (of_family up af saf) rc x up;
  rc ← parse_if (of_family wd af saf) rc None wd;
  Ok (if (withdraw_len =? 0) && of_family wd af saf && (nlri_length wd =? 0) then end_of_rib rc flagged af saf else rc).

(** What the message does, after all checks. *)
Definition process (rc : receiver) (x : option attr) (withdraw update : bgp_nlri) (withdraw_len attribute_len : Z)
    : M receiver :=
  let up := mp_update (parser_ rc) in
  let wd := mp_withdraw (parser_ rc) in
  rc ← (if afc AFI_IP SAFI_UNICAST then
          rc ← parse_if true rc None withdraw;
          rc ← parse_if true rc x update;
          rc ← parse_if (of_family up AFI_IP SAFI_UNICAST) rc x up;
          rc ← parse_if (of_family wd AFI_IP SAFI_UNICAST) rc None wd;
          Ok (if (attribute_len =? 0) && (withdraw_len =? 0) then end_of_rib rc true AFI_IP SAFI_UNICAST else rc)
        else Ok rc);
  rc ← mp_family rc x withdraw_len AFI_IP SAFI_MULTICAST true;
  rc ← mp_family rc x withdraw_len AFI_IP6 SAFI_UNICAST true;
  rc ← mp_family rc x withdraw_len AFI_IP6 SAFI_MULTICAST false;
  if afc AFI_IP SAFI_MPLS_VPN then
    let vpn (rc : receiver) (x : option attr) (packet : bgp_nlri) :=
      if negb (nlri_length packet =? 0) && of_family packet AFI_IP SAFI_MPLS_LABELED_VPN
      then fst (do_call rc (bgp_nlri_parse_vpnv4 x packet)) else rc in
    Ok (vpn (vpn rc x up) None wd)
  else Ok rc.

(** The checks of a prefix list of the message; [None] on an error. *)
Definition plain_nlri (st : parser) (n : Z) : M (parser * option bgp_nlri) :=
  if n =? 0 then Ok (st, Some empty_nlri) else
  '(st, ret) ← bgp_nlri_sanity_check st AFI_IP (getp (ibuf st)) n;
  if ret <? 0 then Ok (st, None) else
  let packet := Nlri AFI_IP SAFI_UNICAST (getp (ibuf st)) n in
  s ← stream_forward_getp (ibuf st) n;
  Ok (set_ibuf st s, Some packet).

Definition refuse (rc : receiver) (st : parser) (code sub : Z) : M (receiver * Z) :=
  Ok (set_parser rc (bgp_notify_send st code sub), -1).

(** From the attributes on. *)
Definition receive_attrs (rc : receiver) (st : parser) (end_ withdraw_len attribute_len : Z) (withdraw : bgp_nlri)
    : M (receiver * Z) :=
  '(st, ret) ← (if negb (attribute_len =? 0)
                then bgp_attr_parse p unpack packet_received_handler new_tarpan new_tarpan_message past_end st attribute_len
                else Ok (st, BGP_ATTR_PARSE_PROCEED));
  if bool_decide (ret = BGP_ATTR_PARSE_ERROR) then
    st ← bgp_attr_unintern_sub st;
    Ok (set_parser rc st, -1)
  else
  (* NLRI_ATTR_ARG *)
  let x := if bool_decide (ret = BGP_ATTR_PARSE_WITHDRAW) then None else Some (the_attr st) in
  '(st, update) ← plain_nlri st (u16 (end_ - getp (ibuf st)));
  match update with
  | None =>
      st ← bgp_attr_unintern_sub st;
      Ok (set_parser rc st, -1)
  | Some update =>
      rc ← process (set_parser rc st) x withdraw update withdraw_len attribute_len;
      st ← bgp_attr_unintern_sub (parser_ rc);
      let rc := set_parser rc st in
      if negb (established (calls rc)) then Ok (rc, 0)
      else Ok (Receiver (parser_ rc) (calls rc) (eor_received rc) (u32 (update_in rc + 1)) true, 0)
  end.

Definition bgp_update_receive (rc : receiver) (size : Z) : M (receiver * Z) :=
  if negb (established (calls rc)) then refuse rc (parser_ rc) BGP_NOTIFY_FSM_ERR 0 else
  let st := set_mp_withdraw (set_mp_update (set_the_attr (parser_ rc) empty_attr) empty_nlri) empty_nlri in
  let end_ := getp (ibuf st) + size in
  if end_ <? getp (ibuf st) + 2 then refuse rc st BGP_NOTIFY_UPDATE_ERR BGP_NOTIFY_UPDATE_MAL_ATTR else
  '(s, withdraw_len) ← stream_getw (ibuf st);
  let st := set_ibuf st s in
  if end_ <? getp s + withdraw_len then refuse rc st BGP_NOTIFY_UPDATE_ERR BGP_NOTIFY_UPDATE_MAL_ATTR else
  '(st, withdraw) ← plain_nlri st withdraw_len;
  match withdraw with
  | None => Ok (set_parser rc st, -1)
  | Some withdraw =>
      if end_ <? getp (ibuf st) + 2 then refuse rc st BGP_NOTIFY_UPDATE_ERR BGP_NOTIFY_UPDATE_MAL_ATTR else
      '(s, attribute_len) ← stream_getw (ibuf st);
      let st := set_ibuf st s in
      if end_ <? getp s + attribute_len then refuse rc st BGP_NOTIFY_UPDATE_ERR BGP_NOTIFY_UPDATE_MAL_ATTR
      else receive_attrs rc st end_ withdraw_len attribute_len withdraw
  end.

End receive.
