(* ===== verification/UpdateSpec.v ===== *)
(** What a received UPDATE does: the calls [bgp_update_receive] makes into the
    routing table, for arbitrary messages.  The last section has messages on which
    it does not behave as intended. *)
From S2P Require Import Prelude Prefix Stream StreamRead Hash ASPath ASPathTotal Community Ecommunity Tarpan Decision.
From S2P Require Import Attr AttrSpec Update.
Open Scope Z_scope.

Section soundness.
Context (p : peer) (unpack : list Z → option TarpanMsg).
Context (packet_received_handler : option (costs → store → wpeer → loc → M (costs * store))).
Context (new_tarpan : loc) (new_tarpan_message : Z) (past : Z).
Context (answer : list call → call → store → Z * store) (established : list call → bool) (afc nsf : Z → Z → bool).

Hypothesis Hhandler : ∀ h, packet_received_handler = Some h → ReceiveHandler h.
Hypothesis Hlocal : 0 <= change_local_as p < 2 ^ 32.
(** The routing table takes no reference of the caller away. *)
Hypothesis Hanswer : ∀ l c t b, held t b → held (snd (answer l c t)) b.

Notation do_call := (do_call answer).
Notation nlri_loop := (nlri_loop answer).
Notation bgp_nlri_parse := (bgp_nlri_parse answer established).
Notation parse_if := (parse_if answer established).
Notation end_of_rib := (end_of_rib answer nsf).
Notation mp_family := (mp_family answer established afc nsf).
Notation process := (process answer established afc nsf).

(** A prefix of a family that may be announced in it. *)
Definition prefix_fits (px : prefix) (af saf : Z) : Prop :=
  family px = afi2family af ∧ length (u px) = 16%nat ∧ bytes_ok (u px) ∧
  ((af = AFI_IP ∧ 0 <= prefixlen px <= 32) ∨ (af = AFI_IP6 ∧ 0 <= prefixlen px <= 128)) ∧
  (af = AFI_IP → saf = SAFI_UNICAST → IN_CLASSD (be_value (take 4 (u px))) = false) ∧
  (af = AFI_IP6 → saf = SAFI_UNICAST → IN6_IS_ADDR_LINKLOCAL (u px) = false).

(** A call that a message with the attribute [x] may cause. *)
Definition proper (x : option attr) (c : call) : Prop :=
  match c with
  | bgp_update px y af saf => x = Some y ∧ prefix_fits px af saf ∧ afc af saf = true
  | bgp_withdraw px af saf => prefix_fits px af saf ∧ afc af saf = true
  | bgp_nlri_parse_vpnv4 y packet => (y = None ∨ y = x) ∧ afi packet = AFI_IP ∧ safi packet = SAFI_MPLS_LABELED_VPN
  | bgp_clear_stale_route af saf => nsf af saf = true
  end.

(** From [rc] to [rc'] only such calls were made. *)
Definition ran (x : option attr) (rc rc' : receiver) : Prop :=
  (∃ cs, calls rc' = calls rc ++ cs ∧ Forall (proper x) cs) ∧
  (∃ t, parser_ rc' = set_tarpan_store (parser_ rc) t ∧ ∀ b, held (tarpan_store (parser_ rc)) b → held t b).

Lemma ran_refl x rc : ran x rc rc.
Proof.
  split; [exists []; by rewrite app_nil_r|]. exists (tarpan_store (parser_ rc)). split; [|done]. by destruct rc as [[] ? ? ? ?].
Qed.

Lemma ran_trans x rc1 rc2 rc3 : ran x rc1 rc2 → ran x rc2 rc3 → ran x rc1 rc3.
Proof.
  intros [(cs1 & E1 & H1) (t1 & P1 & K1)] [(cs2 & E2 & H2) (t2 & P2 & K2)]. split.
  - exists (cs1 ++ cs2). rewrite E2, E1, (assoc_L (++)). split; [done|]. by apply Forall_app.
  - exists t2. rewrite P2, P1 in *. split; [done|]. intros b Hb. apply K2. by apply K1.
Qed.

Lemma ran_call x rc c : proper x c → ran x rc (fst (do_call rc c)).
Proof.
  intros Hc. unfold Update.do_call. pose proof (Hanswer (calls rc) c (tarpan_store (parser_ rc))) as Ha.
  destruct (answer (calls rc) c (tarpan_store (parser_ rc))) as [r t]. cbn [fst snd] in *. split; [exists [c]; split; [done|by constructor]|].
  by exists t.
Qed.

Lemma ran_ibuf x rc rc' : ran x rc rc' → ibuf (parser_ rc') = ibuf (parser_ rc).
Proof. by intros [_ (t & -> & _)]. Qed.

(** ** Prefixes *)

Lemma nlri_loop_ok x fuel rc af saf pnt lim :
  stream_ok (ibuf (parser_ rc)) → af = AFI_IP ∨ af = AFI_IP6 → afc af saf = true → 
  0 <= pnt → lim <= endp (ibuf (parser_ rc)) → lim - pnt <= Z.of_nat fuel →
  ∀ y, (y = None ∨ y = x) →
  ∃ rc' r, nlri_loop fuel rc y af saf pnt lim = Ok (rc', r) ∧ ran x rc rc'.
Proof.
  intros Hs Haf Hafc Hp He Hf y Hy. revert rc pnt Hs Hp He Hf.
  induction fuel as [|fuel IH]; intros rc pnt Hs Hp He Hf; cbn [Update.nlri_loop];
    (destruct (Z.ltb_spec pnt lim) as [Hlt|]; cbn [negb]; [|eexists _, _; split; [done|apply ran_refl]]); [lia|].
  pose proof Hs as (? & ? & ? & ? & Hb).
  destruct (rd_in_bounds (data (ibuf (parser_ rc))) pnt) as [n En]; [lia|]. rewrite En. cbn [mbind M_bind].
  apply rd_inv in En as [_ En]. assert (is_byte n) as Hn by (by eapply (Forall_lookup_1 _ (data (ibuf (parser_ rc))))).
  unfold is_byte in Hn. change (2 ^ 8) with 256 in Hn.
  destruct (_ || _) eqn:Elen; [eexists _, _; split; [done|apply ran_refl]|].
  apply orb_false_iff in Elen as [El1 El2].
  assert ((af = AFI_IP ∧ n <= 32) ∨ (af = AFI_IP6 ∧ n <= 128)) as Hlen.
  { destruct Haf as [-> | ->]; [left|right]; (split; [done|]); cbn [AFI_IP AFI_IP6 Z.eqb Pos.eqb andb] in *;
      [apply Z.ltb_ge in El1|apply Z.ltb_ge in El2]; lia. }
  assert (0 <= PSIZE n <= 16) as Hps.
  { unfold PSIZE. split; [apply Z.div_pos; lia|]. assert (n <= 128) by lia. pose proof (Z.div_le_mono (n + 7) 135 8). 
    change (135 / 8) with 16 in *. lia. }
  destruct (Z.ltb_spec lim (pnt + 1 + PSIZE n)); [eexists _, _; split; [done|apply ran_refl]|].
  rewrite rdn_in_bounds by lia. cbn [mbind M_bind]. set (b := take _ (drop _ _)).
  assert (Z.of_nat (length b) = PSIZE n) as Lb by (subst b; rewrite length_take, length_drop; lia).
  assert (bytes_ok b) as Hbb by (by apply Forall_take, Forall_drop).
  unfold zeros. rewrite wrn_in_bounds by (rewrite length_replicate; lia). cbn [mbind M_bind]. set (v := _ ++ b ++ _).
  assert (length v = 16%nat) as Lv.
  { subst v. rewrite !length_app, length_take, length_drop, length_replicate. lia. }
  assert (bytes_ok v) as Hv.
  { subst v. apply Forall_app; split; [by apply Forall_take, Forall_replicate|]. apply Forall_app; split; [done|]. by apply Forall_drop, Forall_replicate. }
  destruct (_ && _ && IN_CLASSD _) eqn:Ed; [eexists _, _; split; [done|apply ran_refl]|].
  assert (∀ rc1, ran x rc rc1 → ∃ rc' r, nlri_loop fuel rc1 y af saf (pnt + 1 + PSIZE n) lim = Ok (rc', r) ∧ ran x rc rc') as Hnext.
  { intros rc1 Hr. pose proof (ran_ibuf _ _ _ Hr) as Ei. destruct (IH rc1 (pnt + 1 + PSIZE n)) as (rc' & r & E & Hr'); rewrite ?Ei; try done; [lia..|].
    exists rc', r. split; [done|]. by eapply ran_trans. }
  destruct (_ && _ && IN6_IS_ADDR_LINKLOCAL _) eqn:E6; [apply Hnext, ran_refl|].
  set (c := match y with Some _ => _ | None => _ end).
  assert (proper x c) as Hc.
  { assert (prefix_fits (Prefix (afi2family af) n v) af saf) as Hpx.
    { split_and!; cbn [family u prefixlen]; try done.
      - destruct Hlen as [[-> ?]|[-> ?]]; [left|right]; (split; [done|]); lia.
      - intros -> ->. by cbn in Ed.
      - intros -> ->. by cbn in E6. }
    subst c. destruct y as [y|]; [|done]. split; [|done]. destruct Hy; [done|congruence]. }
  pose proof (ran_call x rc c Hc) as Hr. destruct (do_call rc c) as [rc1 r]. cbn [fst] in Hr.
  destruct (r <? 0); [by eexists _, _|]. by apply Hnext.
Qed.

Lemma parse_if_ok x b rc y packet :
  stream_ok (ibuf (parser_ rc)) → packet_in packet (endp (ibuf (parser_ rc))) → y = None ∨ y = x →
  (b = true → nlri_length packet ≠ 0 → (afi packet = AFI_IP ∨ afi packet = AFI_IP6) ∧ afc (afi packet) (safi packet) = true) →
  ∃ rc', parse_if b rc y packet = Ok rc' ∧ ran x rc rc'.
Proof.
  intros Hs (? & ? & ?) Hy Hb. unfold Update.parse_if. destruct b; cbn [andb]; [|eexists; split; [done|apply ran_refl]].
  destruct (Z.eqb_spec (nlri_length packet) 0); cbn [negb]; [eexists; split; [done|apply ran_refl]|].
  destruct (Hb eq_refl) as [Haf Hafc]; [done|]. unfold Update.bgp_nlri_parse.
  destruct (negb _); [cbn [mbind M_bind]; eexists; split; [done|apply ran_refl]|].
  destruct (nlri_loop_ok x (Z.to_nat (nlri_length packet)) rc (afi packet) (safi packet) (nlri packet)
    (nlri packet + nlri_length packet) Hs Haf Hafc ltac:(lia) ltac:(lia) ltac:(lia) y Hy) as (rc' & r & -> & Hr).
  cbn [mbind M_bind]. eauto.
Qed.

(** ** Families *)

Lemma end_of_rib_ok x rc flagged af saf : ran x rc (end_of_rib rc flagged af saf).
Proof.
  unfold Update.end_of_rib. set (rc1 := if flagged then _ else _).
  assert (ran x rc rc1) as H1 by (subst rc1; destruct flagged; [exact (ran_refl x rc)|apply ran_refl]).
  destruct (nsf af saf) eqn:En; [|done]. eapply ran_trans; [done|]. by apply ran_call.
Qed.

Lemma of_family_true packet af saf : of_family packet af saf = true → afi packet = af ∧ safi packet = saf.
Proof. unfold of_family. by rewrite andb_true_iff, !Z.eqb_eq. Qed.

(** A parse step in the middle of a run. *)
Lemma parse_if_then x rc0 rc y packet b af saf :
  ran x rc0 rc → stream_ok (ibuf (parser_ rc0)) → packet_in packet (endp (ibuf (parser_ rc0))) → y = None ∨ y = x →
  (b = true → nlri_length packet ≠ 0 → afi packet = af ∧ safi packet = saf) → (af = AFI_IP ∨ af = AFI_IP6) → afc af saf = true →
  ∃ rc', parse_if b rc y packet = Ok rc' ∧ ran x rc0 rc'.
Proof.
  intros Hr Hs Hp Hy Hb Haf Hafc. pose proof (ran_ibuf _ _ _ Hr) as Ei.
  destruct (parse_if_ok x b rc y packet) as (rc' & E & Hr'); rewrite ?Ei; try done.
  - intros Hbt Hn. by destruct (Hb Hbt Hn) as [-> ->].
  - exists rc'. split; [done|]. by eapply ran_trans.
Qed.

Lemma mp_family_ok x rc0 rc wl af saf flagged :
  ran x rc0 rc → stream_ok (ibuf (parser_ rc0)) → kept (parser_ rc0) → (af = AFI_IP ∨ af = AFI_IP6) →
  ∃ rc', mp_family rc x wl af saf flagged = Ok rc' ∧ ran x rc0 rc'.
Proof.
  intros Hr Hs (_ & Hu & Hw) Haf. unfold Update.mp_family. destruct (afc af saf) eqn:Ea; cbn [negb]; [|eauto].
  assert (mp_update (parser_ rc) = mp_update (parser_ rc0) ∧ mp_withdraw (parser_ rc) = mp_withdraw (parser_ rc0)) as [-> ->]
    by (by destruct Hr as [_ (t & -> & _)]).
  destruct (parse_if_then x rc0 rc x (mp_update (parser_ rc0)) (of_family (mp_update (parser_ rc0)) af saf) af saf) as (rc1 & -> & H1);
    auto using of_family_true.
  cbn [mbind M_bind].
  destruct (parse_if_then x rc0 rc1 None (mp_withdraw (parser_ rc0)) (of_family (mp_withdraw (parser_ rc0)) af saf) af saf) as (rc2 & -> & H2);
    auto using of_family_true.
  cbn [mbind M_bind]. eexists. split; [done|]. destruct (_ && _ && _); [|done].
  eapply ran_trans; [done|apply end_of_rib_ok].
Qed.

(** A list of IPv4 unicast prefixes inside the message, or none. *)
Definition plain (packet : bgp_nlri) (e : Z) : Prop :=
  packet_in packet e ∧ (nlri_length packet ≠ 0 → afi packet = AFI_IP ∧ safi packet = SAFI_UNICAST).

Lemma process_ok x rc withdraw update wl al :
  stream_ok (ibuf (parser_ rc)) → kept (parser_ rc) →
  plain withdraw (endp (ibuf (parser_ rc))) → plain update (endp (ibuf (parser_ rc))) →
  ∃ rc', process rc x withdraw update wl al = Ok rc' ∧ ran x rc rc'.
Proof.
  intros Hs Hk [Hw Hwf] [Hu Huf]. pose proof Hk as (_ & Hmu & Hmw). unfold Update.process.
  set (m := if afc AFI_IP SAFI_UNICAST then _ else _).
  assert (∃ rc1, m = Ok rc1 ∧ ran x rc rc1) as (rc1 & -> & H1).
  { subst m. destruct (afc AFI_IP SAFI_UNICAST) eqn:Ea; [|eexists; split; [done|apply ran_refl]].
    destruct (parse_if_then x rc rc None withdraw true AFI_IP SAFI_UNICAST) as (rc1 & -> & H1); auto using ran_refl. cbn [mbind M_bind].
    destruct (parse_if_then x rc rc1 x update true AFI_IP SAFI_UNICAST) as (rc2 & -> & H2); auto. cbn [mbind M_bind].
    destruct (parse_if_then x rc rc2 x (mp_update (parser_ rc)) (of_family (mp_update (parser_ rc)) AFI_IP SAFI_UNICAST)
      AFI_IP SAFI_UNICAST) as (rc3 & -> & H3); auto using of_family_true. cbn [mbind M_bind].
    destruct (parse_if_then x rc rc3 None (mp_withdraw (parser_ rc)) (of_family (mp_withdraw (parser_ rc)) AFI_IP SAFI_UNICAST)
      AFI_IP SAFI_UNICAST) as (rc4 & -> & H4); auto using of_family_true. cbn [mbind M_bind].
    eexists. split; [done|]. destruct (_ && _); [|done]. eapply ran_trans; [done|apply end_of_rib_ok]. }
  cbn [mbind M_bind].
  destruct (mp_family_ok x rc rc1 wl AFI_IP SAFI_MULTICAST true) as (rc2 & -> & H2); auto. cbn [mbind M_bind].
  destruct (mp_family_ok x rc rc2 wl AFI_IP6 SAFI_UNICAST true) as (rc3 & -> & H3); auto. cbn [mbind M_bind].
  destruct (mp_family_ok x rc rc3 wl AFI_IP6 SAFI_MULTICAST false) as (rc4 & -> & H4); auto. cbn [mbind M_bind].
  destruct (afc AFI_IP SAFI_MPLS_VPN); [|eauto].
  assert (∀ rc' y packet, ran x rc rc' → y = None ∨ y = x →
    ran x rc (if negb (nlri_length packet =? 0) && of_family packet AFI_IP SAFI_MPLS_LABELED_VPN
              then fst (do_call rc' (bgp_nlri_parse_vpnv4 y packet)) else rc')) as Hvpn.
  { intros rc' y packet Hr Hy. destruct (_ && _) eqn:Eb; [|done].
    apply andb_true_iff in Eb as [_ [Ef Es]%of_family_true]. eapply ran_trans; [done|]. by apply ran_call. }
  eexists. split; [done|]. apply Hvpn; [|by left]. apply Hvpn; auto.
Qed.

(** ** Messages *)

(** The steps before the attributes leave these alone. *)
Definition alike (st st' : parser) : Prop :=
  the_attr st' = the_attr st ∧ mp_update st' = mp_update st ∧ mp_withdraw st' = mp_withdraw st ∧
  tarpan_store st' = tarpan_store st.

Lemma alike_kept st st' : alike st st' → endp (ibuf st') = endp (ibuf st) → kept st → kept st'.
Proof. intros (E1 & E2 & E3 & E4) E. unfold kept. by rewrite E1, E2, E3, E4, E. Qed.

Lemma plain_nlri_ok st n :
  stream_ok (ibuf st) → 0 <= n → getp (ibuf st) + n <= endp (ibuf st) →
  ∃ st' r, plain_nlri st n = Ok (st', r) ∧ alike st st' ∧
    match r with
    | None => ibuf st' = ibuf st ∧ ∃ k, sent st' = sent st ++ [k]
    | Some packet => ibuf st' = set_getp (ibuf st) (getp (ibuf st) + n) ∧ sent st' = sent st ∧ plain packet (endp (ibuf st))
    end.
Proof.
  intros Hs Hn He. pose proof Hs as ([H0 _] & _). unfold plain_nlri. destruct (Z.eqb_spec n 0) as [->|].
  { eexists _, _. split; [done|]. split; [done|]. rewrite Z.add_0_r. split; [by destruct (ibuf st)|]. split; [done|].
    split; [|done]. unfold packet_in. cbn. lia. }
  destruct (sanity_check_ok st AFI_IP (getp (ibuf st)) n) as (st1 & r & -> & Hr); try done. cbn [mbind M_bind].
  destruct Hr as [[-> ->]|[-> ->]]; cbn [Z.ltb Z.compare].
  - rewrite forward_ok by done. cbn [mbind M_bind]. eexists _, _. split; [done|]. split; [done|]. split; [done|]. split; [done|].
    split; [|done]. by split_and!.
  - eexists _, _. split; [done|]. split; [done|]. split; [done|]. cbn. eauto.
Qed.

Lemma unintern_sub_ok st :
  (∀ b, tarpan_ (the_attr st) = Some b → held (tarpan_store st) b) →
  ∃ st', bgp_attr_unintern_sub st = Ok st' ∧ ibuf st' = ibuf st ∧ sent st' = sent st.
Proof.
  intros Hh. unfold bgp_attr_unintern_sub. destruct (tarpan_ (the_attr st)) as [b|]; [|eexists; by split].
  destruct (unintern_held _ b (Hh b eq_refl)) as (t & r & ->). cbn [mbind M_bind]. eexists. by split.
Qed.

(** The attribute of a route has all it must have. *)
Definition complete (x : attr) : Prop :=
  has x BGP_ATTR_ORIGIN = true ∧ has x BGP_ATTR_AS_PATH = true ∧
  (has x BGP_ATTR_NEXT_HOP = true ∨ has x BGP_ATTR_MP_REACH_NLRI = true) ∧
  (sort p = BGP_PEER_IBGP → has x BGP_ATTR_LOCAL_PREF = true) ∧
  is_Some (tarpan_ x) ∧ ∃ q, aspath_ x = Some q ∧ checked_path p q.

(** The parse of the attributes ended with a result the receiver does not
    know. *)
Definition unreported (x : attr) : Prop :=
  sort p = BGP_PEER_EBGP ∧ ∃ st st' n,
    bgp_attr_parse p unpack packet_received_handler new_tarpan new_tarpan_message (Ok past) st n =
      Ok (st', BGP_ATTR_PARSE_ERROR_NOTIFYPLS) ∧ x = the_attr st'.

(** What the message did. *)
Definition received (rc rc' : receiver) (ret : Z) : Prop :=
  stream_ok (ibuf (parser_ rc')) ∧ Stream.size (ibuf (parser_ rc')) = Stream.size (ibuf (parser_ rc)) ∧
  ((ret = -1 ∧ calls rc' = calls rc ∧ update_in rc' = update_in rc ∧ ∃ n ns, sent (parser_ rc') = sent (parser_ rc) ++ n :: ns) ∨
   (ret = 0 ∧ sent (parser_ rc') = sent (parser_ rc) ∧
    ∃ x cs, calls rc' = calls rc ++ cs ∧ Forall (proper x) cs ∧
      match x with None => True | Some x => complete x ∨ x = empty_attr ∨ unreported x end)).

Notation receive_attrs := (receive_attrs p unpack packet_received_handler new_tarpan new_tarpan_message (Ok past) answer established afc nsf).
Notation bgp_update_receive := (bgp_update_receive p unpack packet_received_handler new_tarpan new_tarpan_message (Ok past) answer established afc nsf).

(** After a NOTIFICATION. *)
Lemma received_error rc st n ns :
  stream_ok (ibuf st) → Stream.size (ibuf st) = Stream.size (ibuf (parser_ rc)) → sent st = sent (parser_ rc) ++ n :: ns →
  received rc (set_parser rc st) (-1).
Proof. intros Hs Hz E. split; [done|]. split; [done|]. left. do 3 (split; [done|]). by exists n, ns. Qed.

Lemma refuse_ok rc st code sub :
  stream_ok (ibuf st) → Stream.size (ibuf st) = Stream.size (ibuf (parser_ rc)) → sent st = sent (parser_ rc) →
  outcome unpack (ibuf (parser_ rc)) (refuse rc st code sub) (λ '(rc', ret), received rc rc' ret).
Proof. intros Hs Hz E. cbn. eapply received_error; [done..|]. cbn. by rewrite E. Qed.

(** The parse of the attributes, also of none. *)
Lemma attributes_ok st n :
  stream_ok (ibuf st) → the_attr st = empty_attr → tarpan_ready (tarpan_store st) new_tarpan new_tarpan_message →
  kept st → 0 <= n <= 4096 → getp (ibuf st) + n <= endp (ibuf st) →
  outcome unpack (ibuf st)
    (if negb (n =? 0)
     then bgp_attr_parse p unpack packet_received_handler new_tarpan new_tarpan_message (Ok past) st n
     else Ok (st, BGP_ATTR_PARSE_PROCEED))
    (λ '(st', r), stream_ok (ibuf st') ∧ extent (ibuf st) (ibuf st') ∧ kept st' ∧
      (r = BGP_ATTR_PARSE_ERROR → ∃ k ks, sent st' = sent st ++ k :: ks) ∧
      (r ≠ BGP_ATTR_PARSE_ERROR → sent st' = sent st ∧ getp (ibuf st) <= getp (ibuf st') <= getp (ibuf st) + n) ∧
      (r = BGP_ATTR_PARSE_PROCEED → complete (the_attr st') ∨ the_attr st' = empty_attr) ∧
      (r = BGP_ATTR_PARSE_ERROR_NOTIFYPLS → unreported (the_attr st'))).
Proof.
  intros Hs Ex Hr Hk Hn He. destruct (Z.eqb_spec n 0) as [->|]; cbn [negb].
  { cbn. do 3 (split; [done|]). split_and!; try done; [intros _; split; [done|lia]|auto]. }
  pose proof (attr_parse_ok p unpack packet_received_handler new_tarpan new_tarpan_message past st n Hhandler Hlocal Hs Hn He
    ltac:(by rewrite Ex) ltac:(by rewrite Ex) Hr) as H.
  destruct (bgp_attr_parse _ _ _ _ _ _ _ _) as [[st' r]|[]] eqn:E; [|done|done]. destruct H as (Hs' & Ee & Hk' & H).
  split; [done|]. split; [done|]. split; [auto|]. destruct r.
  - destruct H as (? & Hg & ? & ? & ? & ? & ? & ?). split_and!; try done; [intros _; split; [done|lia]|].
    intros _. left. unfold marked in *. by split_and!.
  - by split_and!.
  - destruct H as (? & ? & ?). by split_and!.
  - destruct H as (? & ? & ?). split_and!; try done. intros _. split; [done|]. eauto 6.
Qed.

Lemma receive_attrs_ok rc st end_ wl al withdraw :
  stream_ok (ibuf st) → the_attr st = empty_attr → tarpan_ready (tarpan_store st) new_tarpan new_tarpan_message →
  kept st → Stream.size (ibuf st) = Stream.size (ibuf (parser_ rc)) → sent st = sent (parser_ rc) → 0 <= al → getp (ibuf st) + al <= end_ → end_ - getp (ibuf st) <= 4096 →
  end_ <= endp (ibuf st) → plain withdraw (endp (ibuf st)) →
  outcome unpack (ibuf st) (receive_attrs rc st end_ wl al withdraw) (λ '(rc', ret), received rc rc' ret).
Proof.
  intros Hs Ex Hr Hk Ez Esent Hal Hle Hmax Hend Hw. unfold Update.receive_attrs.
  eapply outcome_bind; [apply (attributes_ok st al); try done; lia|]. intros [st1 r] (Hs1 & [Ee Ez1] & Hk1 & Her & Hok & Hpr & Hno).
  destruct (bool_decide_reflect (r = BGP_ATTR_PARSE_ERROR)) as [Hre|Hre].
  { destruct (unintern_sub_ok st1 (proj1 Hk1)) as (st2 & -> & Eb & Es). cbn. destruct (Her Hre) as (k & ks & E).
    apply (received_error rc st2 k ks); [by rewrite Eb|by rewrite Eb, Ez1|]. by rewrite Es, E, Esent. }
  destruct (Hok Hre) as [Es1 Hg1]. set (x := if bool_decide _ then _ else _).
  assert (match x with None => True | Some x => complete x ∨ x = empty_attr ∨ unreported x end) as Hx.
  { subst x. destruct (bool_decide_reflect (r = BGP_ATTR_PARSE_WITHDRAW)); [done|]. destruct r; try done; [destruct (Hpr eq_refl)|]; auto. }
  clearbody x. unfold u16. rewrite Z.mod_small by lia.
  destruct (plain_nlri_ok st1 (end_ - getp (ibuf st1))) as (st2 & r2 & -> & Ha & Hr2); [done|lia|lia|]. cbn [mbind M_bind].
  assert (ibuf st2 = ibuf st1 ∨ ibuf st2 = set_getp (ibuf st1) (getp (ibuf st1) + (end_ - getp (ibuf st1)))) as Eb2
    by (destruct r2; [right|left]; apply Hr2).
  assert (stream_ok (ibuf st2) ∧ extent (ibuf st1) (ibuf st2)) as [Hs2 [Ee2 Ez2] ].
  { destruct Eb2 as [-> | ->]; [done|]. split; [|done]. apply set_getp_ok; [done|]. pose proof Hs1 as (? & _). lia. }
  assert (kept st2) as Hk2 by (by eapply alike_kept). destruct r2 as [update|].
  2: { destruct (unintern_sub_ok st2 (proj1 Hk2)) as (st3 & -> & Eb & Es). destruct Hr2 as [_ [k Ek]].
       apply (received_error rc st3 k []); [by rewrite Eb|by rewrite Eb, Ez2, Ez1|]. by rewrite Es, Ek, Es1, Esent. }
  destruct Hr2 as (_ & Es2 & Hu).
  destruct (process_ok x (set_parser rc st2) withdraw update wl al) as (rc2 & -> & [(cs & Ec & Hcs) (t & Ep & Ht)]);
    [done|done|cbn; by rewrite Ee2, Ee|cbn; by rewrite Ee2|]. cbn [mbind M_bind].
  destruct (unintern_sub_ok (parser_ rc2)) as (st3 & -> & Eb & Es).
  { rewrite Ep. intros b Hb. apply Ht. by apply Hk2. }
  rewrite Ep in Eb, Es. cbn [parser_ set_parser ibuf sent set_tarpan_store] in Eb, Es.
  assert (∀ rc', parser_ rc' = st3 → calls rc' = calls rc2 → received rc rc' 0) as Hdone.
  { intros rc' E1 E2. split; [by rewrite E1, Eb|]. split; [by rewrite E1, Eb, Ez2, Ez1|]. right. split; [done|]. split; [congruence|].
    exists x, cs. split; [by rewrite E2, Ec|done]. }
  cbn [mbind M_bind]. destruct (negb _); by apply Hdone.
Qed.

(** The two length fields and the withdrawn prefixes before the attributes. *)
Lemma update_receive_ok rc size :
  stream_ok (ibuf (parser_ rc)) → size <= 4096 → getp (ibuf (parser_ rc)) + size <= endp (ibuf (parser_ rc)) →
  tarpan_ready (tarpan_store (parser_ rc)) new_tarpan new_tarpan_message →
  outcome unpack (ibuf (parser_ rc)) (bgp_update_receive rc size) (λ '(rc', ret), received rc rc' ret).
Proof.
  intros Hs Hmax He Hr. unfold Update.bgp_update_receive. destruct (negb _); [by apply refuse_ok|].
  set (st := set_mp_withdraw _ _). change (ibuf (parser_ rc)) with (ibuf st) in *. set (end_ := getp (ibuf st) + size) in *.
  assert (kept st) as Hk.
  { pose proof Hs as (? & _). split; [done|]. split; change (packet_in empty_nlri (endp (ibuf st))); unfold packet_in; cbn [nlri nlri_length empty_nlri]; lia. }
  destruct (Z.ltb_spec end_ (getp (ibuf st) + 2)); [by apply refuse_ok|].
  rewrite getw_ok by (done || lia). cbn [mbind M_bind]. set (s := set_getp _ _). set (wl := be_value _).
  assert (stream_ok s) as Hss by (apply set_getp_ok; [done|]; pose proof Hs as (? & _); lia).
  assert (getp s = getp (ibuf st) + 2 ∧ endp s = endp (ibuf st)) as [Eg Ee] by done.
  assert (0 <= wl) as Hwl by (apply be_value_bound, ahead_bytes, Hs).
  destruct (Z.ltb_spec end_ (getp s + wl)); [by apply refuse_ok|].
  destruct (plain_nlri_ok (set_ibuf st s) wl Hss Hwl) as (st1 & r & -> & (Ex & Emu & Emw & Et) & H1); [cbn [ibuf set_ibuf]; lia|]. cbn [mbind M_bind].
  destruct r as [withdraw|].
  2: { destruct H1 as [Eb [k Ek]]. eapply received_error; [by rewrite Eb|by rewrite Eb|]. exact Ek. }
  destruct H1 as (Eb & Es & Hw). cbn [ibuf set_ibuf] in Eb, Hw.
  assert (stream_ok (ibuf st1)) as Hs1 by (rewrite Eb; apply set_getp_ok; [done|]; pose proof Hss as (? & _); lia).
  assert (endp (ibuf st1) = endp (ibuf st)) as Ee1 by (by rewrite Eb).
  assert (getp (ibuf st1) = getp (ibuf st) + 2 + wl) as Eg1 by (by rewrite Eb).
  destruct (Z.ltb_spec end_ (getp (ibuf st1) + 2)); [by apply refuse_ok; [|rewrite Eb|rewrite Es]|].
  rewrite getw_ok by (done || lia). cbn [mbind M_bind]. set (s2 := set_getp (ibuf st1) _). set (al := be_value (ahead (ibuf st1) 2)).
  assert (0 <= al) as Hal by (apply be_value_bound, ahead_bytes, Hs1). pose proof Hs1 as (? & _).
  assert (stream_ok s2) as Hs2 by (apply set_getp_ok; [done|]; lia).
  destruct (Z.ltb_spec end_ (getp s2 + al)); [by apply refuse_ok; [|cbn; rewrite Eb|cbn; rewrite Es]|].
  assert (outcome unpack s2 (receive_attrs rc (set_ibuf st1 s2) end_ wl al withdraw) (λ '(rc', ret), received rc rc' ret)) as Hattrs.
  { apply receive_attrs_ok; cbn [ibuf set_ibuf the_attr tarpan_store sent]; try done; rewrite ?Et; try done.
    { unfold kept. cbn [the_attr tarpan_store set_ibuf ibuf mp_update mp_withdraw]. rewrite Ex, Et, Emu, Emw. split; [done|].
      cbn [endp s2 set_getp]. rewrite Ee1. apply Hk. }
    { subst s2. rewrite Eb. done. }
    all: subst s2; at_stream; rewrite ?Ee1; (lia || done). }
  unfold outcome in *. destruct (receive_attrs _ _ _ _ _ _) as [|[]]; try done.
  eapply undecodable_advanced; [done| |exact Hattrs]. split; [done|]. subst s2. at_stream. rewrite Eb. subst s. at_stream.
  split_and!; [done|done|lia|done].
Qed.

End soundness.


(** ** Examples *)

(** The daemon with one established session, IPv4 and IPv6 unicast, and a routing
    table that accepts every route; the buffer holds the message. *)
Definition ex_families (af saf : Z) : bool := ((af =? AFI_IP) || (af =? AFI_IP6)) && (saf =? SAFI_UNICAST).
Definition ex_receiver (bytes : list Z) : receiver := Receiver (ex_state bytes) [] [] 0 false.
Definition ex_answer (l : list call) (c : call) (t : store) : Z * store := (0, t).
Notation ex_receive bytes :=
  (bgp_update_receive ex_peer unpack_example (Some wiser_packet_received_handler) 1 4096 (Ok 0) ex_answer (λ _, true)
    ex_families ex_families (ex_receiver bytes) (Z.of_nat (length bytes))).

(** The result with the calls, the NOTIFICATIONs and the families that are
    complete. *)
Definition summary (m : M (receiver * Z)) : option (Z * list call * list notification * list (Z * Z)) :=
  match m with Ok (rc, ret) => Some (ret, calls rc, sent (parser_ rc), eor_received rc) | Fault _ => None end.

(** 10.1.0.0/16 withdrawn; 10.0.0.0/8 and 192.0.2.0/24 announced. *)
Definition ex_update : list Z :=
  [0; 3; 16; 10; 1] ++ [0; 18] ++ ex_list ++ [8; 10; 24; 192; 0; 2].

Lemma ex_update_received :
  ∃ rc' x, ex_receive ex_update = Ok (rc', 0) ∧
    calls rc' = [bgp_withdraw (Prefix AF_INET 16 ([10; 1] ++ zeros 14)) AFI_IP SAFI_UNICAST;
                 bgp_update (Prefix AF_INET 8 ([10] ++ zeros 15)) x AFI_IP SAFI_UNICAST;
                 bgp_update (Prefix AF_INET 24 ([192; 0; 2] ++ zeros 13)) x AFI_IP SAFI_UNICAST] ∧
    nexthop x = [192; 0; 2; 1].
Proof.
  destruct (ex_receive ex_update) as [[rc' r]|] eqn:E; [|by vm_compute in E].
  vm_compute in E. injection E as <- <-. eexists _, _. split; [reflexivity|]. split; reflexivity.
Qed.



(** A prefix without attributes is announced with an empty attribute, without
    AS path and without Tarpan attribute: no check runs when the length of the
    attribute list is 0. *)
Example update_without_attributes :
  summary (ex_receive ([0; 0; 0; 0] ++ [8; 10])) =
    Some (0, [bgp_update (Prefix AF_INET 8 ([10] ++ zeros 15)) empty_attr AFI_IP SAFI_UNICAST;
              bgp_clear_stale_route AFI_IP SAFI_UNICAST], [], [(AFI_IP, SAFI_UNICAST)]).
Proof. vm_compute. reflexivity. Qed.


(** A malformed AS4_PATH, partial and optional, should only withdraw the routes
    of the message, and does when it is the last attribute.  When others follow, the
    parser stops before them and the receiver takes them for prefixes: here the flags
    of ORIGIN for a prefix of length 64, which resets the session. *)
Example treat_as_withdraw_resets :
  summary (ex_receive ([0; 0; 0; 8] ++ [0x40; 1; 1; 0] ++ [0xe0; 17; 1; 0] ++ [8; 10])) =
    Some (0, [bgp_withdraw (Prefix AF_INET 8 ([10] ++ zeros 15)) AFI_IP SAFI_UNICAST], [], []) ∧
  summary (ex_receive ([0; 0; 0; 8] ++ [0xe0; 17; 1; 0] ++ [0x40; 1; 1; 0] ++ [8; 10])) =
    Some (-1, [], [Notify BGP_NOTIFY_UPDATE_ERR BGP_NOTIFY_UPDATE_INVAL_NETWORK []], []).
Proof. split; vm_compute; reflexivity. Qed.

(** A multicast prefix ends the list: the prefixes after it are neither
    announced nor reported. *)
Example multicast_prefix_drops_rest :
  ∃ x, summary (ex_receive ([0; 0] ++ [0; 18] ++ ex_list ++ [8; 10; 8; 224; 8; 11])) =
    Some (0, [bgp_update (Prefix AF_INET 8 ([10] ++ zeros 15)) x AFI_IP SAFI_UNICAST], [], []).
Proof. eexists. vm_compute. reflexivity. Qed.
