(* ===== verification/Open.v ===== *)
(** OPEN messages: the optional parameters and capabilities of bgpd/bgp_open.c in
    both directions, and [bgp_open_receive] with what it calls of
    bgpd/bgp_packet.c.

    The parsers change the peer of Fsm.v and the position in its input buffer.  A
    NOTIFICATION is sent as in Fsm.v; [notified] also keeps its data. *)
From S2P Require Import Prelude Prefix Stream ASPath Fsm.
Open Scope Z_scope.

(** ** Constants *)

Definition CAPABILITY_CODE_MP : Z := 1.
Definition CAPABILITY_CODE_REFRESH : Z := 2.
Definition CAPABILITY_CODE_ORF : Z := 3.
Definition CAPABILITY_CODE_RESTART : Z := 64.
Definition CAPABILITY_CODE_AS4 : Z := 65.
Definition CAPABILITY_CODE_DYNAMIC : Z := 66.
Definition CAPABILITY_CODE_REFRESH_OLD : Z := 128.
Definition CAPABILITY_CODE_ORF_OLD : Z := 130.
Definition CAPABILITY_CODE_MP_LEN : Z := 4.
Definition CAPABILITY_CODE_REFRESH_LEN : Z := 0.
Definition CAPABILITY_CODE_DYNAMIC_LEN : Z := 0.
Definition CAPABILITY_CODE_AS4_LEN : Z := 4.
Definition ORF_MODE_RECEIVE : Z := 1.
Definition ORF_MODE_SEND : Z := 2.
Definition ORF_MODE_BOTH : Z := 3.
Definition RESTART_R_BIT : Z := 0x8000.
Definition RESTART_F_BIT : Z := 0x80.
Definition BGP_OPEN_OPT_AUTH : Z := 1.
Definition BGP_OPEN_OPT_CAP : Z := 2.
Definition BGP_MAX_PACKET_SIZE : Z := 4096.
Definition BGP_VERSION_4 : Z := 4.

Definition PEER_FLAG_DONT_CAPABILITY : Z := 4.
Definition PEER_FLAG_OVERRIDE_CAPABILITY : Z := 8.
Definition PEER_FLAG_STRICT_CAP_MATCH : Z := 16.
Definition PEER_FLAG_DYNAMIC_CAPABILITY : Z := 32.
Definition PEER_FLAG_ORF_PREFIX_SM : Z := 4096.
Definition PEER_FLAG_ORF_PREFIX_RM : Z := 8192.
Definition PEER_CAP_REFRESH_ADV : Z := 1.
Definition PEER_CAP_REFRESH_OLD_RCV : Z := 2.
Definition PEER_CAP_DYNAMIC_ADV : Z := 8.
Definition PEER_CAP_DYNAMIC_RCV : Z := 16.
Definition PEER_CAP_RESTART_RCV : Z := 64.
Definition PEER_CAP_AS4_ADV : Z := 128.
Definition PEER_CAP_AS4_RCV : Z := 256.
Definition PEER_CAP_RESTART_BIT_ADV : Z := 512.
Definition PEER_CAP_RESTART_BIT_RCV : Z := 1024.
Definition BGP_FLAG_GRACEFUL_RESTART : Z := 4096.

Definition BGP_NOTIFY_CEASE : Z := 6.
Definition BGP_NOTIFY_OPEN_ERR : Z := 2.
Definition BGP_NOTIFY_OPEN_UNSUP_VERSION : Z := 1.
Definition BGP_NOTIFY_OPEN_BAD_PEER_AS : Z := 2.
Definition BGP_NOTIFY_OPEN_BAD_BGP_IDENT : Z := 3.
Definition BGP_NOTIFY_OPEN_UNSUP_PARAM : Z := 4.
Definition BGP_NOTIFY_OPEN_AUTH_FAILURE : Z := 5.
Definition BGP_NOTIFY_OPEN_UNACEP_HOLDTIME : Z := 6.
Definition BGP_NOTIFY_OPEN_UNSUP_CAPBL : Z := 7.
Definition BGP_NOTIFY_CEASE_CONNECT_REJECT : Z := 5.
Definition BGP_NOTIFY_CEASE_COLLISION_RESOLUTION : Z := 7.

(** ** State *)

Record notification := Notify { ncode : Z; nsubcode : Z; ndata : list Z }.

Record reader := Reader {
  pr : peer;
  ibuf : stream;
  notified : list notification;
}.
Definition set_pr (c : reader) (p : peer) : reader := Reader p (ibuf c) (notified c).
Definition set_ibuf (c : reader) (s : stream) : reader := Reader (pr c) s (notified c).

(** What the option parsers also carry: whether a multiprotocol capability was
    met, and the bytes copied into [error_data]. *)
Record opts := Opts { rd_ : reader; mp_capability : bool; error : list Z }.
Definition set_rd (o : opts) (c : reader) : opts := Opts c (mp_capability o) (error o).

(** Writing to an array of families, of [AFI_MAX] by [SAFI_MAX] elements. *)
Definition af_put (a : array) (k : Z * Z) (v : Z) : M array :=
  if (0 <=? fst k) && (fst k <? AFI_MAX) && (0 <=? snd k) && (snd k <? SAFI_MAX) then Ok (put a k v) else Fault Undefined.

Section open.
Context (e : env).

Definition bgp_notify_send_with_data (c : reader) (code sub : Z) (data : list Z) : reader :=
  Reader (bgp_notify_send e (pr c) code sub) (ibuf c) (notified c ++ [Notify code sub data]).
Notation notify c code sub := (bgp_notify_send_with_data c code sub []).

(** ** Capabilities *)

Definition bgp_capability_mp_data (s : stream) : M (stream * (Z * Z)) :=
  '(s, afi) ← stream_getw s;
  '(s, _) ← stream_getc s;
  '(s, safi) ← stream_getc s;
  Ok (s, (afi, safi)).

(** The adjusted [safi], if the family is valid. *)
Definition bgp_afi_safi_valid_indices (afi safi : Z) : option Z :=
  if (afi =? AFI_IP) || (afi =? AFI_IP6) then
    if safi =? SAFI_MPLS_LABELED_VPN then Some SAFI_MPLS_VPN
    else if (safi =? SAFI_UNICAST) || (safi =? SAFI_MULTICAST) || (safi =? SAFI_MPLS_VPN) then Some safi
    else None
  else None.

Definition bgp_capability_mp (c : reader) : M (reader * Z) :=
  '(s, (afi, safi)) ← bgp_capability_mp_data (ibuf c);
  let c := set_ibuf c s in
  match bgp_afi_safi_valid_indices afi safi with
  | None => Ok (c, -1)
  | Some safi =>
      recv ← af_put (afc_recv (pr c)) (afi, safi) 1;
      let p := set_afc_recv (pr c) recv in
      if afc (conf p) (afi, safi) =? 0 then Ok (set_pr c p, -1)
      else nego ← af_put (afc_nego p) (afi, safi) 1; Ok (set_pr c (set_afc_nego p nego), 0)
  end.

(** Setting flags of a family in [af_cap]. *)
Definition set_af_flag (p : peer) (k : Z * Z) (f : Z) : M peer :=
  a ← af_put (af_cap p) k (SET_FLAG (af_cap p k) f); Ok (set_af_cap p a).

(** What an ORF entry of a type and mode sets: the flags of the send and of the
    receive mode, if it is supported. *)
Definition orf_flags (code afi safi type : Z) : option (Z * Z) :=
  let fam := ((afi =? AFI_IP) && (safi =? SAFI_UNICAST)) || ((afi =? AFI_IP) && (safi =? SAFI_MULTICAST))
             || ((afi =? AFI_IP6) && (safi =? SAFI_UNICAST)) in
  if (code =? CAPABILITY_CODE_ORF) && (type =? ORF_TYPE_PREFIX) && fam
  then Some (PEER_CAP_ORF_PREFIX_SM_RCV, PEER_CAP_ORF_PREFIX_RM_RCV)
  else if (code =? CAPABILITY_CODE_ORF_OLD) && (type =? ORF_TYPE_PREFIX_OLD) && fam
  then Some (PEER_CAP_ORF_PREFIX_SM_OLD_RCV, PEER_CAP_ORF_PREFIX_RM_OLD_RCV)
  else None.

Definition orf_mode (p : peer) (k : Z * Z) (flags : option (Z * Z)) (mode : Z) : M peer :=
  match flags with
  | None => Ok p
  | Some (sm_cap, rm_cap) =>
      if mode =? ORF_MODE_BOTH then p ← set_af_flag p k sm_cap; set_af_flag p k rm_cap
      else if mode =? ORF_MODE_SEND then set_af_flag p k sm_cap
      else if mode =? ORF_MODE_RECEIVE then set_af_flag p k rm_cap
      else Ok p
  end.

Fixpoint orf_loop (num : nat) (c : reader) (code afi safi : Z) : M reader :=
  match num with
  | O => Ok c
  | S num' =>
      '(s, type) ← stream_getc (ibuf c);
      '(s, mode) ← stream_getc s;
      let c := set_ibuf c s in
      p ← orf_mode (pr c) (afi, safi) (orf_flags code afi safi type) mode;
      orf_loop num' (set_pr c p) code afi safi
  end.

Definition bgp_capability_orf_entry (c : reader) (code length_ : Z) : M (reader * Z) :=
  '(s, (afi, safi)) ← bgp_capability_mp_data (ibuf c);
  '(s, num) ← stream_getc s;
  let c := set_ibuf c s in
  match bgp_afi_safi_valid_indices afi safi with
  | None => Ok (c, 0)
  | Some safi =>
      (* sizeof (struct capability_orf_entry) is 5 *)
      if length_ <? 5 + num * 2 then Ok (notify c BGP_NOTIFY_CEASE 0, -1) else
      c ← orf_loop (Z.to_nat num) c code afi safi;
      Ok (c, 0)
  end.

(** A family of a graceful restart capability. *)
Definition restart_family (p : peer) (afi safi flag : Z) : M peer :=
  match bgp_afi_safi_valid_indices afi safi with
  | None => Ok p
  | Some safi =>
      if afc (conf p) (afi, safi) =? 0 then Ok p
      else
        p ← set_af_flag p (afi, safi) PEER_CAP_RESTART_AF_RCV;
        if CHECK_FLAG flag RESTART_F_BIT then set_af_flag p (afi, safi) PEER_CAP_RESTART_AF_PRESERVE_RCV else Ok p
  end.

(** The families, four bytes each. *)
Fixpoint restart_loop (fuel : nat) (c : reader) (end_ : Z) : M reader :=
  if end_ <? getp (ibuf c) + 4 then Ok c else
  match fuel with
  | O => Fault Undefined
  | S fuel' =>
      '(s, afi) ← stream_getw (ibuf c);
      '(s, safi) ← stream_getc s;
      '(s, flag) ← stream_getc s;
      let c := set_ibuf c s in
      p ← restart_family (pr c) afi safi flag;
      restart_loop fuel' (set_pr c p) end_
  end.

Definition bgp_capability_restart (c : reader) (length_ : Z) : M reader :=
  let end_ := getp (ibuf c) + length_ in
  let p := set_cap (pr c) (SET_FLAG (cap (pr c)) PEER_CAP_RESTART_RCV) in
  '(s, restart_flag_time) ← stream_getw (ibuf c);
  let p := if CHECK_FLAG restart_flag_time RESTART_R_BIT then set_cap p (SET_FLAG (cap p) PEER_CAP_RESTART_BIT_RCV) else p in
  let p := set_v_gr_restart p (UNSET_FLAG restart_flag_time 0xF000) in
  restart_loop (Z.to_nat length_) (set_ibuf (set_pr c p) s) end_.

(** The AS number, 0 on an error. *)
Definition bgp_capability_as4 (c : reader) (length_ : Z) : M (reader * Z) :=
  let c := set_pr c (set_cap (pr c) (SET_FLAG (cap (pr c)) PEER_CAP_AS4_RCV)) in
  if negb (length_ =? CAPABILITY_CODE_AS4_LEN) then Ok (c, 0) else
  '(s, as4) ← stream_getl (ibuf c);
  Ok (set_ibuf c s, as4).

(** [cap_minsizes], for the codes that are checked. *)
Definition cap_minsizes : list (Z * Z) :=
  [(CAPABILITY_CODE_MP, 4); (CAPABILITY_CODE_REFRESH, CAPABILITY_CODE_REFRESH_LEN); (CAPABILITY_CODE_ORF, 5);
   (CAPABILITY_CODE_RESTART, 2); (CAPABILITY_CODE_AS4, CAPABILITY_CODE_AS4_LEN);
   (CAPABILITY_CODE_DYNAMIC, CAPABILITY_CODE_DYNAMIC_LEN); (CAPABILITY_CODE_REFRESH_OLD, CAPABILITY_CODE_REFRESH_LEN);
   (CAPABILITY_CODE_ORF_OLD, 5)].
Definition too_short (code length_ : Z) : bool :=
  existsb (λ cm, (fst cm =? code) && (length_ <? snd cm)) cap_minsizes.

(** [n] bytes at [sp] are appended to [error_data]. *)
Definition store_error (o : opts) (sp n : Z) : M opts :=
  b ← rdn (data (ibuf (rd_ o))) sp n;
  if BGP_MAX_PACKET_SIZE <? Z.of_nat (length (error o)) + n then Fault Undefined
  else Ok (Opts (rd_ o) (mp_capability o) (error o ++ b)).

Definition set_cap_flag (o : opts) (f : Z) : opts :=
  set_rd o (set_pr (rd_ o) (set_cap (pr (rd_ o)) (SET_FLAG (cap (pr (rd_ o))) f))).

(** The capability whose header is at [sp]; [Some ret] ends the parse. *)
Definition handle_capability (o : opts) (sp code length_ : Z) : M (opts * option Z) :=
  if code =? CAPABILITY_CODE_MP then
    let o := Opts (rd_ o) true (error o) in
    if CHECK_FLAG (pflags (pr (rd_ o))) PEER_FLAG_OVERRIDE_CAPABILITY then Ok (o, None) else
    '(c, ret) ← bgp_capability_mp (rd_ o);
    let o := set_rd o c in
    if ret <? 0 then o ← store_error o sp (length_ + 2); Ok (o, None) else Ok (o, None)
  else if (code =? CAPABILITY_CODE_REFRESH) || (code =? CAPABILITY_CODE_REFRESH_OLD) then
    Ok (set_cap_flag o (if code =? CAPABILITY_CODE_REFRESH_OLD then PEER_CAP_REFRESH_OLD_RCV else PEER_CAP_REFRESH_NEW_RCV), None)
  else if (code =? CAPABILITY_CODE_ORF) || (code =? CAPABILITY_CODE_ORF_OLD) then
    '(c, ret) ← bgp_capability_orf_entry (rd_ o) code length_;
    Ok (set_rd o c, if negb (ret =? 0) then Some (-1) else None)
  else if code =? CAPABILITY_CODE_RESTART then
    c ← bgp_capability_restart (rd_ o) length_; Ok (set_rd o c, None)
  else if code =? CAPABILITY_CODE_DYNAMIC then Ok (set_cap_flag o PEER_CAP_DYNAMIC_RCV, None)
  else if code =? CAPABILITY_CODE_AS4 then
    '(c, as4) ← bgp_capability_as4 (rd_ o) length_;
    Ok (set_rd o c, if as4 =? 0 then Some (-1) else None)
  else if 128 <? code then Ok (o, None)
  else o ← store_error o sp (length_ + 2); Ok (o, None).

(** One round of the loop. *)
Definition capability_round (o : opts) (end_ : Z) : M (opts * option Z) :=
  let sp := getp (ibuf (rd_ o)) in
  let cease (o : opts) := Ok (set_rd o (notify (rd_ o) BGP_NOTIFY_CEASE 0), Some (-1)) in
  if end_ <? sp + 2 then cease o else
  '(s, code) ← stream_getc (ibuf (rd_ o));
  '(s, length_) ← stream_getc s;
  let start := getp s in
  let o := set_rd o (set_ibuf (rd_ o) s) in
  if end_ <? start + length_ then cease o else
  if too_short code length_ then cease o else
  '(o, r) ← handle_capability o sp code length_;
  match r with
  | Some ret => Ok (o, Some ret)
  | None =>
      if negb (getp (ibuf (rd_ o)) =? start + length_) then
        s ← stream_set_getp (ibuf (rd_ o)) (start + length_);
        Ok (set_rd o (set_ibuf (rd_ o) s), None)
      else Ok (o, None)
  end.

Fixpoint capability_loop (fuel : nat) (o : opts) (end_ : Z) : M (opts * Z) :=
  if end_ <=? getp (ibuf (rd_ o)) then Ok (o, 0) else
  match fuel with
  | O => Fault Undefined
  | S fuel' =>
      '(o, r) ← capability_round o end_;
      match r with Some ret => Ok (o, ret) | None => capability_loop fuel' o end_ end
  end.

Definition bgp_capability_parse (o : opts) (length_ : Z) : M (opts * Z) :=
  let end_ := getp (ibuf (rd_ o)) + length_ in
  assert! (length_ <=? STREAM_READABLE (ibuf (rd_ o))) ;;
  capability_loop (Z.to_nat length_) o end_.

(** ** Optional parameters *)

Definition strict_capability_same (p : peer) : bool :=
  forallb (λ k, afc (conf p) k =? afc_nego p k) families.

Fixpoint option_loop (fuel : nat) (o : opts) (end_ : Z) : M (opts * Z) :=
  if end_ <=? getp (ibuf (rd_ o)) then Ok (o, 0) else
  let send (o : opts) code sub := Ok (set_rd o (notify (rd_ o) code sub), -1) in
  if STREAM_READABLE (ibuf (rd_ o)) <? 2 then send o BGP_NOTIFY_CEASE 0 else
  '(s, opt_type) ← stream_getc (ibuf (rd_ o));
  '(s, opt_length) ← stream_getc s;
  let o := set_rd o (set_ibuf (rd_ o) s) in
  if STREAM_READABLE s <? opt_length then send o BGP_NOTIFY_CEASE 0 else
  '(o, ret) ← (if opt_type =? BGP_OPEN_OPT_AUTH then send o BGP_NOTIFY_OPEN_ERR BGP_NOTIFY_OPEN_AUTH_FAILURE
               else if opt_type =? BGP_OPEN_OPT_CAP then bgp_capability_parse o opt_length
               else send o BGP_NOTIFY_OPEN_ERR BGP_NOTIFY_OPEN_UNSUP_PARAM);
  if ret <? 0 then Ok (o, -1) else
  match fuel with
  | O => Fault Undefined
  | S fuel' => option_loop fuel' o end_
  end.

(** The checks after all options were read. *)
Definition option_check (o : opts) : opts * Z :=
  let send (o : opts) data := (set_rd o (bgp_notify_send_with_data (rd_ o) BGP_NOTIFY_OPEN_ERR BGP_NOTIFY_OPEN_UNSUP_CAPBL data), -1) in
  let p := pr (rd_ o) in
  if CHECK_FLAG (pflags p) PEER_FLAG_STRICT_CAP_MATCH && negb (bool_decide (error o = [])) then send o (error o)
  else if CHECK_FLAG (pflags p) PEER_FLAG_STRICT_CAP_MATCH && negb (strict_capability_same p) then send o []
  else if mp_capability o && negb (CHECK_FLAG (pflags p) PEER_FLAG_OVERRIDE_CAPABILITY)
          && forallb (λ k, afc_nego p k =? 0) [(1, 1); (1, 2); (1, 4); (2, 1); (2, 2)]
  then send o (error o)
  else (o, 0).

Definition bgp_open_option_parse (c : reader) (length_ : Z) : M (opts * Z) :=
  '(o, ret) ← option_loop (Z.to_nat (endp (ibuf c))) (Opts c false []) (getp (ibuf c) + length_);
  if ret <? 0 then Ok (o, -1) else Ok (option_check o).

(** ** Looking for the AS number first *)

(** The capabilities up to [capd_end]; [Some as4] is [goto end]. *)
Fixpoint peek_caps (fuel : nat) (c : reader) (capd_end : Z) : M (reader * option Z) :=
  if capd_end <=? getp (ibuf c) then Ok (c, None) else
  if capd_end <? getp (ibuf c) + 2 then Ok (c, Some 0) else
  '(s, code) ← stream_getc (ibuf c);
  '(s, length_) ← stream_getc s;
  let c := set_ibuf c s in
  if capd_end <? getp s + length_ then Ok (c, Some 0) else
  if code =? CAPABILITY_CODE_AS4 then '(c, as4) ← bgp_capability_as4 c length_; Ok (c, Some as4) else
  s ← stream_forward_getp s length_;
  match fuel with
  | O => Fault Undefined
  | S fuel' => peek_caps fuel' (set_ibuf c s) capd_end
  end.

(** The options; the content of one that holds no capabilities is not skipped. *)
Fixpoint peek_opts (fuel : nat) (c : reader) (end_ : Z) : M (reader * Z) :=
  if end_ <=? getp (ibuf c) then Ok (c, 0) else
  if end_ <? getp (ibuf c) + 2 then Ok (c, 0) else
  '(s, opt_type) ← stream_getc (ibuf c);
  '(s, opt_length) ← stream_getc s;
  let c := set_ibuf c s in
  if end_ <? getp s + opt_length then Ok (c, 0) else
  '(c, r) ← (if opt_type =? BGP_OPEN_OPT_CAP then
               assert! (getp s + opt_length <=? end_) ;;
               peek_caps (Z.to_nat opt_length) c (getp s + opt_length)
             else Ok (c, None));
  match r with
  | Some as4 => Ok (c, as4)
  | None => match fuel with O => Fault Undefined | S fuel' => peek_opts fuel' c end_ end
  end.

Definition peek_for_as4_capability (c : reader) (length_ : Z) : M (reader * Z) :=
  let orig_getp := getp (ibuf c) in
  if STREAM_READABLE (ibuf c) <? length_ then Ok (c, 0) else
  '(c, as4) ← peek_opts (Z.to_nat length_) c (orig_getp + length_);
  s ← stream_set_getp (ibuf c) orig_getp;
  Ok (set_ibuf c s, as4).
End open.

(** ** Sending *)

(** What else of the configuration an OPEN message tells: the flags of each
    family, the AS numbers, the restart time of the instance, whether it is starting
    up, and its flags. *)
Record open_conf := OpenConf {
  af_flags : array;
  local_as : Z;
  change_local_as : Z;
  bgp_restart_time : Z;
  t_startup : bool;
  bgp_flags : Z;
}.

Definition af_get (a : array) (k : Z * Z) : M Z :=
  if (0 <=? fst k) && (fst k <? AFI_MAX) && (0 <=? snd k) && (snd k <? SAFI_MAX) then Ok (a k) else Fault Undefined.

(** Calls of [stream_putc] and of [stream_putw]. *)
Fixpoint putcs (s : stream) (l : list Z) : M stream :=
  match l with [] => Ok s | c :: l' => '(s, _) ← stream_putc s c; putcs s l' end.
Definition putw (s : stream) (w : Z) : M stream := '(s, _) ← stream_putw s w; Ok s.
Definition putc_at (s : stream) (pos c : Z) : M stream := '(s, _) ← stream_putc_at s pos c; Ok s.

(** The multiprotocol capability of a family, written with [safi]. *)
Definition put_mp (sp : stream * peer) (k : Z * Z) (safi : Z) : M (stream * peer) :=
  let '(s, p) := sp in
  if afc (conf p) k =? 0 then Ok (s, p) else
  adv ← af_put (afc_adv p) k 1;
  s ← putcs s [BGP_OPEN_OPT_CAP; CAPABILITY_CODE_MP_LEN + 2; CAPABILITY_CODE_MP; CAPABILITY_CODE_MP_LEN];
  s ← putw s (fst k);
  s ← putcs s [0; safi];
  Ok (s, set_afc_adv p adv).

(** The five of them. *)
Definition put_mps (sp : stream * peer) : M (stream * peer) :=
  sp ← put_mp sp (AFI_IP, SAFI_UNICAST) SAFI_UNICAST;
  sp ← put_mp sp (AFI_IP, SAFI_MULTICAST) SAFI_MULTICAST;
  sp ← put_mp sp (AFI_IP, SAFI_MPLS_VPN) SAFI_MPLS_LABELED_VPN;
  sp ← put_mp sp (AFI_IP6, SAFI_UNICAST) SAFI_UNICAST;
  put_mp sp (AFI_IP6, SAFI_MULTICAST) SAFI_MULTICAST.

(** A capability without data. *)
Definition put_plain (s : stream) (code : Z) : M stream := putcs s [BGP_OPEN_OPT_CAP; 2; code; 0].

(** The dynamic capability. *)
Definition put_dynamic (s : stream) (p : peer) : M (stream * peer) :=
  if CHECK_FLAG (pflags p) PEER_FLAG_DYNAMIC_CAPABILITY then
    s ← put_plain s CAPABILITY_CODE_DYNAMIC;
    Ok (s, set_cap p (SET_FLAG (cap p) PEER_CAP_DYNAMIC_ADV))
  else Ok (s, p).

Section send.
Context (oc : open_conf).

Definition bgp_open_capability_orf (s : stream) (p : peer) (afi safi code : Z) : M (stream * peer) :=
  let safi := if safi =? SAFI_MPLS_VPN then SAFI_MPLS_LABELED_VPN else safi in
  s ← putcs s [BGP_OPEN_OPT_CAP];
  let capp := endp s in
  s ← putcs s [0; code];
  let orfp := endp s in
  s ← putcs s [0];
  s ← putw s afi;
  s ← putcs s [0; safi];
  let numberp := endp s in
  s ← putcs s [0];
  f ← af_get (af_flags oc) (afi, safi);
  let sm := CHECK_FLAG f PEER_FLAG_ORF_PREFIX_SM in
  let rm := CHECK_FLAG f PEER_FLAG_ORF_PREFIX_RM in
  '(s, p, number_of_orfs) ←
    (if sm || rm then
       s ← putcs s [if code =? CAPABILITY_CODE_ORF then ORF_TYPE_PREFIX else ORF_TYPE_PREFIX_OLD];
       if sm && rm then
         p ← set_af_flag p (afi, safi) PEER_CAP_ORF_PREFIX_SM_ADV;
         p ← set_af_flag p (afi, safi) PEER_CAP_ORF_PREFIX_RM_ADV;
         s ← putcs s [ORF_MODE_BOTH];
         Ok (s, p, 1)
       else if sm then
         p ← set_af_flag p (afi, safi) PEER_CAP_ORF_PREFIX_SM_ADV;
         s ← putcs s [ORF_MODE_SEND];
         Ok (s, p, 1)
       else
         p ← set_af_flag p (afi, safi) PEER_CAP_ORF_PREFIX_RM_ADV;
         s ← putcs s [ORF_MODE_RECEIVE];
         Ok (s, p, 1)
     else Ok (s, p, 0));
  s ← putc_at s numberp number_of_orfs;
  s ← putc_at s orfp (u8 (endp s - orfp - 1));
  s ← putc_at s capp (u8 (endp s - capp - 1));
  Ok (s, p).

(** A turn of the loop over the families. *)
Definition put_orf (m : M (stream * peer)) (k : Z * Z) : M (stream * peer) :=
  '(s, p) ← m;
  if CHECK_FLAG (af_flags oc k) PEER_FLAG_ORF_PREFIX_SM || CHECK_FLAG (af_flags oc k) PEER_FLAG_ORF_PREFIX_RM then
    '(s, p) ← bgp_open_capability_orf s p (fst k) (snd k) CAPABILITY_CODE_ORF_OLD;
    bgp_open_capability_orf s p (fst k) (snd k) CAPABILITY_CODE_ORF
  else Ok (s, p).

(** The graceful restart capability. *)
Definition put_restart (s : stream) (p : peer) : M (stream * peer) :=
  let p := set_cap p (SET_FLAG (cap p) PEER_CAP_RESTART_ADV) in
  s ← putcs s [BGP_OPEN_OPT_CAP];
  let capp := endp s in
  s ← putcs s [0; CAPABILITY_CODE_RESTART];
  let rcapp := endp s in
  s ← putcs s [0];
  let '(restart_time, p) :=
    if t_startup oc then (SET_FLAG (bgp_restart_time oc) RESTART_R_BIT, set_cap p (SET_FLAG (cap p) PEER_CAP_RESTART_BIT_ADV))
    else (bgp_restart_time oc, p) in
  s ← putw s restart_time;
  s ← (if CHECK_FLAG (bgp_flags oc) BGP_FLAG_GRACEFUL_RESTART then
         foldl (λ (m : M stream) k, s ← m;
           if afc (conf p) k =? 0 then Ok s else s ← putw s (fst k); putcs s [snd k; 0]) (Ok s) families
       else Ok s);
  s ← putc_at s rcapp (u8 (endp s - rcapp - 1));
  s ← putc_at s capp (u8 (endp s - capp - 1));
  Ok (s, p).

Definition bgp_open_capability (s : stream) (p : peer) : M (stream * peer) :=
  let cp := endp s in
  s ← putcs s [0];
  if negb (CHECK_FLAG (sflags p) PEER_STATUS_CAPABILITY_OPEN) || CHECK_FLAG (pflags p) PEER_FLAG_DONT_CAPABILITY
  then Ok (s, p) else
  '(s, p) ← put_mps (s, p);
  let p := set_cap p (SET_FLAG (cap p) PEER_CAP_REFRESH_ADV) in
  s ← put_plain s CAPABILITY_CODE_REFRESH_OLD;
  s ← put_plain s CAPABILITY_CODE_REFRESH;
  let p := set_cap p (SET_FLAG (cap p) PEER_CAP_AS4_ADV) in
  s ← putcs s [BGP_OPEN_OPT_CAP; CAPABILITY_CODE_AS4_LEN + 2; CAPABILITY_CODE_AS4; CAPABILITY_CODE_AS4_LEN];
  '(s, _) ← stream_putl s (if change_local_as oc =? 0 then local_as oc else change_local_as oc);
  '(s, p) ← foldl put_orf (Ok (s, p)) families;
  '(s, p) ← put_dynamic s p;
  '(s, p) ← put_restart s p;
  s ← putc_at s cp (u8 (endp s - cp - 1));
  Ok (s, p).
End send.

(** ** The message *)

Definition BGP_MSG_OPEN : Z := 1.
Definition BGP_MARKER_SIZE : Z := 16.

Definition bgp_packet_set_marker (s : stream) (type : Z) : M stream :=
  s ← putcs s (replicate 16 0xff);
  s ← putw s 0;
  putcs s [type].

Definition bgp_packet_set_size (s : stream) : M stream :=
  '(s, _) ← stream_putw_at s BGP_MARKER_SIZE (endp s); Ok s.

(** The packet of [bgp_open_send], in a new stream with the content [junk]. *)
Definition open_packet (oc : open_conf) (local_id : list Z) (junk : list Z) (p : peer) : M (stream * peer) :=
  let send_holdtime := if CHECK_FLAG (config p) PEER_CONFIG_TIMER then holdtime (conf p) else default_holdtime (conf p) in
  let las := if change_local_as oc =? 0 then local_as oc else change_local_as oc in
  s ← stream_new BGP_MAX_PACKET_SIZE junk;
  s ← bgp_packet_set_marker s BGP_MSG_OPEN;
  s ← putcs s [BGP_VERSION_4];
  s ← putw s (if las <=? BGP_AS_MAX then las else BGP_AS_TRANS);
  s ← putw s (u16 send_holdtime);
  '(s, _) ← stream_put_in_addr s local_id;
  '(s, p) ← bgp_open_capability oc s p;
  s ← bgp_packet_set_size s;
  Ok (s, p).

Section receive.
Context (e : env).
Notation notify c code sub := (bgp_notify_send_with_data e c code sub []).

(** Another peer of the instance: whether it has the address of the new one, its
    identifier, its AS number and what else it is configured with. *)
Record other := Other {
  o_rd : reader;
  same_su : bool;
  o_local_id : Z;
  o_as : Z;
  o_conf : open_conf;
}.
Definition set_o_rd (o : other) (c : reader) : other := Other c (same_su o) (o_local_id o) (o_as o) (o_conf o).

(** The new peer, the others, and the result. *)
Fixpoint bgp_collision_detect (new : reader) (others : list other) (remote_id : Z) : reader * list other * Z :=
  match others with
  | [] => (new, [], 0)
  | o :: rest =>
      let q := pr (o_rd o) in
      if ((status q =? OpenConfirm) || (status q =? OpenSent)) && same_su o then
        if o_local_id o <? remote_id then
          (new, (if 0 <=? fd q then set_o_rd o (notify (o_rd o) BGP_NOTIFY_CEASE BGP_NOTIFY_CEASE_COLLISION_RESOLUTION) else o) :: rest, 1)
        else (if 0 <=? fd (pr new) then notify new BGP_NOTIFY_CEASE BGP_NOTIFY_CEASE_COLLISION_RESOLUTION else new, others, -1)
      else
        let '(new, rest, ret) := bgp_collision_detect new rest remote_id in (new, o :: rest, ret)
  end.

(** The AS number of the remote peer; [None] when the message is refused. *)
Definition open_remote_as (c : reader) (remote_as as4 : Z) : reader * option Z :=
  let as4_rcv := CHECK_FLAG (cap (pr c)) PEER_CAP_AS4_RCV in
  let bad := (notify c BGP_NOTIFY_OPEN_ERR BGP_NOTIFY_OPEN_BAD_PEER_AS, None) in
  if as4_rcv && (as4 =? 0) then bad
  else if remote_as =? BGP_AS_TRANS then
    if as4 =? BGP_AS_TRANS then bad else (c, Some (if as4 =? 0 then remote_as else as4))
  else if as4_rcv && negb (as4 =? remote_as) then bad
  else (c, Some remote_as).

(** The checks and the negotiation on the peer the message is for. *)
Definition open_negotiate (c : reader) (as_ local_id : Z) (version remote_as holdtime_ : Z) (remote_as_data remote_id : list Z)
    (optlen : Z) : M (reader * Z) :=
  let send sub data := Ok (bgp_notify_send_with_data e c BGP_NOTIFY_OPEN_ERR sub data, -1) in
  let id := be_value remote_id in
  if (id =? 0) || IPV4_CLASS_DE id || (local_id =? id) then send BGP_NOTIFY_OPEN_BAD_BGP_IDENT remote_id else
  let c := set_pr c (set_remote_id (pr c) id) in
  let send sub data := Ok (bgp_notify_send_with_data e c BGP_NOTIFY_OPEN_ERR sub data, -1) in
  if negb (version =? BGP_VERSION_4) then send BGP_NOTIFY_OPEN_UNSUP_VERSION [0; BGP_VERSION_4] else
  if negb (remote_as =? as_) then send BGP_NOTIFY_OPEN_BAD_PEER_AS remote_as_data else
  if (holdtime_ <? 3) && negb (holdtime_ =? 0) then send BGP_NOTIFY_OPEN_UNACEP_HOLDTIME [] else
  let p := pr c in
  let send_holdtime := u16 (if CHECK_FLAG (config p) PEER_CONFIG_TIMER then holdtime (conf p) else default_holdtime (conf p)) in
  let p := set_v_holdtime p (if holdtime_ <? send_holdtime then holdtime_ else send_holdtime) in
  let p := set_v_keepalive p (v_holdtime p / 3) in
  let c := set_pr c p in
  '(c, mp, ret) ← (if negb (optlen =? 0)
                   then '(o, ret) ← bgp_open_option_parse e c optlen; Ok (rd_ o, mp_capability o, ret)
                   else Ok (c, false, 0));
  if ret <? 0 then Ok (notify c BGP_NOTIFY_OPEN_ERR BGP_NOTIFY_OPEN_UNACEP_HOLDTIME, ret) else
  let p := pr c in
  let p := if negb mp || CHECK_FLAG (pflags p) PEER_FLAG_OVERRIDE_CAPABILITY
           then set_afc_nego p (foldl (λ a k, put a k (afc (conf p) k)) (afc_nego p) nsf_families) else p in
  let p := BGP_EVENT_ADD (set_su_known p true) Receive_OPEN_message in
  s ← stream_reset (ibuf c);
  Ok (set_ibuf (set_pr c (set_packet_size p 0)) s, 0).

(** [bgp_open_send]: the packet, and its effect on the capabilities. *)
Definition bgp_open_send (oc : open_conf) (local_id : Z) (junk : list Z) (p : peer) : M peer :=
  '(_, p) ← open_packet oc (be_bytes 4 local_id) junk p; Ok (Fsm.bgp_open_send p).

(** The connection [c] becomes that of the configured peer [o]. *)
Definition open_transfer (c : reader) (o : other) (junk : list Z) : M (reader * other * Z) :=
  let real := bgp_stop e (pr (o_rd o)) in
  let real := set_fd real (fd (pr c)) in
  let p := set_fd (pr c) (-1) in
  let real := set_status (set_packet_size real (packet_size p)) (status p) in
  let p := bgp_stop e p in
  real ← bgp_open_send (o_conf o) (o_local_id o) junk real;
  let done p real ret := Ok (set_pr c p, set_o_rd o (Reader real (ibuf c) (notified (o_rd o))), ret) in
  if fd real <? 0 then done p real (-1) else done p (BGP_READ_ON real) 0.

(** For a peer made for an incoming connection: [i] is the configured peer that
    [peer_lookup_with_open] found, [wrong_id] whether one with another identifier
    was there.  A negative result is returned. *)
Definition open_accept (c : reader) (others : list other) (i : nat) (collision : Z) (junk : list Z)
    : M (reader * list other * Z) :=
  o ← of_opt (others !! i);
  let q := pr (o_rd o) in
  if (status q =? Established) && CHECK_FLAG (sflags q) PEER_STATUS_NSF_MODE then
    let q := set_sflags (set_last_reset q PEER_DOWN_NSF_CLOSE_SESSION) (SET_FLAG (sflags q) PEER_STATUS_NSF_WAIT) in
    '(c, o, ret) ← open_transfer c (set_o_rd o (set_pr (o_rd o) q)) junk;
    Ok (c, <[i:=o]> others, ret)
  else if (collision =? 0) && negb (existsb (Z.eqb (status q)) [Active; OpenSent; OpenConfirm; Connect])
  then Ok (notify c BGP_NOTIFY_CEASE BGP_NOTIFY_CEASE_CONNECT_REJECT, others, -1)
  else
    '(c, o, ret) ← open_transfer c o junk;
    Ok (c, <[i:=o]> others, ret).

(** The new peer, the others, and the result.  When the connection was
    transferred, the new peer has no input buffer any more. *)
Definition bgp_open_receive (as_ local_id : Z) (lookup : Z → list Z → option nat * bool) (junk : list Z)
    (c : reader) (others : list other) : M (reader * list other * Z) :=
  '(s, version) ← stream_getc (ibuf c);
  remote_as_data ← rdn (data s) (getp s) 2;
  '(s, remote_as) ← stream_getw s;
  '(s, holdtime_) ← stream_getw s;
  '(s, remote_id) ← stream_get_ipv4 s;
  '(s, optlen) ← stream_getc s;
  let c := set_ibuf c s in
  '(c, as4) ← (if negb (optlen =? 0) then peek_for_as4_capability c optlen else Ok (c, 0));
  let '(c, r) := open_remote_as c remote_as as4 in
  match r with
  | None => Ok (c, others, -1)
  | Some remote_as =>
      let accept := CHECK_FLAG (sflags (pr c)) PEER_STATUS_ACCEPT_PEER in
      let '(found, wrong_id) := lookup remote_as remote_id in
      if accept && bool_decide (found = None) then
        Ok (if wrong_id : bool
            then bgp_notify_send_with_data e c BGP_NOTIFY_OPEN_ERR BGP_NOTIFY_OPEN_BAD_BGP_IDENT remote_id
            else bgp_notify_send_with_data e c BGP_NOTIFY_OPEN_ERR BGP_NOTIFY_OPEN_BAD_PEER_AS remote_as_data, others, -1)
      else
      let '(c, others, ret) := bgp_collision_detect c others (be_value remote_id) in
      if ret <? 0 then Ok (c, others, ret) else
      if accept then
        i ← of_opt found;
        '(c, others, ret) ← open_accept c others i ret junk;
        if ret <? 0 then Ok (c, others, ret) else
        o ← of_opt (others !! i);
        '(r, ret) ← open_negotiate (o_rd o) (o_as o) (o_local_id o) version remote_as holdtime_ remote_as_data remote_id optlen;
        Ok (c, <[i:=set_o_rd o r]> others, ret)
      else
        '(c, ret) ← open_negotiate c as_ local_id version remote_as holdtime_ remote_as_data remote_id optlen;
        Ok (c, others, ret)
  end.
End receive.
