(* ===== verification/OpenSpec.v ===== *)
(** What an OPEN message does: the parser of its options and [bgp_open_receive]
    on arbitrary bytes, and what two speakers negotiate. *)
From S2P Require Import Prelude Prefix Stream StreamRead ASPath Fsm FsmSpec Open.
Open Scope Z_scope.

(** ** What the capabilities may change *)

(** What capabilities never change. *)
Record kept (p p' : peer) : Prop := {
  kept_afc : afc (conf p') = afc (conf p);
  kept_conf : holdtime (conf p') = holdtime (conf p) ∧ default_holdtime (conf p') = default_holdtime (conf p) ∧
    config p' = config p ∧ fd p' = fd p;
  kept_status : status p' = status p ∧ sflags p' = sflags p ∧ pflags p' = pflags p ∧ events p' = events p;
  kept_timers : v_holdtime p' = v_holdtime p ∧ v_keepalive p' = v_keepalive p ∧ remote_id p' = remote_id p;
}.

(** From [p] to [p'] only capabilities changed: a family is received only if it is
    one, and negotiated only if it is configured and was received. *)
Record negotiates (p p' : peer) : Prop := {
  neg_kept : kept p p';
  neg_recv k : afc_recv p' k = afc_recv p k ∨ (afc_recv p' k = 1 ∧ k ∈ families);
  neg_nego k : afc_nego p' k = afc_nego p k ∨ (afc_nego p' k = 1 ∧ afc (conf p) k ≠ 0 ∧ afc_recv p' k = 1);
}.

(** Only flags were set. *)
Record flagged (p p' : peer) : Prop := {
  flag_kept : kept p p';
  flag_recv : afc_recv p' = afc_recv p;
  flag_nego : afc_nego p' = afc_nego p;
  flag_cap : Z.land (cap p') (cap p) = cap p;
}.

#[export] Instance kept_preorder : PreOrder kept.
Proof.
  split; [intros p; by split|]. intros p1 p2 p3 [A1 (B1 & C1 & D1 & F1) (S1 & S2 & S3 & S4) (T1 & T2 & T3)]
    [A2 (B2 & C2 & D2 & F2) (S1' & S2' & S3' & S4') (T1' & T2' & T3')].
  split; [congruence|split_and!; congruence..].
Qed.

#[export] Instance negotiates_preorder : PreOrder negotiates.
Proof.
  split; [intros p; split; auto; reflexivity|]. intros p1 p2 p3 [K1 R1 N1] [K2 R2 N2]. split; [by etrans|..]; intros k.
  - destruct (R2 k) as [->|]; auto.
  - destruct (N2 k) as [->|(? & ? & ?)]; [|rewrite <-(kept_afc _ _ K1); auto]. destruct (N1 k) as [->|(? & ? & E)]; [auto|].
    right. split_and!; [done..|]. destruct (R2 k) as [->|[? _]]; done.
Qed.

#[export] Instance flagged_preorder : PreOrder flagged.
Proof.
  split; [intros p; split; auto; [reflexivity|apply Z.land_diag]|]. intros p1 p2 p3 [K1 R1 N1 C1] [K2 R2 N2 C2].
  split; [by etrans|congruence..|]. by rewrite <-C1, Z.land_assoc, C2.
Qed.

Lemma flagged_negotiates p p' : flagged p p' → negotiates p p'.
Proof. intros [K Er En _]. split; [done|intros k; left; by rewrite Er|intros k; left; by rewrite En]. Qed.

Lemma land_lor_absorb a b : Z.land (Z.lor a b) a = a.
Proof. rewrite Z.land_lor_distr_l, Z.land_diag. apply Z.bits_inj'. intros n _. rewrite Z.lor_spec, Z.land_spec. by destruct (Z.testbit a n), (Z.testbit b n). Qed.

Lemma flagged_cap p f : flagged p (set_cap p (SET_FLAG (cap p) f)).
Proof. split; [by split|done..|]. apply land_lor_absorb. Qed.
Lemma flagged_af_cap p x : flagged p (set_af_cap p x).
Proof. split; [by split|done..|]. apply Z.land_diag. Qed.
Lemma flagged_gr p x : flagged p (set_v_gr_restart p x).
Proof. split; [by split|done..|]. apply Z.land_diag. Qed.

(** An index of the arrays of families. *)
Lemma valid_family afi safi safi' : bgp_afi_safi_valid_indices afi safi = Some safi' → (afi, safi') ∈ families.
Proof.
  unfold bgp_afi_safi_valid_indices, families.
  destruct (Z.eqb_spec afi AFI_IP) as [->|]; cbn [orb].
  2: destruct (Z.eqb_spec afi AFI_IP6) as [->|]; [|done].
  all: destruct (Z.eqb_spec safi SAFI_MPLS_LABELED_VPN); [intros [= <-]; set_solver|].
  all: destruct (Z.eqb_spec safi SAFI_UNICAST) as [->|]; cbn [orb]; [intros [= <-]; set_solver|].
  all: destruct (Z.eqb_spec safi SAFI_MULTICAST) as [->|]; cbn [orb]; [intros [= <-]; set_solver|].
  all: destruct (Z.eqb_spec safi SAFI_MPLS_VPN) as [->|]; [intros [= <-]; set_solver|done].
Qed.

Lemma family_index k : k ∈ families →
  (0 <=? k.1) && (k.1 <? AFI_MAX) && (0 <=? k.2) && (k.2 <? SAFI_MAX) = true.
Proof. unfold families. rewrite !elem_of_cons, elem_of_nil. by intros [->|[->|[->|[->|[->|[->|[->|[->|[]]]]]]]]]. Qed.

Lemma af_put_ok a k v : k ∈ families → af_put a k v = Ok (put a k v).
Proof. intros Hk. unfold af_put. by rewrite family_index. Qed.
Lemma af_get_ok a k : k ∈ families → af_get a k = Ok (a k).
Proof. intros Hk. unfold af_get. by rewrite family_index. Qed.

Lemma set_af_flag_ok p k f : k ∈ families → ∃ p', set_af_flag p k f = Ok p' ∧ flagged p p'.
Proof.
  intros Hk. unfold set_af_flag. rewrite af_put_ok by done. cbn [mbind M_bind]. eexists. split; [done|]. apply flagged_af_cap.
Qed.

Lemma put_eq a k v : put a k v k = v.
Proof. unfold put. by rewrite decide_True. Qed.
Lemma put_cases a k v k' : put a k v k' = a k' ∨ (k = k' ∧ put a k v k' = v).
Proof. unfold put. destruct (decide (k = k')); auto. Qed.

(** ** Readers *)

(** The reader moved on quietly, and the peer changed as [R] says. *)
Record steps (R : relation peer) (c c' : reader) : Prop := {
  steps_moved : moved (ibuf c) (ibuf c');
  steps_ok : stream_ok (ibuf c');
  steps_peer : R (pr c) (pr c');
  steps_notified : notified c' = notified c;
}.
Notation quiet := (steps negotiates).

Lemma steps_refl `{!Reflexive R} c : stream_ok (ibuf c) → steps R c c.
Proof. intros Hs. split; [apply moved_refl|done|reflexivity|done]. Qed.
Lemma steps_trans `{!Transitive R} c1 c2 c3 : steps R c1 c2 → steps R c2 c3 → steps R c1 c3.
Proof. intros [] []. split; [by eapply moved_trans|done|by etrans|congruence]. Qed.
Lemma steps_mono (R S : relation peer) c c' : (∀ p p', R p p' → S p p') → steps R c c' → steps S c c'.
Proof. intros H []. split; auto. Qed.
Lemma flags_quiet c c' : steps flagged c c' → quiet c c'.
Proof. apply steps_mono, flagged_negotiates. Qed.

Lemma steps_read (R : relation peer) c g p : stream_ok (ibuf c) → 0 <= g <= endp (ibuf c) → R (pr c) p →
  steps R c (set_pr (set_ibuf c (set_getp (ibuf c) g)) p).
Proof. intros Hs Hg Hp. split; [by eexists|by apply set_getp_ok|done|done]. Qed.

Lemma steps_ends R c c' : steps R c c' → endp (ibuf c') = endp (ibuf c) ∧ data (ibuf c') = data (ibuf c).
Proof. intros [[g ->] _ _ _]. done. Qed.

Lemma mp_data_ok s : stream_ok s → getp s + 4 <= endp s →
  bgp_capability_mp_data s = Ok (set_getp s (getp s + 4), (be_value (ahead s 2), be_value (ahead (set_getp s (getp s + 3)) 1))).
Proof.
  intros Hs He. pose proof Hs as ([? ?] & _). unfold bgp_capability_mp_data. rewrite getw_ok by (done || lia). cbn [mbind M_bind].
  rewrite getc_ok by (try apply set_getp_ok; at_stream; try done; lia). cbn [mbind M_bind]. at_stream.
  rewrite getc_ok by (try apply set_getp_ok; at_stream; try done; lia). cbn [mbind M_bind]. at_stream.
  by rewrite <-!Z.add_assoc.
Qed.

(** A multiprotocol capability for a family: it is received, and negotiated if it
    is configured. *)
Record mp_received (afi safi : Z) (p p' : peer) : Prop := {
  ann_kept : kept p p';
  ann_cap : cap p' = cap p;
  ann_af : match bgp_afi_safi_valid_indices afi safi with
           | None => afc_recv p' = afc_recv p ∧ afc_nego p' = afc_nego p
           | Some safi' => afc_recv p' = put (afc_recv p) (afi, safi') 1 ∧
               afc_nego p' = if afc (conf p) (afi, safi') =? 0 then afc_nego p else put (afc_nego p) (afi, safi') 1
           end;
}.

Lemma mp_received_negotiates afi safi p p' : mp_received afi safi p p' → negotiates p p'.
Proof.
  intros [K _ H]. destruct (bgp_afi_safi_valid_indices afi safi) as [safi'|] eqn:Ev; destruct H as [Er En];
    [apply valid_family in Ev|split; [done|intros k; left; by rewrite Er|intros k; left; by rewrite En]].
  split; [done|..]; intros k; rewrite ?Er, ?En.
  - destruct (put_cases (afc_recv p) (afi, safi') 1 k) as [|[<- ?]]; auto.
  - destruct (Z.eqb_spec (afc (conf p) (afi, safi')) 0); [by left|].
    destruct (put_cases (afc_nego p) (afi, safi') 1 k) as [|[<- ?]]; [by left|]. right. split_and!; [done..|]. apply put_eq.
Qed.

Lemma capability_mp_ok c : stream_ok (ibuf c) → getp (ibuf c) + 4 <= endp (ibuf c) →
  ∃ c' r, bgp_capability_mp c = Ok (c', r) ∧
    steps (mp_received (be_value (ahead (ibuf c) 2)) (be_value (ahead (set_getp (ibuf c) (getp (ibuf c) + 3)) 1))) c c'.
Proof.
  intros Hs He. pose proof Hs as ([? ?] & _). unfold bgp_capability_mp. rewrite mp_data_ok by done. cbn [mbind M_bind].
  set (afi := be_value _). set (safi := be_value _).
  assert (∀ p, mp_received afi safi (pr c) p → steps (mp_received afi safi) c (set_pr (set_ibuf c (set_getp (ibuf c) (getp (ibuf c) + 4))) p)) as Hq
    by (intros p; apply steps_read; [done|lia]).
  destruct (bgp_afi_safi_valid_indices afi safi) as [safi'|] eqn:Ev.
  2: { eexists _, _. split; [done|]. apply (Hq (pr c)). split; [reflexivity|done|by rewrite Ev]. }
  pose proof (valid_family _ _ _ Ev). rewrite af_put_ok by done. cbn [mbind M_bind pr set_ibuf conf set_afc_recv].
  destruct (Z.eqb_spec (afc (conf (pr c)) (afi, safi')) 0) as [E|Hne%Z.eqb_neq];
    [|rewrite af_put_ok by done; cbn [mbind M_bind]]; eexists _, _; (split; [done|]); apply Hq.
  - split; [by split|done|]. by rewrite Ev, (proj2 (Z.eqb_eq _ _) E).
  - split; [by split|done|]. by rewrite Ev, Hne.
Qed.

Lemma orf_mode_ok p k flags mode : k ∈ families → ∃ p', orf_mode p k flags mode = Ok p' ∧ flagged p p'.
Proof.
  intros Hk. unfold orf_mode. destruct flags as [[sm rm]|]; [|eexists; split; [done|reflexivity]].
  destruct (mode =? ORF_MODE_BOTH).
  - destruct (set_af_flag_ok p k sm Hk) as (p1 & -> & H1). cbn [mbind M_bind].
    destruct (set_af_flag_ok p1 k rm Hk) as (p2 & -> & H2). eexists. split; [done|]. by etrans.
  - repeat case_match; [by apply set_af_flag_ok..|]. eexists. split; [done|reflexivity].
Qed.

Lemma orf_loop_ok code afi safi : (afi, safi) ∈ families →
  ∀ num c, stream_ok (ibuf c) → getp (ibuf c) + 2 * Z.of_nat num <= endp (ibuf c) →
  ∃ c', orf_loop num c code afi safi = Ok c' ∧ steps flagged c c'.
Proof.
  intros Hk num. induction num as [|num IH]; intros c Hs He; cbn [orf_loop]; [eexists; split; [done|by apply steps_refl]|].
  pose proof Hs as ([? ?] & _). rewrite getc_ok by (done || lia). cbn [mbind M_bind].
  rewrite getc_ok by (try apply set_getp_ok; at_stream; try done; lia). cbn [mbind M_bind pr set_ibuf]. at_stream.
  edestruct orf_mode_ok as (p & -> & Hp); [exact Hk|]. cbn [mbind M_bind]. set (c1 := set_pr _ _).
  assert (steps flagged c c1) as Hq by (apply (steps_read _ c _ p); [done|lia|done]).
  destruct (IH c1) as (c' & -> & Hq'); [apply Hq|cbn [ibuf c1 set_pr set_ibuf]; at_stream; lia|].
  exists c'. split; [done|]. by eapply steps_trans.
Qed.

Lemma restart_family_ok p afi safi flag : ∃ p', restart_family p afi safi flag = Ok p' ∧ flagged p p'.
Proof.
  unfold restart_family. assert (flagged p p) by reflexivity.
  destruct (bgp_afi_safi_valid_indices afi safi) as [safi'|] eqn:E; [|by eexists]. apply valid_family in E.
  case_match; [by eexists|]. destruct (set_af_flag_ok p _ PEER_CAP_RESTART_AF_RCV E) as (p1 & -> & H1). cbn [mbind M_bind].
  case_match; [|by eexists]. destruct (set_af_flag_ok p1 _ PEER_CAP_RESTART_AF_PRESERVE_RCV E) as (p2 & -> & Hp2).
  eexists. split; [done|]. by etrans.
Qed.

Lemma restart_loop_ok end_ fuel c : stream_ok (ibuf c) → end_ <= endp (ibuf c) → end_ - getp (ibuf c) < Z.of_nat fuel + 4 →
  ∃ c', restart_loop fuel c end_ = Ok c' ∧ steps flagged c c'.
Proof.
  revert c. induction fuel as [|fuel IH]; intros c Hs He Hf; cbn [restart_loop]; destruct (Z.ltb_spec end_ (getp (ibuf c) + 4)).
  1,3: eexists; split; [done|by apply steps_refl].
  { lia. }
  pose proof Hs as ([? ?] & _). rewrite getw_ok by (done || lia). cbn [mbind M_bind].
  rewrite getc_ok by (try apply set_getp_ok; at_stream; try done; lia). cbn [mbind M_bind]. at_stream.
  rewrite getc_ok by (try apply set_getp_ok; at_stream; try done; lia). cbn [mbind M_bind pr set_ibuf]. at_stream.
  edestruct restart_family_ok as (p & -> & Hp). cbn [mbind M_bind]. set (c1 := set_pr _ _).
  assert (steps flagged c c1) as Hq by (apply (steps_read _ c _ p); [done|lia|done]).
  destruct (IH c1) as (c' & -> & Hq'); [apply Hq|cbn [ibuf c1 set_pr set_ibuf]; at_stream; lia..|].
  exists c'. split; [done|]. by eapply steps_trans.
Qed.

Lemma capability_restart_ok c n : stream_ok (ibuf c) → 2 <= n → getp (ibuf c) + n <= endp (ibuf c) →
  ∃ c', bgp_capability_restart c n = Ok c' ∧ steps flagged c c'.
Proof.
  intros Hs Hn He. pose proof Hs as ([? ?] & _). unfold bgp_capability_restart. rewrite getw_ok by (done || lia). cbn [mbind M_bind].
  set (p := set_v_gr_restart _ _). set (c1 := set_ibuf _ _).
  assert (steps flagged c c1) as Hq.
  { apply (steps_read _ c _ p); [done|lia|]. etrans; [|apply flagged_gr].
    case_match; [etrans|]; apply flagged_cap. }
  destruct (restart_loop_ok (getp (ibuf c) + n) (Z.to_nat n) c1) as (c' & -> & Hq');
    [apply Hq|cbn [ibuf c1 set_pr set_ibuf]; at_stream; lia..|].
  exists c'. split; [done|]. by eapply steps_trans.
Qed.

Lemma capability_as4_ok c n : stream_ok (ibuf c) → getp (ibuf c) + n <= endp (ibuf c) →
  ∃ c' as4, bgp_capability_as4 c n = Ok (c', as4) ∧ steps flagged c c'.
Proof.
  intros Hs He. pose proof Hs as ([? ?] & _). unfold bgp_capability_as4, CAPABILITY_CODE_AS4_LEN. cbn [ibuf set_pr].
  destruct (Z.eqb_spec n 4) as [->|]; cbn [negb].
  - rewrite getl_ok by done. cbn [mbind M_bind]. eexists _, _. split; [done|]. apply (steps_read _ c _ (set_cap _ _)); [done|lia|apply flagged_cap].
  - eexists _, _. split; [done|]. split; [apply moved_refl|done|apply flagged_cap|done].
Qed.

(** ** The option parser *)

(** The reader moved on, maybe after it sent NOTIFICATIONs. *)
Record spoke (c c' : reader) : Prop := {
  spoke_moved : moved (ibuf c) (ibuf c');
  spoke_ok : stream_ok (ibuf c');
  spoke_sflags : sflags (pr c') = sflags (pr c);
  spoke_notified : notified c `prefix_of` notified c';
}.

Lemma notify_sflags e p code sub : sflags (Fsm.bgp_notify_send e p code sub) = sflags p.
Proof. unfold Fsm.bgp_notify_send, bgp_write_notify, BGP_EVENT_ADD. cbn [obuf set_obuf set_last_reset set_t_write]. repeat case_match; done. Qed.

Lemma quiet_spoke c c' : quiet c c' → spoke c c'.
Proof. intros [? ? [[_ _ (_ & ? & _) _] _ _] E]. split; [done..|]. by rewrite E. Qed.
Lemma spoke_trans c1 c2 c3 : spoke c1 c2 → spoke c2 c3 → spoke c1 c3.
Proof. intros [] []. split; [by eapply moved_trans|done|congruence|by etrans]. Qed.
Lemma spoke_send e c code sub d : stream_ok (ibuf c) → spoke c (bgp_notify_send_with_data e c code sub d).
Proof. intros Hs. split; [apply moved_refl|done|apply notify_sflags|by apply prefix_app_r]. Qed.
Lemma spoke_peer c p : stream_ok (ibuf c) → sflags p = sflags (pr c) → spoke c (set_pr c p).
Proof. intros Hs Hp. by split; [apply moved_refl|..]. Qed.

(** The bytes collected in [error_data] come from what was read. *)
Definition opts_ok (o : opts) : Prop := stream_ok (ibuf (rd_ o)) ∧ endp (ibuf (rd_ o)) <= BGP_MAX_PACKET_SIZE ∧
  Z.of_nat (length (error o)) <= getp (ibuf (rd_ o)).

Lemma store_error_ok o sp n : stream_ok (ibuf (rd_ o)) → endp (ibuf (rd_ o)) <= BGP_MAX_PACKET_SIZE →
  0 <= n → Z.of_nat (length (error o)) <= sp → sp + n <= endp (ibuf (rd_ o)) →
  ∃ b, store_error o sp n = Ok (Opts (rd_ o) (mp_capability o) (error o ++ b)) ∧ Z.of_nat (length b) = n.
Proof.
  intros (? & ? & ? & _) Hm Hn He Hsp. unfold store_error. rewrite rdn_in_bounds by lia. cbn [mbind M_bind].
  rewrite (proj2 (Z.ltb_ge _ _)) by lia. eexists. split; [done|]. rewrite length_take, length_drop. lia.
Qed.

(** What a capability leaves: [Some] ends the parse. *)
Definition handled (o : opts) (limit : Z) (o' : opts) (r : option Z) : Prop :=
  match r with
  | None => quiet (rd_ o) (rd_ o') ∧ Z.of_nat (length (error o')) <= limit
  | Some ret => ret = -1 ∧ spoke (rd_ o) (rd_ o')
  end.

Section parsing.
Context (e : env).

Lemma orf_entry_ok c code n : stream_ok (ibuf c) → 5 <= n → getp (ibuf c) + n <= endp (ibuf c) →
  ∃ c' r, bgp_capability_orf_entry e c code n = Ok (c', r) ∧ ((r = 0 ∧ quiet c c') ∨ (r = -1 ∧ spoke c c')).
Proof.
  intros Hs Hn He. pose proof Hs as ([? ?] & _). unfold bgp_capability_orf_entry.
  rewrite mp_data_ok by (done || lia). cbn [mbind M_bind]. set (afi := be_value _). set (safi := be_value _).
  assert (stream_ok (set_getp (ibuf c) (getp (ibuf c) + 4))) as Hs' by (apply set_getp_ok; [done|lia]).
  rewrite getc_ok by (at_stream; done || lia). cbn [mbind M_bind]. at_stream.
  pose proof (ahead_byte _ Hs' ltac:(at_stream; lia)) as [Hb _].
  set (num := be_value (ahead (set_getp (ibuf c) (getp (ibuf c) + 4)) 1)) in *.
  set (c1 := set_ibuf _ _).
  assert (quiet c c1) as Hq by (apply (steps_read _ c _ (pr c)); [done|lia|reflexivity]).
  destruct (bgp_afi_safi_valid_indices afi safi) as [safi'|] eqn:Ev; [|by eexists _, _; eauto].
  apply valid_family in Ev. destruct (Z.ltb_spec n (5 + num * 2)).
  - eexists _, _. split; [done|]. right. split; [done|]. eapply spoke_trans; [by apply quiet_spoke|]. by apply spoke_send, Hq.
  - destruct (orf_loop_ok code afi safi' Ev (Z.to_nat num) c1) as (c' & -> & Hq'%flags_quiet);
      [apply Hq|cbn [ibuf c1 set_ibuf]; at_stream; lia|].
    eexists _, _. split; [done|]. left. split; [done|]. by eapply steps_trans.
Qed.

Lemma handle_capability_ok o sp code n :
  stream_ok (ibuf (rd_ o)) → endp (ibuf (rd_ o)) <= BGP_MAX_PACKET_SIZE →
  0 <= n → getp (ibuf (rd_ o)) = sp + 2 → sp + 2 + n <= endp (ibuf (rd_ o)) → Z.of_nat (length (error o)) <= sp →
  too_short code n = false →
  ∃ o' r, handle_capability e o sp code n = Ok (o', r) ∧ handled o (sp + 2 + n) o' r.
Proof.
  intros Hs Hm Hn Hg He Hl Ht.
  assert (∀ c, c ∈ cap_minsizes → c.1 = code → c.2 <= n) as Hmin.
  { intros c Hc <-. destruct (Z.leb_spec c.2 n) as [|Hlt]; [done|]. exfalso. apply not_true_iff_false in Ht. apply Ht.
    apply existsb_exists. exists c. split; [by apply list_elem_of_In|]. rewrite Z.eqb_refl. by apply Z.ltb_lt. }
  unfold handle_capability.
  destruct (Z.eqb_spec code CAPABILITY_CODE_MP) as [->|_].
  { case_match; [eexists _, _; split; [done|]; split; [by apply steps_refl|cbn; lia]|]. cbn [rd_].
    pose proof (Hmin (CAPABILITY_CODE_MP, 4) ltac:(set_solver) eq_refl) as H4. cbn in H4.
    destruct (capability_mp_ok (rd_ o) Hs ltac:(lia)) as (c' & r & -> & Hq%(steps_mono _ negotiates)); [|apply mp_received_negotiates]. cbn [mbind M_bind].
    pose proof (steps_ends _ _ _ Hq) as [He' _].
    case_match; [|eexists _, _; split; [done|]; split; [done|cbn; lia]].
    edestruct (store_error_ok (set_rd (Opts (rd_ o) true (error o)) c') sp (n + 2)) as (b & -> & Hb);
      [apply Hq|cbn [set_rd rd_ error]; lia..|]. cbn [mbind M_bind]. eexists _, _. split; [done|]. split; [done|].
    cbn [set_rd error] in *. rewrite length_app. lia. }
  assert (∀ f, handled o (sp + 2 + n) (set_cap_flag o f) None) as Hflag.
  { intros f. split; [|cbn; lia]. apply flags_quiet. split; [apply moved_refl|done|apply flagged_cap|done]. }
  case_match; [eexists _, _; split; [done|]; apply Hflag|].
  destruct ((code =? CAPABILITY_CODE_ORF) || (code =? CAPABILITY_CODE_ORF_OLD)) eqn:Eo.
  { assert (5 <= n) as H5.
    { apply orb_true_iff in Eo as [Eo|Eo]; apply Z.eqb_eq in Eo as ->.
      - apply (Hmin (CAPABILITY_CODE_ORF, 5)); [set_solver|done].
      - apply (Hmin (CAPABILITY_CODE_ORF_OLD, 5)); [set_solver|done]. }
    destruct (orf_entry_ok (rd_ o) code n Hs H5 ltac:(lia)) as (c' & r & -> & [[-> Hq]|[-> Hq]]); cbn [mbind M_bind].
    - eexists _, _. split; [done|]. split; [done|cbn; lia].
    - eexists _, _. split; [done|]. by split. }
  destruct (Z.eqb_spec code CAPABILITY_CODE_RESTART) as [->|_].
  { pose proof (Hmin (CAPABILITY_CODE_RESTART, 2) ltac:(set_solver) eq_refl) as H2. cbn in H2.
    destruct (capability_restart_ok (rd_ o) n Hs H2 ltac:(lia)) as (c' & -> & Hq%flags_quiet). cbn [mbind M_bind].
    eexists _, _. split; [done|]. split; [done|cbn; lia]. }
  case_match; [eexists _, _; split; [done|]; apply Hflag|].
  destruct (Z.eqb_spec code CAPABILITY_CODE_AS4) as [->|_].
  { destruct (capability_as4_ok (rd_ o) n Hs ltac:(lia)) as (c' & as4 & -> & Hq%flags_quiet). cbn [mbind M_bind].
    eexists _, _. split; [done|]. case_match; [split; [done|by apply quiet_spoke]|split; [done|cbn; lia]]. }
  case_match; [eexists _, _; split; [done|]; split; [by apply steps_refl|lia]|].
  edestruct (store_error_ok o sp (n + 2)) as (b & -> & Hb); [done|lia..|]. cbn [mbind M_bind].
  eexists _, _. split; [done|]. split; [by apply steps_refl|]. cbn [error]. rewrite length_app. lia.
Qed.

Lemma capability_round_ok o end_ : opts_ok o → end_ <= endp (ibuf (rd_ o)) →
  ∃ o' r, capability_round e o end_ = Ok (o', r) ∧
    match r with
    | None => quiet (rd_ o) (rd_ o') ∧ opts_ok o' ∧ getp (ibuf (rd_ o)) + 2 <= getp (ibuf (rd_ o')) <= end_
    | Some ret => ret = -1 ∧ spoke (rd_ o) (rd_ o')
    end.
Proof.
  intros (Hs & Hm & Hl) He. pose proof Hs as ([? ?] & _). unfold capability_round.
  destruct (Z.ltb_spec end_ (getp (ibuf (rd_ o)) + 2)); [eexists _, _; split; [done|]; split; [done|by apply spoke_send]|].
  assert (stream_ok (set_getp (ibuf (rd_ o)) (getp (ibuf (rd_ o)) + 1))) as Hs1 by (apply set_getp_ok; [done|lia]).
  rewrite getc_ok by (done || lia). cbn [mbind M_bind]. rewrite getc_ok by (at_stream; done || lia). cbn [mbind M_bind]. at_stream.
  pose proof (ahead_byte _ Hs1 ltac:(at_stream; lia)) as [Hn _]. set (n := be_value (ahead (set_getp _ _) 1)) in *. set (code := be_value _).
  replace (getp (ibuf (rd_ o)) + 1 + 1) with (getp (ibuf (rd_ o)) + 2) by lia. set (o1 := set_rd o _).
  assert (quiet (rd_ o) (rd_ o1)) as Hq by (apply (steps_read _ (rd_ o) _ (pr (rd_ o))); [done|lia|reflexivity]).
  assert (spoke (rd_ o) (bgp_notify_send_with_data e (rd_ o1) BGP_NOTIFY_CEASE 0 [])) as Hc
    by (eapply spoke_trans; [by apply quiet_spoke|by apply spoke_send, Hq]).
  destruct (Z.ltb_spec end_ (getp (ibuf (rd_ o)) + 2 + n)); [eexists _, _; split; [done|]; by split|].
  destruct (too_short code n) eqn:Et; [eexists _, _; split; [done|]; by split|].
  edestruct (handle_capability_ok o1 (getp (ibuf (rd_ o))) code n) as (o' & r & -> & Hr);
    [apply Hq|cbn [o1 set_rd rd_ set_ibuf ibuf error]; at_stream; done || lia..|]. cbn [mbind M_bind].
  destruct r as [ret|]; cbn [handled] in Hr.
  { destruct Hr as [-> Hr]. eexists _, _. split; [done|]. split; [done|]. eapply spoke_trans; [by apply quiet_spoke|done]. }
  destruct Hr as [Hq' Hl']. pose proof (steps_trans (R := negotiates) _ _ _ Hq Hq') as Hqq. destruct (steps_ends _ _ _ Hqq) as [Ee _].
  destruct (Z.eqb_spec (getp (ibuf (rd_ o'))) (getp (ibuf (rd_ o)) + 2 + n)) as [Eg|_]; cbn [negb].
  { eexists _, _. split; [done|]. split; [done|]. split; [|lia]. split; [apply Hqq|lia]. }
  rewrite set_getp_valid by (try apply Hqq; lia). cbn [mbind M_bind]. eexists _, _. split; [done|].
  assert (quiet (rd_ o') (set_ibuf (rd_ o') (set_getp (ibuf (rd_ o')) (getp (ibuf (rd_ o)) + 2 + n)))) as Hset.
  { apply (steps_read _ (rd_ o') _ (pr (rd_ o'))); [apply Hqq|lia|reflexivity]. }
  split; [by eapply steps_trans|]. cbn [set_rd rd_ set_ibuf ibuf]. split; [|at_stream; lia].
  split; [apply Hset|]. cbn [set_rd rd_ set_ibuf ibuf error]. at_stream. lia.
Qed.

Lemma capability_loop_ok end_ fuel o : opts_ok o → getp (ibuf (rd_ o)) <= end_ <= endp (ibuf (rd_ o)) →
  end_ - getp (ibuf (rd_ o)) <= Z.of_nat fuel →
  ∃ o' r, capability_loop e fuel o end_ = Ok (o', r) ∧
    ((r = 0 ∧ quiet (rd_ o) (rd_ o') ∧ opts_ok o' ∧ getp (ibuf (rd_ o)) <= getp (ibuf (rd_ o'))) ∨ (r = -1 ∧ spoke (rd_ o) (rd_ o'))).
Proof.
  revert o. induction fuel as [|fuel IH]; intros o Ho He Hf; cbn [capability_loop];
    (destruct (Z.leb_spec end_ (getp (ibuf (rd_ o)))); [eexists _, _; split; [done|]; left; split_and!; [done|by apply steps_refl, Ho|apply Ho..|done]|]).
  { lia. }
  destruct (capability_round_ok o end_ Ho ltac:(lia)) as (o' & r & -> & Hr). cbn [mbind M_bind]. destruct r as [ret|].
  { destruct Hr as [-> ?]. eexists _, _. split; [done|]. by right. }
  destruct Hr as (Hq & Ho' & Hg). destruct (steps_ends _ _ _ Hq) as [Ee _].
  destruct (IH o' Ho') as (o2 & r & -> & [(-> & Hq2 & Ho2 & Hg2)|[-> Hq2]]); [lia..| |].
  - eexists _, _. split; [done|]. left. split; [done|]. split; [by eapply steps_trans|]. split; [done|lia].
  - eexists _, _. split; [done|]. right. split; [done|]. eapply spoke_trans; [by apply quiet_spoke|done].
Qed.

(** What an option leaves. *)
Definition parsed (o o' : opts) (r : Z) : Prop :=
  (r = 0 ∧ quiet (rd_ o) (rd_ o')) ∨ (r = -1 ∧ spoke (rd_ o) (rd_ o')).

Lemma capability_parse_ok o n : opts_ok o → 0 <= n → getp (ibuf (rd_ o)) + n <= endp (ibuf (rd_ o)) →
  ∃ o' r, bgp_capability_parse e o n = Ok (o', r) ∧ parsed o o' r ∧
    (r = 0 → opts_ok o' ∧ getp (ibuf (rd_ o)) <= getp (ibuf (rd_ o'))).
Proof.
  intros Ho Hn He. unfold bgp_capability_parse. rewrite readable_ok, (proj2 (Z.leb_le n _)) by (apply Ho || lia).
  destruct (capability_loop_ok (getp (ibuf (rd_ o)) + n) (Z.to_nat n) o Ho) as (o' & r & -> & [(-> & ? & ? & ?)|[-> ?]]); [lia..| |].
  - eexists _, _. split; [done|]. split; [by left|done].
  - eexists _, _. split; [done|]. split; [by right|done].
Qed.

Lemma option_loop_ok end_ fuel o : opts_ok o → endp (ibuf (rd_ o)) - getp (ibuf (rd_ o)) < Z.of_nat fuel + 2 →
  ∃ o' r, option_loop e fuel o end_ = Ok (o', r) ∧ parsed o o' r.
Proof.
  revert o. induction fuel as [|fuel IH]; intros o Ho Hf; cbn [option_loop];
    pose proof Ho as (Hs & Hm & Hl); pose proof Hs as ([? ?] & _);
    (destruct (Z.leb_spec end_ (getp (ibuf (rd_ o)))); [eexists _, _; split; [done|]; left; split; [done|by apply steps_refl]|]);
    rewrite readable_ok by done;
    (destruct (Z.ltb_spec (endp (ibuf (rd_ o)) - getp (ibuf (rd_ o))) 2);
      [eexists _, _; split; [done|]; right; split; [done|by apply spoke_send]|]).
  { lia. }
  assert (stream_ok (set_getp (ibuf (rd_ o)) (getp (ibuf (rd_ o)) + 1))) as Hs1 by (apply set_getp_ok; [done|lia]).
  rewrite getc_ok by (done || lia). cbn [mbind M_bind]. rewrite getc_ok by (at_stream; done || lia). cbn [mbind M_bind]. at_stream.
  pose proof (ahead_byte _ Hs1 ltac:(at_stream; lia)) as [Hn _]. set (n := be_value (ahead (set_getp _ _) 1)) in *. set (ty := be_value _).
  replace (getp (ibuf (rd_ o)) + 1 + 1) with (getp (ibuf (rd_ o)) + 2) by lia. set (o1 := set_rd o _).
  assert (quiet (rd_ o) (rd_ o1)) as Hq by (apply (steps_read _ (rd_ o) _ (pr (rd_ o))); [done|lia|reflexivity]).
  assert (∀ code sub, parsed o (set_rd o1 (bgp_notify_send_with_data e (rd_ o1) code sub [])) (-1)) as Hsend.
  { intros code sub. right. split; [done|]. eapply spoke_trans; [by apply quiet_spoke|]. by apply spoke_send, Hq. }
  rewrite readable_ok by apply Hq. at_stream.
  destruct (Z.ltb_spec (endp (ibuf (rd_ o)) - (getp (ibuf (rd_ o)) + 2)) n); [eexists _, _; split; [done|]; apply Hsend|].
  destruct (ty =? BGP_OPEN_OPT_AUTH); [eexists _, _; split; [done|]; apply Hsend|].
  destruct (ty =? BGP_OPEN_OPT_CAP); [|eexists _, _; split; [done|]; apply Hsend].
  assert (opts_ok o1) as Ho1 by (split; [apply Hq|]; cbn [o1 set_rd rd_ set_ibuf ibuf error]; at_stream; lia).
  destruct (capability_parse_ok o1 n Ho1 Hn) as (o' & r & -> & Hp & Hr); [cbn [o1 set_rd rd_ set_ibuf ibuf]; at_stream; lia|].
  cbn [mbind M_bind]. destruct Hp as [[-> Hq']|[-> Hq']]; cbn [Z.ltb Z.compare].
  2: { eexists _, _. split; [done|]. right. split; [done|]. eapply spoke_trans; [by apply quiet_spoke|done]. }
  destruct (Hr eq_refl) as [Ho' Hg]. destruct (steps_ends _ _ _ (steps_trans (R := negotiates) _ _ _ Hq Hq')) as [Ee _].
  pose proof (steps_trans (R := negotiates) _ _ _ Hq Hq') as Hqq. cbn [o1 set_rd rd_ set_ibuf ibuf] in Hg. rewrite getp_set in Hg.
  destruct (IH o' Ho') as (o2 & r & -> & [[-> Hq2]|[-> Hq2]]); [lia| |].
  - eexists _, _. split; [done|]. left. split; [done|]. by eapply steps_trans.
  - eexists _, _. split; [done|]. right. split; [done|]. eapply spoke_trans; [by apply quiet_spoke|done].
Qed.

(** What the peer must satisfy for [bgp_open_option_parse] to accept. *)
Definition capabilities_accepted (p : peer) (mp : bool) : Prop :=
  (CHECK_FLAG (pflags p) PEER_FLAG_STRICT_CAP_MATCH = true → ∀ k, k ∈ families → afc_nego p k = afc (conf p) k) ∧
  (mp = true → CHECK_FLAG (pflags p) PEER_FLAG_OVERRIDE_CAPABILITY = false → ∃ k, k ∈ families ∧ afc_nego p k ≠ 0).

Lemma option_check_ok o : stream_ok (ibuf (rd_ o)) →
  (option_check e o = (o, 0) ∧ capabilities_accepted (pr (rd_ o)) (mp_capability o)) ∨
  (∃ d, option_check e o = (set_rd o (bgp_notify_send_with_data e (rd_ o) BGP_NOTIFY_OPEN_ERR BGP_NOTIFY_OPEN_UNSUP_CAPBL d), -1)).
Proof.
  intros Hs. unfold option_check. destruct (CHECK_FLAG (pflags _) PEER_FLAG_STRICT_CAP_MATCH) eqn:Est; cbn [andb];
    [destruct (negb (bool_decide _)); [by right; eexists|]; destruct (strict_capability_same _) eqn:Es; cbn [negb]; [|by right; eexists]|];
    (destruct (mp_capability o && _ && _) eqn:Em; [by right; eexists|left; split; [done|split]]).
  1: intros _ k Hk; unfold strict_capability_same in Es; rewrite forallb_forall in Es; symmetry; apply Z.eqb_eq, Es; by apply list_elem_of_In.
  2: by rewrite Est.
  all: intros Emp Eov; rewrite Emp, Eov in Em; cbn [andb negb] in Em.
  all: assert (∃ k, k ∈ [(1, 1); (1, 2); (1, 4); (2, 1); (2, 2)] ∧ afc_nego (pr (rd_ o)) k ≠ 0) as (k & Hk & Hne);
    [|exists k; split; [unfold families; set_solver|done]].
  all: destruct (decide (Forall (λ k, afc_nego (pr (rd_ o)) k = 0) [(1, 1); (1, 2); (1, 4); (2, 1); (2, 2)])) as [Hf|Hf];
    [|by apply not_Forall_Exists, Exists_exists in Hf; [|apply _]].
  all: apply not_true_iff_false in Em; destruct Em; apply forallb_forall; intros k Hk; apply Z.eqb_eq.
  all: rewrite Forall_forall in Hf; by apply Hf, list_elem_of_In.
Qed.

Lemma open_option_parse_ok c n : stream_ok (ibuf c) → endp (ibuf c) <= BGP_MAX_PACKET_SIZE →
  ∃ o r, bgp_open_option_parse e c n = Ok (o, r) ∧ parsed (Opts c false []) o r ∧
    (r = 0 → capabilities_accepted (pr (rd_ o)) (mp_capability o)).
Proof.
  intros Hs Hm. pose proof Hs as ([? ?] & _). unfold bgp_open_option_parse.
  destruct (option_loop_ok (getp (ibuf c) + n) (Z.to_nat (endp (ibuf c))) (Opts c false [])) as (o & r & -> & Hp);
    [split; [done|cbn; lia]|cbn [rd_]; lia|]. cbn [mbind M_bind].
  destruct Hp as [[-> Hq]|[-> Hq]]; cbn [Z.ltb Z.compare]; [|eexists _, _; split; [done|]; split; [by right|done]].
  destruct (option_check_ok o) as [[-> Ha]|[d ->]]; [apply Hq|..].
  - eexists _, _. split; [done|]. split; [by left|done].
  - eexists _, _. split; [done|]. split; [|done]. right. split; [done|]. eapply spoke_trans; [by apply quiet_spoke|]. by apply spoke_send, Hq.
Qed.
End parsing.

(** ** Looking for the AS number *)

Lemma peek_caps_ok end_ fuel c : stream_ok (ibuf c) → end_ <= endp (ibuf c) → end_ - getp (ibuf c) <= Z.of_nat fuel →
  ∃ c' r, peek_caps fuel c end_ = Ok (c', r) ∧ quiet c c' ∧ getp (ibuf c) <= getp (ibuf c').
Proof.
  revert c. induction fuel as [|fuel IH]; intros c Hs He Hf; cbn [peek_caps];
    (destruct (Z.leb_spec end_ (getp (ibuf c))); [by eexists _, _; split; [done|]; split; [apply steps_refl|]|]);
    (destruct (Z.ltb_spec end_ (getp (ibuf c) + 2)); [by eexists _, _; split; [done|]; split; [apply steps_refl|]|]).
  { lia. }
  pose proof Hs as ([? ?] & _).
  assert (stream_ok (set_getp (ibuf c) (getp (ibuf c) + 1))) as Hs1 by (apply set_getp_ok; [done|lia]).
  rewrite getc_ok by (done || lia). cbn [mbind M_bind]. rewrite getc_ok by (at_stream; done || lia). cbn [mbind M_bind]. at_stream.
  pose proof (ahead_byte _ Hs1 ltac:(at_stream; lia)) as [Hn _]. set (n := be_value (ahead (set_getp _ _) 1)) in *. set (code := be_value _).
  assert (∀ g, getp (ibuf c) <= g <= endp (ibuf c) → quiet c (set_ibuf c (set_getp (ibuf c) g))) as Hq
    by (intros g Hg; apply (steps_read _ c _ (pr c)); [done|lia|reflexivity]).
  destruct (Z.ltb_spec end_ (getp (ibuf c) + 1 + 1 + n)).
  { eexists _, _. split; [done|]. split; [apply Hq; lia|cbn [set_ibuf ibuf]; at_stream; lia]. }
  destruct (code =? CAPABILITY_CODE_AS4).
  { unfold bgp_capability_as4. cbn [ibuf set_pr set_ibuf].
    destruct (Z.eqb_spec n CAPABILITY_CODE_AS4_LEN) as [En|]; cbn [negb].
    - rewrite En in *. unfold CAPABILITY_CODE_AS4_LEN in *. rewrite getl_ok by (try apply set_getp_ok; at_stream; done || lia). cbn [mbind M_bind]. at_stream.
      eexists _, _. split; [done|]. split; [|cbn [set_ibuf ibuf]; at_stream; lia]. apply (steps_read _ c _ (set_cap _ _)); [done|lia|apply flagged_negotiates, flagged_cap].
    - eexists _, _. split; [done|]. split; [|cbn [set_pr set_ibuf ibuf]; at_stream; lia]. apply (steps_read _ c _ (set_cap _ _)); [done|lia|apply flagged_negotiates, flagged_cap]. }
  rewrite forward_ok by (try apply set_getp_ok; at_stream; done || lia). cbn [mbind M_bind]. at_stream.
  set (c1 := set_ibuf (set_ibuf _ _) _). assert (quiet c c1) as Hq1 by (apply Hq; lia).
  destruct (IH c1) as (c' & r & -> & Hq' & Hg); [apply Hq1|cbn [c1 set_ibuf ibuf]; at_stream; lia..|].
  cbn [c1 set_ibuf ibuf] in Hg. rewrite getp_set in Hg. eexists _, _. split; [done|]. split; [by eapply steps_trans|lia].
Qed.

Lemma peek_opts_ok end_ fuel c : stream_ok (ibuf c) → end_ <= endp (ibuf c) → end_ - getp (ibuf c) <= Z.of_nat fuel →
  ∃ c' as4, peek_opts fuel c end_ = Ok (c', as4) ∧ quiet c c'.
Proof.
  revert c. induction fuel as [|fuel IH]; intros c Hs He Hf; cbn [peek_opts];
    (destruct (Z.leb_spec end_ (getp (ibuf c))); [by eexists _, _; split; [done|]; apply steps_refl|]);
    (destruct (Z.ltb_spec end_ (getp (ibuf c) + 2)); [by eexists _, _; split; [done|]; apply steps_refl|]).
  { lia. }
  pose proof Hs as ([? ?] & _).
  assert (stream_ok (set_getp (ibuf c) (getp (ibuf c) + 1))) as Hs1 by (apply set_getp_ok; [done|lia]).
  rewrite getc_ok by (done || lia). cbn [mbind M_bind]. rewrite getc_ok by (at_stream; done || lia). cbn [mbind M_bind]. at_stream.
  pose proof (ahead_byte _ Hs1 ltac:(at_stream; lia)) as [Hn _]. set (n := be_value (ahead (set_getp _ _) 1)) in *. set (ty := be_value _).
  set (c1 := set_ibuf c _).
  assert (quiet c c1) as Hq by (apply (steps_read _ c _ (pr c)); [done|lia|reflexivity]).
  assert (getp (ibuf c1) = getp (ibuf c) + 1 + 1) as Eg by done. assert (endp (ibuf c1) = endp (ibuf c)) as Ee by done.
  destruct (Z.ltb_spec end_ (getp (ibuf c) + 1 + 1 + n)); [by eexists _, _; split|].
  destruct (ty =? BGP_OPEN_OPT_CAP).
  - rewrite (proj2 (Z.leb_le _ _)) by lia.
    destruct (peek_caps_ok (getp (ibuf c) + 1 + 1 + n) (Z.to_nat n) c1) as (c2 & r & -> & Hq2 & Hg2); [apply Hq|lia..|].
    cbn [mbind M_bind]. pose proof (steps_trans (R := negotiates) _ _ _ Hq Hq2) as Hqq. destruct (steps_ends _ _ _ Hqq) as [Ee2 _].
    destruct r as [as4|]; [by eexists _, _; split|].
    destruct (IH c2) as (c' & as4 & -> & Hq'); [apply Hq2|lia..|]. eexists _, _. split; [done|]. by eapply steps_trans.
  - cbn [mbind M_bind]. destruct (IH c1) as (c' & as4 & -> & Hq'); [apply Hq|lia..|]. eexists _, _. split; [done|]. by eapply steps_trans.
Qed.

(** The position is put back. *)
Lemma peek_for_as4_ok c n : stream_ok (ibuf c) → 0 <= n →
  ∃ c' as4, peek_for_as4_capability c n = Ok (c', as4) ∧ quiet c c' ∧ getp (ibuf c') = getp (ibuf c).
Proof.
  intros Hs Hn. pose proof Hs as ([? ?] & _). unfold peek_for_as4_capability. rewrite readable_ok by done.
  destruct (Z.ltb_spec (endp (ibuf c) - getp (ibuf c)) n); [by eexists _, _; split; [done|]; split; [apply steps_refl|]|].
  destruct (peek_opts_ok (getp (ibuf c) + n) (Z.to_nat n) c) as (c1 & as4 & -> & Hq); [done|lia..|]. cbn [mbind M_bind].
  destruct (steps_ends _ _ _ Hq) as [Ee _]. rewrite set_getp_valid by (try apply Hq; lia). cbn [mbind M_bind].
  eexists _, _. split; [done|]. split; [|done]. eapply steps_trans; [exact Hq|].
  apply (steps_read _ c1 _ (pr c1)); [apply Hq|lia|reflexivity].
Qed.

(** ** The message *)

(** [n] bytes of the message from [off] on, as a number. *)
Definition field (s : stream) (off : Z) (n : nat) : Z := be_value (ahead (set_getp s (getp s + off)) n).

(** The holdtime this side offers. *)
Definition own_holdtime (p : peer) : Z :=
  u16 (if CHECK_FLAG (config p) PEER_CONFIG_TIMER then holdtime (conf p) else default_holdtime (conf p)).

(** What an accepted OPEN message leaves in the peer: [h] and [id] are the
    holdtime and identifier it carries, [optlen] the length of its options. *)
Record opened (p : peer) (h id optlen : Z) (p' : peer) : Prop := {
  opened_status : status p' = status p ∧ sflags p' = sflags p;
  opened_event : events p' = if status p =? Deleted then events p else events p ++ [Receive_OPEN_message];
  opened_id : remote_id p' = id;
  opened_holdtime : v_holdtime p' = Z.min h (own_holdtime p);
  opened_keepalive : v_keepalive p' = v_holdtime p' / 3;
  opened_min : h = 0 ∨ 3 <= h;
  opened_nego k : afc_nego p' k ≠ 0 → afc_nego p k ≠ 0 ∨ afc (conf p) k ≠ 0;
  opened_strict : CHECK_FLAG (pflags p) PEER_FLAG_STRICT_CAP_MATCH = true → optlen ≠ 0 →
    ∀ k, k ∈ families → afc_nego p' k = afc (conf p) k;
}.

Lemma foldl_put_cases (f : Z * Z → Z) l a k :
  foldl (λ a k, put a k (f k)) a l k = f k ∨ foldl (λ a k, put a k (f k)) a l k = a k.
Proof.
  revert a. induction l as [|k' l IH]; intros a; cbn [foldl]; [by right|].
  destruct (IH (put a k' (f k'))) as [-> | ->]; [by left|]. destruct (put_cases a k' (f k') k) as [|[<- ?] ]; auto.
Qed.

Section message.
Context (e : env).

(** A refusal: a NOTIFICATION went out. *)
Definition refused (c c' : reader) : Prop := spoke c c' ∧ ∃ n l, notified c' = notified c ++ n :: l.

(** What is left in any case: a valid buffer and the kind of the peer. *)
Record alive (c c' : reader) : Prop := {
  alive_ok : stream_ok (ibuf c');
  alive_size : Stream.size (ibuf c') = Stream.size (ibuf c);
  alive_sflags : sflags (pr c') = sflags (pr c);
}.

Lemma spoke_alive c c' : spoke c c' → alive c c'.
Proof. intros [[g E] ? ? _]. split; [done|by rewrite E|done]. Qed.
Lemma alive_trans c1 c2 c3 : alive c1 c2 → alive c2 c3 → alive c1 c3.
Proof. intros [] []. split; congruence. Qed.

Lemma refused_send c c' code sub d : spoke c c' → refused c (bgp_notify_send_with_data e c' code sub d).
Proof.
  intros Hs. split; [eapply spoke_trans; [exact Hs|apply spoke_send, Hs]|]. destruct (spoke_notified _ _ Hs) as [l El].
  cbn [bgp_notify_send_with_data notified]. rewrite El, <-app_assoc. destruct l; cbn [app]; by eexists _, _.
Qed.

(** The peer after the options, when they were accepted. *)
Lemma accepted_opened p h id optlen p0 p1 (mp : bool) :
  p0 = set_v_keepalive (set_v_holdtime (set_remote_id p id) (Z.min h (own_holdtime p))) (Z.min h (own_holdtime p) / 3) →
  h = 0 ∨ 3 <= h → negotiates p0 p1 → (optlen ≠ 0 → capabilities_accepted p1 mp) →
  opened p h id optlen (set_packet_size (BGP_EVENT_ADD (set_su_known
    (if negb mp || CHECK_FLAG (pflags p1) PEER_FLAG_OVERRIDE_CAPABILITY
     then set_afc_nego p1 (foldl (λ a k, put a k (afc (conf p1) k)) (afc_nego p1) nsf_families) else p1) true) Receive_OPEN_message) 0).
Proof.
  intros -> Hh [[Na _ (Ns & Nf & Np & Ne) (Nh & Nk & Ni)] _ Nn] Ha. cbn in Na, Ns, Nf, Np, Ne, Nh, Nk, Ni, Nn.
  set (p2 := if _ || _ then _ else _).
  assert (status p2 = status p1 ∧ sflags p2 = sflags p1 ∧ events p2 = events p1 ∧ v_holdtime p2 = v_holdtime p1 ∧ v_keepalive p2 = v_keepalive p1 ∧ remote_id p2 = remote_id p1)
    as (E1 & E1' & E2 & E3 & E4 & E5) by (subst p2; by case_match).
  assert (∀ k, afc_nego p2 k = afc_nego p1 k ∨ afc_nego p2 k = afc (conf p) k) as Hn.
  { intros k. subst p2. case_match; [|by left]. cbn [set_afc_nego afc_nego]. rewrite <-Na.
    destruct (foldl_put_cases (afc (conf p1)) nsf_families (afc_nego p1) k); auto. }
  unfold BGP_EVENT_ADD. cbn [set_su_known status]. rewrite E1, Ns.
  split; destruct (status p =? Deleted); cbn [negb set_packet_size set_events set_su_known status sflags events remote_id v_holdtime v_keepalive afc_nego];
    try (split; congruence); try congruence; try done.
  all: try (intros k Hk; destruct (Hn k) as [En|En]; rewrite En in Hk; [|by right];
    destruct (Nn k) as [Em|(_ & ? & _)]; [rewrite Em in Hk; by left|by right]).
  all: intros Hst Ho k Hk; destruct (Ha Ho) as [Hs _]; destruct (Hn k) as [-> | ->]; [|done]; rewrite <-Na; apply Hs; [by rewrite Np|done].
Qed.

Lemma open_negotiate_ok c as_ lid version ras h rad rid optlen :
  stream_ok (ibuf c) → endp (ibuf c) <= BGP_MAX_PACKET_SIZE →
  ∃ c' r, open_negotiate e c as_ lid version ras h rad rid optlen = Ok (c', r) ∧ alive c c' ∧
    ((r = -1 ∧ refused c c') ∨
     (r = 0 ∧ notified c' = notified c ∧ version = BGP_VERSION_4 ∧ ras = as_ ∧
      be_value rid ≠ 0 ∧ be_value rid ≠ lid ∧ IPV4_CLASS_DE (be_value rid) = false ∧ opened (pr c) h (be_value rid) optlen (pr c'))).
Proof.
  intros Hs Hm. unfold open_negotiate.
  assert (∀ p sub d, sflags p = sflags (pr c) → ∃ c' r, Ok (bgp_notify_send_with_data e (set_pr c p) BGP_NOTIFY_OPEN_ERR sub d, -1) = Ok (c', r) ∧
    alive c c' ∧ ((r = -1 ∧ refused c c') ∨ (r = 0 ∧ notified c' = notified c ∧ version = BGP_VERSION_4 ∧ ras = as_ ∧
      be_value rid ≠ 0 ∧ be_value rid ≠ lid ∧ IPV4_CLASS_DE (be_value rid) = false ∧ opened (pr c) h (be_value rid) optlen (pr c')))) as Hsend.
  { intros p sub d Hp. eexists _, _. split; [done|]. pose proof (refused_send c (set_pr c p) BGP_NOTIFY_OPEN_ERR sub d (spoke_peer c p Hs Hp)) as Hr.
    split; [apply spoke_alive, Hr|]. by left. }
  pose proof (Hsend (pr c)) as Hsend0. replace (set_pr c (pr c)) with c in Hsend0 by (by destruct c).
  destruct (Z.eqb_spec (be_value rid) 0) as [|Hid]; cbn [orb]; [by apply Hsend0|].
  destruct (IPV4_CLASS_DE (be_value rid)) eqn:Hde; cbn [orb]; [by apply Hsend0|].
  destruct (Z.eqb_spec lid (be_value rid)) as [|Hlid]; [by apply Hsend0|].
  destruct (Z.eqb_spec version BGP_VERSION_4) as [Hv|]; cbn [negb]; [|by apply Hsend].
  destruct (Z.eqb_spec ras as_) as [Has|]; cbn [negb]; [|by apply Hsend].
  destruct ((h <? 3) && negb (h =? 0)) eqn:Hh; [by apply Hsend|].
  assert (h = 0 ∨ 3 <= h) as Hh' by (destruct (Z.ltb_spec h 3), (Z.eqb_spec h 0); cbn in Hh; (done || lia)).
  cbn [pr set_pr config set_remote_id conf]. fold (own_holdtime (pr c)).
  assert ((if h <? own_holdtime (pr c) then h else own_holdtime (pr c)) = Z.min h (own_holdtime (pr c))) as ->
    by (destruct (Z.ltb_spec h (own_holdtime (pr c))); lia).
  cbn [v_holdtime set_v_holdtime]. set (p0 := set_v_keepalive _ _). set (c0 := set_pr _ p0).
  assert (∃ c1 mp r, (if negb (optlen =? 0) then '(o, ret) ← bgp_open_option_parse e c0 optlen; Ok (rd_ o, mp_capability o, ret)
                   else Ok (c0, false, 0)) = Ok (c1, mp, r) ∧
     ((r = -1 ∧ spoke c0 c1) ∨ (r = 0 ∧ quiet c0 c1 ∧ (optlen ≠ 0 → capabilities_accepted (pr c1) mp)))) as (c1 & mp & r & -> & Hr).
  { destruct (Z.eqb_spec optlen 0); cbn [negb].
    - eexists _, _, _. split; [done|]. right. split; [done|]. split; [by apply steps_refl|done].
    - destruct (open_option_parse_ok e c0 optlen Hs Hm) as (o & r & -> & [[-> ?]|[-> ?]] & Ha); cbn [mbind M_bind];
        eexists _, _, _; (split; [done|]); [right|left]; split; [done|split; [done|by intros; apply Ha]|done..]. }
  cbn [mbind M_bind]. destruct Hr as [[-> Hr]|(-> & Hq & Ha)]; cbn [Z.ltb Z.compare].
  { assert (spoke c c1) as Hc1 by (eapply spoke_trans; [by apply (spoke_peer c p0)|exact Hr]).
    eexists _, _. split; [done|]. split; [apply spoke_alive, (refused_send c c1), Hc1|]. left. split; [done|]. by apply refused_send. }
  unfold stream_reset. rewrite sane_ok by apply Hq. cbn [mbind M_bind]. eexists _, _. split; [done|].
  assert (opened (pr c) h (be_value rid) optlen (pr (set_ibuf (set_pr c1 (set_packet_size (BGP_EVENT_ADD (set_su_known
    (if negb mp || CHECK_FLAG (pflags (pr c1)) PEER_FLAG_OVERRIDE_CAPABILITY
     then set_afc_nego (pr c1) (foldl (λ a k, put a k (afc (conf (pr c1)) k)) (afc_nego (pr c1)) nsf_families) else pr c1) true) Receive_OPEN_message) 0))
       (set_getp (set_endp (ibuf c1) 0) 0)))) as Ho by (eapply accepted_opened; [done|done|apply Hq|done]).
  split; [split; [|by destruct (steps_moved _ _ _ Hq) as [g ->]|apply (opened_status _ _ _ _ _ Ho)]|right; split_and!; try done; apply Hq].
  destruct (steps_ok _ _ _ Hq) as (? & ? & ? & ? & ?). split_and!; cbn; (done || lia).
Qed.

Lemma collision_detect_ok others c id : stream_ok (ibuf c) →
  (∃ others' r, bgp_collision_detect e c others id = (c, others', r) ∧ 0 <= r) ∨
  (∃ c' others', bgp_collision_detect e c others id = (c', others', -1) ∧ (refused c c' ∨ (c' = c ∧ fd (pr c) < 0))).
Proof.
  intros Hs. pose proof (spoke_peer c (pr c) Hs eq_refl) as Hc. replace (set_pr c (pr c)) with c in Hc by (by destruct c).
  induction others as [|o others IH]; cbn [bgp_collision_detect]; [by left; eexists _, _|].
  case_match; [case_match; [by left; eexists _, _|]|].
  - right. eexists _, _. split; [done|]. destruct (Z.leb_spec 0 (fd (pr c))); [left; by apply refused_send|by right].
  - destruct IH as [(os & r & -> & Hr)|(c' & os & -> & Hr)]; [left|right]; by eexists _, _.
Qed.

Lemma open_remote_as_cases c ras as4 : stream_ok (ibuf c) →
  (∃ c', open_remote_as e c ras as4 = (c', None) ∧ refused c c') ∨
  (∃ r, open_remote_as e c ras as4 = (c, Some r) ∧ (r = ras ∨ (ras = BGP_AS_TRANS ∧ r = as4))).
Proof.
  intros Hs. pose proof (spoke_peer c (pr c) Hs eq_refl) as Hc. replace (set_pr c (pr c)) with c in Hc by (by destruct c).
  unfold open_remote_as. case_match; [left; eexists; split; [done|by apply refused_send]|].
  destruct (Z.eqb_spec ras BGP_AS_TRANS).
  - case_match; [left; eexists; split; [done|by apply refused_send]|]. right. eexists. split; [done|]. case_match; auto.
  - case_match; [left; eexists; split; [done|by apply refused_send]|]. right. eexists. split; [done|]. auto.
Qed.

Lemma opened_negotiates p p1 h id optlen p' : negotiates p p1 → opened p1 h id optlen p' → opened p h id optlen p'.
Proof.
  intros [[Nc (N1 & N2 & N3 & _) (Ns & Nf & Np & Ne) _] _ Nn] [[E1 E1'] E2 E3 E4 E5 E6 E7 E8].
  assert (own_holdtime p1 = own_holdtime p) as Eh by (unfold own_holdtime; by rewrite N1, N2, N3).
  rewrite Nc in *. rewrite Nf, Ns, Ne in *. rewrite Eh in *. rewrite Np in *. split; try done. intros k Hk.
  destruct (E7 k Hk) as [Hk'|]; [|by right]. destruct (Nn k) as [<-|(_ & ? & _)]; auto.
Qed.

Lemma open_receive_ok as_ local_id lookup junk c others :
  stream_ok (ibuf c) → getp (ibuf c) + 10 <= endp (ibuf c) <= BGP_MAX_PACKET_SIZE →
  CHECK_FLAG (sflags (pr c)) PEER_STATUS_ACCEPT_PEER = false →
  ∃ c' others' r, bgp_open_receive e as_ local_id lookup junk c others = Ok (c', others', r) ∧ alive c c' ∧
    ((r = -1 ∧ (refused c c' ∨ fd (pr c) < 0)) ∨
     (r = 0 ∧ notified c' = notified c ∧ field (ibuf c) 0 1 = BGP_VERSION_4 ∧
      (as_ = field (ibuf c) 1 2 ∨ field (ibuf c) 1 2 = BGP_AS_TRANS) ∧
      field (ibuf c) 5 4 ≠ 0 ∧ field (ibuf c) 5 4 ≠ local_id ∧ IPV4_CLASS_DE (field (ibuf c) 5 4) = false ∧
      opened (pr c) (field (ibuf c) 3 2) (field (ibuf c) 5 4) (field (ibuf c) 9 1) (pr c'))).
Proof.
  intros Hs [He Hm] Hacc. pose proof Hs as ([? ?] & _). unfold bgp_open_receive.
  assert (∀ d, 0 <= d <= 10 → stream_ok (set_getp (ibuf c) (getp (ibuf c) + d))) as Hsd by (intros; apply set_getp_ok; [done|lia]).
  rewrite getc_ok by (done || lia). cbn [mbind M_bind].
  rewrite (get_bytes_ok _ 2) by (try apply Hsd; at_stream; lia). cbn [mbind M_bind].
  rewrite getw_ok by (try apply Hsd; at_stream; lia). cbn [mbind M_bind]. at_stream. replace (getp (ibuf c) + 1 + 2) with (getp (ibuf c) + 3) by lia.
  rewrite getw_ok by (try apply Hsd; at_stream; lia). cbn [mbind M_bind]. at_stream. replace (getp (ibuf c) + 3 + 2) with (getp (ibuf c) + 5) by lia.
  rewrite get_ipv4_ok by (try apply Hsd; at_stream; lia). cbn [mbind M_bind]. at_stream. replace (getp (ibuf c) + 5 + 4) with (getp (ibuf c) + 9) by lia.
  rewrite getc_ok by (try apply Hsd; at_stream; lia). cbn [mbind M_bind]. at_stream. replace (getp (ibuf c) + 9 + 1) with (getp (ibuf c) + 10) by lia.
  assert (be_value (ahead (ibuf c) 1) = field (ibuf c) 0 1) as -> by (unfold field; rewrite Z.add_0_r; by destruct (ibuf c)).
  fold (field (ibuf c) 1 2) (field (ibuf c) 3 2) (field (ibuf c) 9 1). set (rid := ahead (set_getp (ibuf c) (getp (ibuf c) + 5)) 4).
  set (c1 := set_ibuf _ _). assert (quiet c c1) as Hq1 by (apply (steps_read _ c _ (pr c)); [done|lia|reflexivity]).
  assert (0 <= field (ibuf c) 9 1) as Ho by (apply ahead_byte; [apply Hsd; lia|at_stream; lia]).
  set (m := if negb _ then _ else _).
  assert (∃ c2 as4, m = Ok (c2, as4) ∧ quiet c1 c2) as (c2 & as4 & -> & Hq2).
  { subst m. case_match; [|eexists _, _; split; [done|apply steps_refl, Hq1]].
    edestruct peek_for_as4_ok as (c2 & as4 & -> & Hq2 & _); [apply Hq1|exact Ho|]. by eexists _, _. }
  cbn [mbind M_bind]. pose proof (steps_trans (R := negotiates) _ _ _ Hq1 Hq2) as [Hmv Hs2 Hp2 Hn2]. destruct Hmv as [g Eg].
  assert (spoke c c2) as Hc2 by (apply quiet_spoke; by split; [exists g|..]).
  assert (∀ c', refused c2 c' → refused c c') as Href by (intros ? [? ?]; split; [by eapply spoke_trans|by rewrite <-Hn2]).
  assert (∀ c', refused c c' → alive c c') as Hal by (intros ? [? _]; by apply spoke_alive).
  destruct (open_remote_as_cases c2 (field (ibuf c) 1 2) as4 Hs2) as [(c' & -> & Hr)|(ras & -> & Hras)].
  { eexists _, _, _. split; [done|]. split; [auto|]. left. auto. }
  destruct (lookup _ _) as [found wrong]. pose proof Hp2 as [[_ _ (_ & -> & _) _] _ _]. rewrite Hacc. cbn [andb].
  destruct (collision_detect_ok others c2 (be_value rid) Hs2) as [(os & r & -> & Hr)|(c' & os & -> & Hr)].
  2: { cbn [Z.ltb Z.compare]. eexists _, _, _. split; [done|]. destruct Hr as [Hr|[-> Hr] ]; [apply Href in Hr; split; [by apply Hal|by auto]|].
    split; [by apply spoke_alive|]. left. split; [done|]. right. by destruct Hp2 as [[_ (_ & _ & _ & <-) _ _] _ _]. }
  rewrite (proj2 (Z.ltb_ge r 0)) by done.
  edestruct (open_negotiate_ok c2) as (c3 & r' & -> & Ha & Hn); [exact Hs2|by rewrite Eg|]. cbn [mbind M_bind].
  eexists _, _, _. split; [done|].
  split; [by eapply alive_trans; [apply spoke_alive|]|]. destruct Hn as [[-> Hn]|(-> & Hn & Hv & -> & ? & ? & ? & Hop)]; [left; auto|right].
  split_and!; try done; [congruence| |].
  - destruct Hras as [->|[? _]]; auto.
  - by eapply opened_negotiates.
Qed.
End message.

(** ** Instances *)

(** An OPEN message without options: version 4, AS 65001, holdtime 90, 10.0.0.1. *)
Definition sample_open : stream := Stream 0 10 4096 ([4; 253; 233; 0; 90; 10; 0; 0; 1; 0] ++ replicate 4086 0).

Lemma sample_open_ok : stream_ok sample_open.
Proof. split_and!; try (vm_compute; congruence). apply Forall_app. split; [by repeat constructor|by apply Forall_replicate]. Qed.


(** A strict peer with two families configured. *)
Definition strict_peer : peer :=
  Peer OpenSent OpenSent 7 PEER_FLAG_STRICT_CAP_MATCH 0 0 0 5 180 60
    (Conf 120 30 120 180 60 180 60 360 (put (put zeros (1, 1) 1) (2, 1) 1) zeros) true false (λ _, None) zeros zeros zeros zeros zeros zeros
    [] [] 0 0 0 0 0 0 0 0 0 0 false 0 [] None ∅.

(** It accepts a message without options, and takes both as negotiated: the
    capabilities are compared only when there are options. *)
Example strict_peer_without_options :
  match bgp_open_receive sample_env 65001 7 (λ _ _, (None, false)) [] (Reader strict_peer sample_open []) [] with
  | Ok (c, _, r) => (r, notified c, afc_nego (pr c) (2, 1)) = (0, [], 1)
  | Fault _ => False
  end.
Proof. vm_compute. reflexivity. Qed.
