(* ===== verification/OpenTrip.v ===== *)
(** The two directions of an OPEN message together: what [bgp_open_capability]
    writes, what [bgp_open_option_parse] makes of it, and what two speakers
    negotiate. *)
From S2P Require Import Prelude Prefix Stream StreamRead ASPath Fsm FsmSpec Open OpenSpec.
Open Scope Z_scope.

Notation zlen l := (Z.of_nat (length l)).

(** ** Options as data *)

(** A capability is a code and its data; each is sent as an option of its own. *)
Definition option_bytes (cd : Z * list Z) : list Z :=
  [BGP_OPEN_OPT_CAP; zlen (snd cd) + 2; fst cd; zlen (snd cd)] ++ snd cd.

(** A capability the parser accepts. *)
Definition known (cd : Z * list Z) : Prop :=
  let '(code, d) := cd in
  (code = CAPABILITY_CODE_MP ∧ length d = 4%nat) ∨
  ((code = CAPABILITY_CODE_REFRESH ∨ code = CAPABILITY_CODE_REFRESH_OLD ∨ code = CAPABILITY_CODE_DYNAMIC) ∧ d = []) ∨
  (code = CAPABILITY_CODE_AS4 ∧ length d = 4%nat ∧ be_value d ≠ 0) ∨
  ((code = CAPABILITY_CODE_ORF ∨ code = CAPABILITY_CODE_ORF_OLD) ∧ length d = 7%nat ∧ d !! 4%nat = Some 1) ∨
  (code = CAPABILITY_CODE_RESTART ∧ (2 <= length d)%nat).

(** The flag the parser sets for a code. *)
Definition code_flag (code : Z) : option Z :=
  if code =? CAPABILITY_CODE_REFRESH then Some PEER_CAP_REFRESH_NEW_RCV
  else if code =? CAPABILITY_CODE_REFRESH_OLD then Some PEER_CAP_REFRESH_OLD_RCV
  else if code =? CAPABILITY_CODE_DYNAMIC then Some PEER_CAP_DYNAMIC_RCV
  else if code =? CAPABILITY_CODE_AS4 then Some PEER_CAP_AS4_RCV
  else if code =? CAPABILITY_CODE_RESTART then Some PEER_CAP_RESTART_RCV
  else None.

(** What a capability does to the peer that receives it. *)
Definition effect (cd : Z * list Z) (p p' : peer) : Prop :=
  if fst cd =? CAPABILITY_CODE_MP then mp_received (be_value (take 2 (snd cd))) (be_value (drop 3 (snd cd))) p p'
  else flagged p p' ∧ ∀ f, code_flag (fst cd) = Some f → CHECK_FLAG (cap p') f = true.

Fixpoint effects (caps : list (Z * list Z)) (p p' : peer) : Prop :=
  match caps with [] => p' = p | cd :: caps' => ∃ p1, effect cd p p1 ∧ effects caps' p1 p' end.

(** Whether a capability announces a family. *)
Definition announces (k : Z * Z) (cd : Z * list Z) : bool :=
  (fst cd =? CAPABILITY_CODE_MP) &&
  match bgp_afi_safi_valid_indices (be_value (take 2 (snd cd))) (be_value (drop 3 (snd cd))) with
  | Some safi => bool_decide ((be_value (take 2 (snd cd)), safi) = k)
  | None => false
  end.

(** ** Bytes in front of the reader *)

Lemma unread_ahead s b rest : stream_ok s → unread s = b ++ rest →
  getp s + zlen b <= endp s ∧ ahead s (length b) = b ∧ stream_ok (set_getp s (getp s + zlen b)) ∧
  unread (set_getp s (getp s + zlen b)) = rest.
Proof.
  intros Hs E. pose proof (length_unread s Hs) as L. rewrite E, length_app in L.
  destruct (consume_ok s b rest Hs E) as (? & _ & _ & _ & ?). split; [lia|]. split; [|done].
  unfold ahead. rewrite take_unread by (done || lia). by rewrite E, take_app_length.
Qed.

Lemma byte_value x : is_byte x → be_value [x] = x.
Proof. unfold be_value. cbn. lia. Qed.

Lemma unread_byte s x rest : stream_ok s → unread s = x :: rest → is_byte x.
Proof. intros Hs E. pose proof (unread_bytes s Hs) as H. rewrite E in H. by apply Forall_cons in H as [? _]. Qed.

(** [stream_getc] on a known byte. *)
Lemma getc_cons s x rest : stream_ok s → unread s = x :: rest →
  stream_getc s = Ok (set_getp s (getp s + 1), x) ∧ stream_ok (set_getp s (getp s + 1)) ∧ unread (set_getp s (getp s + 1)) = rest ∧
  getp s + 1 <= endp s.
Proof.
  intros Hs E. destruct (unread_ahead s [x] rest Hs E) as (? & Ea & ? & ?). cbn [length] in *.
  rewrite getc_ok by done. rewrite Ea, byte_value by exact (unread_byte s x rest Hs E). done.
Qed.

Lemma getp_nonneg s : stream_ok s → 0 <= getp s.
Proof. by intros ([? ?] & _). Qed.

(** ** Flags *)

Lemma check_set_flag v f : f ≠ 0 → CHECK_FLAG (SET_FLAG v f) f = true.
Proof.
  intros Hf. unfold CHECK_FLAG, SET_FLAG. rewrite Z.land_lor_distr_l, Z.land_diag. apply negb_true_iff, Z.eqb_neq.
  intros E%Z.lor_eq_0_iff. lia.
Qed.

Lemma flagged_check p p' f : flagged p p' → CHECK_FLAG (cap p) f = true → CHECK_FLAG (cap p') f = true.
Proof.
  intros [_ _ _ E]. unfold CHECK_FLAG. rewrite !negb_true_iff, !Z.eqb_neq. intros H E'. apply H.
  by rewrite <-E, (Z.land_comm (cap p')), <-Z.land_assoc, E', Z.land_0_r.
Qed.

Lemma effect_kept cd p p' : effect cd p p' → kept p p'.
Proof. unfold effect. case_match; [apply ann_kept|]. intros [Hf _]. apply Hf. Qed.

Lemma effect_check cd p p' f : effect cd p p' → CHECK_FLAG (cap p) f = true → CHECK_FLAG (cap p') f = true.
Proof. unfold effect. case_match; [by intros [_ -> _]|]. intros [Hf _]. by apply flagged_check. Qed.

Lemma effects_kept caps p p' : effects caps p p' → kept p p'.
Proof.
  revert p. induction caps as [|cd caps IH]; intros p; cbn [effects]; [intros ->; reflexivity|].
  intros (p1 & H1 & H2). etrans; [by eapply effect_kept|by apply IH].
Qed.

Lemma effects_check caps p p' f : effects caps p p' → CHECK_FLAG (cap p) f = true → CHECK_FLAG (cap p') f = true.
Proof.
  revert p. induction caps as [|cd caps IH]; intros p; cbn [effects]; [by intros ->|].
  intros (p1 & H1 & H2) Hc. eapply IH; [done|]. by eapply effect_check.
Qed.

(** Every flag of the capabilities is set. *)
Lemma effects_flag caps p p' cd f : effects caps p p' → cd ∈ caps → code_flag (fst cd) = Some f → CHECK_FLAG (cap p') f = true.
Proof.
  revert p. induction caps as [|cd' caps IH]; intros p; cbn [effects]; [set_solver|].
  intros (p1 & H1 & H2) [->|Hin]%elem_of_cons Hf; [|by eapply IH]. eapply effects_check; [done|].
  unfold effect in H1. destruct (Z.eqb_spec (fst cd') CAPABILITY_CODE_MP) as [E|_]; [by rewrite E in Hf|]. by apply H1.
Qed.

(** The families negotiated are those that were announced and are configured. *)
Lemma effects_nego caps p p' k : effects caps p p' →
  afc_nego p' k = if existsb (announces k) caps && negb (afc (conf p) k =? 0) then 1 else afc_nego p k.
Proof.
  revert p. induction caps as [|cd caps IH]; intros p; cbn [effects existsb]; [by intros ->|].
  intros (p1 & H1 & H2). rewrite (IH p1 H2), (kept_afc _ _ (effect_kept _ _ _ H1)).
  assert (afc_nego p1 k = if announces k cd && negb (afc (conf p) k =? 0) then 1 else afc_nego p k) as ->.
  { unfold effect, announces in *. destruct (fst cd =? CAPABILITY_CODE_MP); cbn [andb]; [|by destruct H1 as [[_ _ -> _] _]].
    destruct H1 as [_ _ H]. destruct (bgp_afi_safi_valid_indices _ _) as [safi|]; [|by destruct H as [_ ->]].
    destruct H as [_ ->]. case_bool_decide as Hk; cbn [andb].
    - rewrite Hk. destruct (afc (conf p) k =? 0); [done|]. apply put_eq.
    - case_match; [done|]. unfold put. by rewrite decide_False. }
  destruct (announces k cd), (existsb (announces k) caps), (afc (conf p) k =? 0); done.
Qed.

(** ** Parsing what is known *)

(** The branch of [handle_capability] for a code. *)
Ltac at_code := unfold handle_capability; cbn [Z.eqb Pos.eqb orb CAPABILITY_CODE_MP CAPABILITY_CODE_REFRESH CAPABILITY_CODE_ORF
  CAPABILITY_CODE_RESTART CAPABILITY_CODE_AS4 CAPABILITY_CODE_DYNAMIC CAPABILITY_CODE_REFRESH_OLD CAPABILITY_CODE_ORF_OLD rd_].

Section parse.
Context (e : env).

Lemma orf_known c code d rest : stream_ok (ibuf c) → unread (ibuf c) = d ++ rest → length d = 7%nat → d !! 4%nat = Some 1 →
  ∃ c', bgp_capability_orf_entry e c code 7 = Ok (c', 0) ∧ steps flagged c c'.
Proof.
  intros Hs E Hd H4. destruct (unread_ahead _ d rest Hs E) as (He & _). rewrite Hd in He. pose proof (getp_nonneg _ Hs).
  assert (unread (ibuf c) = take 4 d ++ 1 :: drop 5 d ++ rest) as E4.
  { rewrite E. rewrite <-(take_drop_middle d 4 1 H4) at 1. by rewrite <-app_assoc. }
  destruct (unread_ahead _ (take 4 d) _ Hs E4) as (_ & _ & Hs4 & Eu). rewrite length_take, Hd in Hs4, Eu.
  change (Z.of_nat (4 `min` 7)) with 4 in Hs4, Eu.
  unfold bgp_capability_orf_entry. rewrite mp_data_ok by (done || lia). cbn [mbind M_bind].
  destruct (getc_cons _ 1 _ Hs4 Eu) as (-> & Hs5 & _). cbn [mbind M_bind]. rewrite set_set, getp_set in *.
  set (afi := be_value _). set (safi := be_value _). set (c1 := set_ibuf _ _).
  assert (steps flagged c c1) as Hq by (apply (steps_read _ c _ (pr c)); [done|lia|reflexivity]).
  destruct (bgp_afi_safi_valid_indices afi safi) as [safi'|] eqn:Ev; [|by eexists]. apply valid_family in Ev.
  change (7 <? 5 + 1 * 2) with false. cbv iota.
  destruct (orf_loop_ok code afi safi' Ev (Z.to_nat 1) c1) as (c' & -> & Hq'); [apply Hq|cbn [ibuf c1 set_ibuf]; at_stream; lia|].
  eexists. split; [done|]. by eapply steps_trans.
Qed.

Lemma as4_known c d rest : stream_ok (ibuf c) → unread (ibuf c) = d ++ rest → length d = 4%nat →
  ∃ c', bgp_capability_as4 c 4 = Ok (c', be_value d) ∧ steps flagged c c' ∧ CHECK_FLAG (cap (pr c')) PEER_CAP_AS4_RCV = true ∧
    getp (ibuf c') = getp (ibuf c) + 4.
Proof.
  intros Hs E Hd. destruct (unread_ahead _ d rest Hs E) as (He & Ea & _). rewrite Hd in He, Ea. pose proof (getp_nonneg _ Hs).
  unfold bgp_capability_as4. change (negb (4 =? CAPABILITY_CODE_AS4_LEN)) with false. cbv iota. cbn [ibuf set_pr].
  rewrite getl_ok, Ea by done. cbn [mbind M_bind]. eexists. split; [done|]. split; [|split; [by apply check_set_flag|done]].
  apply (steps_read _ c _ (set_cap _ _)); [done|lia|apply flagged_cap].
Qed.

(** The flag of a graceful restart capability. *)
Lemma restart_known c n : stream_ok (ibuf c) → 2 <= n → getp (ibuf c) + n <= endp (ibuf c) →
  ∃ c', bgp_capability_restart c n = Ok c' ∧ steps flagged c c' ∧ CHECK_FLAG (cap (pr c')) PEER_CAP_RESTART_RCV = true.
Proof.
  intros Hs Hn He. pose proof (getp_nonneg _ Hs). unfold bgp_capability_restart. rewrite getw_ok by (done || lia). cbn [mbind M_bind].
  set (p := set_v_gr_restart _ _). set (c1 := set_ibuf _ _).
  assert (flagged (set_cap (pr c) (SET_FLAG (cap (pr c)) PEER_CAP_RESTART_RCV)) p) as Hp
    by (etrans; [|apply flagged_gr]; case_match; [apply flagged_cap|reflexivity]).
  assert (steps flagged c c1) as Hq by (apply (steps_read _ c _ p); [done|lia|etrans; [apply flagged_cap|done]]).
  destruct (restart_loop_ok (getp (ibuf c) + n) (Z.to_nat n) c1) as (c' & -> & Hq');
    [apply Hq|cbn [ibuf c1 set_pr set_ibuf]; at_stream; lia..|].
  exists c'. split; [done|]. split; [by eapply steps_trans|]. eapply flagged_check; [apply Hq'|].
  eapply flagged_check; [exact Hp|]. by apply check_set_flag.
Qed.

Lemma known_fits code d : known (code, d) → too_short code (zlen d) = false.
Proof.
  unfold known, too_short, cap_minsizes. cbn [existsb fst snd]. intros [[-> H]|[[[->|[->| ->]] ->]|[(-> & H & _)|[([->| ->] & H & _)|[-> H]]]]]; cbn;
    repeat rewrite ?orb_false_r, ?orb_false_l; try done; rewrite ?H; try done; apply Z.ltb_ge; lia.
Qed.

Lemma handle_known o sp code d rest : known (code, d) →
  CHECK_FLAG (pflags (pr (rd_ o))) PEER_FLAG_OVERRIDE_CAPABILITY = false →
  stream_ok (ibuf (rd_ o)) → endp (ibuf (rd_ o)) <= BGP_MAX_PACKET_SIZE → getp (ibuf (rd_ o)) = sp + 2 →
  unread (ibuf (rd_ o)) = d ++ rest → zlen (error o) <= sp →
  ∃ o', handle_capability e o sp code (zlen d) = Ok (o', None) ∧ steps (effect (code, d)) (rd_ o) (rd_ o') ∧
    mp_capability o' = (code =? CAPABILITY_CODE_MP) || mp_capability o ∧ zlen (error o') <= sp + 2 + zlen d.
Proof.
  intros Hk Hov Hs Hm Hg E Hl. destruct (unread_ahead _ d rest Hs E) as (He & Ea & _).
  assert (∀ f, code ≠ CAPABILITY_CODE_MP → code_flag code = Some f → f ≠ 0 → steps (effect (code, d)) (rd_ o) (rd_ (set_cap_flag o f))) as Hflag.
  { intros f Hc Ef Hf. split; [apply moved_refl|done| |done]. unfold effect. cbn [fst]. rewrite (proj2 (Z.eqb_neq _ _)) by done.
    split; [apply flagged_cap|]. rewrite Ef. intros _ [= <-]. by apply check_set_flag. }
  assert (∀ c', code ≠ CAPABILITY_CODE_MP → steps flagged (rd_ o) c' → (∀ f, code_flag code = Some f → CHECK_FLAG (cap (pr c')) f = true) →
    steps (effect (code, d)) (rd_ o) c') as Hfl.
  { intros c' Hc [? ? ? ?] Hf. split; [done..| |done]. unfold effect. cbn [fst]. by rewrite (proj2 (Z.eqb_neq _ _)). }
  destruct Hk as [[-> Hd]|[[Hc ->]|[(-> & Hd & Hv)|[(Hc & Hd & H4)|[-> Hd]]]]].
  - at_code. rewrite Hov. rewrite Hd in *.
    destruct (capability_mp_ok (rd_ o) Hs ltac:(lia)) as (c' & r & -> & Hq). cbn [mbind M_bind].
    assert (steps (effect (CAPABILITY_CODE_MP, d)) (rd_ o) c') as Hq'.
    { eapply steps_mono; [|exact Hq]. intros p p'. unfold effect. cbn [fst snd Z.eqb CAPABILITY_CODE_MP Pos.eqb].
      destruct (unread_ahead (ibuf (rd_ o)) (take 2 d) (drop 2 d ++ rest) Hs) as (_ & E2 & _); [by rewrite app_assoc, take_drop|].
      destruct (unread_ahead (ibuf (rd_ o)) (take 3 d) (drop 3 d ++ rest) Hs) as (_ & _ & Hs3 & Eu); [by rewrite app_assoc, take_drop|].
      rewrite length_take, Hd in E2, Hs3, Eu.
      change (2 `min` 4)%nat with 2%nat in E2. change (Z.of_nat (3 `min` 4)) with 3 in Hs3, Eu. destruct (unread_ahead _ _ _ Hs3 Eu) as (_ & E3 & _).
      rewrite length_drop, Hd in E3. change (4 - 3)%nat with 1%nat in E3. by rewrite E2, E3. }
    pose proof (steps_ends _ _ _ Hq) as [Ee _]. case_match; [|eexists; split; [done|]; split; [done|split; [done|cbn; lia]]].
    edestruct (store_error_ok (set_rd (Opts (rd_ o) true (error o)) c') sp (zlen d + 2)) as (b & Eb & Hb);
      [apply Hq|cbn [set_rd rd_ error]; lia..|]. rewrite Hd in Eb, Hb. rewrite Eb. cbn [mbind M_bind]. eexists. split; [done|]. split; [done|].
    split; [done|]. cbn [set_rd error] in *. rewrite length_app. lia.
  - destruct Hc as [->|[->| ->]]; eexists; (split; [done|]); (split; [by apply Hflag|]); (split; [done|cbn; lia]).
  - at_code. rewrite Hd in *. change (Z.of_nat 4) with 4. destruct (as4_known (rd_ o) d rest Hs E Hd) as (c' & -> & Hq & Hf & _). cbn [mbind M_bind].
    rewrite (proj2 (Z.eqb_neq _ _)) by done. eexists. split; [done|]. split; [|split; [done|cbn; lia]]. apply Hfl; [done|done|]. by intros f [= <-].
  - rewrite Hd in *. change (Z.of_nat 7) with 7. destruct (orf_known (rd_ o) code d rest Hs E Hd H4) as (c' & Eo & Hq).
    destruct Hc as [-> | ->]; at_code; rewrite Eo; cbn [mbind M_bind]; eexists; (split; [done|]); (split; [|split; [done|cbn; lia]]); by apply Hfl.
  - at_code. destruct (restart_known (rd_ o) (zlen d) Hs) as (c' & -> & Hq & Hf); [lia..|]. cbn [mbind M_bind].
    eexists. split; [done|]. split; [|split; [done|cbn; lia]]. apply Hfl; [done|done|]. by intros f [= <-].
Qed.

(** What the parser leaves after known capabilities, with [rest] unread. *)
Record took (R : relation peer) (o o' : opts) (rest : list Z) : Prop := {
  took_steps : steps R (rd_ o) (rd_ o');
  took_ok : opts_ok o';
  took_unread : unread (ibuf (rd_ o')) = rest;
}.

Lemma unread_end s b rest g : stream_ok s → unread s = b ++ rest → g = getp s + zlen b → unread (set_getp s g) = rest.
Proof. intros Hs E ->. by destruct (unread_ahead s b rest Hs E) as (_ & _ & _ & ?). Qed.

Lemma capability_parse_known o code d rest : known (code, d) → opts_ok o →
  CHECK_FLAG (pflags (pr (rd_ o))) PEER_FLAG_OVERRIDE_CAPABILITY = false →
  unread (ibuf (rd_ o)) = [code; zlen d] ++ d ++ rest →
  ∃ o', bgp_capability_parse e o (zlen d + 2) = Ok (o', 0) ∧ took (effect (code, d)) o o' rest ∧
    mp_capability o' = (code =? CAPABILITY_CODE_MP) || mp_capability o ∧ getp (ibuf (rd_ o')) = getp (ibuf (rd_ o)) + zlen d + 2.
Proof.
  intros Hk (Hs & Hm & Hl) Hov E. set (s := ibuf (rd_ o)) in *. pose proof (getp_nonneg s Hs) as Hg0.
  destruct (unread_ahead s ([code; zlen d] ++ d) rest Hs) as (He & _); [by rewrite <-app_assoc|]. rewrite length_app in He. cbn [length] in He.
  unfold bgp_capability_parse. fold s. rewrite readable_ok, (proj2 (Z.leb_le _ (endp s - getp s))) by (done || lia).
  destruct (Z.to_nat (zlen d + 2)) as [|n] eqn:En; [lia|]. cbn [capability_loop]. fold s. rewrite (proj2 (Z.leb_gt _ _)) by lia.
  unfold capability_round. fold s. rewrite (proj2 (Z.ltb_ge _ _)) by lia.
  destruct (getc_cons s code _ Hs E) as (-> & Hs1 & E1 & _). cbn [mbind M_bind].
  destruct (getc_cons _ (zlen d) _ Hs1 E1) as (-> & Hs2 & E2 & _). cbn [mbind M_bind]. rewrite set_set, getp_set in *. at_stream.
  replace (getp s + 1 + 1) with (getp s + 2) in * by lia. rewrite (proj2 (Z.ltb_ge _ _)), known_fits by (done || lia).
  set (o1 := set_rd o _).
  destruct (handle_known o1 (getp s) code d rest Hk Hov Hs2 Hm eq_refl E2 Hl) as (o' & -> & Hq & Emp & Hl'). cbn [mbind M_bind].
  assert (∀ g, 0 <= g <= endp s → steps (effect (code, d)) (rd_ o) (set_ibuf (rd_ o') (set_getp (ibuf (rd_ o')) g))) as Hst.
  { intros g Hg. destruct Hq as [[g' Eg'] Hok Hp Hn]. split; [|apply set_getp_ok; [done|by rewrite Eg']|done|done].
    cbn [set_ibuf ibuf]. rewrite Eg'. by exists g. }
  assert (∀ n o2, mp_capability o2 = mp_capability o' → zlen (error o2) <= getp s + 2 + zlen d →
    rd_ o2 = set_ibuf (rd_ o') (set_getp (ibuf (rd_ o')) (getp s + 2 + zlen d)) →
    ∃ o'', capability_loop e n o2 (getp s + (zlen d + 2)) = Ok (o'', 0) ∧ took (effect (code, d)) o o'' rest ∧
      mp_capability o'' = (code =? CAPABILITY_CODE_MP) || mp_capability o ∧ getp (ibuf (rd_ o'')) = getp s + zlen d + 2) as Hend.
  { clear n En. intros n o2 Em2 Hl2 E2'. exists o2. pose proof (Hst (getp s + 2 + zlen d) ltac:(lia)) as Hst'. rewrite <-E2' in Hst'.
    assert (ibuf (rd_ o2) = set_getp s (getp s + 2 + zlen d)) as Eb.
    { rewrite E2'. cbn [set_ibuf ibuf]. by destruct Hq as [[g' ->] _ _ _]. }
    split; [|split; [split|]].
    - destruct n; cbn [capability_loop]; rewrite Eb, getp_set, (proj2 (Z.leb_le _ _)) by lia; done.
    - done.
    - split; [apply Hst'|]. rewrite Eb. at_stream. split; [done|lia].
    - rewrite Eb. eapply (unread_end s ([code; zlen d] ++ d)); [done|by rewrite <-app_assoc|]. rewrite length_app. cbn [length]. lia.
    - rewrite Em2, Emp, Eb. split; [done|]. at_stream. lia. }
  destruct (Z.eqb_spec (getp (ibuf (rd_ o'))) (getp s + 2 + zlen d)) as [Eg|_]; cbn [negb].
  - cbn [mbind M_bind]. apply Hend; [done|done|]. rewrite <-Eg. destruct (rd_ o') as [? [] ?]. done.
  - destruct (steps_ends _ _ _ Hq) as [Ee _]. rewrite set_getp_valid; [|apply Hq|rewrite Ee; cbn [o1 set_rd rd_ set_ibuf ibuf]; at_stream; lia].
    cbn [mbind M_bind]. by apply Hend.
Qed.

(** The header of the first option. *)
Lemma option_at s code d caps rest : stream_ok s →
  unread s = concat (option_bytes <$> (code, d) :: caps) ++ rest →
  getp s + (zlen d + 4) <= endp s ∧
  zlen (concat (option_bytes <$> (code, d) :: caps)) = zlen d + 4 + zlen (concat (option_bytes <$> caps)) ∧
  stream_getc s = Ok (set_getp s (getp s + 1), BGP_OPEN_OPT_CAP) ∧
  stream_getc (set_getp s (getp s + 1)) = Ok (set_getp s (getp s + 2), zlen d + 2) ∧
  stream_ok (set_getp s (getp s + 2)) ∧
  unread (set_getp s (getp s + 2)) = [code; zlen d] ++ d ++ concat (option_bytes <$> caps) ++ rest.
Proof.
  intros Hs E. cbn [fmap list_fmap concat] in *. rewrite length_app.
  assert (zlen (option_bytes (code, d)) = zlen d + 4) as Lo by (unfold option_bytes; rewrite length_app; cbn [length snd]; lia).
  rewrite <-app_assoc in E. destruct (unread_ahead s _ _ Hs E) as (He & _). rewrite Lo in He. split; [done|]. split; [lia|].
  unfold option_bytes in E at 1. rewrite <-!app_assoc in E. cbn [fst snd app] in E.
  destruct (getc_cons s _ _ Hs E) as (-> & Hs1 & E1 & _). split; [done|].
  destruct (getc_cons _ _ _ Hs1 E1) as (-> & Hs2 & E2 & _). rewrite set_set, getp_set in *.
  by replace (getp s + 1 + 1) with (getp s + 2) in * by lia.
Qed.

Lemma option_loop_known caps : Forall known caps → ∀ fuel o rest end_, (length caps <= fuel)%nat → opts_ok o →
  CHECK_FLAG (pflags (pr (rd_ o))) PEER_FLAG_OVERRIDE_CAPABILITY = false →
  unread (ibuf (rd_ o)) = concat (option_bytes <$> caps) ++ rest →
  end_ = getp (ibuf (rd_ o)) + zlen (concat (option_bytes <$> caps)) →
  ∃ o', option_loop e fuel o end_ = Ok (o', 0) ∧ took (effects caps) o o' rest ∧
    mp_capability o' = existsb (λ cd, fst cd =? CAPABILITY_CODE_MP) caps || mp_capability o.
Proof.
  intros Hk. induction Hk as [|[code d] caps Hcd Hk IH]; intros fuel o rest end_ Hf Ho Hov E Ee.
  { exists o. split; [|split; [split; [|done|done]|done]]; [|split; [apply moved_refl|apply Ho|done|done]].
    cbn in Ee. destruct fuel; cbn [option_loop]; rewrite (proj2 (Z.leb_le _ _)) by lia; done. }
  destruct fuel as [|fuel]; [cbn in Hf; lia|]. cbn [length] in Hf. apply le_S_n in Hf.
  pose proof Ho as (Hs & Hm & Hl). set (s := ibuf (rd_ o)) in *. pose proof (getp_nonneg s Hs) as Hg0.
  destruct (option_at s code d caps rest Hs E) as (He & Lo & G1 & G2 & Hs2 & E2). rewrite Lo in Ee.
  cbn [option_loop]. fold s. rewrite (proj2 (Z.leb_gt _ _)), readable_ok, (proj2 (Z.ltb_ge _ 2)) by (done || lia).
  rewrite G1. cbn [mbind M_bind]. rewrite G2. cbn [mbind M_bind]. rewrite readable_ok by done. at_stream.
  rewrite (proj2 (Z.ltb_ge _ (zlen d + 2))) by lia.
  change (BGP_OPEN_OPT_CAP =? BGP_OPEN_OPT_AUTH) with false. change (BGP_OPEN_OPT_CAP =? BGP_OPEN_OPT_CAP) with true. cbv iota.
  set (o1 := set_rd o _).
  assert (opts_ok o1) as Ho1 by (split; [done|]; cbn [o1 set_rd rd_ set_ibuf ibuf error]; at_stream; lia).
  destruct (capability_parse_known o1 code d _ Hcd Ho1 Hov E2) as (o2 & -> & [Hst Ho2 Eu2] & Emp & Eg). cbn [mbind M_bind Z.ltb Z.compare].
  assert (getp (ibuf (rd_ o2)) = getp s + (zlen d + 4)) as Eg2 by (rewrite Eg; cbn [o1 set_rd rd_ set_ibuf ibuf]; at_stream; lia).
  destruct (IH fuel o2 rest end_) as (o' & -> & [Hst' Ho' Eu'] & Emp'); [done|done| |done|lia|].
  { destruct (kept_status _ _ (effect_kept _ _ _ (steps_peer _ _ _ Hst))) as (_ & _ & -> & _). done. }
  exists o'. split; [done|]. split; [split; [|done|done]|].
  - split; [eapply moved_trans; [eapply moved_trans; [|apply Hst]|apply Hst']; by eexists|apply Hst'| |].
    + exists (pr (rd_ o2)). split; [apply Hst|apply Hst'].
    + etrans; [apply Hst'|apply Hst].
  - rewrite Emp', Emp. cbn [existsb fst o1 set_rd mp_capability]. by destruct (code =? _), (existsb _ caps).
Qed.

(** ** Looking ahead for the AS number *)

Lemma peek_option c code d rest : stream_ok (ibuf c) → unread (ibuf c) = [code; zlen d] ++ d ++ rest → known (code, d) →
  ∃ c', peek_caps (Z.to_nat (zlen d + 2)) c (getp (ibuf c) + (zlen d + 2)) =
      Ok (c', if code =? CAPABILITY_CODE_AS4 then Some (be_value d) else None) ∧ steps flagged c c' ∧
    (code ≠ CAPABILITY_CODE_AS4 → unread (ibuf c') = rest ∧ getp (ibuf c') = getp (ibuf c) + (zlen d + 2)).
Proof.
  intros Hs E Hk. set (s := ibuf c) in *. pose proof (getp_nonneg s Hs) as Hg0.
  destruct (unread_ahead s ([code; zlen d] ++ d) rest Hs) as (He & _ & _ & Eu); [by rewrite <-app_assoc|].
  rewrite length_app in He, Eu. cbn [length] in He, Eu.
  destruct (Z.to_nat (zlen d + 2)) as [|n] eqn:En; [lia|]. cbn [peek_caps]. fold s.
  rewrite (proj2 (Z.leb_gt _ _)), (proj2 (Z.ltb_ge _ (getp s + 2))) by lia.
  destruct (getc_cons s code _ Hs E) as (-> & Hs1 & E1 & _). cbn [mbind M_bind].
  destruct (getc_cons _ (zlen d) _ Hs1 E1) as (-> & Hs2 & E2 & _). cbn [mbind M_bind]. rewrite set_set, getp_set in *. at_stream.
  replace (getp s + 1 + 1) with (getp s + 2) in * by lia. rewrite (proj2 (Z.ltb_ge _ _)) by lia.
  destruct (Z.eqb_spec code CAPABILITY_CODE_AS4) as [->|Hc].
  - destruct Hk as [[[=] _]|[[[[=]|[[=]|[=]]] _]|[(_ & Hd & _)|[([[=]|[=]] & _)|[[=] _]]]]].
    rewrite Hd. change (Z.of_nat 4) with 4. destruct (as4_known (set_ibuf c (set_getp s (getp s + 2))) d rest Hs2 E2 Hd) as (c' & -> & Hq & _).
    cbn [mbind M_bind]. exists c'. split; [done|]. split; [|done]. eapply steps_trans; [|exact Hq].
    apply (steps_read _ c _ (pr c)); [done|fold s; lia|reflexivity].
  - rewrite forward_ok by (at_stream; done || lia). cbn [mbind M_bind]. at_stream. set (c1 := set_ibuf (set_ibuf _ _) _).
    exists c1. split; [|split; [apply (steps_read _ c (getp s + 2 + zlen d) (pr c)); [done|fold s; lia|reflexivity]|]].
    + destruct n; cbn [peek_caps]; cbn [c1 set_ibuf ibuf]; at_stream; rewrite (proj2 (Z.leb_le _ _)) by lia; done.
    + intros _. cbn [c1 set_ibuf ibuf]. at_stream. split; [|lia]. rewrite <-Eu. f_equal. f_equal. lia.
Qed.

(** The first AS number among known capabilities. *)
Fixpoint first_as4 (caps : list (Z * list Z)) : Z :=
  match caps with
  | [] => 0
  | (code, d) :: caps' => if code =? CAPABILITY_CODE_AS4 then be_value d else first_as4 caps'
  end.

Lemma peek_opts_known caps : Forall known caps → ∀ fuel c rest end_, (length caps <= fuel)%nat → stream_ok (ibuf c) →
  unread (ibuf c) = concat (option_bytes <$> caps) ++ rest → end_ = getp (ibuf c) + zlen (concat (option_bytes <$> caps)) →
  ∃ c', peek_opts fuel c end_ = Ok (c', first_as4 caps) ∧ steps flagged c c'.
Proof.
  intros Hk. induction Hk as [|[code d] caps Hcd Hk IH]; intros fuel c rest end_ Hf Hs E Ee.
  { exists c. split; [|by apply steps_refl]. cbn in Ee. destruct fuel; cbn [peek_opts]; rewrite (proj2 (Z.leb_le _ _)) by lia; done. }
  destruct fuel as [|fuel]; [cbn in Hf; lia|]. cbn [length] in Hf. apply le_S_n in Hf.
  set (s := ibuf c) in *. pose proof (getp_nonneg s Hs) as Hg0.
  destruct (option_at s code d caps rest Hs E) as (He & Lo & G1 & G2 & Hs2 & E2). rewrite Lo in Ee.
  cbn [peek_opts]. fold s. rewrite (proj2 (Z.leb_gt _ _)), (proj2 (Z.ltb_ge _ (getp s + 2))) by lia.
  rewrite G1. cbn [mbind M_bind]. rewrite G2. cbn [mbind M_bind]. at_stream. rewrite (proj2 (Z.ltb_ge _ _)) by lia.
  change (BGP_OPEN_OPT_CAP =? BGP_OPEN_OPT_CAP) with true. cbv iota. rewrite (proj2 (Z.leb_le _ _)) by lia.
  set (c1 := set_ibuf c _). assert (steps flagged c c1) as Hq1 by (apply (steps_read _ c _ (pr c)); [done|fold s; lia|reflexivity]).
  destruct (peek_option c1 code d _ Hs2 E2 Hcd) as (c2 & Ep & Hq2 & Hn). change (getp (ibuf c1)) with (getp s + 2) in *. rewrite Ep.
  cbn [mbind M_bind first_as4]. destruct (Z.eqb_spec code CAPABILITY_CODE_AS4) as [->|Hc]; [exists c2; split; [done|by eapply steps_trans]|].
  destruct (Hn Hc) as [Eu Eg]. destruct (IH fuel c2 rest end_) as (c' & -> & Hq'); [done|apply Hq2|done|lia|].
  exists c'. split; [done|]. eapply steps_trans; [exact Hq1|]. by eapply steps_trans.
Qed.
End parse.

(** ** Writing *)

(** A packet under construction: [b] was written. *)
Definition wrote (s : stream) (b : list Z) : Prop :=
  stream_ok s ∧ size s = BGP_MAX_PACKET_SIZE ∧ getp s = 0 ∧ contents s = b.

Lemma wrote_endp s b : wrote s b → endp s = zlen b.
Proof. intros (Hs & _ & _ & <-). by rewrite length_contents. Qed.

Lemma word_wrote `{Word n} s b v : wrote s b → zlen b + Z.of_nat n <= BGP_MAX_PACKET_SIZE →
  ∃ s' r, put_word s v = Ok (s', r) ∧ wrote s' (b ++ be_bytes n v).
Proof.
  intros Hw Hn. pose proof (wrote_endp s b Hw) as Ee. destruct Hw as (Hs & Hz & Hg & Hc).
  destruct (put_word_spec s v Hs) as ([s' r] & E & _ & Hs' & Hz' & Hg' & Hc' & _); [unfold room; lia|].
  exists s', r. split; [done|]. split; [done|]. rewrite Hz', Hg', Hc', Hc. done.
Qed.

Lemma putw_wrote s b v : wrote s b → zlen b + 2 <= BGP_MAX_PACKET_SIZE → ∃ s', putw s v = Ok s' ∧ wrote s' (b ++ be_bytes 2 v).
Proof. intros Hw Hn. destruct (word_wrote (n := 2) s b v Hw Hn) as (s' & r & E & ?). exists s'. split; [|done]. unfold putw. cbn in E. by rewrite E. Qed.

Lemma putcs_wrote s b l : wrote s b → bytes_ok l → zlen b + zlen l <= BGP_MAX_PACKET_SIZE → ∃ s', putcs s l = Ok s' ∧ wrote s' (b ++ l).
Proof.
  intros Hw Hl. revert s b Hw. induction Hl as [|c l Hc Hl IH]; intros s b Hw Hn; cbn [putcs length] in *; [exists s; by rewrite app_nil_r|].
  destruct (word_wrote (n := 1) s b c Hw) as (s1 & r & E & Hw1); [lia|]. cbn in E. rewrite E. cbn [mbind M_bind].
  assert (be_bytes 1 c = [c]) as Eb. { cbn [be_bytes]. change (2 ^ (8 * Z.of_nat 0)) with 1. by rewrite Z.div_1_r, Z.mod_small by exact Hc. }
  rewrite Eb in Hw1. destruct (IH s1 (b ++ [c]) Hw1) as (s' & -> & Hw'); [rewrite length_app; cbn; lia|].
  exists s'. split; [done|]. by rewrite <-app_assoc in Hw'.
Qed.

(** The next call writes [l], or the two bytes of [w]; [H] is what was written. *)
Ltac bytes := repeat (apply Forall_cons_2; [first [assumption|by vm_compute]|]); apply Forall_nil_2.
Ltac room := do 2 (rewrite ?length_app, ?length_be_bytes, ?length_replicate; cbn [length]); unfold BGP_MAX_PACKET_SIZE in *; lia.
Ltac put_bytes l H :=
  let s := fresh "s" in let H' := fresh in
  destruct (putcs_wrote _ _ l H) as (s & -> & H'); [bytes|room|]; cbn [mbind M_bind]; clear H; rename H' into H.
Ltac put_word w H :=
  let s := fresh "s" in let H' := fresh in
  destruct (putw_wrote _ _ w H) as (s & -> & H'); [room|]; cbn [mbind M_bind]; clear H; rename H' into H.

(** Overwriting in what was written. *)
Lemma splice_wrote s b p (x : list Z) : wrote s b → bytes_ok x → 0 <= p → p + zlen x <= zlen b →
  wrote (set_data s (take (Z.to_nat p) (data s) ++ x ++ drop (Z.to_nat p + length x) (data s)))
    (take (Z.to_nat p) b ++ x ++ drop (Z.to_nat p + length x) b).
Proof.
  intros Hw Hx Hp Hn. pose proof (wrote_endp s b Hw) as Ee. destruct Hw as (Hs & Hz & Hg & Hc). pose proof Hs as (? & ? & Hl & _).
  split; [apply splice_ok; done || lia|]. split; [done|]. split; [done|].
  unfold contents in *. cbn [set_data data endp]. rewrite <-Hc.
  rewrite take_app, length_take, take_app. rewrite take_take, skipn_firstn_comm, take_take. f_equal; [f_equal; lia|].
  f_equal; [apply take_ge; lia|]. f_equal. lia.
Qed.

Lemma putc_at_wrote s b1 x b2 c pos : wrote s (b1 ++ x :: b2) → pos = zlen b1 → is_byte c →
  ∃ s', putc_at s pos c = Ok s' ∧ wrote s' (b1 ++ c :: b2).
Proof.
  intros Hw -> Hc. pose proof (wrote_endp _ _ Hw) as Ee. rewrite length_app in Ee. cbn [length] in Ee.
  pose proof Hw as (Hs & Hz & _). unfold BGP_MAX_PACKET_SIZE in Hz. pose proof Hs as (? & ? & ? & _).
  unfold putc_at, stream_putc_at, PUT_AT_VALID, GETP_VALID. rewrite sane_ok, (u64_small (zlen b1 + 1)), (proj2 (Z.leb_le _ _)) by (done || lia).
  rewrite (put_at_ok s 1) by (done || lia). cbn [mbind M_bind]. eexists. split; [done|].
  assert (be_bytes 1 c = [c]) as -> by (cbn [be_bytes]; change (2 ^ (8 * Z.of_nat 0)) with 1; by rewrite Z.div_1_r, Z.mod_small by exact Hc).
  pose proof (splice_wrote s (b1 ++ x :: b2) (zlen b1) [c] Hw) as Hw'. rewrite Nat2Z.id in *. cbn [length] in Hw'.
  rewrite take_app_length, drop_app_add in Hw'. apply Hw'; [by constructor|lia|]. rewrite length_app. cbn [length]. lia.
Qed.

Lemma putw_at_wrote s b1 x y b2 w pos : wrote s (b1 ++ x :: y :: b2) → pos = zlen b1 →
  ∃ s' r, stream_putw_at s pos w = Ok (s', r) ∧ wrote s' (b1 ++ be_bytes 2 w ++ b2).
Proof.
  intros Hw ->. pose proof (wrote_endp _ _ Hw) as Ee. rewrite length_app in Ee. cbn [length] in Ee.
  pose proof Hw as (Hs & Hz & _). unfold BGP_MAX_PACKET_SIZE in Hz. pose proof Hs as (? & ? & ? & _).
  unfold stream_putw_at, PUT_AT_VALID, GETP_VALID. rewrite sane_ok, (u64_small (zlen b1 + 2)), (proj2 (Z.leb_le _ _)) by (done || lia).
  rewrite (put_at_ok s 2) by (done || lia). cbn [mbind M_bind]. eexists _, _. split; [done|].
  pose proof (splice_wrote s (b1 ++ x :: y :: b2) (zlen b1) (be_bytes 2 w) Hw) as Hw'. rewrite Nat2Z.id, length_be_bytes in *.
  rewrite take_app_length, drop_app_add in Hw'. apply Hw'; [apply be_bytes_ok|lia|]. rewrite length_app. cbn [length]. lia.
Qed.

Lemma in_addr_wrote s b a : wrote s b → bytes_ok a → length a = 4%nat → zlen b + 4 <= BGP_MAX_PACKET_SIZE →
  ∃ s' r, stream_put_in_addr s a = Ok (s', r) ∧ wrote s' (b ++ a).
Proof.
  intros Hw Ha Hl Hn. pose proof (wrote_endp _ _ Hw) as Ee. destruct Hw as (Hs & Hz & Hg & Hc). pose proof Hs as (? & ? & ? & ? & _).
  unfold BGP_MAX_PACKET_SIZE in *. unfold stream_put_in_addr. rewrite sane_ok, writeable_ok, (proj2 (Z.ltb_ge _ 4)) by (done || lia). cbn [negb].
  rewrite rdn_in_bounds by lia. cbn [mbind M_bind]. change (Z.to_nat 0) with 0%nat. rewrite drop_0, take_ge by lia.
  rewrite wrn_in_bounds by lia. cbn [mbind M_bind]. rewrite u64_small by lia. eexists _, _. split; [done|].
  destruct (append_splice s a Hs) as (Hs' & _ & _ & Hc' & _); [unfold room; lia|done|].
  rewrite Hl in *. change (Z.of_nat 4) with 4 in Hs', Hc'. split; [done|]. split; [done|]. split; [done|]. by rewrite Hc', Hc.
Qed.

(** ** What is sent *)

Definition sent_as (oc : open_conf) : Z := if change_local_as oc =? 0 then local_as oc else change_local_as oc.

(** The families with a multiprotocol capability, and the [safi] sent for each. *)
Definition mp_families : list ((Z * Z) * Z) :=
  [((AFI_IP, SAFI_UNICAST), SAFI_UNICAST); ((AFI_IP, SAFI_MULTICAST), SAFI_MULTICAST);
   ((AFI_IP, SAFI_MPLS_VPN), SAFI_MPLS_LABELED_VPN); ((AFI_IP6, SAFI_UNICAST), SAFI_UNICAST);
   ((AFI_IP6, SAFI_MULTICAST), SAFI_MULTICAST)].

Definition mp_cap (p : peer) (ks : (Z * Z) * Z) : list (Z * list Z) :=
  if afc (conf p) (fst ks) =? 0 then [] else [(CAPABILITY_CODE_MP, be_bytes 2 (fst (fst ks)) ++ [0; snd ks])].

Definition orf_wanted (oc : open_conf) (k : Z * Z) : bool :=
  CHECK_FLAG (af_flags oc k) PEER_FLAG_ORF_PREFIX_SM || CHECK_FLAG (af_flags oc k) PEER_FLAG_ORF_PREFIX_RM.
Definition orf_data (oc : open_conf) (k : Z * Z) (type : Z) : list Z :=
  be_bytes 2 (fst k) ++ [0; snd k; 1; type;
    if CHECK_FLAG (af_flags oc k) PEER_FLAG_ORF_PREFIX_SM && CHECK_FLAG (af_flags oc k) PEER_FLAG_ORF_PREFIX_RM then ORF_MODE_BOTH
    else if CHECK_FLAG (af_flags oc k) PEER_FLAG_ORF_PREFIX_SM then ORF_MODE_SEND else ORF_MODE_RECEIVE].
Definition orf_caps (oc : open_conf) (k : Z * Z) : list (Z * list Z) :=
  if orf_wanted oc k then [(CAPABILITY_CODE_ORF_OLD, orf_data oc k ORF_TYPE_PREFIX_OLD); (CAPABILITY_CODE_ORF, orf_data oc k ORF_TYPE_PREFIX)]
  else [].

Definition restart_families (oc : open_conf) (p : peer) : list Z :=
  if CHECK_FLAG (bgp_flags oc) BGP_FLAG_GRACEFUL_RESTART then
    concat ((λ k, if afc (conf p) k =? 0 then [] else be_bytes 2 (fst k) ++ [snd k; 0]) <$> families)
  else [].
Definition restart_cap (oc : open_conf) (p : peer) : Z * list Z :=
  (CAPABILITY_CODE_RESTART,
   be_bytes 2 (if t_startup oc then SET_FLAG (bgp_restart_time oc) RESTART_R_BIT else bgp_restart_time oc) ++ restart_families oc p).

Definition dynamic_cap (p : peer) : list (Z * list Z) :=
  if CHECK_FLAG (pflags p) PEER_FLAG_DYNAMIC_CAPABILITY then [(CAPABILITY_CODE_DYNAMIC, [])] else [].

(** All capabilities, in the order they are sent. *)
Definition configured (oc : open_conf) (p : peer) : list (Z * list Z) :=
  concat (mp_cap p <$> mp_families) ++
  [(CAPABILITY_CODE_REFRESH_OLD, []); (CAPABILITY_CODE_REFRESH, []); (CAPABILITY_CODE_AS4, be_bytes 4 (sent_as oc))] ++
  concat (orf_caps oc <$> families) ++
  dynamic_cap p ++ [restart_cap oc p].

Notation options caps := (concat (option_bytes <$> caps)).

(** Sending does not change what the message is made from. *)
Definition same_conf (p p' : peer) : Prop := conf p' = conf p ∧ pflags p' = pflags p ∧ config p' = config p ∧ holdtime (conf p') = holdtime (conf p).

#[export] Instance same_conf_preorder : PreOrder same_conf.
Proof. split; [by intros p|]. intros p1 p2 p3 (E1 & E2 & E3 & E4) (F1 & F2 & F3 & F4). split_and!; congruence. Qed.

Lemma put_mp_wrote s p b k safi : wrote s b → k ∈ families → is_byte safi → zlen b + 8 <= BGP_MAX_PACKET_SIZE →
  ∃ s' p', put_mp (s, p) k safi = Ok (s', p') ∧ wrote s' (b ++ options (mp_cap p (k, safi))) ∧ same_conf p p'.
Proof.
  intros Hw Hk Hsafi Hn. unfold put_mp, mp_cap. cbn [fst snd].
  destruct (afc (conf p) k =? 0); [eexists _, _; split; [done|]; split; [by rewrite app_nil_r|reflexivity]|].
  rewrite af_put_ok by done. cbn [mbind M_bind].
  put_bytes [BGP_OPEN_OPT_CAP; CAPABILITY_CODE_MP_LEN + 2; CAPABILITY_CODE_MP; CAPABILITY_CODE_MP_LEN] Hw.
  put_word (fst k) Hw. put_bytes [0; safi] Hw.
  eexists _, _. split; [done|]. split; [|by split_and!]. by rewrite <-!app_assoc in Hw.
Qed.

(** The length the code computes is [n]. *)
Ltac length_is n := match goal with |- context [u8 ?x] => replace (u8 x) with n by (replace x with n by room; reflexivity) end.

(** A length or count written into the byte [x] after [b1]. *)
Ltac patch_byte b1 x b2 H :=
  match type of H with wrote ?s ?l => replace l with (b1 ++ x :: b2) in H by (rewrite <-?app_assoc; reflexivity) end;
  let s := fresh "s" in let H' := fresh in
  match goal with |- context [putc_at ?t ?pos ?c] => destruct (putc_at_wrote t b1 x b2 c pos H) as (s & -> & H') end; [room|by vm_compute|]; cbn [mbind M_bind]; clear H; rename H' into H.

Section sending.
Context (oc : open_conf).

Lemma set_af_flag_same p k f : k ∈ families → ∃ p', set_af_flag p k f = Ok p' ∧ same_conf p p'.
Proof. intros Hk. unfold set_af_flag. rewrite af_put_ok by done. eexists. split; [done|]. by split_and!. Qed.

Lemma orf_wrote s p b k code : wrote s b → k ∈ families → snd k ≠ SAFI_MPLS_VPN → orf_wanted oc k = true →
  code = CAPABILITY_CODE_ORF ∨ code = CAPABILITY_CODE_ORF_OLD → zlen b + 11 <= BGP_MAX_PACKET_SIZE →
  ∃ s' p', bgp_open_capability_orf oc s p (fst k) (snd k) code = Ok (s', p') ∧
    wrote s' (b ++ option_bytes (code, orf_data oc k (if code =? CAPABILITY_CODE_ORF then ORF_TYPE_PREFIX else ORF_TYPE_PREFIX_OLD))) ∧
    same_conf p p'.
Proof.
  intros Hw Hk Hv Hwant Hcode Hn. unfold bgp_open_capability_orf. rewrite (proj2 (Z.eqb_neq _ _) Hv).
  assert (is_byte code) as Hc by (by destruct Hcode as [-> | ->]).
  assert (is_byte (snd k)) as Hs by (unfold families in Hk; rewrite !elem_of_cons, elem_of_nil in Hk; by destruct Hk as [->|[->|[->|[->|[->|[->|[->|[->|[]]]]]]]]]).
  set (type := if code =? _ then _ else _). assert (is_byte type) as Ht by (by destruct Hcode as [-> | ->]).
  put_bytes [BGP_OPEN_OPT_CAP] Hw. rewrite (wrote_endp _ _ Hw).
  put_bytes [0; code] Hw. rewrite (wrote_endp _ _ Hw). put_bytes [0] Hw. put_word (fst k) Hw. put_bytes [0; snd k] Hw.
  rewrite (wrote_endp _ _ Hw). put_bytes [0] Hw.
  replace (fst k, snd k) with k by (by destruct k). rewrite af_get_ok by done. cbn [mbind M_bind].
  unfold orf_wanted in Hwant. rewrite Hwant. cbv iota. put_bytes [type] Hw. cbn [mbind M_bind]. unfold orf_data.
  set (sm := CHECK_FLAG _ PEER_FLAG_ORF_PREFIX_SM) in *. set (rm := CHECK_FLAG _ PEER_FLAG_ORF_PREFIX_RM) in *.
  set (m := if sm && rm then _ else _). set (mode := if sm && rm then _ else _).
  assert (is_byte mode) as Hmode by (subst mode; by repeat case_match).
  assert (∃ s' p', m = Ok (s', p', 1) ∧ wrote s' ((((((((b ++ [BGP_OPEN_OPT_CAP]) ++ [0; code]) ++ [0]) ++ be_bytes 2 (fst k)) ++ [0; snd k]) ++ [0]) ++ [type]) ++ [mode])
    ∧ same_conf p p') as (s9 & p' & -> & Hw9 & Hp).
  { destruct (putcs_wrote _ _ [mode] Hw) as (s9 & Es & Hw9); [bytes|room|]. exists s9. subst m mode.
    destruct (sm && rm); [|destruct sm]; edestruct set_af_flag_same as (p1 & -> & Hp1); try exact Hk; cbn [mbind M_bind].
    - edestruct set_af_flag_same as (p2 & -> & Hp2); [exact Hk|]. cbn [mbind M_bind]. rewrite Es. eexists. split; [done|]. split; [done|by etrans].
    - rewrite Es. by eexists.
    - rewrite Es. by eexists. }
  clear Hw. rename Hw9 into Hw. cbn [mbind M_bind]. clearbody mode type.
  patch_byte (((((b ++ [BGP_OPEN_OPT_CAP]) ++ [0; code]) ++ [0]) ++ be_bytes 2 (fst k)) ++ [0; snd k]) 0 [type; mode] Hw.
  rewrite (wrote_endp _ _ Hw). length_is 7.
  patch_byte ((b ++ [BGP_OPEN_OPT_CAP]) ++ [0; code]) 0 (be_bytes 2 (fst k) ++ [0; snd k; 1; type; mode]) Hw.
  rewrite (wrote_endp _ _ Hw). length_is 9.
  patch_byte (b ++ [BGP_OPEN_OPT_CAP]) 0 ([code; 7] ++ be_bytes 2 (fst k) ++ [0; snd k; 1; type; mode]) Hw.
  eexists _, _. split; [done|]. split; [|done]. by rewrite <-app_assoc in Hw.
Qed.

Lemma options_app l1 l2 : options (l1 ++ l2) = options l1 ++ options l2.
Proof. by rewrite fmap_app, concat_app. Qed.

Lemma length_orf code k type : length (option_bytes (code, orf_data oc k type)) = 11%nat.
Proof. done. Qed.

Lemma orfs_wrote ks s p b : wrote s b → ks ⊆ families → (∀ k, k ∈ families → orf_wanted oc k = true → snd k ≠ SAFI_MPLS_VPN) →
  zlen b + 22 * zlen ks <= BGP_MAX_PACKET_SIZE →
  ∃ s' p', foldl (put_orf oc) (Ok (s, p)) ks = Ok (s', p') ∧ wrote s' (b ++ options (concat (orf_caps oc <$> ks))) ∧ same_conf p p'.
Proof.
  revert s p b. induction ks as [|k ks IH]; intros s p b Hw Hks Hv Hn; cbn [foldl fmap list_fmap concat length] in *.
  { eexists _, _. split; [done|]. split; [by rewrite app_nil_r|reflexivity]. }
  rewrite options_app, app_assoc. unfold put_orf at 2, orf_caps at 1. cbn [mbind M_bind]. fold (orf_wanted oc k).
  destruct (orf_wanted oc k) eqn:Ew.
  - assert (k ∈ families) as Hk by set_solver. pose proof (Hv k Hk Ew) as Hk4.
    destruct (orf_wrote s p b k CAPABILITY_CODE_ORF_OLD Hw Hk Hk4 Ew) as (s1 & p1 & -> & H1 & P1); [by right|lia|]. cbn [mbind M_bind].
    destruct (orf_wrote s1 p1 _ k CAPABILITY_CODE_ORF H1 Hk Hk4 Ew) as (s2 & p2 & -> & H2 & P2); [by left|rewrite length_app, length_orf; lia|].
    destruct (IH s2 p2 _ H2) as (s' & p' & -> & Hw' & Hp'); [set_solver|done|rewrite !length_app, !length_orf; lia|].
    eexists _, _. split; [done|]. split; [|etrans; [done|by etrans]]. cbn [fmap list_fmap concat]. rewrite app_nil_r. by rewrite <-!app_assoc in *.
  - destruct (IH s p b Hw) as (s' & p' & -> & Hw' & Hp'); [set_solver|done|lia|]. eexists _, _. split; [done|].
    split; [|done]. cbn [fmap list_fmap concat]. by rewrite app_nil_r.
Qed.

Notation restart_entry p := (λ k, if afc (conf p) k =? 0 then [] else be_bytes 2 (fst k) ++ [snd k; 0]).

Lemma restart_entries_wrote p ks s b : wrote s b → ks ⊆ families → zlen b + 4 * zlen ks <= BGP_MAX_PACKET_SIZE →
  ∃ s', foldl (λ (m : M stream) k, s ← m; if afc (conf p) k =? 0 then Ok s else s ← putw s (fst k); putcs s [snd k; 0]) (Ok s) ks = Ok s' ∧
    wrote s' (b ++ concat (restart_entry p <$> ks)) ∧ zlen (concat (restart_entry p <$> ks)) <= 4 * zlen ks.
Proof.
  revert s b. induction ks as [|k ks IH]; intros s b Hw Hks Hn; cbn [foldl fmap list_fmap concat length] in *.
  { exists s. split; [done|]. split; [by rewrite app_nil_r|lia]. }
  assert (is_byte (snd k)) as Hk.
  { assert (k ∈ families) as Hk by set_solver. unfold families in Hk. rewrite !elem_of_cons, elem_of_nil in Hk.
    by destruct Hk as [->|[->|[->|[->|[->|[->|[->|[->|[]]]]]]]]]. }
  cbn [mbind M_bind]. destruct (afc (conf p) k =? 0).
  - destruct (IH s b Hw) as (s' & -> & Hw' & Hl); [set_solver|lia|]. exists s'. split; [done|]. split; [done|]. cbn [app]. lia.
  - put_word (fst k) Hw. destruct (putcs_wrote _ _ [snd k; 0] Hw) as (s1 & -> & H1); [bytes|room|].
    destruct (IH s1 _ H1) as (s' & -> & Hw' & Hl); [set_solver|room|]. exists s'. split; [done|].
    split; [by rewrite <-!app_assoc in *|]. room.
Qed.

Lemma restart_families_wrote p s b : wrote s b → zlen b + 32 <= BGP_MAX_PACKET_SIZE →
  ∃ s', (if CHECK_FLAG (bgp_flags oc) BGP_FLAG_GRACEFUL_RESTART then
           foldl (λ (m : M stream) k, s ← m; if afc (conf p) k =? 0 then Ok s else s ← putw s (fst k); putcs s [snd k; 0]) (Ok s) families
         else Ok s) = Ok s' ∧ wrote s' (b ++ restart_families oc p) ∧ zlen (restart_families oc p) <= 32.
Proof.
  intros Hw Hn. unfold restart_families. destruct (CHECK_FLAG _ _); [by apply (restart_entries_wrote p families)|].
  exists s. split; [done|]. split; [by rewrite app_nil_r|cbn; lia].
Qed.

Lemma restart_wrote s p b : wrote s b → zlen b + 64 <= BGP_MAX_PACKET_SIZE →
  ∃ s' p', put_restart oc s p = Ok (s', p') ∧ wrote s' (b ++ option_bytes (restart_cap oc p)) ∧
    zlen (option_bytes (restart_cap oc p)) <= 38.
Proof.
  intros Hw Hn. unfold put_restart. put_bytes [BGP_OPEN_OPT_CAP] Hw. rewrite (wrote_endp _ _ Hw).
  put_bytes [0; CAPABILITY_CODE_RESTART] Hw. rewrite (wrote_endp _ _ Hw). put_bytes [0] Hw.
  set (t := if t_startup oc then SET_FLAG (bgp_restart_time oc) RESTART_R_BIT else bgp_restart_time oc).
  set (x := if t_startup oc then (_, _) else _).
  assert (∃ p', x = (t, p') ∧ conf p' = conf p) as (p' & -> & Ec) by (subst x t; by destruct (t_startup oc); eexists).
  put_word t Hw. destruct (restart_families_wrote p' _ _ Hw) as (s4 & -> & Hw4 & Hl); [room|]. cbn [mbind M_bind]. rewrite (wrote_endp _ _ Hw4).
  assert (restart_families oc p' = restart_families oc p) as Ef by (unfold restart_families; by rewrite Ec). rewrite Ef in *.
  set (fams := restart_families oc p) in *.
  match goal with |- context [u8 ?x] => replace (u8 x) with (2 + zlen fams) by (replace x with (2 + zlen fams) by room; symmetry; apply Z.mod_small; lia) end.
  replace ((((((b ++ [BGP_OPEN_OPT_CAP]) ++ [0; CAPABILITY_CODE_RESTART]) ++ [0]) ++ be_bytes 2 t) ++ fams)) with
    (((b ++ [BGP_OPEN_OPT_CAP]) ++ [0; CAPABILITY_CODE_RESTART]) ++ 0 :: be_bytes 2 t ++ fams) in Hw4 by (rewrite <-?app_assoc; reflexivity).
  edestruct (putc_at_wrote s4) as (s5 & -> & Hw5); [exact Hw4|done|unfold is_byte; lia|]. cbn [mbind M_bind]. rewrite (wrote_endp _ _ Hw5).
  match goal with |- context [u8 ?x] => replace (u8 x) with (4 + zlen fams) by (replace x with (4 + zlen fams) by room; symmetry; apply Z.mod_small; lia) end.
  replace (((b ++ [BGP_OPEN_OPT_CAP]) ++ [0; CAPABILITY_CODE_RESTART]) ++ 2 + zlen fams :: be_bytes 2 t ++ fams) with
    ((b ++ [BGP_OPEN_OPT_CAP]) ++ 0 :: [CAPABILITY_CODE_RESTART; 2 + zlen fams] ++ be_bytes 2 t ++ fams) in Hw5 by (rewrite <-?app_assoc; reflexivity).
  edestruct (putc_at_wrote s5) as (s6 & -> & Hw6); [exact Hw5|done|unfold is_byte; lia|]. cbn [mbind M_bind].
  eexists _, _. split; [done|]. unfold option_bytes, restart_cap. fold t fams. cbn [fst snd].
  assert (zlen (be_bytes 2 t ++ fams) = 2 + zlen fams) as Ld by room. split; [|room].
  rewrite Ld. rewrite <-!app_assoc in Hw6. cbn [app] in *. by replace (2 + zlen fams + 2) with (4 + zlen fams) by lia.
Qed.

Definition orf_ok : Prop := ∀ k, k ∈ families → orf_wanted oc k = true → snd k ≠ SAFI_MPLS_VPN.

Lemma mp_cap_length p ks : (length (options (mp_cap p ks)) <= 8)%nat.
Proof. unfold mp_cap. case_match; cbn; lia. Qed.

Lemma orf_caps_length : orf_ok → (length (options (concat (orf_caps oc <$> families))) <= 132)%nat.
Proof.
  intros Hv.
  assert (∀ k, length (options (orf_caps oc k)) <= 22)%nat as Hk by (intros k; unfold orf_caps; case_match; cbn; lia).
  assert (∀ afi, (afi, 4) ∈ families → orf_caps oc (afi, 4) = []) as H4.
  { intros afi Hin. unfold orf_caps. destruct (orf_wanted oc (afi, 4)) eqn:E; [|done]. by destruct (Hv _ Hin E). }
  unfold families at 1. cbn [fmap list_fmap concat]. rewrite !options_app, !length_app, (H4 1), (H4 2) by (unfold families; set_solver).
  pose proof (Hk (1, 1)). pose proof (Hk (1, 2)). pose proof (Hk (1, 3)). pose proof (Hk (2, 1)). pose proof (Hk (2, 2)). pose proof (Hk (2, 3)).
  cbn [fmap list_fmap concat length]. lia.
Qed.

(** The five multiprotocol capabilities. *)
Lemma mps_wrote s p b : wrote s b → zlen b + 40 <= BGP_MAX_PACKET_SIZE →
  ∃ s' p', put_mps (s, p) = Ok (s', p') ∧
    wrote s' (b ++ options (concat (mp_cap p <$> mp_families))) ∧ same_conf p p'.
Proof.
  intros Hw Hn. unfold put_mps.
  assert (∀ q s b k safi, same_conf p q → wrote s b → k ∈ families → is_byte safi → zlen b + 8 <= BGP_MAX_PACKET_SIZE →
    ∃ s' q', put_mp (s, q) k safi = Ok (s', q') ∧ wrote s' (b ++ options (mp_cap p (k, safi))) ∧ same_conf p q') as Hput.
  { intros q s0 b0 k safi Hq H0 Hk Hsafi H8. destruct (put_mp_wrote s0 q b0 k safi H0 Hk Hsafi H8) as (s' & q' & E & Hw' & Hq').
    exists s', q'. split; [done|]. split; [|by etrans]. unfold mp_cap in *. destruct Hq as (<- & _). done. }
  pose proof (mp_cap_length p) as Hl.
  assert (∀ b ks, zlen (b ++ options (mp_cap p ks)) <= zlen b + 8) as Hb by (intros b0 ks; rewrite length_app; specialize (Hl ks); lia).
  edestruct (Hput p) as (s1 & p1 & -> & W1 & P1); [reflexivity|exact Hw|unfold families; set_solver|by vm_compute|lia|]. cbn [mbind M_bind].
  pose proof (Hb b ((AFI_IP, SAFI_UNICAST), SAFI_UNICAST)) as B1. set (b1 := b ++ _) in *.
  edestruct (Hput p1) as (s2 & p2 & -> & W2 & P2); [exact P1|exact W1|unfold families; set_solver|by vm_compute|lia|]. cbn [mbind M_bind].
  pose proof (Hb b1 ((AFI_IP, SAFI_MULTICAST), SAFI_MULTICAST)) as B2. set (b2 := b1 ++ _) in *.
  edestruct (Hput p2) as (s3 & p3 & -> & W3 & P3); [exact P2|exact W2|unfold families; set_solver|by vm_compute|lia|]. cbn [mbind M_bind].
  pose proof (Hb b2 ((AFI_IP, SAFI_MPLS_VPN), SAFI_MPLS_LABELED_VPN)) as B3. set (b3 := b2 ++ _) in *.
  edestruct (Hput p3) as (s4 & p4 & -> & W4 & P4); [exact P3|exact W3|unfold families; set_solver|by vm_compute|lia|]. cbn [mbind M_bind].
  pose proof (Hb b3 ((AFI_IP6, SAFI_UNICAST), SAFI_UNICAST)) as B4. set (b4 := b3 ++ _) in *.
  edestruct (Hput p4) as (s5 & p5 & -> & W5 & P5); [exact P4|exact W4|unfold families; set_solver|by vm_compute|lia|].
  exists s5, p5. split; [done|]. split; [|done]. unfold mp_families. cbn [fmap list_fmap concat]. rewrite !options_app.
  subst b4 b3 b2 b1. rewrite <-!app_assoc in W5. rewrite app_nil_r. done.
Qed.

Lemma mps_length p : (length (options (concat (mp_cap p <$> mp_families))) <= 40)%nat.
Proof.
  assert (∀ l, length (options (concat (mp_cap p <$> l))) <= 8 * length l)%nat as H; [|apply H].
  intros l. induction l as [|ks l IH]; [done|]. cbn [fmap list_fmap concat length]. rewrite options_app, length_app.
  pose proof (mp_cap_length p ks). lia.
Qed.

Lemma dynamic_wrote s p b : wrote s b → zlen b + 4 <= BGP_MAX_PACKET_SIZE →
  ∃ s' p', put_dynamic s p = Ok (s', p') ∧ wrote s' (b ++ options (dynamic_cap p)) ∧ same_conf p p' ∧ zlen (options (dynamic_cap p)) <= 4.
Proof.
  intros Hw Hn. unfold put_dynamic, dynamic_cap, put_plain. case_match.
  - put_bytes [BGP_OPEN_OPT_CAP; 2; CAPABILITY_CODE_DYNAMIC; 0] Hw. eexists _, _. split; [done|]. split; [done|]. split; [by split_and!|done].
  - eexists _, _. split; [done|]. split; [by rewrite app_nil_r|]. split; [reflexivity|cbn; lia].
Qed.

(** The last two depend only on the configuration. *)
Lemma same_caps p p' : same_conf p p' → dynamic_cap p' = dynamic_cap p ∧ restart_cap oc p' = restart_cap oc p.
Proof. intros (Ec & Ef & _). unfold dynamic_cap, restart_cap, restart_families. by rewrite Ec, Ef. Qed.

Lemma open_capability_wrote s p b : wrote s b → orf_ok → zlen b + 300 <= BGP_MAX_PACKET_SIZE →
  CHECK_FLAG (sflags p) PEER_STATUS_CAPABILITY_OPEN = true → CHECK_FLAG (pflags p) PEER_FLAG_DONT_CAPABILITY = false →
  ∃ s' p', bgp_open_capability oc s p = Ok (s', p') ∧
    wrote s' (b ++ zlen (options (configured oc p)) :: options (configured oc p)) ∧ zlen (options (configured oc p)) < 256.
Proof.
  intros Hw Hv Hn Ho Hd. unfold bgp_open_capability. rewrite (wrote_endp _ _ Hw). put_bytes [0] Hw. rewrite Ho, Hd. cbn [negb orb].
  destruct (mps_wrote s0 p _ Hw) as (s1 & p1 & -> & W1 & P1); [room|]. cbn [mbind M_bind].
  pose proof (mps_length p) as L1. pose proof (orf_caps_length Hv) as L2. unfold configured.
  set (mps := concat (mp_cap p <$> mp_families)) in *. set (orfs := concat (orf_caps oc <$> families)) in *.
  unfold put_plain. put_bytes [BGP_OPEN_OPT_CAP; 2; CAPABILITY_CODE_REFRESH_OLD; 0] W1.
  put_bytes [BGP_OPEN_OPT_CAP; 2; CAPABILITY_CODE_REFRESH; 0] W1.
  put_bytes [BGP_OPEN_OPT_CAP; CAPABILITY_CODE_AS4_LEN + 2; CAPABILITY_CODE_AS4; CAPABILITY_CODE_AS4_LEN] W1.
  fold (sent_as oc). destruct (word_wrote (n := 4) _ _ (sent_as oc) W1) as (s5 & r & E5 & W5); [room|]. cbn in E5. rewrite E5. cbn [mbind M_bind].
  edestruct (orfs_wrote families) as (s6 & p6 & -> & W6 & P6); [exact W5|done|exact Hv|cbn [length families]; room|]. cbn [mbind M_bind]. fold orfs in W6.
  assert (same_conf p p6) as Hp6 by (etrans; [exact P1|exact P6]).
  edestruct (dynamic_wrote s6 p6) as (s7 & p7 & -> & W7 & P7 & L3); [exact W6|room|]. cbn [mbind M_bind].
  assert (same_conf p p7) as Hp7 by (by etrans). destruct (same_caps p p6 Hp6) as [Ed _]. destruct (same_caps p p7 Hp7) as [_ Er]. rewrite Ed in *.
  edestruct (restart_wrote s7 p7) as (s8 & p8 & -> & W8 & L4); [exact W7|room|]. cbn [mbind M_bind]. rewrite Er in *.
  set (opts := options _).
  assert (opts = options mps ++ [BGP_OPEN_OPT_CAP; 2; CAPABILITY_CODE_REFRESH_OLD; 0] ++ [BGP_OPEN_OPT_CAP; 2; CAPABILITY_CODE_REFRESH; 0] ++
    [BGP_OPEN_OPT_CAP; CAPABILITY_CODE_AS4_LEN + 2; CAPABILITY_CODE_AS4; CAPABILITY_CODE_AS4_LEN] ++ be_bytes 4 (sent_as oc) ++
    options orfs ++ options (dynamic_cap p) ++ option_bytes (restart_cap oc p)) as Eo.
  { subst opts. rewrite !options_app. cbn [fmap list_fmap concat]. rewrite !app_nil_r. reflexivity. }
  assert (zlen opts < 256) as Lo by (rewrite Eo; room).
  rewrite <-!app_assoc in W8. cbn [app] in W8. cbn [app] in Eo. rewrite <-Eo in W8. rewrite (wrote_endp _ _ W8).
  match goal with |- context [u8 ?x] => replace (u8 x) with (zlen opts) by (replace x with (zlen opts) by room; symmetry; apply Z.mod_small; lia) end.
  edestruct (putc_at_wrote s8) as (s9 & -> & W9); [exact W8|done|unfold is_byte; lia|]. cbn [mbind M_bind].
  eexists _, _. split; [done|]. by split.
Qed.
End sending.

(** ** Both together *)

Lemma configured_known oc p : 0 < sent_as oc < 2 ^ 32 → Forall known (configured oc p).
Proof.
  intros Ha. unfold configured. rewrite !Forall_app. split_and!.
  - apply Forall_concat, Forall_fmap, Forall_true. intros ks. unfold mp_cap, compose. case_match; [constructor|].
    apply Forall_singleton. by left.
  - repeat apply Forall_cons_2; [by right; left; auto..| |constructor]. right. right. left. split; [done|].
    rewrite length_be_bytes, be_value_bytes. split; [done|]. rewrite Z.mod_small; [lia|]. change (2 ^ (8 * Z.of_nat 4)) with (2 ^ 32). lia.
  - apply Forall_concat, Forall_fmap, Forall_true. intros k. unfold orf_caps, compose. case_match; [|constructor].
    repeat apply Forall_cons_2; [..|constructor]; right; right; right; left; auto.
  - unfold dynamic_cap. case_match; [|constructor]. apply Forall_singleton. right. left. auto.
  - apply Forall_singleton. do 4 right. split; [done|]. rewrite length_app, length_be_bytes. lia.
Qed.

Lemma configured_as4 oc p : 0 < sent_as oc < 2 ^ 32 → first_as4 (configured oc p) = sent_as oc.
Proof.
  intros Ha. unfold configured.
  assert (∀ l r, Forall (λ ks, (λ cds, Forall (λ cd : Z * list Z, fst cd =? CAPABILITY_CODE_AS4 = false) cds) (mp_cap p ks)) l →
    first_as4 (concat (mp_cap p <$> l) ++ r) = first_as4 r) as H.
  { intros l r Hl. induction Hl as [|ks l Hks Hl IH]; [done|]. cbn [fmap list_fmap concat]. unfold mp_cap at 1. case_match; done. }
  rewrite H; [|apply Forall_true; intros ks; unfold mp_cap; case_match; [constructor|by apply Forall_singleton]].
  cbn [app first_as4 Z.eqb CAPABILITY_CODE_REFRESH_OLD CAPABILITY_CODE_REFRESH CAPABILITY_CODE_AS4 Pos.eqb].
  rewrite be_value_bytes. apply Z.mod_small. change (2 ^ (8 * Z.of_nat 4)) with (2 ^ 32). lia.
Qed.

(** The families an OPEN message can announce. *)
Definition mp_family (k : Z * Z) : bool := existsb (λ ks, bool_decide (fst ks = k)) mp_families.

Lemma existsb_not_mp k l : Forall (λ cd : Z * list Z, fst cd ≠ CAPABILITY_CODE_MP) l → existsb (announces k) l = false.
Proof.
  induction 1 as [|cd l Hc Hl IH]; [done|]. cbn [existsb]. rewrite IH. unfold announces. by rewrite (proj2 (Z.eqb_neq _ _) Hc).
Qed.

Lemma configured_announces oc p k : existsb (announces k) (configured oc p) = mp_family k && negb (afc (conf p) k =? 0).
Proof.
  unfold configured. rewrite existsb_app, (existsb_not_mp k (_ ++ _)), orb_false_r.
  2: { rewrite !Forall_app. split_and!.
    - by repeat constructor.
    - apply Forall_concat, Forall_fmap, Forall_true. intros k'. unfold orf_caps, compose. by case_match; repeat constructor.
    - unfold dynamic_cap. by case_match; repeat constructor.
    - by repeat constructor. }
  assert (∀ ks, ks ∈ mp_families → existsb (announces k) (mp_cap p ks) = bool_decide (fst ks = k) && negb (afc (conf p) k =? 0)) as H.
  { intros ks Hks. unfold mp_cap.
    assert (announces k (CAPABILITY_CODE_MP, be_bytes 2 (fst (fst ks)) ++ [0; snd ks]) = bool_decide (fst ks = k)) as E.
    { unfold mp_families in Hks. rewrite !elem_of_cons, elem_of_nil in Hks. by destruct Hks as [->|[->|[->|[->|[->|[]]]]]]. }
    case_bool_decide as Hk.
    - rewrite Hk in *. destruct (afc (conf p) k =? 0); [done|]. cbn [existsb]. by rewrite E.
    - case_match; [done|]. cbn [existsb]. by rewrite E. }
  unfold mp_family. revert H. generalize mp_families. intros l H. induction l as [|ks l IH]; [done|].
  cbn [fmap list_fmap concat existsb]. rewrite existsb_app, H, IH by set_solver.
  by destruct (bool_decide _), (existsb _ l), (afc (conf p) k =? 0).
Qed.

(** The message a peer sends. *)
Definition open_bytes (oc : open_conf) (id : list Z) (p : peer) : list Z :=
  [BGP_VERSION_4] ++ be_bytes 2 (if sent_as oc <=? BGP_AS_MAX then sent_as oc else BGP_AS_TRANS) ++ be_bytes 2 (own_holdtime p) ++ id ++
  zlen (options (configured oc p)) :: options (configured oc p).

Lemma open_packet_bytes oc id junk p : zlen junk = BGP_MAX_PACKET_SIZE → bytes_ok junk → bytes_ok id → length id = 4%nat → orf_ok oc →
  CHECK_FLAG (sflags p) PEER_STATUS_CAPABILITY_OPEN = true → CHECK_FLAG (pflags p) PEER_FLAG_DONT_CAPABILITY = false →
  ∃ s p', open_packet oc id junk p = Ok (s, p') ∧ zlen (open_bytes oc id p) < 266 ∧
    wrote s (replicate 16 255 ++ be_bytes 2 (19 + zlen (open_bytes oc id p)) ++ [BGP_MSG_OPEN] ++ open_bytes oc id p).
Proof.
  intros Hj Hb Hid Hl Hv Ho Hd. unfold open_packet, stream_new. change (0 <? BGP_MAX_PACKET_SIZE) with true. cbn [mbind M_bind].
  assert (wrote (Stream 0 0 BGP_MAX_PACKET_SIZE junk) []) as Hw.
  { split; [|done]. split_and!; cbn [getp endp size data]; done || lia. }
  fold (sent_as oc) (own_holdtime p). set (a := if sent_as oc <=? _ then _ else _).
  unfold bgp_packet_set_marker. destruct (putcs_wrote _ _ (replicate 16 255) Hw) as (s1 & -> & W); [by apply Forall_replicate|by vm_compute|].
  cbn [mbind M_bind]. put_word 0 W. put_bytes [BGP_MSG_OPEN] W. put_bytes [BGP_VERSION_4] W. put_word a W. put_word (own_holdtime p) W.
  destruct (in_addr_wrote _ _ id W Hid Hl) as (s6 & r & -> & W6); [room|]. cbn [mbind M_bind].
  destruct (open_capability_wrote oc s6 p _ W6 Hv) as (s7 & p7 & -> & W7 & L); [rewrite !length_app, Hl; room|done..|]. cbn [mbind M_bind].
  assert (zlen (open_bytes oc id p) = 10 + zlen (options (configured oc p))) as Lo by (unfold open_bytes; rewrite !length_app; cbn [length]; rewrite !length_be_bytes, Hl; lia).
  assert (endp s7 = 19 + zlen (open_bytes oc id p)) as Ee.
  { rewrite (wrote_endp _ _ W7), Lo, !length_app, Hl. room. }
  unfold bgp_packet_set_size. rewrite Ee.
  rewrite <-!app_assoc in W7. set (rest := [BGP_MSG_OPEN] ++ _) in W7. change (be_bytes 2 0) with [0; 0] in W7. cbn [app] in W7.
  edestruct (putw_at_wrote s7 (replicate 16 255) 0 0 rest) as (s8 & r8 & -> & W8); [exact W7|done|]. cbn [mbind M_bind].
  eexists _, _. split; [done|]. split; [lia|]. exact W8.
Qed.

(** [stream_getw] and [stream_get_ipv4] on known bytes. *)
Lemma getw_bytes s b rest : stream_ok s → unread s = b ++ rest → length b = 2%nat →
  stream_getw s = Ok (set_getp s (getp s + 2), be_value b) ∧ stream_ok (set_getp s (getp s + 2)) ∧ unread (set_getp s (getp s + 2)) = rest ∧
  rdn (data s) (getp s) 2 = Ok b.
Proof.
  intros Hs E Hb. destruct (unread_ahead s b rest Hs E) as (He & Ea & Hs' & Eu). rewrite Hb in *.
  rewrite getw_ok, Ea by done. split_and!; try done. pose proof (get_bytes_ok s 2 Hs He) as Er. by rewrite Ea in Er.
Qed.

Lemma get_ipv4_bytes s b rest : stream_ok s → unread s = b ++ rest → length b = 4%nat →
  stream_get_ipv4 s = Ok (set_getp s (getp s + 4), b) ∧ stream_ok (set_getp s (getp s + 4)) ∧ unread (set_getp s (getp s + 4)) = rest.
Proof.
  intros Hs E Hb. destruct (unread_ahead s b rest Hs E) as (He & Ea & Hs' & Eu). rewrite Hb in *. by rewrite get_ipv4_ok, Ea.
Qed.

Lemma options_count caps : (length caps <= length (options caps))%nat.
Proof.
  induction caps as [|cd caps IH]; [done|]. cbn [fmap list_fmap concat length]. rewrite length_app.
  unfold option_bytes at 1. rewrite length_app. cbn [length]. lia.
Qed.

Section receiving.
Context (e : env).

(** The option parser accepts known capabilities of which one is common. *)
Lemma option_parse_known c caps : Forall known caps → stream_ok (ibuf c) → endp (ibuf c) <= BGP_MAX_PACKET_SIZE →
  unread (ibuf c) = options caps →
  CHECK_FLAG (pflags (pr c)) PEER_FLAG_OVERRIDE_CAPABILITY = false → CHECK_FLAG (pflags (pr c)) PEER_FLAG_STRICT_CAP_MATCH = false →
  (∃ k, k ∈ [(1, 1); (1, 2); (1, 4); (2, 1); (2, 2)] ∧ existsb (announces k) caps = true ∧ afc (conf (pr c)) k ≠ 0) →
  ∃ o, bgp_open_option_parse e c (zlen (options caps)) = Ok (o, 0) ∧ steps (effects caps) c (rd_ o) ∧ mp_capability o = true.
Proof.
  intros Hk Hs Hm E Hov Hst (k & Hin & Hann & Hafc). pose proof (getp_nonneg _ Hs) as Hg0.
  pose proof (options_count caps) as Lc.
  pose proof (length_unread _ Hs) as Lu. rewrite E in Lu. unfold bgp_open_option_parse.
  destruct (option_loop_known e caps Hk (Z.to_nat (endp (ibuf c))) (Opts c false []) [] (getp (ibuf c) + zlen (options caps)))
    as (o & -> & [Hq Ho _] & Emp); [lia|split; [done|cbn; lia]|done|by rewrite app_nil_r|done|]. cbn [rd_ mbind M_bind Z.ltb Z.compare] in *.
  pose proof (steps_peer _ _ _ Hq) as Heff. pose proof (effects_kept _ _ _ Heff) as Hkept.
  destruct (kept_status _ _ Hkept) as (_ & _ & Epf & _).
  assert (mp_capability o = true) as Emp'.
  { rewrite Emp. cbn [mp_capability]. rewrite orb_false_r. apply existsb_exists in Hann as (cd & Hcd & Hc). apply existsb_exists.
    exists cd. split; [done|]. unfold announces in Hc. by apply andb_true_iff in Hc as [? _]. }
  exists o. split; [|done]. unfold option_check. rewrite Epf, Hst, Hov, Emp'. cbn [andb negb].
  destruct (forallb _ _) eqn:Hall; [|done]. rewrite forallb_forall in Hall.
  specialize (Hall k (proj1 (list_elem_of_In _ _) Hin)). rewrite (effects_nego _ _ _ k Heff), Hann, (proj2 (Z.eqb_neq _ 0) Hafc) in Hall. done.
Qed.

(** The header of the message, and its options before the reader. *)
Lemma open_header oc id p s : stream_ok s → unread s = open_bytes oc id p → length id = 4%nat →
  let a := be_bytes 2 (if sent_as oc <=? BGP_AS_MAX then sent_as oc else BGP_AS_TRANS) in
  stream_getc s = Ok (set_getp s (getp s + 1), BGP_VERSION_4) ∧
  rdn (data s) (getp s + 1) 2 = Ok a ∧
  stream_getw (set_getp s (getp s + 1)) = Ok (set_getp s (getp s + 3), be_value a) ∧
  stream_getw (set_getp s (getp s + 3)) = Ok (set_getp s (getp s + 5), own_holdtime p) ∧
  stream_get_ipv4 (set_getp s (getp s + 5)) = Ok (set_getp s (getp s + 9), id) ∧
  stream_getc (set_getp s (getp s + 9)) = Ok (set_getp s (getp s + 10), zlen (options (configured oc p))) ∧
  stream_ok (set_getp s (getp s + 10)) ∧ unread (set_getp s (getp s + 10)) = options (configured oc p).
Proof.
  intros Hs E Hid a. unfold open_bytes in E. fold a in E.
  destruct (getc_cons s _ _ Hs E) as (-> & Hs1 & E1 & _). split; [done|].
  destruct (getw_bytes _ _ _ Hs1 E1) as (-> & Hs2 & E2 & R); [done|]. split; [exact R|]. rewrite getp_set, set_set in *.
  replace (getp s + 1 + 2) with (getp s + 3) in * by lia. split; [done|].
  destruct (getw_bytes _ _ _ Hs2 E2) as (-> & Hs3 & E3 & _); [done|]. rewrite getp_set, set_set in *.
  replace (getp s + 3 + 2) with (getp s + 5) in * by lia.
  assert (be_value (be_bytes 2 (own_holdtime p)) = own_holdtime p) as ->.
  { rewrite be_value_bytes. apply Z.mod_mod. done. }
  split; [done|]. destruct (get_ipv4_bytes _ _ _ Hs3 E3 Hid) as (-> & Hs4 & E4). rewrite getp_set, set_set in *.
  replace (getp s + 5 + 4) with (getp s + 9) in * by lia. split; [done|].
  destruct (getc_cons _ _ _ Hs4 E4) as (-> & Hs5 & E5 & _). rewrite getp_set, set_set in *.
  by replace (getp s + 9 + 1) with (getp s + 10) in * by lia.
Qed.

(** The AS number survives the look-ahead. *)
Lemma remote_as_known c oc : 0 < sent_as oc < 2 ^ 32 → sent_as oc ≠ BGP_AS_TRANS →
  open_remote_as e c (be_value (be_bytes 2 (if sent_as oc <=? BGP_AS_MAX then sent_as oc else BGP_AS_TRANS))) (sent_as oc)
  = (c, Some (sent_as oc)).
Proof.
  intros Ha Ht. unfold open_remote_as. rewrite be_value_bytes, (proj2 (Z.eqb_neq (sent_as oc) 0)), andb_false_r by lia.
  unfold BGP_AS_MAX. change (2 ^ (8 * Z.of_nat 2)) with 65536.
  destruct (Z.leb_spec (sent_as oc) 65535); rewrite Z.mod_small by (unfold BGP_AS_TRANS; lia).
  - by rewrite (proj2 (Z.eqb_neq _ _) Ht), Z.eqb_refl, andb_false_r.
  - rewrite Z.eqb_refl. by rewrite (proj2 (Z.eqb_neq _ _) Ht).
Qed.
End receiving.

Section negotiation.
Context (e : env).

Lemma options_pos oc p : 0 < zlen (options (configured oc p)).
Proof.
  unfold configured. rewrite !options_app, !length_app. cbn. lia.
Qed.

(** The look-ahead over known capabilities. *)
Lemma peek_known c caps : Forall known caps → stream_ok (ibuf c) → unread (ibuf c) = options caps →
  ∃ c', peek_for_as4_capability c (zlen (options caps)) = Ok (c', first_as4 caps) ∧ steps flagged c c' ∧ ibuf c' = ibuf c.
Proof.
  intros Hk Hs E. pose proof (length_unread _ Hs) as L. rewrite E in L. pose proof (getp_nonneg _ Hs). pose proof (options_count caps).
  unfold peek_for_as4_capability. rewrite readable_ok, (proj2 (Z.ltb_ge _ _)) by (done || lia).
  destruct (peek_opts_known caps Hk (Z.to_nat (zlen (options caps))) c [] (getp (ibuf c) + zlen (options caps)))
    as (c1 & -> & Hq); [lia|done|by rewrite app_nil_r|done|]. cbn [mbind M_bind].
  destruct (steps_ends _ _ _ Hq) as [Ee _]. rewrite set_getp_valid by (try apply Hq; lia). cbn [mbind M_bind].
  destruct Hq as [[g Eg] Hok Hp Hn]. rewrite Eg, set_set.
  assert (set_getp (ibuf c) (getp (ibuf c)) = ibuf c) as -> by (by destruct (ibuf c)).
  eexists. split; [done|]. split; [split; [apply moved_refl|done..]|done].
Qed.

(** What the receiver holds in the end. *)
Record agreed (oc : open_conf) (pa pb : peer) (id : Z) (p' : peer) : Prop := {
  agreed_nego k : afc_nego p' k =
    if mp_family k && negb (afc (conf pa) k =? 0) && negb (afc (conf pb) k =? 0) then 1 else afc_nego pb k;
  agreed_flags f : f ∈ [PEER_CAP_AS4_RCV; PEER_CAP_REFRESH_OLD_RCV; PEER_CAP_REFRESH_NEW_RCV; PEER_CAP_RESTART_RCV] → CHECK_FLAG (cap p') f = true;
  agreed_holdtime : v_holdtime p' = Z.min (own_holdtime pa) (own_holdtime pb);
  agreed_keepalive : v_keepalive p' = v_holdtime p' / 3;
  agreed_id : remote_id p' = id;
  agreed_event : status pb ≠ Deleted → events p' = events pb ++ [Receive_OPEN_message];
}.

Lemma configured_flags oc p f : f ∈ [PEER_CAP_AS4_RCV; PEER_CAP_REFRESH_OLD_RCV; PEER_CAP_REFRESH_NEW_RCV; PEER_CAP_RESTART_RCV] →
  ∃ cd, cd ∈ configured oc p ∧ code_flag (fst cd) = Some f.
Proof.
  intros Hf. unfold configured.
  assert (∀ cd, cd ∈ [(CAPABILITY_CODE_REFRESH_OLD, []); (CAPABILITY_CODE_REFRESH, []); (CAPABILITY_CODE_AS4, be_bytes 4 (sent_as oc)); restart_cap oc p] →
    cd ∈ configured oc p) as H by (intros cd Hcd; unfold configured; set_solver).
  rewrite !elem_of_cons, elem_of_nil in Hf. destruct Hf as [->|[->|[->|[->|[]]]]]; eexists; (split; [apply H|]).
  - do 2 right. left.
  - done.
  - left.
  - done.
  - right. left.
  - done.
  - do 3 right. left.
  - done.
Qed.

Lemma negotiate_known oc pa c lid id rad :
  Forall known (configured oc pa) → stream_ok (ibuf c) → endp (ibuf c) <= BGP_MAX_PACKET_SIZE → unread (ibuf c) = options (configured oc pa) →
  be_value id ≠ 0 → IPV4_CLASS_DE (be_value id) = false → be_value id ≠ lid → own_holdtime pa = 0 ∨ 3 <= own_holdtime pa →
  CHECK_FLAG (pflags (pr c)) PEER_FLAG_OVERRIDE_CAPABILITY = false → CHECK_FLAG (pflags (pr c)) PEER_FLAG_STRICT_CAP_MATCH = false →
  (∃ k, mp_family k = true ∧ afc (conf pa) k ≠ 0 ∧ afc (conf (pr c)) k ≠ 0) →
  ∃ c', open_negotiate e c (sent_as oc) lid BGP_VERSION_4 (sent_as oc) (own_holdtime pa) rad id (zlen (options (configured oc pa))) = Ok (c', 0) ∧
    notified c' = notified c ∧ agreed oc pa (pr c) (be_value id) (pr c').
Proof.
  intros Hk Hs Hm E Hid Hde Hlid Hh Hov Hst (k & Hmp & Hka & Hkb). unfold open_negotiate.
  rewrite (proj2 (Z.eqb_neq _ _) Hid), Hde, (proj2 (Z.eqb_neq lid _)) by done. rewrite !Z.eqb_refl. cbn [orb negb].
  assert ((own_holdtime pa <? 3) && negb (own_holdtime pa =? 0) = false) as ->.
  { destruct Hh as [->|]; [done|]. by rewrite (proj2 (Z.ltb_ge _ _)). }
  pose proof (options_pos oc pa) as Hpos. rewrite (proj2 (Z.eqb_neq (zlen _) 0)) by lia. cbn [negb pr set_pr config set_remote_id conf].
  fold (own_holdtime (pr c)).
  assert ((if own_holdtime pa <? own_holdtime (pr c) then own_holdtime pa else own_holdtime (pr c)) = Z.min (own_holdtime pa) (own_holdtime (pr c))) as ->
    by (destruct (Z.ltb_spec (own_holdtime pa) (own_holdtime (pr c))); lia).
  cbn [v_holdtime set_v_holdtime]. set (p0 := set_v_keepalive _ _). set (c0 := set_pr _ p0).
  destruct (option_parse_known e c0 (configured oc pa) Hk Hs Hm E Hov Hst) as (o & -> & Hq & Emp).
  { exists k. split; [|by rewrite configured_announces, Hmp, (proj2 (Z.eqb_neq _ 0) Hka)].
    unfold mp_family in Hmp. apply existsb_exists in Hmp as (ks & Hks%list_elem_of_In & <-%bool_decide_eq_true).
    unfold mp_families in Hks. rewrite !elem_of_cons, elem_of_nil in Hks. destruct Hks as [->|[->|[->|[->|[->|[]]]]]]; set_solver. }
  cbn [mbind M_bind Z.ltb Z.compare]. pose proof (steps_peer _ _ _ Hq) as Heff. pose proof (effects_kept _ _ _ Heff) as [_ _ (Es & _ & Epf & Eev) (T1 & T2 & T3)].
  rewrite Emp, Epf. change (pflags (pr c0)) with (pflags (pr c)). rewrite Hov. cbn [negb orb].
  unfold stream_reset. rewrite sane_ok by apply Hq. cbn [mbind M_bind]. eexists. split; [done|]. split; [apply Hq|].
  cbn [pr set_ibuf set_pr]. unfold BGP_EVENT_ADD. cbn [set_su_known status]. rewrite Es. change (status (pr c0)) with (status (pr c)).
  split; destruct (Z.eqb_spec (status (pr c)) Deleted);
    cbn [negb set_packet_size set_events set_su_known status events remote_id v_holdtime v_keepalive afc_nego cap]; try done; try congruence.
  1,2: intros j; by rewrite (effects_nego _ _ _ j Heff), configured_announces.
  1,2: intros f Hf; destruct (configured_flags oc pa f Hf) as (cd & Hcd & Ef); by eapply effects_flag.
  1,2: by rewrite T1, T2.
  intros _. by rewrite Eev.
Qed.

End negotiation.

(** ** Instances *)

Definition sample_oc : open_conf := OpenConf zeros 65001 0 120 false 0.
Definition sample_sender : peer := set_sflags (sample_peer OpenSent zeros zeros) PEER_STATUS_CAPABILITY_OPEN.

