(* ===== verification/Message.v ===== *)
(** Reading messages: [bgp_read] of bgpd/bgp_packet.c, which puts messages
    together from what the socket delivers, checks their headers and hands them to
    the function of their type.  The functions for OPEN and UPDATE are those of
    Open.v and Update.v; the others are here.

    Two things are recorded instead of done: the changes to the prefix list that a
    ROUTE-REFRESH message carries, with an arbitrary answer to each, and the
    announcement of a table, as in Fsm.v. *)
From S2P Require Import Prelude Prefix Stream Hash ASPath Community Ecommunity Tarpan Decision Attr Update Fsm Open.
Open Scope Z_scope.

(** ** Constants *)

Definition BGP_HEADER_SIZE : Z := 19.
Definition BGP_MSG_OPEN_MIN_SIZE : Z := 29.
Definition BGP_MSG_UPDATE_MIN_SIZE : Z := 23.
Definition BGP_MSG_NOTIFY_MIN_SIZE : Z := 21.
Definition BGP_MSG_KEEPALIVE_MIN_SIZE : Z := 19.
Definition BGP_MSG_ROUTE_REFRESH_MIN_SIZE : Z := 23.
Definition BGP_MSG_CAPABILITY_MIN_SIZE : Z := 22.
Definition BGP_MSG_UPDATE : Z := 2.
Definition BGP_MSG_NOTIFY : Z := 3.
Definition BGP_MSG_KEEPALIVE : Z := 4.
Definition BGP_MSG_ROUTE_REFRESH_NEW : Z := 5.
Definition BGP_MSG_CAPABILITY : Z := 6.
Definition BGP_MSG_ROUTE_REFRESH_OLD : Z := 128.
Definition BGP_NOTIFY_HEADER_ERR : Z := 1.
Definition BGP_NOTIFY_HEADER_NOT_SYNC : Z := 1.
Definition BGP_NOTIFY_HEADER_BAD_MESLEN : Z := 2.
Definition BGP_NOTIFY_HEADER_BAD_MESTYPE : Z := 3.
Definition PEER_DOWN_NOTIFY_RECEIVED : Z := 13.
Definition CAPABILITY_ACTION_SET : Z := 0.
Definition CAPABILITY_ACTION_UNSET : Z := 1.
Definition REFRESH_DEFER : Z := 2.
Definition ORF_COMMON_PART_REMOVE : Z := 0x80.
Definition ORF_COMMON_PART_REMOVE_ALL : Z := 0xC0.
Definition ORF_COMMON_PART_DENY : Z := 0x20.

(** ** State *)

(** [struct orf_prefix]. *)
Record orf_prefix := OrfPrefix { orf_seq : Z; orf_ge : Z; orf_le : Z; orf_p : prefix }.

(** The calls into lib/plist.c, for the list of a family; the result of
    [prefix_list_lookup] becomes [peer->orf_plist]. *)
Inductive orf_call :=
  | prefix_bgp_orf_set (k : Z * Z) (orfp : orf_prefix) (permit set_ : bool)
  | prefix_bgp_orf_remove_all (k : Z * Z)
  | prefix_list_lookup (k : Z * Z).

(** A session: the peer with its input buffer, what the UPDATE messages of the
    session did, [peer->notify], the calls into the prefix lists, the counters
    [open_in], [notify_in], [refresh_in] and [dynamic_cap_in], the other peers,
    the packets given to [bgp_dump_packet], and the bytes the socket delivered. *)
Record session := Session {
  rdr : reader;
  upd : receiver;
  last_notify : Z * Z * list Z;
  orf_calls : list orf_call;
  open_in : Z;
  notify_in : Z;
  refresh_in : Z;
  dynamic_cap_in : Z;
  peers : list other;
  dumped : list (list Z);
  delivered : list Z;
}.
Definition set_rdr (st : session) (c : reader) : session :=
  Session c (upd st) (last_notify st) (orf_calls st) (open_in st) (notify_in st) (refresh_in st) (dynamic_cap_in st) (peers st) (dumped st) (delivered st).
Definition set_upd (st : session) (rc : receiver) : session :=
  Session (rdr st) rc (last_notify st) (orf_calls st) (open_in st) (notify_in st) (refresh_in st) (dynamic_cap_in st) (peers st) (dumped st) (delivered st).
Definition set_last_notify (st : session) (x : Z * Z * list Z) : session :=
  Session (rdr st) (upd st) x (orf_calls st) (open_in st) (notify_in st) (refresh_in st) (dynamic_cap_in st) (peers st) (dumped st) (delivered st).
Definition set_orf_calls (st : session) (l : list orf_call) : session :=
  Session (rdr st) (upd st) (last_notify st) l (open_in st) (notify_in st) (refresh_in st) (dynamic_cap_in st) (peers st) (dumped st) (delivered st).
Definition set_open_in (st : session) (n : Z) : session :=
  Session (rdr st) (upd st) (last_notify st) (orf_calls st) n (notify_in st) (refresh_in st) (dynamic_cap_in st) (peers st) (dumped st) (delivered st).
Definition set_notify_in (st : session) (n : Z) : session :=
  Session (rdr st) (upd st) (last_notify st) (orf_calls st) (open_in st) n (refresh_in st) (dynamic_cap_in st) (peers st) (dumped st) (delivered st).
Definition set_refresh_in (st : session) (n : Z) : session :=
  Session (rdr st) (upd st) (last_notify st) (orf_calls st) (open_in st) (notify_in st) n (dynamic_cap_in st) (peers st) (dumped st) (delivered st).
Definition set_dynamic_cap_in (st : session) (n : Z) : session :=
  Session (rdr st) (upd st) (last_notify st) (orf_calls st) (open_in st) (notify_in st) (refresh_in st) n (peers st) (dumped st) (delivered st).
Definition set_peers (st : session) (l : list other) : session :=
  Session (rdr st) (upd st) (last_notify st) (orf_calls st) (open_in st) (notify_in st) (refresh_in st) (dynamic_cap_in st) l (dumped st) (delivered st).
Definition set_dumped (st : session) (l : list (list Z)) : session :=
  Session (rdr st) (upd st) (last_notify st) (orf_calls st) (open_in st) (notify_in st) (refresh_in st) (dynamic_cap_in st) (peers st) l (delivered st).
Definition set_delivered (st : session) (l : list Z) : session :=
  Session (rdr st) (upd st) (last_notify st) (orf_calls st) (open_in st) (notify_in st) (refresh_in st) (dynamic_cap_in st) (peers st) (dumped st) l.

(** Its peer, and its buffer. *)
Notation peer_of st := (pr (rdr st)).
Notation buf st := (Open.ibuf (rdr st)).
Definition on_peer (st : session) (f : Fsm.peer → Fsm.peer) : session := set_rdr st (set_pr (rdr st) (f (peer_of st))).
Definition set_buf (st : session) (s : stream) : session := set_rdr st (Open.set_ibuf (rdr st) s).

Section messages.
Context (e : env).
Notation notify_with st code sub data := (set_rdr st (Open.bgp_notify_send_with_data e (rdr st) code sub data)).
Notation notify st code sub := (notify_with st code sub []).

(** ** NOTIFICATION and KEEPALIVE *)

(** Reading the data a second time, for the log. *)
Fixpoint getcs (n : nat) (s : stream) : M stream :=
  match n with O => Ok s | S n' => '(s, _) ← stream_getc s; getcs n' s end.

Definition bgp_notify_receive (st : session) (size : Z) : M session :=
  '(s, code) ← stream_getc (buf st);
  '(s, subcode) ← stream_getc s;
  let len := u16 (size - 2) in
  data_ ← (if len =? 0 then Ok [] else rdn (data s) (getp s) (size - 2));
  s ← getcs (Z.to_nat len) s;
  let st := set_notify_in (set_last_notify (set_buf st s) (code, subcode, data_)) (u32 (notify_in st + 1)) in
  Ok (on_peer st (λ p,
    let p := if status p =? Established then set_last_reset p PEER_DOWN_NOTIFY_RECEIVED else p in
    let p := if (code =? BGP_NOTIFY_OPEN_ERR) && (subcode =? BGP_NOTIFY_OPEN_UNSUP_PARAM)
             then set_sflags p (UNSET_FLAG (sflags p) PEER_STATUS_CAPABILITY_OPEN) else p in
    BGP_EVENT_ADD p Receive_NOTIFICATION_message)).

Definition bgp_keepalive_receive (st : session) : session := on_peer st (λ p, BGP_EVENT_ADD p Receive_KEEPALIVE_message).

(** ** ROUTE-REFRESH *)

Context (answer : list orf_call → orf_call → bool).
Definition orf_do (st : session) (c : orf_call) : session * bool :=
  (set_orf_calls st (orf_calls st ++ [c]), answer (orf_calls st) c).

(** A byte of the entry at [p_pnt], if there is one before [p_end]: the byte, or
    0, the position after it, and whether it was there. *)
Definition orf_byte (d : list Z) (p_pnt p_end : Z) : M (Z * Z * bool) :=
  if p_pnt <? p_end then b ← rd d p_pnt; Ok (b, p_pnt + 1, true) else Ok (0, p_pnt, false).

(** An entry without its first byte: what was read of it, the position after it,
    and whether it was well formed. *)
Definition orf_entry (d : list Z) (afi_ p_pnt p_end : Z) : M (orf_prefix * Z * bool) :=
  '(seq, p_pnt) ← (if 4 <=? p_end - p_pnt then b ← rdn d p_pnt 4; Ok (be_value b, p_pnt + 4) else Ok (0, p_end));
  '(ge, p_pnt, _) ← orf_byte d p_pnt p_end;
  '(le, p_pnt, _) ← orf_byte d p_pnt p_end;
  '(plen, p_pnt, ok) ← orf_byte d p_pnt p_end;
  let family := afi2family afi_ in
  let psize := PSIZE plen in
  let blen := prefix_blen (Prefix family plen (zeros 16)) in
  let '(psize, ok) := if blen <? psize then (blen, false) else (psize, ok) in
  let '(psize, ok) := if p_end - p_pnt <? psize then (p_end - p_pnt, false) else (psize, ok) in
  u ← (if 0 <? psize then b ← rdn d p_pnt psize; wrn (zeros 16) 0 b else Ok (zeros 16));
  Ok (OrfPrefix seq ge le (Prefix family plen u), p_pnt + psize, ok).

(** The entries from [p_pnt] to [p_end]; each takes at least one byte. *)
Fixpoint orf_entries (fuel : nat) (st : session) (k : Z * Z) (p_pnt p_end : Z) : M session :=
  if negb (p_pnt <? p_end) then Ok st else
  common ← rd (data (buf st)) p_pnt;
  if negb (Z.land common ORF_COMMON_PART_REMOVE_ALL =? 0) then Ok (fst (orf_do st (prefix_bgp_orf_remove_all k))) else
  '(orfp, p_pnt, ok) ← orf_entry (data (buf st)) (fst k) (p_pnt + 1) p_end;
  let '(st, good) := if ok : bool
                     then orf_do st (prefix_bgp_orf_set k orfp (Z.land common ORF_COMMON_PART_DENY =? 0) (Z.land common ORF_COMMON_PART_REMOVE =? 0))
                     else (st, false) in
  if negb good then Ok (fst (orf_do st (prefix_bgp_orf_remove_all k))) else
  match fuel with O => Fault Undefined | S fuel' => orf_entries fuel' st k p_pnt p_end end.

(** The ORF parts up to [end_]; each takes at least three bytes. *)
Fixpoint orf_parts (fuel : nat) (st : session) (k : Z * Z) (end_ : Z) : M session :=
  if negb (getp (buf st) + 2 <? end_) then Ok st else
  '(s, orf_type) ← stream_getc (buf st);
  '(s, orf_len) ← stream_getw s;
  let st := set_buf st s in
  if end_ <? getp s + orf_len then Ok st else
  let prefix_orf := (orf_type =? ORF_TYPE_PREFIX) || (orf_type =? ORF_TYPE_PREFIX_OLD) in
  if prefix_orf && (orf_len <? 7) then Ok st else
  st ← (if prefix_orf then
          st ← orf_entries (Z.to_nat orf_len) st k (getp s) (getp s + orf_len);
          Ok (fst (orf_do st (prefix_list_lookup k)))
        else Ok st);
  s ← stream_forward_getp s orf_len;
  match fuel with O => Fault Undefined | S fuel' => orf_parts fuel' (set_buf st s) k end_ end.

Definition bgp_route_refresh_receive (st : session) (size : Z) : M session :=
  if negb (CHECK_FLAG (cap (peer_of st)) PEER_CAP_REFRESH_ADV) then Ok (notify st BGP_NOTIFY_HEADER_ERR BGP_NOTIFY_HEADER_BAD_MESTYPE) else
  if negb (status (peer_of st) =? Established) then Ok (notify st BGP_NOTIFY_FSM_ERR 0) else
  '(s, afi_) ← stream_getw (buf st);
  '(s, _) ← stream_getc s;
  '(s, safi_) ← stream_getc s;
  let st := set_buf st s in
  if (negb (afi_ =? AFI_IP) && negb (afi_ =? AFI_IP6))
     || (negb (safi_ =? SAFI_UNICAST) && negb (safi_ =? SAFI_MULTICAST) && negb (safi_ =? SAFI_MPLS_LABELED_VPN)) then Ok st else
  let k := (afi_, if safi_ =? SAFI_MPLS_LABELED_VPN then SAFI_MPLS_VPN else safi_) in
  let refresh (st : session) := on_peer st (λ p,
    bgp_announce_route (set_af_sflags p (put (af_sflags p) k (UNSET_FLAG (af_sflags p k) PEER_STATUS_ORF_WAIT_REFRESH))) k) in
  if size =? BGP_MSG_ROUTE_REFRESH_MIN_SIZE - BGP_HEADER_SIZE then Ok (refresh st) else
  if size - (BGP_MSG_ROUTE_REFRESH_MIN_SIZE - BGP_HEADER_SIZE) <? 5 then Ok (notify st BGP_NOTIFY_CEASE 0) else
  '(s, when_to_refresh) ← stream_getc s;
  st ← orf_parts (Z.to_nat size) (set_buf st s) k (getp s + (size - 5));
  Ok (if when_to_refresh =? REFRESH_DEFER then st else refresh st).

(** ** CAPABILITY *)

Definition peer_active_nego (p : Fsm.peer) : bool :=
  existsb (λ k, negb (afc_nego p k =? 0)) [(1, 1); (1, 2); (1, 4); (2, 1); (2, 2)].

(** A multiprotocol capability with a valid family. *)
Definition capability_mp_action (p : Fsm.peer) (action : Z) (k : Z * Z) : M Fsm.peer :=
  if action =? CAPABILITY_ACTION_SET then
    recv ← af_put (afc_recv p) k 1;
    let p := set_afc_recv p recv in
    if afc (conf p) k =? 0 then Ok p
    else nego ← af_put (afc_nego p) k 1; Ok (bgp_announce_route (set_afc_nego p nego) k)
  else
    recv ← af_put (afc_recv p) k 0;
    nego ← af_put (afc_nego p) k 0;
    let p := set_afc_nego (set_afc_recv p recv) nego in
    Ok (if peer_active_nego p then bgp_clear_route p k else BGP_EVENT_ADD p BGP_Stop).

(** The loop from [pnt] to [end_]; [None] when the fuel is used up.  A capability
    that is ignored is not skipped. *)
Fixpoint capability_msg_loop (fuel : nat) (st : session) (pnt end_ : Z) : M (option (session * Z)) :=
  if negb (pnt <? end_) then Ok (Some (st, 0)) else
  match fuel with
  | O => Ok None
  | S fuel' =>
      let d := data (buf st) in
      let cease := Ok (Some (notify st BGP_NOTIFY_CEASE 0, -1)) in
      if end_ <? pnt + 3 then cease else
      action ← rd d pnt;
      code ← rd d (pnt + 1);
      length_ ← rd d (pnt + 2);
      if negb (action =? CAPABILITY_ACTION_SET) && negb (action =? CAPABILITY_ACTION_UNSET) then cease else
      if end_ <? pnt + length_ + 3 then cease else
      mpc ← rdn d (pnt + 3) 4;
      if code =? CAPABILITY_CODE_MP then
        if CHECK_FLAG (pflags (peer_of st)) PEER_FLAG_OVERRIDE_CAPABILITY then capability_msg_loop fuel' st pnt end_ else
        match bgp_afi_safi_valid_indices (be_value (take 2 mpc)) (be_value (drop 3 mpc)) with
        | None => capability_msg_loop fuel' st pnt end_
        | Some safi_ =>
            p ← capability_mp_action (peer_of st) action (be_value (take 2 mpc), safi_);
            capability_msg_loop fuel' (on_peer st (λ _, p)) (pnt + length_ + 3) end_
        end
      else capability_msg_loop fuel' st (pnt + length_ + 3) end_
  end.

Definition bgp_capability_msg_parse (fuel : nat) (st : session) (pnt length_ : Z) : M (option (session * Z)) :=
  capability_msg_loop fuel st pnt (pnt + length_).

Definition bgp_capability_receive (fuel : nat) (st : session) (size : Z) : M (option (session * Z)) :=
  if negb (CHECK_FLAG (cap (peer_of st)) PEER_CAP_DYNAMIC_ADV)
  then Ok (Some (notify st BGP_NOTIFY_HEADER_ERR BGP_NOTIFY_HEADER_BAD_MESTYPE, -1)) else
  if negb (status (peer_of st) =? Established) then Ok (Some (notify st BGP_NOTIFY_FSM_ERR 0, -1)) else
  bgp_capability_msg_parse fuel st (getp (buf st)) size.
End messages.

(** ** UPDATE *)

(** What [bgp_update_receive] of Update.v is told, besides the peer: the rest of
    [struct peer], the decoder of Tarpan messages and the handler, the new
    objects, the byte after [attr_flags_values], and the answers of the routing
    table. *)
Record update_env := UpdateEnv {
  u_peer : Attr.peer;
  u_unpack : list Z → option TarpanMsg;
  u_handler : option (costs → Tarpan.store → wpeer → loc → M (costs * Tarpan.store));
  u_new : loc;
  u_message : Z;
  u_past : M Z;
  u_answer : list Update.call → Update.call → Tarpan.store → Z * Tarpan.store;
}.

(** The peer as the attribute parsers see it. *)
Definition attr_peer (u : update_env) (p : Fsm.peer) : Attr.peer :=
  Attr.Peer (sort (u_peer u)) (as_ (u_peer u)) (cap p) (pflags p) (Attr.change_local_as (u_peer u)) (peer_bgp (u_peer u)) (wiser_peer (u_peer u)).

(** [bgp_update_receive] on the session: it reads the buffer of the peer, the
    NOTIFICATIONs it wants are sent, and the hold timer is set anew at its end. *)
Definition session_update (e : env) (u : update_env) (st : session) (size : Z) : M session :=
  let p := peer_of st in
  let rc := Receiver (Attr.set_ibuf (set_sent (parser_ (upd st)) []) (buf st)) (calls (upd st)) (eor_received (upd st)) (update_in (upd st)) false in
  '(rc, _) ← bgp_update_receive (attr_peer u p) (u_unpack u) (u_handler u) (u_new u) (u_message u) (u_past u) (u_answer u)
    (λ _, status p =? Established) (λ a s, negb (afc (conf p) (a, s) =? 0)) (λ a s, negb (nsf p (a, s) =? 0)) rc size;
  let st := set_buf (set_upd st rc) (Attr.ibuf (parser_ rc)) in
  let st := set_rdr st (foldl (λ c n, Open.bgp_notify_send_with_data e c (code n) (subcode n) (notify_data n)) (rdr st) (sent (parser_ rc))) in
  Ok (if rearmed rc then on_peer st (λ p, bgp_timer_set e (BGP_TIMER_OFF (set_update_time p (e_clock e)) t_holdtime)) else st).

(** ** Reading *)

(** [bgp_read_packet]: [sock] is what the socket delivers when some number of
    bytes is asked for. *)
Definition bgp_read_packet (st : session) (sock : Z → io) : M (session * Z) :=
  let readsize := packet_size (peer_of st) - endp (buf st) in
  if readsize =? 0 then Ok (st, 0) else
  let r := sock (u64 readsize) in
  '(s, nbytes) ← stream_read_try (buf st) (u64 readsize) r;
  let st := set_delivered (set_buf st s) (delivered st ++ take (Z.to_nat nbytes) (io_bytes r)) in
  if nbytes <? 0 then
    if nbytes =? -2 then Ok (st, -1) else Ok (on_peer st (λ p, bgp_read_packet_closed p true), -1)
  else if nbytes =? 0 then Ok (on_peer st (λ p, bgp_read_packet_closed p false), -1)
  else if negb (endp s =? packet_size (peer_of st)) then Ok (st, -1)
  else Ok (st, 0).

Definition bgp_marker_all_one (s : stream) (n : Z) : M bool :=
  b ← rdn (data s) 0 n; Ok (forallb (λ x, x =? 255) b).

(** The types, and the lengths that are refused. *)
Definition known_type (type : Z) : bool :=
  existsb (Z.eqb type) [BGP_MSG_OPEN; BGP_MSG_UPDATE; BGP_MSG_NOTIFY; BGP_MSG_KEEPALIVE; BGP_MSG_ROUTE_REFRESH_NEW;
    BGP_MSG_ROUTE_REFRESH_OLD; BGP_MSG_CAPABILITY].
Definition bad_length (type size : Z) : bool :=
  (size <? BGP_HEADER_SIZE) || (BGP_MAX_PACKET_SIZE <? size)
  || ((type =? BGP_MSG_OPEN) && (size <? BGP_MSG_OPEN_MIN_SIZE))
  || ((type =? BGP_MSG_UPDATE) && (size <? BGP_MSG_UPDATE_MIN_SIZE))
  || ((type =? BGP_MSG_NOTIFY) && (size <? BGP_MSG_NOTIFY_MIN_SIZE))
  || ((type =? BGP_MSG_KEEPALIVE) && negb (size =? BGP_MSG_KEEPALIVE_MIN_SIZE))
  || ((type =? BGP_MSG_ROUTE_REFRESH_NEW) && (size <? BGP_MSG_ROUTE_REFRESH_MIN_SIZE))
  || ((type =? BGP_MSG_ROUTE_REFRESH_OLD) && (size <? BGP_MSG_ROUTE_REFRESH_MIN_SIZE))
  || ((type =? BGP_MSG_CAPABILITY) && (size <? BGP_MSG_CAPABILITY_MIN_SIZE)).

Section read.
Context (e : env).

(** The header: a negative result is [goto done]. *)
Definition read_header (st : session) (sock : Z → io) : M (session * Z) :=
  '(st, ret) ← bgp_read_packet st sock;
  if ret <? 0 then Ok (st, -1) else
  s ← stream_forward_getp (buf st) BGP_MARKER_SIZE;
  notify_data_length ← rdn (data s) (getp s) 2;
  '(s, size) ← stream_getw s;
  '(s, type) ← stream_getc s;
  let st := set_buf st s in
  let send sub data_ := Ok (set_rdr st (Open.bgp_notify_send_with_data e (rdr st) BGP_NOTIFY_HEADER_ERR sub data_), -1) in
  all_one ← (if (type =? BGP_MSG_OPEN) || (type =? BGP_MSG_KEEPALIVE) then bgp_marker_all_one s BGP_MARKER_SIZE else Ok true);
  if negb all_one then send BGP_NOTIFY_HEADER_NOT_SYNC [] else
  if negb (known_type type) then send BGP_NOTIFY_HEADER_BAD_MESTYPE [type] else
  if bad_length type size then send BGP_NOTIFY_HEADER_BAD_MESLEN notify_data_length else
  Ok (on_peer st (λ p, set_packet_size p size), 0).

(** [dispatch st type size] is the function for messages of a type. *)
Context (dispatch : session → Z → Z → M session).

(** From the second call of [bgp_read_packet] to the label [done]. *)
Definition read_body (st : session) (sock : Z → io) : M session :=
  '(st, ret) ← bgp_read_packet st sock;
  if ret <? 0 then Ok st else
  _ ← stream_getw_from (buf st) BGP_MARKER_SIZE;
  type ← stream_getc_from (buf st) (BGP_MARKER_SIZE + 2);
  st ← (s ← rdn (data (buf st)) 0 (endp (buf st)); Ok (set_dumped st (dumped st ++ [s])));
  st ← dispatch st type (packet_size (peer_of st) - BGP_HEADER_SIZE);
  let st := on_peer st (λ p, set_packet_size p 0) in
  s ← stream_reset (buf st);
  Ok (set_buf st s).

(** [error] is the status of the socket, [sock1] and [sock2] what it delivers to
    the two calls. *)
Definition bgp_read (error : option Z) (st : session) (sock1 sock2 : Z → io) : M (session * Z) :=
  let done (st : session) :=
    if CHECK_FLAG (sflags (peer_of st)) PEER_STATUS_ACCEPT_PEER
    then p ← peer_delete e (peer_of st); Ok (on_peer st (λ _, p), 0) else Ok (st, 0) in
  let st := on_peer st (λ p, set_t_read p false) in
  if status (peer_of st) =? Connect then done (on_peer st (λ p, bgp_connect_check p error)) else
  if fd (peer_of st) <? 0 then Ok (st, -1) else
  let st := on_peer st BGP_READ_ON in
  let st := if packet_size (peer_of st) =? 0 then on_peer st (λ p, set_packet_size p BGP_HEADER_SIZE) else st in
  '(st, ret) ← (if endp (buf st) <? BGP_HEADER_SIZE then read_header st sock1 else Ok (st, 0));
  if ret <? 0 then done st else
  st ← read_body st sock2;
  done st.
End read.

(** The functions of bgp_packet.c. *)
Definition receive (e : env) (fuel : nat) (answer : list orf_call → orf_call → bool) (u : update_env) (as_ local_id : Z)
    (lookup : Z → list Z → option nat * bool) (junk : list Z) (st : session) (type size : Z) : M session :=
  if type =? BGP_MSG_OPEN then
    let st := set_open_in st (u32 (open_in st + 1)) in
    '(c, others, _) ← bgp_open_receive e as_ local_id lookup junk (rdr st) (peers st);
    Ok (set_peers (set_rdr st c) others)
  else if type =? BGP_MSG_UPDATE then session_update e u st size
  else if type =? BGP_MSG_NOTIFY then bgp_notify_receive st size
  else if type =? BGP_MSG_KEEPALIVE then Ok (bgp_keepalive_receive st)
  else if (type =? BGP_MSG_ROUTE_REFRESH_NEW) || (type =? BGP_MSG_ROUTE_REFRESH_OLD) then
    bgp_route_refresh_receive e answer (set_refresh_in st (u32 (refresh_in st + 1))) size
  else if type =? BGP_MSG_CAPABILITY then
    r ← bgp_capability_receive e fuel (set_dynamic_cap_in st (u32 (dynamic_cap_in st + 1))) size;
    '(st, _) ← of_opt r; Ok st
  else Ok st.
