(* ===== verification/MessageSpec.v ===== *)
(** [bgp_read] takes the byte stream of a connection apart: whatever pieces the
    socket delivers, the packets processed are the messages of the stream.  Then
    what the functions for ROUTE-REFRESH and CAPABILITY messages do. *)
From S2P Require Import Prelude Prefix Stream StreamRead Hash ASPath Community Ecommunity Tarpan Decision Attr Update Fsm FsmSpec Open OpenSpec Message.
Open Scope Z_scope.

(** ** Messages in a byte stream *)

Notation zlen l := (Z.of_nat (length l)).

(** The fields of a header. *)
Definition size_field (m : list Z) : Z := be_value (take 2 (drop 16 m)).
Definition type_field (m : list Z) : Z := be_value (take 1 (drop 18 m)).

(** A header that is accepted. *)
Definition header_ok (m : list Z) : Prop :=
  BGP_HEADER_SIZE <= zlen m ∧ known_type (type_field m) = true ∧ bad_length (type_field m) (size_field m) = false ∧
  (type_field m = BGP_MSG_OPEN ∨ type_field m = BGP_MSG_KEEPALIVE → take 16 m = replicate 16 255).

(** A whole message, and what may be there of the next one. *)
Definition message (m : list Z) : Prop := header_ok m ∧ zlen m = size_field m.
Definition partial (t : list Z) : Prop := zlen t < BGP_HEADER_SIZE ∨ (header_ok t ∧ zlen t < size_field t).

Lemma bad_length_bounds type n : bad_length type n = false → BGP_HEADER_SIZE <= n <= BGP_MAX_PACKET_SIZE.
Proof. unfold bad_length. rewrite !orb_false_iff. intros ((((((((H1 & H2) & _) & _) & _) & _) & _) & _) & _). apply Z.ltb_ge in H1, H2. lia. Qed.

Lemma header_app m t : BGP_HEADER_SIZE <= zlen m → size_field (m ++ t) = size_field m ∧ type_field (m ++ t) = type_field m.
Proof.
  unfold BGP_HEADER_SIZE, size_field, type_field. intros Hm. rewrite !drop_app_le by lia.
  by rewrite !take_app_le by (rewrite length_drop; lia).
Qed.

(** What can follow the messages: the start of one, or a header that is refused. *)
Definition remainder (t : list Z) : Prop := partial t ∨ (zlen t = BGP_HEADER_SIZE ∧ ¬ header_ok t).

(** Messages and remainder are determined by the bytes. *)
Lemma frames_unique ms1 t1 ms2 t2 : Forall message ms1 → Forall message ms2 → remainder t1 → remainder t2 →
  concat ms1 ++ t1 = concat ms2 ++ t2 → ms1 = ms2 ∧ t1 = t2.
Proof.
  assert (∀ m r t, message m → remainder t → m ++ r ≠ t) as Hno.
  { intros m r t [Hm Hs] Ht <-. pose proof Hm as (Hl & _). destruct (header_app m r Hl) as [Es _]. unfold remainder, partial in Ht.
    rewrite length_app, Es in Ht. destruct Ht as [|[Ht Hno] ]; [lia|]. destruct r; [by rewrite app_nil_r in Hno|]. cbn [length] in Ht. lia. }
  intros H1. revert ms2. induction H1 as [|m1 ms1 Hm1 _ IH]; intros ms2 H2 Ht1 Ht2 E.
  - destruct H2 as [|m2 ms2 Hm2 _]; [done|]. cbn [concat app] in E. rewrite <-app_assoc in E. by destruct (Hno m2 (concat ms2 ++ t2) t1).
  - destruct H2 as [|m2 ms2 Hm2 H2]; cbn [concat] in E; rewrite <-?app_assoc in E; [by destruct (Hno m1 (concat ms1 ++ t1) t2)|].
    pose proof Hm1 as [(L1 & _) S1]. pose proof Hm2 as [(L2 & _) S2].
    assert (zlen m1 = zlen m2) as El.
    { rewrite S1, S2. destruct (header_app m1 (concat ms1 ++ t1) L1) as [<- _]. destruct (header_app m2 (concat ms2 ++ t2) L2) as [<- _]. by rewrite E. }
    apply app_inj_1 in E as [-> E]; [|lia]. destruct (IH ms2 H2 Ht1 Ht2 E) as [-> ->]. done.
Qed.

(** ** The state between two reads *)

(** The buffer holds the start of a message; its position and [packet_size] say
    whether the header was read. *)
Record framed (st : session) : Prop := {
  framed_ok : stream_ok (buf st);
  framed_size : Stream.size (buf st) = BGP_MAX_PACKET_SIZE;
  framed_partial : partial (contents (buf st));
  framed_header : (endp (buf st) < BGP_HEADER_SIZE ∧ getp (buf st) = 0 ∧ (packet_size (peer_of st) = 0 ∨ packet_size (peer_of st) = BGP_HEADER_SIZE)) ∨
    (BGP_HEADER_SIZE <= endp (buf st) ∧ getp (buf st) = BGP_HEADER_SIZE ∧ packet_size (peer_of st) = size_field (contents (buf st)));
  framed_messages : Forall message (dumped st);
  framed_bytes : delivered st = concat (dumped st) ++ contents (buf st);
}.

(** ** Reading a packet *)

(** What [bgp_read_packet] does: it appends what the socket delivers, and returns 0
    exactly when [packet_size] bytes are there. *)
Record packet_read (st st' : session) (ret : Z) : Prop := {
  pr_upd : upd st' = upd st;
  pr_dumped : dumped st' = dumped st;
  pr_notified : notified (rdr st') = notified (rdr st);
  pr_ok : stream_ok (buf st');
  pr_size : Stream.size (buf st') = Stream.size (buf st);
  pr_getp : getp (buf st') = getp (buf st);
  pr_packet_size : packet_size (peer_of st') = packet_size (peer_of st);
  pr_cap : cap (peer_of st') = cap (peer_of st);
  pr_accept : CHECK_FLAG (sflags (peer_of st')) PEER_STATUS_ACCEPT_PEER = CHECK_FLAG (sflags (peer_of st)) PEER_STATUS_ACCEPT_PEER;
  pr_bytes : ∃ b, contents (buf st') = contents (buf st) ++ b ∧ delivered st' = delivered st ++ b;
  pr_ret : (ret = 0 ∧ endp (buf st') = packet_size (peer_of st)) ∨ (ret = -1 ∧ endp (buf st') < packet_size (peer_of st));
}.

Lemma read_try_ok s n r : stream_ok s → 0 <= n <= Stream.size s - endp s → io_ok n r →
  ∃ s' k, stream_read_try s n r = Ok (s', k) ∧ stream_ok s' ∧ Stream.size s' = Stream.size s ∧ getp s' = getp s ∧
    contents s' = contents s ++ take (Z.to_nat k) (io_bytes r) ∧ endp s' = endp s + Z.max 0 k ∧ k <= n ∧
    Z.max 0 k <= zlen (io_bytes r).
Proof.
  intros Hs Hn [Hr Hb]. pose proof Hs as (? & ? & Hl & ? & _). unfold stream_read_try.
  rewrite sane_ok, writeable_ok, (proj2 (Z.ltb_ge _ n)) by (done || lia). cbn [negb].
  rewrite wrn_in_bounds by lia. cbn [mbind M_bind]. set (d := _ ++ _ ++ _).
  assert (stream_ok (set_data s d)) as Hs' by (apply splice_ok; done || lia).
  assert (∀ k, 0 <= k <= zlen (io_bytes r) → take (Z.to_nat (endp s + k)) d = contents s ++ take (Z.to_nat k) (io_bytes r)) as Hd.
  { intros k Hk. subst d. unfold contents. rewrite take_app, length_take, take_ge by (rewrite length_take; lia). f_equal.
    rewrite take_app, (proj2 (Nat.sub_0_le _ (length (io_bytes r)))) by lia. cbn [take]. rewrite app_nil_r. f_equal. lia. }
  destruct (Z.leb_spec 0 (io_ret r)).
  - eexists _, _. split; [done|]. rewrite u64_small by lia. split_and!; try done; cbn [endp set_endp Stream.size set_data]; try lia.
    + apply set_endp_ok; [done|]. cbn [Stream.size set_data getp]. lia.
    + unfold contents at 1. cbn [endp data set_endp set_data]. by rewrite Hd by lia.
  - eexists _, _. split; [done|]. split_and!; try done; cbn [endp set_data]; try (case_match; lia).
    unfold contents at 1. cbn [endp data set_data]. rewrite <-(Z.add_0_r (endp s)), Hd by lia. f_equal. by case_match.
Qed.

Lemma closed_same p fatal :
  packet_size (bgp_read_packet_closed p fatal) = packet_size p ∧ cap (bgp_read_packet_closed p fatal) = cap p ∧
  CHECK_FLAG (sflags (bgp_read_packet_closed p fatal)) PEER_STATUS_ACCEPT_PEER = CHECK_FLAG (sflags p) PEER_STATUS_ACCEPT_PEER.
Proof.
  unfold bgp_read_packet_closed, BGP_EVENT_ADD. repeat case_match; (split; [done|]); (split; [done|]); try done; cbn.
  all: unfold CHECK_FLAG, SET_FLAG; rewrite Z.land_lor_distr_l; by rewrite Z.lor_0_r.
Qed.

(** A socket delivers at most the bytes asked for. *)
Definition socket (sock : Z → io) : Prop := ∀ n, 0 <= n → io_ok n (sock n).

Lemma read_packet_ok st sock : stream_ok (buf st) → endp (buf st) <= packet_size (peer_of st) <= Stream.size (buf st) →
  socket sock → ∃ st' ret, bgp_read_packet st sock = Ok (st', ret) ∧ packet_read st st' ret.
Proof.
  intros Hs He Hr. pose proof Hs as (? & ? & ? & ? & _). unfold bgp_read_packet.
  destruct (Z.eqb_spec (packet_size (peer_of st) - endp (buf st)) 0) as [E|Hne].
  { eexists _, _. split; [done|]. split; try done; [|left; split; [done|lia]]. exists []. by rewrite !app_nil_r. }
  rewrite u64_small by lia. set (r := sock _). assert (io_ok (packet_size (peer_of st) - endp (buf st)) r) as Hio by (apply Hr; lia).
  destruct (read_try_ok (buf st) (packet_size (peer_of st) - endp (buf st)) r Hs ltac:(lia) Hio)
    as (s & k & -> & Hs' & Hz' & Hg' & Hc & Ee & Hk & Hk'). cbn [mbind M_bind].
  set (st1 := set_delivered _ _).
  assert (∀ f ret, packet_size (f (peer_of st)) = packet_size (peer_of st) → cap (f (peer_of st)) = cap (peer_of st) →
    CHECK_FLAG (sflags (f (peer_of st))) PEER_STATUS_ACCEPT_PEER = CHECK_FLAG (sflags (peer_of st)) PEER_STATUS_ACCEPT_PEER →
    (ret = 0 ∧ endp s = packet_size (peer_of st)) ∨ (ret = -1 ∧ endp s < packet_size (peer_of st)) →
    packet_read st (on_peer st1 f) ret) as Hend.
  { intros f ret Hf Hcap Ha Hret. split; try done. by exists (take (Z.to_nat k) (io_bytes r)). }
  destruct (Z.ltb_spec k 0); [case_match|destruct (Z.eqb_spec k 0); [|destruct (Z.eqb_spec (endp s) (packet_size (peer_of st1))) as [E|E]; cbn [negb]]];
    eexists _, _; (split; [done|]).
  - apply (Hend (λ p, p)); try done. right. split; [done|lia].
  - apply Hend; try apply closed_same. right. split; [done|lia].
  - apply Hend; try apply closed_same. right. split; [done|lia].
  - apply (Hend (λ p, p)); try done. by left.
  - apply (Hend (λ p, p)); try done. right. split; [done|]. change (packet_size (peer_of st1)) with (packet_size (peer_of st)) in E. lia.
Qed.

(** ** Reading a header *)

Lemma data_contents s g n : stream_ok s → 0 <= g → g + Z.of_nat n <= endp s →
  take n (drop (Z.to_nat g) (data s)) = take n (drop (Z.to_nat g) (contents s)).
Proof. intros (? & ? & ? & _) Hg Hn. unfold contents. rewrite skipn_firstn_comm, take_take. f_equal. lia. Qed.

Lemma all_one_replicate l : forallb (λ x, x =? 255) l = true → l = replicate (length l) 255.
Proof. induction l as [|x l IH]; [done|]. cbn [forallb length replicate]. intros [Hx%Z.eqb_eq Hl]%andb_true_iff. by rewrite Hx, <-IH. Qed.
Lemma replicate_all_one n : forallb (λ x, x =? 255) (replicate n 255) = true.
Proof. by induction n. Qed.

(** What [read_header] does: the header is not complete, or it is refused with a
    NOTIFICATION, or it is in order. *)
Record header_read (st st' : session) (ret : Z) : Prop := {
  hr_upd : upd st' = upd st;
  hr_dumped : dumped st' = dumped st;
  hr_ok : stream_ok (buf st');
  hr_size : Stream.size (buf st') = Stream.size (buf st);
  hr_cap : ret = 0 → cap (peer_of st') = cap (peer_of st);
  hr_accept : CHECK_FLAG (sflags (peer_of st')) PEER_STATUS_ACCEPT_PEER = CHECK_FLAG (sflags (peer_of st)) PEER_STATUS_ACCEPT_PEER;
  hr_bytes : ∃ b, contents (buf st') = contents (buf st) ++ b ∧ delivered st' = delivered st ++ b;
  hr_ret :
    (ret = -1 ∧ endp (buf st') < BGP_HEADER_SIZE ∧ getp (buf st') = 0 ∧ packet_size (peer_of st') = BGP_HEADER_SIZE ∧
      notified (rdr st') = notified (rdr st)) ∨
    (ret = -1 ∧ endp (buf st') = BGP_HEADER_SIZE ∧ ¬ header_ok (contents (buf st')) ∧
      ∃ n, ncode n = BGP_NOTIFY_HEADER_ERR ∧ notified (rdr st') = notified (rdr st) ++ [n]) ∨
    (ret = 0 ∧ endp (buf st') = BGP_HEADER_SIZE ∧ getp (buf st') = BGP_HEADER_SIZE ∧ header_ok (contents (buf st')) ∧
      packet_size (peer_of st') = size_field (contents (buf st')) ∧ notified (rdr st') = notified (rdr st));
}.

(** The fields of a complete header. *)
Lemma header_fields s : stream_ok s → getp s = 0 → endp s = BGP_HEADER_SIZE →
  stream_forward_getp s BGP_MARKER_SIZE = Ok (set_getp s 16) ∧ (∃ b, rdn (data s) 16 2 = Ok b) ∧
  stream_getw (set_getp s 16) = Ok (set_getp s 18, size_field (contents s)) ∧
  stream_getc (set_getp s 18) = Ok (set_getp s BGP_HEADER_SIZE, type_field (contents s)) ∧
  bgp_marker_all_one (set_getp s BGP_HEADER_SIZE) BGP_MARKER_SIZE = Ok (forallb (λ x, x =? 255) (take 16 (contents s))).
Proof.
  unfold BGP_HEADER_SIZE, BGP_MARKER_SIZE. intros Hs Hg He. pose proof Hs as (? & ? & ? & ? & _).
  assert (∀ g, 0 <= g <= 19 → stream_ok (set_getp s g)) as Hsg by (intros; apply set_getp_ok; [done|lia]).
  split; [rewrite forward_ok, Hg by (done || lia); done|]. split; [by rewrite rdn_in_bounds by lia; eexists|].
  split; [|split].
  - rewrite getw_ok by (try apply Hsg; at_stream; lia). at_stream. do 3 f_equal. unfold ahead, size_field. at_stream.
    by rewrite (data_contents s 16 2) by (done || lia).
  - rewrite getc_ok by (try apply Hsg; at_stream; lia). at_stream. do 3 f_equal. unfold ahead, type_field. at_stream.
    by rewrite (data_contents s 18 1) by (done || lia).
  - unfold bgp_marker_all_one. cbn [data set_getp]. rewrite rdn_in_bounds by lia. cbn [mbind M_bind].
    by rewrite (data_contents s 0 (Z.to_nat 16)) by (done || lia).
Qed.

Lemma read_header_ok e st sock : stream_ok (buf st) → getp (buf st) = 0 → endp (buf st) < BGP_HEADER_SIZE <= Stream.size (buf st) →
  packet_size (peer_of st) = BGP_HEADER_SIZE → socket sock →
  ∃ st' ret, read_header e st sock = Ok (st', ret) ∧ header_read st st' ret.
Proof.
  intros Hs Hg He Hp Hr. unfold read_header.
  destruct (read_packet_ok st sock Hs) as (st1 & ret & -> & [U D N Hok Sz G P Cp A B R]); [lia|done|]. cbn [mbind M_bind].
  rewrite Hp in R, P. destruct R as [[-> R]|[-> R]]; cbn [Z.ltb Z.compare].
  2: { eexists _, _. split; [done|]. split; try done. left. rewrite G. by split_and!. }
  rewrite Hg in G. destruct (header_fields (buf st1) Hok G R) as (-> & (b & Hb) & Ew & Ec & Em).
  cbn [mbind M_bind data set_getp getp]. change (data (set_getp (buf st1) 16)) with (data (buf st1)). rewrite Hb. cbn [mbind M_bind].
  rewrite Ew. cbn [mbind M_bind]. rewrite Ec. cbn [mbind M_bind].
  set (ty := type_field _) in *. set (sz := size_field _) in *. set (st2 := set_buf st1 _).
  assert (BGP_HEADER_SIZE = zlen (contents (buf st1))) as Lc by (rewrite length_contents; done).
  assert (stream_ok (set_getp (buf st1) BGP_HEADER_SIZE)) as Hs2 by (apply set_getp_ok; [done|unfold BGP_HEADER_SIZE in *; lia]).
  assert (∀ sub d, ¬ header_ok (contents (buf st1)) →
    header_read st (set_rdr st2 (Open.bgp_notify_send_with_data e (rdr st2) BGP_NOTIFY_HEADER_ERR sub d)) (-1)) as Hrefuse.
  { intros sub d Hno. split; try done; [cbn; by rewrite notify_sflags|]. right. left. split; [done|]. split; [exact R|]. split; [exact Hno|].
    eexists. split; [|cbn [rdr set_rdr Open.bgp_notify_send_with_data notified]; cbn; by rewrite N]. done. }
  assert (∃ m : bool, (if (ty =? BGP_MSG_OPEN) || (ty =? BGP_MSG_KEEPALIVE) then bgp_marker_all_one (set_getp (buf st1) BGP_HEADER_SIZE) BGP_MARKER_SIZE else Ok true) = Ok m ∧
    (m = true ↔ (ty = BGP_MSG_OPEN ∨ ty = BGP_MSG_KEEPALIVE → take 16 (contents (buf st1)) = replicate 16 255))) as (m & -> & Hm).
  { destruct ((ty =? BGP_MSG_OPEN) || (ty =? BGP_MSG_KEEPALIVE)) eqn:Ety.
    - eexists. split; [exact Em|]. apply orb_true_iff in Ety. rewrite !Z.eqb_eq in Ety. split; [|intros ->; [apply replicate_all_one|done]].
      intros Hall _. rewrite (all_one_replicate _ Hall) at 1. f_equal. rewrite length_take. unfold BGP_HEADER_SIZE in Lc. lia.
    - eexists. split; [done|]. apply orb_false_iff in Ety. rewrite !Z.eqb_neq in Ety. split; [|done]. intros _ [?|?]; lia. }
  cbn [mbind M_bind]. destruct m; cbn [negb]; [|eexists _, _; split; [done|]; apply Hrefuse; intros (_ & _ & _ & H); by apply Hm in H].
  destruct (known_type ty) eqn:Ek; cbn [negb]; [|eexists _, _; split; [done|]; apply Hrefuse; intros (_ & H & _); fold ty in H; congruence].
  destruct (bad_length ty sz) eqn:Eb; [eexists _, _; split; [done|]; apply Hrefuse; intros (_ & _ & H & _); fold ty sz in H; congruence|].
  eexists _, _. split; [done|]. split; try done. do 2 right. split_and!; try done. split; [by apply Z.eq_le_incl|]. split; [done|]. split; [done|]. by apply Hm.
Qed.

(** ** The function of a message *)

Notation accepting st := (CHECK_FLAG (sflags (peer_of st)) PEER_STATUS_ACCEPT_PEER).

(** How [bgp_read] calls it: the header was read, the message is in the buffer.
    [I] is what the function needs of the state of the UPDATE messages. *)
Record called (I : receiver → Prop) (st : session) (type n : Z) : Prop := {
  called_update : I (upd st);
  called_accept : accepting st = false;
  called_ok : stream_ok (buf st);
  called_getp : getp (buf st) = BGP_HEADER_SIZE;
  called_endp : endp (buf st) = BGP_HEADER_SIZE + n;
  called_length : bad_length type (BGP_HEADER_SIZE + n) = false;
  called_message : message (contents (buf st)) ∧ type = type_field (contents (buf st));
}.

(** What [bgp_read] relies on: the function leaves a valid buffer of the same size,
    and does not make a peer one that only accepts a connection. *)
Record keeping (st st' : session) : Prop := {
  keeping_ok : stream_ok (buf st');
  keeping_size : Stream.size (buf st') = Stream.size (buf st);
  keeping_accept : accepting st' = accepting st;
  keeping_dumped : dumped st' = dumped st;
  keeping_delivered : delivered st' = delivered st;
}.
Class Keeps (I : receiver → Prop) (dispatch : session → Z → Z → M session) : Prop :=
  keeps st type n st' : called I st type n → dispatch st type n = Ok st' → keeping st st'.

Lemma type_at s : stream_ok s → BGP_HEADER_SIZE <= endp s → stream_getc_from s (BGP_MARKER_SIZE + 2) = Ok (type_field (contents s)).
Proof.
  unfold BGP_HEADER_SIZE, BGP_MARKER_SIZE. intros Hs He. pose proof Hs as (? & ? & ? & ? & Hb). unfold stream_getc_from, GETP_VALID.
  rewrite sane_ok, u64_small, (proj2 (Z.leb_le _ _)) by (done || lia). rewrite (get_at_ok s 1) by (done || lia).
  rewrite (data_contents s (16 + 2) 1) by (done || lia). f_equal. unfold type_field. apply Z.mod_small.
  change (drop (Z.to_nat (16 + 2)) (contents s)) with (drop 18 (contents s)).
  assert (length (take 1 (drop 18 (contents s))) = 1%nat) as L by (rewrite length_take, length_drop; pose proof (length_contents s Hs); lia).
  pose proof (be_value_bound (take 1 (drop 18 (contents s)))) as Hv. rewrite L in Hv. apply Hv.
  by apply Forall_take, Forall_drop, Forall_take.
Qed.

Lemma size_at s : stream_ok s → BGP_HEADER_SIZE <= endp s → ∃ v, stream_getw_from s BGP_MARKER_SIZE = Ok v.
Proof.
  unfold BGP_HEADER_SIZE, BGP_MARKER_SIZE. intros Hs He. pose proof Hs as (? & ? & ? & ? & Hb). unfold stream_getw_from, GETP_VALID.
  rewrite sane_ok, u64_small, (proj2 (Z.leb_le _ _)) by (done || lia). rewrite (get_at_ok s 2) by (done || lia). by eexists.
Qed.

Section reading.
Context (e : env) (I : receiver → Prop) (dispatch : session → Z → Z → M session) `{!Keeps I dispatch}.

(** After the function of a message. *)
Notation finish st := (let st' := on_peer st (λ p, set_packet_size p 0) in s ← stream_reset (buf st'); Ok (set_buf st' s)).

(** With a header read: the message is not complete yet, or its function runs. *)
Lemma read_body_steps st sock : stream_ok (buf st) → Stream.size (buf st) = BGP_MAX_PACKET_SIZE → getp (buf st) = BGP_HEADER_SIZE →
  header_ok (contents (buf st)) → packet_size (peer_of st) = size_field (contents (buf st)) → endp (buf st) <= packet_size (peer_of st) →
  Forall message (dumped st) → delivered st = concat (dumped st) ++ contents (buf st) → I (upd st) → accepting st = false → socket sock →
  (∃ st1, read_body dispatch st sock = Ok st1 ∧ framed st1 ∧ accepting st1 = false) ∨
  (∃ st2 type n, read_body dispatch st sock = (st3 ← dispatch st2 type n; finish st3) ∧ called I st2 type n ∧ cap (peer_of st2) = cap (peer_of st) ∧
    ∀ st3, dispatch st2 type n = Ok st3 → ∃ st', finish st3 = Ok st' ∧ framed st' ∧ accepting st' = false).
Proof.
  intros Hs Hz Hg Hh Hp He Hd Hb HI Hacc Hsock. pose proof Hh as (Hl & _ & Hbad & _). apply bad_length_bounds in Hbad. unfold read_body.
  destruct (read_packet_ok st sock Hs) as (st1 & ret & -> & [U D N Hok Sz G P Cp A (b & Ec & Edl) R]); [lia|done|]. cbn [mbind M_bind].
  destruct (header_app (contents (buf st)) b Hl) as [Es Et]. rewrite <-Ec in Es, Et.
  assert (header_ok (contents (buf st1))) as Hh1.
  { destruct Hh as (_ & H1 & H2 & H3). split; [rewrite Ec, length_app; lia|]. rewrite Es, Et. split; [done|]. split; [done|].
    intros H. rewrite Ec, take_app_le by (unfold BGP_HEADER_SIZE in Hl; lia). by apply H3. }
  pose proof (length_contents _ Hok) as Lc. assert (delivered st1 = concat (dumped st1) ++ contents (buf st1)) as Hb1.
  { by rewrite Edl, Hb, D, Ec, app_assoc. }
  pose proof Hh1 as (Hl1 & _).
  destruct R as [[-> R]|[-> R]]; cbn [Z.ltb Z.compare].
  2: { left. exists st1. split; [done|]. split; [|by rewrite A]. split; [done|by rewrite Sz|right; split; [done|lia]| |by rewrite D|done].
    right. split; [lia|split; [by rewrite G|by rewrite P, Es]]. }
  right. destruct (size_at (buf st1) Hok ltac:(lia)) as [v ->]. cbn [mbind M_bind]. rewrite type_at by (done || lia). cbn [mbind M_bind].
  assert (rdn (data (buf st1)) 0 (endp (buf st1)) = Ok (contents (buf st1))) as -> by (pose proof Hok as (? & ? & ? & _); by rewrite rdn_in_bounds by lia).
  cbn [mbind M_bind]. eexists _, _, _. split; [done|]. set (st2 := set_dumped _ _).
  change (peer_of st2) with (peer_of st1). rewrite P, Hp, <-Es. rewrite Hp, <-Es in R.
  set (ty := type_field (contents (buf st1))). set (n := size_field (contents (buf st1)) - BGP_HEADER_SIZE).
  assert (called I st2 ty n) as Hcall.
  { split; change (buf st2) with (buf st1); try done; [by cbn; rewrite U|by cbn; rewrite A|congruence|lia| |split; [split; [done|lia]|done] ].
    replace (_ + _) with (size_field (contents (buf st1))) by lia. apply Hh1. }
  split; [done|]. split; [exact Cp|]. intros st3 Edis. destruct (keeps st2 ty n st3 Hcall Edis) as [Hok3 Hz3 Ha3 Hd3 Hdl3].
  unfold stream_reset. rewrite sane_ok by done. cbn [mbind M_bind]. eexists. split; [done|]. split; [|cbn in *; congruence]. split.
  - destruct Hok3 as (? & ? & ? & ? & ?). split_and!; cbn; (done || lia).
  - cbn. by rewrite Hz3, <-Hz, <-Sz.
  - left. reflexivity.
  - left. split; [reflexivity|]. split; [done|]. by left.
  - cbn. rewrite Hd3. apply Forall_app. split; [by cbn; rewrite D|]. apply Forall_singleton. split; [done|]. lia.
  - cbn. rewrite Hdl3, Hd3. cbn. rewrite concat_app, Hb1. cbn. by rewrite !app_nil_r.
Qed.

(** The buffer holds a header that was refused; the event of the NOTIFICATION ends
    the connection before the next read. *)
Definition refused_header (st : session) : Prop := endp (buf st) = BGP_HEADER_SIZE ∧ ¬ header_ok (contents (buf st)).

(** [framed], but the header may have been refused. *)
Record split_up (st : session) : Prop := {
  split_messages : Forall message (dumped st);
  split_bytes : delivered st = concat (dumped st) ++ contents (buf st);
  split_ok : stream_ok (buf st);
  split_rest : framed st ∨ refused_header st;
}.

(** What a connection needs for a read. *)
Record readable (st : session) : Prop := {
  rd_update : I (upd st);
  rd_status : status (peer_of st) ≠ Connect;
  rd_fd : 0 <= fd (peer_of st);
  rd_accept : accepting st = false;
}.

Lemma framed_split st : framed st → split_up st.
Proof. intros H. destruct H as [A B C D E F]. split; [done..|]. left. by split. Qed.

(** The flags of [BGP_READ_ON] and the first size. *)
Lemma read_start st : framed st →
  let st1 := on_peer (on_peer st (λ p, set_t_read p false)) BGP_READ_ON in
  let st2 := if packet_size (peer_of st1) =? 0 then on_peer st1 (λ p, set_packet_size p BGP_HEADER_SIZE) else st1 in
  framed st2 ∧ buf st2 = buf st ∧ upd st2 = upd st ∧ cap (peer_of st2) = cap (peer_of st) ∧ accepting st2 = accepting st ∧
  (endp (buf st) < BGP_HEADER_SIZE → packet_size (peer_of st2) = BGP_HEADER_SIZE) ∧
  (BGP_HEADER_SIZE <= endp (buf st) → packet_size (peer_of st2) = size_field (contents (buf st))).
Proof.
  intros [A B C D E F] st1 st2.
  assert (packet_size (peer_of st1) = packet_size (peer_of st) ∧ cap (peer_of st1) = cap (peer_of st) ∧ accepting st1 = accepting st) as (P1 & C1 & A1)
    by (subst st1; cbn; unfold BGP_READ_ON; by case_match).
  assert (∀ x, packet_size (peer_of (if packet_size (peer_of st1) =? 0 then on_peer st1 (λ p, set_packet_size p x) else st1))
    = if packet_size (peer_of st) =? 0 then x else packet_size (peer_of st)) as P2 by (intros x; rewrite P1; by case_match).
  specialize (P2 BGP_HEADER_SIZE). fold st2 in P2.
  assert (buf st2 = buf st ∧ upd st2 = upd st ∧ cap (peer_of st2) = cap (peer_of st) ∧ accepting st2 = accepting st ∧ dumped st2 = dumped st ∧ delivered st2 = delivered st)
    as (Eb & Eu & Ecap & Ea & Ed & Edl) by (subst st2; case_match; done).
  assert (endp (buf st) < BGP_HEADER_SIZE → packet_size (peer_of st2) = BGP_HEADER_SIZE) as Hlow.
  { intros Hlt. rewrite P2. destruct D as [(_ & _ & [-> | ->])|(H & _)]; [done|done|lia]. }
  assert (BGP_HEADER_SIZE <= endp (buf st) → packet_size (peer_of st2) = size_field (contents (buf st))) as Hhigh.
  { intros Hge. rewrite P2. destruct D as [(H & _)|(_ & _ & ->)]; [lia|]. destruct C as [C|[(_ & _ & Hb & _) _]]; [rewrite length_contents in C by done; lia|].
    apply bad_length_bounds in Hb. rewrite (proj2 (Z.eqb_neq _ _)); [done|]. unfold BGP_HEADER_SIZE in Hb. lia. }
  split_and!; try done. split; rewrite ?Eb, ?Ed, ?Edl; try done.
  destruct D as [(H1 & H2 & _)|(H1 & H2 & _)]; [left|right]; auto.
Qed.

(** One call: it returns, unless the function of a message does not. *)
Lemma bgp_read_splits error st sock1 sock2 : framed st → readable st → socket sock1 → socket sock2 →
  (∃ st', bgp_read e dispatch error st sock1 sock2 = Ok (st', 0) ∧ split_up st') ∨
  (∃ st2 type n f, called I st2 type n ∧ cap (peer_of st2) = cap (peer_of st) ∧ dispatch st2 type n = Fault f ∧
    bgp_read e dispatch error st sock1 sock2 = Fault f).
Proof.
  intros Hf [HI Hst Hfd Hacc] H1 H2. unfold bgp_read. destruct (read_start st Hf) as (Hf2 & Eb & Eu & Ecap & Ea & Plow & Phigh).
  set (st1 := on_peer _ BGP_READ_ON) in *. cbn [on_peer set_rdr rdr set_pr pr status set_t_read fd].
  change (status (set_t_read (peer_of st) false)) with (status (peer_of st)). change (fd (set_t_read (peer_of st) false)) with (fd (peer_of st)).
  rewrite (proj2 (Z.eqb_neq _ _) Hst), (proj2 (Z.ltb_ge _ _) Hfd). set (st2 := if _ =? 0 then _ else st1) in *.
  rewrite Eb. pose proof Hf2 as [Fo Fz Fp Fh Fm Fb]. rewrite Eb in Fo, Fz, Fp, Fh, Fb.
  assert (∀ st3, stream_ok (buf st3) → Stream.size (buf st3) = BGP_MAX_PACKET_SIZE → getp (buf st3) = BGP_HEADER_SIZE → header_ok (contents (buf st3)) →
    packet_size (peer_of st3) = size_field (contents (buf st3)) → endp (buf st3) <= packet_size (peer_of st3) →
    Forall message (dumped st3) → delivered st3 = concat (dumped st3) ++ contents (buf st3) → I (upd st3) → accepting st3 = false → cap (peer_of st3) = cap (peer_of st) →
    let m := (st ← read_body dispatch st3 sock2; if accepting st then p ← peer_delete e (peer_of st); Ok (on_peer st (λ _, p), 0) else Ok (st, 0)) in
    (∃ st', m = Ok (st', 0) ∧ split_up st') ∨ (∃ st4 type n f, called I st4 type n ∧ cap (peer_of st4) = cap (peer_of st) ∧ dispatch st4 type n = Fault f ∧ m = Fault f)) as Hbody.
  { intros st3 B1 B2 B3 B4 B5 B6 B7 B8 B9 B10 B11 m. subst m.
    destruct (read_body_steps st3 sock2 B1 B2 B3 B4 B5 B6 B7 B8 B9 B10 H2) as [(st4 & -> & Hf4 & Ha4)|(st4 & ty & n & -> & Hcall & Hcap & Hdis)]; cbn [mbind M_bind].
    - left. rewrite Ha4. eexists. split; [done|]. by apply framed_split.
    - destruct (dispatch st4 ty n) as [st5|f] eqn:Ed; [|right; eexists _, _, _, _; split; [done|]; split; [congruence|done] ]. left. cbn [mbind M_bind].
      destruct (Hdis st5 eq_refl) as (st6 & E6 & Hf6 & Ha6). cbv zeta in E6. rewrite E6. cbn [mbind M_bind]. rewrite Ha6. eexists. split; [done|]. by apply framed_split. }
  destruct (Z.ltb_spec (endp (buf st)) BGP_HEADER_SIZE) as [Hlt|Hge].
  - destruct (read_header_ok e st2 sock1) as (st3 & ret3 & -> & [U D Hok Sz Cp A (b & Ec & Edl) R]); rewrite ?Eb; auto.
    { destruct Fh as [(_ & ? & _)|(? & _)]; [done|lia]. } { rewrite Fz. unfold BGP_HEADER_SIZE, BGP_MAX_PACKET_SIZE in *. lia. }
    cbn [mbind M_bind]. rewrite Eb in Ec. assert (accepting st3 = false) as A3 by (rewrite A, Ea; exact Hacc).
    assert (delivered st3 = concat (dumped st3) ++ contents (buf st3)) as Hd3 by (by rewrite Edl, Fb, D, Ec, app_assoc).
    destruct R as [(-> & R1 & R2 & R3 & _)|[(-> & R1 & R2 & _)|(-> & R1 & R2 & R3 & R4 & _)]]; cbn [Z.ltb Z.compare].
    + left. rewrite A3. eexists. split; [done|]. apply framed_split.
      split; try done; [by rewrite Sz, Eb|left; by rewrite length_contents|left; auto|by rewrite D].
    + left. rewrite A3. eexists. split; [done|]. split; [by rewrite D|done|done|by right].
    + apply Hbody; try done; [by rewrite Sz, Eb| |by rewrite D|by rewrite U, Eu|by rewrite Cp by done].
      pose proof R3 as (_ & _ & Hb & _). apply bad_length_bounds in Hb. rewrite R4. lia.
  - cbn [mbind M_bind Z.ltb Z.compare]. destruct Fh as [(? & _)|(_ & G & P)]; [lia|].
    destruct Fp as [Fp|[Fh Fp]]; [rewrite length_contents in Fp by done; lia|]. rewrite length_contents in Fp by done.
    apply Hbody; rewrite ?Eb, ?Eu, ?Ea; try done. rewrite P. lia.
Qed.

(** ** A connection *)

(** A new connection, and the states it comes through: reads, and whatever else
    happens to the peer without touching its buffer, until a header is refused. *)
Record fresh (st : session) : Prop := {
  fresh_ok : stream_ok (buf st);
  fresh_size : Stream.size (buf st) = BGP_MAX_PACKET_SIZE;
  fresh_empty : endp (buf st) = 0;
  fresh_start : packet_size (peer_of st) = 0 ∧ dumped st = [] ∧ delivered st = [];
}.
Inductive reached (start : session) : session → Prop :=
  | reached_start : reached start start
  | reached_read st error sock1 sock2 st' ret : reached start st → ¬ refused_header st → readable st →
      socket sock1 → socket sock2 → bgp_read e dispatch error st sock1 sock2 = Ok (st', ret) → reached start st'
  | reached_other st st' : reached start st → ¬ refused_header st → buf st' = buf st → packet_size (peer_of st') = packet_size (peer_of st) →
      dumped st' = dumped st → delivered st' = delivered st → reached start st'.

Lemma fresh_framed st : fresh st → framed st.
Proof.
  intros [Hs Hz He (Hp & Hd & Hb)]. assert (contents (buf st) = []) as Ec by (unfold contents; by rewrite He).
  split; rewrite ?Ec, ?Hd; try done; [by left|]. left. rewrite He. split; [done|]. split; [destruct Hs; lia|by left].
Qed.

Lemma reached_split start st : fresh start → reached start st → split_up st.
Proof.
  intros Hf Hr. induction Hr as [|st error sock1 sock2 st' ret Hr IH Hno Hrd H1 H2 E|st st' Hr IH Hno Eb Ep Ed Edl].
  - by apply framed_split, fresh_framed.
  - destruct (split_rest _ IH) as [Hfr|?]; [|done].
    destruct (bgp_read_splits error st sock1 sock2 Hfr Hrd H1 H2) as [(st1 & E1 & Hs)|(st2 & ty & n & f & _ & _ & _ & E1)]; rewrite E1 in E; [|done].
    injection E as <- _. done.
  - destruct (split_rest _ IH) as [[A B C D F G]|?]; [|done]. apply framed_split. split; rewrite ?Eb, ?Ep, ?Ed, ?Edl; done.
Qed.

Lemma split_remainder st : split_up st → remainder (contents (buf st)).
Proof. intros [_ _ Hs [[]|[He Hh]]]; [by left|right]. by rewrite length_contents. Qed.

(** The packets processed, and what is left over, depend on the bytes only. *)
Lemma reached_unique start start' st st' : fresh start → fresh start' → reached start st → reached start' st' →
  delivered st = delivered st' → dumped st = dumped st' ∧ contents (buf st) = contents (buf st').
Proof.
  intros Hf Hf' Hr Hr' E. pose proof (reached_split _ _ Hf Hr) as H. pose proof (reached_split _ _ Hf' Hr') as H'.
  pose proof H as [M1 B1 _ _]. pose proof H' as [M2 B2 _ _]. apply frames_unique; try done; try by apply split_remainder. by rewrite <-B1, <-B2.
Qed.
End reading.
