(* ===== verification/MessageReceive.v ===== *)
(** The functions of the messages, called by [bgp_read]: none of them leaves its
    message, and each leaves the buffer as [bgp_read] needs it.  So [bgp_read] with
    these functions takes the byte stream of a connection apart as MessageSpec.v
    says. *)
From S2P Require Import Prelude Prefix Stream StreamRead Hash ASPath Community Ecommunity Tarpan Decision Attr AttrSpec Update UpdateSpec Fsm FsmSpec Open OpenSpec Message MessageSpec.
Open Scope Z_scope.

(** ** ROUTE-REFRESH *)

(** The number of address bits of a family. *)
Definition bits_of (afi_ : Z) : Z := if afi_ =? AFI_IP then 32 else 128.

(** A call for the prefix list of the family [k], with a prefix that belongs
    there. *)
Definition orf_proper (k : Z * Z) (c : orf_call) : Prop :=
  match c with
  | prefix_bgp_orf_set k' orfp _ _ =>
      k' = k ∧ 0 <= orf_seq orfp < 2 ^ 32 ∧ is_byte (orf_ge orfp) ∧ is_byte (orf_le orfp) ∧
      family (orf_p orfp) = afi2family (fst k) ∧ 0 <= prefixlen (orf_p orfp) <= bits_of (fst k) ∧
      length (u (orf_p orfp)) = 16%nat ∧ bytes_ok (u (orf_p orfp))
  | prefix_bgp_orf_remove_all k' | prefix_list_lookup k' => k' = k
  end.

Lemma rd_byte d i : bytes_ok d → 0 <= i < zlen d → ∃ b, rd d i = Ok b ∧ is_byte b.
Proof.
  intros Hd Hi. destruct (rd_in_bounds d i Hi) as [b Eb]. exists b. split; [done|]. apply rd_inv in Eb as [_ Eb]. by eapply (Forall_lookup_1 _ d).
Qed.

Lemma orf_byte_ok d p_pnt p_end : bytes_ok d → 0 <= p_pnt <= p_end → p_end <= zlen d →
  ∃ b g ok, orf_byte d p_pnt p_end = Ok (b, g, ok) ∧ is_byte b ∧ p_pnt <= g <= p_end.
Proof.
  intros Hd Hp He. unfold orf_byte. destruct (Z.ltb_spec p_pnt p_end).
  - destruct (rd_byte d p_pnt Hd ltac:(lia)) as (b & -> & Hb). cbn [mbind M_bind]. eexists _, _, _. split; [done|]. split; [done|lia].
  - eexists _, _, _. split; [done|]. split; [done|lia].
Qed.

(** What is read of an entry. *)
Lemma orf_entry_read d k p_pnt p_end : bytes_ok d → fst k = AFI_IP ∨ fst k = AFI_IP6 → 0 <= p_pnt <= p_end → p_end <= zlen d →
  ∃ orfp g ok, orf_entry d (fst k) p_pnt p_end = Ok (orfp, g, ok) ∧ p_pnt <= g <= p_end ∧
    (ok = true → ∀ permit set_, orf_proper k (prefix_bgp_orf_set k orfp permit set_)).
Proof.
  intros Hd Hk Hp He. unfold orf_entry.
  assert (∃ seq g, (if 4 <=? p_end - p_pnt then b ← rdn d p_pnt 4; Ok (be_value b, p_pnt + 4) else Ok (0, p_end)) = Ok (seq, g) ∧
    0 <= seq < 2 ^ 32 ∧ p_pnt <= g <= p_end) as (seq & g1 & -> & Hseq & Hg1).
  { destruct (Z.leb_spec 4 (p_end - p_pnt)); [|eexists _, _; split; [done|]; lia]. rewrite rdn_in_bounds by lia. cbn [mbind M_bind].
    eexists _, _. split; [done|]. split; [|lia]. set (b := take _ _).
    assert (length b = 4%nat) as Lb by (subst b; rewrite length_take, length_drop; lia).
    pose proof (be_value_bound b) as Hb. rewrite Lb in Hb. apply Hb. by apply Forall_take, Forall_drop. }
  cbn [mbind M_bind]. destruct (orf_byte_ok d g1 p_end Hd) as (ge & g2 & o2 & -> & Hge & Hg2); [lia..|]. cbn [mbind M_bind].
  destruct (orf_byte_ok d g2 p_end Hd) as (le & g3 & o3 & -> & Hle & Hg3); [lia..|]. cbn [mbind M_bind].
  destruct (orf_byte_ok d g3 p_end Hd) as (pl & g4 & o4 & -> & Hpl & Hg4); [lia..|]. cbn [mbind M_bind].
  set (blen := prefix_blen _). assert (8 * blen = bits_of (fst k) ∧ 0 <= blen <= 16) as [Hbits Hblen]
    by (subst blen; destruct Hk as [-> | ->]; vm_compute; by split_and!).
  assert (0 <= PSIZE pl ∧ pl <= 8 * PSIZE pl) as Hps by (unfold PSIZE; destruct Hpl; split; [apply Z.div_pos; lia|]; pose proof (Z.mod_pos_bound (pl + 7) 8); pose proof (Z.div_mod (pl + 7) 8); lia).
  set (q := if blen <? PSIZE pl then (blen, false) else (PSIZE pl, o4)).
  assert (0 <= fst q <= blen ∧ (snd q = true → pl <= bits_of (fst k))) as [Hq Hq'].
  { subst q. destruct (Z.ltb_spec blen (PSIZE pl)); cbn [fst snd]; (split; [lia|done || lia]). }
  destruct q as [ps ok]. cbn [fst snd] in Hq, Hq'. set (q := if p_end - g4 <? ps then (p_end - g4, false) else (ps, ok)).
  assert (0 <= fst q <= blen ∧ g4 + fst q <= p_end ∧ (snd q = true → pl <= bits_of (fst k))) as (H1 & H2 & H3).
  { subst q. destruct (Z.ltb_spec (p_end - g4) ps); cbn [fst snd]; (split; [lia|]); (split; [lia|done]). }
  destruct q as [ps' ok']. cbn [fst snd] in H1, H2, H3.
  assert (∃ w, (if 0 <? ps' then b ← rdn d g4 ps'; wrn (Attr.zeros 16) 0 b else Ok (Attr.zeros 16)) = Ok w ∧ length w = 16%nat ∧ bytes_ok w) as (w & -> & Lw & Hw).
  { destruct (0 <? ps'); [|eexists; split; [done|]; split; [done|by apply Forall_replicate] ]. rewrite rdn_in_bounds by lia. cbn [mbind M_bind].
    rewrite wrn_in_bounds by (rewrite length_take, length_drop; cbn; lia). eexists. split; [done|].
    split; [rewrite !length_app, length_take, !length_drop, length_take, length_drop; cbn [length Attr.zeros replicate]; lia|].
    apply Forall_app; split; [by apply Forall_take, Forall_replicate|]. apply Forall_app; split; [by apply Forall_take, Forall_drop|by apply Forall_drop, Forall_replicate]. }
  cbn [mbind M_bind]. eexists _, _, _. split; [done|]. split; [lia|]. intros Ho permit set_. cbn. destruct Hpl. split_and!; try done; try lia.
  specialize (H3 Ho). lia.
Qed.

(** Calls were added, nothing else changed. *)
Definition orf_ran (k : Z * Z) (st st' : session) : Prop := ∃ l, st' = set_orf_calls st (orf_calls st ++ l) ∧ Forall (orf_proper k) l.

Lemma orf_ran_refl k st : orf_ran k st st.
Proof. exists []. rewrite app_nil_r. split; [by destruct st|done]. Qed.
Lemma orf_ran_trans k st1 st2 st3 : orf_ran k st1 st2 → orf_ran k st2 st3 → orf_ran k st1 st3.
Proof. intros (l & -> & Hl) (l' & -> & Hl'). exists (l ++ l'). split; [cbn; by rewrite app_assoc|]. by apply Forall_app. Qed.
Lemma orf_ran_do answer k st c : orf_proper k c → orf_ran k st (fst (orf_do answer st c)).
Proof. intros Hc. exists [c]. split; [done|by apply Forall_singleton]. Qed.

Section refresh.
Context (e : env) (answer : list orf_call → orf_call → bool).

(** The loop over the entries ends, as each takes a byte. *)
Lemma orf_entries_ok k p_end : fst k = AFI_IP ∨ fst k = AFI_IP6 → ∀ fuel st p_pnt,
  stream_ok (buf st) → 0 <= p_pnt → p_end <= endp (buf st) → p_end - p_pnt <= Z.of_nat fuel →
  ∃ st', orf_entries answer fuel st k p_pnt p_end = Ok st' ∧ orf_ran k st st'.
Proof.
  intros Hk. induction fuel as [|fuel IH]; intros st p_pnt Hs Hp He Hf; cbn [orf_entries];
    (destruct (Z.ltb_spec p_pnt p_end); cbn [negb]; [|eexists; split; [done|apply orf_ran_refl] ]); [lia|].
  pose proof Hs as (? & ? & ? & ? & Hd). destruct (rd_byte (data (buf st)) p_pnt Hd ltac:(lia)) as (common & -> & Hc). cbn [mbind M_bind].
  destruct (negb _); [eexists; split; [done|by apply orf_ran_do]|].
  destruct (orf_entry_read (data (buf st)) k (p_pnt + 1) p_end Hd Hk) as (orfp & g & ok & -> & Hg & Hok); [lia..|]. cbn [mbind M_bind].
  destruct ok; cbn [negb].
  - destruct (orf_do answer st _) as [st1 good] eqn:E.
    assert (orf_ran k st st1) as Hr1 by (change st1 with (fst (st1, good)); rewrite <-E; apply orf_ran_do; by apply Hok).
    assert (buf st1 = buf st) as Eb by (by destruct Hr1 as (l & -> & _)).
    destruct good; cbn [negb]; [|eexists; split; [done|]; eapply orf_ran_trans; [exact Hr1|by apply orf_ran_do] ].
    destruct (IH st1 g) as (st' & -> & Hr2); rewrite ?Eb; (done || lia || idtac). eexists. split; [done|]. by eapply orf_ran_trans.
  - eexists. split; [done|]. by apply orf_ran_do.
Qed.

(** What a ROUTE-REFRESH message may change before the announcement. *)
Definition refreshing (k : Z * Z) (st st' : session) : Prop :=
  ∃ g l, st' = set_orf_calls (set_buf st (set_getp (buf st) g)) (orf_calls st ++ l) ∧ getp (buf st) <= g <= endp (buf st) ∧ Forall (orf_proper k) l.

Lemma refreshing_ok k st st' : stream_ok (buf st) → refreshing k st st' → stream_ok (buf st').
Proof. intros Hs (g & l & -> & Hg & _). apply set_getp_ok; [done|]. destruct Hs; lia. Qed.
Lemma refreshing_trans k st1 st2 st3 : refreshing k st1 st2 → refreshing k st2 st3 → refreshing k st1 st3.
Proof.
  intros (g & l & -> & Hg & Hl) (g' & l' & -> & Hg' & Hl'). exists g', (l ++ l'). cbn in Hg'.
  split; [cbn; by rewrite app_assoc|]. split; [lia|by apply Forall_app].
Qed.
Lemma refreshing_move k st g : getp (buf st) <= g <= endp (buf st) → refreshing k st (set_buf st (set_getp (buf st) g)).
Proof. intros Hg. exists g, []. split; [cbn; rewrite app_nil_r; by destruct st|done]. Qed.
Lemma refreshing_ran k st st' : stream_ok (buf st) → orf_ran k st st' → refreshing k st st'.
Proof.
  intros Hs (l & -> & Hl). exists (getp (buf st)), l. split; [|split; [destruct Hs; lia|done] ].
  destruct st as [[p s n]]. cbn. by destruct s.
Qed.

Lemma orf_parts_ok k end_ : fst k = AFI_IP ∨ fst k = AFI_IP6 → ∀ fuel st,
  stream_ok (buf st) → end_ <= endp (buf st) → end_ - getp (buf st) <= Z.of_nat fuel →
  ∃ st', orf_parts answer fuel st k end_ = Ok st' ∧ refreshing k st st'.
Proof.
  intros Hk. induction fuel as [|fuel IH]; intros st Hs He Hf; cbn [orf_parts];
    (destruct (Z.ltb_spec (getp (buf st) + 2) end_); cbn [negb]; [|eexists; split; [done|apply refreshing_ran; [done|apply orf_ran_refl] ] ]); [lia|].
  pose proof Hs as ([Hg0 _] & _). rewrite getc_ok by (done || lia). cbn [mbind M_bind].
  assert (stream_ok (set_getp (buf st) (getp (buf st) + 1))) as Hs1 by (apply set_getp_ok; [done|lia]).
  rewrite getw_ok by (try done; at_stream; lia). cbn [mbind M_bind]. at_stream. set (ty := be_value (ahead (buf st) 1)). set (len := be_value _).
  assert (0 <= len) as Hlen by (apply be_value_bound, ahead_bytes, Hs1).
  set (s := set_getp (buf st) (getp (buf st) + 1 + 2)). set (st1 := set_buf st s).
  assert (refreshing k st st1) as H1 by (apply refreshing_move; lia).
  assert (getp s = getp (buf st) + 3 ∧ endp s = endp (buf st)) as [Eg Ee] by (subst s; at_stream; split; [lia|done]).
  change (getp (buf st) + 1 + 2) with (getp s). destruct (Z.ltb_spec end_ (getp s + len)); [eexists; split; [reflexivity|exact H1] |]. destruct (_ && (len <? 7)); [eexists; split; [reflexivity|exact H1] |].
  set (m := if _ || _ then _ else _).
  assert (∃ st2, m = Ok st2 ∧ orf_ran k st1 st2) as (st2 & -> & H2).
  { subst m. destruct (_ || _); [|eexists; split; [done|apply orf_ran_refl] ].
    destruct (orf_entries_ok k (getp s + len) Hk (Z.to_nat len) st1 (getp s)) as (st2 & -> & H2).
    { by eapply refreshing_ok. } { lia. } { change (buf st1) with s. lia. } { lia. }
    cbn [mbind M_bind]. eexists. split; [done|]. eapply orf_ran_trans; [exact H2|by apply orf_ran_do]. }
  assert (stream_ok s) as Hss by (by apply (refreshing_ok k st st1)).
  cbn [mbind M_bind]. rewrite forward_ok by (done || lia). cbn [mbind M_bind].
  assert (refreshing k st (set_buf st2 (set_getp s (getp s + len)))) as H3.
  { destruct H2 as (l & -> & Hl). exists (getp s + len), l. split; [by destruct st as [[]]|]. split; [lia|done]. }
  destruct (IH (set_buf st2 (set_getp s (getp s + len)))) as (st' & -> & H4);
    [by eapply refreshing_ok|cbn; lia|cbn; lia|]. eexists. split; [done|]. by eapply refreshing_trans.
Qed.
End refresh.

(** ** What the functions keep *)

Lemma keeping_refl st : stream_ok (buf st) → keeping st st.
Proof. by split. Qed.
Lemma keeping_trans st1 st2 st3 : keeping st1 st2 → keeping st2 st3 → keeping st1 st3.
Proof. intros [] []. split; congruence. Qed.
Lemma keeping_peer st f : stream_ok (buf st) → sflags (f (peer_of st)) = sflags (peer_of st) → keeping st (on_peer st f).
Proof. intros Hs Hf. split; try done. cbn. by rewrite Hf. Qed.
Lemma keeping_alive st c : alive (rdr st) c → keeping st (set_rdr st c).
Proof. intros [Hs Hz Hf]. split; try done. cbn. by rewrite Hf. Qed.
Lemma keeping_notify e st code sub d : stream_ok (buf st) → keeping st (set_rdr st (Open.bgp_notify_send_with_data e (rdr st) code sub d)).
Proof. intros Hs. apply keeping_alive, spoke_alive, spoke_send, Hs. Qed.
Lemma keeping_refreshing k st st' : stream_ok (buf st) → refreshing k st st' → keeping st st'.
Proof. intros Hs Hr. split; [by eapply refreshing_ok|..]; by destruct Hr as (g & l & -> & _). Qed.

Lemma announce_sflags p k : sflags (bgp_announce_route p k) = sflags p.
Proof. unfold bgp_announce_route. by repeat case_match. Qed.

(** What a ROUTE-REFRESH message may lead to: a NOTIFICATION, nothing but changes
    to the prefix list, or these and the announcement of the table. *)
Definition refresh_outcome (st st' : session) : Prop :=
  ∃ k l, orf_calls st' = orf_calls st ++ l ∧ Forall (orf_proper k) l ∧
    ((l = [] ∧ ∃ n, notified (rdr st') = notified (rdr st) ++ [n]) ∨
     (notified (rdr st') = notified (rdr st) ∧ peer_of st' = peer_of st) ∨
     (notified (rdr st') = notified (rdr st) ∧ status (peer_of st) = Established ∧
      peer_of st' = bgp_announce_route (set_af_sflags (peer_of st) (put (af_sflags (peer_of st)) k
        (UNSET_FLAG (af_sflags (peer_of st) k) PEER_STATUS_ORF_WAIT_REFRESH))) k)).

Lemma route_refresh_ok e answer st size : stream_ok (buf st) → 4 <= size → getp (buf st) + size = endp (buf st) →
  ∃ st', bgp_route_refresh_receive e answer st size = Ok st' ∧ keeping st st' ∧ refresh_outcome st st'.
Proof.
  intros Hs Hsz He. pose proof Hs as ([Hg0 _] & _). unfold bgp_route_refresh_receive.
  assert (∀ st1 code sub, refreshing (0, 0) st st1 → orf_calls st1 = orf_calls st →
    ∃ st', Ok (set_rdr st1 (Open.bgp_notify_send_with_data e (rdr st1) code sub [])) = Ok st' ∧ keeping st st' ∧ refresh_outcome st st') as Hno.
  { intros st1 code sub H1 Ec. eexists. split; [done|]. split.
    - eapply keeping_trans; [by eapply keeping_refreshing|]. apply keeping_notify. by eapply refreshing_ok.
    - exists (0, 0), []. split; [by rewrite app_nil_r|]. split; [done|]. left. split; [done|].
      destruct H1 as (g & l & -> & _). by eexists. }
  assert (refreshing (0, 0) st st) as H0 by (apply refreshing_ran; [done|apply orf_ran_refl]).
  destruct (negb (CHECK_FLAG _ _)); [by apply Hno|]. destruct (Z.eqb_spec (status (peer_of st)) Established) as [Hest|]; cbn [negb]; [|by apply Hno].
  assert (∀ d, 0 <= d <= size → stream_ok (set_getp (buf st) (getp (buf st) + d))) as Hsd by (intros; apply set_getp_ok; [done|lia]).
  rewrite getw_ok by (done || lia). cbn [mbind M_bind]. set (af := be_value _).
  rewrite getc_ok by (try (apply Hsd; lia); at_stream; lia). cbn [mbind M_bind]. at_stream. replace (getp (buf st) + 2 + 1) with (getp (buf st) + 3) by lia.
  rewrite getc_ok by (try (apply Hsd; lia); at_stream; lia). cbn [mbind M_bind]. at_stream. replace (getp (buf st) + 3 + 1) with (getp (buf st) + 4) by lia.
  set (saf := be_value (ahead (set_getp (buf st) (getp (buf st) + 3)) 1)). set (st1 := set_buf st _).
  assert (∀ k, refreshing k st st1) as H1 by (intros k; apply refreshing_move; lia).
  destruct (_ || _) eqn:Ebad.
  { eexists. split; [done|]. split; [by eapply (keeping_refreshing (0, 0))|]. exists (0, 0), []. rewrite app_nil_r. do 2 (split; [done|]). right. by left. }
  set (k := (af, _)). assert (fst k = AFI_IP ∨ fst k = AFI_IP6) as Hk.
  { cbn [fst k]. clear -Ebad. destruct (Z.eqb_spec af AFI_IP), (Z.eqb_spec af AFI_IP6); try (by auto); cbn in Ebad; done. }
  assert (∀ st2, refreshing k st st2 → let st3 := on_peer st2 (λ p, bgp_announce_route (set_af_sflags p (put (af_sflags p) k
      (UNSET_FLAG (af_sflags p k) PEER_STATUS_ORF_WAIT_REFRESH))) k) in keeping st st3 ∧ refresh_outcome st st3) as Hyes.
  { intros st2 H2 st3. split.
    - eapply keeping_trans; [by eapply keeping_refreshing|]. apply keeping_peer; [by eapply refreshing_ok|]. by rewrite announce_sflags.
    - destruct H2 as (g & l & -> & _ & Hl). exists k, l. split; [done|]. split; [done|]. by do 2 right. }
  destruct (size =? _); [eexists; split; [done|by apply Hyes]|].
  destruct (Z.ltb_spec (size - (BGP_MSG_ROUTE_REFRESH_MIN_SIZE - BGP_HEADER_SIZE)) 5) as [|H5]; [by apply Hno|].
  unfold BGP_MSG_ROUTE_REFRESH_MIN_SIZE, BGP_HEADER_SIZE in H5.
  rewrite getc_ok by (try (apply Hsd; lia); at_stream; lia). cbn [mbind M_bind]. at_stream. set (st2 := set_buf st1 _).
  assert (refreshing k st st2) as H2 by (eapply refreshing_trans; [apply H1|]; apply (refreshing_move k st1); cbn; lia).
  destruct (orf_parts_ok answer k (getp (buf st) + 4 + 1 + (size - 5)) Hk (Z.to_nat size) st2) as (st3 & -> & H3);
    [by eapply refreshing_ok|cbn; lia|cbn; lia|]. cbn [mbind M_bind]. assert (refreshing k st st3) as H4 by (by eapply refreshing_trans).
  eexists. split; [done|]. case_match; [|by apply Hyes]. split; [by eapply keeping_refreshing|].
  destruct H4 as (g & l & -> & _ & Hl). exists k, l. split; [done|]. split; [done|]. right. by left.
Qed.

(** ** NOTIFICATION, CAPABILITY and UPDATE *)

Lemma getcs_ok n s : stream_ok s → getp s + Z.of_nat n <= endp s → getcs n s = Ok (set_getp s (getp s + Z.of_nat n)).
Proof.
  revert s. induction n as [|n IH]; intros s Hs Hn; cbn [getcs]; [rewrite Z.add_0_r; by destruct s|].
  rewrite getc_ok by (done || lia). cbn [mbind M_bind]. pose proof Hs as ([? ?] & _). rewrite IH; [|apply set_getp_ok; [done|lia]|at_stream; lia].
  at_stream. do 2 f_equal. lia.
Qed.

Lemma event_sflags p ev : sflags (BGP_EVENT_ADD p ev) = sflags p.
Proof. unfold BGP_EVENT_ADD. by case_match. Qed.

Lemma notify_receive_ok st size : stream_ok (buf st) → 2 <= size < 65536 → getp (buf st) + size = endp (buf st) →
  ∃ st', bgp_notify_receive st size = Ok st' ∧ keeping st st'.
Proof.
  intros Hs Hsz He. pose proof Hs as ([Hg0 ?] & ? & ? & ? & _). unfold bgp_notify_receive. rewrite getc_ok by (done || lia). cbn [mbind M_bind].
  assert (stream_ok (set_getp (buf st) (getp (buf st) + 1))) as Hs1 by (apply set_getp_ok; [done|lia]).
  rewrite getc_ok by (try done; at_stream; lia). cbn [mbind M_bind]. at_stream.
  assert (stream_ok (set_getp (buf st) (getp (buf st) + 1 + 1))) as Hs2 by (apply set_getp_ok; [done|lia]).
  unfold u16. rewrite (Z.mod_small (size - 2)) by lia. set (m := if _ =? 0 then _ else _).
  assert (∃ d, m = Ok d) as [d ->] by (subst m; case_match; [by eexists|]; rewrite rdn_in_bounds by (at_stream; lia); by eexists).
  cbn [mbind M_bind]. rewrite getcs_ok by (try done; at_stream; lia). cbn [mbind M_bind]. eexists. split; [done|]. at_stream.
  split; try done.
  - apply set_getp_ok; [done|]. lia.
  - cbn. rewrite event_sflags. repeat case_match; try done; cbn; by apply check_unset_other.
Qed.

Lemma clear_route_sflags p k : sflags (bgp_clear_route p k) = sflags p.
Proof. unfold bgp_clear_route, bgp_clear_node_complete, BGP_EVENT_ADD. by repeat case_match. Qed.

Lemma mp_action_sflags p action k p' : capability_mp_action p action k = Ok p' → sflags p' = sflags p.
Proof.
  unfold capability_mp_action. destruct (action =? _).
  - intros (recv & _ & H)%bind_ok. cbv zeta in H. destruct (afc _ k =? 0); [by injection H as <-|].
    apply bind_ok in H as (nego & _ & H). injection H as <-. by rewrite announce_sflags.
  - intros (recv & _ & H)%bind_ok. apply bind_ok in H as (nego & _ & H). cbv zeta in H. injection H as <-.
    case_match; [by rewrite clear_route_sflags|by rewrite event_sflags].
Qed.

Lemma capability_loop_keeps e end_ fuel : ∀ st pnt st' r, stream_ok (buf st) →
  capability_msg_loop e fuel st pnt end_ = Ok (Some (st', r)) → keeping st st'.
Proof.
  induction fuel as [|fuel IH]; intros st pnt st' r Hs; cbn [capability_msg_loop]; (destruct (negb _); [intros [= <- _]; by apply keeping_refl|]); [done|].
  assert (∀ st1 r1, Ok (Some (set_rdr st (Open.bgp_notify_send_with_data e (rdr st) BGP_NOTIFY_CEASE 0 []), -1)) = Ok (Some (st1, r1)) → keeping st st1) as Hc.
  { intros st1 r1 H. apply Ok_inj in H. simplify_eq. by apply keeping_notify. }
  destruct (end_ <? pnt + 3); [apply Hc|]. intros (action & _ & H)%bind_ok. apply bind_ok in H as (code & _ & H). apply bind_ok in H as (len & _ & H).
  destruct (_ && _); [by eapply Hc|]. destruct (end_ <? pnt + len + 3); [by eapply Hc|]. apply bind_ok in H as (mpc & _ & H).
  destruct (code =? CAPABILITY_CODE_MP); [|by eapply IH]. destruct (CHECK_FLAG _ _); [by eapply IH|].
  destruct (bgp_afi_safi_valid_indices _ _) as [saf|]; [|by eapply IH]. apply bind_ok in H as (p & Hp & H).
  apply mp_action_sflags in Hp. assert (keeping st (on_peer st (λ _, p))) as H1 by (by apply keeping_peer).
  eapply keeping_trans; [exact H1|]. eapply IH; [apply H1|exact H].
Qed.

(** What the UPDATE messages rely on: the handler of the protocol, a local AS number
    of 32 bits, routes that release no Tarpan attribute they were not given, and the
    byte after [attr_flags_values], which is read but not used. *)
Record lawful (w : update_env) : Prop := {
  lawful_handler h : u_handler w = Some h → ReceiveHandler h;
  lawful_local : 0 <= Attr.change_local_as (u_peer w) < 2 ^ 32;
  lawful_answer l c t b : held t b → held (snd (u_answer w l c t)) b;
  lawful_past : ∃ past, u_past w = Ok past;
}.

Section update.
Context (e : env) (w : update_env) (Hw : lawful w).

(** What the UPDATE messages need of the store of Tarpan attributes. *)
Definition update_ready (rc : receiver) : Prop := tarpan_ready (tarpan_store (parser_ rc)) (u_new w) (u_message w).

Lemma session_update_ok st size : update_ready (upd st) → stream_ok (buf st) → size <= 4096 → getp (buf st) + size = endp (buf st) →
  outcome (u_unpack w) (buf st) (session_update e w st size) (keeping st).
Proof.
  intros Hr Hs Hsz He. destruct Hw as [Hh Hl Ha [past Hpast] ]. unfold session_update. rewrite Hpast. set (rc := Receiver _ _ _ _ _).
  change (buf st) with (Attr.ibuf (parser_ rc)) at 1. eapply outcome_bind.
  { apply update_receive_ok; try done. cbn. lia. }
  intros [rc' ret] (Hs' & Hz & _). cbn [outcome]. set (st1 := set_buf _ _). set (c := foldl _ _ _).
  assert (keeping st (set_rdr st1 c)) as H1.
  { assert (∀ l c, stream_ok (Open.ibuf c) → spoke c (foldl (λ c n, Open.bgp_notify_send_with_data e c (code n) (subcode n) (notify_data n)) c l)) as Hf.
    { intros l. induction l as [|n l IH]; intros c0 Hc; cbn [foldl]; [apply spoke_peer with (p := pr c0) in Hc; [|done]; by destruct c0|].
      eapply spoke_trans; [by apply spoke_send|]. by apply IH. }
    apply keeping_trans with st1; [by split|]. apply keeping_alive, spoke_alive, Hf, Hs'. }
  destruct (rearmed rc'); [|exact H1]. eapply keeping_trans; [exact H1|]. apply keeping_peer; [apply H1|].
  destruct (timer_set_shape e (BGP_TIMER_OFF (set_update_time (peer_of (set_rdr st1 c)) (e_clock e)) t_holdtime)) as [ts ->]. done.
Qed.
End update.

(** ** The functions together *)

Lemma lengths type n : bad_length type (BGP_HEADER_SIZE + n) = false →
  0 <= n <= 4077 ∧ (type = BGP_MSG_OPEN → 10 <= n) ∧ (type = BGP_MSG_NOTIFY → 2 <= n) ∧
  (type = BGP_MSG_ROUTE_REFRESH_NEW ∨ type = BGP_MSG_ROUTE_REFRESH_OLD → 4 <= n) ∧ (type = BGP_MSG_CAPABILITY → 3 <= n).
Proof.
  intros H. pose proof (bad_length_bounds _ _ H) as Hb. unfold bad_length in H. rewrite !orb_false_iff in H.
  destruct H as ((((((((_ & _) & Ho) & _) & Hn) & _) & Hr) & Hr') & Hc). unfold BGP_HEADER_SIZE, BGP_MAX_PACKET_SIZE in *. split; [lia|].
  split_and!; [intros ->; apply Z.ltb_ge in Ho|intros ->; apply Z.ltb_ge in Hn|intros [-> | ->]; [apply Z.ltb_ge in Hr|apply Z.ltb_ge in Hr']|
    intros ->; apply Z.ltb_ge in Hc].
  all: unfold BGP_MSG_OPEN_MIN_SIZE, BGP_MSG_NOTIFY_MIN_SIZE, BGP_MSG_ROUTE_REFRESH_MIN_SIZE, BGP_MSG_CAPABILITY_MIN_SIZE in *; lia.
Qed.

Section receive.
Context (e : env) (fuel : nat) (answer : list orf_call → orf_call → bool) (w : update_env) (as_ local_id : Z).
Context (lookup : Z → list Z → option nat * bool) (junk : list Z).
Context (Hw : lawful w).

Notation dispatch := (receive e fuel answer w as_ local_id lookup junk).

(** A CAPABILITY message is refused unless the capability was announced. *)
Notation dynamic st := (CHECK_FLAG (cap (peer_of st)) PEER_CAP_DYNAMIC_ADV).

Lemma receive_cases st type n : called (update_ready w) st type n →
  (type = BGP_MSG_UPDATE ∧ outcome (u_unpack w) (buf st) (dispatch st type n) (keeping st)) ∨
  (∃ st', dispatch st type n = Ok st' ∧ keeping st st') ∨
  (dynamic st = true ∧ ∀ st', dispatch st type n = Ok st' → keeping st st').
Proof.
  intros [Hu Ha Hs Hg He Hb _]. destruct (lengths type n Hb) as (Hn & Ho & Hno & Hrr & _). unfold receive.
  destruct (Z.eqb_spec type BGP_MSG_OPEN) as [Et|_].
  { right. left. set (st1 := set_open_in _ _). destruct (open_receive_ok e as_ local_id lookup junk (rdr st1) (peers st1)) as (c & os & r & -> & Hal & _);
      [exact Hs|specialize (Ho Et); change (rdr st1) with (rdr st); rewrite He, Hg; unfold BGP_HEADER_SIZE, BGP_MAX_PACKET_SIZE in *; lia|exact Ha|].
    cbn [mbind M_bind]. eexists. split; [done|]. destruct Hal as [? ? Hf]. split; try done. cbn. by rewrite Hf. }
  destruct (Z.eqb_spec type BGP_MSG_UPDATE) as [Et|_]; [left; split; [done|]; eapply session_update_ok; (done || lia)|]. right.
  destruct (Z.eqb_spec type BGP_MSG_NOTIFY) as [Et|_]; [left; apply notify_receive_ok; [done|specialize (Hno Et); lia|lia]|].
  destruct (Z.eqb_spec type BGP_MSG_KEEPALIVE) as [_|_].
  { left. eexists. split; [done|]. apply keeping_peer; [done|apply event_sflags]. }
  destruct ((type =? BGP_MSG_ROUTE_REFRESH_NEW) || (type =? BGP_MSG_ROUTE_REFRESH_OLD)) eqn:Et.
  { left. apply orb_true_iff in Et. rewrite !Z.eqb_eq in Et. specialize (Hrr Et). set (st1 := set_refresh_in _ _).
    destruct (route_refresh_ok e answer st1 n) as (st' & -> & [] & _); [done|lia|cbn; lia|]. eexists. split; [done|]. by split. }
  destruct (type =? BGP_MSG_CAPABILITY); [|left; eexists; split; [done|by apply keeping_refl] ].
  set (st1 := set_dynamic_cap_in _ _). assert (∀ st', keeping st1 st' → keeping st st') as H1 by (intros st' []; by split).
  unfold bgp_capability_receive. change (cap (peer_of st1)) with (cap (peer_of st)). destruct (dynamic st); cbn [negb].
  2: { left. cbn [mbind M_bind of_opt]. eexists. split; [done|]. apply H1, keeping_notify, Hs. }
  right. split; [done|]. intros st' H. apply bind_ok in H as (r & Hr & H). destruct (negb (status _ =? _)).
  - apply Ok_inj in Hr. subst r. cbn [of_opt mbind M_bind] in H. apply Ok_inj in H. subst st'. apply H1, keeping_notify, Hs.
  - destruct r as [[st2 r]|]; [|done]. cbn [of_opt mbind M_bind] in H. apply Ok_inj in H. subst st'.
    apply H1. by eapply capability_loop_keeps.
Qed.

#[export] Instance receive_keeps : Keeps (update_ready w) dispatch.
Proof.
  intros st type n st' Hc E. destruct (receive_cases st type n Hc) as [[_ H]|[(st1 & E1 & H)|[_ H]]]; [by rewrite E in H| |by apply H].
  rewrite E in E1. apply Ok_inj in E1. by subst st1.
Qed.

(** [bgp_read] returns, but for an UPDATE with a Tarpan attribute that cannot be
    decoded, if dynamic capabilities were not announced. *)
Lemma receive_returns st type n f : called (update_ready w) st type n → dynamic st = false → dispatch st type n = Fault f →
  f = Aborted ∧ type = BGP_MSG_UPDATE ∧ undecodable (u_unpack w) (buf st).
Proof.
  intros Hc Hd E. destruct (receive_cases st type n Hc) as [[Et H]|[(st1 & E1 & H)|[H _]]]; [|congruence|congruence].
  rewrite E in H. destruct f; [by split_and!|done].
Qed.
End receive.




(** ** Instances *)

(** A connection with an empty buffer, and a socket with some bytes. *)
Definition sample_buffer (l : list Z) : stream := Stream 0 (zlen l) BGP_MAX_PACKET_SIZE (l ++ replicate (4096 - length l) 0).
Definition sample_session (p : Fsm.peer) (s : stream) : session :=
  Session (Reader p s []) (Receiver (ex_state []) [] [] 0 false) (0, 0, []) [] 0 0 0 0 [] [] [].
Definition new_session : session := sample_session (sample_peer OpenConfirm FsmSpec.zeros FsmSpec.zeros) (sample_buffer []).
Definition sample_update : update_env := UpdateEnv ex_peer unpack_example (Some wiser_packet_received_handler) 1 4096 (Ok 0) ex_answer.
Definition pending (l : list Z) (n : Z) : io := Io (zlen (take (Z.to_nat n) l)) (take (Z.to_nat n) l) false.
Definition keepalive : list Z := replicate 16 255 ++ [0; 19; 4].
Notation sample_receive := (receive sample_env 10 (λ _ _, true) sample_update 65001 7 (λ _ _, (None, false)) []).
Definition after (st : session) (l : list Z) : session :=
  match bgp_read sample_env sample_receive None st (pending l) (pending []) with Ok (st', _) => st' | Fault _ => st end.

Lemma sample_lawful : lawful sample_update.
Proof. split; [intros h [= <-]; apply _|split; vm_compute; congruence|done|by exists 0]. Qed.
Lemma pending_socket l : bytes_ok l → socket (pending l).
Proof. intros Hl n Hn. split; cbn; [rewrite length_take; lia|by apply Forall_take]. Qed.
Lemma keepalive_bytes : bytes_ok keepalive.
Proof. by repeat constructor. Qed.
Lemma new_session_fresh : fresh new_session.
Proof. split; [|done..]. split_and!; try (vm_compute; congruence). by apply Forall_replicate. Qed.

(** A call of [bgp_read] that takes the bytes [l] from the socket. *)
Lemma after_reached st l : bytes_ok l → reached sample_env (update_ready sample_update) sample_receive new_session st →
  endp (buf st) <> BGP_HEADER_SIZE → upd st = upd new_session → status (peer_of st) ≠ Connect → 0 <= fd (peer_of st) → accepting st = false →
  match bgp_read sample_env sample_receive None st (pending l) (pending []) with Ok _ => True | Fault _ => False end →
  reached sample_env (update_ready sample_update) sample_receive new_session (after st l).
Proof.
  intros Hl Hr He Hu Hst Hfd Ha Hok. unfold after. destruct (bgp_read _ _ _ _ _ _) as [[st' ret]|] eqn:E; [|done].
  eapply reached_read with (ret := ret); [exact Hr|by intros [? _]| |by apply pending_socket|apply pending_socket; constructor|exact E].
  split; try done. rewrite Hu. apply no_tarpans_ready.
Qed.

(** A KEEPALIVE in one piece and in two. *)
Lemma one_piece : reached sample_env (update_ready sample_update) sample_receive new_session (after new_session keepalive).
Proof. apply after_reached; [exact keepalive_bytes|constructor|done..|exact I]. Qed.
Lemma two_pieces : reached sample_env (update_ready sample_update) sample_receive new_session
  (after (after new_session (take 10 keepalive)) (drop 10 keepalive)).
Proof.
  apply after_reached; [by apply Forall_drop, keepalive_bytes| |vm_compute; (congruence || exact I)..].
  apply after_reached; [by apply Forall_take, keepalive_bytes|constructor|done..|exact I].
Qed.



(** A ROUTE-REFRESH message in an established session. *)
Definition refresh_session (l : list Z) : session :=
  sample_session (set_cap (sample_peer Established (put FsmSpec.zeros (1, 1) 1) FsmSpec.zeros) PEER_CAP_REFRESH_ADV) (sample_buffer l).

Lemma sample_buffer_ok l : bytes_ok l → zlen l <= 4096 → stream_ok (sample_buffer l).
Proof.
  intros Hl Hn. unfold sample_buffer. split_and!; cbn [getp endp Stream.size data]; try (unfold BGP_MAX_PACKET_SIZE in *; lia).
  - rewrite length_app, length_replicate. unfold BGP_MAX_PACKET_SIZE. lia.
  - apply Forall_app. split; [done|by apply Forall_replicate].
Qed.


(** The calls into the prefix lists a message leads to. *)
Notation orf_of l := (match bgp_route_refresh_receive sample_env (λ _ _, true) (refresh_session l) (zlen l) with
  Ok st => Some (orf_calls st, announced (peer_of st)) | Fault _ => None end).
