(* ===== verification/MessageCapability.v ===== *)
(** Whether [bgp_capability_msg_parse] comes to an end: a multiprotocol capability
    that it ignores is not skipped, so the loop stays there for ever; without one it
    takes at most as many rounds as the message has bytes. *)
From S2P Require Import Prelude Prefix Stream StreamRead Hash ASPath Community Ecommunity Tarpan Decision Attr AttrSpec Update UpdateSpec Fsm FsmSpec Open OpenSpec Message MessageSpec MessageReceive.
Open Scope Z_scope.

(** The four bytes of the multiprotocol capability at [pnt], and the byte at [i]. *)
Definition byte_at (d : list Z) (i : Z) : Z := nth (Z.to_nat i) d 0.
Definition mp_at (d : list Z) (pnt : Z) : list Z := take 4 (drop (Z.to_nat (pnt + 3)) d).

(** A capability the loop ignores with [continue]. *)
Definition ignored (p : Fsm.peer) (d : list Z) (pnt : Z) : Prop :=
  byte_at d (pnt + 1) = CAPABILITY_CODE_MP ∧
  (CHECK_FLAG (pflags p) PEER_FLAG_OVERRIDE_CAPABILITY = true ∨
   bgp_afi_safi_valid_indices (be_value (take 2 (mp_at d pnt))) (be_value (drop 3 (mp_at d pnt))) = None).

(** A well-formed capability at [pnt], which is not the last one. *)
Definition well_formed (d : list Z) (pnt end_ : Z) : Prop :=
  pnt + 3 <= end_ ∧ pnt + byte_at d (pnt + 2) + 3 <= end_ ∧
  (byte_at d pnt = CAPABILITY_ACTION_SET ∨ byte_at d pnt = CAPABILITY_ACTION_UNSET).

(** Positions the loop comes to. *)
Inductive walk (d : list Z) (end_ pnt : Z) : Z → Prop :=
  | walk_here : walk d end_ pnt pnt
  | walk_next i : walk d end_ pnt i → well_formed d i end_ → walk d end_ pnt (i + byte_at d (i + 2) + 3).

Lemma walk_cons d end_ pnt i : well_formed d pnt end_ → walk d end_ (pnt + byte_at d (pnt + 2) + 3) i → walk d end_ pnt i.
Proof. intros Hw. induction 1 as [|i _ IH Hi]; [by apply walk_next; [constructor|]|by apply walk_next]. Qed.

Lemma rd_at d i : 0 <= i < zlen d → rd d i = Ok (byte_at d i).
Proof.
  intros Hi. destruct (rd_in_bounds d i Hi) as [b Hb]. rewrite Hb. apply rd_inv in Hb as [_ Hb]. unfold byte_at. by rewrite (nth_lookup_Some _ _ _ _ Hb).
Qed.
Lemma at_byte d i : bytes_ok d → 0 <= i < zlen d → is_byte (byte_at d i).
Proof. intros Hd Hi. destruct (rd_byte d i Hd Hi) as (b & Hb & ?). rewrite rd_at in Hb by done. apply Ok_inj in Hb. by subst. Qed.

(** The action on a family returns and keeps the flags of the peer. *)
Lemma mp_action_ok p action k : k ∈ families →
  ∃ p', capability_mp_action p action k = Ok p' ∧ pflags p' = pflags p.
Proof.
  intros Hk. unfold capability_mp_action. destruct (action =? CAPABILITY_ACTION_SET); rewrite !af_put_ok by done; cbn [mbind M_bind].
  - destruct (afc _ k =? 0); [by eexists|]. rewrite af_put_ok by done. eexists. split; [done|]. unfold bgp_announce_route. by repeat case_match.
  - eexists. split; [done|]. unfold bgp_clear_route, bgp_clear_node_complete, BGP_EVENT_ADD. by repeat case_match.
Qed.

Section loop.
Context (e : env).

(** More fuel changes nothing. *)
Lemma loop_more k end_ fuel : ∀ st pnt x, capability_msg_loop e fuel st pnt end_ = Ok (Some x) →
  capability_msg_loop e (fuel + k) st pnt end_ = Ok (Some x).
Proof.
  induction fuel as [|fuel IH]; intros st pnt x.
  { destruct k; cbn [Nat.add capability_msg_loop]; destruct (negb _); done. }
  cbn [Nat.add capability_msg_loop]. destruct (negb _); [done|]. destruct (end_ <? pnt + 3); [done|].
  destruct (rd _ pnt); [|done]. destruct (rd _ (pnt + 1)); [|done]. destruct (rd _ (pnt + 2)); [|done]. cbn [mbind M_bind].
  destruct (_ && _); [done|]. destruct (end_ <? _); [done|]. destruct (rdn _ _ _); [|done]. cbn [mbind M_bind].
  repeat case_match; try apply IH. destruct (capability_mp_action _ _ _); [apply IH|done].
Qed.

(** At an ignored capability every round leads back to it. *)
Lemma loop_stuck st pnt end_ fuel : stream_ok (buf st) → 0 <= pnt → pnt + 7 <= Stream.size (buf st) →
  well_formed (data (buf st)) pnt end_ → ignored (peer_of st) (data (buf st)) pnt →
  capability_msg_loop e fuel st pnt end_ = Ok None.
Proof.
  intros Hs Hp Hz (H3 & Hl & Ha) [Hc Hi]. pose proof Hs as (? & ? & Hd & ? & _).
  induction fuel as [|fuel IH]; cbn [capability_msg_loop]; rewrite (proj2 (Z.ltb_lt pnt end_)) by lia; cbn [negb]; [done|].
  rewrite (proj2 (Z.ltb_ge _ _)) by lia. rewrite !rd_at by lia. cbn [mbind M_bind]. rewrite (proj2 (Z.ltb_ge _ _)) by lia.
  assert (negb (byte_at (data (buf st)) pnt =? CAPABILITY_ACTION_SET) && negb (byte_at (data (buf st)) pnt =? CAPABILITY_ACTION_UNSET) = false) as ->
    by (by destruct Ha as [-> | ->]).
  rewrite rdn_in_bounds by lia. cbn [mbind M_bind]. rewrite Hc, Z.eqb_refl. change (Z.to_nat 4) with 4%nat. fold (mp_at (data (buf st)) pnt).
  destruct Hi as [-> | ->]; [exact IH|]. by destruct (CHECK_FLAG _ _).
Qed.

(** One round at any other place. *)
Lemma loop_round st pnt end_ : stream_ok (buf st) → 0 <= pnt < end_ → pnt + 7 <= Stream.size (buf st) →
  ¬ (well_formed (data (buf st)) pnt end_ ∧ ignored (peer_of st) (data (buf st)) pnt) →
  (∃ st', ∀ f, capability_msg_loop e (S f) st pnt end_ = Ok (Some (st', -1))) ∨
  (well_formed (data (buf st)) pnt end_ ∧ ∃ st', buf st' = buf st ∧ pflags (peer_of st') = pflags (peer_of st) ∧
    ∀ f, capability_msg_loop e (S f) st pnt end_ = capability_msg_loop e f st' (pnt + byte_at (data (buf st)) (pnt + 2) + 3) end_).
Proof.
  intros Hs Hp Hz Hno. pose proof Hs as (? & ? & Hd & ? & _). cbn [capability_msg_loop]. rewrite (proj2 (Z.ltb_lt pnt end_)) by lia. cbn [negb].
  destruct (Z.ltb_spec end_ (pnt + 3)); [left; by eexists|]. rewrite !rd_at by lia. cbn [mbind M_bind].
  destruct (negb (byte_at (data (buf st)) pnt =? CAPABILITY_ACTION_SET) && negb (byte_at (data (buf st)) pnt =? CAPABILITY_ACTION_UNSET)) eqn:Ea; [left; by eexists|].
  destruct (Z.ltb_spec end_ (pnt + byte_at (data (buf st)) (pnt + 2) + 3)); [left; by eexists|]. right.
  assert (well_formed (data (buf st)) pnt end_) as Hw.
  { split; [lia|]. split; [lia|]. destruct (Z.eqb_spec (byte_at (data (buf st)) pnt) CAPABILITY_ACTION_SET), (Z.eqb_spec (byte_at (data (buf st)) pnt) CAPABILITY_ACTION_UNSET); auto; done. }
  split; [done|]. rewrite rdn_in_bounds by lia. cbn [mbind M_bind]. change (Z.to_nat 4) with 4%nat. fold (mp_at (data (buf st)) pnt).
  destruct (Z.eqb_spec (byte_at (data (buf st)) (pnt + 1)) CAPABILITY_CODE_MP) as [Ec|]; [|by exists st].
  destruct (CHECK_FLAG _ _) eqn:Eo; [destruct Hno; split; [done|]; split; [done|by left]|].
  destruct (bgp_afi_safi_valid_indices _ _) as [saf|] eqn:Ev; [|destruct Hno; split; [done|]; split; [done|by right] ].
  destruct (mp_action_ok (peer_of st) (byte_at (data (buf st)) pnt) _ (valid_family _ _ _ Ev)) as (p' & -> & Hp'). cbn [mbind M_bind].
  by exists (on_peer st (λ _, p')).
Qed.

(** The loop ends within [end_ - pnt] rounds, or comes to an ignored capability and
    never ends. *)
Lemma loop_ends end_ fuel : ∀ st pnt, stream_ok (buf st) → 0 <= pnt → end_ + 4 <= Stream.size (buf st) → end_ - pnt <= Z.of_nat fuel →
  (∃ st' r, capability_msg_loop e fuel st pnt end_ = Ok (Some (st', r)) ∧ (r = 0 ∨ r = -1)) ∨
  (∃ i, walk (data (buf st)) end_ pnt i ∧ well_formed (data (buf st)) i end_ ∧ ignored (peer_of st) (data (buf st)) i ∧
    ∀ f, capability_msg_loop e f st pnt end_ = Ok None).
Proof.
  induction fuel as [|fuel IH]; intros st pnt Hs Hp Hz Hf.
  { left. cbn [capability_msg_loop]. rewrite (proj2 (Z.ltb_ge _ _)) by lia. cbn [negb]. eauto. }
  destruct (Z.ltb_spec pnt end_) as [Hlt|].
  2: { left. cbn [capability_msg_loop]. rewrite (proj2 (Z.ltb_ge _ _)) by lia. cbn [negb]. eauto. }
  pose proof Hs as (? & ? & Hd & ? & Hb).
  assert (Decision (well_formed (data (buf st)) pnt end_ ∧ ignored (peer_of st) (data (buf st)) pnt)) as [[Hw Hi]|Hno]
    by (unfold well_formed, ignored; apply _).
  { right. exists pnt. split; [constructor|]. split; [done|]. split; [done|]. intros f. destruct Hw. by apply loop_stuck; [| |lia|..]. }
  destruct (Z.ltb_spec end_ (pnt + 3)).
  { left. cbn [capability_msg_loop]. rewrite (proj2 (Z.ltb_lt pnt end_)), (proj2 (Z.ltb_lt end_ (pnt + 3))) by lia. cbn [negb]. eauto. }
  destruct (loop_round st pnt end_ Hs) as [[st' E]|(Hw & st' & Eb & Ep & E)]; [lia|lia|done|left; rewrite E; eauto|].
  assert (is_byte (byte_at (data (buf st)) (pnt + 2))) as [? ?] by (apply at_byte; [done|lia]).
  rewrite E. destruct (IH st' (pnt + byte_at (data (buf st)) (pnt + 2) + 3)) as [?|(i & W & F & G & Hn)]; rewrite ?Eb; try done; try lia; [by left|].
  rewrite Eb in W, F, G. right. exists i. split; [by apply walk_cons|]. split; [done|]. split; [unfold ignored in *; by rewrite <-Ep|].
  intros [|f]; [|by rewrite E]. cbn [capability_msg_loop]. by rewrite (proj2 (Z.ltb_lt pnt end_)) by lia.
Qed.
End loop.

(** C37. [bgp_capability_receive] on a message of any content that ends at least four
    bytes before the end of the buffer.  Either it returns after at most as many
    rounds as the message has bytes, or the loop comes to a well-formed
    multiprotocol capability that it ignores, because of override-capability or a
    family it does not know, and no number of rounds is enough. *)
Theorem bgp_capability_receive_ends e st size :
  stream_ok (buf st) → 0 <= size → getp (buf st) + size = endp (buf st) → endp (buf st) + 4 <= Stream.size (buf st) →
  (∃ st' r, ∀ fuel, size <= Z.of_nat fuel → bgp_capability_receive e fuel st size = Ok (Some (st', r))) ∨
  (∃ i, walk (data (buf st)) (endp (buf st)) (getp (buf st)) i ∧ well_formed (data (buf st)) i (endp (buf st)) ∧
    ignored (peer_of st) (data (buf st)) i ∧ ∀ fuel, bgp_capability_receive e fuel st size = Ok None).
Proof.
  intros Hs Hn He Hz. pose proof Hs as (? & _). unfold bgp_capability_receive, bgp_capability_msg_parse. rewrite He.
  destruct (negb (CHECK_FLAG _ _)); [left; by eexists _, _|]. destruct (negb (_ =? _)); [left; by eexists _, _|].
  destruct (loop_ends e (endp (buf st)) (Z.to_nat size) st (getp (buf st))) as [(st' & r & E & _)|(i & ? & ? & ? & ?)]; try done; try lia; [|right; by exists i].
  left. exists st', r. intros fuel Hf. replace fuel with (Z.to_nat size + (fuel - Z.to_nat size))%nat by lia. by apply loop_more.
Qed.

(** ** Instances *)

(** An established session with dynamic capabilities; the message is in the
    buffer. *)
Definition dynamic_session (flags : Z) (l : list Z) : session :=
  sample_session (set_cap (Peer Established Established 7 flags 0 0 0 5 180 60 (sample_conf FsmSpec.zeros) true false (λ _, None) FsmSpec.zeros FsmSpec.zeros
    FsmSpec.zeros FsmSpec.zeros FsmSpec.zeros FsmSpec.zeros [] [] 0 0 0 0 0 0 0 0 0 0 false 0 [] None ∅) PEER_CAP_DYNAMIC_ADV) (sample_buffer l).

(** IPv4 unicast is announced, to a peer with override-capability: the daemon does
    not get out of the loop. *)
Lemma bgp_capability_receive_ends_witness :
  well_formed [0; 1; 4; 0; 1; 0; 1] 0 7 ∧
  ∀ fuel, bgp_capability_receive sample_env fuel (dynamic_session PEER_FLAG_OVERRIDE_CAPABILITY [0; 1; 4; 0; 1; 0; 1]) 7 = Ok None.
Proof.
  split; [split_and!; [vm_compute; congruence..|by left]|].
  destruct (bgp_capability_receive_ends sample_env (dynamic_session PEER_FLAG_OVERRIDE_CAPABILITY [0; 1; 4; 0; 1; 0; 1]) 7)
    as [(st' & r & E)|(i & _ & _ & _ & H)].
  - apply sample_buffer_ok; [by repeat constructor|vm_compute; congruence].
  - lia.
  - reflexivity.
  - vm_compute. congruence.
  - specialize (E 7%nat ltac:(lia)). vm_compute in E. discriminate.
  - exact H.
Defined.

(** Without the flag the family is recorded. *)
Example capability_set :
  match bgp_capability_receive sample_env 7 (dynamic_session 0 [0; 1; 4; 0; 1; 0; 1]) 7 with
  | Ok (Some (st, r)) => (r, afc_recv (peer_of st) (1, 1), afc_nego (peer_of st) (1, 1)) = (0, 1, 1)
  | _ => False
  end.
Proof. vm_compute. reflexivity. Qed.

(** A message of the full size, of capabilities without a value: at the last one
    four bytes after the buffer are copied. *)
Example capability_reads_past_the_buffer :
  let st := dynamic_session 0 (replicate 19 0 ++ concat (replicate 1359 [0; 99; 0])) in
  bgp_capability_receive sample_env 1359 (set_buf st (set_getp (buf st) 19)) 4077 = Fault Undefined.
Proof. vm_compute. reflexivity. Qed.
