(* ===== verification/Chain.v ===== *)
(** Doubly linked lists with a pointer to the first and to the last cell, as in
    lib/linklist.c and lib/plist.c: cells by address, the assignments the sources
    are made of, and what they do to a list in two halves. *)
From S2P Require Import Prelude Hash.
Open Scope Z_scope.

Record cell (A : Type) := Cell { val : A; next : option loc; prev : option loc }.
Arguments Cell {A} _ _ _.
Arguments val {A} _.
Arguments next {A} _.
Arguments prev {A} _.

Record chain (A : Type) := Chain { cells : gmap loc (cell A); head : option loc; tail : option loc; count : Z }.
Arguments Chain {A} _ _ _ _.
Arguments cells {A} _.
Arguments head {A} _.
Arguments tail {A} _.
Arguments count {A} _.

Section chain.
Context {A : Type}.
Implicit Types (c : chain A) (x : cell A) (l : list (loc * A)) (a b : loc).

Definition set_cells c m : chain A := Chain m (head c) (tail c) (count c).
Definition set_head c h : chain A := Chain (cells c) h (tail c) (count c).
Definition set_tail c t : chain A := Chain (cells c) (head c) t (count c).
Definition set_count c n : chain A := Chain (cells c) (head c) (tail c) n.
Definition new_chain : chain A := Chain ∅ None None 0.

Definition get c a : M (cell A) := of_opt (cells c !! a).
Definition put c a x : chain A := set_cells c (<[a:=x]> (cells c)).

(** [p->next = w] and [p->prev = w]. *)
Definition set_next c a (w : option loc) : M (chain A) := x ← get c a; Ok (put c a (Cell (val x) w (prev x))).
Definition set_prev c a (w : option loc) : M (chain A) := x ← get c a; Ok (put c a (Cell (val x) (next x) w)).

(** [if (p) p->next = w; else list->head = w], and the same for [prev] and
    [tail]. *)
Definition put_next c (p : option loc) (w : option loc) : M (chain A) :=
  match p with Some a => set_next c a w | None => Ok (set_head c w) end.
Definition put_prev c (p : option loc) (w : option loc) : M (chain A) :=
  match p with Some a => set_prev c a w | None => Ok (set_tail c w) end.

(** [for (p = list->head; p; p = p->next)]: [f] returns a result, which ends the
    loop, or the new value of the loop's variables. *)
Fixpoint foreach {S R : Type} (fuel : nat) c (p : option loc) (f : loc → A → S → M (S + R)) (s : S) : M (S + R) :=
  match p with
  | None => Ok (inl s)
  | Some a =>
      x ← get c a;
      r ← f a (val x) s;
      match r, fuel with
      | inr r, _ => Ok (inr r)
      | inl s, S fuel' => foreach fuel' c (next x) f s
      | inl s, O => Fault Undefined
      end
  end.

(** As many rounds as there are cells are enough. *)
Definition loop {S R : Type} c (f : loc → A → S → M (S + R)) (s : S) : M (S + R) := foreach (size (cells c)) c (head c) f s.

(** The first cell with a property. *)
Definition find_cell c (P : A → M bool) : M (option loc) :=
  r ← loop c (λ a v (_ : ()), b ← P v; Ok (if b : bool then inr a else inl ())) ();
  Ok (match r with inr a => Some a | inl _ => None end).

(** Freeing a cell, and one after the other. *)
Definition free_cell c a : chain A := set_cells c (delete a (cells c)).
Fixpoint delete_cells (fuel : nat) c (p : option loc) : M (chain A * list A) :=
  match p, fuel with
  | None, _ => Ok (c, [])
  | Some _, O => Fault Undefined
  | Some a, S fuel' =>
      x ← get c a;
      '(c, l) ← delete_cells fuel' (free_cell c a) (next x);
      Ok (c, val x :: l)
  end.

(** An assignment to the data of a cell. *)
Definition set_val c a (v : A) : M (chain A) := x ← get c a; Ok (put c a (Cell v (next x) (prev x))).

(** ** Lists *)

Definition first l (n : option loc) : option loc := match l with [] => n | (a, _) :: _ => Some a end.
Definition final l (p : option loc) : option loc := match last l with Some (a, _) => Some a | None => p end.

(** The cells [l] are linked both ways between [p] and [n]. *)
Fixpoint linked (m : gmap loc (cell A)) (p : option loc) l (n : option loc) : Prop :=
  match l with
  | [] => True
  | (a, v) :: l' => m !! a = Some (Cell v (first l' n) p) ∧ linked m (Some a) l' n
  end.

(** The first half is linked to [n1], the second one from [p2]. *)
Record halves c l1 (n1 p2 : option loc) l2 : Prop := {
  h_first : linked (cells c) None l1 n1;
  h_head : head c = first l1 n1;
  h_second : linked (cells c) p2 l2 None;
  h_tail : tail c = final l2 p2;
  h_nodup : NoDup (l1 ++ l2).*1;
}.

(** Only links of [l] were changed. *)
Record relinked l c c' : Prop := {
  rl_frame a : a ∉ l.*1 → cells c' !! a = cells c !! a;
  rl_dom a : is_Some (cells c' !! a) ↔ is_Some (cells c !! a);
  rl_count : count c' = count c;
}.

(** [c] is the list [l], and there are no other cells. *)
Record is_list c l : Prop := {
  il_linked : linked (cells c) None l None;
  il_head : head c = first l None;
  il_tail : tail c = final l None;
  il_nodup : NoDup l.*1;
  il_dom a : is_Some (cells c !! a) ↔ a ∈ l.*1;
}.

Lemma first_app l1 l2 n : first (l1 ++ l2) n = first l1 (first l2 n).
Proof. by destruct l1 as [|[]]. Qed.
Lemma final_snoc l a v p : final (l ++ [(a, v)]) p = Some a.
Proof. unfold final. by rewrite last_snoc. Qed.
Lemma final_cons a v l p : final ((a, v) :: l) p = final l (Some a).
Proof. unfold final. rewrite last_cons. by destruct (last l). Qed.
Lemma final_app l1 l2 p : final (l1 ++ l2) p = final l2 (final l1 p).
Proof. revert p. induction l1 as [|[a v] l1 IH]; intros p; [done|]. cbn [app]. rewrite !final_cons. apply IH. Qed.

Lemma linked_app m p l1 l2 n : linked m p (l1 ++ l2) n ↔ linked m p l1 (first l2 n) ∧ linked m (final l1 p) l2 n.
Proof.
  revert p. induction l1 as [|[a v] l1 IH]; intros p; cbn [app linked]; [by rewrite (left_id True%type and)|].
  rewrite IH, first_app, final_cons. by rewrite (assoc and).
Qed.

Lemma linked_frame m m' p l n : (∀ a, a ∈ l.*1 → m' !! a = m !! a) → linked m p l n → linked m' p l n.
Proof.
  revert p. induction l as [|[a v] l IH]; intros p Hm; cbn [linked]; [done|]. intros [H1 H2].
  split; [rewrite Hm by set_solver; done|]. apply IH; [|done]. intros b Hb. apply Hm. set_solver.
Qed.

Lemma linked_lookup m p l n a v : linked m p l n → (a, v) ∈ l → ∃ n' p', m !! a = Some (Cell v n' p').
Proof. revert p. induction l as [|[b w] l IH]; intros p; [set_solver|]. intros [H1 H2] [[= <- <-]|Ha]%elem_of_cons; eauto. Qed.

Lemma is_list_new : is_list new_chain [].
Proof. split; [done..|constructor|]. intros a. cbn. rewrite lookup_empty. split; [by intros []|set_solver]. Qed.

(** ** The assignments *)

Lemma nodup_halves l1 l2 : NoDup (l1 ++ l2).*1 → NoDup l1.*1 ∧ NoDup l2.*1 ∧ ∀ a, a ∈ l1.*1 → a ∉ l2.*1.
Proof. rewrite fmap_app. intros (? & ? & ?)%NoDup_app. auto. Qed.

Lemma is_list_halves c l1 l2 : is_list c (l1 ++ l2) → halves c l1 (first l2 None) (final l1 None) l2.
Proof.
  intros [[H1 H2]%linked_app Hh Ht Hn _]. split; try done; [by rewrite Hh, first_app|by rewrite Ht, final_app].
Qed.

Lemma put_next_halves c l1 n1 p2 l2 w : halves c l1 n1 p2 l2 →
  ∃ c', put_next c (final l1 None) w = Ok c' ∧ halves c' l1 w p2 l2 ∧ relinked l1 c c'.
Proof.
  intros [H1 Hh H2 Ht Hn]. destruct (nodup_halves _ _ Hn) as (N1 & _ & Hd).
  destruct l1 as [|[a v] l1 _] using rev_ind; [eexists; split; [done|]; split; by split|].
  rewrite final_snoc. apply linked_app in H1 as [H0 [Ha _]]. cbn [put_next]. unfold set_next, get. rewrite Ha. cbn [of_opt mbind M_bind val prev].
  rewrite fmap_app in N1. apply NoDup_app in N1 as (_ & Hna & _).
  assert (∀ b, b ≠ a → cells (put c a (Cell v w (final l1 None))) !! b = cells c !! b) as Hfr by (intros b Hb; by apply lookup_insert_ne).
  eexists. split; [done|]. split.
  - split; [|by rewrite first_app in *; cbn in *; destruct l1 as [|[]]|..|done|done]; cbn [cells put set_cells] in *.
    + apply linked_app. split.
      * eapply linked_frame; [|exact H0]. intros b Hb. apply Hfr. intros ->. apply (Hna a Hb). cbn. left.
      * split; [apply lookup_insert_eq|done].
    + eapply linked_frame; [|exact H2]. intros b Hb. apply Hfr. intros ->. apply (Hd a); [|done]. rewrite fmap_app. set_solver.
  - split; [|intros b|done].
    + intros b Hb. apply Hfr. intros ->. apply Hb. rewrite fmap_app. set_solver.
    + cbn [cells put set_cells]. destruct (decide (b = a)) as [->|]; [rewrite lookup_insert_eq, Ha; split; by eexists|by rewrite lookup_insert_ne].
Qed.

Lemma put_prev_halves c l1 n1 p2 l2 w : halves c l1 n1 p2 l2 →
  ∃ c', put_prev c (first l2 None) w = Ok c' ∧ halves c' l1 n1 w l2 ∧ relinked l2 c c'.
Proof.
  intros [H1 Hh H2 Ht Hn]. destruct (nodup_halves _ _ Hn) as (_ & N2 & Hd).
  destruct l2 as [|[a v] l2]; [eexists; split; [done|]; split; by split|].
  destruct H2 as [Ha H2]. cbn [first put_prev]. unfold set_prev, get. rewrite Ha. cbn [of_opt mbind M_bind val next].
  cbn in N2. apply NoDup_cons in N2 as [Hna _].
  assert (∀ b, b ≠ a → cells (put c a (Cell v (first l2 None) w)) !! b = cells c !! b) as Hfr by (intros b Hb; by apply lookup_insert_ne).
  eexists. split; [done|]. split.
  - split; [|done| |by rewrite final_cons in *|done].
    + eapply linked_frame; [|exact H1]. intros b Hb. apply Hfr. intros ->. apply (Hd a Hb). cbn. left.
    + split; [apply lookup_insert_eq|]. eapply linked_frame; [|exact H2]. intros b Hb. apply Hfr. by intros ->.
  - split; [|intros b|done].
    + intros b Hb. apply Hfr. intros ->. apply Hb. cbn. left.
    + cbn [cells put set_cells]. destruct (decide (b = a)) as [->|]; [rewrite lookup_insert_eq, Ha; split; by eexists|by rewrite lookup_insert_ne].
Qed.

(** The halves put together again, around a new cell, and without a cell that was
    between them. *)
Lemma halves_join c l1 l2 : halves c l1 (first l2 None) (final l1 None) l2 → (∀ a, is_Some (cells c !! a) ↔ a ∈ (l1 ++ l2).*1) →
  is_list c (l1 ++ l2).
Proof. intros [H1 Hh H2 Ht Hn] Hd. split; try done; [by apply linked_app|by rewrite first_app|by rewrite final_app]. Qed.

Lemma halves_around c l1 l2 a v : halves c l1 (Some a) (Some a) l2 → cells c !! a = Some (Cell v (first l2 None) (final l1 None)) →
  a ∉ (l1 ++ l2).*1 → (∀ b, is_Some (cells c !! b) ↔ b = a ∨ b ∈ (l1 ++ l2).*1) → is_list c (l1 ++ (a, v) :: l2).
Proof.
  intros [H1 Hh H2 Ht Hn] Ha Hni Hd. rewrite fmap_app in Hni, Hn. split.
  - apply linked_app. split; [done|]. by split.
  - by rewrite first_app.
  - by rewrite final_app, final_cons.
  - rewrite fmap_app. cbn. rewrite <-Permutation_middle. by apply NoDup_cons.
  - intros b. rewrite Hd, !fmap_app. set_solver.
Qed.

Lemma set_next_at c a w x : cells c !! a = Some x → set_next c a w = Ok (put c a (Cell (val x) w (prev x))).
Proof. intros Hx. unfold set_next, get. by rewrite Hx. Qed.
Lemma set_prev_at c a w x : cells c !! a = Some x → set_prev c a w = Ok (put c a (Cell (val x) (next x) w)).
Proof. intros Hx. unfold set_prev, get. by rewrite Hx. Qed.

Lemma put_next_count c p w m c' : put_next c p w = Ok c' → put_next (set_count c m) p w = Ok (set_count c' m).
Proof.
  destruct p as [a|]; cbn [put_next]; [|by intros [= <-] ]. unfold set_next, get. cbn [cells set_count].
  destruct (cells c !! a); cbn; [by intros [= <-]|done].
Qed.

(** A cell that is not part of the list. *)
Lemma halves_put c l1 n1 p2 l2 a x : halves c l1 n1 p2 l2 → a ∉ (l1 ++ l2).*1 → halves (put c a x) l1 n1 p2 l2.
Proof.
  intros [H1 Hh H2 Ht Hn] Ha. rewrite fmap_app in Ha. split; try done.
  - eapply linked_frame; [|exact H1]. intros b Hb. apply lookup_insert_ne. set_solver.
  - eapply linked_frame; [|exact H2]. intros b Hb. apply lookup_insert_ne. set_solver.
Qed.

Lemma put_dom c a x b : is_Some (cells (put c a x) !! b) ↔ b = a ∨ is_Some (cells c !! b).
Proof.
  cbn. destruct (decide (b = a)) as [->|]; [rewrite lookup_insert_eq; naive_solver|rewrite lookup_insert_ne by done; naive_solver].
Qed.

(** What is left to do for an insertion: the cell [a] is there, with the contents
    [w], and its neighbours point to it. *)
Record inserting c0 l1 l2 a w c : Prop := {
  in_halves : halves c l1 (Some a) (Some a) l2;
  in_cell : cells c !! a = Some w;
  in_dom b : is_Some (cells c !! b) ↔ b = a ∨ is_Some (cells c0 !! b);
  in_count : count c = count c0;
}.

(** The cell first, then the neighbours. *)
Lemma insert_links c l1 l2 a w : is_list c (l1 ++ l2) → a ∉ (l1 ++ l2).*1 →
  ∃ c1 c2, put_next (put c a w) (final l1 None) (Some a) = Ok c1 ∧ cells c1 !! a = Some w ∧
    put_prev c1 (first l2 None) (Some a) = Ok c2 ∧ inserting c l1 l2 a w c2.
Proof.
  intros H Ha. pose proof (halves_put _ _ _ _ _ a w (is_list_halves _ _ _ H) Ha) as H0. rewrite fmap_app in Ha.
  destruct (put_next_halves _ _ _ _ _ (Some a) H0) as (c1 & E1 & H1 & [F1 D1 C1]).
  destruct (put_prev_halves _ _ _ _ _ (Some a) H1) as (c2 & E2 & H2 & [F2 D2 C2]).
  assert (cells c1 !! a = Some w) as Hw by (rewrite F1 by set_solver; apply lookup_insert_eq).
  exists c1, c2. split; [done|]. split; [done|]. split; [done|]. split; [done|rewrite F2 by set_solver; done| |by rewrite C2, C1].
  intros b. by rewrite D2, D1, put_dom.
Qed.

(** The neighbour behind first, then the cell, then the one before. *)
Lemma insert_links_back c l1 l2 a w : is_list c (l1 ++ l2) → a ∉ (l1 ++ l2).*1 →
  ∃ c1 c2, put_prev c (first l2 None) (Some a) = Ok c1 ∧ head c1 = head c ∧
    put_next (put c1 a w) (final l1 None) (Some a) = Ok c2 ∧ inserting c l1 l2 a w c2.
Proof.
  intros H Ha. pose proof (is_list_halves _ _ _ H) as H0.
  destruct (put_prev_halves _ _ _ _ _ (Some a) H0) as (c1 & E1 & H1 & [F1 D1 C1]).
  destruct (put_next_halves _ _ _ _ _ (Some a) (halves_put _ _ _ _ _ a w H1 Ha)) as (c2 & E2 & H2 & [F2 D2 C2]). rewrite fmap_app in Ha.
  exists c1, c2. split; [done|]. split; [by rewrite (h_head _ _ _ _ _ H1), (h_head _ _ _ _ _ H0)|]. split; [done|].
  split; [done|rewrite F2 by set_solver; apply lookup_insert_eq| |by rewrite C2].
  intros b. by rewrite D2, put_dom, D1.
Qed.

Lemma inserting_list c0 l1 l2 a v c : is_list c0 (l1 ++ l2) → a ∉ (l1 ++ l2).*1 →
  inserting c0 l1 l2 a (Cell v (first l2 None) (final l1 None)) c → is_list c (l1 ++ (a, v) :: l2).
Proof. intros H Ha [Hh Hx Hd _]. apply halves_around; try done. intros b. by rewrite Hd, (il_dom _ _ H). Qed.

(** A cell is taken out of the links. *)
Record removed c0 l1 l2 a c : Prop := {
  re_halves : halves c l1 (first l2 None) (final l1 None) l2;
  re_cell : cells c !! a = cells c0 !! a;
  re_dom b : is_Some (cells c !! b) ↔ is_Some (cells c0 !! b);
  re_count : count c = count c0;
}.

Lemma cell_between c l1 a v l2 : is_list c (l1 ++ (a, v) :: l2) → get c a = Ok (Cell v (first l2 None) (final l1 None)).
Proof. intros [[_ [Ha _]]%linked_app _ _ _ _]. unfold get. by rewrite Ha. Qed.

Lemma halves_out c l1 a v l2 : is_list c (l1 ++ (a, v) :: l2) → halves c l1 (Some a) (Some a) l2 ∧ a ∉ (l1 ++ l2).*1.
Proof.
  intros [[H1 [Ha H2]]%linked_app Hh Ht Hn _]. rewrite fmap_app in Hn. cbn in Hn. rewrite <-Permutation_middle in Hn. apply NoDup_cons in Hn as [Hna Hn].
  rewrite <-fmap_app in *. split; [|done]. split; try done; [by rewrite Hh, first_app|by rewrite Ht, final_app, final_cons].
Qed.

(** In both orders. *)
Lemma unlink_links c l1 a v l2 : is_list c (l1 ++ (a, v) :: l2) →
  ∃ c1 c2, put_next c (final l1 None) (first l2 None) = Ok c1 ∧ put_prev c1 (first l2 None) (final l1 None) = Ok c2 ∧ removed c l1 l2 a c2.
Proof.
  intros H. destruct (halves_out _ _ _ _ _ H) as [H0 Ha]. rewrite fmap_app in Ha.
  destruct (put_next_halves _ _ _ _ _ (first l2 None) H0) as (c1 & E1 & H1 & [F1 D1 C1]).
  destruct (put_prev_halves _ _ _ _ _ (final l1 None) H1) as (c2 & E2 & H2 & [F2 D2 C2]).
  exists c1, c2. split; [done|]. split; [done|]. split; [done|by rewrite F2, F1 by set_solver| |congruence]. intros b. by rewrite D2, D1.
Qed.
Lemma unlink_links_back c l1 a v l2 : is_list c (l1 ++ (a, v) :: l2) →
  ∃ c1 c2, put_prev c (first l2 None) (final l1 None) = Ok c1 ∧ put_next c1 (final l1 None) (first l2 None) = Ok c2 ∧ removed c l1 l2 a c2.
Proof.
  intros H. destruct (halves_out _ _ _ _ _ H) as [H0 Ha]. rewrite fmap_app in Ha.
  destruct (put_prev_halves _ _ _ _ _ (final l1 None) H0) as (c1 & E1 & H1 & [F1 D1 C1]).
  destruct (put_next_halves _ _ _ _ _ (first l2 None) H1) as (c2 & E2 & H2 & [F2 D2 C2]).
  exists c1, c2. split; [done|]. split; [done|]. split; [done|by rewrite F2, F1 by set_solver| |congruence]. intros b. by rewrite D2, D1.
Qed.

(** The cell is freed. *)
Lemma removed_list c0 l1 a v l2 c : is_list c0 (l1 ++ (a, v) :: l2) → removed c0 l1 l2 a c →
  is_list (free_cell c a) (l1 ++ l2).
Proof.
  intros H [[H1 Hh H2 Ht Hn] _ Hd _]. destruct (halves_out _ _ _ _ _ H) as [_ Ha]. pose proof Ha as Ha'. rewrite fmap_app in Ha'.
  assert (∀ b, b ≠ a → delete a (cells c) !! b = cells c !! b) as Hfr by (intros b Hb; by apply lookup_delete_ne).
  apply halves_join.
  - split; try done; cbn [cells set_cells free_cell]; (eapply linked_frame; [|done]); intros b Hb; apply Hfr; set_solver.
  - intros b. cbn [cells set_cells free_cell]. destruct (decide (b = a)) as [->|Hb].
    + rewrite lookup_delete_eq. split; [by intros []|done].
    + rewrite Hfr, Hd, (il_dom _ _ H) by done. rewrite !fmap_app. set_solver.
Qed.

Lemma is_list_count c l n : is_list c l → is_list (set_count c n) l.
Proof. intros []. by split. Qed.

(** ** The loops *)

Fixpoint fold_until {S R : Type} (f : loc → A → S → M (S + R)) l (s : S) : M (S + R) :=
  match l with
  | [] => Ok (inl s)
  | (a, v) :: l' => r ← f a v s; match r with inl s => fold_until f l' s | inr r => Ok (inr r) end
  end.

Lemma foreach_linked {S R : Type} c (f : loc → A → S → M (S + R)) l p fuel s : linked (cells c) p l None → (length l <= fuel)%nat →
  foreach fuel c (first l None) f s = fold_until f l s.
Proof.
  revert p fuel s. induction l as [|[a v] l IH]; intros p fuel s; [by destruct fuel|]. intros [Ha Hl] Hf. cbn [length] in Hf.
  destruct fuel as [|fuel]; [lia|]. cbn [foreach first fold_until]. unfold get. rewrite Ha. cbn [of_opt mbind M_bind val next].
  destruct (f a v s) as [[]|]; [|done|done]. eapply IH; [done|lia].
Qed.

Lemma is_list_size c l : is_list c l → size (cells c) = length l.
Proof.
  intros [_ _ _ Hn Hd]. rewrite <-size_dom, <-(length_fmap fst l), <-(size_list_to_set (C := gset loc) l.*1) by done. f_equal. apply set_eq.
  intros a. by rewrite elem_of_dom, elem_of_list_to_set.
Qed.

Lemma loop_ok {S R : Type} c (f : loc → A → S → M (S + R)) l s : is_list c l → loop c f s = fold_until f l s.
Proof.
  intros H. unfold loop. rewrite (is_list_size _ _ H), (il_head _ _ H). eapply foreach_linked; [apply H|done].
Qed.

Definition find_in (P : A → bool) l : option (loc * A) := snd <$> list_find (λ q, P q.2 = true) l.

Lemma find_cell_ok c P Q l : is_list c l → Forall (λ q, P q.2 = Ok (Q q.2)) l → find_cell c P = Ok (fst <$> find_in Q l).
Proof.
  intros H HP. unfold find_cell. rewrite (loop_ok _ _ _ _ H). clear H. unfold find_in.
  induction HP as [|[a v] l Hv _ IH]; [done|]. cbn [fold_until list_find snd] in *. rewrite Hv. cbn [mbind M_bind].
  destruct (Q v) eqn:E; [by rewrite decide_True|]. rewrite decide_False by congruence. rewrite IH. by destruct (list_find _ l) as [[]|].
Qed.

(** At the end. *)
Lemma append_links c l a v : is_list c l → a ∉ l.*1 →
  ∃ c1, put_next (put c a (Cell v None (tail c))) (tail c) (Some a) = Ok c1 ∧ inserting c l [] a (Cell v None (final l None)) (set_tail c1 (Some a)).
Proof.
  intros H Ha. destruct (insert_links c l [] a (Cell v None (final l None))) as (c1 & c2 & E1 & _ & E2 & Hi); rewrite ?app_nil_r; try done.
  rewrite (il_tail _ _ H). exists c1. split; [exact E1|]. cbn [first put_prev] in E2. by injection E2 as <-.
Qed.

(** [if (list->head == NULL) list->head = node; else list->tail->next = node]. *)
Lemma head_or_tail c l (a : loc) : is_list c l → ∀ c0, head c0 = head c → tail c0 = tail c →
  match head c0 with None => Ok (set_head c0 (Some a)) | Some _ => t ← of_opt (tail c0); set_next c0 t (Some a) end = put_next c0 (tail c) (Some a).
Proof.
  intros [_ Hh Ht _ _] c0 E1 E2. rewrite E1, E2, Hh, Ht. destruct l as [|[b w] l _] using rev_ind; [done|].
  rewrite final_snoc, first_app. by destruct l as [|[]].
Qed.

(** What is before the cell that is found. *)
Lemma find_split (P : A → bool) l :
  (find_in P l = None ∧ Forall (λ q, P q.2 = false) l) ∨
  ∃ l1 a v l2, l = l1 ++ (a, v) :: l2 ∧ find_in P l = Some (a, v) ∧ Forall (λ q, P q.2 = false) l1 ∧ P v = true.
Proof.
  unfold find_in. induction l as [|[a v] l IH]; [by left|]. cbn [list_find snd]. destruct (P v) eqn:E.
  - right. exists [], a, v, l. rewrite decide_True by done. auto.
  - rewrite decide_False by congruence. destruct IH as [[H F]|(l1 & b & w & l2 & -> & H & F & Hw)].
    + left. split; [by destruct (list_find _ l) as [[]|]|]. by apply Forall_cons.
    + right. exists ((a, v) :: l1), b, w, l2. split; [done|]. split; [|split; [by apply Forall_cons|done] ].
      by destruct (list_find _ (l1 ++ (b, w) :: l2)) as [[? []]|].
Qed.

Lemma delete_cells_ok c l p fuel : linked (cells c) p l None → NoDup l.*1 → (∀ a, is_Some (cells c !! a) ↔ a ∈ l.*1) → (length l <= fuel)%nat →
  ∃ c', delete_cells fuel c (first l None) = Ok (c', l.*2) ∧ cells c' = ∅.
Proof.
  revert c p fuel. induction l as [|[a v] l IH]; intros c p fuel Hl Hn Hd Hf.
  - exists c. split; [by destruct fuel|]. apply map_empty. intros a. apply eq_None_not_Some. rewrite Hd. set_solver.
  - destruct Hl as [Ha Hl]. cbn in Hn. apply NoDup_cons in Hn as [Hna Hn]. destruct fuel as [|fuel]; cbn [length] in Hf; [lia|].
    cbn [delete_cells first]. unfold get. rewrite Ha. cbn [of_opt mbind M_bind next val].
    destruct (IH (free_cell c a) (Some a) fuel) as (c' & -> & Hc'); [| |intros b|lia|by eexists].
    + eapply linked_frame; [|exact Hl]. intros b Hb. apply lookup_delete_ne. by intros ->.
    + done.
    + cbn. destruct (decide (b = a)) as [->|Hb]; [rewrite lookup_delete_eq; split; [by intros []|done]|]. rewrite lookup_delete_ne by done.
      rewrite Hd. cbn. set_solver.
Qed.

Lemma set_val_ok c l1 a v l2 w : is_list c (l1 ++ (a, v) :: l2) →
  ∃ c', set_val c a w = Ok c' ∧ is_list c' (l1 ++ (a, w) :: l2) ∧ count c' = count c.
Proof.
  intros H. unfold set_val. rewrite (cell_between _ _ _ _ _ H). cbn [mbind M_bind next prev]. eexists. split; [done|]. split; [|done].
  destruct (halves_out _ _ _ _ _ H) as [Hh Ha]. apply halves_around; [by apply halves_put|apply lookup_insert_eq|done|].
  intros b. rewrite put_dom, (il_dom _ _ H), !fmap_app. cbn. set_solver.
Qed.

(** Insertion before a cell, and at the end, with [prev] of the new cell set last. *)
Lemma insert_prev_links c l1 n w l2 new v : is_list c (l1 ++ (n, w) :: l2) → new ∉ (l1 ++ (n, w) :: l2).*1 →
  ∃ c1 c2 c3, put_next (put c new (Cell v (Some n) None)) (final l1 None) (Some new) = Ok c1 ∧ set_prev c1 new (final l1 None) = Ok c2 ∧
    set_prev c2 n (Some new) = Ok c3 ∧ inserting c l1 ((n, w) :: l2) new (Cell v (Some n) (final l1 None)) c3.
Proof.
  intros H Hn. destruct (insert_links c l1 ((n, w) :: l2) new (Cell v (Some n) None) H Hn) as (c1 & c2 & -> & Hx & E2 & Hi).
  cbn [first put_prev val next] in *.
  assert (n ≠ new) as Hne by (intros ->; apply Hn; rewrite fmap_app; cbn; set_solver).
  unfold set_prev, get in E2. destruct (cells c1 !! n) as [x|] eqn:Ex; [|done]. cbn [of_opt mbind M_bind] in E2. injection E2 as <-.
  eexists c1, _, _. split; [done|]. split; [exact (set_prev_at _ _ _ _ Hx)|].
  split; [apply (set_prev_at _ n _ x); cbn; by rewrite lookup_insert_ne|].
  destruct Hi as [Hh Hc Hd Hct]. cbn [cells put set_cells] in *. split.
  - pose proof (halves_put _ _ _ _ _ new (Cell v (Some n) (final l1 None)) Hh Hn) as Hh'. unfold put, set_cells in *. cbn in *.
    rewrite insert_insert_ne by done. done.
  - cbn. by rewrite lookup_insert_ne, lookup_insert_eq.
  - intros b. rewrite <-Hd. cbn. rewrite insert_insert_ne by done. destruct (decide (b = new)) as [->|]; [rewrite lookup_insert_eq, Hc; naive_solver|].
    by rewrite lookup_insert_ne.
  - done.
Qed.

Lemma insert_last_links c l new v : is_list c l → new ∉ l.*1 →
  ∃ c1 c2, put_next (put c new (Cell v None None)) (tail c) (Some new) = Ok c1 ∧ set_prev c1 new (tail c) = Ok c2 ∧
    inserting c l [] new (Cell v None (final l None)) (set_tail c2 (Some new)).
Proof.
  intros H Hn. destruct (insert_links c l [] new (Cell v None None)) as (c1 & c2 & E1 & Hx & E2 & Hi); rewrite ?app_nil_r; try done.
  cbn [first put_prev] in E2. injection E2 as <-. rewrite (il_tail _ _ H). eexists c1, _. split; [exact E1|].
  split; [exact (set_prev_at _ _ _ _ Hx)|]. cbn [val next]. destruct Hi as [Hh Hc Hd Hct]. cbn [cells set_tail] in *.
  rewrite <-(app_nil_r l) in Hn. split.
  - exact (halves_put _ _ _ _ _ new (Cell v None (final l None)) Hh Hn).
  - cbn. apply lookup_insert_eq.
  - intros b. rewrite <-Hd. cbn. destruct (decide (b = new)) as [->|]; [rewrite lookup_insert_eq, Hc; naive_solver|by rewrite lookup_insert_ne].
  - exact Hct.
Qed.
End chain.
