(* ===== verification/Linklist.v ===== *)
(** The doubly linked lists of lib/linklist.c: every function but those that only
    allocate or free, and that each does to the list what it says. *)
From stdpp Require Import sorting.
From S2P Require Import Prelude Hash Chain.
Open Scope Z_scope.

(** [struct list]: the data of a node is a pointer, 0 for NULL. *)
Notation list_ := (chain Z).

Definition count_up (c : list_) : list_ := set_count c (u32 (count c + 1)).
Definition count_down (c : list_) : list_ := set_count c (u32 (count c - 1)).

(** [new] is the address that [listnode_new] returns. *)
Definition listnode_add (c : list_) (new : loc) (v : Z) : M list_ :=
  assert! negb (v =? 0) ;;
  let c := put c new (Cell v None (tail c)) in
  c ← match head c with
      | None => Ok (set_head c (Some new))
      | Some _ => t ← of_opt (tail c); set_next c t (Some new)
      end;
  Ok (count_up (set_tail c (Some new))).

Definition listnode_add_sort (c : list_) (cmp : option (Z → Z → Z)) (new : loc) (v : Z) : M list_ :=
  assert! negb (v =? 0) ;;
  n ← match cmp with Some f => find_cell c (λ d, Ok (f v d <? 0)) | None => Ok None end;
  match n with
  | Some n =>
      x ← get c n;
      let c := put c new (Cell v (Some n) (prev x)) in
      c ← put_next c (prev x) (Some new);
      c ← set_prev c n (Some new);
      Ok (count_up c)
  | None =>
      let c := put c new (Cell v None (tail c)) in
      c ← put_next c (tail c) (Some new);
      Ok (count_up (set_tail c (Some new)))
  end.

Definition listnode_add_after (c : list_) (pp : option loc) (new : loc) (v : Z) : M list_ :=
  assert! negb (v =? 0) ;;
  match pp with
  | None =>
      c ← put_prev c (head c) (Some new);
      Ok (count_up (set_head (put c new (Cell v (head c) None)) (Some new)))
  | Some p =>
      x ← get c p;
      c ← put_prev c (next x) (Some new);
      c ← set_next (put c new (Cell v (next x) (Some p))) p (Some new);
      Ok (count_up c)
  end.

(** [LISTNODE_DETACH] and [LISTNODE_ATTACH]. *)
Definition LISTNODE_DETACH (c : list_) (n : loc) : M list_ :=
  x ← get c n;
  c ← put_next c (prev x) (next x);
  c ← put_prev c (next x) (prev x);
  Ok (count_down c).
Definition LISTNODE_ATTACH (c : list_) (n : loc) : M list_ :=
  c ← set_prev c n (tail c);
  c ← set_next c n None;
  c ← match head c with
      | None => Ok (set_head c (Some n))
      | Some _ => t ← of_opt (tail c); set_next c t (Some n)
      end;
  Ok (count_up (set_tail c (Some n))).
Definition listnode_move_to_tail (c : list_) (n : loc) : M list_ :=
  c ← LISTNODE_DETACH c n; LISTNODE_ATTACH c n.

Definition listnode_free (c : list_) (n : loc) : list_ := free_cell c n.

Definition list_delete_node (c : list_) (n : loc) : M list_ :=
  x ← get c n;
  c ← put_next c (prev x) (next x);
  c ← put_prev c (next x) (prev x);
  Ok (listnode_free (count_down c) n).

Definition listnode_delete (c : list_) (v : Z) : M list_ :=
  n ← find_cell c (λ d, Ok (d =? v));
  match n with Some n => list_delete_node c n | None => Ok c end.

Definition listnode_head (c : list_) : M Z :=
  match head c with Some n => x ← get c n; Ok (val x) | None => Ok 0 end.

(** With the data that [del] is called with. *)
Definition list_delete_all_node (c : list_) : M (list_ * list Z) :=
  '(c, l) ← delete_cells (size (cells c)) c (head c);
  Ok (set_count (set_tail (set_head c None) None) 0, l).

(** [listgetdata] has an assertion. *)
Definition listnode_lookup (c : list_) (d : Z) : M (option loc) :=
  find_cell c (λ v, assert! negb (v =? 0) ;; Ok (d =? v)).

Definition list_add_node_prev (c : list_) (current new : loc) (v : Z) : M list_ :=
  assert! negb (v =? 0) ;;
  x ← get c current;
  let c := put c new (Cell v (Some current) None) in
  c ← put_next c (prev x) (Some new);
  c ← set_prev c new (prev x);
  c ← set_prev c current (Some new);
  Ok (count_up c).

Definition list_add_node_next (c : list_) (current new : loc) (v : Z) : M list_ :=
  assert! negb (v =? 0) ;;
  x ← get c current;
  let c := put c new (Cell v None (Some current)) in
  c ← put_prev c (next x) (Some new);
  c ← set_next c new (next x);
  c ← set_next c current (Some new);
  Ok (count_up c).

(** [list_add_list]: [news] are the addresses of the new nodes.  The lists are two
    different ones. *)
Fixpoint add_nodes (fuel : nat) (c m : list_) (p : option loc) (news : list loc) : M list_ :=
  match p with
  | None => Ok c
  | Some n =>
      x ← get m n;
      match fuel, news with
      | S fuel', new :: news => c ← listnode_add c new (val x); add_nodes fuel' c m (next x) news
      | _, _ => Fault Undefined
      end
  end.
Definition list_add_list (c m : list_) (news : list loc) : M list_ := add_nodes (size (cells m)) c m (head m) news.

(** ** The lists *)

(** The list [l] of nodes and data, with its count. *)
Record list_of (c : list_) (l : list (loc * Z)) : Prop := {
  lo_list : is_list c l;
  lo_count : count c = u32 (Z.of_nat (length l));
  lo_data : Forall (λ q, q.2 ≠ 0) l;
}.

Lemma u32_up n : u32 (u32 n + 1) = u32 (n + 1).
Proof. unfold u32. by rewrite Zplus_mod_idemp_l. Qed.
Lemma u32_down n : u32 (u32 n - 1) = u32 (n - 1).
Proof. unfold u32. by rewrite Zminus_mod_idemp_l. Qed.

Lemma inserted c0 l1 l2 a v c : list_of c0 (l1 ++ l2) → a ∉ (l1 ++ l2).*1 → v ≠ 0 →
  inserting c0 l1 l2 a (Cell v (first l2 None) (final l1 None)) c → list_of (count_up c) (l1 ++ (a, v) :: l2).
Proof.
  intros [H0 Hc Hd] Ha Hv Hi. split.
  - apply is_list_count. by eapply inserting_list.
  - cbn. rewrite (in_count _ _ _ _ _ _ Hi), Hc, u32_up. f_equal. rewrite !length_app. cbn [length]. lia.
  - apply Forall_app in Hd as [? ?]. apply Forall_app. split; [done|]. by apply Forall_cons.
Qed.

Lemma taken_out c0 l1 a v l2 c : list_of c0 (l1 ++ (a, v) :: l2) → removed c0 l1 l2 a c → list_of (listnode_free (count_down c) a) (l1 ++ l2).
Proof.
  intros [H0 Hc Hd] Hr. split.
  - change (is_list (set_count (set_cells c (delete a (cells c))) (u32 (count c - 1))) (l1 ++ l2)). by eapply is_list_count, removed_list.
  - cbn. rewrite (re_count _ _ _ _ _ Hr), Hc, u32_down. f_equal. rewrite !length_app. cbn [length]. lia.
  - apply Forall_app in Hd as [? [_ ?]%Forall_cons]. by apply Forall_app.
Qed.

Lemma node_add_ok c l new v : list_of c l → new ∉ l.*1 → v ≠ 0 → ∃ c', listnode_add c new v = Ok c' ∧ list_of c' (l ++ [(new, v)]).
Proof.
  intros H Hn Hv. unfold listnode_add. rewrite (proj2 (Z.eqb_neq _ _) Hv). cbn [negb].
  destruct (append_links c l new v (lo_list _ _ H) Hn) as (c1 & E1 & Hi).
  rewrite (head_or_tail c l new (lo_list _ _ H)) by done. rewrite E1. cbn [mbind M_bind]. eexists. split; [done|].
  eapply inserted; rewrite ?app_nil_r; done.
Qed.

Lemma add_sort_ok c l cmp new v : list_of c l → new ∉ l.*1 → v ≠ 0 →
  ∃ c' l1 l2, listnode_add_sort c cmp new v = Ok c' ∧ l = l1 ++ l2 ∧ list_of c' (l1 ++ (new, v) :: l2) ∧
    match cmp with
    | None => l2 = []
    | Some f => Forall (λ q, 0 <= f v q.2) l1 ∧ match l2 with [] => True | q :: _ => f v q.2 < 0 end
    end.
Proof.
  intros H Hn Hv. unfold listnode_add_sort. rewrite (proj2 (Z.eqb_neq _ _) Hv). cbn [negb].
  assert (∀ l', l' = l → ∃ c', (c1 ← put_next (put c new (Cell v None (tail c))) (tail c) (Some new); Ok (count_up (set_tail c1 (Some new)))) = Ok c' ∧
    list_of c' (l ++ [(new, v)])) as Hend.
  { intros _ _. destruct (append_links c l new v (lo_list _ _ H) Hn) as (c1 & E1 & Hi). rewrite E1. cbn [mbind M_bind]. eexists. split; [done|].
    eapply inserted; rewrite ?app_nil_r; done. }
  destruct (Hend l eq_refl) as (cn & En & Hln). destruct cmp as [f|]; cbn [mbind M_bind].
  2: { cbn [tail put set_cells] in *. rewrite En. exists cn, l, []. rewrite app_nil_r. by split_and!. }
  rewrite (find_cell_ok _ _ (λ d, f v d <? 0) _ (lo_list _ _ H)) by (by apply Forall_true). cbn [mbind M_bind].
  destruct (find_split (λ d, f v d <? 0) l) as [[-> F]|(l1 & a & w & l2 & -> & -> & F & Hw)]; cbn [fmap option_fmap option_map fst].
  - cbn [tail put set_cells] in *. rewrite En. exists cn, l, []. rewrite app_nil_r. split; [done|]. split; [done|]. split; [done|]. split; [|done].
    eapply Forall_impl; [exact F|]. cbn. intros q Hq. by apply Z.ltb_ge in Hq.
  - rewrite (cell_between _ _ _ _ _ (lo_list _ _ H)). cbn [mbind M_bind prev].
    destruct (insert_links c l1 ((a, w) :: l2) new (Cell v (Some a) (final l1 None)) (lo_list _ _ H) Hn) as (c1 & c2 & -> & _ & E2 & Hi).
    cbn [first put_prev] in E2. cbn [mbind M_bind]. rewrite E2. cbn [mbind M_bind].
    eexists _, l1, ((a, w) :: l2). split; [done|]. split; [done|]. split; [by eapply inserted|]. split.
    + eapply Forall_impl; [exact F|]. cbn. intros q Hq. by apply Z.ltb_ge in Hq.
    + by apply Z.ltb_lt.
Qed.

Lemma add_after_ok c l1 l2 new v pp : list_of c (l1 ++ l2) → new ∉ (l1 ++ l2).*1 → v ≠ 0 → pp = final l1 None →
  ∃ c', listnode_add_after c pp new v = Ok c' ∧ list_of c' (l1 ++ (new, v) :: l2).
Proof.
  intros H Hn Hv ->. unfold listnode_add_after. rewrite (proj2 (Z.eqb_neq _ _) Hv). cbn [negb].
  destruct (insert_links_back c l1 l2 new (Cell v (first l2 None) (final l1 None)) (lo_list _ _ H) Hn) as (c1 & c2 & E1 & Eh & E2 & Hi).
  destruct l1 as [|[p w] l1 _] using rev_ind.
  - cbn [final last]. rewrite (il_head _ _ (lo_list _ _ H)). cbn [app first]. rewrite E1. cbn [mbind M_bind]. eexists. split; [done|].
    rewrite Eh, (il_head _ _ (lo_list _ _ H)). cbn [app]. cbn in E2. injection E2 as <-. by eapply (inserted c []).
  - rewrite final_snoc. pose proof (lo_list _ _ H) as Hl. rewrite <-app_assoc in Hl. cbn [app] in Hl. rewrite (cell_between _ _ _ _ _ Hl).
    cbn [mbind M_bind next]. rewrite E1. cbn [mbind M_bind]. rewrite final_snoc in E2. cbn [put_next] in E2. rewrite E2. cbn [mbind M_bind].
    eexists. split; [done|]. by eapply inserted.
Qed.

Lemma delete_node_ok c l1 n v l2 : list_of c (l1 ++ (n, v) :: l2) → ∃ c', list_delete_node c n = Ok c' ∧ list_of c' (l1 ++ l2).
Proof.
  intros H. unfold list_delete_node. rewrite (cell_between _ _ _ _ _ (lo_list _ _ H)). cbn [mbind M_bind prev next].
  destruct (unlink_links _ _ _ _ _ (lo_list _ _ H)) as (c1 & c2 & -> & E2 & Hr). cbn [mbind M_bind]. rewrite E2. cbn [mbind M_bind].
  eexists. split; [done|]. by eapply taken_out.
Qed.

Lemma node_delete_ok c l v : list_of c l →
  ∃ c' l', listnode_delete c v = Ok c' ∧ list_of c' l' ∧
    ((Forall (λ q, q.2 ≠ v) l ∧ l' = l) ∨ ∃ l1 n l2, l = l1 ++ (n, v) :: l2 ∧ Forall (λ q, q.2 ≠ v) l1 ∧ l' = l1 ++ l2).
Proof.
  intros H. unfold listnode_delete. rewrite (find_cell_ok _ _ (λ d, d =? v) _ (lo_list _ _ H)) by (by apply Forall_true). cbn [mbind M_bind].
  destruct (find_split (λ d, d =? v) l) as [[-> F]|(l1 & n & w & l2 & -> & -> & F & Hw)]; cbn [fmap option_fmap option_map fst].
  - exists c, l. split; [done|]. split; [done|]. left. split; [|done]. eapply Forall_impl; [exact F|]. cbn. intros q Hq. by apply Z.eqb_neq.
  - destruct (delete_node_ok _ _ _ _ _ H) as (c' & E & H'). exists c', (l1 ++ l2). split; [done|]. split; [done|]. right.
    apply Z.eqb_eq in Hw as ->. exists l1, n, l2. split; [done|]. split; [|done]. eapply Forall_impl; [exact F|]. cbn. intros q Hq. by apply Z.eqb_neq.
Qed.

(** Detached, a node keeps its cell and its data. *)
Lemma move_to_tail_ok c l1 n v l2 : list_of c (l1 ++ (n, v) :: l2) →
  ∃ c', listnode_move_to_tail c n = Ok c' ∧ list_of c' (l1 ++ l2 ++ [(n, v)]).
Proof.
  intros [H Hc Hd]. unfold listnode_move_to_tail, LISTNODE_DETACH. rewrite (cell_between _ _ _ _ _ H). cbn [mbind M_bind prev next].
  destruct (unlink_links _ _ _ _ _ H) as (c1 & c2 & -> & E2 & Hr). cbn [mbind M_bind]. rewrite E2. cbn [mbind M_bind].
  pose proof (removed_list _ _ _ _ _ _ H Hr) as Hl. destruct (halves_out _ _ _ _ _ H) as [_ Hn].
  set (c3 := set_cells c2 (delete n (cells c2))) in *. pose proof (cell_between _ _ _ _ _ H) as Hx. unfold get in Hx. rewrite <-(re_cell _ _ _ _ _ Hr) in Hx.
  unfold LISTNODE_ATTACH. set (c4 := count_down c2). assert (∃ x, cells c4 !! n = Some x ∧ val x = v) as (x & Ex & Ev).
  { change (cells c4) with (cells c2). destruct (cells c2 !! n) as [x|]; [|done]. injection Hx as ->. by eexists. }
  rewrite (set_prev_at _ _ _ _ Ex). cbn [mbind M_bind]. rewrite (set_next_at _ n None (Cell (val x) (next x) (tail c4))) by apply lookup_insert_eq.
  cbn [mbind M_bind val prev]. rewrite Ev.
  set (c5 := put _ n _). assert (c5 = set_count (put c3 n (Cell v None (tail c3))) (count c4)) as ->.
  { subst c5 c3 c4. unfold put, set_cells, set_count. cbn. f_equal. rewrite insert_insert_eq. symmetry. apply insert_delete_eq. }
  rewrite (head_or_tail c3 _ n Hl) by done.
  destruct (append_links c3 (l1 ++ l2) n v Hl Hn) as (c6 & E6 & Hi).
  rewrite (put_next_count _ _ _ _ _ E6).
  cbn [mbind M_bind]. eexists. split; [done|]. rewrite app_assoc. split.
  - assert (is_list (set_tail c6 (Some n)) ((l1 ++ l2) ++ [(n, v)])) as Hl6 by (eapply inserting_list; rewrite ?app_nil_r; done).
    exact (is_list_count _ _ _ Hl6).
  - cbn. rewrite (re_count _ _ _ _ _ Hr), Hc, u32_down, u32_up. f_equal. rewrite !length_app. cbn [length]. lia.
  - apply Forall_app in Hd as [? [? ?]%Forall_cons]. apply Forall_app. split; [by apply Forall_app|by apply Forall_singleton].
Qed.

Lemma head_ok c l : list_of c l → listnode_head c = Ok (match l with [] => 0 | (_, v) :: _ => v end).
Proof.
  intros [H _ _]. unfold listnode_head. rewrite (il_head _ _ H). destruct l as [|[a v] l]; [done|]. cbn [first].
  by rewrite (cell_between c [] a v l H).
Qed.

Lemma lookup_ok c l d : list_of c l → listnode_lookup c d = Ok (fst <$> find_in (λ v, d =? v) l).
Proof.
  intros [H _ Hd]. unfold listnode_lookup. apply find_cell_ok; [done|]. eapply Forall_impl; [exact Hd|]. cbn. intros q Hq.
  by rewrite (proj2 (Z.eqb_neq _ _) Hq).
Qed.

Lemma delete_all_ok c l : list_of c l → ∃ c', list_delete_all_node c = Ok (c', l.*2) ∧ list_of c' [].
Proof.
  intros [H _ _]. unfold list_delete_all_node. rewrite (is_list_size _ _ H), (il_head _ _ H).
  destruct (delete_cells_ok c l None (length l) (il_linked _ _ H) (il_nodup _ _ H) (il_dom _ _ H) ltac:(lia)) as (c' & -> & Hc').
  cbn [mbind M_bind]. eexists. split; [done|]. split; [|done|constructor]. split; [done..|constructor|]. intros a. cbn. rewrite Hc', lookup_empty.
  split; [by intros []|set_solver].
Qed.

Lemma add_prev_ok c l1 n w l2 new v : list_of c (l1 ++ (n, w) :: l2) → new ∉ (l1 ++ (n, w) :: l2).*1 → v ≠ 0 →
  ∃ c', list_add_node_prev c n new v = Ok c' ∧ list_of c' (l1 ++ (new, v) :: (n, w) :: l2).
Proof.
  intros H Hn Hv. unfold list_add_node_prev. rewrite (proj2 (Z.eqb_neq _ _) Hv), (cell_between _ _ _ _ _ (lo_list _ _ H)). cbn [negb mbind M_bind prev].
  destruct (insert_prev_links c l1 n w l2 new v (lo_list _ _ H) Hn) as (c1 & c2 & c3 & -> & E2 & E3 & Hi). cbn [mbind M_bind].
  rewrite E2. cbn [mbind M_bind]. rewrite E3. cbn [mbind M_bind]. eexists. split; [done|]. by eapply inserted.
Qed.

Lemma add_next_ok c l1 n w l2 new v : list_of c (l1 ++ (n, w) :: l2) → new ∉ (l1 ++ (n, w) :: l2).*1 → v ≠ 0 →
  ∃ c', list_add_node_next c n new v = Ok c' ∧ list_of c' (l1 ++ (n, w) :: (new, v) :: l2).
Proof.
  intros H Hn Hv. unfold list_add_node_next. rewrite (proj2 (Z.eqb_neq _ _) Hv), (cell_between _ _ _ _ _ (lo_list _ _ H)). cbn [negb mbind M_bind next].
  replace (l1 ++ (n, w) :: l2) with ((l1 ++ [(n, w)]) ++ l2) in * by (by rewrite <-app_assoc).
  replace (l1 ++ (n, w) :: (new, v) :: l2) with ((l1 ++ [(n, w)]) ++ (new, v) :: l2) by (by rewrite <-app_assoc).
  pose proof (halves_put _ _ _ _ _ new (Cell v None (Some n)) (is_list_halves _ _ _ (lo_list _ _ H)) Hn) as H0.
  destruct (put_prev_halves _ _ _ _ _ (Some new) H0) as (c1 & -> & H1 & [F1 D1 C1]). cbn [mbind M_bind].
  assert (new ∉ l2.*1) as Hn2 by (rewrite fmap_app in Hn; set_solver).
  assert (cells c1 !! new = Some (Cell v None (Some n))) as Hx by (rewrite F1 by done; apply lookup_insert_eq).
  rewrite (set_next_at _ _ _ _ Hx). cbn [mbind M_bind val prev].
  pose proof (halves_put _ _ _ _ _ new (Cell v (first l2 None) (Some n)) H1 Hn) as H2.
  destruct (put_next_halves _ _ _ _ _ (Some new) H2) as (c2 & E2 & H3 & [F3 D3 C3]). rewrite final_snoc in E2. cbn [put_next] in E2. rewrite E2.
  cbn [mbind M_bind]. eexists. split; [done|]. eapply inserted; [done..|]. rewrite final_snoc. split; [done| | |by rewrite C3; cbn; rewrite C1].
  - rewrite F3 by (rewrite fmap_app in Hn; set_solver). apply lookup_insert_eq.
  - intros b. rewrite D3, put_dom, D1, put_dom. naive_solver.
Qed.

Lemma add_nodes_ok m q p fuel : linked (cells m) p q None → Forall (λ q, q.2 ≠ 0) q → (length q <= fuel)%nat → ∀ c l news,
  list_of c l → length news = length q → NoDup news → (∀ a, a ∈ news → a ∉ l.*1) →
  ∃ c', add_nodes fuel c m (first q None) news = Ok c' ∧ list_of c' (l ++ zip news q.*2).
Proof.
  revert p fuel. induction q as [|[b w] q IH]; intros p fuel Hl Hd Hf c l news H Hlen Hn Hfr.
  - destruct news; [|done]. cbn [zip_with]. rewrite app_nil_r. exists c. by destruct fuel.
  - destruct Hl as [Hb Hl]. apply Forall_cons in Hd as [Hw Hd]. destruct news as [|a news]; [done|]. destruct fuel as [|fuel]; cbn [length] in *; [lia|].
    apply NoDup_cons in Hn as [Hna Hn]. cbn [add_nodes first]. unfold get. rewrite Hb. cbn [of_opt mbind M_bind val next].
    destruct (node_add_ok c l a w H) as (c1 & -> & H1); [apply Hfr; left|done|]. cbn [mbind M_bind].
    destruct (IH (Some b) fuel Hl Hd ltac:(lia) c1 (l ++ [(a, w)]) news H1) as (c' & -> & H'); [lia|done| |].
    { intros x Hx. rewrite fmap_app. cbn. rewrite not_elem_of_app, not_elem_of_cons. split; [apply Hfr; by right|].
      split; [by intros ->|set_solver]. }
    exists c'. split; [done|]. by rewrite <-app_assoc in H'.
Qed.

Lemma add_list_ok c l m q news : list_of c l → list_of m q → length news = length q → NoDup news → (∀ a, a ∈ news → a ∉ l.*1) →
  ∃ c', list_add_list c m news = Ok c' ∧ list_of c' (l ++ zip news q.*2).
Proof.
  intros H [Hm _ Hd] Hlen Hn Hfr. unfold list_add_list. rewrite (is_list_size _ _ Hm), (il_head _ _ Hm).
  eapply add_nodes_ok; [apply Hm|done|done|done|done|done|done].
Qed.

(** ** All calls *)

(** [listnode_add_sort] has the order of the list as argument, [list_add_list] the
    other list, with its nodes. *)
Inductive list_call :=
  | Add (new : loc) (v : Z)
  | Add_sort (cmp : option (Z → Z → Z)) (new : loc) (v : Z)
  | Add_after (pp : option loc) (new : loc) (v : Z)
  | Move_to_tail (n : loc)
  | Delete (v : Z)
  | Head
  | Delete_all
  | Lookup (v : Z)
  | Delete_node (n : loc)
  | Add_prev (n new : loc) (v : Z)
  | Add_next (n new : loc) (v : Z)
  | Add_list (m : list_) (q : list (loc * Z)) (news : list loc).

(** What a call returns: data, a node, or the data given to [del]. *)
Inductive answer := Nothing | Data (v : Z) | Node (n : option loc) | Freed (l : list Z).

Definition exec_call (c : list_) (k : list_call) : M (list_ * answer) :=
  let done m := (c ← m; Ok (c, Nothing)) in
  match k with
  | Add new v => done (listnode_add c new v)
  | Add_sort cmp new v => done (listnode_add_sort c cmp new v)
  | Add_after pp new v => done (listnode_add_after c pp new v)
  | Move_to_tail n => done (listnode_move_to_tail c n)
  | Delete v => done (listnode_delete c v)
  | Head => v ← listnode_head c; Ok (c, Data v)
  | Delete_all => '(c, l) ← list_delete_all_node c; Ok (c, Freed l)
  | Lookup v => n ← listnode_lookup c v; Ok (c, Node n)
  | Delete_node n => done (list_delete_node c n)
  | Add_prev n new v => done (list_add_node_prev c n new v)
  | Add_next n new v => done (list_add_node_next c n new v)
  | Add_list m q news => done (list_add_list c m news)
  end.

(** The arguments: data that is not NULL, addresses that are not in use, nodes of
    the list. *)
Definition call_ok (l : list (loc * Z)) (k : list_call) : Prop :=
  match k with
  | Add new v | Add_sort _ new v => new ∉ l.*1 ∧ v ≠ 0
  | Add_after pp new v => new ∉ l.*1 ∧ v ≠ 0 ∧ match pp with Some n => n ∈ l.*1 | None => True end
  | Move_to_tail n | Delete_node n => n ∈ l.*1
  | Add_prev n new v | Add_next n new v => new ∉ l.*1 ∧ v ≠ 0 ∧ n ∈ l.*1
  | Add_list m q news => list_of m q ∧ length news = length q ∧ NoDup news ∧ ∀ a, a ∈ news → a ∉ l.*1
  | _ => True
  end.

(** What a call does to the list, and its result. *)
Inductive list_does : list (loc * Z) → list_call → list (loc * Z) → answer → Prop :=
  | does_add l new v : list_does l (Add new v) (l ++ [(new, v)]) Nothing
  | does_add_last l new v : list_does l (Add_sort None new v) (l ++ [(new, v)]) Nothing
  | does_add_sort l1 l2 f new v : Forall (λ q, 0 <= f v q.2) l1 → match l2 with [] => True | q :: _ => f v q.2 < 0 end →
      list_does (l1 ++ l2) (Add_sort (Some f) new v) (l1 ++ (new, v) :: l2) Nothing
  | does_add_first l new v : list_does l (Add_after None new v) ((new, v) :: l) Nothing
  | does_add_after l1 n w l2 new v : list_does (l1 ++ (n, w) :: l2) (Add_after (Some n) new v) (l1 ++ (n, w) :: (new, v) :: l2) Nothing
  | does_move l1 n v l2 : list_does (l1 ++ (n, v) :: l2) (Move_to_tail n) (l1 ++ l2 ++ [(n, v)]) Nothing
  | does_delete l1 n v l2 : Forall (λ q, q.2 ≠ v) l1 → list_does (l1 ++ (n, v) :: l2) (Delete v) (l1 ++ l2) Nothing
  | does_delete_none l v : Forall (λ q, q.2 ≠ v) l → list_does l (Delete v) l Nothing
  | does_head l : list_does l Head l (Data (match l with [] => 0 | (_, v) :: _ => v end))
  | does_delete_all l : list_does l Delete_all [] (Freed l.*2)
  | does_lookup l1 n v l2 : Forall (λ q, q.2 ≠ v) l1 → list_does (l1 ++ (n, v) :: l2) (Lookup v) (l1 ++ (n, v) :: l2) (Node (Some n))
  | does_lookup_none l v : Forall (λ q, q.2 ≠ v) l → list_does l (Lookup v) l (Node None)
  | does_delete_node l1 n v l2 : list_does (l1 ++ (n, v) :: l2) (Delete_node n) (l1 ++ l2) Nothing
  | does_add_prev l1 n w l2 new v : list_does (l1 ++ (n, w) :: l2) (Add_prev n new v) (l1 ++ (new, v) :: (n, w) :: l2) Nothing
  | does_add_next l1 n w l2 new v : list_does (l1 ++ (n, w) :: l2) (Add_next n new v) (l1 ++ (n, w) :: (new, v) :: l2) Nothing
  | does_add_list l m q news : list_does l (Add_list m q news) (l ++ zip news q.*2) Nothing.

Lemma in_split (l : list (loc * Z)) n : n ∈ l.*1 → ∃ l1 v l2, l = l1 ++ (n, v) :: l2.
Proof. intros ([m v] & -> & Hn)%list_elem_of_fmap. apply list_elem_of_split in Hn as (l1 & l2 & ->). eauto. Qed.

Lemma list_call_refines c l k : list_of c l → call_ok l k →
  ∃ c' l' r, exec_call c k = Ok (c', r) ∧ list_does l k l' r ∧ list_of c' l'.
Proof.
  intros H. destruct k as [new v|cmp new v|pp new v|n|v| | |v|n|n new v|n new v|m q news]; cbn [call_ok exec_call].
  - intros [Hn Hv]. destruct (node_add_ok c l new v H Hn Hv) as (c' & -> & H'). eexists _, _, _. split; [done|]. by split; [constructor|].
  - intros [Hn Hv]. destruct (add_sort_ok c l cmp new v H Hn Hv) as (c' & l1 & l2 & -> & -> & H' & Hc). eexists _, _, _. split; [done|]. split; [|exact H'].
    destruct cmp as [f|]; [destruct Hc; by constructor|]. subst l2. rewrite app_nil_r. constructor.
  - intros (Hn & Hv & Hp). destruct pp as [p|].
    + destruct (in_split l p Hp) as (l1 & w & l2 & ->).
      destruct (add_after_ok c (l1 ++ [(p, w)]) l2 new v (Some p)) as (c' & -> & H'); rewrite <-?app_assoc; try done; [by rewrite final_snoc|].
      eexists _, _, _. split; [done|]. rewrite <-app_assoc in H'. by split; [constructor|].
    + destruct (add_after_ok c [] l new v None) as (c' & -> & H'); try done. eexists _, _, _. split; [done|]. by split; [constructor|].
  - intros (l1 & v & l2 & ->)%in_split. destruct (move_to_tail_ok _ _ _ _ _ H) as (c' & -> & H'). eexists _, _, _. split; [done|]. by split; [constructor|].
  - intros _. destruct (node_delete_ok c l v H) as (c' & l' & -> & H' & [[F ->]|(l1 & n & l2 & -> & F & ->)]);
      eexists _, _, _; (split; [done|]); by split; [constructor|].
  - intros _. rewrite (head_ok _ _ H). eexists _, _, _. split; [done|]. by split; [constructor|].
  - intros _. destruct (delete_all_ok _ _ H) as (c' & -> & H'). eexists _, _, _. split; [done|]. by split; [constructor|].
  - intros _. rewrite (lookup_ok _ _ v H). eexists _, _, _. split; [done|]. split; [|done].
    destruct (find_split (λ d, v =? d) l) as [[-> F]|(l1 & n & w & l2 & -> & -> & F & Hw)]; cbn [fmap option_fmap option_map fst].
    + constructor. eapply Forall_impl; [exact F|]. cbn. intros q Hq%Z.eqb_neq. congruence.
    + apply Z.eqb_eq in Hw as ->. constructor. eapply Forall_impl; [exact F|]. cbn. intros q Hq%Z.eqb_neq. congruence.
  - intros (l1 & v & l2 & ->)%in_split. destruct (delete_node_ok _ _ _ _ _ H) as (c' & -> & H'). eexists _, _, _. split; [done|]. by split; [constructor|].
  - intros (Hn & Hv & (l1 & w & l2 & ->)%in_split). destruct (add_prev_ok _ _ _ _ _ _ _ H Hn Hv) as (c' & -> & H'). eexists _, _, _. split; [done|]. by split; [constructor|].
  - intros (Hn & Hv & (l1 & w & l2 & ->)%in_split). destruct (add_next_ok _ _ _ _ _ _ _ H Hn Hv) as (c' & -> & H'). eexists _, _, _. split; [done|]. by split; [constructor|].
  - intros (Hm & Hlen & Hnd & Hf). destruct (add_list_ok c l m q news H Hm Hlen Hnd Hf) as (c' & -> & H'). eexists _, _, _. split; [done|]. by split; [constructor|].
Qed.

(** A program of calls on a new list. *)
Fixpoint run_calls (c : list_) (ks : list list_call) : M (list_ * list answer) :=
  match ks with
  | [] => Ok (c, [])
  | k :: ks => '(c, r) ← exec_call c k; '(c, rs) ← run_calls c ks; Ok (c, r :: rs)
  end.
Fixpoint calls_ok (l : list (loc * Z)) (ks : list list_call) : Prop :=
  match ks with [] => True | k :: ks => call_ok l k ∧ ∀ l' r, list_does l k l' r → calls_ok l' ks end.
Inductive list_trace : list (loc * Z) → list list_call → list answer → list (loc * Z) → Prop :=
  | trace_nil l : list_trace l [] [] l
  | trace_cons l k l1 r ks rs l' : list_does l k l1 r → list_trace l1 ks rs l' → list_trace l (k :: ks) (r :: rs) l'.

Lemma list_run_refines c l ks : list_of c l → calls_ok l ks → ∃ c' l' rs, run_calls c ks = Ok (c', rs) ∧ list_trace l ks rs l' ∧ list_of c' l'.
Proof.
  revert c l. induction ks as [|k ks IH]; intros c l H; cbn [calls_ok run_calls]; [intros _; eexists _, _, _; split; [done|]; by split; [constructor|]|].
  intros [Hk Hks]. destruct (list_call_refines c l k H Hk) as (c1 & l1 & r & -> & Hd & H1). cbn [mbind M_bind].
  destruct (IH c1 l1 H1 (Hks _ _ Hd)) as (c' & l' & rs & -> & Ht & H'). cbn [mbind M_bind]. eexists _, _, _. split; [done|]. split; [by econstructor|done].
Qed.

Lemma new_list_of : list_of new_chain [].
Proof. split; [apply is_list_new|done|constructor]. Qed.

(** C18. The lists of lib/linklist.c.  Any sequence of calls on a new list, with data
    that is not NULL and nodes of the list as arguments, returns without a failed
    assertion or an access to a freed node; each call does to the list what its name
    says ([list_does]), its links stay consistent both ways, and [count] is the
    number of nodes modulo 2^32. *)
Theorem linklist_refines ks : calls_ok [] ks →
  ∃ c l rs, run_calls new_chain ks = Ok (c, rs) ∧ list_trace [] ks rs l ∧
    linked (cells c) None l None ∧ head c = first l None ∧ tail c = final l None ∧ NoDup l.*1 ∧
    (∀ n, is_Some (cells c !! n) ↔ n ∈ l.*1) ∧ count c = u32 (Z.of_nat (length l)).
Proof.
  intros Hks. destruct (list_run_refines new_chain [] ks new_list_of Hks) as (c & l & rs & E & Ht & [[] Hc _]).
  exists c, l, rs. by split_and!.
Qed.

Lemma linklist_refines_witness :
  ∃ c (l : list (loc * Z)) rs, run_calls new_chain [Add 1 7; Add_after (Some 1%positive) 2 8; Delete 7; Head] = Ok (c, rs) ∧ rs = [Nothing; Nothing; Nothing; Data 8] ∧ head c = first l None.
Proof.
  destruct (linklist_refines [Add 1 7; Add_after (Some 1%positive) 2 8; Delete 7; Head]) as (c & l & rs & E & _ & _ & Hh & _).
  - cbn [calls_ok call_ok]. split; [split; [set_solver|done]|]. intros l1 r1 D1. inversion D1; subst. cbn.
    split; [split; [set_solver|]; split; [done|left]|]. intros l2 r2 _. split; [done|]. intros l3 r3 _. split; [done|]. done.
  - exists c, l, rs. split; [exact E|]. split; [|exact Hh]. vm_compute in E. by injection E as _ <-.
Defined.

(** An order: a total preorder as [cmp]. *)
Lemma add_sort_sorted f l new v l' r : (∀ x y, f x y < 0 → f y x >= 0) → (∀ x y z, 0 <= f y x → 0 <= f z y → 0 <= f z x) →
  StronglySorted (λ p q, 0 <= f q.2 p.2) l → list_does l (Add_sort (Some f) new v) l' r → StronglySorted (λ p q, 0 <= f q.2 p.2) l'.
Proof.
  intros Hf Htr Hs Hd. inversion Hd as [| |l1 l2 ? ? ? F1 F2| | | | | | | | | | | | |]; subst. apply StronglySorted_app in Hs as (Hx & Hs1 & Hs2).
  apply StronglySorted_app. split; [|split; [done|] ].
  - intros x1 x2 H1 [->|H2]%elem_of_cons; [by apply (proj1 (Forall_forall _ _) F1)|]. by apply Hx.
  - constructor; [done|]. destruct l2 as [|q l2]; [constructor|]. apply StronglySorted_inv in Hs2 as [_ Hq].
    assert (0 <= f q.2 v) as Hv by (specialize (Hf _ _ F2); lia). constructor; [done|]. eapply Forall_impl; [exact Hq|]. cbn. intros z Hz. by eapply Htr.
Qed.
