(* ===== verification/Plist.v ===== *)
(** Prefix lists: lib/plist.c.  Lists of entries by sequence number, the lists of a
    family by name, the commands without the parsing of their arguments, and the
    outbound route filters of BGP.

    Addresses of new objects are ones that are not in use.  The two hooks of a family
    are set together, as bgpd does; they are recorded when they are called.  Left out
    are [seqnum], which is for the printing of the configuration, and [rangecount],
    which is printed and never set.  Arithmetic on signed integers wraps around. *)
From S2P Require Import Prelude Prefix Stream Hash Chain Message.
Open Scope Z_scope.

Definition AFI_ORF_PREFIX : Z := 65535.
Definition CMD_SUCCESS : Z := 0.
Definition CMD_WARNING : Z := 1.

(** ** Data *)

Inductive prefix_list_type := PREFIX_DENY | PREFIX_PERMIT.
#[export] Instance prefix_list_type_dec : EqDecision prefix_list_type.
Proof. solve_decision. Defined.

Record prefix_list_entry := PEntry {
  e_seq : Z;
  e_le : Z;
  e_ge : Z;
  e_type : prefix_list_type;
  e_any : bool;
  e_prefix : prefix;
  e_refcnt : Z;
  e_hitcnt : Z;
}.
Definition set_seq (e : prefix_list_entry) (n : Z) : prefix_list_entry :=
  PEntry n (e_le e) (e_ge e) (e_type e) (e_any e) (e_prefix e) (e_refcnt e) (e_hitcnt e).
Definition add_counts (e : prefix_list_entry) (ref hit : Z) : prefix_list_entry :=
  PEntry (e_seq e) (e_le e) (e_ge e) (e_type e) (e_any e) (e_prefix e) (u64 (e_refcnt e + ref)) (u64 (e_hitcnt e + hit)).

(** [struct prefix_list]; [number] is [type == PREFIX_TYPE_NUMBER], and the count of
    the entries is part of their chain. *)
Record prefix_list := PList {
  name : list Z;
  desc : option (list Z);
  number : bool;
  entries : chain prefix_list_entry;
}.
Definition set_entries (p : prefix_list) (c : chain prefix_list_entry) : prefix_list := PList (name p) (desc p) (number p) c.
Definition set_desc (p : prefix_list) (d : option (list Z)) : prefix_list := PList (name p) d (number p) (entries p).

(** A list is in [num] or in [str]. *)
Notation ref := (bool * loc)%type.
Inductive hook_call := add_hook (nm : list Z) | delete_hook (nm : option (list Z)).
Record prefix_master := PMaster {
  num : chain prefix_list;
  str : chain prefix_list;
  recent : option ref;
  hooks : bool;
  hook_calls : list hook_call;
}.
Definition lists (m : prefix_master) (b : bool) : chain prefix_list := if b then num m else str m.
Definition set_lists (m : prefix_master) (b : bool) (c : chain prefix_list) : prefix_master :=
  if b then PMaster c (str m) (recent m) (hooks m) (hook_calls m) else PMaster (num m) c (recent m) (hooks m) (hook_calls m).
Definition set_recent (m : prefix_master) (r : option ref) : prefix_master := PMaster (num m) (str m) r (hooks m) (hook_calls m).
Definition hook (m : prefix_master) (c : hook_call) : prefix_master :=
  if hooks m then PMaster (num m) (str m) (recent m) true (hook_calls m ++ [c]) else m.

(** An address that is not in use. *)
Definition malloc {A} (m : gmap loc A) : loc := fresh (dom m).

Definition get_list (m : prefix_master) (r : ref) : M prefix_list := x ← get (lists m (fst r)) (snd r); Ok (val x).
Definition put_list (m : prefix_master) (r : ref) (p : prefix_list) : M prefix_master :=
  c ← set_val (lists m (fst r)) (snd r) p; Ok (set_lists m (fst r) c).

(** ** Lists by name *)

(** [strcmp], of strings without their final zero. *)
Fixpoint strcmp (a b : list Z) : Z :=
  match a, b with
  | [], [] => 0
  | [], y :: _ => - y
  | x :: _, [] => x
  | x :: a, y :: b => if x =? y then strcmp a b else x - y
  end.

Definition prefix_list_lookup (m : prefix_master) (nm : list Z) : M (option ref) :=
  a ← find_cell (num m) (λ p, Ok (strcmp (name p) nm =? 0));
  match a with
  | Some a => Ok (Some (true, a))
  | None =>
      a ← find_cell (str m) (λ p, Ok (strcmp (name p) nm =? 0));
      Ok (match a with Some a => Some (false, a) | None => None end)
  end.

(** The value of the digits a name starts with, in a [long], and whether it has
    nothing else. *)
Definition isdigit (c : Z) : bool := (48 <=? c) && (c <=? 57).
Definition s64 (z : Z) : Z := (z + 2 ^ 63) mod 2 ^ 64 - 2 ^ 63.
Fixpoint scan_number (nm : list Z) (acc : Z) : Z * bool :=
  match nm with
  | [] => (acc, true)
  | c :: nm => if isdigit c then scan_number nm (s64 (acc * 10 + (c - 48))) else (acc, false)
  end.
(** [atol] of such a name stops at the largest value. *)
Fixpoint atol (nm : list Z) (acc : Z) : Z :=
  match nm with c :: nm => if isdigit c then atol nm (Z.min (2 ^ 63 - 1) (acc * 10 + (c - 48))) else acc | [] => acc end.

(** The four cases at the end of [prefix_list_insert]. *)
Definition insert_list (c : chain prefix_list) (point : option loc) (new : loc) (p : prefix_list) : M (chain prefix_list) :=
  match head c, point with
  | None, _ => Ok (set_tail (set_head (put c new (Cell p None None)) (Some new)) (Some new))
  | Some _, None =>
      t ← of_opt (tail c);
      c ← set_next (put c new (Cell p None (tail c))) t (Some new);
      Ok (set_tail c (Some new))
  | Some h, Some pt =>
      if bool_decide (pt = h) then
        c ← set_prev (put c new (Cell p (Some h) None)) h (Some new);
        Ok (set_head c (Some new))
      else
        x ← get c pt;
        let c := put c new (Cell p (Some pt) (prev x)) in
        c ← match prev x with Some q => set_next c q (Some new) | None => Ok c end;
        set_prev c pt (Some new)
  end.

Definition prefix_list_insert (m : prefix_master) (nm : list Z) : M (prefix_master * ref) :=
  let '(n, digits) := scan_number nm 0 in
  let c := lists m digits in
  let new := malloc (cells c) in
  point ← find_cell c (λ p, Ok (if digits then n <=? atol (name p) 0 else 0 <=? strcmp (name p) nm));
  c ← insert_list c point new (PList nm None digits new_chain);
  Ok (set_lists m digits c, (digits, new)).

Definition prefix_list_get (m : prefix_master) (nm : list Z) : M (prefix_master * ref) :=
  r ← prefix_list_lookup m nm;
  match r with Some r => Ok (m, r) | None => prefix_list_insert m nm end.

Definition prefix_list_delete (m : prefix_master) (r : ref) : M prefix_master :=
  p ← get_list m r;
  _ ← delete_cells (base.size (cells (entries p))) (entries p) (head (entries p));
  let c := lists m (number p) in
  x ← get c (snd r);
  c ← put_prev c (next x) (prev x);
  c ← put_next c (prev x) (next x);
  Ok (hook (set_recent (set_lists m (number p) (free_cell c (snd r))) None) (delete_hook None)).

(** ** Entries *)

Definition prefix_list_entry_make (p : prefix) (type : prefix_list_type) (seq le ge : Z) (any : bool) : M prefix_list_entry :=
  q ← prefix_copy prefix_new p;
  Ok (PEntry seq le ge type any q 0 0).

Definition s32 (z : Z) : Z := (z + 2 ^ 31) mod 2 ^ 32 - 2 ^ 31.
Definition prefix_new_seq_get (c : chain prefix_list_entry) : M Z :=
  r ← loop c (λ _ e (maxseq : Z), Ok (inl (if maxseq <? e_seq e then e_seq e else maxseq) : Z + ())) 0;
  Ok (match r with inl maxseq => s32 (Z.quot maxseq 5 * 5 + 5) | inr _ => 0 end).

Definition prefix_seq_check (c : chain prefix_list_entry) (seq : Z) : M (option loc) := find_cell c (λ e, Ok (e_seq e =? seq)).

Definition prefix_list_entry_lookup (c : chain prefix_list_entry) (p : prefix) (type : prefix_list_type) (seq le ge : Z) : M (option loc) :=
  find_cell c (λ e,
    same ← prefix_same (e_prefix e) p;
    Ok (negb (same =? 0) && bool_decide (e_type e = type) && negb ((0 <=? seq) && negb (e_seq e =? seq)) && (e_le e =? le) && (e_ge e =? ge))).

(** [prefix_list_entry_delete] up to [plist->count--]. *)
Definition unlink_entry (c : chain prefix_list_entry) (a : loc) : M (chain prefix_list_entry) :=
  x ← get c a;
  c ← put_next c (prev x) (next x);
  c ← put_prev c (next x) (prev x);
  Ok (set_count (free_cell c a) (count c - 1)).
Definition prefix_list_entry_delete (m : prefix_master) (r : ref) (a : loc) (update_list : bool) : M prefix_master :=
  p ← get_list m r;
  c ← unlink_entry (entries p) a;
  m ← put_list m r (set_entries p c);
  if update_list then
    let m := hook m (delete_hook (Some (name p))) in
    if bool_decide (head c = None) && bool_decide (tail c = None) && bool_decide (desc p = None) then prefix_list_delete m r
    else Ok (set_recent m (Some r))
  else Ok m.

(** [prefix_list_entry_add] from the insertion point to [plist->count++]. *)
Definition insert_entry (c : chain prefix_list_entry) (point : option loc) (new : loc) (e : prefix_list_entry) : M (chain prefix_list_entry) :=
  let c := put c new (Cell e point None) in
  c ← match point with
      | Some pt =>
          x ← get c pt;
          c ← put_next c (prev x) (Some new);
          c ← set_prev c new (prev x);
          set_prev c pt (Some new)
      | None =>
          let t := tail c in
          c ← put_next c t (Some new);
          c ← set_prev c new t;
          Ok (set_tail c (Some new))
      end;
  Ok (set_count c (count c + 1)).
Definition prefix_list_entry_add (m : prefix_master) (r : ref) (e : prefix_list_entry) : M prefix_master :=
  p ← get_list m r;
  let new := malloc (cells (entries p)) in
  seq ← (if e_seq e =? -1 then prefix_new_seq_get (entries p) else Ok (e_seq e));
  replace ← prefix_seq_check (entries p) seq;
  m ← match replace with Some a => prefix_list_entry_delete m r a false | None => Ok m end;
  p ← get_list m r;
  point ← find_cell (entries p) (λ e, Ok (seq <=? e_seq e));
  c ← insert_entry (entries p) point new (set_seq e seq);
  m ← put_list m r (set_entries p c);
  Ok (set_recent (hook m (add_hook (name p))) (Some r)).

(** ** Matching *)

Definition prefix_list_entry_match (e : prefix_list_entry) (p : prefix) : M bool :=
  ret ← prefix_match (e_prefix e) p;
  Ok (if ret =? 0 then false
      else if (e_le e =? 0) && (e_ge e =? 0) then prefixlen (e_prefix e) =? prefixlen p
      else negb (negb (e_le e =? 0) && (e_le e <? prefixlen p)) && negb (negb (e_ge e =? 0) && (prefixlen p <? e_ge e))).

Fixpoint apply_loop (fuel : nat) (c : chain prefix_list_entry) (a : option loc) (p : prefix) : M (chain prefix_list_entry * prefix_list_type) :=
  match a with
  | None => Ok (c, PREFIX_DENY)
  | Some a =>
      x ← get c a;
      c ← set_val c a (add_counts (val x) 1 0);
      hit ← prefix_list_entry_match (val x) p;
      if hit : bool then
        c ← set_val c a (add_counts (val x) 1 1);
        Ok (c, e_type (val x))
      else match fuel with O => Fault Undefined | S fuel' => apply_loop fuel' c (next x) p end
  end.
Definition prefix_list_apply (m : prefix_master) (r : option ref) (p : prefix) : M (prefix_master * prefix_list_type) :=
  match r with
  | None => Ok (m, PREFIX_DENY)
  | Some r =>
      l ← get_list m r;
      if count (entries l) =? 0 then Ok (m, PREFIX_PERMIT) else
      '(c, t) ← apply_loop (base.size (cells (entries l))) (entries l) (head (entries l)) p;
      m ← put_list m r (set_entries l c);
      Ok (m, t)
  end.

(** ** Commands *)

Definition prefix_entry_dup_check (c : chain prefix_list_entry) (e : prefix_list_entry) : M (option loc) :=
  seq ← (if e_seq e =? -1 then prefix_new_seq_get c else Ok (e_seq e));
  find_cell c (λ x,
    same ← prefix_same (e_prefix x) (e_prefix e);
    Ok (negb (same =? 0) && bool_decide (e_type x = e_type e) && (e_le x =? e_le e) && (e_ge x =? e_ge e) && negb (e_seq x =? seq))).

(** The range of an entry: [None] when it is refused, else the [le] that is
    stored. *)
Definition entry_range (afi_ plen ge le : Z) : option Z :=
  if negb (ge =? 0) && (ge <=? plen) then None else
  if negb (le =? 0) && (le <=? plen) then None else
  if negb (le =? 0) && (le <? ge) then None else
  Some (if negb (ge =? 0) && (le =? (if afi_ =? AFI_IP then 32 else 128)) then 0 else le).

(** A new entry of a list. *)
Definition install_entry (m : prefix_master) (nm : list Z) (p : prefix) (type : prefix_list_type) (seq le ge : Z) (any : bool) : M (prefix_master * Z) :=
  '(m, r) ← prefix_list_get m nm;
  e ← prefix_list_entry_make p type seq le ge any;
  l ← get_list m r;
  dup ← prefix_entry_dup_check (entries l) e;
  match dup with
  | Some _ => Ok (m, CMD_WARNING)
  | None => m ← prefix_list_entry_add m r e; Ok (m, CMD_SUCCESS)
  end.

(** [vty_prefix_list_install], with the arguments parsed: [seq] is -1 when it is not
    given, [ge] and [le] are 0; for "any" [p] has length 0, [ge] is 0 and [le] the
    number of bits. *)
Definition vty_prefix_list_install (m : prefix_master) (afi_ : Z) (nm : list Z) (seq : Z) (type : prefix_list_type) (p : prefix)
    (ge le : Z) (any : bool) : M (prefix_master * Z) :=
  match entry_range afi_ (prefixlen p) ge le with
  | None => Ok (m, CMD_WARNING)
  | Some le => install_entry m nm p type seq le ge any
  end.

(** [vty_prefix_list_uninstall], with the arguments parsed in the same way: without an
    entry the whole list. *)
Definition vty_prefix_list_uninstall (m : prefix_master) (nm : list Z) (e : option (Z * prefix_list_type * prefix * Z * Z)) : M (prefix_master * Z) :=
  r ← prefix_list_lookup m nm;
  match r, e with
  | None, _ => Ok (m, CMD_WARNING)
  | Some r, None => m ← prefix_list_delete m r; Ok (m, CMD_SUCCESS)
  | Some r, Some (seq, type, p, ge, le) =>
      l ← get_list m r;
      a ← prefix_list_entry_lookup (entries l) p type seq le ge;
      match a with
      | None => Ok (m, CMD_WARNING)
      | Some a => m ← prefix_list_entry_delete m r a true; Ok (m, CMD_SUCCESS)
      end
  end.

Definition ip_prefix_list_description (m : prefix_master) (nm d : list Z) : M (prefix_master * Z) :=
  '(m, r) ← prefix_list_get m nm;
  l ← get_list m r;
  m ← put_list m r (set_desc l (Some d));
  Ok (m, CMD_SUCCESS).
Definition vty_prefix_list_desc_unset (m : prefix_master) (nm : list Z) : M (prefix_master * Z) :=
  r ← prefix_list_lookup m nm;
  match r with
  | None => Ok (m, CMD_WARNING)
  | Some r =>
      l ← get_list m r;
      m ← put_list m r (set_desc l None);
      m ← (if bool_decide (head (entries l) = None) && bool_decide (tail (entries l) = None) then prefix_list_delete m r else Ok m);
      Ok (m, CMD_SUCCESS)
  end.

(** [prefix_list_reset_ipv4] and its like. *)
Fixpoint delete_lists (fuel : nat) (m : prefix_master) (b : bool) (a : option loc) : M prefix_master :=
  match a, fuel with
  | None, _ => Ok m
  | Some _, O => Fault Undefined
  | Some a, S fuel' =>
      x ← get (lists m b) a;
      m ← prefix_list_delete m (b, a);
      delete_lists fuel' m b (next x)
  end.
Definition prefix_list_reset (m : prefix_master) : M prefix_master :=
  m ← delete_lists (base.size (cells (num m))) m true (head (num m));
  m ← delete_lists (base.size (cells (str m))) m false (head (str m));
  assert! bool_decide (head (num m) = None) ;;
  assert! bool_decide (tail (num m) = None) ;;
  assert! bool_decide (head (str m) = None) ;;
  assert! bool_decide (tail (str m) = None) ;;
  Ok (set_recent m None).

(** ** Outbound route filters *)

(** The numbers are those of a [struct orf_prefix], the sequence number becomes an
    [int]. *)
Definition prefix_bgp_orf_set (m : prefix_master) (nm : list Z) (afi_ : Z) (orfp : orf_prefix) (permit set_ : bool) : M (prefix_master * Z) :=
  let type := if permit then PREFIX_PERMIT else PREFIX_DENY in
  match entry_range afi_ (prefixlen (orf_p orfp)) (orf_ge orfp) (orf_le orfp) with
  | None => Ok (m, CMD_WARNING)
  | Some le =>
      if set_ then install_entry m nm (orf_p orfp) type (s32 (orf_seq orfp)) le (orf_ge orfp) false
      else
        '(m, r) ← prefix_list_get m nm;
        l ← get_list m r;
        a ← prefix_list_entry_lookup (entries l) (orf_p orfp) type (s32 (orf_seq orfp)) le (orf_ge orfp);
        match a with
        | None => Ok (m, CMD_WARNING)
        | Some a => m ← prefix_list_entry_delete m r a true; Ok (m, CMD_SUCCESS)
        end
  end.

Definition prefix_bgp_orf_remove_all (m : prefix_master) (nm : list Z) : M prefix_master :=
  r ← prefix_list_lookup m nm;
  match r with Some r => prefix_list_delete m r | None => Ok m end.

(** [prefix_bgp_show_prefix_list] without a terminal. *)
Definition prefix_bgp_show_prefix_list (m : prefix_master) (nm : list Z) : M Z :=
  r ← prefix_list_lookup m nm;
  match r with None => Ok 0 | Some r => l ← get_list m r; Ok (count (entries l)) end.

(** [prefix_bgp_orf_entry]: the entries of a list in a packet. *)
Definition put_orf_entry (s : stream) (e : prefix_list_entry) (init_flag permit_flag deny_flag : Z) : M stream :=
  let flag := Z.lor init_flag (if bool_decide (e_type e = PREFIX_PERMIT) then permit_flag else deny_flag) in
  '(s, _) ← stream_putc s (u8 flag);
  '(s, _) ← stream_putl s (u32 (e_seq e));
  '(s, _) ← stream_putc s (u8 (e_ge e));
  '(s, _) ← stream_putc s (u8 (e_le e));
  '(s, _) ← stream_put_prefix s (e_prefix e);
  Ok s.
Definition prefix_bgp_orf_entry (s : stream) (c : option (chain prefix_list_entry)) (init_flag permit_flag deny_flag : Z) : M stream :=
  match c with
  | None => Ok s
  | Some c =>
      r ← loop c (λ _ e s, s ← put_orf_entry s e init_flag permit_flag deny_flag; Ok (inl s : stream + ())) s;
      Ok (match r with inl s => s | inr _ => s end)
  end.
