(* ===== verification/PlistSpec.v ===== *)
(** What prefix lists promise: the linked structures of lib/plist.c behave as a
    finite map from names to lists of entries in the order of their sequence
    numbers, and a prefix gets the verdict of the first entry that matches. *)
From stdpp Require Import sorting.
From S2P Require Import Prelude Prefix Stream Hash Chain Message Plist.
Open Scope Z_scope.

(** ** Strings and prefixes *)

(** A string without its final zero. *)
Definition cstring (nm : list Z) : Prop := Forall (λ c, 0 < c < 256) nm.

Lemma strcmp_same a b : cstring a → cstring b → strcmp a b = 0 ↔ a = b.
Proof.
  intros Ha. revert b. induction Ha as [|x a Hx _ IH]; intros [|y b] Hb; cbn [strcmp].
  - done.
  - apply Forall_cons in Hb as [? _]. split; [lia|done].
  - split; [lia|done].
  - apply Forall_cons in Hb as [? Hb]. destruct (Z.eqb_spec x y) as [->|].
    + rewrite IH by done. split; congruence.
    + split; [lia|congruence].
Qed.

(** The bytes of an address, and a copy of a prefix. *)
Definition blen (p : prefix) : nat := Z.to_nat (prefix_blen p).
Definition copied (p : prefix) : prefix := Prefix (family p) (prefixlen p) (take (blen p) (u p) ++ drop (blen p) (replicate 16 0)).
Definition same_prefix (p q : prefix) : bool :=
  bool_decide (family p = family q ∧ prefixlen p = prefixlen q ∧ take (blen p) (u p) = take (blen p) (u q)).

Lemma inet_cases p : inet_ok p → (family p = AF_INET ∧ blen p = 4%nat) ∨ (family p = AF_INET6 ∧ blen p = 16%nat).
Proof. intros (_ & [E|E] & _); [left|right]; (split; [done|]); unfold blen, prefix_blen; by rewrite E. Qed.

Lemma copy_ok p : inet_ok p → prefix_copy prefix_new p = Ok (copied p).
Proof.
  intros Hp. pose proof Hp as ((L & _) & _). unfold prefix_union_size in L. unfold prefix_copy, copied.
  assert (∀ n, 0 <= n <= 16 → (b ← rdn (u p) 0 n; d ← wrn (u prefix_new) 0 b; Ok (Prefix (family p) (prefixlen p) d)) =
    Ok (Prefix (family p) (prefixlen p) (take (Z.to_nat n) (u p) ++ drop (Z.to_nat n) (replicate 16 0)))) as Hn.
  { intros n Hn. rewrite rdn_in_bounds by lia. change (Z.to_nat 0) with 0%nat. cbn [mbind M_bind drop].
    rewrite wrn_in_bounds by (rewrite length_take; cbn; lia). change (Z.to_nat 0) with 0%nat. cbn [mbind M_bind u prefix_new take app Nat.add].
    rewrite drop_0, length_take, Nat.min_l by lia. done. }
  destruct (inet_cases p Hp) as [[E ->]|[E ->]]; rewrite E in *.
  - change (AF_INET =? AF_INET) with true. cbv iota. by rewrite Hn.
  - change (AF_INET6 =? AF_INET) with false. change (AF_INET6 =? AF_INET6) with true. cbv iota. by rewrite Hn.
Qed.

Lemma copied_ok p : inet_ok p → inet_ok (copied p).
Proof.
  intros Hp. pose proof Hp as ((L & B & R) & Hf & Hl). unfold prefix_union_size in L.
  assert (blen p <= 16)%nat as Hb by (destruct (inet_cases p Hp) as [[_ ->]|[_ ->]]; lia). split; [split; [|split]|split; done].
  - cbn [copied u]. rewrite length_app, length_take, length_drop, length_replicate. unfold prefix_union_size. lia.
  - cbn [copied u]. apply Forall_app. split; [by apply Forall_take|]. apply Forall_drop. by apply Forall_replicate.
  - exact R.
Qed.

Lemma same_ok p q : inet_ok p → inet_ok q → prefix_same p q = Ok (if same_prefix p q then 1 else 0).
Proof.
  intros Hp Hq. pose proof Hp as ((Lp & _) & _). pose proof Hq as ((Lq & _) & _). unfold prefix_union_size in *. unfold prefix_same, same_prefix.
  destruct (Z.eqb_spec (family p) (family q)) as [Ef|]; [|rewrite bool_decide_false by tauto; done].
  destruct (Z.eqb_spec (prefixlen p) (prefixlen q)) as [El|]; cbn [andb]; [|rewrite bool_decide_false by tauto; done].
  assert (∀ n, 0 <= n <= 16 → mem_same (u p) (u q) n = Ok (bool_decide (take (Z.to_nat n) (u p) = take (Z.to_nat n) (u q)))) as Hm.
  { intros n Hn. unfold mem_same. rewrite !rdn_in_bounds by lia. done. }
  assert (bool_decide (family p = family q ∧ prefixlen p = prefixlen q ∧ take (blen p) (u p) = take (blen p) (u q)) =
    bool_decide (take (blen p) (u p) = take (blen p) (u q))) as -> by (apply bool_decide_ext; tauto).
  destruct (inet_cases p Hp) as [[E ->]|[E ->]]; rewrite E.
  - change (AF_INET =? AF_INET) with true. change (AF_INET =? AF_INET6) with false. unfold IPV4_MAX_BYTELEN. rewrite Hm by lia. cbn [mbind M_bind].
    change (Z.to_nat 4) with 4%nat. by destruct (bool_decide _).
  - change (AF_INET6 =? AF_INET) with false. change (AF_INET6 =? AF_INET6) with true. unfold IPV6_MAX_BYTELEN. rewrite Hm by lia. cbn [mbind M_bind].
    change (Z.to_nat 16) with 16%nat. by destruct (bool_decide _).
Qed.

(** ** Entries *)

(** An entry without its counters. *)
Definition rule (e : prefix_list_entry) : prefix_list_entry := PEntry (e_seq e) (e_le e) (e_ge e) (e_type e) (e_any e) (e_prefix e) 0 0.

Notation rules_of l := ((λ q : loc * prefix_list_entry, rule q.2) <$> l).
Notation before := (λ e1 e2 : prefix_list_entry, e_seq e1 < e_seq e2).

(** The entries of a list are [R]: in the order of their numbers, with prefixes that
    are valid. *)
Record rules (R : list prefix_list_entry) : Prop := {
  r_sorted : StronglySorted before R;
  r_inet : Forall (λ e, inet_ok (e_prefix e)) R;
}.
Record entries_are (c : chain prefix_list_entry) (R : list prefix_list_entry) : Prop := {
  ea_chain : ∃ l, is_list c l ∧ rules_of l = R;
  ea_count : count c = Z.of_nat (length R);
  ea_rules : rules R;
}.

(** What the operations do to the entries. *)
Definition next_seq (R : list prefix_list_entry) : Z := s32 (Z.quot (foldl (λ m e, Z.max m (e_seq e)) 0 R) 5 * 5 + 5).
Definition number_for (seq : Z) (R : list prefix_list_entry) : Z := if seq =? -1 then next_seq R else seq.
Definition put_rule (e : prefix_list_entry) (R : list prefix_list_entry) : list prefix_list_entry :=
  filter (λ x, e_seq x < e_seq e) R ++ e :: filter (λ x, e_seq e < e_seq x) R.
Definition same_rule (p : prefix) (type : prefix_list_type) (le ge : Z) (x : prefix_list_entry) : bool :=
  same_prefix (e_prefix x) p && bool_decide (e_type x = type) && (e_le x =? le) && (e_ge x =? ge).
Definition duplicate (e : prefix_list_entry) (R : list prefix_list_entry) : bool :=
  existsb (λ x, same_rule (e_prefix e) (e_type e) (e_le e) (e_ge e) x && negb (e_seq x =? number_for (e_seq e) R)) R.
Definition matching (seq : Z) (p : prefix) (type : prefix_list_type) (le ge : Z) (x : prefix_list_entry) : bool :=
  same_rule p type le ge x && ((seq <? 0) || (e_seq x =? seq)).
Definition take_rule (n : Z) (R : list prefix_list_entry) : list prefix_list_entry := filter (λ x, e_seq x ≠ n) R.

Lemma entries_new : entries_are new_chain [].
Proof. split; [exists []; split; [apply is_list_new|done]|done|]. split; constructor. Qed.

Lemma rules_inet l : rules (rules_of l) → Forall (λ q, inet_ok (e_prefix q.2)) l.
Proof. intros [_ H]. by rewrite !Forall_fmap in H. Qed.

(** The number of a cell. *)
Lemma find_rule Q l : (∀ x, Q (rule x) = Q x) → (λ q, rule q.2) <$> find_in Q l = snd <$> list_find (λ x, Q x = true) (rules_of l).
Proof.
  intros HQ. unfold find_in. induction l as [|[a v] l IH]; [done|]. rewrite !fmap_cons. cbn [list_find snd]. rewrite HQ.
  destruct (decide (Q v = true)); [done|]. destruct (list_find _ l) as [[]|], (list_find _ (rules_of l)) as [[]|]; cbn in *; congruence.
Qed.

Lemma filter_all {A} (P : A → Prop) `{∀ x, Decision (P x)} l : Forall P l → filter P l = l.
Proof. induction 1; [done|]. rewrite filter_cons_True by done. congruence. Qed.
Lemma filter_none {A} (P : A → Prop) `{∀ x, Decision (P x)} l : Forall (λ x, ¬ P x) l → filter P l = [].
Proof. induction 1; [done|]. by rewrite filter_cons_False. Qed.

Notation below n := (Forall (λ x : prefix_list_entry, e_seq x < n)).
Notation above n := (Forall (λ x : prefix_list_entry, n < e_seq x)).

(** The entries around a number. *)
Lemma cut n R : StronglySorted before R →
  ∃ R1 R2 M, R = R1 ++ option_list M ++ R2 ∧ below n R1 ∧ above n R2 ∧ match M with Some x => e_seq x = n | None => True end.
Proof.
  induction 1 as [|e R Hs (R1 & R2 & M & -> & H1 & H2 & HM) He]; [exists [], [], None; by repeat constructor|].
  destruct (Z.lt_trichotomy (e_seq e) n) as [Hlt|[Heq|Hgt]].
  - exists (e :: R1), R2, M. split; [done|]. split; [by constructor|]. done.
  - exists [], (R1 ++ option_list M ++ R2), (Some e). split; [done|]. split; [constructor|]. split; [|done].
    eapply Forall_impl; [exact He|]. cbn. lia.
  - exists [], (e :: R1 ++ option_list M ++ R2), None. split; [done|]. split; [constructor|]. split; [|done].
    constructor; [done|]. eapply Forall_impl; [exact He|]. cbn. lia.
Qed.

Section cut.
Context (n : Z) (R1 R2 : list prefix_list_entry) (M : option prefix_list_entry).
Hypothesis (H1 : below n R1) (H2 : above n R2) (HM : match M with Some x => e_seq x = n | None => True end).

Lemma cut_middle (P : prefix_list_entry → Prop) : (∀ x, e_seq x = n → P x) → Forall P (option_list M).
Proof. destruct M; repeat constructor. auto. Qed.

Lemma cut_take : take_rule n (R1 ++ option_list M ++ R2) = R1 ++ R2.
Proof.
  unfold take_rule. rewrite !filter_app, (filter_all _ R1), (filter_none _ (option_list M)), (filter_all _ R2); [done|..].
  - eapply Forall_impl; [exact H2|]. cbn. lia.
  - apply cut_middle. auto.
  - eapply Forall_impl; [exact H1|]. cbn. lia.
Qed.
Lemma cut_put e : e_seq e = n → put_rule e (R1 ++ option_list M ++ R2) = R1 ++ e :: R2.
Proof.
  intros He. unfold put_rule. rewrite He, !filter_app.
  rewrite (filter_all (λ x, e_seq x < n) R1), (filter_all (λ x, n < e_seq x) R2) by done.
  rewrite !(filter_none _ (option_list M)) by (apply cut_middle; intros; lia).
  rewrite (filter_none _ R1), (filter_none _ R2), app_nil_r; [done|..]; (eapply Forall_impl; [eassumption|]); cbn; lia.
Qed.
Lemma cut_sorted e : e_seq e = n → StronglySorted before (R1 ++ option_list M ++ R2) →
  StronglySorted before (R1 ++ R2) ∧ StronglySorted before (R1 ++ e :: R2).
Proof.
  intros He (Hx & Hs1 & (_ & _ & Hs2)%StronglySorted_app)%StronglySorted_app.
  split; apply StronglySorted_app; (split; [|split; [done|] ]).
  - intros x1 x2 Hx1 Hx2. rewrite Forall_forall in H1, H2. specialize (H1 x1 Hx1). specialize (H2 x2 Hx2). cbn in *. lia.
  - done.
  - intros x1 x2 Hx1. rewrite Forall_forall in H1, H2. specialize (H1 x1 Hx1). cbn in H1. intros [->|Hx2]%elem_of_cons; [lia|].
    specialize (H2 x2 Hx2). cbn in *. lia.
  - constructor; [done|]. eapply Forall_impl; [exact H2|]. cbn. lia.
Qed.
End cut.

(** The cells. *)
Lemma unlink_entry_ok c l1 a v l2 : is_list c (l1 ++ (a, v) :: l2) →
  ∃ c', unlink_entry c a = Ok c' ∧ is_list c' (l1 ++ l2) ∧ count c' = count c - 1.
Proof.
  intros H. unfold unlink_entry. rewrite (cell_between _ _ _ _ _ H). cbn [mbind M_bind next prev].
  destruct (unlink_links _ _ _ _ _ H) as (c1 & c2 & -> & E2 & Hr). cbn [mbind M_bind]. rewrite E2. cbn [mbind M_bind]. eexists. split; [done|].
  split; [eapply is_list_count, removed_list; done|]. cbn. by rewrite (re_count _ _ _ _ _ Hr).
Qed.

Lemma insert_entry_ok c l1 l2 new e : is_list c (l1 ++ l2) → new ∉ (l1 ++ l2).*1 →
  ∃ c', insert_entry c (first l2 None) new e = Ok c' ∧ is_list c' (l1 ++ (new, e) :: l2) ∧ count c' = count c + 1.
Proof.
  intros H Hn. unfold insert_entry. destruct l2 as [|[pt w] l2]; cbn [first].
  - rewrite app_nil_r in *. destruct (insert_last_links c l1 new e H Hn) as (c1 & c2 & E1 & E2 & Hi). cbn [tail put set_cells] in *.
    unfold put, set_cells in *. rewrite E1. cbn [mbind M_bind]. rewrite E2. cbn [mbind M_bind]. eexists. split; [done|].
    split; [|rewrite <-(in_count _ _ _ _ _ _ Hi); done]. eapply is_list_count, inserting_list; rewrite ?app_nil_r; done.
  - assert (pt ≠ new) as Hne by (intros ->; apply Hn; rewrite fmap_app; cbn; set_solver).
    assert (get (put c new (Cell e (Some pt) None)) pt = get c pt) as -> by (unfold get; cbn; by rewrite lookup_insert_ne).
    rewrite (cell_between _ _ _ _ _ H). cbn [mbind M_bind prev].
    destruct (insert_prev_links c l1 pt w l2 new e H Hn) as (c1 & c2 & c3 & -> & E2 & E3 & Hi). cbn [mbind M_bind].
    rewrite E2. cbn [mbind M_bind]. rewrite E3. cbn [mbind M_bind]. eexists. split; [done|].
    split; [|cbn; by rewrite (in_count _ _ _ _ _ _ Hi)]. by eapply is_list_count, inserting_list.
Qed.

Lemma find_first {A} (Q : A → bool) (l1 l2 : list (loc * A)) : Forall (λ q, Q q.2 = false) l1 → match l2 with [] => True | (_, v) :: _ => Q v = true end →
  fst <$> find_in Q (l1 ++ l2) = first l2 None.
Proof.
  intros H1 H2. unfold find_in. induction H1 as [|[b w] l1 Hw _ IH]; cbn [app].
  - destruct l2 as [|[a v] l2]; [done|]. cbn [list_find snd]. by rewrite decide_True.
  - cbn [list_find snd] in *. rewrite decide_False by congruence. by destruct (list_find _ (l1 ++ l2)) as [[]|].
Qed.

Lemma find_pure {A} (c : chain A) (Q : A → bool) l : is_list c l → find_cell c (λ v, Ok (Q v)) = Ok (fst <$> find_in Q l).
Proof. intros H. apply (find_cell_ok _ _ _ _ H). by apply Forall_forall. Qed.

Lemma next_seq_ok c R : entries_are c R → prefix_new_seq_get c = Ok (next_seq R).
Proof.
  intros [(l & Hl & <-) _ _]. unfold prefix_new_seq_get, next_seq. rewrite (loop_ok _ _ _ _ Hl). clear Hl.
  assert (∀ z, fold_until (λ _ e (maxseq : Z), Ok (inl (if maxseq <? e_seq e then e_seq e else maxseq) : Z + ())) l z =
    Ok (inl (foldl (λ m e, Z.max m (e_seq e)) z (rules_of l)))) as ->; [|done].
  induction l as [|[a v] l IH]; intros z; [done|]. cbn [fold_until mbind M_bind]. rewrite IH, fmap_cons. cbn [foldl e_seq rule snd].
  do 3 f_equal. destruct (Z.ltb_spec z (e_seq v)); lia.
Qed.

Lemma number_ok c R seq : entries_are c R → (if seq =? -1 then prefix_new_seq_get c else Ok seq) = Ok (number_for seq R).
Proof. intros H. unfold number_for. destruct (seq =? -1); [by apply next_seq_ok|done]. Qed.

(** The cells around a number. *)
Lemma cut_cells n l : StronglySorted before (rules_of l) →
  ∃ l1 l2 M, l = l1 ++ option_list M ++ l2 ∧ below n (rules_of l1) ∧ above n (rules_of l2) ∧
    match M with Some q => e_seq q.2 = n | None => True end.
Proof.
  intros H. destruct (cut n _ H) as (R1 & R2 & M & E & H1 & H2 & HM). apply fmap_app_inv in E as (l1 & l' & -> & E & ->).
  symmetry in E. apply fmap_app_inv in E as (l0 & l2 & E0 & -> & ->). destruct M as [x|], l0 as [|q [|]]; try done; cbn in E0.
  - exists l1, l2, (Some q). injection E0 as ->. by split.
  - by exists l1, l2, None.
Qed.

Lemma rules_find n l1 l2 : below n (rules_of l1) → above n (rules_of l2) →
  fst <$> find_in (λ e, n <=? e_seq e) (l1 ++ l2) = first l2 None.
Proof.
  intros H1 H2. apply find_first.
  - apply Forall_fmap in H1. eapply Forall_impl; [exact H1|]. cbn. intros q Hq. apply Z.leb_gt. done.
  - destruct l2 as [|[a v] l2]; [done|]. apply Forall_cons in H2 as [H2 _]. apply Z.leb_le. cbn in H2. lia.
Qed.

Lemma seq_find n l1 M l2 : below n (rules_of l1) → above n (rules_of l2) → match M with Some q => e_seq q.2 = n | None => True end →
  fst <$> find_in (λ e, e_seq e =? n) (l1 ++ option_list M ++ l2) = fst <$> M.
Proof.
  intros H1 H2 HM. rewrite Forall_fmap in H1, H2.
  assert (Forall (λ q, (e_seq q.2 =? n) = false) l1) as F1 by (eapply Forall_impl; [exact H1|]; cbn; lia).
  assert (Forall (λ q, (e_seq q.2 =? n) = false) l2) as F2 by (eapply Forall_impl; [exact H2|]; cbn; lia).
  destruct M as [ [a v]|]; cbn [option_list option_rect app].
  - rewrite find_first; [done|done|]. by apply Z.eqb_eq.
  - rewrite <-(app_nil_r (l1 ++ l2)), find_first; [done| |done]. by apply Forall_app.
Qed.

(** [prefix_list_entry_add], on the chain of entries. *)
Lemma add_entry_ok c R e new : entries_are c R → inet_ok (e_prefix e) → cells c !! new = None →
  let n := number_for (e_seq e) R in
  ∃ rep c1 point c2, prefix_seq_check c n = Ok rep ∧ (match rep with Some a => unlink_entry c a | None => Ok c end) = Ok c1 ∧
    entries_are c1 (take_rule n R) ∧ find_cell c1 (λ e, Ok (n <=? e_seq e)) = Ok point ∧
    insert_entry c1 point new (set_seq e n) = Ok c2 ∧ entries_are c2 (put_rule (rule (set_seq e n)) R).
Proof.
  intros [(l & Hl & <-) Hc [Hs Hi] ] He Hnew n. rewrite length_fmap in Hc.
  destruct (cut_cells n l Hs) as (l1 & l2 & M & -> & H1 & H2 & HM).
  assert (new ∉ (l1 ++ l2).*1) as Hn.
  { intros Ha. assert (new ∈ (l1 ++ option_list M ++ l2).*1) as Hb%(il_dom _ _ Hl) by (rewrite !fmap_app in *; set_solver). rewrite Hnew in Hb. by destruct Hb. }
  assert (∃ c1, match fst <$> M with Some a => unlink_entry c a | None => Ok c end = Ok c1 ∧ is_list c1 (l1 ++ l2) ∧ count c1 = Z.of_nat (length (l1 ++ l2))) as (c1 & E1 & Hl1 & Hc1).
  { destruct M as [ [a v]|]; cbn [option_list option_rect app fmap option_fmap option_map fst] in *; [|by exists c].
    destruct (unlink_entry_ok _ _ _ _ _ Hl) as (c1 & -> & Hl1 & Hc1). exists c1. split; [done|]. split; [done|]. rewrite Hc1, Hc, !length_app. cbn. lia. }
  destruct (insert_entry_ok c1 l1 l2 new (set_seq e n) Hl1 Hn) as (c2 & E2 & Hl2 & Hc2).
  exists (fst <$> M), c1, (first l2 None), c2. unfold prefix_seq_check. rewrite (find_pure _ _ _ Hl), seq_find by done. split; [done|]. split; [done|].
  rewrite (find_pure _ _ _ Hl1), rules_find by done.
  set (R1 := rules_of l1) in *. set (R2 := rules_of l2) in *. set (M' := (λ q : loc * prefix_list_entry, rule q.2) <$> M).
  assert (rules_of (l1 ++ option_list M ++ l2) = R1 ++ option_list M' ++ R2) as HR by (rewrite !fmap_app; by destruct M).
  rewrite HR in *. rewrite (cut_take n) by (try done; by destruct M). rewrite (cut_put n) by (try done; by destruct M).
  destruct (cut_sorted n R1 R2 M' H1 H2 (rule (set_seq e n)) eq_refl Hs) as [Hs1 Hs2].
  apply Forall_app in Hi as [Hi1 [_ Hi2]%Forall_app].
  split; [|split; [done|split; [done|] ] ].
  - split; [exists (l1 ++ l2); by rewrite fmap_app|by rewrite Hc1, !length_app; unfold R1, R2; rewrite !length_fmap|]. split; [done|by apply Forall_app].
  - split; [exists (l1 ++ (new, set_seq e n) :: l2); by rewrite fmap_app| |].
    + rewrite Hc2, Hc1, !length_app. cbn. unfold R1, R2. rewrite !length_fmap. lia.
    + split; [done|]. apply Forall_app. split; [done|]. by constructor.
Qed.

Definition is_some {A} (o : option A) : bool := if o then true else false.

Lemma find_exists Q l : (∀ x, Q (rule x) = Q x) → is_some (fst <$> find_in Q l) = existsb Q (rules_of l).
Proof.
  intros HQ. unfold find_in. induction l as [|[a v] l IH]; [done|]. rewrite fmap_cons. cbn [list_find existsb snd]. rewrite HQ.
  destruct (Q v) eqn:E; [by rewrite decide_True|]. rewrite decide_False by congruence. cbn [orb]. rewrite <-IH. by destruct (list_find _ l) as [[]|].
Qed.

Lemma duplicate_ok c R e : entries_are c R → inet_ok (e_prefix e) →
  ∃ o, prefix_entry_dup_check c e = Ok o ∧ is_some o = duplicate e R.
Proof.
  intros H He. unfold prefix_entry_dup_check. rewrite (number_ok _ _ _ H). cbn [mbind M_bind]. destruct H as [(l & Hl & HR) _ [_ Hi] ].
  rewrite <-HR in Hi. rewrite Forall_fmap in Hi. unfold duplicate. generalize (number_for (e_seq e) R). intros n. rewrite <-HR, <-find_exists by done. eexists. split; [|done].
  apply (find_cell_ok _ _ _ _ Hl). eapply Forall_impl; [exact Hi|]. cbn. intros [a x] Hx. cbn in *. rewrite same_ok by done. cbn [mbind M_bind].
  unfold same_rule. by destruct (same_prefix _ _).
Qed.

Lemma split_sorted R1 x R2 : StronglySorted before (R1 ++ x :: R2) → take_rule (e_seq x) (R1 ++ x :: R2) = R1 ++ R2 ∧ StronglySorted before (R1 ++ R2).
Proof.
  intros H. pose proof H as (Hx & _ & [_ H2]%StronglySorted_inv)%StronglySorted_app.
  assert (below (e_seq x) R1) as H1 by (apply Forall_forall; intros y Hy; apply Hx; [done|left]).
  split; [by apply (cut_take (e_seq x) R1 R2 (Some x))|]. by apply (cut_sorted (e_seq x) R1 R2 (Some x) H1 H2 x).
Qed.

(** [prefix_list_entry_lookup], and the entry it finds deleted. *)
Lemma lookup_entry_ok c R p type seq le ge : entries_are c R → inet_ok p →
  ∃ o, prefix_list_entry_lookup c p type seq le ge = Ok o ∧
    match snd <$> list_find (λ x, matching seq p type le ge x = true) R with
    | None => o = None
    | Some x => ∃ a c', o = Some a ∧ unlink_entry c a = Ok c' ∧ entries_are c' (take_rule (e_seq x) R)
    end.
Proof.
  intros [(l & Hl & <-) Hc [Hs Hi] ] Hp. rewrite length_fmap in Hc. pose proof Hi as Hi'. rewrite Forall_fmap in Hi'.
  rewrite <-(find_rule (matching seq p type le ge)) by done. unfold prefix_list_entry_lookup.
  rewrite (find_cell_ok _ _ (matching seq p type le ge) _ Hl).
  2:{ eapply Forall_impl; [exact Hi'|]. cbn. intros [a x] Hx. cbn in *. rewrite same_ok by done. cbn [mbind M_bind].
      unfold matching, same_rule. destruct (same_prefix _ _), (bool_decide _), (e_le x =? le), (e_ge x =? ge), (e_seq x =? seq), (Z.ltb_spec seq 0), (Z.leb_spec 0 seq); try done; lia. }
  eexists. split; [done|]. destruct (find_split (matching seq p type le ge) l) as [[-> _]|(l1 & a & v & l2 & -> & -> & _ & _)]; [done|].
  destruct (unlink_entry_ok _ _ _ _ _ Hl) as (c' & E & Hl' & Hc'). cbn [fmap option_fmap option_map fst snd]. exists a, c'. split; [done|]. split; [done|].
  rewrite fmap_app, fmap_cons in *. destruct (split_sorted _ _ _ Hs) as [Ht Hs']. cbn [e_seq rule snd] in *. rewrite Ht. split.
  - exists (l1 ++ l2). by rewrite fmap_app.
  - rewrite Hc', Hc, !length_app, !length_fmap. cbn. lia.
  - split; [done|]. apply Forall_app in Hi as [? [_ ?]%Forall_cons]. by apply Forall_app.
Qed.

(** ** Matching *)

Definition in_range (e : prefix_list_entry) (len : Z) : bool :=
  if (e_le e =? 0) && (e_ge e =? 0) then len =? prefixlen (e_prefix e)
  else ((e_le e =? 0) || (len <=? e_le e)) && ((e_ge e =? 0) || (e_ge e <=? len)).
Definition applies (p : prefix) (e : prefix_list_entry) : bool := bool_decide (key (e_prefix e) `prefix_of` key p) && in_range e (prefixlen p).
Definition decided (R : list prefix_list_entry) (p : prefix) : prefix_list_type :=
  match list_find (λ e, applies p e = true) R with Some (_, e) => e_type e | None => PREFIX_DENY end.
Definition verdict (R : list prefix_list_entry) (p : prefix) : prefix_list_type := match R with [] => PREFIX_PERMIT | _ => decided R p end.

Lemma match_ok e p : inet_ok (e_prefix e) → prefix_ok p → prefix_list_entry_match e p = Ok (applies p e).
Proof.
  intros [He _] Hp. unfold prefix_list_entry_match, applies, in_range. rewrite prefix_match_key by done. cbn [mbind M_bind].
  destruct (decide _) as [Hk|Hk]; [rewrite bool_decide_true by done|by rewrite bool_decide_false]. cbn. f_equal.
  destruct (e_le e =? 0), (e_ge e =? 0); cbn [andb orb negb]; rewrite ?andb_true_r, ?Z.ltb_antisym, ?negb_involutive; try done. apply Z.eqb_sym.
Qed.

Lemma apply_cells p l2 : prefix_ok p → ∀ l1 c fuel, is_list c (l1 ++ l2) → Forall (λ q, inet_ok (e_prefix q.2)) l2 → (length l2 <= fuel)%nat →
  ∃ c' l', apply_loop fuel c (first l2 None) p = Ok (c', decided (rules_of l2) p) ∧ is_list c' (l1 ++ l') ∧ rules_of l' = rules_of l2 ∧ count c' = count c.
Proof.
  intros Hp. induction l2 as [|[a v] l2 IH]; intros l1 c fuel Hl Hi Hf; [exists c, []; by destruct fuel|].
  apply Forall_cons in Hi as [Hv Hi]. cbn [length snd] in *. assert (∀ n m, rule (add_counts v n m) = rule v) as Hr by done.
  assert (∃ c1, set_val c a (add_counts v 1 0) = Ok c1 ∧ is_list c1 (l1 ++ (a, add_counts v 1 0) :: l2) ∧ count c1 = count c) as (c1 & E1 & Hl1 & Hc1) by (by eapply set_val_ok).
  rewrite fmap_cons. unfold decided. cbn [list_find snd]. cbn [applies rule e_prefix] in *. change (applies p (rule v)) with (applies p v).
  destruct fuel as [|fuel]; [lia|]. cbn [apply_loop first]. rewrite (cell_between _ _ _ _ _ Hl). cbn [mbind M_bind val next].
  rewrite E1. cbn [mbind M_bind]. rewrite (match_ok _ _ Hv Hp). cbn [mbind M_bind].
  destruct (applies p v) eqn:E.
  - destruct (set_val_ok _ _ _ _ _ (add_counts v 1 1) Hl1) as (c2 & -> & Hl2 & Hc2). cbn [mbind M_bind]. rewrite decide_True by done.
    exists c2, ((a, add_counts v 1 1) :: l2). split; [done|]. split; [done|]. split; [done|congruence].
  - rewrite decide_False by congruence. destruct (IH (l1 ++ [(a, add_counts v 1 0)]) c1 fuel) as (c' & l' & -> & Hl' & Hl2 & Hc'); [by rewrite <-app_assoc|done|lia|].
    exists c', ((a, add_counts v 1 0) :: l'). split; [unfold decided; by destruct (list_find _ (rules_of l2)) as [[]|]|].
    split; [by rewrite <-app_assoc in Hl'|]. split; [by rewrite fmap_cons, Hl2|congruence].
Qed.

Lemma apply_ok c R p : entries_are c R → prefix_ok p →
  ∃ c', apply_loop (base.size (cells c)) c (head c) p = Ok (c', decided R p) ∧ entries_are c' R.
Proof.
  intros [(l & Hl & <-) Hc Hr] Hp. rewrite (il_head _ _ Hl), (is_list_size _ _ Hl).
  destruct (apply_cells p l Hp [] c (length l) Hl (rules_inet _ Hr)) as (c' & l' & E & Hl' & Hr' & Hc'); [done|].
  exists c'. split; [done|]. split; [by exists l'|congruence|done].
Qed.

(** ** Lists by name *)

Definition digits (nm : list Z) : bool := snd (scan_number nm 0).

(** A list: its description and its entries. *)
Record a_list := AList { a_desc : option (list Z); a_rules : list prefix_list_entry }.
Definition no_list : a_list := AList None [].
Definition list_named (nm : list Z) (A : gmap (list Z) a_list) : a_list := default no_list (A !! nm).
Definition list_is (p : prefix_list) (al : a_list) : Prop := desc p = a_desc al ∧ entries_are (entries p) (a_rules al).

Notation named := (λ q : loc * prefix_list, name q.2).
Notation in_order := (StronglySorted (λ x y : list Z, strcmp x y < 0)).

(** The lists of a family are [A]: each is in the one of the two chains its name
    belongs to, and the names that are not numbers are in order. *)
Record names_are (L : bool → list (loc * prefix_list)) (A : gmap (list Z) a_list) : Prop := {
  la_names b : NoDup (named <$> L b);
  la_kind b q : q ∈ L b → cstring (name q.2) ∧ number q.2 = b ∧ digits (name q.2) = b;
  la_in b q : q ∈ L b → ∃ al, A !! name q.2 = Some al ∧ list_is q.2 al;
  la_all nm : is_Some (A !! nm) → ∃ b q, q ∈ L b ∧ name q.2 = nm;
  la_order : in_order (named <$> L false);
}.
Record lists_are (m : prefix_master) (L : bool → list (loc * prefix_list)) (A : gmap (list Z) a_list) : Prop := {
  la_chain b : is_list (lists m b) (L b);
  la_are : names_are L A;
}.
Record master_is (m : prefix_master) (A : gmap (list Z) a_list) : Prop := {
  ma_lists : ∃ L, lists_are m L A;
  ma_recent : match recent m with Some r => ∃ p, get_list m r = Ok p | None => True end;
}.

Lemma lists_set m b c b' : lists (set_lists m b c) b' = if eqb b' b then c else lists m b'.
Proof. by destruct b, b'. Qed.

Lemma get_in m L A b a p : lists_are m L A → (a, p) ∈ L b → get_list m (b, a) = Ok p.
Proof.
  intros H (l1 & l2 & E)%list_elem_of_split. unfold get_list. cbn [fst snd]. pose proof (la_chain _ _ _ H b) as Hl. rewrite E in Hl.
  by rewrite (cell_between _ _ _ _ _ Hl).
Qed.
Lemma in_get m L A b a p : lists_are m L A → get_list m (b, a) = Ok p → (a, p) ∈ L b.
Proof.
  intros H Hg. destruct (cells (lists m b) !! a) as [x|] eqn:Ex; [|unfold get_list, get in Hg; cbn in Hg; by rewrite Ex in Hg].
  assert (a ∈ (L b).*1) as ([a' p'] & -> & Hp)%list_elem_of_fmap by (apply (il_dom _ _ (la_chain _ _ _ H b)); by rewrite Ex).
  cbn [fst] in *. rewrite (get_in _ _ _ _ _ _ H Hp) in Hg. by injection Hg as <-.
Qed.

Lemma get_is m A r p : master_is m A → get_list m r = Ok p → cstring (name p) ∧ ∃ al, A !! name p = Some al ∧ list_is p al.
Proof.
  intros [(L & H) _] Hg. destruct r as [b a]. apply (in_get _ _ _ _ _ _ H) in Hg. split; [by apply (la_kind _ _ (la_are _ _ _ H)) in Hg as [? _]|].
  exact (la_in _ _ (la_are _ _ _ H) _ _ Hg).
Qed.

Lemma named_find m L A b nm : lists_are m L A → cstring nm →
  ∃ o, find_cell (lists m b) (λ p, Ok (strcmp (name p) nm =? 0)) = Ok o ∧
    match o with Some a => ∃ p, (a, p) ∈ L b ∧ name p = nm | None => ∀ q, q ∈ L b → name q.2 ≠ nm end.
Proof.
  intros H Hn. rewrite (find_pure _ _ _ (la_chain _ _ _ H b)). eexists. split; [done|].
  destruct (find_split (λ p, strcmp (name p) nm =? 0) (L b)) as [[-> F]|(l1 & a & v & l2 & E & -> & _ & Hv)]; cbn [fmap option_fmap option_map fst].
  - intros q Hq Eq. rewrite Forall_forall in F. specialize (F q Hq). apply Z.eqb_neq in F. apply F.
    apply strcmp_same; [by apply (la_kind _ _ (la_are _ _ _ H)) in Hq as [? _]|done|done].
  - assert ((a, v) ∈ L b) as Hin by (rewrite E; set_solver). exists v. split; [done|].
    apply strcmp_same; [by apply (la_kind _ _ (la_are _ _ _ H)) in Hin as [? _]|done|lia].
Qed.

Lemma lookup_list m A nm : master_is m A → cstring nm →
  ∃ o, prefix_list_lookup m nm = Ok o ∧
    match o with
    | Some r => ∃ p al, get_list m r = Ok p ∧ name p = nm ∧ A !! nm = Some al ∧ list_is p al
    | None => A !! nm = None
    end.
Proof.
  intros [(L & H) _] Hn. unfold prefix_list_lookup. destruct (named_find m L A true nm H Hn) as (o1 & E1 & H1). cbn [lists] in E1. rewrite E1. cbn [mbind M_bind].
  assert (∀ b a p, (a, p) ∈ L b → name p = nm → ∃ p al, get_list m (b, a) = Ok p ∧ name p = nm ∧ A !! nm = Some al ∧ list_is p al) as Hin.
  { intros b a p Hp <-. destruct (la_in _ _ (la_are _ _ _ H) _ _ Hp) as (al & ? & ?). exists p, al. split; [by eapply get_in|]. done. }
  destruct o1 as [a|]; [destruct H1 as (p & Hp & Ep); eexists; split; [done|]; by eapply Hin|].
  destruct (named_find m L A false nm H Hn) as (o2 & E2 & H2). cbn [lists] in E2. rewrite E2. cbn [mbind M_bind].
  destruct o2 as [a|]; [destruct H2 as (p & Hp & Ep); eexists; split; [done|]; by eapply Hin|].
  eexists. split; [done|]. apply eq_None_not_Some. intros (b & q & Hq & Eq)%(la_all _ _ (la_are _ _ _ H)). destruct b; [by apply (H1 q)|by apply (H2 q)].
Qed.

(** One of the lists taken out and put in. *)
Definition without (L : bool → list (loc * prefix_list)) (b : bool) (l1 l2 : list (loc * prefix_list)) (b' : bool) := if eqb b' b then l1 ++ l2 else L b'.
Definition within (L : bool → list (loc * prefix_list)) (b : bool) (l1 : list (loc * prefix_list)) x l2 (b' : bool) := if eqb b' b then l1 ++ x :: l2 else L b'.

Lemma in_within L b l1 x l2 b' q : q ∈ within L b l1 x l2 b' ↔ (b' = b ∧ q = x) ∨ q ∈ without L b l1 l2 b'.
Proof. unfold within, without. destruct (Bool.eqb_spec b' b) as [->|]; set_solver. Qed.
Lemma in_within_same L b l1 x l2 : L b = l1 ++ x :: l2 → ∀ b', within L b l1 x l2 b' = L b'.
Proof. intros E b'. unfold within. by destruct (Bool.eqb_spec b' b) as [->|]. Qed.

Lemma names_same L L' A : (∀ b, L' b = L b) → names_are L A → names_are L' A.
Proof.
  intros HL [N1 N2 N3 N4 N5]. split.
  - intros b. by rewrite HL.
  - intros b q. rewrite HL. apply N2.
  - intros b q. rewrite HL. apply N3.
  - intros nm Hnm. destruct (N4 nm Hnm) as (b & q & ?). exists b, q. by rewrite HL.
  - by rewrite HL.
Qed.

Lemma sorted_middle {A} (R : A → A → Prop) l1 x l2 : StronglySorted R (l1 ++ x :: l2) → StronglySorted R (l1 ++ l2).
Proof.
  intros (H1 & H2 & [H3 _]%StronglySorted_inv)%StronglySorted_app. apply StronglySorted_app. split; [|done]. intros y z Hy Hz. apply H1; [done|by right].
Qed.

Lemma names_remove L A b l1 a p l2 : names_are L A → L b = l1 ++ (a, p) :: l2 → names_are (without L b l1 l2) (delete (name p) A).
Proof.
  intros [Hn Hk Hi Ha Ho] E.
  assert (∀ b' q, q ∈ without L b l1 l2 b' → q ∈ L b' ∧ name q.2 ≠ name p) as Hq.
  { intros b' q. unfold without. destruct (Bool.eqb_spec b' b) as [->|Hb]; intros Hq.
    - split; [rewrite E; set_solver|]. specialize (Hn b). rewrite E, fmap_app, fmap_cons, <-Permutation_middle in Hn. apply NoDup_cons in Hn as [Hn _].
      intros Eq. apply Hn. rewrite <-fmap_app. apply list_elem_of_fmap. by exists q.
    - split; [done|]. intros Eq. apply Hb. destruct (Hk b' q Hq) as (_ & _ & <-). rewrite Eq. destruct (Hk b (a, p)) as (_ & _ & Hd); [rewrite E; set_solver|done]. }
  split.
  - intros b'. unfold without. destruct (Bool.eqb_spec b' b) as [->|]; [|done]. specialize (Hn b). rewrite E, fmap_app, fmap_cons, <-Permutation_middle in Hn.
    apply NoDup_cons in Hn as [_ Hn]. by rewrite fmap_app.
  - intros b' q [Hin _]%Hq. by apply Hk.
  - intros b' q [Hin Hne]%Hq. rewrite lookup_delete_ne by done. by eapply Hi.
  - intros nm [al [Hne Hal]%lookup_delete_Some]. destruct (Ha nm) as (b' & q & Hin & <-); [by eexists|]. exists b', q. split; [|done].
    rewrite <-(in_within_same L b l1 (a, p) l2 E) in Hin. apply in_within in Hin as [[-> ->]|Hin]; [by destruct Hne|done].
  - unfold without. destruct b; [done|]. rewrite E, fmap_app, fmap_cons in Ho. cbn. rewrite fmap_app. by eapply sorted_middle.
Qed.

Lemma names_add L A b l1 a p l2 al : names_are (without L b l1 l2) A → A !! name p = None → cstring (name p) → number p = b → digits (name p) = b →
  list_is p al → in_order (named <$> within L b l1 (a, p) l2 false) → names_are (within L b l1 (a, p) l2) (<[name p:=al]> A).
Proof.
  intros [Hn Hk Hi Ha Ho] Hfr Hc Hnum Hd Hal Ho'. split; [| | | |done].
  - intros b'. specialize (Hn b'). unfold within, without in Hn |- *. destruct (Bool.eqb_spec b' b) as [Hb|]; [clear Hb|done].
    rewrite fmap_app, fmap_cons, <-Permutation_middle, <-fmap_app. apply NoDup_cons. split; [|done]. intros (q & Eq & Hq)%list_elem_of_fmap.
    destruct (Hi b q) as (al' & Hal' & _); [unfold without; by rewrite Bool.eqb_reflx|]. rewrite <-Eq in Hal'. cbn in Hal'. congruence.
  - intros b' q [[-> ->]|Hq]%in_within; [done|by apply Hk].
  - intros b' q [[-> ->]|Hq]%in_within; [exists al; by rewrite lookup_insert_eq|]. destruct (Hi b' q Hq) as (al' & Hal' & ?).
    exists al'. rewrite lookup_insert_ne; [done|congruence].
  - intros nm Hnm. destruct (decide (nm = name p)) as [->|Hne]; [exists b, (a, p); split; [apply in_within; by left|done]|].
    rewrite lookup_insert_ne in Hnm by done. destruct (Ha nm Hnm) as (b' & q & Hq & ?). exists b', q. split; [apply in_within; by right|done].
Qed.

Lemma strcmp_flip a b : strcmp a b = - strcmp b a.
Proof.
  revert b. induction a as [|x a IH]; intros [|y b]; cbn [strcmp]; [done|lia|lia|].
  rewrite (Z.eqb_sym y x). destruct (x =? y); [apply IH|lia].
Qed.
Lemma strcmp_trans a b c : cstring a → cstring b → cstring c → strcmp a b < 0 → strcmp b c < 0 → strcmp a c < 0.
Proof.
  intros Ha Hb Hc. revert a b Ha Hb. induction Hc as [|z c Hz _ IH]; intros [|x a] [|y b] Ha Hb; cbn [strcmp];
    unfold cstring in *; try rewrite Forall_cons in Ha; try rewrite Forall_cons in Hb; try lia.
  destruct (Z.eqb_spec x y), (Z.eqb_spec y z), (Z.eqb_spec x z); try lia. by apply IH; destruct Ha, Hb.
Qed.

Lemma insert_list_ok c l1 l2 new p : is_list c (l1 ++ l2) → new ∉ (l1 ++ l2).*1 →
  ∃ c', insert_list c (first l2 None) new p = Ok c' ∧ is_list c' (l1 ++ (new, p) :: l2).
Proof.
  intros H Hn. unfold insert_list. rewrite (il_head _ _ H). destruct l2 as [|[pt w] l2]; cbn [first].
  - destruct (append_links c (l1 ++ []) new p H Hn) as (c1 & E1 & Hi). rewrite (il_tail _ _ H) in *. pose proof (il_tail _ _ H) as Ht.
    rewrite app_nil_r in *. assert (∀ c', inserting c l1 [] new (Cell p None (final l1 None)) c' → is_list c' (l1 ++ [(new, p)])) as Hj
      by (intros c' Hc'; eapply inserting_list; rewrite ?app_nil_r; done).
    destruct l1 as [|[b v] l1]; [cbn in *; injection E1 as <-; eexists; split; [done|by apply Hj]|].
    cbn [first]. unfold final in *. destruct (last ((b, v) :: l1)) as [ [t ?]|] eqn:El; [|by apply last_None in El]. cbn [put_next of_opt mbind M_bind] in *. rewrite E1.
    eexists. split; [done|]. by apply Hj.
  - destruct (insert_links c l1 ((pt, w) :: l2) new (Cell p (Some pt) (final l1 None)) H Hn) as (c1 & c2 & E1 & _ & E2 & Hi).
    apply (inserting_list _ _ _ _ _ _ H Hn) in Hi. cbn [first put_prev] in E2. destruct l1 as [|[b v] l1]; cbn [app first].
    + rewrite bool_decide_true by done. cbn in E1. injection E1 as <-. unfold set_prev, get in *. cbn [cells put set_cells set_head] in *.
      destruct (<[new:=_]> (cells c) !! pt); cbn [of_opt mbind M_bind] in *; [|done]. injection E2 as <-. by eexists.
    + rewrite bool_decide_false. 2:{ intros ->. pose proof (il_nodup _ _ H) as Hd. rewrite fmap_app in Hd. apply NoDup_app in Hd as (_ & Hd & _). apply (Hd b); set_solver. }
      rewrite (cell_between _ _ _ _ _ H). cbn [mbind M_bind prev]. unfold final in *.
      destruct (last ((b, v) :: l1)) as [ [q ?]|] eqn:El; [|by apply last_None in El]. cbn [put_next] in E1. rewrite E1. cbn [mbind M_bind]. eauto.
Qed.

Lemma malloc_new {A} (m : gmap loc A) : m !! malloc m = None.
Proof. apply not_elem_of_dom. apply is_fresh. Qed.

(** ** The lists of a family *)

(** The hooks called on the way from [m] to [m']. *)
Definition hooked (m m' : prefix_master) (ks : list hook_call) : Prop :=
  hooks m' = hooks m ∧ hook_calls m' = hook_calls m ++ (if hooks m then ks else []).

Lemma hooked_same m : hooked m m [].
Proof. split; [done|]. destruct (hooks m); by rewrite app_nil_r. Qed.
Lemma hooked_trans m1 m2 m3 k1 k2 : hooked m1 m2 k1 → hooked m2 m3 k2 → hooked m1 m3 (k1 ++ k2).
Proof. intros [E1 E2] [E3 E4]. split; [congruence|]. rewrite E4, E2, E1. destruct (hooks m1); by rewrite <-app_assoc. Qed.
Lemma hooked_hook m k : hooked m (hook m k) [k].
Proof. unfold hooked, hook. destruct (hooks m) eqn:E; [done|]. by rewrite app_nil_r. Qed.

Lemma master_hook m A k : master_is m A → master_is (hook m k) A.
Proof. unfold hook. destruct (hooks m); [|done]. intros [(L & [Hc Hn]) Hr]. split; [|done]. exists L. by split. Qed.
Lemma get_hook m k r : get_list (hook m k) r = get_list m r.
Proof. unfold hook. by destruct (hooks m). Qed.
Lemma master_recent m A r p : master_is m A → get_list m r = Ok p → master_is (set_recent m (Some r)) A.
Proof. intros [(L & [Hc Hn]) _] Hg. split; [exists L; by split|]. by exists p. Qed.

Lemma lists_within m L A b c l1 x l2 : lists_are m L A → is_list c (l1 ++ x :: l2) → ∀ b', is_list (lists (set_lists m b c) b') (within L b l1 x l2 b').
Proof. intros H Hc b'. rewrite lists_set. unfold within. destruct (eqb b' b); [done|]. apply (la_chain _ _ _ H). Qed.
Lemma lists_without m L A b c l1 l2 : lists_are m L A → is_list c (l1 ++ l2) → ∀ b', is_list (lists (set_lists m b c) b') (without L b l1 l2 b').
Proof. intros H Hc b'. rewrite lists_set. unfold without. destruct (eqb b' b); [done|]. apply (la_chain _ _ _ H). Qed.
Lemma set_lists_rest m b c : recent (set_lists m b c) = recent m ∧ hooked m (set_lists m b c) [].
Proof. destruct b; (split; [done|]; apply (hooked_same m)). Qed.

(** What is reached by [recent] is still there. *)
Lemma recent_kept m L A m' L' : lists_are m L A → (∃ A', lists_are m' L' A') → (∀ b a p, (a, p) ∈ L b → ∃ p', (a, p') ∈ L' b) → recent m' = recent m →
  match recent m with Some r => ∃ p, get_list m r = Ok p | None => True end → match recent m' with Some r => ∃ p, get_list m' r = Ok p | None => True end.
Proof.
  intros H (A' & H') HL ->. destruct (recent m) as [ [b a]|]; [|done]. intros [p Hp]. apply (in_get _ _ _ _ _ _ H) in Hp. apply HL in Hp as [p' Hp'].
  exists p'. by eapply get_in.
Qed.

Lemma put_list_ok m A r p p' al : master_is m A → get_list m r = Ok p → name p' = name p → number p' = number p → list_is p' al →
  ∃ m', put_list m r p' = Ok m' ∧ master_is m' (<[name p:=al]> A) ∧ get_list m' r = Ok p' ∧ recent m' = recent m ∧ hooked m m' [].
Proof.
  intros [(L & H) Hr] Hg Hn Hnum Hal. destruct r as [b a]. apply (in_get _ _ _ _ _ _ H) in Hg.
  destruct (la_kind _ _ (la_are _ _ _ H) _ _ Hg) as (Hc & Hb & Hd). cbn [snd] in *. apply list_elem_of_split in Hg as (l1 & l2 & E).
  pose proof (la_chain _ _ _ H b) as Hl. rewrite E in Hl. destruct (set_val_ok _ _ _ _ _ p' Hl) as (c & Ec & Hc' & _).
  unfold put_list. cbn [fst snd]. rewrite Ec. cbn [mbind M_bind]. destruct (set_lists_rest m b c) as [Er Eh].
  assert (lists_are (set_lists m b c) (within L b l1 (a, p') l2) (<[name p:=al]> A)) as H'.
  { split; [by eapply lists_within|]. rewrite <-Hn, <-insert_delete_eq, Hn. rewrite <-Hn at 1. apply names_add; rewrite ?Hn; try (done || congruence).
    - by apply (names_remove L A b l1 a p l2); [apply H|].
    - apply lookup_delete_eq.
    - pose proof (la_order _ _ (la_are _ _ _ H)) as Ho. rewrite <-(in_within_same L b l1 (a, p) l2 E) in Ho. unfold within in *.
      destruct (eqb false b); [|done]. rewrite fmap_app, fmap_cons in *. cbn [snd] in *. by rewrite Hn. }
  eexists. split; [done|]. split; [|split; [by eapply get_in; [|apply in_within; left]|done] ]. split; [by eexists|].
  eapply (recent_kept m L A); [done|by eexists| |done|done].
  intros b' a' q Hq. rewrite <-(in_within_same L b l1 (a, p) l2 E) in Hq. apply in_within in Hq as [ [-> [= -> ->] ]|Hq]; [exists p'|exists q]; apply in_within; auto.
Qed.

Lemma find_cut {A} (Q : A → bool) (l : list (loc * A)) :
  ∃ l1 l2, l = l1 ++ l2 ∧ fst <$> find_in Q l = first l2 None ∧ Forall (λ q, Q q.2 = false) l1 ∧ match l2 with [] => True | q :: _ => Q q.2 = true end.
Proof.
  destruct (find_split Q l) as [[E F]|(l1 & a & v & l2 & -> & E & F & Hv)].
  - exists l, []. rewrite E, app_nil_r. done.
  - exists l1, ((a, v) :: l2). by rewrite E.
Qed.

Lemma order_insert nm (l1 l2 : list (list Z)) : in_order (l1 ++ l2) → Forall cstring (l1 ++ l2) → cstring nm → nm ∉ l1 ++ l2 →
  Forall (λ x, strcmp x nm < 0) l1 → match l2 with [] => True | y :: _ => 0 <= strcmp y nm end → in_order (l1 ++ nm :: l2).
Proof.
  intros (Hx & Hs1 & Hs2)%StronglySorted_app [_ Hc2]%Forall_app Hc Hn H1 H2. rewrite Forall_forall in H1.
  apply StronglySorted_app. split; [|split; [done|] ]. { intros x y Hin [->|Hy]%elem_of_cons; [by apply H1|by apply Hx]. }
  constructor; [done|]. destruct l2 as [|y l2]; [constructor|]. apply Forall_cons in Hc2 as [Hy Hc2]. apply StronglySorted_inv in Hs2 as [_ Hs2].
  assert (strcmp nm y < 0) as Hlt.
  { assert (strcmp y nm ≠ 0) by (rewrite strcmp_same by done; intros ->; apply Hn; set_solver). rewrite strcmp_flip. lia. }
  constructor; [done|]. rewrite Forall_forall in *. intros z Hz. eapply (strcmp_trans _ y); auto.
Qed.

Lemma scan_digits nm n d : scan_number nm 0 = (n, d) → digits nm = d.
Proof. unfold digits. by intros ->. Qed.

Lemma insert_list_named m A nm : master_is m A → cstring nm → A !! nm = None →
  ∃ m' r p, prefix_list_insert m nm = Ok (m', r) ∧ master_is m' (<[nm:=no_list]> A) ∧ get_list m' r = Ok p ∧ name p = nm ∧
    list_is p (no_list) ∧ hooked m m' [].
Proof.
  intros [(L & H) Hr] Hc HA. unfold prefix_list_insert. destruct (scan_number nm 0) as [n b] eqn:Es. apply scan_digits in Es.
  set (new := malloc (cells (lists m b))). set (p := PList nm None b new_chain). pose (Q := λ p, if b then n <=? atol (name p) 0 else 0 <=? strcmp (name p) nm).
  change (find_cell (lists m b) _) with (find_cell (lists m b) (λ v, Ok (Q v))).
  pose proof (la_chain _ _ _ H b) as Hl. rewrite (find_pure _ Q _ Hl). cbn [mbind M_bind].
  destruct (find_cut Q (L b)) as (l1 & l2 & E & -> & F1 & F2). rewrite E in Hl.
  assert (new ∉ (l1 ++ l2).*1) as Hnew. { rewrite <-(il_dom _ _ Hl). unfold new. rewrite malloc_new. by intros []. }
  destruct (insert_list_ok _ l1 l2 new p Hl Hnew) as (c & -> & Hc'). cbn [mbind M_bind]. destruct (set_lists_rest m b c) as [Er Eh].
  assert (∀ b', without L b l1 l2 b' = L b') as Hw by (intros b'; unfold without; by destruct (Bool.eqb_spec b' b) as [->|]).
  pose proof (la_are _ _ _ H) as Ha. assert (list_is p (no_list)) as Hp by (split; [done|apply entries_new]).
  assert (lists_are (set_lists m b c) (within L b l1 (new, p) l2) (<[nm:=no_list]> A)) as H'.
  { split; [by eapply lists_within|]. change nm with (name p) at 1. apply names_add; try done.
    - by apply (names_same L).
    - destruct b; [apply (la_order _ _ Ha)|]. unfold within. cbn [eqb Bool.eqb]. rewrite fmap_app, fmap_cons. apply order_insert; rewrite <-?fmap_app, <-?E; try done.
      + apply (la_order _ _ Ha).
      + apply Forall_fmap, Forall_forall. intros q Hq. by apply (la_kind _ _ Ha) in Hq as [? _].
      + intros (q & Eq & Hq)%list_elem_of_fmap. apply (la_in _ _ Ha) in Hq as (al & Hal & _). cbn [name p snd] in *. congruence.
      + apply Forall_fmap. eapply Forall_impl; [exact F1|]. cbn. intros q Hq%Z.leb_gt. done.
      + destruct l2 as [|q l2]; [done|]. rewrite fmap_cons. by apply Z.leb_le. }
  eexists _, (b, new), p. split; [done|]. split; [|split; [by eapply get_in; [|apply in_within; left]|done] ]. split; [by eexists|].
  eapply (recent_kept m L A); [done|by eexists| |done|done]. intros b' a' q Hq. rewrite <-Hw in Hq. exists q. apply in_within. by right.
Qed.

Lemma get_named m A nm : master_is m A → cstring nm →
  let al := list_named nm A in
  ∃ m' r p, prefix_list_get m nm = Ok (m', r) ∧ master_is m' (<[nm:=al]> A) ∧ get_list m' r = Ok p ∧ name p = nm ∧ list_is p al ∧ hooked m m' [].
Proof.
  intros H Hc. unfold prefix_list_get. destruct (lookup_list m A nm H Hc) as (o & -> & Ho). cbn [mbind M_bind]. destruct o as [r|].
  - destruct Ho as (p & al & Hg & Hn & HA & Hal). unfold list_named. rewrite HA. cbn [default from_option id]. exists m, r, p. split; [done|].
    rewrite insert_id by done. split_and!; try done. apply hooked_same.
  - unfold list_named. rewrite Ho. by apply insert_list_named.
Qed.

Lemma delete_at m L A b l1 a p l2 : lists_are m L A → L b = l1 ++ (a, p) :: l2 →
  ∃ m', prefix_list_delete m (b, a) = Ok m' ∧ lists_are m' (without L b l1 l2) (delete (name p) A) ∧ recent m' = None ∧ hooked m m' [delete_hook None].
Proof.
  intros H E. assert ((a, p) ∈ L b) as Hin by (rewrite E; set_solver).
  destruct (la_in _ _ (la_are _ _ _ H) _ _ Hin) as (al & _ & _ & [(le & Hle & _) _ _]).
  destruct (la_kind _ _ (la_are _ _ _ H) _ _ Hin) as (_ & Hb & _). cbn [snd] in *.
  unfold prefix_list_delete. rewrite (get_in _ _ _ _ _ _ H Hin). cbn [mbind M_bind]. rewrite Hb.
  destruct (delete_cells_ok (entries p) le None (base.size (cells (entries p)))) as (c0 & E0 & _); [apply Hle..|by rewrite (is_list_size _ _ Hle)|].
  rewrite (il_head _ _ Hle), E0. cbn [mbind M_bind snd]. pose proof (la_chain _ _ _ H b) as Hl. rewrite E in Hl.
  rewrite (cell_between _ _ _ _ _ Hl). cbn [mbind M_bind next prev]. destruct (unlink_links_back _ _ _ _ _ Hl) as (c1 & c2 & -> & E2 & Hr).
  cbn [mbind M_bind]. rewrite E2. cbn [mbind M_bind]. set (m1 := set_lists m b (free_cell c2 a)).
  assert (lists_are m1 (without L b l1 l2) (delete (name p) A)) as [H1 Hn1].
  { split; [eapply lists_without; [done|by eapply removed_list]|]. by apply (names_remove L A b l1 a p l2); [apply H|]. }
  assert (hooked m m1 []) as Hh by apply set_lists_rest.
  eexists. split; [done|]. split; [|split].
  - unfold hook. destruct (hooks _); by split.
  - unfold hook. by destruct (hooks _).
  - change [delete_hook None] with ([] ++ [delete_hook None]). eapply hooked_trans; [|apply hooked_hook]. exact Hh.
Qed.

Lemma delete_named m A r p : master_is m A → get_list m r = Ok p →
  ∃ m', prefix_list_delete m r = Ok m' ∧ master_is m' (delete (name p) A) ∧ hooked m m' [delete_hook None].
Proof.
  intros [(L & H) _] Hg. destruct r as [b a]. apply (in_get _ _ _ _ _ _ H) in Hg. apply list_elem_of_split in Hg as (l1 & l2 & E).
  destruct (delete_at _ _ _ _ _ _ _ _ H E) as (m' & -> & H' & Hr & Hh). exists m'. split; [done|]. split; [|done]. split; [by eexists|by rewrite Hr].
Qed.

(** ** Operations *)

Lemma entry_make_ok p type seq le ge any : inet_ok p →
  prefix_list_entry_make p type seq le ge any = Ok (PEntry seq le ge type any (copied p) 0 0).
Proof. intros Hp. unfold prefix_list_entry_make. by rewrite copy_ok. Qed.

Lemma entry_add_ok m A r p al e : master_is m A → get_list m r = Ok p → list_is p al → inet_ok (e_prefix e) →
  let n := number_for (e_seq e) (a_rules al) in
  ∃ m', prefix_list_entry_add m r e = Ok m' ∧
    master_is m' (<[name p:=AList (a_desc al) (put_rule (rule (set_seq e n)) (a_rules al))]> A) ∧ hooked m m' [add_hook (name p)].
Proof.
  intros H Hg [Hd He] Hi n. unfold prefix_list_entry_add. rewrite Hg. cbn [mbind M_bind]. rewrite (number_ok _ _ _ He). cbn [mbind M_bind].
  destruct (add_entry_ok _ _ e (malloc (cells (entries p))) He Hi (malloc_new _)) as (rep & c1 & pt & c2 & -> & E1 & He1 & Ept & E2 & He2).
  fold n in E1, He1, Ept, E2, He2 |- *. cbn [mbind M_bind].
  assert (∃ m1 p1, match rep with Some a => prefix_list_entry_delete m r a false | None => Ok m end = Ok m1 ∧ get_list m1 r = Ok p1 ∧
    (∃ A1, master_is m1 A1 ∧ ∀ x, <[name p:=x]> A1 = <[name p:=x]> A) ∧ name p1 = name p ∧ desc p1 = desc p ∧ entries p1 = c1 ∧ hooked m m1 []) as
    (m1 & p1 & -> & Hg1 & (A1 & H1 & HA) & Hn1 & Hd1 & <- & Hh1).
  { destruct rep as [a|].
    - unfold prefix_list_entry_delete. rewrite Hg. cbn [mbind M_bind]. rewrite E1. cbn [mbind M_bind].
      destruct (put_list_ok m A r p (set_entries p c1) (AList (desc p) (take_rule n (a_rules al))) H Hg) as (m1 & -> & H1 & Hg1 & _ & Hh1); try done.
      exists m1, (set_entries p c1). split; [done|]. split; [done|]. split; [|done]. eexists. split; [exact H1|]. intros x. apply insert_insert_eq.
    - injection E1 as <-. exists m, p. split_and!; try done; [|apply hooked_same]. by exists A. }
  cbn [mbind M_bind]. rewrite Hg1. cbn [mbind M_bind]. rewrite Ept. cbn [mbind M_bind]. rewrite E2. cbn [mbind M_bind].
  destruct (put_list_ok m1 A1 r p1 (set_entries p1 c2) (AList (a_desc al) (put_rule (rule (set_seq e n)) (a_rules al))) H1 Hg1) as (m2 & -> & H2 & Hg2 & _ & Hh2);
    [done|done|by split; [rewrite <-Hd, <-Hd1|]|]. cbn [mbind M_bind]. eexists. split; [done|]. rewrite Hn1 in *. rewrite HA in H2. split.
  - eapply master_recent; [by apply master_hook|by rewrite get_hook].
  - apply (hooked_trans m m2 _ [] [_]); [by apply (hooked_trans m m1 m2 [] [])|]. apply hooked_hook.
Qed.

(** The list [nm] with one entry less. *)
Definition settle (nm : list Z) (al : a_list) (A : gmap (list Z) a_list) : gmap (list Z) a_list * list hook_call :=
  match a_rules al, a_desc al with
  | [], None => (delete nm A, [delete_hook (Some nm); delete_hook None])
  | _, _ => (<[nm:=al]> A, [delete_hook (Some nm)])
  end.

Lemma entries_empty c R : entries_are c R → bool_decide (head c = None) && bool_decide (tail c = None) = match R with [] => true | _ => false end.
Proof.
  intros [(l & Hl & <-) _ _]. rewrite (il_head _ _ Hl), (il_tail _ _ Hl). by destruct l as [|[a v] l].
Qed.

Lemma entry_remove_ok m A r p a c R d : master_is m A → get_list m r = Ok p → desc p = d → unlink_entry (entries p) a = Ok c → entries_are c R →
  ∃ m', prefix_list_entry_delete m r a true = Ok m' ∧ master_is m' (settle (name p) (AList d R) A).1 ∧ hooked m m' (settle (name p) (AList d R) A).2.
Proof.
  intros H Hg <- E He. unfold prefix_list_entry_delete. rewrite Hg. cbn [mbind M_bind]. rewrite E. cbn [mbind M_bind].
  destruct (put_list_ok m A r p (set_entries p c) (AList (desc p) R) H Hg) as (m1 & -> & H1 & Hg1 & _ & Hh1); try done.
  cbn [mbind M_bind]. rewrite (entries_empty _ _ He). pose proof (hooked_hook m1 (delete_hook (Some (name p)))) as Hh2.
  pose proof (hooked_trans _ _ _ _ _ Hh1 Hh2) as Hh. cbn [app] in Hh.
  assert (match R with [] => true | _ => false end && bool_decide (desc p = None) = true ∧ settle (name p) (AList (desc p) R) A = (delete (name p) A, [delete_hook (Some (name p)); delete_hook None]) ∨
    match R with [] => true | _ => false end && bool_decide (desc p = None) = false ∧ settle (name p) (AList (desc p) R) A = (<[name p:=AList (desc p) R]> A, [delete_hook (Some (name p))])) as [ [-> ->]|[-> ->] ].
  { unfold settle. cbn [a_rules a_desc]. destruct R; [|by right]. destruct (desc p); [right|left]; done. }
  - destruct (delete_named (hook m1 (delete_hook (Some (name p)))) (<[name p:=AList (desc p) R]> A) r (set_entries p c)) as (m2 & -> & H2 & Hh3);
      [by apply master_hook|by rewrite get_hook|]. exists m2. split; [done|]. split; [|by apply (hooked_trans _ _ _ [_] [_] Hh Hh3)]. cbn [name set_entries fst] in *.
    by rewrite delete_insert_eq in H2.
  - eexists. split; [done|]. split; [|exact Hh]. eapply master_recent; [by apply master_hook|by rewrite get_hook].
Qed.
