(* ===== verification/PlistRefine.v ===== *)
(** The commands on prefix lists refine operations on a finite map from names to
    lists of entries. *)
From stdpp Require Import sorting.
From S2P Require Import Prelude Prefix Stream Hash Chain Message Plist PlistSpec.
Open Scope Z_scope.

(** ** Calls *)

Inductive plist_call :=
  | Install (afi_ : Z) (nm : list Z) (seq : Z) (type : prefix_list_type) (p : prefix) (ge le : Z) (any : bool)
  | Uninstall (nm : list Z) (e : option (Z * prefix_list_type * prefix * Z * Z))
  | Describe (nm d : list Z)
  | Undescribe (nm : list Z)
  | Reset
  | Orf_set (afi_ : Z) (nm : list Z) (orfp : orf_prefix) (permit set_ : bool)
  | Orf_remove_all (nm : list Z)
  | Apply (nm : list Z) (p : prefix)
  | Show_count (nm : list Z).

Inductive plist_answer := Code (z : Z) | Nothing | Verdict (t : prefix_list_type).

Definition exec_plist (m : prefix_master) (k : plist_call) : M (prefix_master * plist_answer) :=
  let code x := ('(m, z) ← x; Ok (m, Code z)) in
  match k with
  | Install afi_ nm seq type p ge le any => code (vty_prefix_list_install m afi_ nm seq type p ge le any)
  | Uninstall nm e => code (vty_prefix_list_uninstall m nm e)
  | Describe nm d => code (ip_prefix_list_description m nm d)
  | Undescribe nm => code (vty_prefix_list_desc_unset m nm)
  | Reset => m ← prefix_list_reset m; Ok (m, Nothing)
  | Orf_set afi_ nm orfp permit set_ => code (Plist.prefix_bgp_orf_set m nm afi_ orfp permit set_)
  | Orf_remove_all nm => m ← Plist.prefix_bgp_orf_remove_all m nm; Ok (m, Nothing)
  | Apply nm p => r ← Plist.prefix_list_lookup m nm; '(m, t) ← prefix_list_apply m r p; Ok (m, Verdict t)
  | Show_count nm => z ← prefix_bgp_show_prefix_list m nm; Ok (m, Code z)
  end.

Definition call_ok (k : plist_call) : Prop :=
  match k with
  | Install _ nm _ _ p _ _ _ => cstring nm ∧ inet_ok p
  | Uninstall nm (Some (_, _, p, _, _)) => cstring nm ∧ inet_ok p
  | Orf_set _ nm o _ _ => cstring nm ∧ inet_ok (orf_p o)
  | Apply nm p => cstring nm ∧ prefix_ok p
  | Uninstall nm None | Describe nm _ | Undescribe nm | Orf_remove_all nm | Show_count nm => cstring nm
  | Reset => True
  end.

#[export] Instance call_ok_dec k : Decision (call_ok k).
Proof. destruct k as [| ? [ [ [ [ [] ?] ?] ?] |]| | | | | | | ]; cbn; unfold cstring; apply _. Defined.

(** ** What they do *)

(** The lists of a family, the answer, and the hooks that are called. *)
Notation lists_by_name := (gmap (list Z) a_list).
Notation effect := (lists_by_name * plist_answer * list hook_call)%type.

Definition does_install (A : lists_by_name) (nm : list Z) (e : prefix_list_entry) : effect :=
  let al := list_named nm A in
  if duplicate e (a_rules al) then (A, Code CMD_WARNING, [])
  else (<[nm:=AList (a_desc al) (put_rule (set_seq e (number_for (e_seq e) (a_rules al))) (a_rules al))]> A, Code CMD_SUCCESS, [add_hook nm]).

Definition does_remove (A : lists_by_name) (nm : list Z) (al : a_list) (seq : Z) (type : prefix_list_type) (p : prefix) (ge le : Z) : effect :=
  match snd <$> list_find (λ x, matching seq p type le ge x = true) (a_rules al) with
  | None => (<[nm:=al]> A, Code CMD_WARNING, [])
  | Some x => let '(A, ks) := settle nm (AList (a_desc al) (take_rule (e_seq x) (a_rules al))) A in (A, Code CMD_SUCCESS, ks)
  end.

Definition plist_does (A : lists_by_name) (k : plist_call) : effect :=
  match k with
  | Install afi_ nm seq type p ge le any =>
      match entry_range afi_ (prefixlen p) ge le with
      | None => (A, Code CMD_WARNING, [])
      | Some le => does_install A nm (PEntry seq le ge type any (copied p) 0 0)
      end
  | Uninstall nm e =>
      match A !! nm, e with
      | None, _ => (A, Code CMD_WARNING, [])
      | Some _, None => (delete nm A, Code CMD_SUCCESS, [delete_hook None])
      | Some al, Some (seq, type, p, ge, le) => does_remove A nm al seq type p ge le
      end
  | Describe nm d => (<[nm:=AList (Some d) (a_rules (list_named nm A))]> A, Code CMD_SUCCESS, [])
  | Undescribe nm =>
      match A !! nm with
      | None => (A, Code CMD_WARNING, [])
      | Some (AList _ []) => (delete nm A, Code CMD_SUCCESS, [delete_hook None])
      | Some (AList _ R) => (<[nm:=AList None R]> A, Code CMD_SUCCESS, [])
      end
  | Reset => (∅, Nothing, replicate (base.size A) (delete_hook None))
  | Orf_set afi_ nm o permit set_ =>
      let type := if permit then PREFIX_PERMIT else PREFIX_DENY in
      match entry_range afi_ (prefixlen (orf_p o)) (orf_ge o) (orf_le o) with
      | None => (A, Code CMD_WARNING, [])
      | Some le =>
          if set_ then does_install A nm (PEntry (s32 (orf_seq o)) le (orf_ge o) type false (copied (orf_p o)) 0 0)
          else does_remove A nm (list_named nm A) (s32 (orf_seq o)) type (orf_p o) (orf_ge o) le
      end
  | Orf_remove_all nm => match A !! nm with None => (A, Nothing, []) | Some _ => (delete nm A, Nothing, [delete_hook None]) end
  | Apply nm p => (A, Verdict (match A !! nm with None => PREFIX_DENY | Some al => verdict (a_rules al) p end), [])
  | Show_count nm => (A, Code (match A !! nm with None => 0 | Some al => Z.of_nat (length (a_rules al)) end), [])
  end.

(** ** Refinement *)

Notation refines m x e := (∃ m' a, x = Ok (m', a) ∧ a = e.1.2 ∧ master_is m' e.1.1 ∧ hooked m m' e.2).

Section refinement.
Context (m : prefix_master) (A : lists_by_name) (H : master_is m A).

Lemma install_refines nm seq type p ge le any : cstring nm → inet_ok p →
  refines m ('(m, z) ← install_entry m nm p type seq le ge any; Ok (m, Code z)) (does_install A nm (PEntry seq le ge type any (copied p) 0 0)).
Proof.
  intros Hn Hp. unfold install_entry, does_install. destruct (get_named m A nm H Hn) as (m1 & r & l & -> & H1 & Hg & Hname & Hal & Hh1). cbn [mbind M_bind].
  set (al := list_named nm A) in *. rewrite entry_make_ok by done. cbn [mbind M_bind]. rewrite Hg. cbn [mbind M_bind].
  set (e := PEntry seq le ge type any (copied p) 0 0). pose proof Hal as [Hd He]. assert (inet_ok (e_prefix e)) as Hi by by apply copied_ok.
  destruct (duplicate_ok _ _ e He Hi) as (o & -> & Ho). cbn [mbind M_bind]. rewrite <-Ho. destruct o as [a|]; cbn [is_some mbind M_bind].
  - eexists _, _. split; [done|]. split; [done|]. split; [|done]. cbn [fst]. enough (<[nm:=al]> A = A) as <- by done. apply insert_id.
    unfold al, list_named in *. destruct (A !! nm) as [al'|]; [done|]. cbn [default from_option id no_list a_rules] in Ho. done.
  - destruct (entry_add_ok m1 _ r l al e H1 Hg Hal Hi) as (m2 & -> & H2 & Hh2). cbn [mbind M_bind]. eexists _, _. split; [done|]. split; [done|].
    rewrite Hname, insert_insert_eq in *. split; [exact H2|]. by apply (hooked_trans m m1 m2 [] _ Hh1).
Qed.

Lemma remove_refines m1 A1 r l nm al seq type p ge le : master_is m1 A1 → get_list m1 r = Ok l → name l = nm → list_is l al → A1 !! nm = Some al → inet_ok p →
  refines m1 (a ← prefix_list_entry_lookup (entries l) p type seq le ge;
    match a with None => Ok (m1, Code CMD_WARNING) | Some a => m ← prefix_list_entry_delete m1 r a true; Ok (m, Code CMD_SUCCESS) end) (does_remove A1 nm al seq type p ge le).
Proof.
  intros H1 Hg <- [Hd He] HA Hp. unfold does_remove. destruct (lookup_entry_ok _ _ p type seq le ge He Hp) as (o & -> & Ho). cbn [mbind M_bind].
  destruct (snd <$> list_find _ _) as [x|].
  - destruct Ho as (a & c & -> & E & Hc). destruct (entry_remove_ok m1 A1 r l a c _ (a_desc al) H1 Hg Hd E Hc) as (m2 & -> & H2 & Hh2).
    destruct (settle _ _ _) as [A2 ks]. cbn [mbind M_bind]. eexists _, _. by split.
  - rewrite Ho. eexists _, _. split; [done|]. split; [done|]. split; [|apply hooked_same]. cbn [fst].
    by rewrite insert_id.
Qed.
End refinement.

(** All the lists of a chain. *)
Lemma delete_lists_ok b l : ∀ m L A fuel, lists_are m L A → L b = l → (length l <= fuel)%nat →
  ∃ m' L' A' n, delete_lists fuel m b (first l None) = Ok m' ∧ lists_are m' L' A' ∧ L' b = [] ∧ L' (negb b) = L (negb b) ∧
    hooked m m' (replicate n (delete_hook None)) ∧ base.size A = (n + base.size A')%nat.
Proof.
  induction l as [|[a p] l IH]; intros m L A fuel H E Hf.
  - exists m, L, A, 0%nat. split; [by destruct fuel|]. split_and!; try done. apply hooked_same.
  - destruct fuel as [|fuel]; cbn [length] in Hf; [lia|]. cbn [delete_lists first]. pose proof (la_chain _ _ _ H b) as Hl. rewrite E in Hl.
    rewrite (cell_between _ [] _ _ _ Hl). cbn [mbind M_bind next]. destruct (delete_at m L A b [] a p l H E) as (m1 & -> & H1 & _ & Hh1). cbn [mbind M_bind].
    destruct (IH m1 (without L b [] l) (delete (name p) A) fuel H1) as (m' & L' & A' & n & -> & H' & E1 & E2 & Hh & Hs); [unfold without; by rewrite Bool.eqb_reflx|lia|].
    exists m', L', A', (S n). split; [done|]. split; [done|]. split; [done|]. split; [rewrite E2; unfold without; by destruct b|].
    split; [by apply (hooked_trans _ _ _ [_] _ Hh1)|].
    assert ((a, p) ∈ L b) as Hin by (rewrite E; left). destruct (la_in _ _ (la_are _ _ _ H) _ _ Hin) as (al & HA & _). cbn [snd] in HA.
    rewrite (map_size_delete_Some (name p) A) in Hs by done. assert (base.size A ≠ 0%nat) as Hne by (intros ->%map_size_empty_inv; by rewrite lookup_empty in HA). lia.
Qed.

Lemma reset_ok m A : master_is m A → ∃ m', prefix_list_reset m = Ok m' ∧ master_is m' ∅ ∧ hooked m m' (replicate (base.size A) (delete_hook None)).
Proof.
  intros [(L & H) _]. unfold prefix_list_reset.
  destruct (delete_lists_ok true (L true) m L A (base.size (cells (num m))) H eq_refl) as (m1 & L1 & A1 & n1 & E1 & H1 & T1 & F1 & Hh1 & Hs1).
  { rewrite <-(is_list_size _ _ (la_chain _ _ _ H true)). done. }
  pose proof (il_head _ _ (la_chain _ _ _ H true)) as Hd. cbn [lists] in Hd. rewrite Hd, E1. cbn [mbind M_bind].
  destruct (delete_lists_ok false (L1 false) m1 L1 A1 (base.size (cells (str m1))) H1 eq_refl) as (m2 & L2 & A2 & n2 & E2 & H2 & T2 & F2 & Hh2 & Hs2).
  { rewrite <-(is_list_size _ _ (la_chain _ _ _ H1 false)). done. }
  pose proof (il_head _ _ (la_chain _ _ _ H1 false)) as Hd1. cbn [lists] in Hd1. rewrite Hd1, E2. cbn [mbind M_bind negb] in *. rewrite T1 in F2.
  pose proof (la_chain _ _ _ H2 true) as [_ N1 N2 _ _]. pose proof (la_chain _ _ _ H2 false) as [_ S1 S2 _ _]. cbn [lists] in *. rewrite F2, T2 in *.
  rewrite N1, N2, S1, S2. cbn. eexists. split; [done|].
  assert (A2 = ∅) as ->. { apply map_empty. intros nm. apply eq_None_not_Some. intros (b & q & Hq & _)%(la_all _ _ (la_are _ _ _ H2)). destruct b; rewrite ?F2, ?T2 in Hq; set_solver. }
  split; [split; [|done]; exists L2; by destruct H2|]. rewrite map_size_empty, Nat.add_0_r in Hs2. rewrite Hs1, Hs2, replicate_add.
  exact (hooked_trans _ _ _ _ _ Hh1 Hh2).
Qed.

Lemma uninstall_refines m A nm e : master_is m A → call_ok (Uninstall nm e) → refines m (exec_plist m (Uninstall nm e)) (plist_does A (Uninstall nm e)).
Proof.
  intros H Hk. assert (cstring nm) as Hn by (destruct e as [ [ [ [ [? ?] ?] ?] ?]|]; [apply Hk|exact Hk]).
  cbn [exec_plist plist_does]. unfold vty_prefix_list_uninstall. destruct (lookup_list m A nm H Hn) as (o & -> & Ho). cbn [mbind M_bind].
  destruct o as [r|]; [|rewrite Ho; eexists _, _; split; [done|]; split; [done|]; split; [done|apply hooked_same] ].
  destruct Ho as (l & al & Hg & Hname & HA & Hal). rewrite HA. destruct e as [ [ [ [ [seq type] p] ge] le]|].
  - cbn [call_ok] in Hk. rewrite Hg. cbn [mbind M_bind].
    destruct (remove_refines m A r l nm al seq type p ge le H Hg Hname Hal HA (proj2 Hk)) as (m' & a & E & Hr). exists m', a. split; [|done].
    destruct (prefix_list_entry_lookup _ _ _ _ _ _) as [ [x|]|]; cbn [mbind M_bind] in *; [|done..]. by destruct (prefix_list_entry_delete _ _ _ _).
  - destruct (delete_named m A r l H Hg) as (m' & -> & H' & Hh'). cbn [mbind M_bind]. rewrite Hname in H'. eexists _, _. by split.
Qed.

Lemma describe_refines m A nm d : master_is m A → cstring nm → refines m (exec_plist m (Describe nm d)) (plist_does A (Describe nm d)).
Proof.
  intros H Hn. cbn [exec_plist plist_does]. unfold ip_prefix_list_description.
  destruct (get_named m A nm H Hn) as (m1 & r & l & -> & H1 & Hg & Hname & [Hd He] & Hh1). cbn [mbind M_bind]. rewrite Hg. cbn [mbind M_bind].
  destruct (put_list_ok m1 _ r l (set_desc l (Some d)) (AList (Some d) (a_rules (list_named nm A))) H1 Hg) as (m2 & -> & H2 & _ & _ & Hh2); try done.
  cbn [mbind M_bind]. rewrite Hname, insert_insert_eq in H2. eexists _, _. split; [done|]. split; [done|]. split; [done|]. by apply (hooked_trans _ _ _ [] [] Hh1).
Qed.

Lemma undescribe_refines m A nm : master_is m A → cstring nm → refines m (exec_plist m (Undescribe nm)) (plist_does A (Undescribe nm)).
Proof.
  intros H Hn. cbn [exec_plist plist_does]. unfold vty_prefix_list_desc_unset. destruct (lookup_list m A nm H Hn) as (o & -> & Ho). cbn [mbind M_bind].
  destruct o as [r|]; [|rewrite Ho; eexists _, _; split; [done|]; split; [done|]; split; [done|apply hooked_same] ].
  destruct Ho as (l & [d R] & Hg & Hname & HA & [Hd He]). rewrite HA, Hg. cbn [mbind M_bind a_rules a_desc] in *.
  destruct (put_list_ok m A r l (set_desc l None) (AList None R) H Hg) as (m1 & -> & H1 & Hg1 & _ & Hh1); try done. cbn [mbind M_bind].
  rewrite (entries_empty _ _ He). rewrite Hname in H1. destruct R as [|x R]; [|eexists _, _; by split].
  destruct (delete_named m1 _ r _ H1 Hg1) as (m' & -> & H' & Hh'). cbn [mbind M_bind]. cbn [name set_desc] in H'. rewrite Hname, delete_insert_eq in H'.
  eexists _, _. split; [done|]. split; [done|]. split; [done|]. by apply (hooked_trans _ _ _ [] _ Hh1).
Qed.

Lemma orf_refines m A afi_ nm o permit set_ : master_is m A → cstring nm → inet_ok (orf_p o) →
  refines m (exec_plist m (Orf_set afi_ nm o permit set_)) (plist_does A (Orf_set afi_ nm o permit set_)).
Proof.
  intros H Hn Hp. cbn [exec_plist plist_does]. unfold Plist.prefix_bgp_orf_set. set (type := if permit then PREFIX_PERMIT else PREFIX_DENY).
  destruct (entry_range _ _ _ _) as [le|]; [|eexists _, _; split; [done|]; split; [done|]; split; [done|apply hooked_same] ].
  destruct set_; [by apply install_refines|].
  destruct (get_named m A nm H Hn) as (m1 & r & l & -> & H1 & Hg & Hname & Hal & Hh1). cbn [mbind M_bind]. rewrite Hg. cbn [mbind M_bind].
  destruct (remove_refines m1 _ r l nm (list_named nm A) (s32 (orf_seq o)) type (orf_p o) (orf_ge o) le H1 Hg Hname Hal) as (m' & a & E & Ha & H' & Hh');
    [apply lookup_insert_eq|done|].
  assert (∀ X, does_remove (<[nm:=list_named nm A]> A) nm X (s32 (orf_seq o)) type (orf_p o) (orf_ge o) le = does_remove A nm X (s32 (orf_seq o)) type (orf_p o) (orf_ge o) le) as Hd.
  { intros X. unfold does_remove, settle. destruct (snd <$> _); [|by rewrite insert_insert_eq]. by destruct (a_rules _), (a_desc _); rewrite ?insert_insert_eq, ?delete_insert_eq. }
  rewrite Hd in *. exists m', a. split; [|split; [done|]; split; [done|]; by apply (hooked_trans _ _ _ [] _ Hh1) ].
  destruct (prefix_list_entry_lookup _ _ _ _ _ _) as [ [x|]|]; cbn [mbind M_bind] in *; [|done..]. by destruct (prefix_list_entry_delete _ _ _ _).
Qed.

Lemma apply_list_ok m A r l al p : master_is m A → get_list m r = Ok l → list_is l al → A !! name l = Some al → prefix_ok p →
  ∃ m', prefix_list_apply m (Some r) p = Ok (m', verdict (a_rules al) p) ∧ master_is m' A ∧ hooked m m' [].
Proof.
  intros H Hg [Hd He] HA Hp. unfold prefix_list_apply. rewrite Hg. cbn [mbind M_bind]. rewrite (ea_count _ _ He).
  destruct (Z.eqb_spec (Z.of_nat (length (a_rules al))) 0) as [E|E].
  - destruct (a_rules al) as [|]; [|done]. exists m. split; [done|]. split; [done|apply hooked_same].
  - destruct (apply_ok _ _ p He Hp) as (c & -> & Hc). cbn [mbind M_bind].
    destruct (put_list_ok m A r l (set_entries l c) al H Hg) as (m' & -> & H' & _ & _ & Hh'); try done. cbn [mbind M_bind].
    rewrite insert_id in H' by done. exists m'. split; [|done]. unfold verdict. by destruct (a_rules al).
Qed.

Lemma call_refines m A k : master_is m A → call_ok k → refines m (exec_plist m k) (plist_does A k).
Proof.
  intros H. destruct k as [afi_ nm seq type p ge le any|nm e|nm d|nm| |afi_ nm o permit set_|nm|nm p|nm]; intros Hk.
  - cbn [exec_plist plist_does]. unfold vty_prefix_list_install. destruct Hk as [Hn Hp].
    destruct (entry_range _ _ _ _) as [le'|]; [by apply install_refines|]. eexists _, _. split; [done|]. split; [done|]. split; [done|apply hooked_same].
  - by apply uninstall_refines.
  - by apply describe_refines.
  - by apply undescribe_refines.
  - cbn [exec_plist plist_does]. destruct (reset_ok m A H) as (m' & -> & H' & Hh). eexists _, _. by split.
  - destruct Hk. by apply orf_refines.
  - cbn [exec_plist plist_does]. unfold Plist.prefix_bgp_orf_remove_all. destruct (lookup_list m A nm H Hk) as (o & -> & Ho). cbn [mbind M_bind].
    destruct o as [r|]; [|rewrite Ho; eexists _, _; split; [done|]; split; [done|]; split; [done|apply hooked_same] ].
    destruct Ho as (l & al & Hg & Hname & HA & _). rewrite HA. destruct (delete_named m A r l H Hg) as (m' & -> & H' & Hh'). cbn [mbind M_bind].
    rewrite Hname in H'. eexists _, _. by split.
  - destruct Hk as [Hn Hp]. cbn [exec_plist plist_does]. destruct (lookup_list m A nm H Hn) as (o & -> & Ho). cbn [mbind M_bind].
    destruct o as [r|]; [|rewrite Ho; eexists _, _; split; [done|]; split; [done|]; split; [done|apply hooked_same] ].
    destruct Ho as (l & al & Hg & <- & HA & Hal). rewrite HA. destruct (apply_list_ok m A r l al p H Hg Hal HA Hp) as (m' & -> & H' & Hh'). cbn [mbind M_bind].
    eexists _, _. by split.
  - cbn [exec_plist plist_does]. unfold prefix_bgp_show_prefix_list. destruct (lookup_list m A nm H Hk) as (o & -> & Ho). cbn [mbind M_bind].
    destruct o as [r|]; [|rewrite Ho; eexists _, _; split; [done|]; split; [done|]; split; [done|apply hooked_same] ].
    destruct Ho as (l & al & Hg & _ & HA & [_ He]). rewrite HA, Hg. cbn [mbind M_bind]. rewrite (ea_count _ _ He).
    eexists _, _. split; [done|]. split; [done|]. split; [done|apply hooked_same].
Qed.

(** ** Programs *)

Fixpoint run_plist (m : prefix_master) (ks : list plist_call) : M (prefix_master * list plist_answer) :=
  match ks with
  | [] => Ok (m, [])
  | k :: ks => '(m, r) ← exec_plist m k; '(m, rs) ← run_plist m ks; Ok (m, r :: rs)
  end.
Fixpoint plist_trace (A : lists_by_name) (ks : list plist_call) : lists_by_name * list plist_answer * list hook_call :=
  match ks with
  | [] => (A, [], [])
  | k :: ks => let '(A, r, h) := plist_does A k in let '(A, rs, hs) := plist_trace A ks in (A, r :: rs, h ++ hs)
  end.

(** The lists of a family at the start. *)
Definition new_master (h : bool) : prefix_master := PMaster new_chain new_chain None h [].

Lemma new_master_is h : master_is (new_master h) ∅.
Proof.
  split; [|done]. exists (λ _, []). split; [intros []; apply is_list_new|]. split; try (intros *; set_solver); [constructor| |constructor].
  intros nm. rewrite lookup_empty. by intros [].
Qed.

Lemma run_refines ks : ∀ m A, master_is m A → Forall call_ok ks →
  ∃ m', run_plist m ks = Ok (m', (plist_trace A ks).1.2) ∧ master_is m' (plist_trace A ks).1.1 ∧ hooked m m' (plist_trace A ks).2.
Proof.
  induction ks as [|k ks IH]; intros m A H Hk; [exists m; split; [done|]; split; [done|apply hooked_same]|].
  apply Forall_cons in Hk as [Hk Hks]. cbn [run_plist plist_trace]. destruct (call_refines m A k H Hk) as (m1 & a & -> & -> & H1 & Hh1). cbn [mbind M_bind].
  destruct (plist_does A k) as [ [A1 r] h]. cbn [fst snd] in *. destruct (IH m1 A1 H1 Hks) as (m2 & -> & H2 & Hh2). cbn [mbind M_bind].
  destruct (plist_trace A1 ks) as [ [A2 rs] hs]. cbn [fst snd] in *. exists m2. split; [done|]. split; [done|]. by eapply hooked_trans.
Qed.

(** C9. The prefix lists of lib/plist.c.  Any sequence of commands, of outbound route
    filters and of prefixes to be judged, from no lists at all, returns without an
    access to freed memory or a failed assertion, with the answers of a finite map
    from names to entries in the order of their sequence numbers: an entry replaces
    the one with its number, gets the next multiple of five when it has none, and is
    refused when another one says the same; an empty list without a description is
    gone; a prefix gets the verdict of the first entry that applies.  The two chains
    of lists hold that map, the one of the names that are not numbers in their order,
    and the hooks are called as often and with the lists the map tells. *)
Theorem plist_refines h ks : Forall call_ok ks →
  let '(A, answers, calls) := plist_trace ∅ ks in
  ∃ m, run_plist (new_master h) ks = Ok (m, answers) ∧ master_is m A ∧ hook_calls m = if h then calls else [].
Proof.
  intros Hk. destruct (run_refines ks (new_master h) ∅ (new_master_is h) Hk) as (m & E & H & Hh).
  destruct (plist_trace ∅ ks) as [ [A rs] hs]. exists m. split; [done|]. split; [done|]. by destruct Hh as [_ ->].
Qed.

(** Names and prefixes for examples: the lists "a" and "7". *)
Definition name_a : list Z := [97].
Definition name_7 : list Z := [55].
Definition net (a b len : Z) : prefix := Prefix AF_INET len ([a; b] ++ replicate 14 0).
Definition sample_calls : list plist_call :=
  [Install AFI_IP name_a (-1) PREFIX_PERMIT (net 10 0 8) 0 24 false;
   Install AFI_IP name_a (-1) PREFIX_DENY (net 10 1 16) 0 32 false;
   Install AFI_IP name_a 3 PREFIX_DENY (net 10 2 16) 0 24 false;
   Install AFI_IP name_a 20 PREFIX_DENY (net 10 2 16) 0 24 false;
   Describe name_7 [120];
   Apply name_a (net 10 1 16);
   Apply name_a (net 10 2 24);
   Apply name_7 (net 10 2 24);
   Uninstall name_a (Some (3, PREFIX_DENY, net 10 2 16, 0, 24));
   Apply name_a (net 10 2 24);
   Undescribe name_7;
   Apply name_7 (net 10 2 24);
   Show_count name_a].

Lemma plist_refines_witness :
  Forall call_ok sample_calls ∧
  ∃ m, run_plist (new_master true) sample_calls =
    Ok (m, [Code 0; Code 0; Code 0; Code 1; Code 0; Verdict PREFIX_PERMIT; Verdict PREFIX_DENY; Verdict PREFIX_PERMIT; Code 0; Verdict PREFIX_PERMIT;
            Code 0; Verdict PREFIX_DENY; Code 2]) ∧
    hook_calls m = [add_hook name_a; add_hook name_a; add_hook name_a; delete_hook (Some name_a); delete_hook None].
Proof.
  assert (Forall call_ok sample_calls) as Hk by decide_by_compute.
  split; [exact Hk|]. pose proof (plist_refines true sample_calls Hk) as H. vm_compute (plist_trace ∅ sample_calls) in H.
  destruct H as (m & E & _ & Hh). exists m. split; [exact E|exact Hh].
Defined.

Lemma decided_cases R p : StronglySorted (λ e1 e2, e_seq e1 < e_seq e2) R →
  (∃ e, e ∈ R ∧ applies p e = true ∧ decided R p = e_type e ∧ ∀ e', e' ∈ R → applies p e' = true → e' ≠ e → e_seq e < e_seq e') ∨
  (∀ e, e ∈ R → applies p e = false) ∧ decided R p = PREFIX_DENY.
Proof.
  unfold decided. induction 1 as [|e R _ IH He]; [right; split; [set_solver|done]|]. cbn [list_find]. destruct (applies p e) eqn:E.
  - left. exists e. rewrite decide_True by done. split; [left|]. split; [done|]. split; [done|]. intros e' [->|Hin]%elem_of_cons _ Hne; [done|].
    rewrite Forall_forall in He. by apply He.
  - rewrite decide_False by congruence. destruct IH as [(x & Hx & Ha & Hd & Hl)|[Hn Hd] ].
    + left. exists x. split; [by right|]. split; [done|]. split; [by destruct (list_find _ R) as [[]|]|]. intros e' [->|Hin]%elem_of_cons Ha'; [congruence|by apply Hl].
    + right. split; [intros e' [->|Hin]%elem_of_cons; auto|]. by destruct (list_find _ R) as [[]|].
Qed.

(** C24. A prefix is judged by the entry with the least number: [prefix_list_apply], on
    a list as the commands leave it, returns the type of the entry that has the
    least sequence number among those that apply, deny when none applies, and permit
    when the list has no entries.  An entry applies when its prefix covers the
    prefix and the length is in the range it names, or is its own length when it
    names none.  The lists stay what they were. *)
Theorem prefix_list_apply_least m A r l al p : master_is m A → get_list m r = Ok l → A !! name l = Some al → prefix_ok p →
  ∃ m' t, prefix_list_apply m (Some r) p = Ok (m', t) ∧ master_is m' A ∧
    (a_rules al = [] ∧ t = PREFIX_PERMIT ∨
     a_rules al ≠ [] ∧ (∀ e, e ∈ a_rules al → applies p e = false) ∧ t = PREFIX_DENY ∨
     ∃ e, e ∈ a_rules al ∧ key (e_prefix e) `prefix_of` key p ∧ in_range e (prefixlen p) = true ∧ t = e_type e ∧
       ∀ e', e' ∈ a_rules al → applies p e' = true → e' ≠ e → e_seq e < e_seq e').
Proof.
  intros H Hg HA Hp. destruct (get_is _ _ _ _ H Hg) as (_ & al' & HA' & Hal). rewrite HA in HA'. injection HA' as <-.
  destruct (apply_list_ok m A r l al p H Hg Hal HA Hp) as (m' & E & H' & _). exists m', (verdict (a_rules al) p). split; [done|]. split; [done|].
  pose proof (r_sorted _ (ea_rules _ _ (proj2 Hal))) as Hs. unfold verdict. destruct (a_rules al) as [|x R]; [by left|]. right.
  destruct (decided_cases (x :: R) p Hs) as [(e & Hin & Ha & Hd & Hl)|[Hn Hd] ]; [right|by left].
  exists e. apply andb_true_iff in Ha as [Hk%bool_decide_eq_true Hr]. split_and!; done.
Qed.

Lemma prefix_list_apply_least_witness :
  ∃ m r m' t, get_list m r ≠ Fault Undefined ∧ prefix_list_apply m (Some r) (net 10 2 24) = Ok (m', t) ∧ t = PREFIX_DENY.
Proof.
  assert (Forall call_ok (take 4 sample_calls)) as Hk by decide_by_compute.
  destruct (run_refines (take 4 sample_calls) _ _ (new_master_is false) Hk) as (m & E & H & _).
  assert (cstring name_a) as Hn by (unfold cstring; decide_by_compute).
  destruct (lookup_list _ _ name_a H Hn) as ([r|] & Er & Hr); [|vm_compute in Hr; discriminate Hr]. destruct Hr as (l & al & Hg & Hname & HA & _).
  assert (prefix_ok (net 10 2 24)) as Hp by decide_by_compute. rewrite <-Hname in HA.
  destruct (prefix_list_apply_least m _ r l al (net 10 2 24) H Hg HA Hp) as (m' & t & Et & _). exists m, r, m', t. split; [by rewrite Hg|]. split; [done|].
  clear H HA. vm_compute in E. injection E as <-. vm_compute in Er. injection Er as <-. vm_compute in Et. by injection Et as _ <-.
Defined.
