(* ===== verification/Refresh.v ===== *)
(** ROUTE-REFRESH and CAPABILITY messages as they are written:
    [bgp_route_refresh_send] and [bgp_capability_send] of bgpd/bgp_packet.c up to the
    packet, with the entries of a prefix list.  What they do to the peer is in Fsm.v. *)
From S2P Require Import Prelude Prefix Stream StreamRead Hash Attr AttrSpec Fsm Open OpenTrip Message Chain Plist PlistSpec.
Open Scope Z_scope.

Definition ORF_COMMON_PART_ADD : Z := 0x00.
Definition ORF_COMMON_PART_PERMIT : Z := 0x00.

(** The safi of a packet. *)
Definition packet_safi (safi_ : Z) : Z := if safi_ =? SAFI_MPLS_VPN then SAFI_MPLS_LABELED_VPN else safi_.

(** The packet of [bgp_route_refresh_send], in a new stream with the content [junk];
    [plist] is [filter->plist[FILTER_IN].plist]. *)
Definition refresh_packet (junk : list Z) (new_rcv : bool) (k : Z * Z) (orf_type when_to_refresh : Z) (remove : bool)
    (plist : option (chain prefix_list_entry)) : M stream :=
  s ← stream_new BGP_MAX_PACKET_SIZE junk;
  s ← bgp_packet_set_marker s (if new_rcv then BGP_MSG_ROUTE_REFRESH_NEW else BGP_MSG_ROUTE_REFRESH_OLD);
  s ← putw s (fst k);
  s ← putcs s [0; packet_safi (snd k)];
  s ← (if ((orf_type =? ORF_TYPE_PREFIX) || (orf_type =? ORF_TYPE_PREFIX_OLD)) && (remove || is_some plist) then
         s ← putcs s [when_to_refresh; orf_type];
         let orfp := endp s in
         s ← putw s 0;
         s ← (if remove then putcs s [ORF_COMMON_PART_REMOVE_ALL]
              else prefix_bgp_orf_entry s plist ORF_COMMON_PART_ADD ORF_COMMON_PART_PERMIT ORF_COMMON_PART_DENY);
         '(s, _) ← stream_putw_at s orfp (u16 (endp s - orfp - 2));
         Ok s
       else Ok s);
  bgp_packet_set_size s.

(** The packet of [bgp_capability_send]. *)
Definition capability_packet (junk : list Z) (k : Z * Z) (capability_code action : Z) : M stream :=
  s ← stream_new BGP_MAX_PACKET_SIZE junk;
  s ← bgp_packet_set_marker s BGP_MSG_CAPABILITY;
  s ← (if capability_code =? CAPABILITY_CODE_MP then
         s ← putcs s [action; CAPABILITY_CODE_MP; CAPABILITY_CODE_MP_LEN];
         s ← putw s (fst k);
         putcs s [0; packet_safi (snd k)]
       else Ok s);
  bgp_packet_set_size s.

(** ** What is written *)

(** [f] writes [b], or aborts when there is no room for it. *)
Definition appends (f : stream → M stream) (b : list Z) : Prop := ∀ s b0, wrote s b0 →
  if zlen b0 + zlen b <=? BGP_MAX_PACKET_SIZE then ∃ s', f s = Ok s' ∧ wrote s' (b0 ++ b) else f s = Fault Aborted.

Lemma appends_nil : appends Ok [].
Proof.
  intros s b0 Hw. pose proof (wrote_endp _ _ Hw) as He. pose proof Hw as ((? & ? & _) & Hz & _). cbn [length].
  rewrite (proj2 (Z.leb_le _ _)) by lia. exists s. by rewrite app_nil_r.
Qed.

Lemma appends_seq f g b1 b2 : appends f b1 → appends g b2 → appends (λ s, s ← f s; g s) (b1 ++ b2).
Proof.
  intros Hf Hg s b0 Hw. specialize (Hf s b0 Hw). rewrite length_app. destruct (Z.leb_spec (zlen b0 + zlen b1) BGP_MAX_PACKET_SIZE) as [L1|L1].
  - destruct Hf as (s1 & -> & H1). cbn [mbind M_bind]. specialize (Hg s1 _ H1). rewrite length_app in Hg.
    replace (zlen b0 + Z.of_nat (length b1 + length b2)) with (Z.of_nat (length b0 + length b1) + zlen b2) by lia.
    destruct (_ <=? _); [|done]. by rewrite <-app_assoc in Hg.
  - rewrite Hf. rewrite (proj2 (Z.leb_gt _ _)) by lia. done.
Qed.

Lemma appends_ext f g b : appends f b → (∀ s, g s = f s) → appends g b.
Proof. intros H E s b0 Hw. rewrite E. by apply H. Qed.

Lemma appends_word `{Word n} v : (∀ s, stream_ok s → size s - endp s < Z.of_nat n → put_word s v = Fault Aborted) →
  appends (λ s, '(s, _) ← put_word s v; Ok s) (be_bytes n v).
Proof.
  intros Hfull s b0 Hw. rewrite length_be_bytes. destruct (Z.leb_spec (zlen b0 + Z.of_nat n) BGP_MAX_PACKET_SIZE) as [L|L].
  - destruct (word_wrote s b0 v Hw L) as (s' & r & -> & ?). by exists s'.
  - pose proof (wrote_endp _ _ Hw) as He. destruct Hw as (Hs & Hz & _). rewrite Hfull by (done || lia). done.
Qed.

Lemma putc_full s v : stream_ok s → size s - endp s < 1 → stream_putc s v = Fault Aborted.
Proof. intros Hs Hf. unfold stream_putc. rewrite sane_ok, writeable_ok by done. by rewrite (proj2 (Z.ltb_lt _ _)) by lia. Qed.
Lemma putw_full s v : stream_ok s → size s - endp s < 2 → stream_putw s v = Fault Aborted.
Proof. intros Hs Hf. unfold stream_putw. rewrite sane_ok, writeable_ok by done. by rewrite (proj2 (Z.ltb_lt _ _)) by lia. Qed.
Lemma putl_full s v : stream_ok s → size s - endp s < 4 → stream_putl s v = Fault Aborted.
Proof. intros Hs Hf. unfold stream_putl. rewrite sane_ok, writeable_ok by done. by rewrite (proj2 (Z.ltb_lt _ _)) by lia. Qed.

Lemma byte_bytes c : is_byte c → be_bytes 1 c = [c].
Proof. intros Hc. cbn [be_bytes]. change (2 ^ (8 * Z.of_nat 0)) with 1. by rewrite Z.div_1_r, Z.mod_small by exact Hc. Qed.

Lemma appends_byte c : is_byte c → appends (λ s, '(s, _) ← stream_putc s c; Ok s) [c].
Proof. intros Hc. rewrite <-(byte_bytes c) by done. exact (appends_word (n := 1) c (λ s, putc_full s c)). Qed.
Lemma appends_bytes l : bytes_ok l → appends (λ s, putcs s l) l.
Proof.
  induction 1 as [|c l Hc _ IH]; [apply appends_nil|]. eapply appends_ext; [exact (appends_seq _ _ [c] l (appends_byte c Hc) IH)|].
  intros s. cbn [putcs]. by destruct (stream_putc s c) as [[]|].
Qed.
Lemma appends_putw w : appends (λ s, putw s w) (be_bytes 2 w).
Proof. exact (appends_word (n := 2) w (λ s, putw_full s w)). Qed.
Lemma appends_putl w : appends (λ s, '(s, _) ← stream_putl s w; Ok s) (be_bytes 4 w).
Proof. exact (appends_word (n := 4) w (λ s, putl_full s w)). Qed.

(** The bytes of a prefix, and of an entry. *)
Definition psize (p : prefix) : nat := Z.to_nat (PSIZE (prefixlen p)).
Definition prefix_bytes (p : prefix) : list Z := prefixlen p :: take (psize p) (u p).

Lemma psize_ok p : inet_ok p → 0 <= PSIZE (prefixlen p) <= 16 ∧ (psize p <= blen p <= 16)%nat ∧ length (u p) = 16%nat ∧ bytes_ok (u p) ∧
  0 <= prefixlen p <= 8 * PSIZE (prefixlen p) ∧ prefixlen p <= 128.
Proof.
  intros Hp. pose proof Hp as ((L & B & Hr) & Hf & Hl). unfold prefix_union_size, IPV6_MAX_BITLEN in *. unfold psize, PSIZE.
  pose proof (Z.div_mod (prefixlen p + 7) 8). pose proof (Z.mod_pos_bound (prefixlen p + 7) 8).
  assert (prefix_blen p = Z.of_nat (blen p) ∧ (blen p <= 16)%nat) as [Eb Hb].
  { destruct (inet_cases p Hp) as [[_ E]|[_ E] ]; rewrite E; unfold blen in E; lia. }
  split_and!; try done; lia.
Qed.

Lemma appends_prefix p : inet_ok p → appends (λ s, '(s, _) ← stream_put_prefix s p; Ok s) (prefix_bytes p).
Proof.
  intros Hp s b0 Hw. destruct (psize_ok p Hp) as (Hz & Hb & L & B & Hlen & H128). pose proof (wrote_endp _ _ Hw) as He. pose proof Hw as (Hs & Hsz & Hg & Hc).
  pose proof Hs as (? & ? & ? & ? & ?). assert (zlen (prefix_bytes p) = 1 + PSIZE (prefixlen p)) as Lp.
  { unfold prefix_bytes, psize. cbn [length]. rewrite length_take. lia. }
  rewrite Lp. unfold stream_put_prefix. rewrite sane_ok, writeable_ok by done. rewrite (u64_small (PSIZE _ + 1)) by (unfold BGP_MAX_PACKET_SIZE in *; lia).
  destruct (Z.leb_spec (zlen b0 + (1 + PSIZE (prefixlen p))) BGP_MAX_PACKET_SIZE) as [Hr|Hr].
  2:{ by rewrite (proj2 (Z.ltb_lt _ _)) by lia. }
  rewrite (proj2 (Z.ltb_ge _ _)) by lia. cbn [negb]. rewrite wr_in_bounds by lia. cbn [mbind M_bind]. rewrite rdn_in_bounds by lia. cbn [mbind M_bind].
  change (Z.to_nat 0) with 0%nat. rewrite drop_0. fold (psize p). set (b := take (psize p) (u p)).
  assert (length b = psize p) as Lb by (unfold b; rewrite length_take; lia). assert (Z.of_nat (psize p) = PSIZE (prefixlen p)) as Ez by (unfold psize; lia).
  rewrite wrn_in_bounds by (rewrite length_insert; lia). cbn [mbind M_bind]. rewrite u64_small by (unfold BGP_MAX_PACKET_SIZE in *; lia).
  destruct (append_splice s (prefix_bytes p) Hs) as (Hs' & _ & _ & Hc' & _); [unfold room; lia| |].
  { constructor; [unfold is_byte; lia|by apply Forall_take]. }
  assert (take (Z.to_nat (endp s + 1)) (<[Z.to_nat (endp s):=prefixlen p]> (data s)) ++ b ++
    drop (Z.to_nat (endp s + 1) + length b) (<[Z.to_nat (endp s):=prefixlen p]> (data s)) =
    take (Z.to_nat (endp s)) (data s) ++ prefix_bytes p ++ drop (Z.to_nat (endp s) + length (prefix_bytes p)) (data s)) as ->.
  { replace (Z.to_nat (endp s + 1)) with (S (Z.to_nat (endp s))) by lia. rewrite drop_insert_lt by lia. rewrite insert_take_drop by lia.
    set (n := Z.to_nat (endp s)). assert (take (S n) (take n (data s) ++ prefixlen p :: drop (S n) (data s)) = take n (data s) ++ [prefixlen p]) as ->.
    { rewrite take_app, length_take, Nat.min_l by (subst n; lia). replace (S n - n)%nat with 1%nat by lia. cbn [take]. by rewrite take_0, take_take, Nat.min_r by lia. }
    unfold prefix_bytes. fold b. rewrite <-!app_assoc. cbn [app length]. do 4 f_equal. lia. }
  cbn [data]. eexists. split; [done|]. rewrite Lp in *.
  replace (endp s + 1 + PSIZE (prefixlen p)) with (endp s + (1 + PSIZE (prefixlen p))) by lia. split; [exact Hs'|]. split; [exact Hsz|]. split; [exact Hg|]. by rewrite Hc', Hc.
Qed.

Definition entry_flag (e : prefix_list_entry) : Z := if bool_decide (e_type e = PREFIX_PERMIT) then 0 else ORF_COMMON_PART_DENY.
Definition entry_bytes (e : prefix_list_entry) : list Z :=
  [entry_flag e] ++ be_bytes 4 (u32 (e_seq e)) ++ [u8 (e_ge e)] ++ [u8 (e_le e)] ++ prefix_bytes (e_prefix e).
Notation list_bytes R := (concat (entry_bytes <$> R)).

Notation put_entry s e := (put_orf_entry s e ORF_COMMON_PART_ADD ORF_COMMON_PART_PERMIT ORF_COMMON_PART_DENY).

Lemma u8_byte z : is_byte (u8 z).
Proof. unfold u8, is_byte. apply Z.mod_pos_bound. lia. Qed.

Lemma appends_entry e : inet_ok (e_prefix e) → appends (λ s, put_entry s e) (entry_bytes e).
Proof.
  intros Hp. assert (is_byte (entry_flag e)) as Hf by (unfold entry_flag; by destruct (bool_decide _)).
  eapply appends_ext; [exact (appends_seq _ _ _ _ (appends_byte _ Hf) (appends_seq _ _ _ _ (appends_putl (u32 (e_seq e)))
    (appends_seq _ _ _ _ (appends_byte _ (u8_byte (e_ge e))) (appends_seq _ _ _ _ (appends_byte _ (u8_byte (e_le e))) (appends_prefix _ Hp)))))|].
  intros s. unfold put_orf_entry. assert (u8 (Z.lor ORF_COMMON_PART_ADD (if bool_decide (e_type e = PREFIX_PERMIT) then ORF_COMMON_PART_PERMIT else ORF_COMMON_PART_DENY)) = entry_flag e) as ->
    by (unfold entry_flag; by destruct (bool_decide _)).
  destruct (stream_putc s _) as [[s1 ?]|]; [|done]. cbn [mbind M_bind]. destruct (stream_putl s1 _) as [[s2 ?]|]; [|done]. cbn [mbind M_bind].
  destruct (stream_putc s2 _) as [[s3 ?]|]; [|done]. cbn [mbind M_bind]. by destruct (stream_putc s3 _) as [[s4 ?]|].
Qed.

Lemma appends_entries l : Forall (λ q, inet_ok (e_prefix q.2)) l →
  appends (λ s, r ← fold_until (λ _ e s, s ← put_entry s e; Ok (inl s : stream + ())) l s; match r with inl s => Ok s | inr _ => Fault Undefined end)
    (list_bytes (snd <$> l)).
Proof.
  induction 1 as [|[a e] l He _ IH]; [apply (appends_ext _ _ _ appends_nil); done|]. cbn [fmap list_fmap concat snd].
  eapply appends_ext; [exact (appends_seq _ _ _ _ (appends_entry e He) IH)|]. intros s. cbn [fold_until]. by destruct (put_entry s e).
Qed.

Lemma rule_bytes l : list_bytes (snd <$> l) = list_bytes ((λ q : loc * prefix_list_entry, rule q.2) <$> l).
Proof. induction l as [|[a e] l IH]; [done|]. cbn [fmap list_fmap concat snd] in *. rewrite IH. done. Qed.

Lemma appends_list c R : entries_are c R →
  appends (λ s, prefix_bgp_orf_entry s (Some c) ORF_COMMON_PART_ADD ORF_COMMON_PART_PERMIT ORF_COMMON_PART_DENY) (list_bytes R).
Proof.
  intros [(l & Hl & <-) _ Hr]. pose proof (appends_entries l (rules_inet _ Hr)) as H. rewrite rule_bytes in H. intros s b0 Hw. specialize (H s b0 Hw).
  unfold prefix_bgp_orf_entry. rewrite (loop_ok _ _ _ _ Hl).
  destruct (_ <=? _).
  - destruct H as (s' & E & Hw'). exists s'. split; [|done]. destruct (fold_until _ l s) as [[x|]|] eqn:Ef in E; [|done..].
    refine (eq_trans (f_equal (λ r, r ≫= _) Ef) _). exact E.
  - destruct (fold_until _ l s) as [[x|]|] eqn:Ef in H; [done..|]. refine (eq_trans (f_equal (λ r, r ≫= _) Ef) _). exact H.
Qed.

(** ** The packets *)

Definition refresh_body (k : Z * Z) (orf : list Z) : list Z := be_bytes 2 (fst k) ++ [0; packet_safi (snd k)] ++ orf.
Definition orf_part (orf_type when_to_refresh : Z) (b : list Z) : list Z := [when_to_refresh; orf_type] ++ be_bytes 2 (zlen b) ++ b.
(** A message of type [type]. *)
Definition packet_bytes (type : Z) (body : list Z) : list Z := replicate 16 255 ++ be_bytes 2 (19 + zlen body) ++ [type] ++ body.

Lemma new_wrote junk : zlen junk = BGP_MAX_PACKET_SIZE → bytes_ok junk → wrote (Stream 0 0 BGP_MAX_PACKET_SIZE junk) [].
Proof. intros Hj Hb. split; [|done]. split_and!; cbn [getp endp size data]; done || lia. Qed.

Lemma appends_marker type : is_byte type → appends (λ s, bgp_packet_set_marker s type) (replicate 16 255 ++ be_bytes 2 0 ++ [type]).
Proof.
  intros Ht. assert (bytes_ok (replicate 16 255)) as Hr by (by apply Forall_replicate). assert (bytes_ok [type]) as H1 by by apply Forall_singleton.
  exact (appends_seq _ _ _ _ (appends_bytes _ Hr) (appends_seq _ _ _ _ (appends_putw 0) (appends_bytes _ H1))).
Qed.

Lemma set_size_wrote s type body : wrote s (replicate 16 255 ++ be_bytes 2 0 ++ [type] ++ body) →
  ∃ s', bgp_packet_set_size s = Ok s' ∧ wrote s' (packet_bytes type body).
Proof.
  intros Hw. pose proof (wrote_endp _ _ Hw) as He. rewrite !length_app, length_replicate, length_be_bytes in He. cbn [length] in He.
  unfold bgp_packet_set_size, packet_bytes. change (be_bytes 2 0) with [0; 0] in Hw. cbn [app] in Hw.
  destruct (putw_at_wrote s (replicate 16 255) 0 0 (type :: body) (endp s) BGP_MARKER_SIZE Hw eq_refl) as (s' & r & -> & W). cbn [mbind M_bind].
  exists s'. split; [done|]. by replace (19 + zlen body) with (endp s) by lia.
Qed.

Lemma orf_room c R s b : entries_are c R → wrote s b → zlen b + zlen (list_bytes R) <= BGP_MAX_PACKET_SIZE →
  ∃ s', prefix_bgp_orf_entry s (Some c) ORF_COMMON_PART_ADD ORF_COMMON_PART_PERMIT ORF_COMMON_PART_DENY = Ok s' ∧ wrote s' (b ++ list_bytes R).
Proof. intros He Hw Hr. pose proof (appends_list c R He s b Hw) as H. by rewrite (proj2 (Z.leb_le _ _) Hr) in H. Qed.
Lemma orf_no_room c R s b : entries_are c R → wrote s b → BGP_MAX_PACKET_SIZE < zlen b + zlen (list_bytes R) →
  prefix_bgp_orf_entry s (Some c) ORF_COMMON_PART_ADD ORF_COMMON_PART_PERMIT ORF_COMMON_PART_DENY = Fault Aborted.
Proof. intros He Hw Hr. pose proof (appends_list c R He s b Hw) as H. by rewrite (proj2 (Z.leb_gt _ _) Hr) in H. Qed.

Lemma header_wrote junk type (k : Z * Z) : zlen junk = BGP_MAX_PACKET_SIZE → bytes_ok junk → is_byte type → is_byte (packet_safi (snd k)) →
  ∃ s1 s2 s3, bgp_packet_set_marker (Stream 0 0 BGP_MAX_PACKET_SIZE junk) type = Ok s1 ∧ putw s1 (fst k) = Ok s2 ∧ putcs s2 [0; packet_safi (snd k)] = Ok s3 ∧
    wrote s3 (replicate 16 255 ++ be_bytes 2 0 ++ [type] ++ refresh_body k []).
Proof.
  intros Hj Hb Ht Hk. pose proof (appends_marker type Ht _ [] (new_wrote junk Hj Hb)) as H. rewrite (proj2 (Z.leb_le _ _)) in H by room.
  destruct H as (s1 & E1 & W1). destruct (putw_wrote s1 _ (fst k) W1) as (s2 & E2 & W2); [room|].
  destruct (putcs_wrote s2 _ [0; packet_safi (snd k)] W2) as (s3 & E3 & W3); [bytes|room|].
  exists s1, s2, s3. split; [done|]. split; [done|]. split; [done|]. unfold refresh_body. rewrite app_nil_r. by rewrite <-!app_assoc in W3.
Qed.

Definition refresh_type (new_rcv : bool) : Z := if new_rcv then BGP_MSG_ROUTE_REFRESH_NEW else BGP_MSG_ROUTE_REFRESH_OLD.
Definition is_orf (orf_type : Z) : Prop := orf_type = ORF_TYPE_PREFIX ∨ orf_type = ORF_TYPE_PREFIX_OLD.

Lemma refresh_list_packet junk new_rcv k orf_type when_ c R : zlen junk = BGP_MAX_PACKET_SIZE → bytes_ok junk → is_byte (packet_safi (snd k)) →
  is_orf orf_type → is_byte when_ → entries_are c R →
  let body := refresh_body k (orf_part orf_type when_ (list_bytes R)) in
  if 19 + zlen body <=? BGP_MAX_PACKET_SIZE
  then ∃ s, refresh_packet junk new_rcv k orf_type when_ false (Some c) = Ok s ∧ wrote s (packet_bytes (refresh_type new_rcv) body)
  else refresh_packet junk new_rcv k orf_type when_ false (Some c) = Fault Aborted.
Proof.
  intros Hj Hb Hk Ho Hwhen He body. unfold refresh_packet, stream_new. change (0 <? BGP_MAX_PACKET_SIZE) with true. cbn [mbind M_bind]. fold (refresh_type new_rcv).
  assert (is_byte (refresh_type new_rcv)) as Ht by (by destruct new_rcv). assert (is_byte orf_type) as Hot by (by destruct Ho as [-> | ->]).
  destruct (header_wrote junk (refresh_type new_rcv) k Hj Hb Ht Hk) as (s1 & s2 & s3 & -> & E2 & E3 & W3). cbn [mbind M_bind]. rewrite E2. cbn [mbind M_bind]. rewrite E3. cbn [mbind M_bind].
  assert ((orf_type =? ORF_TYPE_PREFIX) || (orf_type =? ORF_TYPE_PREFIX_OLD) = true) as -> by (by destruct Ho as [-> | ->]). cbn [andb orb is_some].
  set (h := replicate 16 255 ++ be_bytes 2 0 ++ [refresh_type new_rcv]) in *.
  assert (wrote s3 (h ++ refresh_body k [])) as W by (unfold h; by rewrite <-!app_assoc). clear W3 E3. assert (zlen h = 19) as Lh by (unfold h; room).
  assert (zlen (refresh_body k []) = 4) as L4 by (unfold refresh_body; room).
  destruct (putcs_wrote s3 _ [when_; orf_type] W) as (s4 & -> & W4); [bytes|rewrite length_app; unfold BGP_MAX_PACKET_SIZE; cbn [length]; lia|]. cbn [mbind M_bind].
  assert (endp s4 = 25) as E4 by (rewrite (wrote_endp _ _ W4), !length_app; cbn [length]; lia). rewrite E4.
  destruct (putw_wrote s4 _ 0 W4) as (s5 & -> & W5); [rewrite !length_app; unfold BGP_MAX_PACKET_SIZE; cbn [length]; lia|]. cbn [mbind M_bind].
  assert (zlen body = 8 + zlen (list_bytes R)) as Lbody by (unfold body, refresh_body, orf_part; rewrite !length_app, !length_be_bytes; cbn [length]; lia).
  assert (zlen (((h ++ refresh_body k []) ++ [when_; orf_type]) ++ be_bytes 2 0) = 27) as L27 by (rewrite !length_app, length_be_bytes; cbn [length]; lia).
  destruct (Z.leb_spec (19 + zlen body) BGP_MAX_PACKET_SIZE) as [Hr|Hr].
  2:{ rewrite (orf_no_room c R s5 _ He W5) by lia. done. }
  destruct (orf_room c R s5 _ He W5) as (s6 & -> & W6); [lia|]. cbn [mbind M_bind].
  assert (endp s6 - 25 - 2 = zlen (list_bytes R)) as E6 by (rewrite (wrote_endp _ _ W6), length_app; lia). rewrite E6. unfold u16. rewrite Z.mod_small by (unfold BGP_MAX_PACKET_SIZE in *; lia).
  rewrite <-!app_assoc in W6. change (be_bytes 2 0) with [0; 0] in W6. rewrite (app_assoc h), (app_assoc (h ++ _)) in W6. cbn [app] in W6.
  destruct (putw_at_wrote s6 _ 0 0 _ (zlen (list_bytes R)) 25 W6) as (s7 & r & -> & W7); [rewrite !length_app; cbn [length]; lia|]. cbn [mbind M_bind].
  apply set_size_wrote. unfold body, refresh_body, orf_part in *. unfold h in W7. rewrite <-!app_assoc in W7. exact W7.
Qed.

(** A CAPABILITY message: the multiprotocol capability of the family, or no
    capability at all. *)
Definition capability_body (k : Z * Z) (code action : Z) : list Z :=
  if code =? CAPABILITY_CODE_MP then [action; CAPABILITY_CODE_MP; CAPABILITY_CODE_MP_LEN] ++ be_bytes 2 (fst k) ++ [0; packet_safi (snd k)] else [].

Lemma capability_packet_bytes junk k code action : zlen junk = BGP_MAX_PACKET_SIZE → bytes_ok junk → is_byte (packet_safi (snd k)) → is_byte action →
  ∃ s, capability_packet junk k code action = Ok s ∧ wrote s (packet_bytes BGP_MSG_CAPABILITY (capability_body k code action)).
Proof.
  intros Hj Hb Hk Ha. unfold capability_packet, capability_body, stream_new. change (0 <? BGP_MAX_PACKET_SIZE) with true. cbn [mbind M_bind].
  assert (is_byte BGP_MSG_CAPABILITY) as Ht by done. pose proof (appends_marker BGP_MSG_CAPABILITY Ht _ [] (new_wrote junk Hj Hb)) as H.
  rewrite (proj2 (Z.leb_le _ _)) in H by room. destruct H as (s1 & -> & W). cbn [mbind M_bind]. destruct (code =? CAPABILITY_CODE_MP).
  - destruct (putcs_wrote s1 _ [action; CAPABILITY_CODE_MP; CAPABILITY_CODE_MP_LEN] W) as (s2 & -> & W2); [bytes|room|]. cbn [mbind M_bind].
    destruct (putw_wrote s2 _ (fst k) W2) as (s3 & -> & W3); [room|]. cbn [mbind M_bind].
    destruct (putcs_wrote s3 _ [0; packet_safi (snd k)] W3) as (s4 & -> & W4); [bytes|room|]. cbn [mbind M_bind].
    apply set_size_wrote. rewrite <-!app_assoc in W4. exact W4.
  - cbn [mbind M_bind]. by apply set_size_wrote.
Qed.
