(* ===== verification/OrfTrip.v ===== *)
(** Outbound route filters from one router to the other: the ROUTE-REFRESH message
    of bgp_packet.c, written from a prefix list of lib/plist.c and read by
    [bgp_route_refresh_receive] into another one. *)
From stdpp Require Import sorting pretty.
From S2P Require Import Prelude Prefix Stream StreamRead Hash Attr AttrSpec Fsm FsmSpec Open OpenSpec OpenTrip Message MessageSpec MessageReceive Chain Plist PlistSpec PlistRefine Refresh.
Open Scope Z_scope.

(** ** The prefix lists behind the session *)

(** [sprintf (name, "%s.%d.%d", peer->host, afi, safi)]. *)
Definition decimal (z : Z) : list Z := (λ c, Z.of_N (Ascii.N_of_ascii c)) <$> String.list_ascii_of_string (pretty (Z.to_N z)).
Definition orf_name (host : list Z) (k : Z * Z) : list Z := host ++ [46] ++ decimal (fst k) ++ [46] ++ decimal (snd k).

(** A call of [bgp_route_refresh_receive], and whether it succeeded. *)
Definition do_orf (host : list Z) (m : prefix_master) (c : orf_call) : M (prefix_master * bool) :=
  match c with
  | Message.prefix_bgp_orf_set k orfp permit set_ =>
      '(m, ret) ← Plist.prefix_bgp_orf_set m (orf_name host k) (fst k) orfp permit set_; Ok (m, ret =? CMD_SUCCESS)
  | Message.prefix_bgp_orf_remove_all k => m ← Plist.prefix_bgp_orf_remove_all m (orf_name host k); Ok (m, true)
  | Message.prefix_list_lookup k => r ← Plist.prefix_list_lookup m (orf_name host k); Ok (m, is_some r)
  end.
Fixpoint run_orf (host : list Z) (m : prefix_master) (cs : list orf_call) : M prefix_master :=
  match cs with [] => Ok m | c :: cs => '(m, _) ← do_orf host m c; run_orf host m cs end.

(** The answers of lib/plist.c, from the lists [m0]. *)
Definition orf_answer (host : list Z) (m0 : prefix_master) (cs : list orf_call) (c : orf_call) : bool :=
  match (m ← run_orf host m0 cs; do_orf host m c) with Ok (_, b) => b | Fault _ => false end.

Lemma run_orf_app host m cs c : run_orf host m (cs ++ [c]) = (m ← run_orf host m cs; '(m, _) ← do_orf host m c; Ok m).
Proof.
  revert m. induction cs as [|d cs IH]; intros m; cbn [app run_orf]; [done|]. destruct (do_orf host m d) as [[m1 b]|]; [|done]. apply IH.
Qed.

(** ** Bytes of an entry *)

(** [d] has the bytes [b] at [p]. *)
Definition has_at (d : list Z) (p : Z) (b : list Z) : Prop := 0 <= p ∧ ∃ rest, drop (Z.to_nat p) d = b ++ rest.

Lemma has_at_app d p b1 b2 : has_at d p (b1 ++ b2) → has_at d p b1 ∧ has_at d (p + zlen b1) b2.
Proof.
  intros (Hp & rest & E). rewrite <-app_assoc in E. split; [split; [done|by eexists]|]. split; [lia|]. exists rest.
  replace (Z.to_nat (p + zlen b1)) with (Z.to_nat p + length b1)%nat by lia. rewrite <-drop_drop, E. by rewrite drop_app_length.
Qed.
Lemma has_at_rdn d p b : has_at d p b → p + zlen b <= zlen d → rdn d p (zlen b) = Ok b.
Proof.
  intros (Hp & rest & E) Hl. rewrite rdn_in_bounds by lia. rewrite E, Nat2Z.id. by rewrite take_app_length.
Qed.
Lemma has_at_rd d p x : has_at d p [x] → rd d p = Ok x.
Proof.
  intros (Hp & rest & E). destruct (rd_in_bounds d p) as [y Ey].
  { assert (length (drop (Z.to_nat p) d) ≠ 0%nat) as Hl by (by rewrite E). rewrite length_drop in Hl. lia. }
  rewrite Ey. f_equal. apply rd_inv in Ey as [_ Ey]. pose proof (f_equal (λ l, l !! 0%nat) E) as E0. cbn in E0. rewrite lookup_drop, Nat.add_0_r in E0. congruence.
Qed.

(** What the other side makes of a prefix: the host bits of its last byte are kept,
    the bytes after it are not. *)
Definition wire (p : prefix) : prefix := Prefix (family p) (prefixlen p) (take (psize p) (u p) ++ replicate (16 - psize p) 0).
Definition orf_entry_of (e : prefix_list_entry) : orf_prefix := OrfPrefix (u32 (e_seq e)) (e_ge e) (e_le e) (wire (e_prefix e)).

Lemma orf_byte_at d p p_end x : has_at d p [x] → p < p_end → orf_byte d p p_end = Ok (x, p + 1, true).
Proof. intros H Hp. unfold orf_byte. rewrite (proj2 (Z.ltb_lt _ _) Hp), (has_at_rd _ _ _ H). done. Qed.

Lemma u8_id z : is_byte z → u8 z = z.
Proof. intros H. by apply Z.mod_small. Qed.

Lemma entry_tail_length e : inet_ok (e_prefix e) → zlen (entry_bytes e) = 8 + PSIZE (prefixlen (e_prefix e)).
Proof.
  intros Hp. destruct (psize_ok _ Hp) as (? & ? & L & _). unfold entry_bytes, prefix_bytes. rewrite !length_app, length_be_bytes. cbn [length].
  rewrite length_take. unfold psize in *. lia.
Qed.

Lemma orf_entry_at d afi_ p p_end e : has_at d p (be_bytes 4 (u32 (e_seq e)) ++ [e_ge e] ++ [e_le e] ++ prefix_bytes (e_prefix e)) →
  inet_ok (e_prefix e) → family (e_prefix e) = afi2family afi_ → p + 7 + PSIZE (prefixlen (e_prefix e)) <= p_end → p_end <= zlen d →
  orf_entry d afi_ p p_end = Ok (orf_entry_of e, p + 7 + PSIZE (prefixlen (e_prefix e)), true).
Proof.
  intros H Hp Hf Hend Hd. set (q := e_prefix e) in *. set (n := PSIZE (prefixlen q)) in *.
  destruct (psize_ok q Hp) as (Hn & Hb & L & _ & Hlen & _). fold n in Hn.
  assert (Z.of_nat (psize q) = n) as En by (unfold psize; fold n; lia). assert (zlen (take (psize q) (u q)) = n) as Ln by (rewrite length_take; lia).
  apply has_at_app in H as [H4 H]. rewrite length_be_bytes in H. apply has_at_app in H as [Hge H]. apply has_at_app in H as [Hle H].
  apply (has_at_app _ _ [_]) in H as [Hpl Hu]. cbn [length] in *. change (Z.of_nat 4) with 4 in *. change (Z.of_nat 1) with 1 in *.
  unfold orf_entry. rewrite (proj2 (Z.leb_le 4 _)) by lia. pose proof (has_at_rdn d p _ H4) as E4. rewrite length_be_bytes in E4. change (Z.of_nat 4) with 4 in E4.
  rewrite E4 by lia. cbn [mbind M_bind]. rewrite be_value_bytes.
  rewrite (orf_byte_at d (p + 4) p_end (e_ge e)) by (done || lia). cbn [mbind M_bind].
  rewrite (orf_byte_at d (p + 4 + 1) p_end (e_le e)) by (done || lia). cbn [mbind M_bind].
  rewrite (orf_byte_at d (p + 4 + 1 + 1) p_end (prefixlen q)) by (done || lia). cbn [mbind M_bind]. fold n.
  assert (prefix_blen (Prefix (afi2family afi_) (prefixlen q) (Attr.zeros 16)) = Z.of_nat (blen q)) as ->.
  { rewrite <-Hf. destruct (inet_cases q Hp) as [[E ->]|[E ->] ]; unfold prefix_blen; cbn [family]; by rewrite E. }
  rewrite (proj2 (Z.ltb_ge _ n)) by lia. rewrite (proj2 (Z.ltb_ge _ n)) by lia.
  assert ((if 0 <? n then b ← rdn d (p + 4 + 1 + 1 + 1) n; wrn (Attr.zeros 16) 0 b else Ok (Attr.zeros 16)) = Ok (u (wire q))) as ->.
  { destruct (Z.ltb_spec 0 n).
    - pose proof (has_at_rdn d _ _ Hu) as Er. rewrite Ln in Er. rewrite Er by lia. cbn [mbind M_bind]. rewrite wrn_in_bounds by (change (zlen (Attr.zeros 16)) with 16; lia).
      change (Z.to_nat 0) with 0%nat. cbn [take app Nat.add]. do 2 f_equal. unfold Attr.zeros. rewrite drop_replicate, length_take, Nat.min_l by lia. done.
    - unfold wire. cbn [u]. assert (psize q = 0%nat) as -> by lia. done. }
  cbn [mbind M_bind]. unfold orf_entry_of. fold q. rewrite <-Hf. replace (p + 4 + 1 + 1 + 1 + n) with (p + 7 + n) by lia.
  do 5 f_equal. unfold u32. change (8 * Z.of_nat 4) with 32. rewrite Z.mod_mod by lia. done.
Qed.

(** ** Entries on the other side *)

Definition received (e : prefix_list_entry) : prefix_list_entry := PEntry (e_seq e) (e_le e) (e_ge e) (e_type e) false (wire (e_prefix e)) 0 0.

(** A list that can be sent: no number is the one that asks for an automatic
    number, the ranges are as the commands leave them, and no two entries differ
    only in what is not sent. *)
Record sendable (afi_ : Z) (R : list prefix_list_entry) : Prop := {
  sd_seq : Forall (λ e, - 2 ^ 31 <= e_seq e < 2 ^ 31 ∧ e_seq e ≠ -1) R;
  sd_range : Forall (λ e, is_byte (e_ge e) ∧ is_byte (e_le e) ∧ entry_range afi_ (prefixlen (e_prefix e)) (e_ge e) (e_le e) = Some (e_le e)) R;
  sd_family : Forall (λ e, inet_ok (e_prefix e) ∧ family (e_prefix e) = afi2family afi_) R;
  sd_distinct e1 e2 : e1 ∈ R → e2 ∈ R → wire (e_prefix e1) = wire (e_prefix e2) → e_type e1 = e_type e2 → e_le e1 = e_le e2 → e_ge e1 = e_ge e2 →
    e_seq e1 = e_seq e2;
}.

Lemma s32_u32 z : - 2 ^ 31 <= z < 2 ^ 31 → s32 (u32 z) = z.
Proof.
  intros Hz. unfold s32, u32. rewrite Zplus_mod_idemp_l. rewrite Z.mod_small by lia. lia.
Qed.

Lemma wire_ok p : inet_ok p → inet_ok (wire p).
Proof.
  intros Hp. destruct (psize_ok p Hp) as (_ & Hb & L & B & _). destruct Hp as ((_ & _ & Hr) & Hf & Hl). split; [split; [|split]|split; done].
  - cbn [wire u]. rewrite length_app, length_take, length_replicate. unfold prefix_union_size. lia.
  - cbn [wire u]. apply Forall_app. split; [by apply Forall_take|by apply Forall_replicate].
  - exact Hr.
Qed.

Lemma copied_wire p : inet_ok p → copied (wire p) = wire p.
Proof.
  intros Hp. destruct (psize_ok p Hp) as (_ & Hb & L & _). unfold copied. change (blen (wire p)) with (blen p). unfold wire. cbn [family prefixlen u]. f_equal.
  assert (length (take (psize p) (u p)) = psize p) as La by (rewrite length_take; lia).
  rewrite take_app_ge, La, take_replicate, drop_replicate, Nat.min_l by lia.
  rewrite <-app_assoc, <-replicate_add. f_equal. f_equal. lia.
Qed.

Lemma wire_same p q : inet_ok p → inet_ok q → same_prefix (wire p) (wire q) = true → wire p = wire q.
Proof.
  intros Hp Hq H. apply bool_decide_eq_true in H as (Hf & Hl & Hu). rewrite <-(copied_wire p), <-(copied_wire q) by done. unfold copied.
  assert (blen (wire q) = blen (wire p)) as -> by (unfold blen, prefix_blen; by rewrite Hf). by rewrite Hf, Hl, Hu.
Qed.

Lemma wire_key p : inet_ok p → key (wire p) = key p.
Proof.
  intros Hp. destruct (psize_ok p Hp) as (_ & Hb & L & _ & Hlen & _). unfold key, wire. cbn [prefixlen u].
  rewrite <-(take_drop (psize p) (u p)) at 2. rewrite !bits_app. assert (Z.to_nat (prefixlen p) <= length (bits (take (psize p) (u p))))%nat as Hk.
  { rewrite length_bits, length_take. unfold psize in *. lia. }
  by rewrite !take_app_le by done.
Qed.

Lemma received_applies p e : inet_ok (e_prefix e) → applies p (received e) = applies p e.
Proof. intros He. unfold applies, in_range. cbn [received e_prefix e_le e_ge]. by rewrite wire_key. Qed.

Lemma received_verdict R p : Forall (λ e, inet_ok (e_prefix e)) R → verdict (received <$> R) p = verdict R p.
Proof.
  intros HR. assert (decided (received <$> R) p = decided R p) as E by
    (unfold decided; induction HR as [|e R He _ IH]; [done|]; rewrite fmap_cons; cbn [list_find]; rewrite received_applies by done;
     destruct (decide _); [done|]; destruct (list_find _ (received <$> R)) as [[]|], (list_find _ R) as [[]|]; done).
  unfold verdict. by destruct R.
Qed.

(** The lists once the entries [R] are received. *)
Definition orf_lists (nm : list Z) (R : list prefix_list_entry) (A : gmap (list Z) a_list) : gmap (list Z) a_list :=
  match R with [] => A | _ => <[nm:=AList None (received <$> R)]> A end.

Lemma orf_lists_named nm R A : A !! nm = None → list_named nm (orf_lists nm R A) = AList None (received <$> R).
Proof. intros HA. unfold list_named, orf_lists. destruct R; [by rewrite HA|by rewrite lookup_insert_eq]. Qed.
Lemma orf_lists_snoc nm R e A : <[nm:=AList None (received <$> (R ++ [e]))]> (orf_lists nm R A) = orf_lists nm (R ++ [e]) A.
Proof. unfold orf_lists. destruct R; [done|]. by rewrite insert_insert_eq. Qed.

Lemma does_receive afi_ R1 e R2 nm A : sendable afi_ (R1 ++ e :: R2) → StronglySorted (λ e1 e2, e_seq e1 < e_seq e2) (R1 ++ e :: R2) → A !! nm = None →
  does_install (orf_lists nm R1 A) nm (received e) = (orf_lists nm (R1 ++ [e]) A, Code CMD_SUCCESS, [add_hook nm]).
Proof.
  intros [Hseq _ Hf Hd] Hs HA. unfold does_install. rewrite orf_lists_named by done. cbn [a_rules a_desc].
  assert (e ∈ R1 ++ e :: R2) as Hin by set_solver. rewrite Forall_forall in Hseq, Hf. destruct (Hseq e Hin) as [_ Hne].
  assert (number_for (e_seq (received e)) (received <$> R1) = e_seq e) as Hnum by (unfold number_for; cbn [received e_seq]; by rewrite (proj2 (Z.eqb_neq _ _) Hne)).
  apply StronglySorted_app in Hs as (Hx & _ & _).
  assert (duplicate (received e) (received <$> R1) = false) as ->.
  { unfold duplicate. rewrite Hnum. apply not_true_is_false. intros (x & (y & -> & Hy)%list_elem_of_In%list_elem_of_fmap & Hxy)%existsb_exists.
    apply andb_true_iff in Hxy as [Hsame Hnq]. unfold same_rule in Hsame. rewrite !andb_true_iff in Hsame. destruct Hsame as (((Hw & Ht) & Hle) & Hge).
    cbn [received e_prefix e_type e_le e_ge e_seq] in *. assert (y ∈ R1 ++ e :: R2) as Hy' by set_solver.
    apply wire_same in Hw; [|by apply Hf..]. apply bool_decide_eq_true in Ht. apply Z.eqb_eq in Hle, Hge.
    rewrite (Hd y e Hy' Hin Hw Ht Hle Hge), Z.eqb_refl in Hnq. done. }
  rewrite Hnum. assert (set_seq (received e) (e_seq e) = received e) as -> by done. do 2 f_equal. rewrite <-orf_lists_snoc. do 2 f_equal.
  rewrite fmap_app, <-(app_nil_r (received <$> R1)) at 1. rewrite (cut_put (e_seq e) (received <$> R1) [] None); try done.
  rewrite Forall_fmap, Forall_forall. intros x Hx'. cbn. apply Hx; [done|left].
Qed.

(** The call for an entry. *)
Definition set_call (k : Z * Z) (e : prefix_list_entry) : orf_call :=
  Message.prefix_bgp_orf_set k (orf_entry_of e) (bool_decide (e_type e = PREFIX_PERMIT)) true.

Lemma do_receive host k R1 e R2 A m : sendable (fst k) (R1 ++ e :: R2) → StronglySorted (λ e1 e2, e_seq e1 < e_seq e2) (R1 ++ e :: R2) →
  cstring (orf_name host k) → A !! orf_name host k = None → master_is m (orf_lists (orf_name host k) R1 A) →
  ∃ m', do_orf host m (set_call k e) = Ok (m', true) ∧ master_is m' (orf_lists (orf_name host k) (R1 ++ [e]) A).
Proof.
  intros Hsd Hs Hn HA Hm. assert (e ∈ R1 ++ e :: R2) as Hin by set_solver. pose proof Hsd as [Hseq Hrange Hf _]. rewrite Forall_forall in Hseq, Hrange, Hf.
  destruct (Hseq e Hin) as [Hs32 _], (Hrange e Hin) as (_ & _ & Hr), (Hf e Hin) as [Hi _]. set (nm := orf_name host k) in *.
  destruct (orf_refines m _ (fst k) nm (orf_entry_of e) (bool_decide (e_type e = PREFIX_PERMIT)) true Hm Hn (wire_ok _ Hi)) as (m' & a & E & Ha & Hm' & _).
  cbn [exec_plist plist_does orf_entry_of orf_p orf_ge orf_le orf_seq] in *. change (prefixlen (wire (e_prefix e))) with (prefixlen (e_prefix e)) in *.
  rewrite Hr, s32_u32, copied_wire in Ha, Hm' by done.
  assert ((if bool_decide (e_type e = PREFIX_PERMIT) then PREFIX_PERMIT else PREFIX_DENY) = e_type e) as Ht by (by destruct (e_type e)). rewrite Ht in Ha, Hm'.
  change (PEntry _ _ _ _ _ _ _ _) with (received e) in Ha, Hm'. rewrite (does_receive (fst k) R1 e R2 nm A Hsd Hs HA) in Ha, Hm'. cbn [fst snd] in Ha, Hm'.
  exists m'. split; [|done]. unfold do_orf, set_call. fold nm. destruct (Plist.prefix_bgp_orf_set _ _ _ _ _ _) as [[m1 z]|]; cbn [mbind M_bind] in *; [|done].
  injection E as <- <-. by injection Ha as ->.
Qed.

(** ** The message on the other side *)

Lemma answer_do host m0 cs c m m' b : run_orf host m0 cs = Ok m → do_orf host m c = Ok (m', b) →
  orf_answer host m0 cs c = b ∧ run_orf host m0 (cs ++ [c]) = Ok m'.
Proof. intros E1 E2. unfold orf_answer. rewrite run_orf_app, E1. cbn [mbind M_bind]. by rewrite E2. Qed.

Lemma entry_flag_bits e : Z.land (entry_flag e) ORF_COMMON_PART_REMOVE_ALL = 0 ∧ Z.land (entry_flag e) ORF_COMMON_PART_REMOVE = 0 ∧
  (Z.land (entry_flag e) ORF_COMMON_PART_DENY =? 0) = bool_decide (e_type e = PREFIX_PERMIT).
Proof. unfold entry_flag. by destruct (bool_decide _). Qed.

Lemma set_calls_same st l1 l2 : set_orf_calls (set_orf_calls st l1) l2 = set_orf_calls st l2.
Proof. done. Qed.

Section trip.
Context (host : list Z) (m0 : prefix_master) (k : Z * Z) (A : gmap (list Z) a_list).
Notation nm := (orf_name host k).
Hypothesis (Hn : cstring nm) (HA : A !! nm = None).

Lemma orf_entries_at R2 : ∀ R1 st fuel p p_end m, sendable (fst k) (R1 ++ R2) → StronglySorted (λ e1 e2, e_seq e1 < e_seq e2) (R1 ++ R2) →
  run_orf host m0 (orf_calls st) = Ok m → master_is m (orf_lists nm R1 A) → has_at (data (buf st)) p (list_bytes R2) →
  p_end = p + zlen (list_bytes R2) → p_end <= zlen (data (buf st)) → (length R2 <= fuel)%nat →
  ∃ m', orf_entries (orf_answer host m0) fuel st k p p_end = Ok (set_orf_calls st (orf_calls st ++ (set_call k <$> R2))) ∧
    run_orf host m0 (orf_calls st ++ (set_call k <$> R2)) = Ok m' ∧ master_is m' (orf_lists nm (R1 ++ R2) A).
Proof.
  induction R2 as [|e R2 IH]; intros R1 st fuel p p_end m Hsd Hs Hrun Hm Hat -> Hend Hfuel.
  - cbn [fmap list_fmap concat length] in *. rewrite !app_nil_r. exists m. split; [|done].
    assert (set_orf_calls st (orf_calls st) = st) as -> by (by destruct st). destruct fuel; cbn [orf_entries]; by rewrite (proj2 (Z.ltb_ge _ _)) by lia.
  - cbn [fmap list_fmap concat] in *. rewrite length_app in *. pose proof (proj1 (Forall_forall _ _) (sd_family _ _ Hsd) e ltac:(set_solver)) as [Hi Hf].
    pose proof (proj1 (Forall_forall _ _) (sd_range _ _ Hsd) e ltac:(set_solver)) as (Hge & Hle & _).
    destruct (psize_ok _ Hi) as (Hz & _). pose proof (entry_tail_length e Hi) as Le. apply has_at_app in Hat as [Hat Hat2].
    destruct fuel as [|fuel]; cbn [length] in Hfuel; [lia|]. cbn [orf_entries]. rewrite (proj2 (Z.ltb_lt p _)) by lia. cbn [negb].
    unfold entry_bytes in Hat. rewrite !u8_id in Hat by done. apply (has_at_app _ _ [_]) in Hat as [Hflag Hat].
    rewrite (has_at_rd _ _ _ Hflag). cbn [mbind M_bind]. destruct (entry_flag_bits e) as (-> & -> & ->). cbn [Z.eqb negb].
    rewrite (orf_entry_at _ (fst k) (p + 1) _ e Hat Hi Hf) by lia. cbn [mbind M_bind]. fold (set_call k e). unfold orf_do. cbn [fst snd].
    destruct (do_receive host k R1 e R2 A m Hsd Hs Hn HA Hm) as (m1 & E1 & Hm1). destruct (answer_do _ _ _ _ _ _ _ Hrun E1) as [-> Hrun1]. cbn [negb].
    rewrite cons_middle, app_assoc in Hsd, Hs.
    destruct (IH (R1 ++ [e]) (set_orf_calls st (orf_calls st ++ [set_call k e])) fuel (p + 1 + 7 + PSIZE (prefixlen (e_prefix e))) (p + Z.of_nat (length (entry_bytes e) + length (list_bytes R2))) m1 Hsd Hs Hrun1 Hm1)
      as (m' & E & Hrun' & Hm'); [|lia|exact Hend|lia|].
    { replace (p + 1 + 7 + PSIZE (prefixlen (e_prefix e))) with (p + zlen (entry_bytes e)) by lia. exact Hat2. }
    exists m'. cbn [orf_calls set_orf_calls] in E, Hrun'. rewrite <-app_assoc in E, Hrun', Hm'. by split.
Qed.

(** What is left to read is in the data of the stream. *)
Lemma unread_at s b : stream_ok s → unread s = b → has_at (data s) (getp s) b ∧ getp s + zlen b = endp s ∧ endp s <= zlen (data s).
Proof.
  intros Hs <-. pose proof Hs as (? & ? & ? & ? & _). pose proof (length_unread s Hs). split_and!; [|lia..]. unfold unread, contents.
  split; [lia|]. exists (drop (Z.to_nat (endp s)) (data s)). rewrite skipn_firstn_comm.
  rewrite <-(take_drop (Z.to_nat (endp s) - Z.to_nat (getp s)) (drop (Z.to_nat (getp s)) (data s))) at 1. rewrite drop_drop. do 2 f_equal. lia.
Qed.

Lemma list_bytes_length R : Forall (λ e, inet_ok (e_prefix e)) R → 8 * zlen R <= zlen (list_bytes R).
Proof.
  induction 1 as [|e R He _ IH]; [done|]. cbn [fmap list_fmap concat length]. rewrite length_app. pose proof (entry_tail_length e He). destruct (psize_ok _ He). lia.
Qed.

Lemma orf_parts_at R st fuel orf_type m end_ : sendable (fst k) R → StronglySorted (λ e1 e2, e_seq e1 < e_seq e2) R → R ≠ [] → is_orf orf_type →
  run_orf host m0 (orf_calls st) = Ok m → master_is m A → stream_ok (buf st) → zlen (list_bytes R) < 65536 →
  unread (buf st) = [orf_type] ++ be_bytes 2 (zlen (list_bytes R)) ++ list_bytes R → end_ = endp (buf st) → (0 < fuel)%nat →
  ∃ st' m', orf_parts (orf_answer host m0) fuel st k end_ = Ok st' ∧ run_orf host m0 (orf_calls st') = Ok m' ∧
    master_is m' (orf_lists nm R A) ∧ peer_of st' = peer_of st.
Proof.
  intros Hsd Hs HR Ho Hrun Hm Hok Hlen Hu -> Hfuel. set (L := zlen (list_bytes R)) in *.
  assert (Forall (λ e, inet_ok (e_prefix e)) R) as Hi by (eapply Forall_impl; [exact (sd_family _ _ Hsd)|]; cbn; tauto).
  pose proof (list_bytes_length R Hi) as HL. fold L in HL. assert (1 <= zlen R) by (destruct R; [done|cbn [length]; lia]).
  destruct fuel as [|fuel]; [lia|]. cbn [orf_parts]. destruct (unread_at _ _ Hok Hu) as (_ & He & Hd). rewrite !length_app, length_be_bytes in He. cbn [length] in He.
  rewrite (proj2 (Z.ltb_lt _ _)) by lia. cbn [negb app] in Hu |- *. destruct (getc_cons _ _ _ Hok Hu) as (-> & Hok1 & Hu1 & _). cbn [mbind M_bind].
  destruct (getw_bytes _ _ _ Hok1 Hu1 (length_be_bytes 2 L)) as (-> & Hok2 & Hu2 & _). cbn [mbind M_bind]. at_stream. rewrite set_set, getp_set in Hok2, Hu2. rewrite be_value_bytes, Z.mod_small by lia.
  set (s2 := set_getp (buf st) (getp (buf st) + 1 + 2)) in *. assert (getp s2 = getp (buf st) + 3 ∧ endp s2 = endp (buf st)) as [Eg Ee] by (subst s2; at_stream; lia).
  destruct (unread_at _ _ Hok2 Hu2) as (Hat & He2 & Hd2). fold L in He2. change (getp (buf st) + 1 + 2) with (getp s2).
  rewrite (proj2 (Z.ltb_ge _ (getp s2 + L))) by lia.
  assert ((orf_type =? ORF_TYPE_PREFIX) || (orf_type =? ORF_TYPE_PREFIX_OLD) = true) as -> by (by destruct Ho as [-> | ->]). cbn [andb].
  rewrite (proj2 (Z.ltb_ge L 7)) by lia. set (st1 := set_buf st s2).
  destruct (orf_entries_at R [] st1 (Z.to_nat L) (getp s2) (getp s2 + L) m Hsd Hs Hrun Hm Hat) as (m1 & -> & Hrun1 & Hm1); [done|change (buf st1) with s2; lia|lia|].
  cbn [mbind M_bind fst orf_do app] in *. rewrite forward_ok by (done || lia). cbn [mbind M_bind].
  assert (∃ m2 b, do_orf host m1 (Message.prefix_list_lookup k) = Ok (m2, b) ∧ m2 = m1) as (m2 & b & E2 & ->).
  { destruct (lookup_list m1 _ nm Hm1 Hn) as (o & E & _). eexists _, _. unfold do_orf. rewrite E. by split. }
  destruct (answer_do _ _ _ _ _ _ _ Hrun1 E2) as [_ Hrun2].
  eexists _, m1. split; [destruct fuel; cbn [orf_parts]; at_stream; rewrite (proj2 (Z.ltb_ge _ _)) by (cbn; lia); reflexivity|]. split; [exact Hrun2|]. by split.
Qed.

Lemma refresh_receive_at e R st orf_type when_ size m : sendable (fst k) R → StronglySorted (λ e1 e2, e_seq e1 < e_seq e2) R → R ≠ [] → is_orf orf_type →
  fst k ∈ [AFI_IP; AFI_IP6] → snd k ∈ [SAFI_UNICAST; SAFI_MULTICAST; SAFI_MPLS_VPN] →
  CHECK_FLAG (cap (peer_of st)) PEER_CAP_REFRESH_ADV = true → status (peer_of st) = Established →
  run_orf host m0 (orf_calls st) = Ok m → master_is m A → stream_ok (buf st) → zlen (list_bytes R) < 65536 →
  unread (buf st) = refresh_body k (orf_part orf_type when_ (list_bytes R)) → size = zlen (unread (buf st)) →
  ∃ st' m', bgp_route_refresh_receive e (orf_answer host m0) st size = Ok st' ∧ run_orf host m0 (orf_calls st') = Ok m' ∧ master_is m' (orf_lists nm R A) ∧
    if when_ =? REFRESH_DEFER then peer_of st' = peer_of st else ∃ p, peer_of st' = bgp_announce_route p k.
Proof.
  intros Hsd Hs HR Ho Hafi Hsafi Hcap Hst Hrun Hm Hok Hlen Hu ->. unfold bgp_route_refresh_receive. rewrite Hcap, Hst, Z.eqb_refl. cbn [negb].
  pose proof (length_unread _ Hok) as Lu. rewrite Hu in *. unfold refresh_body, orf_part in *. set (L := zlen (list_bytes R)) in *.
  rewrite !length_app, !length_be_bytes in *. cbn [length] in *. rewrite !Nat2Z.inj_add in *. change (Z.of_nat 2) with 2 in *. fold L in Lu |- *.
  destruct (getw_bytes _ _ _ Hok Hu (length_be_bytes 2 (fst k))) as (-> & Hok1 & Hu1 & _). cbn [mbind M_bind app] in *.
  destruct (getc_cons _ _ _ Hok1 Hu1) as (-> & Hok2 & Hu2 & _). cbn [mbind M_bind]. destruct (getc_cons _ _ _ Hok2 Hu2) as (-> & Hok3 & Hu3 & _). cbn [mbind M_bind].
  rewrite !set_set, !getp_set in *. set (s3 := set_getp (buf st) (getp (buf st) + 2 + 1 + 1)) in *.
  assert (be_value (be_bytes 2 (fst k)) = fst k) as -> by (rewrite be_value_bytes; apply Z.mod_small; set_unfold; destruct Hafi as [-> |[-> |[] ] ]; done).
  set (safi_ := packet_safi (snd k)) in *.
  assert ((negb (fst k =? AFI_IP) && negb (fst k =? AFI_IP6)) || (negb (safi_ =? SAFI_UNICAST) && negb (safi_ =? SAFI_MULTICAST) && negb (safi_ =? SAFI_MPLS_LABELED_VPN)) = false ∧
    (fst k, if safi_ =? SAFI_MPLS_LABELED_VPN then SAFI_MPLS_VPN else safi_) = k) as [-> ->].
  { subst safi_. clear -Hafi Hsafi. destruct k as [a sf]. cbn [fst snd] in *. set_unfold. destruct Hafi as [-> |[-> |[] ] ], Hsafi as [-> |[-> |[-> |[] ] ] ]; done. }
  assert (Forall (λ e, inet_ok (e_prefix e)) R) as Hi by (eapply Forall_impl; [exact (sd_family _ _ Hsd)|]; cbn; tauto).
  pose proof (list_bytes_length R Hi) as HL. fold L in HL. assert (1 <= zlen R) by (destruct R; [done|cbn [length]; lia]).
  unfold BGP_MSG_ROUTE_REFRESH_MIN_SIZE, BGP_HEADER_SIZE in *. rewrite (proj2 (Z.eqb_neq _ _)) by lia. rewrite (proj2 (Z.ltb_ge _ 5)) by lia.
  destruct (getc_cons _ _ _ Hok3 Hu3) as (-> & Hok4 & Hu4 & _). cbn [mbind M_bind]. set (s4 := set_getp s3 (getp s3 + 1)) in *.
  assert (getp s4 = getp (buf st) + 5 ∧ endp s4 = endp (buf st)) as [Eg Ee] by (subst s4 s3; at_stream; lia).
  destruct (orf_parts_at R (set_buf (set_buf st s3) s4) (Z.to_nat (2 + (2 + (2 + (2 + L))))) orf_type m (getp s4 + (2 + (2 + (2 + (2 + L))) - 5)))
    as (st1 & m1 & -> & Hrun1 & Hm1 & Hp1); [done..|exact Hu4|cbn; lia|lia|].
  cbn [mbind M_bind]. eexists _, m1. split; [done|]. destruct (when_ =? REFRESH_DEFER).
  - split; [done|]. split; [done|exact Hp1].
  - split; [done|]. split; [done|]. by eexists.
Qed.
End trip.

(** A router with an inbound prefix list, and a session of the other one that has
    no list for the family yet. *)
Record sender (k : Z * Z) (m : prefix_master) (r : ref) (l : prefix_list) : Prop := {
  sn_afi : fst k ∈ [AFI_IP; AFI_IP6];
  sn_safi : snd k ∈ [SAFI_UNICAST; SAFI_MULTICAST; SAFI_MPLS_VPN];
  sn_list : ∃ A al, master_is m A ∧ get_list m r = Ok l ∧ A !! name l = Some al ∧ sendable (fst k) (a_rules al) ∧ a_rules al ≠ [];
}.
Record filterer (host : list Z) (k : Z * Z) (m0 : prefix_master) (st : session) : Prop := {
  fl_name : cstring host;
  fl_cap : CHECK_FLAG (cap (peer_of st)) PEER_CAP_REFRESH_ADV = true;
  fl_status : status (peer_of st) = Established;
  fl_lists : ∃ m A, run_orf host m0 (orf_calls st) = Ok m ∧ master_is m A ∧ A !! orf_name host k = None;
  fl_buf : stream_ok (buf st);
}.

Lemma orf_name_ok host k : cstring host → fst k ∈ [AFI_IP; AFI_IP6] → snd k ∈ [SAFI_UNICAST; SAFI_MULTICAST; SAFI_MPLS_VPN] → cstring (orf_name host k).
Proof.
  intros Hh Ha Hs. unfold orf_name. apply Forall_app. split; [done|]. destruct k as [a s]. cbn [fst snd] in *. set_unfold.
  destruct Ha as [-> |[-> |[] ] ], Hs as [-> |[-> |[-> |[] ] ] ]; vm_compute; repeat constructor.
Qed.
Lemma packet_safi_byte s : s ∈ [SAFI_UNICAST; SAFI_MULTICAST; SAFI_MPLS_VPN] → is_byte (packet_safi s).
Proof. intros Hs. set_unfold. destruct Hs as [-> |[-> |[-> |[] ] ] ]; done. Qed.


(** The first three entries of the list "a". *)
Definition sample_sender : prefix_master := match run_plist (new_master false) (take 3 sample_calls) with Ok (m, _) => m | Fault _ => new_master false end.
Definition sample_ref : ref := match Plist.prefix_list_lookup sample_sender name_a with Ok (Some r) => r | _ => (false, 1%positive) end.
Definition sample_list : prefix_list := match get_list sample_sender sample_ref with Ok l => l | Fault _ => PList [] None false new_chain end.
Definition sample_host : list Z := [49; 48; 46; 48; 46; 48; 46; 49].
Definition sample_refresh : stream :=
  match refresh_packet (replicate 4096 0) true (1, 1) ORF_TYPE_PREFIX 1 false (Some (entries sample_list)) with Ok s => s | Fault _ => Stream 0 0 0 [] end.
Definition sample_rules : list prefix_list_entry := a_rules (list_named name_a (plist_trace ∅ (take 3 sample_calls)).1.1).

Lemma sample_is_sender : sender (1, 1) sample_sender sample_ref sample_list.
Proof.
  split; [set_solver|set_solver|]. assert (Forall call_ok (take 3 sample_calls)) as Hk by decide_by_compute.
  destruct (run_refines (take 3 sample_calls) _ _ (new_master_is false) Hk) as (m & E & H & _).
  assert (m = sample_sender) as -> by (unfold sample_sender; by rewrite E).
  eexists _, (AList None sample_rules). split; [exact H|]. split; [vm_compute; reflexivity|]. split; [vm_compute; reflexivity|]. split; [|vm_compute; discriminate].
  split; [decide_by_compute..|]. cbn [a_rules].
  assert (Forall (λ e1, Forall (λ e2, u (wire (e_prefix e1)) = u (wire (e_prefix e2)) → e_seq e1 = e_seq e2) sample_rules) sample_rules) as Hd by decide_by_compute.
  intros e1 e2 H1 H2 Hw _ _ _. rewrite Forall_forall in Hd. specialize (Hd e1 H1). rewrite Forall_forall in Hd. apply Hd; [done|]. by rewrite Hw.
Qed.



(** ** The size of the message *)

Definition orf_size (R : list prefix_list_entry) : Z := foldr (λ e z, 8 + PSIZE (prefixlen (e_prefix e)) + z) 0 R.

Lemma orf_size_bytes R : Forall (λ e, inet_ok (e_prefix e)) R → zlen (list_bytes R) = orf_size R.
Proof.
  induction 1 as [|e R He _ IH]; [done|]. cbn [fmap list_fmap concat orf_size foldr]. rewrite length_app. pose proof (entry_tail_length e He) as Le. unfold orf_size in *. lia.
Qed.

(** C38. A prefix list that does not fit in a packet ends the daemon.
    [bgp_route_refresh_send] writes the entries of the list one after the other, with
    nothing that bounds them: when the header and the entries take at most 4096
    bytes the message is written, with their length, and when they take more the
    write fails the assertion of the stream and the process aborts. *)
Theorem refresh_packet_exact junk new_rcv k orf_type when_ c R : zlen junk = BGP_MAX_PACKET_SIZE → bytes_ok junk → is_byte (packet_safi (snd k)) →
  is_orf orf_type → is_byte when_ → entries_are c R →
  let n := 27 + orf_size R in
  (n <= 4096 → ∃ s, refresh_packet junk new_rcv k orf_type when_ false (Some c) = Ok s ∧ zlen (contents s) = n ∧
     contents s = packet_bytes (refresh_type new_rcv) (refresh_body k (orf_part orf_type when_ (list_bytes R)))) ∧
  (4096 < n → refresh_packet junk new_rcv k orf_type when_ false (Some c) = Fault Aborted).
Proof.
  intros Hj Hb Hk Ho Hw He n. pose proof (refresh_list_packet junk new_rcv k orf_type when_ c R Hj Hb Hk Ho Hw He) as H. cbv zeta in H.
  set (body := refresh_body _ _) in *. pose proof (orf_size_bytes R (r_inet _ (ea_rules _ _ He))) as Hn.
  assert (19 + zlen body = n) as En by (unfold body, refresh_body, orf_part; rewrite !length_app, !length_be_bytes; cbn [length]; unfold n; lia).
  rewrite En in H. change BGP_MAX_PACKET_SIZE with 4096 in H. split; intros Hr.
  - rewrite (proj2 (Z.leb_le _ _) Hr) in H. destruct H as (s & E & (_ & _ & _ & Hc)). exists s. split; [done|]. rewrite Hc. split; [|done].
    unfold packet_bytes. rewrite !length_app, length_replicate, length_be_bytes. cbn [length]. lia.
  - by rewrite (proj2 (Z.leb_gt _ _) Hr) in H.
Qed.

Lemma sample_entries : entries_are (entries sample_list) sample_rules.
Proof.
  destruct (run_refines (take 3 sample_calls) _ _ (new_master_is false) ltac:(decide_by_compute)) as (m & E & H & _).
  assert (m = sample_sender) as -> by (unfold sample_sender; by rewrite E).
  assert (get_list sample_sender sample_ref = Ok sample_list) as Hg by (vm_compute; reflexivity).
  destruct (get_is _ _ _ _ H Hg) as (_ & al & HA & [_ He] ). assert (a_rules al = sample_rules) as <-; [|exact He].
  clear -HA. vm_compute in HA. injection HA as <-. vm_compute. reflexivity.
Qed.

Lemma refresh_packet_exact_witness :
  ∃ s, refresh_packet (replicate 4096 0) true (1, 1) ORF_TYPE_PREFIX 1 false (Some (entries sample_list)) = Ok s ∧ zlen (contents s) = 56.
Proof.
  assert (zlen (replicate 4096 0) = BGP_MAX_PACKET_SIZE) as Hj by (vm_compute; reflexivity). assert (bytes_ok (replicate 4096 0)) as Hb by decide_by_compute.
  assert (is_byte 1) as H1 by done. assert (is_orf ORF_TYPE_PREFIX) as Ho by by left.
  destruct (refresh_packet_exact (replicate 4096 0) true (1, 1) ORF_TYPE_PREFIX 1 (entries sample_list) sample_rules Hj Hb H1 Ho H1 sample_entries) as [H _].
  destruct H as (s & E & Hn & _); [vm_compute; congruence|]. exists s. split; [exact E|]. rewrite Hn. vm_compute. reflexivity.
Defined.

(** Installing the hosts 2000::1, 2000::2 and so on. *)
Definition many (n : nat) : list plist_call :=
  (λ i, Install AFI_IP6 name_a (-1) PREFIX_PERMIT (Prefix AF_INET6 128 ([32; 0] ++ replicate 13 0 ++ [Z.of_nat i])) 0 0 false) <$> seq 1 n.
Definition sent_after (ks : list plist_call) (k : Z * Z) (remove : bool) : M stream :=
  '(m, _) ← run_plist (new_master false) ks;
  r ← Plist.prefix_list_lookup m name_a;
  l ← match r with Some r => l ← get_list m r; Ok (Some (entries l)) | None => Ok None end;
  refresh_packet (replicate 4096 0) true k ORF_TYPE_PREFIX 1 remove l.
Example long_list_fits : match sent_after (many 169) (2, 1) false with Ok s => endp s = 4083 | Fault _ => False end.
Proof. vm_compute. reflexivity. Qed.
Example long_list_aborts : sent_after (many 170) (2, 1) false = Fault Aborted.
Proof. vm_compute. reflexivity. Qed.

(** The calls into the prefix lists, and whether the family has one then, when the
    other router receives what is sent after [ks]. *)
Definition arrives (ks : list plist_call) (remove : bool) : M (list orf_call * bool) :=
  s ← sent_after ks (1, 1) remove;
  st ← bgp_route_refresh_receive sample_env (orf_answer sample_host (new_master false)) (refresh_session (drop 19 (contents s))) (zlen (contents s) - 19);
  m ← run_orf sample_host (new_master false) (orf_calls st);
  r ← Plist.prefix_list_lookup m (orf_name sample_host (1, 1));
  Ok (orf_calls st, is_some r).

(** Two entries that differ in the host bytes of their prefix only: the second one is
    a duplicate on the other side, and the whole list is removed there. *)
Definition unmasked : list plist_call :=
  [Install AFI_IP name_a 5 PREFIX_PERMIT (net 10 1 8) 0 24 false; Install AFI_IP name_a 10 PREFIX_PERMIT (net 10 2 8) 0 24 false].
Example unmasked_accepted : match run_plist (new_master false) unmasked with Ok (_, rs) => rs = [Code CMD_SUCCESS; Code CMD_SUCCESS] | Fault _ => False end.
Proof. vm_compute. reflexivity. Qed.
Example unmasked_lost : match arrives unmasked false with
  | Ok (cs, found) => length cs = 4%nat ∧ last (take 3 cs) = Some (Message.prefix_bgp_orf_remove_all (1, 1)) ∧ found = false | Fault _ => False end.
Proof. vm_compute. auto. Qed.

(** The request to remove all entries takes one byte and is ignored: no call is made. *)
Example remove_all_ignored : match arrives [] true with Ok (cs, _) => cs = [] | Fault _ => False end.
Proof. vm_compute. reflexivity. Qed.
